(* ===== verification/_CoqProject ===== *)
-Q . S2P
Prelude.v
Mem.v
Str.v
State.v
Spin.v
Boot.v
Cons.v
MainLib.v
Kalloc.v
Vm.v
Frame.v
VmSpec.v
MainVm.v
Mlq.v
Proc.v
ProcSpec.v
ProcWait.v
Sched.v
SchedSpec.v
MainSched.v
Pipe.v
MainSync.v
Blk.v
Bio.v
Log.v
Fs.v
File.v
Life.v
ConsDev.v
Syscall.v
Sysfile.v
Exec.v
Trap.v
Table.v
Safe.v
SafeCalls.v
Reach.v
MainProc.v
BioSpec.v
Cache.v
BioInit.v
LogSpec.v
Crash.v
Recover.v
Txn.v
MainFs.v
FsLogic.v
FsDisk.v
FsMap.v
FsAlloc.v
FsInode.v
FsFile.v
FsTrunc.v
FsPath.v
FsOp.v
FsDir.v
FsLink.v
FsCheck.v
MainFile.v
MainDir.v
Mkfs.v
MkfsSpec.v
MainMkfs.v
Hw.v
Chips.v
Kbd.v
Ide.v
Mp.v
Bootmain.v
Seg.v
MainDev.v
Grep.v
Umalloc.v
Printf.v
Sh.v
ShSpec.v
ShPrint.v
ShRun.v
Progs.v
MainUser.v
