(* ===== verification/Prelude.v ===== *)
(** * A verification of the xv6 kernel with added schedulers

    The program is a Unix-like teaching kernel for the i386 (under [src/]), with
    four scheduling policies chosen at build time (round robin, FCFS, PRIORITY and
    a multi-level feedback queue), the system calls [waitx], [getpinfo], [ps] and
    [set_priority], and its user programs.  This library translates the code
    into Rocq functions, one per C function, and proves what makes it correct.

    ** How the code is modelled

    The globals of the kernel are the fields of one record, [State.kernel]; a
    kernel function is a computation over it ([K], the monad [Prelude.M]).  It
    ends by returning ([Ret]), by giving up the processor in [sched] ([Switch]),
    by waiting for a spin lock of another processor ([Spin]), in [panic]
    ([Panic]), or by doing what C leaves undefined, such as an access outside an
    array or through a null pointer ([Fault]).  What a function does after it has
    been scheduled again is a function of its own, named [..._resume].  Pointers
    to entries of the fixed tables (processes, buffers, inodes, files) are
    indices; memory is a finite map from addresses to bytes ([Mem]), and page
    tables and the free list of pages are words in it, as in the code.  Machine
    integers are [Z] with the wrap-around written out ([u32], [s32], [u8], ...).
    Loops whose end is not structural have fuel; the bound is the size of what
    they traverse and is stated where they are defined, and the theorems about
    them prove that they end within it.

    ** The parts

    - [Prelude] (this file): record update, machine integers, the monad and its
      assertions ([wp] for total correctness, [wpp] and [stays] for safety),
      arrays, characters, the hint databases [xv6], [quiet] and [safe] and the
      tactics of the library.
    - Strings and printing: [Mem] and [Str] (string.c, ulib.c), [Cons] (printint
      and cprintf of console.c), [MainLib].
    - Processors and locks: [State] (the structs of the headers), [Spin]
      (spinlock.c, mycpu, myproc, pushcli, popcli), [Boot] (the globals at the
      start and sample machines).
    - Memory: [Kalloc] (kalloc.c), [Vm], [VmSpec] (vm.c), [MainVm].
    - Processes: [Mlq] (the queues q0..q4), [Proc] (allocproc, growproc, sleep,
      wakeup, wait, waitx, kill, getpinfo, ps, set_priority), [Life] (userinit,
      fork, exit, forkret), [Sched] (scheduler and ageing), [ProcSpec],
      [ProcWait], [SchedSpec] (their specifications), [MainProc], [MainSched].
    - The invariant of the process table: [Frame] (what most code leaves alone),
      [Table] (the invariant), [Safe] (the code of the kernel as the operations of
      proc.c and code that leaves the table alone, [kernel_code], which preserves
      it), [SafeCalls] (the system calls are such code), [Reach] (the steps of the
      machine, hence the invariant in every reachable state).
    - Pipes: [Pipe] (pipe.c), [MainSync].
    - Disk: [Blk] (bytes of a block), [Bio], [BioSpec], [Cache], [BioInit]
      (sleeplock.c, bio.c, memide.c), [Log], [LogSpec], [Crash], [Recover], [Txn]
      (log.c), [MainFs].
    - Files: [Fs] (fs.c), [File] (file.c), [ConsDev] (the console as a device),
      [Sysfile] (sysfile.c), [Exec] (exec.c).  Their specification is in layers:
      [FsLogic] (a program logic on the view of the disk that cache and log give,
      with the blocks an operation may still log), [FsDisk] (bitmap, inodes and
      blocks on the disk), [FsMap], [FsAlloc], [FsInode] (bmap, balloc, ilock and
      iupdate), [FsFile], [FsTrunc] (readi, writei, itrunc), [FsPath], [FsDir],
      [FsLink] (directories and paths), [FsOp] (whole operations with their
      transaction), [FsCheck] (instances), [MainFile], [MainDir].
    - The image: [Mkfs], [MkfsSpec] (mkfs.c), [MainMkfs].
    - Kernel entry: [Syscall] (syscall.c, sysproc.c), [Trap] (trap.c), [Seg]
      (segments and gates: mmu.h, seginit, tvinit, idtinit).
    - Devices: [Hw] (the machine around the kernel: the class [Hw.Hw] of any devices
      that answer to port and memory accesses, and the drivers' monad [D]), [Chips]
      (picirq.c, ioapic.c, uart.c, lapic.c and the screen of console.c), [Kbd]
      (kbd.c, kbd.h and consoleintr), [Ide] (ide.c), [Mp] (mp.c), [Bootmain]
      (bootmain.c), [MainDev].  What a driver relies on of its device is a class of
      laws with an instance: [KbdController], [Crt] and [Ata], to which [AtaReliable]
      adds that the disk reports no error and [AtaPrompt] that it takes data right
      after a write command.
    - User programs: [Grep] (grep.c), [Umalloc] (umalloc.c), [Printf] (printf.c),
      [Sh], [ShSpec], [ShPrint], [ShRun] (sh.c), [Progs] (cat, wc, echo, kill, ln,
      mkdir, rm, ls, gets, stat and getcmd on the system calls of the class [Sys]),
      [MainUser].

    The files named [Main...] hold the main theorems with an instance of each at
    a concrete state or input; the other files hold the definitions and the
    lemmas.

    ** What the theorems show

    - File system ([MainFs]): an operation bracketed by begin_op and end_op puts
      all its updates on the disk, and a crash behind any of its disk writes
      followed by recovery leaves all or none of them; recovery performs exactly
      the writes the header asks for; bread returns what was last written; binit
      establishes, and brelse preserves, the invariant of the cache and its LRU
      list.
    - Files ([MainFile], [MainDir]): filewrite puts exactly its bytes into the
      file, leaves the other files and inodes alone and is atomic under crashes,
      fileread returns them; bmap and balloc lose no block and share none; iput
      frees exactly the blocks of the last reference; namex finds the inode that
      the directories on the disk lead to and gives every other reference back;
      dirlink adds exactly one name.
    - Image ([MainMkfs]): mkfs writes a well-formed file system, with a bitmap of
      exactly the blocks in use, on which the kernel's namex finds every file with
      its bytes; [mkfs_full_directory] is an image for which it goes wrong, and which
      the side condition of both theorems excludes.
    - Devices ([MainDev]): on a disk without errors the IDE driver does what the
      memory disk does and serves its queue in order, and it takes a read that
      failed for a valid one; a text typed on a US keyboard ([us_rows], the keys
      of the keyboard row by row, is independent of the driver's tables) reaches
      the console; the screen is a terminal; mpinit reads the processors, and
      loops on an unknown entry; the boot loader loads the segments of the kernel,
      aligned or not; user code can enter the kernel only through the system
      call's gate.
    - Processes ([MainProc], [MainSched]): the table is well formed in every state
      reachable from boot by steps of any processor, as long as the pids last
      ([nextpid] below the largest [int], which the code does not check); sleep loses
      no wakeup, wherever in it ([sleep_steps]) another processor comes to wake the
      channel; the exact effect of allocproc, exit, wait, kill and wakeup; a pass of
      the round-robin scheduler, whatever the processes do while they run; what each
      scheduling policy picks, and where the added code departs from what it means to
      do (ageing, FCFS, the overflow of q0).
    - Memory ([MainVm]): the page allocator refines a stack of pages; mappages,
      deallocuvm and freevm change exactly the mappings and pages they should.
    - Synchronisation ([MainSync]): acquire on every branch, critical sections,
      pipes as FIFOs through the wrap-around of their counters.
    - Library ([MainLib]): memmove on overlapping ranges, printint and atoi,
      strncpy, safestrcpy.
    - User programs ([MainUser]): grep prints exactly the lines that match the
      language of its pattern; malloc and free, for requests below 2^31 - 16
      bytes, never hand out overlapping blocks; the shell's parser inverts
      printing and deals with every line; runcmd wires pipelines and redirections
      up and waits for the processes it should; printf agrees with cprintf; cat
      writes and wc counts its files however the reads divide them.

    ** Assumptions

    Memory is sequentially consistent and a function runs to its next [Switch]
    without interleaving of other processors' steps on the data its locks protect.
    The exceptions are the steps of [Reach], where the code of a system call may be
    run in pieces, with those of other processors between them, and the statements
    of sleep.  Disk writes reach the disk in the order they are issued and
    one block is written atomically.  The characters a trap reads from the devices,
    the processes the scheduler switches to, the answers of the hardware and
    whether frames are available to [sbrk] are parameters of the definitions that
    use them.  The file system runs on the memory disk (memide.c), which sleeps
    nowhere; [MainDev.ide_refines_memdisk] relates it to the IDE driver.

    ** Bounds and fuel

    A loop that waits for a device has fuel [polls] and a program that reads has
    fuel [fuel]; the theorems hold for every value larger than the number of polls
    the device may ask for, or the bytes there are to read, and running out is the
    outcome [Spin].  The loops of the file system have the number of bytes, blocks
    or path elements they go through as fuel; the theorems about them ask for a
    transaction that still has room for the blocks they log ([log_fits]) and for
    paths whose directories can be walked ([can_walk]); those about mkfs ask that
    the files fit on the image ([fits]).

    ** Not modelled

    The assembly files (machine code: a context switch is the outcome [Switch], a
    trap frame is memory, the table of entry points [vectors] a parameter), main.c
    (a fixed sequence of the initialisations and the start of the other
    processors), panic's register dump and [display_queues] (debug output),
    end-of-interrupt in [trap], the user programs that only fork, loop or print
    (init, zombie, time, ps, pinfo, set_priority and the like) and usertests.c,
    which tests the system calls. *)
From stdpp Require Export numbers strings gmap list list_numbers prelude.

#[global] Set Warnings "-postfix-notation-not-level-1".

Declare Scope xv6_scope.
Delimit Scope xv6_scope with xv6.
#[global] Open Scope xv6_scope.
#[global] Open Scope Z_scope.

(** * Record update

    C assigns one field of a struct at a time.  [x <| f := v |>] is the record
    [x] with field [f] replaced: [Eta R] rebuilds a record from its projections
    and the setter of a projection is read off that expansion. *)

Class Eta (R : Type) := eta : R → R.
Class Setter {R T} (proj : R → T) := upd : (T → T) → R → R.
Arguments upd {R T} proj {_} _ _ /.

Ltac solve_setter :=
  match goal with
  | |- @Setter ?R ?T ?proj =>
      let f := fresh "f" in
      let r := fresh "r" in
      refine (fun (f : T → T) (r : R) => _);
      let e := eval cbv beta delta [eta] in (eta r) in
      let i := (match e with ?inst r => inst end) in
      let e' := (match i with
                 | ?c ?x => eval cbv beta delta [c] in (c x r)
                 | ?c => eval cbv beta delta [c] in (c r)
                 end) in
      match eval pattern (proj r) in e' with
      | ?F _ => let b := eval cbv beta in (F (f (proj r))) in exact b
      end
  end.
#[export] Hint Extern 0 (Setter _) => solve_setter : typeclass_instances.

Notation "x <| proj := v |>" := (upd proj (fun _ => v) x)
  (at level 12, left associativity, format "x  <| proj  :=  v |>") : xv6_scope.

(** * Machine integers

    [uint], [ushort], [uchar] are residues; [int] and [short] are the two's
    complement reading of the residue, which is what the i386 instructions the
    kernel is compiled to compute. *)

Definition u32 (z : Z) : Z := z mod 4294967296.
Definition u16 (z : Z) : Z := z mod 65536.
Definition u8 (z : Z) : Z := z mod 256.
Definition s32 (z : Z) : Z := (z + 2147483648) mod 4294967296 - 2147483648.
Definition s16 (z : Z) : Z := (z + 32768) mod 65536 - 32768.
Definition s8 (z : Z) : Z := (z + 128) mod 256 - 128.

(** C truth values. *)
Definition b2z (b : bool) : Z := if b then 1 else 0.
Definition truthy (z : Z) : bool := negb (z =? 0).
Lemma truthy_true c : truthy c = true ↔ c ≠ 0.
Proof. unfold truthy. destruct (Z.eqb_spec c 0); naive_solver. Qed.
Lemma truthy_false c : truthy c = false ↔ c = 0.
Proof. unfold truthy. destruct (Z.eqb_spec c 0); naive_solver. Qed.

(** * Outcomes and the kernel monad

    A kernel function runs on a state and
    - returns a value ([Ret]),
    - gives the CPU away through [swtch] in [sched] ([Switch]),
    - busy-waits on a spinlock another CPU holds ([Spin]),
    - halts the machine in [panic] ([Panic]), or
    - does something C leaves undefined, such as an array access out of range
      or a null dereference ([Fault]). *)

Inductive outcome (S A : Type) : Type :=
| Ret (a : A) (s : S)
| Switch (s : S)
| Spin (s : S)
| Panic (msg : string)
| Fault (msg : string).
Arguments Ret {S A} a s.
Arguments Switch {S A} s.
Arguments Spin {S A} s.
Arguments Panic {S A} msg.
Arguments Fault {S A} msg.

Definition M (S A : Type) : Type := S → outcome S A.

Definition ret {S A} (a : A) : M S A := λ s, Ret a s.
Definition bind {S A B} (m : M S A) (k : A → M S B) : M S B := λ s,
  match m s with
  | Ret a s' => k a s'
  | Switch s' => Switch s'
  | Spin s' => Spin s'
  | Panic e => Panic e
  | Fault e => Fault e
  end.

Notation "x ← y ; z" := (bind y (λ x : _, z))
  (at level 20, y at level 100, z at level 200, only parsing) : xv6_scope.
Notation "' x ← y ; z" := (bind y (λ x : _, z))
  (at level 20, x pattern, y at level 100, z at level 200, only parsing) : xv6_scope.
(** The same for partial pure code. *)
Notation "x ←? y ; z" := (match y with Some x => z | None => None end)
  (at level 20, y at level 100, z at level 200, only parsing) : xv6_scope.
Notation "x ;; z" := (bind x (λ _, z))
  (at level 100, z at level 200, right associativity) : xv6_scope.

Definition panic {S A} (msg : string) : M S A := λ _, Panic msg.
Definition fault {S A} (msg : string) : M S A := λ _, Fault msg.
Definition swtch {S A} : M S A := λ s, Switch s.
Definition spin {S A} : M S A := λ s, Spin s.
Definition gets {S A} (f : S → A) : M S A := λ s, Ret (f s) s.
Definition modify {S} (f : S → S) : M S unit := λ s, Ret tt (f s).
Definition when {S} (b : bool) (m : M S unit) : M S unit :=
  if b then m else ret tt.

(** A value that must be there: the null or out-of-range case is undefined. *)
Definition get_or {S A} (msg : string) (o : option A) : M S A :=
  match o with Some a => ret a | None => fault msg end.

(** [for (x in l) f x], the loop over a fixed range of indices. *)
Fixpoint for_each {S A} (l : list A) (f : A → M S unit) : M S unit :=
  match l with
  | [] => ret tt
  | x :: l' => f x ;; for_each l' f
  end.

(** ** Rewriting rules of the monad *)

Lemma bind_ret_eq {S A B} (m : M S A) (k : A → M S B) s a s' :
  m s = Ret a s' → (bind m k) s = k a s'.
Proof. intros H. unfold bind. by rewrite H. Qed.

Lemma bind_Ret_inv {S A B} (m : M S A) (k : A → M S B) s b s' :
  (bind m k) s = Ret b s' → ∃ a s1, m s = Ret a s1 ∧ k a s1 = Ret b s'.
Proof. unfold bind. destruct (m s) eqn:E; naive_solver. Qed.

(** Run the first three statements of a block at once. *)
Lemma bind2_ret_eq {S A B C} (m1 : M S A) (m2 : M S B) (k : M S C) s b s' :
  (m1 ;; m2) s = Ret b s' → (m1 ;; m2 ;; k) s = k s'.
Proof.
  unfold bind. destruct (m1 s) as [a1 s1| | | |]; try discriminate. by intros ->.
Qed.
Lemma bind3_ret_eq {S A B C D} (m1 : M S A) (m2 : M S B) (m3 : M S C) (k : M S D) s c s' :
  (m1 ;; m2 ;; m3) s = Ret c s' → (m1 ;; m2 ;; m3 ;; k) s = k s'.
Proof.
  unfold bind. destruct (m1 s) as [? s1| | | |]; try done.
  destruct (m2 s1) as [? s2| | | |]; try done. by intros ->.
Qed.

(** ** Total-correctness assertions

    [wp m Q s]: from [s] the code [m] returns, and what it returns satisfies
    [Q].  Panics, faults, spinning and switching away all refute it. *)

Definition wp {S A} (m : M S A) (Q : A → S → Prop) (s : S) : Prop :=
  match m s with Ret a s' => Q a s' | _ => False end.

Lemma wp_ret {S A} (a : A) (Q : A → S → Prop) s : Q a s → wp (ret a) Q s.
Proof. done. Qed.

Lemma wp_bind {S A B} (m : M S A) (k : A → M S B) Q s :
  wp m (λ a s', wp (k a) Q s') s → wp (bind m k) Q s.
Proof. unfold wp, bind. by destruct (m s). Qed.

Lemma wp_mono {S A} (m : M S A) (Q R : A → S → Prop) s :
  wp m Q s → (∀ a s', Q a s' → R a s') → wp m R s.
Proof. unfold wp. destruct (m s); naive_solver. Qed.

Lemma wp_run {S A} (m : M S A) Q s : wp m Q s → ∃ a s', m s = Ret a s' ∧ Q a s'.
Proof. unfold wp. destruct (m s); naive_solver. Qed.

Lemma wp_of_eq {S A} (m : M S A) Q s a s' : m s = Ret a s' → Q a s' → wp m Q s.
Proof. unfold wp. by intros ->. Qed.

Lemma wp_modify {S} (f : S → S) Q s : Q tt (f s) → wp (modify f) Q s.
Proof. done. Qed.

Lemma wp_gets {S A} (f : S → A) Q s : Q (f s) s → wp (gets f) Q s.
Proof. done. Qed.

Lemma wp_for_each {S A} (I : list A → S → Prop) (l : list A) (f : A → M S unit) s :
  I l s →
  (∀ x l' s1, I (x :: l') s1 → wp (f x) (λ _, I l') s1) →
  wp (for_each l f) (λ _, I []) s.
Proof.
  intros HI Hf. revert s HI. induction l as [|x l IH]; intros s HI; simpl.
  - by apply wp_ret.
  - apply wp_bind. eapply wp_mono; [by apply Hf|]. intros [] s'. apply IH.
Qed.

(** ** Safety assertions

    [wpp m Q W V s]: if [m] returns from [s] the result satisfies [Q], if it
    gives up the processor the state satisfies [W], and if it spins, [V].  This is the
    assertion used for invariants: they must hold in every state other code can
    see, whether the operation has finished or not. *)

Definition wpp {S A} (m : M S A) (Q : A → S → Prop) (W V : S → Prop) (s : S) : Prop :=
  match m s with
  | Ret a s' => Q a s'
  | Switch s' => W s'
  | Spin s' => V s'
  | _ => True
  end.

(** The operation preserves [R] from the state it starts in, and does not give
    up the processor. *)
Definition stays {S A} (R : S → S → Prop) (m : M S A) : Prop :=
  ∀ s, wpp m (λ _, R s) (λ _, False) (R s) s.

Section wpp.
Context {S : Type}.
Implicit Types (W V : S → Prop) (s : S).

Lemma wpp_ret {A} (a : A) (Q : A → S → Prop) W V s : Q a s → wpp (ret a) Q W V s.
Proof. done. Qed.
Lemma wpp_bind {A B} (m : M S A) (k : A → M S B) Q W V s :
  wpp m (λ a s', wpp (k a) Q W V s') W V s → wpp (bind m k) Q W V s.
Proof. unfold wpp, bind. by destruct (m s). Qed.
Lemma wpp_gets {A} (f : S → A) Q W V s : Q (f s) s → wpp (gets f) Q W V s.
Proof. done. Qed.
Lemma wpp_modify (f : S → S) Q W V s : Q tt (f s) → wpp (modify f) Q W V s.
Proof. done. Qed.
Lemma wpp_panic {A} e (Q : A → S → Prop) W V s : wpp (panic e) Q W V s.
Proof. done. Qed.
Lemma wpp_fault {A} e (Q : A → S → Prop) W V s : wpp (fault e) Q W V s.
Proof. done. Qed.
Lemma wpp_swtch {A} (Q : A → S → Prop) W V s : W s → wpp swtch Q W V s.
Proof. done. Qed.
Lemma wpp_spin {A} (Q : A → S → Prop) W V s : V s → wpp spin Q W V s.
Proof. done. Qed.
Lemma wpp_get_or {A} e (o : option A) (Q : A → S → Prop) W V s :
  (∀ a, o = Some a → Q a s) → wpp (get_or e o) Q W V s.
Proof. intros H. destruct o; [by apply H|done]. Qed.
Lemma wpp_when b (m : M S unit) Q W V s :
  (b = true → wpp m Q W V s) → (b = false → Q tt s) → wpp (when b m) Q W V s.
Proof. destruct b; naive_solver. Qed.
Lemma wpp_if {A} (b : bool) (m1 m2 : M S A) Q W V s :
  (b = true → wpp m1 Q W V s) → (b = false → wpp m2 Q W V s) →
  wpp (if b then m1 else m2) Q W V s.
Proof. destruct b; naive_solver. Qed.
Lemma wpp_mono {A} (m : M S A) (Q R : A → S → Prop) W V W' V' s :
  wpp m Q W V s → (∀ a s', Q a s' → R a s') → (∀ s', W s' → W' s') → (∀ s', V s' → V' s') →
  wpp m R W' V' s.
Proof. unfold wpp. destruct (m s); naive_solver. Qed.
Lemma wpp_and {A} (m : M S A) (Q R : A → S → Prop) W V s :
  wpp m Q W V s → wpp m R W V s → wpp m (λ a s', Q a s' ∧ R a s') W V s.
Proof. unfold wpp. by destruct (m s). Qed.
Lemma wpp_for_each {A} (I : S → Prop) (l : list A) (f : A → M S unit) W V s :
  I s → (∀ x s1, x ∈ l → I s1 → wpp (f x) (λ _, I) W V s1) →
  wpp (for_each l f) (λ _, I) W V s.
Proof.
  revert s. induction l as [|x l IH]; intros s HI Hf; simpl; [done|].
  apply wpp_bind. eapply wpp_mono; [apply Hf; [left|done]| |done|done].
  intros [] s' HI'. apply IH; [done|]. intros y s1 Hy. apply Hf. by right.
Qed.
Lemma wpp_for_each_app {A} (l1 l2 : list A) (f : A → M S unit) Q W V s :
  wpp (for_each l1 f) (λ _, wpp (for_each l2 f) Q W V) W V s → wpp (for_each (l1 ++ l2) f) Q W V s.
Proof.
  revert s. induction l1 as [|x l1 IH]; intros s; [done|]. unfold wpp, bind. simpl. unfold bind.
  destruct (f x s) as [[] s'| | | |]; [apply IH|done..].
Qed.
(** Code that stays within [R] can be stepped over. *)
Lemma wpp_stays {A} (R : S → S → Prop) (m : M S A) (Q : A → S → Prop) W V s :
  stays R m → (∀ a s', R s s' → Q a s') → (∀ s', R s s' → V s') → wpp m Q W V s.
Proof. intros Hm HQ HV. eapply wpp_mono; [apply Hm|done|done|done]. Qed.

Context (R : S → S → Prop) `{!PreOrder R}.

Lemma stays_ret {A} (a : A) : stays R (ret a).
Proof. intros s. by apply wpp_ret. Qed.
Lemma stays_bind {A B} (m : M S A) (k : A → M S B) :
  stays R m → (∀ a, stays R (k a)) → stays R (bind m k).
Proof.
  intros Hm Hk s. apply wpp_bind. eapply wpp_stays; [done| |done].
  intros a s' HR. eapply wpp_mono; [apply Hk| |done|]; intros; by etrans.
Qed.
Lemma stays_gets {A} (f : S → A) : stays R (gets f).
Proof. intros s. by apply wpp_gets. Qed.
Lemma stays_modify (f : S → S) : (∀ s, R s (f s)) → stays R (modify f).
Proof. intros H s. by apply wpp_modify. Qed.
Lemma stays_panic {A} e : stays R (panic (A := A) e).
Proof. by intros s. Qed.
Lemma stays_fault {A} e : stays R (fault (A := A) e).
Proof. by intros s. Qed.
Lemma stays_spin {A} : stays R (spin (A := A)).
Proof. intros s. by apply wpp_spin. Qed.
Lemma stays_get_or {A} e (o : option A) : stays R (get_or e o).
Proof. destruct o; [apply stays_ret|apply stays_fault]. Qed.
Lemma stays_when b (m : M S unit) : stays R m → stays R (when b m).
Proof. intros. destruct b; [done|apply stays_ret]. Qed.
Lemma stays_for_each {A} (l : list A) (f : A → M S unit) :
  (∀ x, stays R (f x)) → stays R (for_each l f).
Proof.
  intros Hf. induction l as [|x l IH]; simpl; [apply stays_ret|].
  apply stays_bind; [done|]. by intros.
Qed.
End wpp.

(** * Characters

    A [char] is its code; [ch] gives the character of a one-letter literal. *)

Definition ch (s : string) : Z :=
  match s with String a _ => Z.of_nat (Ascii.nat_of_ascii a) | EmptyString => 0 end.
Arguments ch : simpl never.

(** The bytes of a string literal. *)
Fixpoint chars (s : string) : list Z :=
  match s with
  | EmptyString => []
  | String a s' => Z.of_nat (Ascii.nat_of_ascii a) :: chars s'
  end.
Definition NL : string := String (Ascii.ascii_of_nat 10) EmptyString.
Definition TAB : string := String (Ascii.ascii_of_nat 9) EmptyString.
Definition ESC : string := String (Ascii.ascii_of_nat 27) EmptyString.

(** * Arrays

    C arrays of a fixed length as lists indexed by [Z]; an access outside is
    undefined. *)

Definition aget {A} (l : list A) (i : Z) : option A :=
  if i <? 0 then None else l !! Z.to_nat i.
Definition aset {A} (l : list A) (i : Z) (x : A) : option (list A) :=
  if (0 <=? i) && (i <? Z.of_nat (length l)) then Some (<[Z.to_nat i := x]> l)
  else None.

Lemma aget_nat {A} (l : list A) (i : nat) : aget l (Z.of_nat i) = l !! i.
Proof. unfold aget. destruct (Z.ltb_spec (Z.of_nat i) 0); [lia|]. by rewrite Nat2Z.id. Qed.

Lemma aset_nat {A} (l : list A) (i : nat) x :
  (i < length l)%nat → aset l (Z.of_nat i) x = Some (<[i := x]> l).
Proof.
  intros H. unfold aset.
  destruct (Z.leb_spec 0 (Z.of_nat i)), (Z.ltb_spec (Z.of_nat i) (Z.of_nat (length l)));
    simpl; try lia. by rewrite Nat2Z.id.
Qed.

Lemma aset_oob {A} (l : list A) i x :
  Z.of_nat (length l) ≤ i → aset l i x = None.
Proof.
  intros H. unfold aset. destruct (Z.ltb_spec i (Z.of_nat (length l))); [lia|].
  by rewrite andb_false_r.
Qed.

Lemma alter_lookup {A} (f : A → A) (l : list A) i x :
  l !! i = Some x → alter f i l = <[i := f x]> l.
Proof.
  revert i. induction l as [|y l IH]; intros [|i] H; simplify_eq/=; [done|].
  by rewrite IH.
Qed.

Lemma alter_insert_same {A} (f : A → A) (l : list A) i x :
  (i < length l)%nat → alter f i (<[i := x]> l) = <[i := f x]> l.
Proof.
  intros H. erewrite alter_lookup by by apply list_lookup_insert_eq.
  by rewrite list_insert_insert_eq.
Qed.

Lemma alter_alter {A} (f g : A → A) (l : list A) i :
  alter f i (alter g i l) = alter (λ x, f (g x)) i l.
Proof. revert i. induction l as [|x l IH]; intros [|i]; simpl; [done..|]. f_equal. apply IH. Qed.

(** [for (i = 0; i < n; i++) if (f (l[i])) break;]: the first index. *)
Fixpoint find_first {A} (f : A → bool) (l : list A) : option nat :=
  match l with
  | [] => None
  | x :: l' => if f x then Some 0%nat else S <$> find_first f l'
  end.

Lemma find_first_Some {A} (f : A → bool) l i :
  find_first f l = Some i ↔
  ∃ x, l !! i = Some x ∧ f x = true ∧ ∀ j y, (j < i)%nat → l !! j = Some y → f y = false.
Proof.
  revert i. induction l as [|x l IH]; intros i; simpl.
  { split; [done|]. by intros (y & Hy & _). }
  destruct (f x) eqn:Ef.
  - split.
    + intros [= <-]. exists x. repeat split; [done|]. intros; lia.
    + intros (y & Hy & Hf & Hmin). destruct i as [|i]; [done|].
      specialize (Hmin 0%nat x ltac:(lia) eq_refl). congruence.
  - destruct (find_first f l) as [k|] eqn:Ek; simpl.
    + split.
      * intros [= <-]. destruct (proj1 (IH k) eq_refl) as (y & Hy & Hf & Hmin).
        exists y. repeat split; [done..|]. intros [|j] z Hj Hz; simplify_eq/=; [done|].
        eapply Hmin; [|done]. lia.
      * intros (y & Hy & Hf & Hmin). destruct i as [|i]; simplify_eq/=; [congruence|].
        f_equal. enough (Some k = Some i) by congruence. apply IH.
        exists y. repeat split; [done..|]. intros j z Hj Hz.
        apply (Hmin (S j)); [lia|done].
    + split; [done|]. intros (y & Hy & Hf & Hmin). destruct i as [|i]; simplify_eq/=; [congruence|].
      enough (None = Some i) by done. apply IH. exists y. repeat split; [done..|].
      intros j z Hj Hz. apply (Hmin (S j)); [lia|done].
Qed.

Lemma find_first_None {A} (f : A → bool) l :
  find_first f l = None ↔ ∀ x, x ∈ l → f x = false.
Proof.
  induction l as [|x l IH]; simpl.
  - split; [intros _ x H; by apply not_elem_of_nil in H|done].
  - destruct (f x) eqn:Ef.
    + split; [done|]. intros H. rewrite H in Ef; [done|left].
    + destruct (find_first f l); simpl.
      * split; [done|]. intros H. enough (Some n = None) by done. apply IH.
        intros y Hy. apply H. by right.
      * split; [|done]. intros _ y Hy. apply elem_of_cons in Hy as [->|Hy]; [done|].
        by apply IH.
Qed.

(** * Automation shared by the components *)

Create HintDb xv6 discriminated.
Create Rewrite HintDb xv6.
#[export] Hint Resolve wp_ret wp_modify wp_gets : xv6.

(** The operations known to stay within a preorder; matched syntactically. *)
Create HintDb quiet discriminated.
#[export] Hint Constants Opaque : quiet.
#[export] Hint Variables Opaque : quiet.

(** Code built from operations that stay within a preorder stays within it. *)
Ltac solve_stays :=
  repeat first
    [ progress cbv zeta
    | lazymatch goal with
      | |- stays _ (bind _ _) => apply stays_bind; [apply _| |intros ?]
      | |- stays _ (ret _) => apply stays_ret; apply _
      | |- stays _ (gets _) => apply stays_gets; apply _
      | |- stays _ (panic _) => apply stays_panic
      | |- stays _ (fault _) => apply stays_fault
      | |- stays _ spin => apply stays_spin; apply _
      | |- stays _ (get_or _ _) => apply stays_get_or; apply _
      | |- stays _ (when _ _) => apply stays_when; [apply _|]
      | |- stays _ (for_each _ _) => apply stays_for_each; [apply _|intros ?]
      | |- stays _ (if ?b then _ else _) => destruct b
      | |- stays _ (match ?x with _ => _ end) => destruct x
      end
    | match goal with H : ∀ _, _ |- _ => solve [simple apply H] end
    | solve [auto 1 with quiet nocore] ].

(** Decide the comparisons of a C condition in the goal. *)
Ltac case_cond :=
  repeat match goal with
  | |- context [?a <? ?b] => destruct (Z.ltb_spec a b)
  | |- context [?a <=? ?b] => destruct (Z.leb_spec a b)
  | |- context [?a =? ?b] => destruct (Z.eqb_spec a b)
  end.

(** Run the next statement with a lemma that gives its outcome. *)
Tactic Notation "run" uconstr(lem) :=
  erewrite bind_ret_eq; [|eapply lem]; simpl.

Lemma u32_small z : 0 ≤ z < 4294967296 → u32 z = z.
Proof. apply Z.mod_small. Qed.
Lemma u32_range z : 0 ≤ u32 z < 4294967296.
Proof. by apply Z.mod_pos_bound. Qed.
Lemma s32_small z : -2147483648 ≤ z < 2147483648 → s32 z = z.
Proof. intros. unfold s32. rewrite Z.mod_small; lia. Qed.
Lemma u32_u32 z : u32 (u32 z) = u32 z.
Proof. apply u32_small, u32_range. Qed.
#[export] Hint Rewrite u32_u32 : xv6.
