(* ===== verification/Mem.v ===== *)
(** * Mem: the byte memory of the kernel and [string.c]

    The kernel's address space is a finite map from addresses to bytes; an
    address that was never written reads as zero.  The loads and stores of
    32-bit words are little-endian, as on the i386.  The [mem*] functions of
    [string.c] work on this memory (their arguments may overlap); the [str*]
    functions read their argument forward only, so a [char *] is the list of
    the bytes from the pointer on, and reading past its end is undefined. *)
From S2P Require Import Prelude.

Abbreviation mem := (gmap Z Z).

Module Mem.

Definition ld8 (m : mem) (a : Z) : Z := default 0 (m !! a).
Definition st8 (m : mem) (a v : Z) : mem := <[a := u8 v]> m.

Definition ld32 (m : mem) (a : Z) : Z :=
  ld8 m a + 256 * ld8 m (a + 1) + 65536 * ld8 m (a + 2) + 16777216 * ld8 m (a + 3).
Definition st32 (m : mem) (a w : Z) : mem :=
  st8 (st8 (st8 (st8 m a w) (a + 1) (w / 256)) (a + 2) (w / 65536)) (a + 3) (w / 16777216).

(** The string instructions of x86.h: [rep stosb] and [rep stosl]. *)
Fixpoint stosb (m : mem) (a c : Z) (cnt : nat) : mem :=
  match cnt with
  | O => m
  | S cnt' => stosb (st8 m a c) (a + 1) c cnt'
  end.
Fixpoint stosl (m : mem) (a w : Z) (cnt : nat) : mem :=
  match cnt with
  | O => m
  | S cnt' => stosl (st32 m a w) (a + 4) w cnt'
  end.

(** [memset] stores whole words when address and count allow it. *)
Definition memset (m : mem) (dst c n : Z) : mem :=
  if (dst mod 4 =? 0) && (n mod 4 =? 0) then
    let c := Z.land c 255 in
    stosl m dst
      (Z.lor (Z.lor (Z.lor (Z.shiftl c 24) (Z.shiftl c 16)) (Z.shiftl c 8)) c)
      (Z.to_nat (n / 4))
  else stosb m dst c (Z.to_nat n).

Fixpoint memcmp_loop (m : mem) (s1 s2 : Z) (n : nat) : Z :=
  match n with
  | O => 0
  | S n' =>
      if negb (ld8 m s1 =? ld8 m s2) then ld8 m s1 - ld8 m s2
      else memcmp_loop m (s1 + 1) (s2 + 1) n'
  end.
Definition memcmp (m : mem) (v1 v2 n : Z) : Z := memcmp_loop m v1 v2 (Z.to_nat n).

(** [while(n-- > 0) *d++ = *s++;] *)
Fixpoint copy_up (m : mem) (d s : Z) (n : nat) : mem :=
  match n with
  | O => m
  | S n' => copy_up (st8 m d (ld8 m s)) (d + 1) (s + 1) n'
  end.
(** [while(n-- > 0) *--d = *--s;] *)
Fixpoint copy_down (m : mem) (d s : Z) (n : nat) : mem :=
  match n with
  | O => m
  | S n' => copy_down (st8 m (d - 1) (ld8 m (s - 1))) (d - 1) (s - 1) n'
  end.

Definition memmove (m : mem) (dst src n : Z) : mem :=
  if (src <? dst) && (dst <? src + n) then
    copy_down m (dst + n) (src + n) (Z.to_nat n)
  else copy_up m dst src (Z.to_nat n).
Definition memcpy (m : mem) (dst src n : Z) : mem := memmove m dst src n.

(** The bytes of a region. *)
Definition bytes (m : mem) (a : Z) (n : nat) : list Z :=
  (λ i, ld8 m (a + Z.of_nat i)) <$> seq 0 n.

(** Every byte holds a value of [uchar]. *)
Definition mem_ok (m : mem) : Prop := ∀ a, 0 ≤ ld8 m a < 256.

(** ** Bytes and words *)

Lemma ld8_st8 m a b v : ld8 (st8 m a v) b = if decide (a = b) then u8 v else ld8 m b.
Proof. unfold ld8, st8. rewrite lookup_insert. by case_decide. Qed.

Lemma u8_range v : 0 ≤ u8 v < 256.
Proof. by apply Z.mod_pos_bound. Qed.
Lemma u8_small v : 0 ≤ v < 256 → u8 v = v.
Proof. apply Z.mod_small. Qed.

Lemma mem_ok_st8 m a v : mem_ok m → mem_ok (st8 m a v).
Proof. intros H b. rewrite ld8_st8. case_decide; [apply u8_range|apply H]. Qed.

Lemma mem_ok_empty : mem_ok ∅.
Proof. intros a. unfold ld8. rewrite lookup_empty. simpl. lia. Qed.
#[export] Hint Resolve mem_ok_st8 mem_ok_empty : xv6.

Lemma mem_ok_st32 m a w : mem_ok m → mem_ok (st32 m a w).
Proof. intros H. unfold st32. auto 6 with xv6. Qed.
#[export] Hint Resolve mem_ok_st32 : xv6.

Ltac st8_cases := rewrite ?ld8_st8; repeat case_decide; try lia.

Lemma ld8_st32_out m a w b : (b < a ∨ a + 4 ≤ b) → ld8 (st32 m a w) b = ld8 m b.
Proof. intros H. unfold st32. st8_cases. Qed.

Lemma ld32_st32_eq m a w : ld32 (st32 m a w) a = u32 w.
Proof.
  unfold ld32, st32. st8_cases. unfold u8, u32.
  Z.div_mod_to_equations. lia.
Qed.

Lemma ld32_st32_ne m a w b : (b + 4 ≤ a ∨ a + 4 ≤ b) → ld32 (st32 m a w) b = ld32 m b.
Proof. intros H. unfold ld32. rewrite !ld8_st32_out by lia. done. Qed.

Lemma ld32_range m a : mem_ok m → 0 ≤ ld32 m a < 4294967296.
Proof.
  intros H. unfold ld32.
  pose proof (H a). pose proof (H (a + 1)). pose proof (H (a + 2)). pose proof (H (a + 3)).
  lia.
Qed.

(** A word is determined by its four bytes. *)
Lemma ld32_ext m1 m2 a :
  (∀ b, a ≤ b < a + 4 → ld8 m1 b = ld8 m2 b) → ld32 m1 a = ld32 m2 a.
Proof. intros H. unfold ld32. rewrite !H by lia. done. Qed.

(** ** memset *)

Lemma ld8_stosb m a c n b :
  ld8 (stosb m a c n) b =
  if decide (a ≤ b < a + Z.of_nat n) then u8 c else ld8 m b.
Proof.
  revert m a. induction n as [|n IH]; intros m a; simpl.
  - case_decide; [lia|done].
  - rewrite IH. st8_cases; done.
Qed.

Lemma ld8_stosl m a w n b :
  ld8 (stosl m a w n) b =
  if decide (a ≤ b < a + 4 * Z.of_nat n) then u8 (w / 256 ^ ((b - a) mod 4))
  else ld8 m b.
Proof.
  revert m a. induction n as [|n IH]; intros m a; simpl.
  - case_decide; [lia|done].
  - rewrite IH. destruct (decide (a + 4 ≤ b)) as [Hb|Hb].
    + rewrite ld8_st32_out by lia.
      replace ((b - (a + 4)) mod 4) with ((b - a) mod 4) by (Z.div_mod_to_equations; lia).
      repeat case_decide; try lia; done.
    + rewrite decide_False by lia.
      destruct (decide (a ≤ b)); [|rewrite ld8_st32_out, decide_False by lia; done].
      rewrite decide_True by lia. unfold st32.
      assert (b = a ∨ b = a + 1 ∨ b = a + 2 ∨ b = a + 3) as [->|[->|[->| ->]]] by lia.
      * rewrite Z.sub_diag. st8_cases. change (256 ^ (0 mod 4)) with 1.
        by rewrite Z.div_1_r.
      * replace (a + 1 - a) with 1 by lia. st8_cases. done.
      * replace (a + 2 - a) with 2 by lia. st8_cases. done.
      * replace (a + 3 - a) with 3 by lia. st8_cases. done.
Qed.

Lemma land_255 c : Z.land c 255 = u8 c.
Proof. change 255 with (Z.ones 8). by rewrite Z.land_ones. Qed.

(** The replicated word: each of its bytes is [c]. *)
Lemma splat_byte c k :
  0 ≤ c < 256 → 0 ≤ k < 4 →
  u8 (Z.lor (Z.lor (Z.lor (Z.shiftl c 24) (Z.shiftl c 16)) (Z.shiftl c 8)) c / 256 ^ k) = c.
Proof.
  intros Hc Hk.
  assert (Forall (λ c, Forall (λ k,
    u8 (Z.lor (Z.lor (Z.lor (Z.shiftl c 24) (Z.shiftl c 16)) (Z.shiftl c 8)) c / 256 ^ k) = c)
    (seqZ 0 4)) (seqZ 0 256)) as Hall.
  { apply (bool_decide_unpack _). by vm_compute. }
  rewrite Forall_forall in Hall. specialize (Hall c). rewrite elem_of_seqZ, Forall_forall in Hall.
  apply (Hall ltac:(lia) k), elem_of_seqZ. lia.
Qed.

Lemma ld8_memset m dst c n b :
  0 ≤ n →
  ld8 (memset m dst c n) b =
  if decide (dst ≤ b < dst + n) then u8 c else ld8 m b.
Proof.
  intros Hn. unfold memset.
  destruct (Z.eqb_spec (dst mod 4) 0) as [Hd|Hd], (Z.eqb_spec (n mod 4) 0) as [Hm|Hm]; simpl.
  2-4: rewrite ld8_stosb, Z2Nat.id by lia; done.
  rewrite ld8_stosl. rewrite Z2Nat.id by (apply Z.div_pos; lia).
  replace (4 * (n / 4)) with n by (Z.div_mod_to_equations; lia).
  case_decide; [|done]. rewrite land_255. apply splat_byte; [apply u8_range|].
  by apply Z.mod_pos_bound.
Qed.

Lemma mem_ok_memset m dst c n : 0 ≤ n → mem_ok m → mem_ok (memset m dst c n).
Proof.
  intros Hn H b. rewrite ld8_memset by done.
  case_decide; [apply u8_range|apply H].
Qed.

(** ** memmove *)

Lemma ld8_copy_up m d s n b :
  mem_ok m → (d ≤ s ∨ s + Z.of_nat n ≤ d) →
  ld8 (copy_up m d s n) b =
  if decide (d ≤ b < d + Z.of_nat n) then ld8 m (s + (b - d)) else ld8 m b.
Proof.
  revert m d s. induction n as [|n IH]; intros m d s Hm Hov; simpl.
  - case_decide; [lia|done].
  - rewrite IH by (auto with xv6; lia). rewrite !ld8_st8, u8_small by apply Hm.
    repeat case_decide; try lia; try done; subst; f_equal; lia.
Qed.

Lemma ld8_copy_down m d s n b :
  mem_ok m → s ≤ d →
  ld8 (copy_down m d s n) b =
  if decide (d - Z.of_nat n ≤ b < d) then ld8 m (s + (b - d)) else ld8 m b.
Proof.
  revert m d s. induction n as [|n IH]; intros m d s Hm Hov; simpl.
  - case_decide; [lia|done].
  - rewrite IH by (auto with xv6; lia). rewrite !ld8_st8, u8_small by apply Hm.
    repeat case_decide; try lia; try done; subst; f_equal; lia.
Qed.

Lemma ld8_memmove m dst src n b :
  mem_ok m → 0 ≤ n →
  ld8 (memmove m dst src n) b =
  if decide (dst ≤ b < dst + n) then ld8 m (src + (b - dst)) else ld8 m b.
Proof.
  intros Hm Hn. unfold memmove.
  destruct (Z.ltb_spec src dst), (Z.ltb_spec dst (src + n)); simpl.
  1: rewrite ld8_copy_down by (done || lia).
  2-4: rewrite ld8_copy_up by (done || lia).
  all: rewrite Z2Nat.id by lia; repeat case_decide; try lia; try done; f_equal; lia.
Qed.

Lemma mem_ok_memmove m dst src n : 0 ≤ n → mem_ok m → mem_ok (memmove m dst src n).
Proof.
  intros Hn H b. rewrite ld8_memmove by done. case_decide; apply H.
Qed.
#[export] Hint Resolve mem_ok_memset mem_ok_memmove : xv6.

Lemma lookup_bytes m a n i :
  (i < n)%nat → bytes m a n !! i = Some (ld8 m (a + Z.of_nat i)).
Proof.
  intros H. unfold bytes. rewrite list_lookup_fmap, lookup_seq_lt by done. done.
Qed.
Lemma length_bytes m a n : length (bytes m a n) = n.
Proof. unfold bytes. by rewrite length_fmap, length_seq. Qed.

Lemma bytes_ext m1 m2 a b n :
  (∀ i, (i < n)%nat → ld8 m1 (a + Z.of_nat i) = ld8 m2 (b + Z.of_nat i)) →
  bytes m1 a n = bytes m2 b n.
Proof.
  intros H. apply list_eq. intros i. destruct (decide (i < n)%nat).
  - rewrite !lookup_bytes by done. by rewrite H.
  - rewrite !lookup_ge_None_2 by (rewrite length_bytes; lia). done.
Qed.

Lemma memcmp_loop_eq m s1 s2 n :
  memcmp_loop m s1 s2 n = 0 ↔ bytes m s1 n = bytes m s2 n.
Proof.
  revert s1 s2. induction n as [|n IH]; intros s1 s2; [done|].
  assert (Hc : ∀ a, bytes m a (S n) = ld8 m a :: bytes m (a + 1) n).
  { intros a. unfold bytes. simpl. f_equal; [f_equal; lia|].
    rewrite <-fmap_S_seq, <-list_fmap_compose. apply list_fmap_ext.
    intros i x _. simpl. f_equal. lia. }
  rewrite !Hc. simpl. destruct (Z.eqb_spec (ld8 m s1) (ld8 m s2)) as [->|Hne]; simpl.
  - rewrite IH. split; [by intros ->|by intros [= ->]].
  - split; [lia|intros [= ? _]; congruence].
Qed.

End Mem.
Export Mem.
