(* ===== verification/Str.v ===== *)
(** * Str: the C string functions of [string.c] and [ulib.c]

    A [char *] that is only read or written forward is the list of bytes from
    the pointer to the end of its object; [None] is a read or write past that
    end.  Bytes are values of [uchar]. *)
From S2P Require Import Prelude.

Module Str.

Fixpoint strncmp (p q : list Z) (n : nat) {struct n} : option Z :=
  match n with
  | O => Some 0
  | S n' =>
      match p, q with
      | a :: p', b :: q' =>
          if truthy a && (a =? b) then strncmp p' q' n' else Some (u8 a - u8 b)
      | _, _ => None
      end
  end.

(** [while(n-- > 0) *s++ = 0;] *)
Fixpoint zero_fill (s : list Z) (n : nat) {struct n} : option (list Z) :=
  match n with
  | O => Some s
  | S n' => match s with [] => None | _ :: s' => cons 0 <$> zero_fill s' n' end
  end.

(** [strncpy(s, t, n)]: the new contents of the array at [s]. *)
Fixpoint strncpy (s t : list Z) (n : nat) {struct n} : option (list Z) :=
  match n with
  | O => Some s
  | S n' =>
      match s, t with
      | _ :: s', c :: t' =>
          cons c <$> (if truthy c then strncpy s' t' n' else zero_fill s' n')
      | _, _ => None
      end
  end.

(** The loop of [safestrcpy] followed by [*s = 0]; [n] is its value before the
    test [--n > 0]. *)
Fixpoint safestrcpy_loop (s t : list Z) (n : nat) : option (list Z) :=
  match s with
  | [] => None
  | _ :: s' =>
      match n with
      | S (S _ as n') =>
          match t with
          | [] => None
          | c :: t' =>
              cons c <$>
                (if truthy c then safestrcpy_loop s' t' n'
                 else match s' with [] => None | _ :: s'' => Some (0 :: s'') end)
          end
      | _ => Some (0 :: s')
      end
  end.
Definition safestrcpy (s t : list Z) (n : Z) : option (list Z) :=
  if n <=? 0 then Some s else safestrcpy_loop s t (Z.to_nat n).

Fixpoint strlen (s : list Z) : option Z :=
  match s with
  | [] => None
  | c :: s' => if truthy c then Z.succ <$> strlen s' else Some 0
  end.

Fixpoint strcpy (s t : list Z) : option (list Z) :=
  match s, t with
  | _ :: s', c :: t' => if truthy c then cons c <$> strcpy s' t' else Some (c :: s')
  | _, _ => None
  end.

Fixpoint strcmp (p q : list Z) : option Z :=
  match p, q with
  | a :: p', b :: q' =>
      if truthy a && (a =? b) then strcmp p' q' else Some (u8 a - u8 b)
  | _, _ => None
  end.

(** [strchr] as its callers use it: is the character in the string? *)
Fixpoint strchr (s : list Z) (c : Z) : option (option nat) :=
  match s with
  | [] => None
  | x :: s' =>
      if truthy x then
        if x =? c then Some (Some 0%nat) else option_map S <$> strchr s' c
      else Some None
  end.

Fixpoint atoi_loop (s : list Z) (n : Z) : option Z :=
  match s with
  | [] => None
  | c :: s' =>
      if (48 <=? c) && (c <=? 57) then atoi_loop s' (s32 (n * 10 + c - 48)) else Some n
  end.
Definition atoi (s : list Z) : option Z := atoi_loop s 0.

(** ** What the functions mean *)

(** The C string held in at most [n] bytes. *)
Fixpoint cut (n : nat) (s : list Z) : list Z :=
  match n, s with
  | S n', c :: s' => if truthy c then c :: cut n' s' else []
  | _, _ => []
  end.

Definition is_byte (c : Z) : Prop := 0 ≤ c < 256.

(** The first [n] bytes can be scanned: either they are all there or a NUL
    comes first. *)
Definition scannable (n : nat) (s : list Z) : Prop := (n ≤ length s)%nat ∨ 0 ∈ s.

Lemma scannable_cons n c s : c ≠ 0 → scannable (S n) (c :: s) → scannable n s.
Proof.
  intros Hc [H|H]; [left; simpl in H; lia|right].
  apply elem_of_cons in H as [?|?]; congruence.
Qed.
Lemma scannable_nil n : ¬ scannable (S n) [].
Proof. intros [H|H]; [simpl in H; lia|by apply not_elem_of_nil in H]. Qed.

Lemma strncmp_spec p q n :
  Forall is_byte p → Forall is_byte q → scannable n p → scannable n q →
  ∃ r, strncmp p q n = Some r ∧ (r = 0 ↔ cut n p = cut n q).
Proof.
  revert p q. induction n as [|n IH]; intros p q Hp Hq Sp Sq; simpl; [exists 0; naive_solver|].
  destruct p as [|a p]; [by apply scannable_nil in Sp|].
  destruct q as [|b q]; [by apply scannable_nil in Sq|].
  apply Forall_cons in Hp as [Ha Hp]. apply Forall_cons in Hq as [Hb Hq].
  unfold truthy at 1. destruct (Z.eqb_spec a 0) as [->|Hz]; simpl.
  - eexists; split; [done|]. unfold u8, is_byte, truthy in *.
    rewrite !Z.mod_small by (simpl; lia).
    destruct (Z.eqb_spec b 0); simpl; [naive_solver lia|]. split; [lia|done].
  - destruct (Z.eqb_spec a b) as [<-|Hab].
    + assert (truthy a = true) as -> by by apply truthy_true.
      destruct (IH p q Hp Hq) as (r & Hr & Heq); [by eapply scannable_cons..|].
      exists r. split; [done|]. rewrite Heq. split; [by intros ->|by intros [= ->]].
    + eexists; split; [done|]. unfold u8, is_byte in *. rewrite !Z.mod_small by lia.
      assert (truthy a = true) as -> by by apply truthy_true.
      split; [lia|]. destruct (truthy b); naive_solver.
Qed.

Lemma zero_fill_spec s n :
  (n ≤ length s)%nat → zero_fill s n = Some (replicate n 0 ++ drop n s).
Proof.
  revert s. induction n as [|n IH]; intros [|x s] H; simpl in *; try done; [lia|].
  rewrite IH by lia. done.
Qed.

Lemma length_cut n s : (length (cut n s) ≤ n)%nat.
Proof.
  revert s. induction n as [|n IH]; intros [|c s]; simpl; try lia.
  destruct (truthy c); simpl; [specialize (IH s)|]; lia.
Qed.

(** [strncpy] leaves the string, padded with NULs to exactly [n] bytes, and the
    rest of the array as it was. *)
Lemma strncpy_spec s t n :
  (n ≤ length s)%nat → scannable n t →
  strncpy s t n =
  Some (cut n t ++ replicate (n - length (cut n t)) 0 ++ drop n s).
Proof.
  revert s t. induction n as [|n IH]; intros s t Hs Ht; simpl; [by rewrite drop_0|].
  destruct s as [|x s]; [simpl in Hs; lia|].
  destruct t as [|c t]; [by apply scannable_nil in Ht|]. simpl in *.
  destruct (truthy c) eqn:Ec; simpl.
  - rewrite IH; [done|lia|]. apply truthy_true in Ec. by eapply scannable_cons.
  - apply truthy_false in Ec as ->. rewrite zero_fill_spec by lia. done.
Qed.

Lemma cut_pad n s k : (n ≤ length (cut n s) + k)%nat → cut n (cut n s ++ replicate k 0) = cut n s.
Proof.
  revert s. induction n as [|n IH]; intros s Hk; [done|].
  destruct s as [|c s].
  - simpl in *. destruct k as [|k]; [lia|]. done.
  - simpl in *. destruct (truthy c) eqn:E; simpl in *.
    + rewrite E. f_equal. apply IH. lia.
    + destruct k as [|k]; [lia|]. done.
Qed.

Lemma cut_app n s t : n = length s → cut n (s ++ t) = cut n s.
Proof.
  intros ->. induction s as [|c s IH]; simpl; [by destruct t|]. by rewrite IH.
Qed.

(** The array [strncpy] fills reads back as the string it was given. *)
Lemma strncpy_cut s t n s' :
  (n ≤ length s)%nat → scannable n t → strncpy s t n = Some s' → cut n s' = cut n t.
Proof.
  intros Hs Ht. rewrite strncpy_spec by done. intros [= <-].
  pose proof (length_cut n t). rewrite app_assoc, cut_app.
  - apply cut_pad. lia.
  - rewrite length_app, length_replicate. lia.
Qed.

(** [safestrcpy] always leaves a NUL-terminated string inside the [n] bytes:
    the longest prefix of the source that fits, and writes nothing beyond. *)
Lemma safestrcpy_loop_spec s t n :
  (S n ≤ length s)%nat → scannable n t →
  ∃ s', safestrcpy_loop s t (S n) = Some s' ∧ length s' = length s ∧
        cut (S n) s' = cut n t ∧ drop (S n) s' = drop (S n) s ∧
        s' !! length (cut n t) = Some 0.
Proof.
  revert s t. induction n as [|n IH]; intros s t Hs Ht.
  - destruct s as [|x s]; [simpl in Hs; lia|]. simpl. eexists; split; [done|]. done.
  - destruct s as [|x s]; [simpl in Hs; lia|].
    destruct t as [|c t]; [by apply scannable_nil in Ht|].
    change (safestrcpy_loop (x :: s) (c :: t) (S (S n))) with
      (cons c <$> (if truthy c then safestrcpy_loop s t (S n)
                   else match s with [] => None | _ :: s'' => Some (0 :: s'') end)).
    simpl in Hs. destruct (truthy c) eqn:Ec.
    + destruct (IH s t) as (s' & Hr & Hl & Hc & Hd & Hz); [lia| |].
      { apply truthy_true in Ec. by eapply scannable_cons. }
      rewrite Hr. exists (c :: s'). split; [done|]. split; [simpl; lia|].
      split; [|split; [done|by simpl; rewrite Ec]].
      change (cut (S (S n)) (c :: s')) with (if truthy c then c :: cut (S n) s' else []).
      change (cut (S n) (c :: t)) with (if truthy c then c :: cut n t else []).
      by rewrite Ec, Hc.
    + apply truthy_false in Ec as ->. destruct s as [|y s]; [simpl in Hs; lia|].
      eexists; split; [done|]. done.
Qed.

Lemma strlen_app s t : Forall (λ c, c ≠ 0) s → strlen (s ++ 0 :: t) = Some (Z.of_nat (length s)).
Proof.
  induction 1 as [|c s Hc _ IH]; [done|]. simpl.
  assert (truthy c = true) as -> by by apply truthy_true. rewrite IH. simpl. f_equal. lia.
Qed.

Lemma strchr_Some s t c :
  Forall (λ x, x ≠ 0) s → ∃ r, strchr (s ++ 0 :: t) c = Some r ∧ (is_Some r ↔ c ∈ s).
Proof.
  induction 1 as [|x s Hx _ IH]; simpl.
  - eexists; split; [done|]. split; [by intros []|intros H; by apply not_elem_of_nil in H].
  - assert (truthy x = true) as -> by by apply truthy_true.
    destruct (Z.eqb_spec x c) as [->|Hne].
    + eexists; split; [done|]. split; [by left|by eexists].
    + destruct IH as (r & -> & Hr). eexists; split; [done|].
      rewrite fmap_is_Some, Hr, elem_of_cons. naive_solver.
Qed.

End Str.
