(* ===== verification/State.v ===== *)
(** * State: the kernel's data structures

    The structs of the kernel headers ([param.h], [proc.h], [spinlock.h],
    [memlayout.h], [mmu.h], [x86.h]) and one record, [kernel], that holds the
    global variables the modelled functions read and write.  A pointer to an
    element of a fixed table ([ptable.proc], [cpus]) is its index; a pointer to
    memory is an address. *)
From S2P Require Import Prelude.
From S2P Require Import Mem.

(** ** param.h, memlayout.h, mmu.h *)

Definition NPROC : nat := 64.
Definition KSTACKSIZE : Z := 4096.
Definition NOFILE : nat := 16.
Definition PGSIZE : Z := 4096.
Abbreviation EXTMEM := 0x100000.
Definition PHYSTOP : Z := 0xE000000.
Definition DEVSPACE : Z := 0xFE000000.
Definition KERNBASE : Z := 0x80000000.
Definition KERNLINK : Z := KERNBASE + EXTMEM.
Definition FL_IF : Z := 0x200.

Definition V2P (a : Z) : Z := u32 (a - KERNBASE).
Definition P2V (a : Z) : Z := u32 (a + KERNBASE).
Definition PGROUNDUP (sz : Z) : Z := Z.ldiff (u32 (sz + PGSIZE - 1)) (PGSIZE - 1).
Definition PGROUNDDOWN (a : Z) : Z := Z.ldiff a (PGSIZE - 1).

(** ** Locks and sleep channels

    A spinlock is identified by the object it is embedded in, and a sleep
    channel by the address a process sleeps on: distinct objects have distinct
    addresses. *)

Inductive lockid :=
| LPtable | LKmem | LTicks | LFtable | LIcache | LBcache | LLog | LIde | LCons
| LPipe (p : Z) | LBuf (b : nat) | LInode (i : nat).

#[export] Instance lockid_eq_dec : EqDecision lockid.
Proof. solve_decision. Defined.

Definition lockid_enc (l : lockid) : nat * Z :=
  match l with
  | LPtable => (0%nat, 0) | LKmem => (1%nat, 0) | LTicks => (2%nat, 0)
  | LFtable => (3%nat, 0) | LIcache => (4%nat, 0) | LBcache => (5%nat, 0)
  | LLog => (6%nat, 0) | LIde => (7%nat, 0) | LCons => (8%nat, 0)
  | LPipe p => (9%nat, p) | LBuf b => (10%nat, Z.of_nat b) | LInode i => (11%nat, Z.of_nat i)
  end.
Definition lockid_dec (x : nat * Z) : option lockid :=
  match x with
  | (0%nat, _) => Some LPtable | (1%nat, _) => Some LKmem | (2%nat, _) => Some LTicks
  | (3%nat, _) => Some LFtable | (4%nat, _) => Some LIcache | (5%nat, _) => Some LBcache
  | (6%nat, _) => Some LLog | (7%nat, _) => Some LIde | (8%nat, _) => Some LCons
  | (9%nat, p) => Some (LPipe p) | (10%nat, b) => Some (LBuf (Z.to_nat b))
  | (11%nat, i) => Some (LInode (Z.to_nat i)) | _ => None
  end.
#[export] Instance lockid_countable : Countable lockid.
Proof.
  apply (inj_countable lockid_enc lockid_dec).
  intros []; simpl; rewrite ?Nat2Z.id; done.
Defined.

Inductive chan :=
| ChProc (i : nat)          (* a process waiting for its children, in wait *)
| ChTicks                   (* &ticks, in sys_sleep *)
| ChPipeR (p : Z)           (* &p->nread *)
| ChPipeW (p : Z)           (* &p->nwrite *)
| ChLog                     (* &log *)
| ChInput                   (* &input.r *)
| ChBufIO (b : nat)         (* a buf waiting for the disk, in iderw *)
| ChSleepLock (l : lockid). (* a sleep-lock *)

#[export] Instance chan_eq_dec : EqDecision chan.
Proof. solve_decision. Defined.

Record spinlock := mkSpinlock {
  lk_locked : Z;          (* is the lock held? *)
  lk_cpu : option nat     (* the cpu holding the lock *)
}.
#[export] Instance eta_spinlock : Eta spinlock :=
  λ r, mkSpinlock (lk_locked r) (lk_cpu r).
#[export] Instance spinlock_eq_dec : EqDecision spinlock.
Proof. solve_decision. Defined.

(** ** proc.h *)

Record cpu := mkCpu {
  c_apicid : Z;           (* local APIC ID *)
  c_esp0 : Z;             (* ts.esp0: the kernel stack for traps *)
  c_ncli : Z;             (* depth of pushcli nesting *)
  c_intena : Z;           (* were interrupts enabled before pushcli? *)
  c_proc : option nat     (* the process running on this cpu or null *)
}.
#[export] Instance eta_cpu : Eta cpu :=
  λ r, mkCpu (c_apicid r) (c_esp0 r) (c_ncli r) (c_intena r) (c_proc r).

Inductive procstate := UNUSED | EMBRYO | SLEEPING | RUNNABLE | RUNNING | ZOMBIE.
#[export] Instance procstate_eq_dec : EqDecision procstate.
Proof. solve_decision. Defined.

Record proc := mkProc {
  p_sz : Z;                        (* size of process memory (bytes) *)
  p_pgdir : Z;                     (* page table *)
  p_kstack : Z;                    (* bottom of kernel stack *)
  p_state : procstate;
  p_pid : Z;
  p_parent : option nat;
  p_tf : Z;                        (* trap frame, in the kernel stack *)
  p_context : Z;                   (* saved registers, in the kernel stack *)
  p_chan : option chan;            (* if non-null, sleeping on chan *)
  p_killed : Z;
  p_ofile : list (option nat);     (* open files *)
  p_cwd : option nat;              (* current directory *)
  p_name : list Z;
  p_ctime : Z; p_etime : Z; p_rtime : Z; p_iotime : Z;
  p_num_run : Z;
  p_priority : Z;
  p_ticks : list Z;                (* ticks in the current visit of each queue *)
  p_start : Z;
  p_waittime : Z;
  p_current_queue : Z;
  p_total_ticks : list Z           (* ticks in each queue so far *)
}.
#[export] Instance eta_proc : Eta proc :=
  λ r, mkProc (p_sz r) (p_pgdir r) (p_kstack r) (p_state r) (p_pid r) (p_parent r)
    (p_tf r) (p_context r) (p_chan r) (p_killed r) (p_ofile r) (p_cwd r) (p_name r)
    (p_ctime r) (p_etime r) (p_rtime r) (p_iotime r) (p_num_run r) (p_priority r)
    (p_ticks r) (p_start r) (p_waittime r) (p_current_queue r) (p_total_ticks r).

(** One of the arrays [q0] .. [q4] of proc.c with its last index [c0] .. [c4]. *)
Record mlq := mkMlq { q_slot : list (option nat); q_c : Z }.
#[export] Instance eta_mlq : Eta mlq := λ r, mkMlq (q_slot r) (q_c r).

(** The policy [make SCHEDPOLICY=...] compiles in. *)
Inductive policy := DEFAULT | PRIORITY | FCFS | MLFQ.
#[export] Instance policy_eq_dec : EqDecision policy.
Proof. solve_decision. Defined.

(** ** sleeplock.h, buf.h, fs.h, file.h, log.c, pipe.c *)

Definition NBUF : nat := 30.
Definition NFILE : nat := 100.
Definition NINODE : nat := 50.
Definition NDEV : Z := 10.
Definition MAXOPBLOCKS : Z := 10.
Definition LOGSIZE : Z := 30.
Definition ROOTDEV : Z := 1.
Definition ROOTINO : Z := 1.
Definition BSIZE : Z := 512.
Definition NDIRECT : Z := 12.
Definition NINDIRECT : Z := 128.
Definition MAXFILE : Z := NDIRECT + NINDIRECT.
Definition T_DIR : Z := 1.
Definition T_FILE : Z := 2.
Definition T_DEV : Z := 3.

Record sleeplock := mkSleeplock { sl_locked : Z; sl_pid : Z }.
#[export] Instance eta_sleeplock : Eta sleeplock := λ r, mkSleeplock (sl_locked r) (sl_pid r).

(** A buffer of the cache; [prev] and [next] link the LRU list, whose head is
    the entry behind the last buffer. *)
Record buf := mkBuf {
  b_flags : Z; b_dev : Z; b_blockno : Z; b_refcnt : Z;
  b_prev : nat; b_next : nat; b_data : list Z
}.
#[export] Instance eta_buf : Eta buf :=
  λ r, mkBuf (b_flags r) (b_dev r) (b_blockno r) (b_refcnt r) (b_prev r) (b_next r) (b_data r).

Record superblock := mkSuperblock {
  sb_size : Z; sb_nblocks : Z; sb_ninodes : Z; sb_nlog : Z;
  sb_logstart : Z; sb_inodestart : Z; sb_bmapstart : Z
}.
#[export] Instance eta_superblock : Eta superblock :=
  λ r, mkSuperblock (sb_size r) (sb_nblocks r) (sb_ninodes r) (sb_nlog r)
         (sb_logstart r) (sb_inodestart r) (sb_bmapstart r).

(** [struct log] with its in-memory header [lh]. *)
Record logst := mkLog {
  log_start : Z; log_size : Z; log_outstanding : Z; log_committing : Z; log_dev : Z;
  lh_n : Z; lh_block : list Z
}.
#[export] Instance eta_logst : Eta logst :=
  λ r, mkLog (log_start r) (log_size r) (log_outstanding r) (log_committing r) (log_dev r)
         (lh_n r) (lh_block r).

Record inode := mkInode {
  i_dev : Z; i_inum : Z; i_ref : Z; i_valid : Z;
  i_type : Z; i_major : Z; i_minor : Z; i_nlink : Z; i_size : Z;
  i_addrs : list Z
}.
#[export] Instance eta_inode : Eta inode :=
  λ r, mkInode (i_dev r) (i_inum r) (i_ref r) (i_valid r) (i_type r) (i_major r) (i_minor r)
         (i_nlink r) (i_size r) (i_addrs r).

Inductive fdtype := FD_NONE | FD_PIPE | FD_INODE.
#[export] Instance fdtype_eq_dec : EqDecision fdtype.
Proof. solve_decision. Defined.

Record file := mkFile {
  f_type : fdtype; f_ref : Z; f_readable : Z; f_writable : Z;
  f_pipe : Z; f_ip : option nat; f_off : Z
}.
#[export] Instance eta_file : Eta file :=
  λ r, mkFile (f_type r) (f_ref r) (f_readable r) (f_writable r) (f_pipe r) (f_ip r) (f_off r).

Record pipe := mkPipe {
  pi_data : list Z; pi_nread : Z; pi_nwrite : Z; pi_readopen : Z; pi_writeopen : Z
}.
#[export] Instance eta_pipe : Eta pipe :=
  λ r, mkPipe (pi_data r) (pi_nread r) (pi_nwrite r) (pi_readopen r) (pi_writeopen r).

(** The console's input buffer: [struct input] of console.c. *)
Record inputst := mkInput { in_buf : list Z; in_r : Z; in_w : Z; in_e : Z }.
#[export] Instance eta_input : Eta inputst :=
  λ r, mkInput (in_buf r) (in_r r) (in_w r) (in_e r).

(** ** The kernel's globals *)

Record kernel := mkKernel {
  k_policy : policy;                 (* the build's scheduling policy *)
  k_end : Z;                         (* the linker's symbols: end, data and the *)
  k_data : Z;                        (* entry points of trapret and forkret *)
  k_trapret : Z;
  k_forkret : Z;
  (* the executing processor's registers, and cpus[] *)
  k_cpus : list cpu;
  k_lapicid : Z;                     (* what lapicid() reads *)
  k_eflags : Z;
  k_cr3 : Z;
  (* memory *)
  k_mem : mem;
  k_locks : gmap lockid spinlock;
  (* kmem *)
  k_use_lock : Z;
  k_freelist : Z;
  (* vm.c *)
  k_kpgdir : Z;
  (* proc.c *)
  k_proc : list proc;
  k_nextpid : Z;
  k_initproc : option nat;
  k_queue : list mlq;
  (* trap.c *)
  k_ticks : Z;
  (* sleep locks, by the object they protect *)
  k_slocks : gmap lockid sleeplock;
  (* pipes, by the address of their page *)
  k_pipes : gmap Z pipe;
  (* ftable.file and icache.inode *)
  k_ftable : list file;
  k_icache : list inode;
  (* bcache: the buffers and, last, the head of the list *)
  k_bcache : list buf;
  k_sb : superblock;
  k_log : logst;
  (* memdisk, block by block, and the writes made to it in order *)
  k_disk : list (list Z);
  k_writes : list (Z * list Z);
  (* console.c: the characters passed to consputc, cons.locking and input *)
  k_cons : list Z;
  k_cons_locking : Z;
  k_input : inputst
}.
#[export] Instance eta_kernel : Eta kernel :=
  λ r, mkKernel (k_policy r) (k_end r) (k_data r) (k_trapret r) (k_forkret r) (k_cpus r) (k_lapicid r) (k_eflags r) (k_cr3 r)
    (k_mem r) (k_locks r) (k_use_lock r) (k_freelist r) (k_kpgdir r) (k_proc r)
    (k_nextpid r) (k_initproc r) (k_queue r) (k_ticks r)
    (k_slocks r) (k_pipes r) (k_ftable r) (k_icache r) (k_bcache r) (k_sb r) (k_log r)
    (k_disk r) (k_writes r) (k_cons r) (k_cons_locking r) (k_input r).

Abbreviation K := (M kernel).
