(* ===== verification/Spin.v ===== *)
(** * Spin: processors and spin locks ([spinlock.c], [mycpu] and [myproc] of
    [proc.c])

    [acquire] and [release] bracket a critical section with interrupts off.
    Their correctness is that, between them, the lock is held by this
    processor, and that the pair restores the interrupt flag and the nesting
    depth, whatever the nesting. *)
From S2P Require Import Prelude.
From S2P Require Import Mem.
From S2P Require Import State.

Module Spin.

(** ** x86.h *)
Definition readeflags : K Z := gets k_eflags.
Definition cli : K unit := modify (λ k, k <| k_eflags := Z.ldiff (k_eflags k) FL_IF |>).
Definition sti : K unit := modify (λ k, k <| k_eflags := Z.lor (k_eflags k) FL_IF |>).

Definition lapicid : K Z := gets k_lapicid.

(** The index of the executing processor in [cpus]. *)
Definition mycpu : K nat :=
  eflags ← readeflags;
  if truthy (Z.land eflags FL_IF) then panic "mycpu called with interrupts enabled"
  else
    apicid ← lapicid;
    cpus ← gets k_cpus;
    match find_first (λ c, c_apicid c =? apicid) cpus with
    | Some i => ret i
    | None => panic "unknown apicid"
    end.

Definition cpuid : K Z := i ← mycpu; ret (Z.of_nat i).

Definition get_cpu (i : nat) : K cpu :=
  cpus ← gets k_cpus; get_or "cpus" (cpus !! i).
Definition upd_cpu (i : nat) (f : cpu → cpu) : K unit :=
  modify (λ k, k <| k_cpus := alter f i (k_cpus k) |>).

(** ** pushcli and popcli *)

Definition pushcli : K unit :=
  eflags ← readeflags;
  cli ;;
  i ← mycpu;
  c ← get_cpu i;
  when (c_ncli c =? 0) (upd_cpu i (λ c, c <| c_intena := Z.land eflags FL_IF |>)) ;;
  upd_cpu i (λ c, c <| c_ncli := c_ncli c + 1 |>).

Definition popcli : K unit :=
  eflags ← readeflags;
  if truthy (Z.land eflags FL_IF) then panic "popcli - interruptible"
  else
    i ← mycpu;
    upd_cpu i (λ c, c <| c_ncli := c_ncli c - 1 |>) ;;
    c ← get_cpu i;
    if c_ncli c <? 0 then panic "popcli"
    else when ((c_ncli c =? 0) && truthy (c_intena c)) sti.

(** ** proc.c: the running process *)

Definition myproc : K (option nat) :=
  pushcli ;;
  i ← mycpu;
  c ← get_cpu i;
  popcli ;;
  ret (c_proc c).

(** ** Spin locks *)

Definition get_lock (l : lockid) : K spinlock :=
  locks ← gets k_locks; get_or "lock" (locks !! l).
Definition set_lock (l : lockid) (v : spinlock) : K unit :=
  modify (λ k, k <| k_locks := <[l := v]> (k_locks k) |>).

Definition initlock (l : lockid) : K unit := set_lock l (mkSpinlock 0 None).

Definition holding (l : lockid) : K bool :=
  pushcli ;;
  lk ← get_lock l;
  i ← mycpu;
  popcli ;;
  ret (truthy (lk_locked lk) && bool_decide (lk_cpu lk = Some i)).

(** [xchg(&lk->locked, 1)]: the old value. *)
Definition xchg_locked (l : lockid) : K Z :=
  lk ← get_lock l;
  set_lock l (lk <| lk_locked := 1 |>) ;;
  ret (lk_locked lk).

(** The lock's [pcs] are only debugging output and are left out. *)
Definition acquire (l : lockid) : K unit :=
  pushcli ;;
  h ← holding l;
  if h then panic "acquire"
  else
    old ← xchg_locked l;
    if truthy old then spin
    else
      i ← mycpu;
      lk ← get_lock l;
      set_lock l (lk <| lk_cpu := Some i |>).

Definition release (l : lockid) : K unit :=
  h ← holding l;
  if negb h then panic "release"
  else
    lk ← get_lock l;
    set_lock l (lk <| lk_cpu := None |>) ;;
    lk ← get_lock l;
    set_lock l (lk <| lk_locked := 0 |>) ;;
    popcli.

(** ** Well-formed processors

    [on_cpu k i c]: the code runs on processor [i], whose record is [c]; when
    it is inside a [pushcli] interrupts are off, and when it is not, [intena]
    says nothing that a later [pushcli] would contradict. *)
Record on_cpu (k : kernel) (i : nat) (c : cpu) : Prop := {
  oc_find : find_first (λ c, c_apicid c =? k_lapicid k) (k_cpus k) = Some i;
  oc_cpu : k_cpus k !! i = Some c;
  oc_nonneg : 0 ≤ c_ncli c;
  oc_off : 0 < c_ncli c → Z.land (k_eflags k) FL_IF = 0;
  oc_intena : c_ncli c = 0 → c_intena c = Z.land (k_eflags k) FL_IF
}.

(** The state after a [pushcli]. *)
Definition pushed (i : nat) (c : cpu) (k : kernel) : kernel :=
  k <| k_eflags := Z.ldiff (k_eflags k) FL_IF |>
    <| k_cpus := <[i := c <| c_ncli := c_ncli c + 1 |>]> (k_cpus k) |>.

Definition unlocked : spinlock := mkSpinlock 0 None.
Definition held (i : nat) : spinlock := mkSpinlock 1 (Some i).

(** The state after [acquire l]. *)
Definition locked_by (l : lockid) (i : nat) (c : cpu) (k : kernel) : kernel :=
  pushed i c k <| k_locks := <[l := held i]> (k_locks k) |>.

(** ** Interrupt flag arithmetic *)

Lemma land_cli e : Z.land (Z.ldiff e FL_IF) FL_IF = 0.
Proof.
  apply Z.bits_inj'. intros n Hn. rewrite Z.land_spec, Z.ldiff_spec, Z.bits_0.
  destruct (Z.testbit e n), (Z.testbit FL_IF n); done.
Qed.

Lemma ldiff_off e : Z.land e FL_IF = 0 → Z.ldiff e FL_IF = e.
Proof.
  intros H. apply Z.bits_inj'. intros n Hn. rewrite Z.ldiff_spec.
  assert (Z.testbit (Z.land e FL_IF) n = false) as Hb by by rewrite H, Z.bits_0.
  rewrite Z.land_spec in Hb. destruct (Z.testbit e n), (Z.testbit FL_IF n); done.
Qed.

Lemma testbit_FL_IF n : Z.testbit FL_IF n = bool_decide (n = 9).
Proof.
  change FL_IF with (2 ^ 9). rewrite Z.pow2_bits_eqb by lia.
  destruct (Z.eqb_spec 9 n); [by rewrite bool_decide_true by lia|].
  by rewrite bool_decide_false by lia.
Qed.

Lemma lor_cli e : Z.land e FL_IF ≠ 0 → Z.lor (Z.ldiff e FL_IF) FL_IF = e.
Proof.
  intros H. apply Z.bits_inj'. intros n Hn. rewrite Z.lor_spec, Z.ldiff_spec, testbit_FL_IF.
  destruct (Z.testbit e n) eqn:E, (bool_decide_reflect (n = 9)) as [->|]; try done.
  contradict H. apply Z.bits_inj'. intros m Hm.
  rewrite Z.land_spec, testbit_FL_IF, Z.bits_0.
  destruct (bool_decide_reflect (m = 9)) as [->|]; [by rewrite E|by rewrite andb_false_r].
Qed.

(** ** Running them *)

Lemma find_first_insert_same (cs : list cpu) i c c' a :
  cs !! i = Some c → c_apicid c' = c_apicid c →
  find_first (λ c, c_apicid c =? a) (<[i := c']> cs) =
  find_first (λ c, c_apicid c =? a) cs.
Proof.
  revert i. induction cs as [|x cs IH]; intros [|i] H Ha; simplify_eq/=.
  - by rewrite Ha.
  - destruct (c_apicid x =? a); [done|]. by rewrite (IH i).
Qed.

Lemma mycpu_off k i c :
  on_cpu k i c → Z.land (k_eflags k) FL_IF = 0 → mycpu k = Ret i k.
Proof.
  intros Hc Hoff. unfold mycpu, readeflags, lapicid, bind, gets. simpl.
  rewrite Hoff. simpl. by rewrite (oc_find _ _ _ Hc).
Qed.

Lemma on_cpu_pushed k i c :
  on_cpu k i c → on_cpu (pushed i c k) i (c <| c_ncli := c_ncli c + 1 |>).
Proof.
  intros [Hf Hc Hn Ho Hi]. split; simpl; try lia.
  - by rewrite (find_first_insert_same _ _ c).
  - apply list_lookup_insert_eq. by eapply lookup_lt_Some.
  - intros _. apply land_cli.
Qed.

Lemma mycpu_run k i (cs : list cpu) :
  k_cpus k = cs → find_first (λ c, c_apicid c =? k_lapicid k) cs = Some i →
  Z.land (k_eflags k) FL_IF = 0 → mycpu k = Ret i k.
Proof.
  intros <- Hf Hoff. unfold mycpu, readeflags, lapicid, bind, gets.
  rewrite Hoff. simpl. by rewrite Hf.
Qed.

Lemma pushcli_ret k i c : on_cpu k i c → pushcli k = Ret tt (pushed i c k).
Proof.
  intros [Hf Hc Hn Ho Hi]. unfold pushcli, readeflags, cli.
  unfold bind at 1, gets at 1. unfold bind at 1, modify at 1.
  erewrite bind_ret_eq; [|by eapply mycpu_run, land_cli].
  unfold get_cpu, upd_cpu, bind, gets, modify, when. simpl. rewrite Hc. simpl.
  unfold pushed. destruct (Z.eqb_spec (c_ncli c) 0) as [Hz|Hz]; simpl.
  - rewrite (alter_lookup _ _ _ _ Hc). rewrite alter_lookup with (x := c <| c_intena := Z.land (k_eflags k) FL_IF |>).
    2: { apply list_lookup_insert_eq. by eapply lookup_lt_Some. }
    rewrite list_insert_insert_eq. do 3 f_equal. simpl. by rewrite <-Hi.
  - by rewrite (alter_lookup _ _ _ _ Hc).
Qed.

Lemma popcli_pushed k i c k' :
  on_cpu k i c →
  k_cpus k' = k_cpus (pushed i c k) → k_eflags k' = k_eflags (pushed i c k) →
  k_lapicid k' = k_lapicid k →
  popcli k' = Ret tt (k' <| k_eflags := k_eflags k |> <| k_cpus := k_cpus k |>).
Proof.
  intros Hoc Hcs He Hl. pose proof (on_cpu_pushed _ _ _ Hoc) as Hp.
  destruct Hoc as [Hf Hc Hn Ho Hi]. simpl in Hcs, He.
  assert (Z.land (k_eflags k') FL_IF = 0) as Hoff by by rewrite He, land_cli.
  unfold popcli, readeflags. unfold bind at 1, gets at 1. rewrite Hoff. simpl.
  erewrite bind_ret_eq; [|eapply mycpu_run; [exact Hcs| |exact Hoff]].
  2: { rewrite Hl. apply (oc_find _ _ _ Hp). }
  unfold get_cpu, upd_cpu, bind, gets, modify, when. simpl.
  assert (k_cpus k' !! i = Some (c <| c_ncli := c_ncli c + 1 |>)) as Hc'.
  { rewrite Hcs. apply (oc_cpu _ _ _ Hp). }
  rewrite (alter_lookup _ _ _ _ Hc'), Hcs, list_insert_insert_eq.
  rewrite list_lookup_insert_eq by by eapply lookup_lt_Some. simpl.
  destruct (Z.ltb_spec (c_ncli c + 1 - 1) 0); [lia|].
  assert (<[i := c <| c_ncli := c_ncli c + 1 - 1 |>]> (k_cpus k) = k_cpus k) as Hid.
  { apply list_insert_id. rewrite Hc. f_equal. destruct c. simpl. f_equal. lia. }
  simpl in Hid. rewrite Hid.
  destruct (Z.eqb_spec (c_ncli c + 1 - 1) 0) as [Hz|Hz]; simpl.
  - rewrite Hi by lia. unfold truthy.
    destruct (Z.eqb_spec (Z.land (k_eflags k) FL_IF) 0) as [Hoff'|Hon]; simpl; unfold ret.
    + do 2 f_equal. rewrite He. by apply ldiff_off.
    + unfold sti, modify. simpl. do 2 f_equal. rewrite He. by apply lor_cli.
  - unfold ret. do 2 f_equal. rewrite He. apply ldiff_off, Ho. lia.
Qed.

(** Undoing the effect of [locked_by] on the processor and the lock. *)
Definition unlocked_from (k : kernel) (k1 : kernel) : kernel :=
  k1 <| k_locks := k_locks k |> <| k_eflags := k_eflags k |> <| k_cpus := k_cpus k |>.

Definition lock_free (l : lockid) (k : kernel) : Prop := k_locks k !! l = Some unlocked.

Lemma kernel_eta_cpu k : k <| k_eflags := k_eflags k |> <| k_cpus := k_cpus k |> = k.
Proof. by destruct k. Qed.

Lemma holding_ret l lk k i c :
  on_cpu k i c → k_locks k !! l = Some lk →
  holding l k = Ret (truthy (lk_locked lk) && bool_decide (lk_cpu lk = Some i)) k.
Proof.
  intros Hoc Hl. unfold holding.
  erewrite bind_ret_eq; [|by apply pushcli_ret].
  unfold get_lock. unfold bind at 1, bind at 1, gets at 1. simpl. rewrite Hl. simpl.
  erewrite bind_ret_eq.
  2: { pose proof (on_cpu_pushed _ _ _ Hoc) as Hp.
       eapply mycpu_run; [done|apply (oc_find _ _ _ Hp)|apply land_cli]. }
  erewrite bind_ret_eq; [|by eapply popcli_pushed].
  unfold ret. f_equal. by destruct k.
Qed.

Lemma acquire_ret l k i c :
  on_cpu k i c → lock_free l k → acquire l k = Ret tt (locked_by l i c k).
Proof.
  intros Hoc Hl. pose proof (on_cpu_pushed _ _ _ Hoc) as Hp. unfold acquire.
  erewrite bind_ret_eq; [|by apply pushcli_ret].
  erewrite bind_ret_eq; [|by apply (holding_ret l unlocked _ _ _ Hp)]. simpl.
  unfold xchg_locked, get_lock, set_lock.
  unfold bind at 1 2 3, gets at 1. simpl. rewrite Hl. simpl.
  erewrite bind_ret_eq.
  2: { eapply mycpu_run; [done|apply (oc_find _ _ _ Hp)|apply land_cli]. }
  unfold bind, gets, modify. simpl. rewrite lookup_insert_eq. simpl.
  by rewrite insert_insert_eq.
Qed.

(** Acquiring a lock this processor already holds panics. *)
Lemma acquire_held l k i c :
  on_cpu k i c → k_locks k !! l = Some (held i) → acquire l k = Panic "acquire".
Proof.
  intros Hoc Hl. pose proof (on_cpu_pushed _ _ _ Hoc) as Hp. unfold acquire.
  erewrite bind_ret_eq; [|by apply pushcli_ret].
  erewrite bind_ret_eq; [|by apply (holding_ret l (held i) _ _ _ Hp)]. simpl.
  by rewrite bool_decide_true.
Qed.

(** Acquiring a lock another processor holds busy-waits. *)
Lemma acquire_busy l k i c j :
  on_cpu k i c → k_locks k !! l = Some (held j) → i ≠ j → ∃ k', acquire l k = Spin k'.
Proof.
  intros Hoc Hl Hij. pose proof (on_cpu_pushed _ _ _ Hoc) as Hp. unfold acquire.
  erewrite bind_ret_eq; [|by apply pushcli_ret].
  erewrite bind_ret_eq; [|by apply (holding_ret l (held j) _ _ _ Hp)]. simpl.
  rewrite bool_decide_false by congruence.
  unfold xchg_locked, get_lock, set_lock. unfold bind, gets. simpl. rewrite Hl. simpl.
  by eexists.
Qed.

(** A release of any lock this processor holds, whatever the order the locks
    were taken in: it undoes one [pushcli], made in [k]. *)
Lemma release_pop l k i c k1 :
  on_cpu k i c →
  k_cpus k1 = k_cpus (pushed i c k) → k_eflags k1 = k_eflags (pushed i c k) →
  k_lapicid k1 = k_lapicid k → k_locks k1 !! l = Some (held i) →
  release l k1 = Ret tt (k1 <| k_locks := <[l := unlocked]> (k_locks k1) |>
                            <| k_eflags := k_eflags k |> <| k_cpus := k_cpus k |>).
Proof.
  intros Hoc Hcs He Hla Hlk. pose proof (on_cpu_pushed _ _ _ Hoc) as Hp.
  assert (on_cpu k1 i (c <| c_ncli := c_ncli c + 1 |>)) as Hoc1.
  { destruct Hp as [H1 H2 H3 H4 H5]. split; rewrite ?Hcs, ?He, ?Hla; done. }
  unfold release. erewrite bind_ret_eq.
  2: { by apply (holding_ret l (held i) _ _ _ Hoc1). }
  simpl. rewrite bool_decide_true by done. simpl.
  unfold get_lock, set_lock. unfold bind at 1 2, gets at 1.
  rewrite Hlk. simpl.
  unfold bind at 1, modify at 1. simpl. unfold bind at 1 2, gets at 1. simpl.
  rewrite lookup_insert_eq. simpl. unfold bind at 1, modify at 1. simpl.
  rewrite (popcli_pushed k i c) by done. simpl. by rewrite insert_insert_eq.
Qed.

(** The release that ends the critical section entered from [k]: [k1] is the
    state the section produced. *)
Lemma release_ret l k i c k1 :
  on_cpu k i c → lock_free l k →
  k_cpus k1 = k_cpus (pushed i c k) → k_eflags k1 = k_eflags (pushed i c k) →
  k_lapicid k1 = k_lapicid k → k_locks k1 = <[l := held i]> (k_locks k) →
  release l k1 = Ret tt (unlocked_from k k1).
Proof.
  intros Hoc Hl Hcs He Hla Hlk.
  rewrite (release_pop l k i c) by (rewrite ?Hlk, ?lookup_insert_eq; done).
  unfold unlocked_from. by rewrite Hlk, insert_insert_eq, insert_id.
Qed.

(** A critical section that leaves the processor and the locks alone. *)
Lemma critical {A} l (body : K A) k i c a k1 :
  on_cpu k i c → lock_free l k →
  body (locked_by l i c k) = Ret a k1 →
  k_cpus k1 = k_cpus (pushed i c k) → k_eflags k1 = k_eflags (pushed i c k) →
  k_lapicid k1 = k_lapicid k → k_locks k1 = <[l := held i]> (k_locks k) →
  (acquire l ;; x ← body; release l ;; ret x) k = Ret a (unlocked_from k k1).
Proof.
  intros Hoc Hl Hb Hcs He Hla Hlk.
  erewrite bind_ret_eq; [|by apply acquire_ret].
  erewrite bind_ret_eq; [|exact Hb].
  erewrite bind_ret_eq; [|by eapply release_ret]. done.
Qed.

Lemma myproc_ret k i c : on_cpu k i c → myproc k = Ret (c_proc c) k.
Proof.
  intros Hoc. pose proof (on_cpu_pushed _ _ _ Hoc) as Hp. unfold myproc.
  erewrite bind_ret_eq; [|by apply pushcli_ret].
  erewrite bind_ret_eq.
  2: { eapply mycpu_run; [done|apply (oc_find _ _ _ Hp)|apply land_cli]. }
  unfold get_cpu. unfold bind at 1 2, gets at 1. simpl.
  rewrite list_lookup_insert_eq by (destruct Hoc; by eapply lookup_lt_Some). simpl.
  rewrite (bind_ret_eq _ _ _ _ _ (popcli_pushed k i c _ Hoc eq_refl eq_refl eq_refl)).
  unfold ret. f_equal. by destruct k.
Qed.

End Spin.
Export Spin.
