(* ===== verification/Boot.v ===== *)
(** * Boot: the globals as the program starts, and sample machines

    [bss] gives every global the value its definition in the source gives it
    (zero where there is no initialiser).  The machines after it are the states
    the closed instances of the theorems are evaluated in. *)
From S2P Require Import Prelude.
From S2P Require Import Mem.
From S2P Require Import State.
From S2P Require Import Spin.

Definition zero_proc : proc :=
  mkProc 0 0 0 UNUSED 0 None 0 0 None 0 (replicate NOFILE None) None (replicate 16 0)
    0 0 0 0 0 0 (replicate 5 0) 0 0 0 (replicate 5 0).
Definition zero_buf : buf := mkBuf 0 0 0 0 0 0 [].
Definition zero_inode : inode := mkInode 0 0 0 0 0 0 0 0 0 (replicate 13 0).
Definition zero_file : file := mkFile FD_NONE 0 0 0 0 None 0.
(** The queues [q0] .. [q4] with [c0 = -1] .. [c4 = -1]. *)
Definition empty_queue : mlq := mkMlq (replicate NPROC None) (-1).

(** One processor, whose local APIC has id 0; the addresses are those a linker
    could have given to [end], [data], [trapret] and [forkret]. *)
Definition bss (pol : policy) : kernel :=
  mkKernel pol 0x80116000 0x80108000 0x80106000 0x80104000
    [mkCpu 0 0 0 0 None] 0 0 0
    ∅ ∅ 0 0 0
    (replicate NPROC zero_proc) 1 None (replicate 5 empty_queue) 0
    ∅ ∅ (replicate NFILE zero_file) (replicate NINODE zero_inode)
    (replicate (S NBUF) zero_buf) (mkSuperblock 0 0 0 0 0 0 0)
    (mkLog 0 0 0 0 0 0 (replicate (Z.to_nat LOGSIZE) 0))
    [] [] [] 0 (mkInput (replicate 128 0) 0 0 0).

(** ** Sample machines *)

Definition sys_locks : gmap lockid spinlock :=
  list_to_map ((λ l, (l, unlocked)) <$>
    ([LPtable; LKmem; LTicks; LFtable; LIcache; LBcache; LLog; LIde; LCons] ++ (LBuf <$> seq 0 NBUF))).

(** Process [pid] in state [st]. *)
Definition sample_proc (pid : Z) (st : procstate) (parent : option nat) : proc :=
  zero_proc <| p_pid := pid |> <| p_state := st |> <| p_parent := parent |>.

Definition sample_procs : list proc :=
  [sample_proc 1 RUNNING None; sample_proc 2 RUNNABLE (Some 0%nat); sample_proc 3 ZOMBIE (Some 0%nat)]
  ++ replicate 61 zero_proc.
Definition sample_cpu : cpu := mkCpu 0 0 0 FL_IF (Some 0%nat).

(** The first process runs on the processor with the locks free; its two
    children are runnable and a zombie.  Memory holds [m] and the interrupt flag
    is that of [fl]. *)
Definition sample_with (pol : policy) (m : mem) (fl : Z) : kernel :=
  mkKernel pol 0x80116000 0x80108000 0x80106000 0x80104000
    [sample_cpu] 0 fl 0
    m sys_locks 0 0 0
    sample_procs 4 (Some 0%nat)
    (mkMlq ([Some 0; Some 1; Some 2]%nat ++ replicate 61 None) 2 :: replicate 4 empty_queue) 100
    ∅ ∅ (replicate NFILE zero_file) (replicate NINODE zero_inode)
    (replicate (S NBUF) zero_buf) (mkSuperblock 0 0 0 0 0 0 0)
    (mkLog 0 0 0 0 0 0 (replicate (Z.to_nat LOGSIZE) 0))
    [] [] [] 0 (mkInput (replicate 128 0) 0 0 0).
Definition sample (pol : policy) : kernel := sample_with pol ∅ FL_IF.

Lemma sample_on_cpu pol : on_cpu (sample pol) 0 sample_cpu.
Proof. split; done. Qed.
