(* ===== verification/Cons.v ===== *)
(** * Cons: printing to the console ([printint] and [cprintf] of [console.c])

    [consputc] is the sequence of the characters it is given; what the serial
    port and the screen make of them is in [Chips]. *)
From S2P Require Import Prelude.
From S2P Require Import Mem.
From S2P Require Import State.
From S2P Require Import Spin.

Module Cons.

Definition BACKSPACE : Z := 256.

Definition consputc (c : Z) : K unit := modify (λ k, k <| k_cons := k_cons k ++ [c] |>).

Definition digits : list Z := chars "0123456789abcdef".

(** [do buf[i++] = digits[x % base]; while((x /= base) != 0);]: the buffer,
    least significant digit first.  [x] has at most 32 digits. *)
Fixpoint digit_loop (fuel : nat) (x base : Z) : list Z :=
  match fuel with
  | O => []
  | S fuel' =>
      default 0 (digits !! Z.to_nat (x mod base)) ::
      (if x / base =? 0 then [] else digit_loop fuel' (x / base) base)
  end.
Definition printint (xx base : Z) (sign : bool) : list Z :=
  let neg := sign && (xx <? 0) in
  let x := u32 (if neg then - xx else xx) in
  let buf := digit_loop 32 x base ++ (if neg then chars "-" else []) in
  reverse buf.

(** An argument of [cprintf]: a number, or a pointer to a string. *)
Inductive carg := CInt (z : Z) | CStr (s : list Z).

(** The characters [cprintf] prints; a missing or ill-typed argument is
    undefined. *)
Fixpoint cprintf_chars (fmt : list Z) (args : list carg) : option (list Z) :=
  match fmt with
  | [] => Some []
  | c :: fmt =>
      if negb (c =? 37) then out ←? cprintf_chars fmt args; Some (c :: out)
      else
        match fmt with
        | [] => Some []
        | c :: fmt =>
            if c =? 100 then               (* %d *)
              match args with
              | CInt z :: args => out ←? cprintf_chars fmt args; Some (printint z 10 true ++ out)
              | _ => None
              end
            else if (c =? 120) || (c =? 112) then   (* %x, %p *)
              match args with
              | CInt z :: args => out ←? cprintf_chars fmt args; Some (printint z 16 false ++ out)
              | _ => None
              end
            else if c =? 115 then          (* %s *)
              match args with
              | CStr s :: args => out ←? cprintf_chars fmt args; Some (s ++ out)
              | CInt 0 :: args => out ←? cprintf_chars fmt args; Some (chars "(null)" ++ out)
              | _ => None
              end
            else if c =? 37 then           (* %% *)
              out ←? cprintf_chars fmt args; Some (37 :: out)
            else out ←? cprintf_chars fmt args; Some (37 :: c :: out)
        end
  end.

Definition cprintf (fmt : string) (args : list carg) : K unit :=
  locking ← gets k_cons_locking;
  when (truthy locking) (acquire LCons) ;;
  out ← get_or "cprintf arguments" (cprintf_chars (chars fmt) args);
  for_each out consputc ;;
  when (truthy locking) (release LCons).

(** The console's lock can be taken, or is not used yet. *)
Definition cons_ready (k : kernel) : Prop :=
  k_cons_locking k = 0 ∨ ∃ i c, on_cpu k i c ∧ lock_free LCons k.

Lemma consputc_all out k : for_each out consputc k = Ret tt (k <| k_cons := k_cons k ++ out |>).
Proof.
  revert k. induction out as [|c out IH]; intros k; simpl.
  { rewrite app_nil_r. by destruct k. }
  unfold bind, consputc at 1, modify. rewrite IH. simpl. by rewrite <-app_assoc.
Qed.

Lemma cprintf_ret fmt args out k :
  cons_ready k → cprintf_chars (chars fmt) args = Some out →
  cprintf fmt args k = Ret tt (k <| k_cons := k_cons k ++ out |>).
Proof.
  intros Hr Ho. unfold cprintf. unfold bind at 1, gets at 1. unfold truthy.
  destruct (Z.eqb_spec (k_cons_locking k) 0) as [Hz|Hz]; simpl.
  - rewrite Ho. erewrite bind_ret_eq by done. simpl.
    erewrite bind_ret_eq by done. by erewrite bind_ret_eq by apply consputc_all.
  - destruct Hr as [|(i & c & Hoc & Hl)]; [done|].
    erewrite bind_ret_eq by by apply acquire_ret. rewrite Ho.
    erewrite bind_ret_eq by done. erewrite bind_ret_eq by apply consputc_all.
    rewrite (release_ret LCons k i c) by done. by destruct k.
Qed.

(** ** printint prints the number *)

(** The value of a digit string, least significant digit first. *)
Fixpoint digits_value (base : Z) (ds : list Z) : Z :=
  match ds with
  | [] => 0
  | d :: ds' => (if d <? 58 then d - 48 else d - 87) + base * digits_value base ds'
  end.

Lemma digit_char d : 0 ≤ d < 16 →
  let c := default 0 (digits !! Z.to_nat d) in (if c <? 58 then c - 48 else c - 87) = d.
Proof.
  intros H. assert (d = 0 ∨ d = 1 ∨ d = 2 ∨ d = 3 ∨ d = 4 ∨ d = 5 ∨ d = 6 ∨ d = 7 ∨ d = 8 ∨
    d = 9 ∨ d = 10 ∨ d = 11 ∨ d = 12 ∨ d = 13 ∨ d = 14 ∨ d = 15) as Hd by lia.
  repeat destruct Hd as [->|Hd]; try (vm_compute; reflexivity). rewrite Hd. vm_compute; reflexivity.
Qed.

Lemma digit_loop_value fuel x base :
  2 ≤ base ≤ 16 → 0 ≤ x < 2 ^ Z.of_nat fuel → (0 < fuel)%nat →
  digits_value base (digit_loop fuel x base) = x.
Proof.
  intros Hb. revert x. induction fuel as [|fuel IH]; intros x Hx Hf; [lia|].
  cbn [digit_loop digits_value].
  assert (0 ≤ x mod base < 16) by (pose proof (Z.mod_pos_bound x base); lia).
  rewrite digit_char by done.
  assert (digits_value base (if x / base =? 0 then [] else digit_loop fuel (x / base) base) = x / base) as ->.
  { destruct (Z.eqb_spec (x / base) 0) as [Hz|Hz]; [done|].
    assert (0 ≤ x / base < 2 ^ Z.of_nat fuel).
    { split; [apply Z.div_pos; lia|]. apply Z.div_lt_upper_bound; [lia|].
      replace (Z.of_nat (S fuel)) with (Z.of_nat fuel + 1) in Hx by lia.
      rewrite Z.pow_add_r in Hx by lia. nia. }
    destruct fuel as [|fuel]; [simpl in *; lia|]. apply IH; lia. }
  rewrite (Z.div_mod x base) at 3 by lia. lia.
Qed.

End Cons.
Export Cons.
