(* ===== verification/MainLib.v ===== *)
(** * MainLib: the string library and number printing *)
From S2P Require Import Prelude.
From S2P Require Import Mem.
From S2P Require Import Str.
From S2P Require Import State.
From S2P Require Import Spin.
From S2P Require Import Boot.
From S2P Require Import Cons.
Import Str.

(** ** Printing and reading numbers *)

Lemma digit_loop_chars fuel x base :
  0 ≤ x → 2 ≤ base ≤ 10 → Forall (λ c, 48 ≤ c ≤ 57) (digit_loop fuel x base).
Proof.
  intros Hx Hb. revert x Hx. induction fuel as [|fuel IH]; intros x Hx; cbn [digit_loop]; [constructor|].
  assert (0 ≤ x mod base < base) by (apply Z.mod_pos_bound; lia). apply Forall_cons. split.
  - assert (Forall (λ c, 48 ≤ c ≤ 57) (take 10 digits)) as Hd by (by repeat constructor).
    destruct (digits !! Z.to_nat (x mod base)) as [c|] eqn:Hc.
    + rewrite Forall_lookup in Hd. eapply (Hd (Z.to_nat (x mod base))). rewrite lookup_take_lt by lia. done.
    + apply lookup_ge_None in Hc. simpl in Hc. lia.
  - destruct (x / base =? 0); [constructor|]. apply IH. apply Z.div_pos; lia.
Qed.

Lemma digits_value_nonneg ds : Forall (λ c, 48 ≤ c ≤ 57) ds → 0 ≤ digits_value 10 ds.
Proof.
  induction 1 as [|c ds Hc _ IH]; cbn [digits_value]; [lia|]. destruct (Z.ltb_spec c 58); lia.
Qed.

Lemma atoi_digits ds rest :
  Forall (λ c, 48 ≤ c ≤ 57) ds → digits_value 10 ds < 2147483648 →
  atoi_loop (reverse ds ++ rest) 0 = atoi_loop rest (digits_value 10 ds).
Proof.
  intros Hf. revert rest. induction Hf as [|c ds Hc Hf IH]; intros rest Hv; [done|].
  cbn [digits_value] in Hv |- *. pose proof (digits_value_nonneg ds Hf).
  destruct (Z.ltb_spec c 58); [|lia]. rewrite reverse_cons, <-app_assoc, IH by lia. simpl.
  destruct (Z.leb_spec 48 c), (Z.leb_spec c 57); try lia. simpl. f_equal. rewrite s32_small by lia. lia.
Qed.

Lemma length_digit_loop fuel x base n :
  2 ≤ base → 0 ≤ x < base ^ Z.of_nat n → (0 < n)%nat → (length (digit_loop fuel x base) ≤ n)%nat.
Proof.
  intros Hb. revert x fuel. induction n as [|n IH]; intros x fuel Hx Hn; [lia|].
  destruct fuel as [|fuel]; simpl; [lia|]. destruct (Z.eqb_spec (x / base) 0) as [|Hz]; simpl; [lia|].
  replace (Z.of_nat (S n)) with (1 + Z.of_nat n) in Hx by lia. rewrite Z.pow_add_r, Z.pow_1_r in Hx by lia.
  assert (0 ≤ x / base < base ^ Z.of_nat n).
  { split; [apply Z.div_pos; lia|]. apply Z.div_lt_upper_bound; lia. }
  destruct n as [|n]; [simpl in *; lia|]. specialize (IH (x / base) fuel). lia.
Qed.

(** Printing and reading a number: [atoi] reads back what [printint] prints
    in base 10 for every non-negative [int], followed by anything that is not a
    digit, and the digits and the sign of any 32-bit value fit in the 16-byte
    buffer of [printint] in both bases it is called with. *)
Theorem atoi_printint x c rest :
  0 ≤ x < 2147483648 → c < 48 ∨ 57 < c →
  atoi (printint x 10 true ++ c :: rest) = Some x ∧
  ∀ y sign, (length (printint y 10 sign) ≤ 16 ∧ length (printint y 16 false) ≤ 16)%nat.
Proof.
  intros Hx Hc. split.
  - unfold printint. destruct (Z.ltb_spec x 0); [lia|]. cbn [andb]. rewrite app_nil_r, u32_small by lia.
    unfold atoi. assert (digits_value 10 (digit_loop 32 x 10) = x) as Hv by (apply digit_loop_value; simpl; lia).
    rewrite atoi_digits; [|apply digit_loop_chars; lia|lia]. rewrite Hv. simpl.
    destruct (Z.leb_spec 48 c), (Z.leb_spec c 57); simpl; try lia; done.
  - intros y sign. pose proof (u32_range y). pose proof (u32_range (- y)).
    assert (∀ z, 0 ≤ z < 4294967296 → (length (digit_loop 32 z 10) ≤ 10)%nat) as H10
      by (intros z Hz; apply length_digit_loop; simpl; lia).
    assert (∀ z, 0 ≤ z < 4294967296 → (length (digit_loop 32 z 16) ≤ 8)%nat) as H16
      by (intros z Hz; apply length_digit_loop; simpl; lia).
    unfold printint. rewrite !length_reverse, !length_app. cbn [andb length]. split.
    + assert (length (chars "-") = 1%nat) by done.
      destruct (sign && (y <? 0)); cbn [length]; [specialize (H10 (u32 (- y)))|specialize (H10 (u32 y))]; lia.
    + specialize (H16 (u32 y)). lia.
Qed.

Lemma atoi_printint_witness : atoi (printint 2147483647 10 true ++ [0]) = Some 2147483647.
Proof. apply (atoi_printint 2147483647 0 []); lia. Defined.

(** ** Memory and strings *)

(** [memmove] copies correctly whether or not the two ranges overlap:
    afterwards the destination holds the bytes the source held before, and no
    other byte of memory has changed. *)
Theorem memmove_overlap m dst src n b :
  mem_ok m → 0 ≤ n →
  ld8 (memmove m dst src n) b =
  if decide (dst ≤ b < dst + n) then ld8 m (src + (b - dst)) else ld8 m b.
Proof. apply ld8_memmove. Qed.

Lemma memmove_overlap_witness :
  let m := st8 (st8 (st8 ∅ 10 1) 11 2) 12 3 in
  ld8 (memmove m 11 10 3) 13 = 3 ∧ ld8 (memmove m 11 10 3) 12 = 2 ∧ ld8 (memmove m 11 10 3) 10 = 1.
Proof.
  intros m. assert (mem_ok m) as Hm by (repeat apply mem_ok_st8; apply mem_ok_empty).
  rewrite !(memmove_overlap m 11 10 3 _ Hm) by lia. split_and!; reflexivity.
Defined.

(** [strncpy] fills its [n] bytes with the string, cut to [n] bytes, and
    zeros; a [strncmp] over [n] bytes then finds copy and original equal, which
    is what directory entries rely on. *)
Theorem strncpy_strncmp s t n :
  (n ≤ length s)%nat → scannable n t → Forall is_byte t →
  ∃ s', strncpy s t n = Some s' ∧ length s' = length s ∧ drop n s' = drop n s ∧
    take n s' = cut n t ++ replicate (n - length (cut n t)) 0 ∧
    strncmp (take n s') t n = Some 0.
Proof.
  intros Hs Ht Hb. pose proof (strncpy_spec s t n Hs Ht) as Hc. pose proof (length_cut n t) as Hl.
  eexists. split; [exact Hc|]. rewrite !length_app, length_replicate, length_drop.
  split; [lia|]. rewrite app_assoc.
  rewrite drop_app_length', take_app_length' by (rewrite length_app, length_replicate; lia).
  split; [done|]. split; [done|].
  assert (Forall is_byte (cut n t)) as Hcb.
  { clear -Hb. revert n. induction Hb as [|c t Hc Hb IH]; intros [|n]; simpl; try constructor.
    destruct (truthy c); constructor; auto. }
  destruct (strncmp_spec (cut n t ++ replicate (n - length (cut n t)) 0) t n) as (r & Hr & Hz); try done.
  - apply Forall_app. split; [done|]. apply Forall_replicate. unfold is_byte. lia.
  - left. rewrite length_app, length_replicate. lia.
  - rewrite Hr. f_equal. apply Hz. apply cut_pad. lia.
Qed.

Lemma strncpy_strncmp_witness :
  ∃ s', strncpy (replicate 14 7) (chars "README" ++ [0]) 14 = Some s' ∧
    strncmp (take 14 s') (chars "README" ++ [0]) 14 = Some 0.
Proof.
  destruct (strncpy_strncmp (replicate 14 7) (chars "README" ++ [0]) 14) as (s' & H & _ & _ & _ & Hc).
  - simpl. lia.
  - right. set_solver.
  - repeat constructor; simpl; lia.
  - exists s'. split; [exact H|exact Hc].
Defined.

(** [safestrcpy] into a buffer of at least [n] bytes, [n] positive, writes
    inside the buffer only and always leaves a NUL-terminated string there: the
    source cut to [n - 1] bytes. *)
Theorem safestrcpy_terminates s t n :
  (0 < n)%nat → (n ≤ length s)%nat → scannable (n - 1) t →
  ∃ s', safestrcpy s t (Z.of_nat n) = Some s' ∧ length s' = length s ∧ drop n s' = drop n s ∧
    cut n s' = cut (n - 1) t ∧ s' !! length (cut (n - 1) t) = Some 0.
Proof.
  intros Hn Hs Ht. destruct n as [|n]; [lia|]. rewrite Nat.sub_succ, Nat.sub_0_r in *.
  unfold safestrcpy. destruct (Z.leb_spec (Z.of_nat (S n)) 0); [lia|]. rewrite Nat2Z.id.
  destruct (safestrcpy_loop_spec s t n Hs Ht) as (s' & Hr & Hl & Hc & Hd & Hz). exists s'. by split_and!.
Qed.

Lemma safestrcpy_terminates_witness :
  ∃ s', safestrcpy (replicate 4 9) (chars "initcode" ++ [0]) 4 = Some s' ∧ s' !! 3%nat = Some 0.
Proof.
  destruct (safestrcpy_terminates (replicate 4 9) (chars "initcode" ++ [0]) 4) as (s' & H & _ & _ & _ & Hz).
  - lia.
  - simpl. lia.
  - left. simpl. lia.
  - exists s'. split; [exact H|exact Hz].
Defined.
