(* ===== verification/Kalloc.v ===== *)
(** * Kalloc: the physical page allocator ([kalloc.c])

    Free pages form a singly linked list threaded through the pages
    themselves: the first word of a free page is the address of the next one.
    The allocator refines a stack of pages ([chain]): [kfree] pushes, [kalloc]
    pops, and no page is ever on the list twice. *)
From S2P Require Import Prelude.
From S2P Require Import Mem.
From S2P Require Import State.
From S2P Require Import Spin.
From S2P Require Import Boot.

Module Kalloc.

Definition lock_kmem : K unit :=
  u ← gets k_use_lock; when (truthy u) (acquire LKmem).
Definition unlock_kmem : K unit :=
  u ← gets k_use_lock; when (truthy u) (release LKmem).

(** The test at the head of [kfree]. *)
Definition bad_page (end_ v : Z) : bool :=
  truthy (u32 v mod PGSIZE) || (v <? end_) || (PHYSTOP <=? V2P v).

Definition kfree (v : Z) : K unit :=
  end_ ← gets k_end;
  if bad_page end_ v then panic "kfree"
  else
    modify (λ k, k <| k_mem := memset (k_mem k) v 1 PGSIZE |>) ;;
    lock_kmem ;;
    modify (λ k, k <| k_mem := st32 (k_mem k) v (k_freelist k) |>) ;;
    modify (λ k, k <| k_freelist := v |>) ;;
    unlock_kmem.

Definition kalloc : K Z :=
  lock_kmem ;;
  r ← gets k_freelist;
  when (truthy r) (modify (λ k, k <| k_freelist := ld32 (k_mem k) r |>)) ;;
  unlock_kmem ;;
  ret r.

(** [for(; p + PGSIZE <= vend; p += PGSIZE) kfree(p);] with the number of
    iterations bounded by the number of pages below [vend]. *)
Fixpoint freerange_loop (fuel : nat) (p vend : Z) : K unit :=
  match fuel with
  | O => ret tt
  | S fuel' =>
      if p + PGSIZE <=? vend then kfree p ;; freerange_loop fuel' (p + PGSIZE) vend
      else ret tt
  end.
Definition freerange (vstart vend : Z) : K unit :=
  let p := PGROUNDUP vstart in
  freerange_loop (Z.to_nat ((vend - p) / PGSIZE + 1)) p vend.

Definition kinit1 (vstart vend : Z) : K unit :=
  initlock LKmem ;;
  modify (λ k, k <| k_use_lock := 0 |>) ;;
  freerange vstart vend.

Definition kinit2 (vstart vend : Z) : K unit :=
  freerange vstart vend ;;
  modify (λ k, k <| k_use_lock := 1 |>).

(** ** The abstract allocator: a stack of pages *)

Fixpoint chain (m : mem) (head : Z) (l : list Z) : Prop :=
  match l with
  | [] => head = 0
  | v :: l' => head = v ∧ chain m (ld32 m v) l'
  end.

Definition page_ok (end_ v : Z) : Prop := bad_page end_ v = false ∧ 0 < v < 4294967296.

Record kmem_inv (k : kernel) (l : list Z) : Prop := {
  ki_mem : mem_ok (k_mem k);
  ki_chain : chain (k_mem k) (k_freelist k) l;
  ki_nodup : NoDup l;
  ki_pages : Forall (page_ok (k_end k)) l
}.

(** The allocator may be called: either before locking is enabled, or on a
    processor that can take the free-list lock. *)
Definition kmem_ready (k : kernel) : Prop :=
  k_use_lock k = 0 ∨ k_use_lock k ≠ 0 ∧ ∃ i c, on_cpu k i c ∧ lock_free LKmem k.

Lemma page_ok_aligned end_ v : page_ok end_ v → v mod 4096 = 0.
Proof.
  unfold page_ok, bad_page, truthy. intros [H Hr].
  rewrite u32_small in H by lia. unfold PGSIZE in H.
  destruct (Z.eqb_spec (v mod 4096) 0); [done|discriminate].
Qed.

Lemma pages_disjoint end_ v w :
  page_ok end_ v → page_ok end_ w → v ≠ w → v + 4096 ≤ w ∨ w + 4096 ≤ v.
Proof.
  intros Hv%page_ok_aligned Hw%page_ok_aligned Hne. Z.div_mod_to_equations. lia.
Qed.

Lemma chain_ext m m' h l :
  (∀ v, v ∈ l → ld32 m' v = ld32 m v) → chain m h l → chain m' h l.
Proof.
  revert h. induction l as [|v l IH]; intros h He; simpl; [done|].
  intros [-> Hc]. split; [done|]. rewrite He by left. apply IH; [|done].
  intros w Hw. apply He. by right.
Qed.

(** Locking around the critical section. *)
Lemma lock_unlock_kmem {A} (body : K A) (f : kernel → kernel) (a : kernel → A) k :
  kmem_ready k →
  (∀ k, body k = Ret (a k) (f k)) →
  (∀ k, k_cpus (f k) = k_cpus k ∧ k_eflags (f k) = k_eflags k ∧
        k_lapicid (f k) = k_lapicid k ∧ k_locks (f k) = k_locks k ∧
        k_use_lock (f k) = k_use_lock k) →
  (∀ i c k, unlocked_from k (f (locked_by LKmem i c k)) = f k ∧ a (locked_by LKmem i c k) = a k) →
  (lock_kmem ;; x ← body; unlock_kmem ;; ret x) k = Ret (a k) (f k).
Proof.
  intros [Hu|(Hu & i & c & Hoc & Hl)] Hb Hf Hcomm.
  - unfold lock_kmem, unlock_kmem, bind, gets, when. rewrite Hu. simpl. rewrite Hb.
    destruct (Hf k) as (_ & _ & _ & _ & ->). by rewrite Hu.
  - unfold lock_kmem. unfold bind at 1 2, gets at 1, when at 1. unfold truthy.
    destruct (Z.eqb_spec (k_use_lock k) 0); [done|]. simpl.
    rewrite acquire_ret with (i := i) (c := c) by done.
    unfold bind at 1. rewrite Hb. unfold unlock_kmem.
    destruct (Hf (locked_by LKmem i c k)) as (H1 & H2 & H3 & H4 & H5).
    unfold bind at 1 2, gets at 1. rewrite H5. simpl. unfold when, truthy.
    destruct (Z.eqb_spec (k_use_lock k) 0); [done|]. simpl.
    rewrite (release_ret LKmem k i c) by (rewrite ?H1, ?H2, ?H3, ?H4; done).
    destruct (Hcomm i c k) as [-> ->]. done.
Qed.

Lemma kalloc_ret k :
  kmem_ready k →
  kalloc k = Ret (k_freelist k)
    (if truthy (k_freelist k)
     then k <| k_freelist := ld32 (k_mem k) (k_freelist k) |> else k).
Proof.
  intros Hr.
  pose (body := r ← gets k_freelist;
          when (truthy r) (modify (λ k, k <| k_freelist := ld32 (k_mem k) r |>)) ;; ret r).
  transitivity ((lock_kmem ;; x ← body; unlock_kmem ;; ret x) k).
  { unfold kalloc, body, bind. destruct (lock_kmem k); [|done..].
    unfold gets, when, ret. by destruct (truthy _). }
  apply (lock_unlock_kmem body
    (λ k, if truthy (k_freelist k)
          then k <| k_freelist := ld32 (k_mem k) (k_freelist k) |> else k) k_freelist);
    [done|..].
  - intros k'. unfold body, bind, gets, when, ret, modify. by destruct (truthy _).
  - intros k'. by destruct (truthy _).
  - intros i c [] . unfold unlocked_from. simpl. by destruct (truthy _).
Qed.

Lemma kfree_ret v k :
  kmem_ready k → bad_page (k_end k) v = false →
  kfree v k = Ret tt
    (k <| k_mem := st32 (memset (k_mem k) v 1 PGSIZE) v (k_freelist k) |>
       <| k_freelist := v |>).
Proof.
  intros Hr Hv. unfold kfree. unfold bind at 1, gets at 1. rewrite Hv.
  unfold bind at 1, modify at 1.
  set (k1 := k <| k_mem := memset (k_mem k) v 1 PGSIZE |>).
  pose (body := modify (λ k, k <| k_mem := st32 (k_mem k) v (k_freelist k) |>) ;;
                modify (λ k, k <| k_freelist := v |>)).
  transitivity ((lock_kmem ;; x ← body; unlock_kmem ;; ret x) k1).
  { unfold body, bind. destruct (lock_kmem k1); [|done..].
    unfold modify. destruct (unlock_kmem _) as [[]| | | |]; done. }
  rewrite (lock_unlock_kmem body
    (λ k, k <| k_mem := st32 (k_mem k) v (k_freelist k) |> <| k_freelist := v |>)
    (λ _, tt)); [done|..].
  - destruct Hr as [?|(? & i & c & Hoc & ?)]; [by left|right]. split; [done|].
    exists i, c. split; [|done]. by destruct Hoc.
  - done.
  - done.
  - by intros i c [].
Qed.

Lemma kfree_bad v k : bad_page (k_end k) v = true → kfree v k = Panic "kfree".
Proof. intros H. unfold kfree, bind, gets. by rewrite H. Qed.

(** ** Refinement of the stack *)

Lemma kalloc_pop k l :
  kmem_inv k l → kmem_ready k →
  match l with
  | [] => kalloc k = Ret 0 k
  | v :: l' => ∃ k', kalloc k = Ret v k' ∧ kmem_inv k' l' ∧ k_mem k' = k_mem k ∧ v ∉ l'
  end.
Proof.
  intros [Hm Hc Hn Hp] Hr. rewrite kalloc_ret by done.
  destruct l as [|v l]; simpl in Hc; [by rewrite Hc|].
  destruct Hc as [-> Hc]. apply NoDup_cons in Hn as [Hv Hn].
  apply Forall_cons in Hp as [Hpv Hp].
  assert (truthy v = true) as ->.
  { unfold truthy. destruct (Z.eqb_spec v 0); [|done]. destruct Hpv; lia. }
  eexists. split; [done|]. split; [by split|done].
Qed.

Lemma page_write_disjoint end_ m v w h :
  page_ok end_ v → page_ok end_ w → v ≠ w →
  ld32 (st32 (memset m v 1 PGSIZE) v h) w = ld32 m w.
Proof.
  intros Hv Hw Hne. destruct (pages_disjoint _ _ _ Hv Hw Hne) as [H|H].
  all: rewrite ld32_st32_ne by lia; apply ld32_ext; intros b Hb.
  all: rewrite ld8_memset by (unfold PGSIZE; lia); rewrite decide_False; [done|].
  all: unfold PGSIZE; lia.
Qed.

Lemma kfree_push k l v :
  kmem_inv k l → kmem_ready k → page_ok (k_end k) v → v ∉ l →
  ∃ k', kfree v k = Ret tt k' ∧ kmem_inv k' (v :: l) ∧ k_end k' = k_end k ∧
        k_use_lock k' = k_use_lock k ∧ k_cpus k' = k_cpus k ∧
        k_locks k' = k_locks k ∧ k_eflags k' = k_eflags k ∧ k_lapicid k' = k_lapicid k ∧
        ∀ a, (a < v ∨ v + PGSIZE ≤ a) → ld8 (k_mem k') a = ld8 (k_mem k) a.
Proof.
  intros [Hm Hc Hn Hp] Hr Hv Hvl. rewrite kfree_ret by (done || apply Hv).
  eexists. split; [done|]. split; [|do 6 (split; [done|])].
  - split; simpl.
    + apply mem_ok_st32, mem_ok_memset; [done|done].
    + split; [done|]. rewrite ld32_st32_eq.
      assert (k_freelist k = 0 ∨ k_freelist k ∈ l) as Hh.
      { destruct l; simpl in Hc; [by left|right]. destruct Hc as [-> _]. left. }
      assert (u32 (k_freelist k) = k_freelist k) as ->.
      { apply u32_small. destruct Hh as [->|Hh]; [lia|].
        rewrite Forall_forall in Hp. apply Hp in Hh as [_ ?]. lia. }
      eapply chain_ext; [|done]. intros w Hw.
      rewrite Forall_forall in Hp. eapply page_write_disjoint; [done|by apply Hp|].
      by intros ->.
    + by apply NoDup_cons.
    + by apply Forall_cons.
  - intros a Ha. simpl. unfold PGSIZE in Ha. rewrite ld8_st32_out by lia.
    rewrite ld8_memset by (unfold PGSIZE; lia). rewrite decide_False; [done|].
    unfold PGSIZE. lia.
Qed.

Lemma kmem_ready_ext k k' :
  kmem_ready k → k_use_lock k' = k_use_lock k → k_cpus k' = k_cpus k → k_eflags k' = k_eflags k →
  k_lapicid k' = k_lapicid k → k_locks k' = k_locks k → kmem_ready k'.
Proof.
  intros [Hu|(Hu & i & c & [H1 H2 H3 H4 H5] & Hf)] H H' He Hl Hk; [left; congruence|right].
  split; [congruence|]. exists i, c. split; [split; rewrite ?H', ?He, ?Hl; done|]. unfold lock_free. by rewrite Hk.
Qed.


End Kalloc.
Export Kalloc.

(** ** The allocator as a stack of pages

    The abstract allocator is a list of distinct free pages.  Any sequence of
    calls of [kalloc] and [kfree] returns what the abstract allocator returns,
    and [freerange] puts on the list exactly the whole pages of its range. *)
(** ** Calls and their abstract meaning *)

Inductive kop := Alloc | Free (v : Z).

Definition run_kop (o : kop) : K Z :=
  match o with Alloc => kalloc | Free v => kfree v ;; ret 0 end.
Fixpoint run_kops (os : list kop) : K (list Z) :=
  match os with
  | [] => ret []
  | o :: os' => r ← run_kop o; rs ← run_kops os'; ret (r :: rs)
  end.

#[export] Instance page_ok_dec end_ v : Decision (page_ok end_ v).
Proof. unfold page_ok. apply _. Defined.

(** [None] when the caller breaks the contract of [kfree]: a page that is not
    one, or a page that is free already. *)
Definition abs_kop (end_ : Z) (l : list Z) (o : kop) : option (Z * list Z) :=
  match o with
  | Alloc => Some (match l with [] => (0, []) | v :: l' => (v, l') end)
  | Free v => if decide (page_ok end_ v ∧ v ∉ l) then Some (0, v :: l) else None
  end.
Fixpoint abs_kops (end_ : Z) (l : list Z) (os : list kop) : option (list Z * list Z) :=
  match os with
  | [] => Some ([], l)
  | o :: os' =>
      match abs_kop end_ l o with
      | Some (r, l1) =>
          match abs_kops end_ l1 os' with Some (rs, l2) => Some (r :: rs, l2) | None => None end
      | None => None
      end
  end.

(** ** Refinement *)

Lemma run_kop_refines k l o r l' :
  kmem_inv k l → kmem_ready k → abs_kop (k_end k) l o = Some (r, l') →
  ∃ k', run_kop o k = Ret r k' ∧ kmem_inv k' l' ∧ kmem_ready k' ∧ k_end k' = k_end k.
Proof.
  intros Hi Hr Ha. destruct o as [|v]; simpl in *.
  - pose proof (kalloc_pop k l Hi Hr) as Hp. destruct l as [|v l]; simplify_eq; [eauto|].
    destruct Hp as (k' & Hret & Hi' & _). exists k'. split; [done|]. split; [done|].
    rewrite (kalloc_ret k Hr) in Hret. injection Hret as _ <-. destruct (truthy _); [|done].
    split; [|done]. by eapply kmem_ready_ext.
  - case_decide as Hd; simplify_eq. destruct Hd as [Hp Hv].
    destruct (kfree_push k l v Hi Hr Hp Hv) as (k' & Hret & Hi' & He & Hu & Hc & Hl & Hf & Hla & _).
    exists k'. rewrite (bind_ret_eq _ _ _ _ _ Hret). split_and!; try done. by eapply kmem_ready_ext.
Qed.

Lemma run_kops_refines os : ∀ k l rs l',
  kmem_inv k l → kmem_ready k → abs_kops (k_end k) l os = Some (rs, l') →
  ∃ k', run_kops os k = Ret rs k' ∧ kmem_inv k' l' ∧ kmem_ready k' ∧ k_end k' = k_end k.
Proof.
  induction os as [|o os IH]; intros k l rs l' Hi Hr Ha; simpl in *; [simplify_eq; eauto|].
  destruct (abs_kop (k_end k) l o) as [[r l1]|] eqn:Ho; [|done].
  destruct (abs_kops (k_end k) l1 os) as [[rs1 l2]|] eqn:Hos; [|done]. simplify_eq.
  destruct (run_kop_refines _ _ _ _ _ Hi Hr Ho) as (k1 & H1 & Hi1 & Hr1 & He1).
  rewrite <-He1 in Hos. destruct (IH _ _ _ _ Hi1 Hr1 Hos) as (k2 & H2 & Hi2 & Hr2 & He2).
  exists k2. rewrite (bind_ret_eq _ _ _ _ _ H1), (bind_ret_eq _ _ _ _ _ H2). split_and!; [done|done|done|congruence].
Qed.

(** ** [freerange] *)

(** [n] consecutive pages from [p] on, the last one first. *)
Fixpoint pages (p : Z) (n : nat) : list Z :=
  match n with O => [] | S n' => pages (p + PGSIZE) n' ++ [p] end.

Lemma elem_of_pages p n v : v ∈ pages p n → ∃ i, v = p + PGSIZE * Z.of_nat i ∧ (i < n)%nat.
Proof.
  revert p. induction n as [|n IH]; intros p; simpl; [by intros ?%not_elem_of_nil|].
  rewrite elem_of_app, list_elem_of_singleton. intros [(i & -> & Hi)%IH| ->].
  - exists (S i). split; [lia|lia].
  - exists 0%nat. split; lia.
Qed.

Lemma pages_elem p n i : (i < n)%nat → p + PGSIZE * Z.of_nat i ∈ pages p n.
Proof.
  revert p i. induction n as [|n IH]; intros p i Hi; [lia|]. simpl. rewrite elem_of_app, list_elem_of_singleton.
  destruct i as [|i]; [right; lia|left]. replace (p + PGSIZE * Z.of_nat (S i)) with (p + PGSIZE + PGSIZE * Z.of_nat i) by lia.
  apply IH. lia.
Qed.
Lemma length_pages p n : length (pages p n) = n.
Proof. revert p. induction n as [|n IH]; intros p; [done|]. simpl. rewrite length_app, IH. simpl. lia. Qed.

Lemma freerange_loop_ret n : ∀ fuel k l p vend,
  kmem_inv k l → kmem_ready k → (n < fuel)%nat →
  p + PGSIZE * Z.of_nat n ≤ vend < p + PGSIZE * (Z.of_nat n + 1) →
  (∀ i, (i < n)%nat → page_ok (k_end k) (p + PGSIZE * Z.of_nat i) ∧ p + PGSIZE * Z.of_nat i ∉ l) →
  ∃ k', freerange_loop fuel p vend k = Ret tt k' ∧ kmem_inv k' (pages p n ++ l) ∧ kmem_ready k' ∧
    k_end k' = k_end k.
Proof.
  induction n as [|n IH]; intros fuel k l p vend Hi Hr Hf Hv Hp; (destruct fuel as [|fuel]; [lia|]);
    cbn [freerange_loop]; unfold PGSIZE in Hv |- * at 1; destruct (Z.leb_spec (p + 4096) vend); try lia.
  - exists k. done.
  - destruct (Hp 0%nat) as [Hp0 Hp1]; [lia|]. rewrite Z.mul_0_r, Z.add_0_r in Hp0, Hp1.
    destruct (kfree_push k l p Hi Hr Hp0 Hp1) as (k1 & Hret & Hi1 & He & Hu & Hc & Hl & Hfl & Hla & _).
    rewrite (bind_ret_eq _ _ _ _ _ Hret).
    destruct (IH fuel k1 (p :: l) (p + PGSIZE) vend) as (k2 & Hret2 & Hi2 & Hr2 & He2).
    { done. } { by eapply kmem_ready_ext. } { lia. } { unfold PGSIZE. lia. }
    { intros i Hlt. rewrite He. destruct (Hp (S i)) as [Hp2 Hp3]; [lia|].
      replace (p + PGSIZE + PGSIZE * Z.of_nat i) with (p + PGSIZE * Z.of_nat (S i)) by lia.
      split; [done|]. rewrite not_elem_of_cons. split; [|done]. unfold PGSIZE. lia. }
    exists k2. split; [done|]. simpl. rewrite <-app_assoc. simpl. split_and!; [done|done|congruence].
Qed.

Lemma freerange_ret k l vstart vend :
  kmem_inv k l → kmem_ready k → PGROUNDUP vstart ≤ vend →
  let p := PGROUNDUP vstart in let n := Z.to_nat ((vend - p) / PGSIZE) in
  (∀ i, (i < n)%nat → page_ok (k_end k) (p + PGSIZE * Z.of_nat i) ∧ p + PGSIZE * Z.of_nat i ∉ l) →
  ∃ k', freerange vstart vend k = Ret tt k' ∧ kmem_inv k' (pages p n ++ l) ∧ kmem_ready k'.
Proof.
  intros Hi Hr Hle p n Hp. fold p in Hle. unfold freerange. fold p.
  assert (0 ≤ (vend - p) / PGSIZE) by (apply Z.div_pos; [lia|done]).
  destruct (freerange_loop_ret n (Z.to_nat ((vend - p) / PGSIZE + 1)) k l p vend) as (k' & Hret & Hi' & Hr' & _);
    try done; [lia| |by exists k'].
  unfold n. rewrite Z2Nat.id by done. unfold PGSIZE in *.
  pose proof (Z.div_mod (vend - p) 4096). pose proof (Z.mod_pos_bound (vend - p) 4096). lia.
Qed.
