(* ===== verification/Vm.v ===== *)
(** * Vm: page tables and address spaces ([vm.c])

    Two-level i386 page tables, stored in kernel pages as 32-bit words. *)
From S2P Require Import Prelude.
From S2P Require Import Mem.
From S2P Require Import State.
From S2P Require Import Spin.
From S2P Require Import Cons.
From S2P Require Import Kalloc.

Module Vm.

(** ** mmu.h *)
Definition NPDENTRIES : nat := 1024.
Definition PTE_P : Z := 1.
Definition PTE_W : Z := 2.
Definition PTE_U : Z := 4.
Definition PDX (va : Z) : Z := Z.land (Z.shiftr (u32 va) 22) 0x3FF.
Definition PTX (va : Z) : Z := Z.land (Z.shiftr (u32 va) 12) 0x3FF.
Definition PGADDR (d t o : Z) : Z :=
  u32 (Z.lor (Z.lor (Z.shiftl d 22) (Z.shiftl t 12)) o).
Definition PTE_ADDR (pte : Z) : Z := Z.ldiff (u32 pte) 0xFFF.
Definition PTE_FLAGS (pte : Z) : Z := Z.land (u32 pte) 0xFFF.

Definition load (a : Z) : K Z := gets (λ k, ld32 (k_mem k) a).
Definition store (a w : Z) : K unit := modify (λ k, k <| k_mem := st32 (k_mem k) a w |>).
Definition kmemset (a c n : Z) : K unit :=
  modify (λ k, k <| k_mem := memset (k_mem k) a c n |>).
Definition kmemmove (d s n : Z) : K unit :=
  modify (λ k, k <| k_mem := memmove (k_mem k) d s n |>).

(** The address of the PTE for [va], or 0. *)
Definition walkpgdir (pgdir va : Z) (alloc : bool) : K Z :=
  let pde := pgdir + 4 * PDX va in
  e ← load pde;
  if truthy (Z.land e PTE_P) then ret (P2V (PTE_ADDR e) + 4 * PTX va)
  else if negb alloc then ret 0
  else
    pgtab ← kalloc;
    if pgtab =? 0 then ret 0
    else
      kmemset pgtab 0 PGSIZE ;;
      store pde (Z.lor (Z.lor (Z.lor (V2P pgtab) PTE_P) PTE_W) PTE_U) ;;
      ret (pgtab + 4 * PTX va).

(** The loop of [mappages]; it ends at the page [last], which the fuel of
    [mappages] reaches exactly. *)
Fixpoint mappages_loop (fuel : nat) (pgdir a last pa perm : Z) : K Z :=
  match fuel with
  | O => spin
  | S fuel' =>
      pte ← walkpgdir pgdir a true;
      if pte =? 0 then ret (-1)
      else
        e ← load pte;
        if truthy (Z.land e PTE_P) then panic "remap"
        else
          store pte (Z.lor (Z.lor pa perm) PTE_P) ;;
          if a =? last then ret 0
          else mappages_loop fuel' pgdir (u32 (a + PGSIZE)) last (u32 (pa + PGSIZE)) perm
  end.
Definition mappages (pgdir va size pa perm : Z) : K Z :=
  let a := PGROUNDDOWN va in
  let last := PGROUNDDOWN (u32 (va + size - 1)) in
  mappages_loop (S (Z.to_nat (u32 (last - a) / PGSIZE))) pgdir a last pa perm.

(** [deallocuvm]: the addresses below [oldsz], one page at a time, skipping
    the rest of a missing page table. *)
Fixpoint deallocuvm_loop (fuel : nat) (pgdir a oldsz : Z) : K unit :=
  match fuel with
  | O => spin
  | S fuel' =>
      if a <? oldsz then
        pte ← walkpgdir pgdir a false;
        if pte =? 0 then
          deallocuvm_loop fuel' pgdir
            (u32 (u32 (PGADDR (PDX a + 1) 0 0 - PGSIZE) + PGSIZE)) oldsz
        else
          e ← load pte;
          when (truthy (Z.land e PTE_P))
            (let pa := PTE_ADDR e in
             if pa =? 0 then panic "kfree"
             else kfree (P2V pa) ;; store pte 0) ;;
          deallocuvm_loop fuel' pgdir (u32 (a + PGSIZE)) oldsz
      else ret tt
  end.
Definition deallocuvm (pgdir oldsz newsz : Z) : K Z :=
  if oldsz <=? newsz then ret oldsz
  else
    deallocuvm_loop (S (Z.to_nat (oldsz / PGSIZE + 1))) pgdir (PGROUNDUP newsz) oldsz ;;
    ret newsz.

(** [allocuvm]: the loop over the new pages. *)
Fixpoint allocuvm_loop (fuel : nat) (pgdir a oldsz newsz : Z) : K Z :=
  match fuel with
  | O => spin
  | S fuel' =>
      if a <? newsz then
        mem ← kalloc;
        if mem =? 0 then
          cprintf ("allocuvm out of memory" +:+ NL) [] ;;
          deallocuvm pgdir newsz oldsz ;;
          ret 0
        else
          kmemset mem 0 PGSIZE ;;
          r ← mappages pgdir a PGSIZE (V2P mem) (Z.lor PTE_W PTE_U);
          if r <? 0 then
            cprintf ("allocuvm out of memory (2)" +:+ NL) [] ;;
            deallocuvm pgdir newsz oldsz ;;
            kfree mem ;;
            ret 0
          else allocuvm_loop fuel' pgdir (u32 (a + PGSIZE)) oldsz newsz
      else ret newsz
  end.
Definition allocuvm (pgdir oldsz newsz : Z) : K Z :=
  if KERNBASE <=? newsz then ret 0
  else if newsz <? oldsz then ret oldsz
  else allocuvm_loop (S (Z.to_nat (newsz / PGSIZE + 1))) pgdir (PGROUNDUP oldsz) oldsz newsz.

(** Free a page table and all the physical memory pages in the user part. *)
Definition freevm (pgdir : Z) : K unit :=
  if pgdir =? 0 then panic "freevm: no pgdir"
  else
    deallocuvm pgdir KERNBASE 0 ;;
    for_each (seq 0 NPDENTRIES) (λ i,
      e ← load (pgdir + 4 * Z.of_nat i);
      when (truthy (Z.land e PTE_P)) (kfree (P2V (PTE_ADDR e)))) ;;
    kfree pgdir.

(** The kernel's mappings, present in every process's page table. *)
Record kmap := mkKmap { virt : Z; phys_start : Z; phys_end : Z; perm : Z }.
Definition kmaps (data : Z) : list kmap :=
  [ mkKmap KERNBASE 0 EXTMEM PTE_W;                     (* I/O space *)
    mkKmap KERNLINK (V2P KERNLINK) (V2P data) 0;        (* kern text+rodata *)
    mkKmap data (V2P data) PHYSTOP PTE_W;               (* kern data+memory *)
    mkKmap DEVSPACE DEVSPACE 0 PTE_W ].                 (* more devices *)

Fixpoint setupkvm_loop (pgdir : Z) (ks : list kmap) : K Z :=
  match ks with
  | [] => ret pgdir
  | x :: ks' =>
      r ← mappages pgdir (virt x) (u32 (phys_end x - phys_start x)) (phys_start x) (perm x);
      if r <? 0 then freevm pgdir ;; ret 0 else setupkvm_loop pgdir ks'
  end.
Definition setupkvm : K Z :=
  pgdir ← kalloc;
  if pgdir =? 0 then ret 0
  else
    kmemset pgdir 0 PGSIZE ;;
    if DEVSPACE <? P2V PHYSTOP then panic "PHYSTOP too high"
    else
      data ← gets k_data;
      setupkvm_loop pgdir (kmaps data).

Definition switchkvm : K unit := modify (λ k, k <| k_cr3 := V2P (k_kpgdir k) |>).
Definition kvmalloc : K unit :=
  pgdir ← setupkvm;
  modify (λ k, k <| k_kpgdir := pgdir |>) ;;
  switchkvm.

(** The TSS descriptor and the constant TSS fields are in [Seg]; the stack
    pointer and the page table are what later code depends on. *)
Definition switchuvm (p : option nat) : K unit :=
  match p with
  | None => panic "switchuvm: no process"
  | Some i =>
      ps ← gets k_proc;
      p ← get_or "proc" (ps !! i);
      if p_kstack p =? 0 then panic "switchuvm: no kstack"
      else if p_pgdir p =? 0 then panic "switchuvm: no pgdir"
      else
        pushcli ;;
        c ← mycpu;
        upd_cpu c (λ c, c <| c_esp0 := u32 (p_kstack p + KSTACKSIZE) |>) ;;
        modify (λ k, k <| k_cr3 := V2P (p_pgdir p) |>) ;;
        popcli
  end.

Definition inituvm (pgdir : Z) (init : Z) (sz : Z) : K unit :=
  if PGSIZE <=? sz then panic "inituvm: more than a page"
  else
    mem ← kalloc;
    (if mem =? 0 then fault "inituvm: null page" else ret tt) ;;
    kmemset mem 0 PGSIZE ;;
    mappages pgdir 0 PGSIZE (V2P mem) (Z.lor PTE_W PTE_U) ;;
    kmemmove mem init sz.

Definition clearpteu (pgdir uva : Z) : K unit :=
  pte ← walkpgdir pgdir uva false;
  if pte =? 0 then panic "clearpteu"
  else e ← load pte; store pte (Z.ldiff e PTE_U).

Fixpoint copyuvm_loop (fuel : nat) (pgdir d i sz : Z) : K Z :=
  match fuel with
  | O => spin
  | S fuel' =>
      if i <? sz then
        pte ← walkpgdir pgdir i false;
        if pte =? 0 then panic "copyuvm: pte should exist"
        else
          e ← load pte;
          if negb (truthy (Z.land e PTE_P)) then panic "copyuvm: page not present"
          else
            let pa := PTE_ADDR e in
            let flags := PTE_FLAGS e in
            mem ← kalloc;
            if mem =? 0 then freevm d ;; ret 0
            else
              kmemmove mem (P2V pa) PGSIZE ;;
              r ← mappages d i PGSIZE (V2P mem) flags;
              if r <? 0 then kfree mem ;; freevm d ;; ret 0
              else copyuvm_loop fuel' pgdir d (u32 (i + PGSIZE)) sz
      else ret d
  end.
Definition copyuvm (pgdir sz : Z) : K Z :=
  d ← setupkvm;
  if d =? 0 then ret 0
  else copyuvm_loop (S (Z.to_nat (sz / PGSIZE + 1))) pgdir d 0 sz.

(** [uva2ka] dereferences the PTE address without testing it for 0. *)
Definition uva2ka (pgdir uva : Z) : K Z :=
  pte ← walkpgdir pgdir uva false;
  if pte =? 0 then fault "uva2ka: null pte"
  else
    e ← load pte;
    if negb (truthy (Z.land e PTE_P)) then ret 0
    else if negb (truthy (Z.land e PTE_U)) then ret 0
    else ret (P2V (PTE_ADDR e)).

(** [memmove] of the bytes [bs] to [a]; they come from another object. *)
Fixpoint poke (m : mem) (a : Z) (bs : list Z) : mem :=
  match bs with
  | [] => m
  | c :: bs' => poke (st8 m a c) (a + 1) bs'
  end.

(** Copy the bytes [bs] found at p to user address va in page table pgdir. *)
Fixpoint copyout_loop (fuel : nat) (pgdir va : Z) (bs : list Z) : K Z :=
  match fuel with
  | O => spin
  | S fuel' =>
      if bool_decide (bs = []) then ret 0
      else
        let va0 := PGROUNDDOWN va in
        pa0 ← uva2ka pgdir va0;
        if pa0 =? 0 then ret (-1)
        else
          let n := PGSIZE - (va - va0) in
          let n := if Z.of_nat (length bs) <? n then Z.of_nat (length bs) else n in
          modify (λ k, k <| k_mem := poke (k_mem k) (pa0 + (va - va0)) (take (Z.to_nat n) bs) |>) ;;
          copyout_loop fuel' pgdir (u32 (va0 + PGSIZE)) (drop (Z.to_nat n) bs)
  end.
Definition copyout (pgdir va : Z) (bs : list Z) : K Z :=
  copyout_loop (S (length bs)) pgdir va bs.

End Vm.
Export Vm.
