(* ===== verification/Frame.v ===== *)
(** * Frame: what most kernel code leaves alone

    The state, pid, parent and sleep channel of every process, the current
    process of every processor and the pid counter change in a few places only.
    Code that touches none of them is [quiet]; that the operations of [Spin],
    [Cons], [Kalloc] and [Vm] are quiet is a hint, so that the invariants of the
    process table step over such calls. *)
From S2P Require Import Prelude.
From S2P Require Import Mem.
From S2P Require Import State.
From S2P Require Import Spin.
From S2P Require Import Cons.
From S2P Require Import Kalloc.
From S2P Require Import Vm.

(** What the process-table invariants read of a process and of a processor. *)
Definition ess (p : proc) : procstate * Z * option nat * option chan :=
  (p_state p, p_pid p, p_parent p, p_chan p).
Definition cview (c : cpu) : Z * option nat := (c_apicid c, c_proc c).

Record same_table (k k' : kernel) : Prop := {
  tb_proc : ess <$> k_proc k' = ess <$> k_proc k;
  tb_cpus : cview <$> k_cpus k' = cview <$> k_cpus k;
  tb_lapicid : k_lapicid k' = k_lapicid k;
  tb_nextpid : k_nextpid k' = k_nextpid k;
  tb_initproc : k_initproc k' = k_initproc k
}.

#[export] Instance same_table_equivalence : Equivalence same_table.
Proof.
  split; [by split|by intros k1 k2 []; split|]. intros k1 k2 k3 [] []. split; congruence.
Qed.

Abbreviation quiet := (stays same_table).

Lemma quiet_modify (f : kernel → kernel) : (∀ k, same_table k (f k)) → quiet (modify f).
Proof. intros H. by apply stays_modify. Qed.

Ltac quiet_tac := solve_stays; try (apply quiet_modify; intros []; by split).

Lemma quiet_sti : quiet sti. Proof. unfold sti. quiet_tac. Qed.
Lemma quiet_cli : quiet cli. Proof. unfold cli. quiet_tac. Qed.
Lemma quiet_mycpu : quiet mycpu. Proof. unfold mycpu, readeflags, lapicid. quiet_tac. Qed.
Lemma quiet_get_cpu i : quiet (get_cpu i). Proof. unfold get_cpu. quiet_tac. Qed.
Lemma fmap_alter_same {A B} (g : A → B) (f : A → A) (i : nat) (l : list A) :
  (∀ x, g (f x) = g x) → g <$> alter f i l = g <$> l.
Proof.
  intros Hg. apply list_eq. intros j. rewrite !list_lookup_fmap.
  destruct (decide (i = j)) as [->|]; [|by rewrite list_lookup_alter_ne].
  rewrite list_lookup_alter_eq. destruct (l !! j); simpl; [by rewrite Hg|done].
Qed.
Lemma quiet_upd_cpu i f : (∀ c, cview (f c) = cview c) → quiet (upd_cpu i f).
Proof. intros Hf. unfold upd_cpu. apply quiet_modify. intros k. split; try done. by apply fmap_alter_same. Qed.
#[export] Hint Resolve quiet_sti quiet_cli quiet_mycpu quiet_get_cpu : quiet.
#[export] Hint Extern 1 (stays same_table (upd_cpu _ _)) => by apply quiet_upd_cpu : quiet.
Lemma quiet_pushcli : quiet pushcli. Proof. unfold pushcli, readeflags. quiet_tac. Qed.
Lemma quiet_popcli : quiet popcli. Proof. unfold popcli, readeflags. quiet_tac. Qed.
Lemma quiet_get_lock l : quiet (get_lock l). Proof. unfold get_lock. quiet_tac. Qed.
Lemma quiet_set_lock l v : quiet (set_lock l v). Proof. unfold set_lock. quiet_tac. Qed.
#[export] Hint Resolve quiet_pushcli quiet_popcli quiet_get_lock quiet_set_lock : quiet.
Lemma quiet_myproc : quiet myproc. Proof. unfold myproc. quiet_tac. Qed.
Lemma quiet_holding l : quiet (holding l). Proof. unfold holding. quiet_tac. Qed.
Lemma quiet_xchg l : quiet (xchg_locked l). Proof. unfold xchg_locked. quiet_tac. Qed.
Lemma quiet_initlock l : quiet (initlock l). Proof. unfold initlock. quiet_tac. Qed.
#[export] Hint Resolve quiet_myproc quiet_holding quiet_xchg quiet_initlock : quiet.
Lemma quiet_acquire l : quiet (acquire l). Proof. unfold acquire. quiet_tac. Qed.
Lemma quiet_release l : quiet (release l). Proof. unfold release. quiet_tac. Qed.
#[export] Hint Resolve quiet_acquire quiet_release : quiet.

Lemma quiet_lock_kmem : quiet lock_kmem. Proof. unfold lock_kmem. quiet_tac. Qed.
Lemma quiet_unlock_kmem : quiet unlock_kmem. Proof. unfold unlock_kmem. quiet_tac. Qed.
#[export] Hint Resolve quiet_lock_kmem quiet_unlock_kmem : quiet.
Lemma quiet_kfree v : quiet (kfree v). Proof. unfold kfree. quiet_tac. Qed.
Lemma quiet_kalloc : quiet kalloc. Proof. unfold kalloc. quiet_tac. Qed.
#[export] Hint Resolve quiet_kfree quiet_kalloc : quiet.

Lemma quiet_load a : quiet (load a). Proof. unfold load. quiet_tac. Qed.
Lemma quiet_store a w : quiet (store a w). Proof. unfold store. quiet_tac. Qed.
Lemma quiet_kmemset a c n : quiet (kmemset a c n). Proof. unfold kmemset. quiet_tac. Qed.
Lemma quiet_kmemmove a c n : quiet (kmemmove a c n). Proof. unfold kmemmove. quiet_tac. Qed.
Lemma quiet_consputc c : quiet (consputc c). Proof. unfold consputc. quiet_tac. Qed.
#[export] Hint Resolve quiet_consputc : quiet.
Lemma quiet_cprintf f a : quiet (cprintf f a). Proof. unfold cprintf. quiet_tac. Qed.
#[export] Hint Resolve quiet_load quiet_store quiet_kmemset quiet_kmemmove quiet_cprintf : quiet.

Lemma quiet_walkpgdir d va al : quiet (walkpgdir d va al).
Proof. unfold walkpgdir. quiet_tac. Qed.
#[export] Hint Resolve quiet_walkpgdir : quiet.
Lemma quiet_mappages_loop n d a l pa pm : quiet (mappages_loop n d a l pa pm).
Proof. revert a pa. induction n as [|n IH]; intros a pa; cbn [mappages_loop]; quiet_tac. Qed.
#[export] Hint Resolve quiet_mappages_loop : quiet.
Lemma quiet_mappages d va sz pa pm : quiet (mappages d va sz pa pm).
Proof. unfold mappages. quiet_tac. Qed.
Lemma quiet_deallocuvm_loop n d a o : quiet (deallocuvm_loop n d a o).
Proof. revert a. induction n as [|n IH]; intros a; cbn [deallocuvm_loop]; quiet_tac. Qed.
#[export] Hint Resolve quiet_mappages quiet_deallocuvm_loop : quiet.
Lemma quiet_deallocuvm d o n : quiet (deallocuvm d o n).
Proof. unfold deallocuvm. quiet_tac. Qed.
#[export] Hint Resolve quiet_deallocuvm : quiet.
Lemma quiet_allocuvm_loop n d a o s : quiet (allocuvm_loop n d a o s).
Proof. revert a. induction n as [|n IH]; intros a; cbn [allocuvm_loop]; quiet_tac. Qed.
#[export] Hint Resolve quiet_allocuvm_loop : quiet.
Lemma quiet_allocuvm d o n : quiet (allocuvm d o n).
Proof. unfold allocuvm. quiet_tac. Qed.
Lemma quiet_freevm d : quiet (freevm d).
Proof. unfold freevm. quiet_tac. Qed.
Lemma quiet_switchuvm p : quiet (switchuvm p).
Proof. unfold switchuvm. quiet_tac. Qed.
Lemma quiet_switchkvm : quiet switchkvm.
Proof. unfold switchkvm. quiet_tac. Qed.
#[export] Hint Resolve quiet_allocuvm quiet_freevm quiet_switchuvm quiet_switchkvm : quiet.
Lemma quiet_setupkvm_loop d l : quiet (setupkvm_loop d l).
Proof. induction l as [|x l IH]; cbn [setupkvm_loop]; quiet_tac. Qed.
#[export] Hint Resolve quiet_setupkvm_loop : quiet.
Lemma quiet_setupkvm : quiet setupkvm.
Proof. unfold setupkvm. quiet_tac. Qed.
Lemma quiet_inituvm d i n : quiet (inituvm d i n).
Proof. unfold inituvm. quiet_tac. Qed.
Lemma quiet_clearpteu d a : quiet (clearpteu d a).
Proof. unfold clearpteu. quiet_tac. Qed.
Lemma quiet_uva2ka d a : quiet (uva2ka d a).
Proof. unfold uva2ka. quiet_tac. Qed.
#[export] Hint Resolve quiet_setupkvm quiet_inituvm quiet_clearpteu quiet_uva2ka : quiet.
Lemma quiet_copyout_loop n d a l : quiet (copyout_loop n d a l).
Proof. revert a l. induction n as [|n IH]; intros a l; cbn [copyout_loop]; quiet_tac. Qed.
Lemma quiet_copyuvm_loop n d d' i s : quiet (copyuvm_loop n d d' i s).
Proof. revert i. induction n as [|n IH]; intros i; cbn [copyuvm_loop]; quiet_tac. Qed.
#[export] Hint Resolve quiet_copyout_loop quiet_copyuvm_loop : quiet.
Lemma quiet_copyout d a l : quiet (copyout d a l).
Proof. apply quiet_copyout_loop. Qed.
Lemma quiet_copyuvm d n : quiet (copyuvm d n).
Proof. unfold copyuvm. quiet_tac. Qed.
#[export] Hint Resolve quiet_copyout quiet_copyuvm : quiet.
