(* ===== verification/VmSpec.v ===== *)
(** * VmSpec: what page-table operations do to an address space

    The page directory at [d] is read as a partial function from virtual
    addresses to frames ([frame_of]); its table pages and frames are disjoint
    from each other and from the free list ([pgdir_ok], [space_ok]).  Mapping
    adds exactly one page to the function, unmapping removes exactly one and
    returns its frame, and [freevm] returns every page of the space to the
    allocator exactly once. *)
From S2P Require Import Prelude.
From S2P Require Import Mem.
From S2P Require Import State.
From S2P Require Import Spin.
From S2P Require Import Kalloc.
From S2P Require Import Vm.
From S2P Require Import Frame.

(** ** Entries *)

Definition present (e : Z) : bool := truthy (Z.land e PTE_P).

Lemma PTE_ADDR_eq e : 0 ≤ e < 4294967296 → PTE_ADDR e = e / 4096 * 4096.
Proof.
  intros H. unfold PTE_ADDR. rewrite u32_small by done. change 0xFFF with (Z.ones 12).
  rewrite Z.ldiff_ones_r, Z.shiftl_mul_pow2, Z.shiftr_div_pow2 by lia. done.
Qed.
Lemma PTE_FLAGS_eq e : 0 ≤ e < 4294967296 → PTE_FLAGS e = e mod 4096.
Proof.
  intros H. unfold PTE_FLAGS. rewrite u32_small by done. change 0xFFF with (Z.ones 12).
  by rewrite Z.land_ones by lia.
Qed.
Lemma present_odd e : present e = Z.odd e.
Proof.
  unfold present, truthy, PTE_P. change 1 with (Z.ones 1). rewrite Z.land_ones by lia.
  change (2 ^ 1) with 2. rewrite Zmod_odd. by destruct (Z.odd e).
Qed.
Lemma PDX_eq va : 0 ≤ va < 4294967296 → PDX va = va / 4194304.
Proof.
  intros H. unfold PDX. rewrite u32_small by done. change 0x3FF with (Z.ones 10).
  rewrite Z.land_ones, Z.shiftr_div_pow2 by lia. change (2 ^ 22) with 4194304.
  apply Z.mod_small. split; [apply Z.div_pos; lia|apply Z.div_lt_upper_bound; lia].
Qed.
Lemma PTX_eq va : 0 ≤ va < 4294967296 → PTX va = va / 4096 mod 1024.
Proof.
  intros H. unfold PTX. rewrite u32_small by done. change 0x3FF with (Z.ones 10).
  by rewrite Z.land_ones, Z.shiftr_div_pow2 by lia.
Qed.

Lemma lor_aligned a f : a mod 4096 = 0 → 0 ≤ f < 4096 → Z.lor a f = a + f.
Proof.
  intros Ha Hf. symmetry. apply Z.add_nocarry_lor.
  apply Z.bits_inj'. intros n Hn. rewrite Z.land_spec, Z.bits_0.
  destruct (Z.lt_ge_cases n 12).
  - assert (Z.testbit a n = false) as ->; [|done].
    rewrite <-(Z.mod_pow2_bits_low a 12 n) by lia. change (2 ^ 12) with 4096.
    by rewrite Ha, Z.bits_0.
  - assert (Z.testbit f n = false) as ->; [|by rewrite andb_false_r].
    rewrite <-(Z.mod_small f 4096) by lia. change 4096 with (2 ^ 12).
    apply Z.mod_pow2_bits_high. lia.
Qed.

(** The entry that maps the page at physical address [pa] with flags [f]. *)
Lemma entry_parts a f :
  a mod 4096 = 0 → 0 ≤ a < 4294967296 → 0 ≤ f < 4096 →
  PTE_ADDR (a + f) = a ∧ PTE_FLAGS (a + f) = f ∧ present (a + f) = Z.odd f ∧
  0 ≤ a + f < 4294967296.
Proof.
  intros Ha Hr Hf. assert (0 ≤ a + f < 4294967296) by (Z.div_mod_to_equations; lia).
  rewrite PTE_ADDR_eq, PTE_FLAGS_eq, present_odd by done.
  split; [Z.div_mod_to_equations; lia|]. split; [Z.div_mod_to_equations; lia|].
  split; [|done]. rewrite Z.odd_add.
  assert (Z.odd a = false) as ->; [|by destruct (Z.odd f)].
  rewrite <-Z.negb_even. apply negb_false_iff, Z.even_spec. exists (a / 2). Z.div_mod_to_equations; lia.
Qed.

(** ** Pages *)

Lemma page_ok_range end_ v :
  page_ok end_ v → KERNBASE ≤ v < KERNBASE + PHYSTOP ∧ v mod 4096 = 0.
Proof.
  intros Hv. pose proof (page_ok_aligned _ _ Hv) as Hal. split; [|done].
  destruct Hv as [Hb Hr]. unfold bad_page in Hb. apply orb_false_iff in Hb as [_ Hb].
  apply Z.leb_gt in Hb. revert Hb. unfold V2P, u32, PHYSTOP, KERNBASE.
  Z.div_mod_to_equations. lia.
Qed.

Lemma V2P_page end_ v : page_ok end_ v → V2P v = v - KERNBASE.
Proof.
  intros Hv%page_ok_range. unfold V2P. apply u32_small. unfold PHYSTOP, KERNBASE in *. lia.
Qed.
Lemma P2V_V2P end_ v : page_ok end_ v → P2V (V2P v) = v.
Proof.
  intros Hv. rewrite (V2P_page _ _ Hv). apply page_ok_range in Hv. unfold P2V.
  rewrite u32_small; unfold PHYSTOP, KERNBASE in *; lia.
Qed.

(** The entry for page [v]. *)
Lemma page_entry end_ v f :
  page_ok end_ v → 0 ≤ f < 4096 → Z.odd f = true →
  let e := Z.lor (V2P v) f in
  P2V (PTE_ADDR e) = v ∧ PTE_FLAGS e = f ∧ present e = true ∧ 0 ≤ e < 4294967296.
Proof.
  intros Hv Hf Ho. cbv zeta. pose proof (V2P_page _ _ Hv) as HV.
  pose proof (page_ok_range _ _ Hv) as [Hr Hal]. unfold PHYSTOP, KERNBASE in *.
  rewrite lor_aligned by (rewrite ?HV; Z.div_mod_to_equations; lia).
  destruct (entry_parts (V2P v) f) as (-> & -> & -> & ?); [rewrite HV; Z.div_mod_to_equations; lia|lia|lia|].
  split; [by eapply P2V_V2P|]. done.
Qed.

(** ** Address spaces *)

Definition table_of (m : mem) (d i : Z) : option Z :=
  let e := ld32 m (d + 4 * i) in
  if present e then Some (P2V (PTE_ADDR e)) else None.
(** The page-table entry for [va], when there is a table for it. *)
Definition pte_of (m : mem) (d va : Z) : option Z :=
  (λ t, ld32 m (t + 4 * PTX va)) <$> table_of m d (PDX va).
(** The page that [va] is mapped to, and the flags of the mapping. *)
Definition frame_of (m : mem) (d va : Z) : option (Z * Z) :=
  e ←? (pte_of m d va);
  if present e then Some (P2V (PTE_ADDR e), PTE_FLAGS e) else None.

(** [d] is a page directory whose pages are not on the free list [l]. *)
Record pgdir_ok (m : mem) (end_ d : Z) (l : list Z) : Prop := {
  pg_dir : page_ok end_ d;
  pg_dir_used : d ∉ l;
  pg_tab i t : 0 ≤ i < 1024 → table_of m d i = Some t → page_ok end_ t ∧ (t ∉ l) ∧ t ≠ d;
  pg_inj i j t : 0 ≤ i < 1024 → 0 ≤ j < 1024 →
    table_of m d i = Some t → table_of m d j = Some t → i = j
}.

Definition va_ok (va : Z) : Prop := 0 ≤ va < 4294967296.

Lemma PDX_range va : va_ok va → 0 ≤ PDX va < 1024.
Proof.
  intros H. unfold va_ok in H. rewrite PDX_eq by done.
  split; [apply Z.div_pos; lia|apply Z.div_lt_upper_bound; lia].
Qed.
Lemma PTX_range va : va_ok va → 0 ≤ PTX va < 1024.
Proof. intros H. rewrite PTX_eq by done. by apply Z.mod_pos_bound. Qed.

(** Two addresses with the same indices are in the same page. *)
Lemma same_page va vb :
  va_ok va → va_ok vb → PDX va = PDX vb → PTX va = PTX vb → va / 4096 = vb / 4096.
Proof.
  intros Ha Hb. rewrite !PDX_eq, !PTX_eq by done. unfold va_ok in *. intros H1 H2.
  assert (∀ v, v / 4194304 = v / 4096 / 1024) as Hd by (intros; by rewrite Z.div_div by lia).
  rewrite !Hd in H1. rewrite (Z.div_mod (va / 4096) 1024), (Z.div_mod (vb / 4096) 1024) by lia.
  by rewrite H1, H2.
Qed.

Lemma page_indices va vb :
  va_ok va → va_ok vb → va / 4096 = vb / 4096 → PDX va = PDX vb ∧ PTX va = PTX vb.
Proof.
  intros Ha Hb Hpage. rewrite !PDX_eq, !PTX_eq by done. change 4194304 with (4096 * 1024).
  by rewrite <-!Z.div_div, Hpage by lia.
Qed.

(** Words of one page are not affected by writes to another. *)
Lemma ld32_other_page end_ m m' p q o :
  page_ok end_ p → page_ok end_ q → p ≠ q → 0 ≤ o → o + 4 ≤ 4096 →
  (∀ a, (a < q ∨ q + 4096 ≤ a) → ld8 m' a = ld8 m a) →
  ld32 m' (p + o) = ld32 m (p + o).
Proof.
  intros Hp Hq Hne Ho Ho2 Hm. apply ld32_ext. intros b Hb. apply Hm.
  destruct (pages_disjoint _ _ _ Hp Hq Hne); lia.
Qed.

(** The allocator's invariant survives writes outside the free pages. *)
Lemma kmem_inv_write k l m' :
  kmem_inv k l → mem_ok m' →
  (∀ w a, w ∈ l → w ≤ a < w + 4 → ld8 m' a = ld8 (k_mem k) a) →
  kmem_inv (k <| k_mem := m' |>) l.
Proof.
  intros [Hm Hc Hn Hp] Hm' Hw. split; [done| |done|done]. simpl.
  eapply chain_ext; [|done]. intros v Hv. apply ld32_ext. intros b Hb. by eapply Hw.
Qed.

(** ** Writing an entry *)

Lemma table_of_ext m m' d i :
  ld32 m' (d + 4 * i) = ld32 m (d + 4 * i) → table_of m' d i = table_of m d i.
Proof. unfold table_of. by intros ->. Qed.

(** A page directory is not affected by writes outside its own page. *)
Lemma pgdir_ok_ext m m' end_ d l l' :
  pgdir_ok m end_ d l →
  (∀ i, 0 ≤ i < 1024 → ld32 m' (d + 4 * i) = ld32 m (d + 4 * i)) →
  (∀ v, v ∈ l' → v ∈ l) → pgdir_ok m' end_ d l'.
Proof.
  intros [Hd Hdl Ht Hi] He Hl. split; [done|by intros ?%Hl|..].
  - intros i t Hr H. rewrite (table_of_ext _ _ _ _ (He i Hr)) in H.
    destruct (Ht i t Hr H) as (? & Hin & ?). split; [done|]. split; [by intros ?%Hl|done].
  - intros i j t Hri Hrj. rewrite (table_of_ext _ _ _ _ (He i Hri)), (table_of_ext _ _ _ _ (He j Hrj)).
    by apply Hi.
Qed.

Section entry.
Context (m : mem) (end_ d : Z) (l : list Z) (va t e : Z).
Context (Hpg : pgdir_ok m end_ d l) (Hva : va_ok va) (Ht : table_of m d (PDX va) = Some t).
Context (He : 0 ≤ e < 4294967296).

(** Storing [e] in the entry for [va]. *)
Let m' := st32 m (t + 4 * PTX va) e.

Lemma entry_tab : page_ok end_ t ∧ (t ∉ l) ∧ t ≠ d.
Proof. eapply pg_tab; [done| |done]. by apply PDX_range. Qed.

Lemma entry_outside a : (a < t ∨ t + 4096 ≤ a) → ld8 m' a = ld8 m a.
Proof. intros Ha. pose proof (PTX_range _ Hva). apply ld8_st32_out. lia. Qed.

Lemma entry_pdes i : 0 ≤ i < 1024 → ld32 m' (d + 4 * i) = ld32 m (d + 4 * i).
Proof.
  intros Hi. destruct entry_tab as (Htok & _ & Hne).
  eapply ld32_other_page; [apply (pg_dir _ _ _ _ Hpg)|exact Htok|done|lia|lia|apply entry_outside].
Qed.

Lemma entry_pgdir : pgdir_ok m' end_ d l.
Proof. eapply pgdir_ok_ext; [done|apply entry_pdes|done]. Qed.

Lemma entry_pte vb :
  va_ok vb →
  pte_of m' d vb = if decide (va / 4096 = vb / 4096) then Some e else pte_of m d vb.
Proof.
  intros Hvb. unfold pte_of. rewrite (table_of_ext m) by by apply entry_pdes, PDX_range.
  pose proof (PTX_range _ Hva). pose proof (PTX_range _ Hvb).
  case_decide as Hpage.
  - destruct (page_indices va vb) as [<- <-]; [done..|].
    rewrite Ht. simpl. unfold m'. by rewrite ld32_st32_eq, u32_small.
  - destruct (table_of m d (PDX vb)) as [t2|] eqn:E; [|done]. simpl. f_equal.
    destruct (decide (t2 = t)) as [->|Hne].
    + apply ld32_st32_ne. assert (PTX va ≠ PTX vb); [|lia]. intros HPT. apply Hpage.
      apply same_page; [done|done| |done].
      eapply pg_inj; [done|by apply PDX_range..|done|done].
    + destruct entry_tab as (Htok & _). eapply ld32_other_page; [|exact Htok|done|lia|lia|apply entry_outside].
      eapply (pg_tab _ _ _ _ Hpg); [|done]. by apply PDX_range.
Qed.

Lemma entry_frame vb :
  va_ok vb →
  frame_of m' d vb =
  if decide (va / 4096 = vb / 4096)
  then if present e then Some (P2V (PTE_ADDR e), PTE_FLAGS e) else None
  else frame_of m d vb.
Proof. intros Hvb. unfold frame_of. rewrite entry_pte by done. by case_decide. Qed.
End entry.

(** ** Adding a table *)

Definition with_table (m : mem) (d i v : Z) : mem :=
  st32 (memset m v 0 PGSIZE) (d + 4 * i)
    (Z.lor (Z.lor (Z.lor (V2P v) PTE_P) PTE_W) PTE_U).

Section table.
Context (m : mem) (end_ d : Z) (l : list Z) (i v : Z).
Context (Hpg : pgdir_ok m end_ d (v :: l)) (Hi : 0 ≤ i < 1024).
Context (Hv : page_ok end_ v) (Hvl : v ∉ l) (Hnone : table_of m d i = None).
Let m' := with_table m d i v.

Lemma table_fresh_dir : v ≠ d.
Proof. intros ->. apply (pg_dir_used _ _ _ _ Hpg). left. Qed.

Lemma table_outside a :
  (a < v ∨ v + 4096 ≤ a) → (a < d + 4 * i ∨ d + 4 * i + 4 ≤ a) → ld8 m' a = ld8 m a.
Proof.
  intros H1 H2. unfold m', with_table. rewrite ld8_st32_out by done.
  rewrite ld8_memset by (unfold PGSIZE; lia). rewrite decide_False; [done|]. unfold PGSIZE. lia.
Qed.

Lemma table_pde j :
  0 ≤ j < 1024 → table_of m' d j = if decide (j = i) then Some v else table_of m d j.
Proof.
  intros Hj. case_decide as Hji.
  - subst j. unfold table_of, m', with_table. rewrite ld32_st32_eq.
    rewrite <-!Z.lor_assoc. change (Z.lor PTE_P (Z.lor PTE_W PTE_U)) with 7.
    destruct (page_entry end_ v 7 Hv) as (HP & _ & Hpres & Hr); [lia|done|].
    rewrite u32_small by done. by rewrite Hpres, HP.
  - apply table_of_ext, ld32_ext. intros b Hb. apply table_outside; [|lia].
    destruct (pages_disjoint _ _ _ Hv (pg_dir _ _ _ _ Hpg) table_fresh_dir); lia.
Qed.

Lemma table_pgdir : pgdir_ok m' end_ d l.
Proof.
  destruct Hpg as [Hd Hdl Ht Hinj]. apply not_elem_of_cons in Hdl as [Hdv Hdl]. split; [done|done|..].
  - intros j t Hj. rewrite table_pde by done. case_decide.
    + intros [= <-]. done.
    + intros Htj. destruct (Ht j t Hj Htj) as (? & Hin & ?). by apply not_elem_of_cons in Hin as [_ ?].
  - intros a b t Ha Hb. rewrite !table_pde by done. repeat case_decide; subst; try done.
    + intros [= <-] Hb2. destruct (Ht b v Hb Hb2) as (_ & Hin & _). contradict Hin. left.
    + intros Ha2 [= <-]. destruct (Ht a v Ha Ha2) as (_ & Hin & _). contradict Hin. left.
    + by apply Hinj.
Qed.

Lemma table_pte vb :
  va_ok vb → pte_of m' d vb = if decide (PDX vb = i) then Some 0 else pte_of m d vb.
Proof.
  intros Hvb. pose proof (PTX_range _ Hvb). unfold pte_of. rewrite table_pde by by apply PDX_range.
  pose proof (pg_dir _ _ _ _ Hpg) as Hd.
  case_decide as Hpd; simpl.
  - f_equal. assert (∀ b, v ≤ b < v + 4096 → ld8 m' b = 0) as Hz.
    { intros b Hb. unfold m', with_table. rewrite ld8_st32_out.
      2: { destruct (pages_disjoint _ _ _ Hv Hd table_fresh_dir); lia. }
      rewrite ld8_memset by (unfold PGSIZE; lia). rewrite decide_True by (unfold PGSIZE; lia). done. }
    unfold ld32. rewrite !Hz by lia. done.
  - destruct (table_of m d (PDX vb)) as [t|] eqn:E; [|done]. simpl. f_equal.
    apply ld32_ext. intros b Hb.
    destruct (pg_tab _ _ _ _ Hpg (PDX vb) t (PDX_range _ Hvb) E) as (Htok & Htl & Htd).
    apply not_elem_of_cons in Htl as [Htv _].
    apply table_outside.
    + destruct (pages_disjoint _ _ _ Htok Hv Htv); lia.
    + destruct (pages_disjoint _ _ _ Htok Hd Htd); lia.
Qed.

(** A fresh table maps nothing. *)
Lemma table_frame vb : va_ok vb → frame_of m' d vb = frame_of m d vb.
Proof.
  intros Hvb. unfold frame_of. rewrite table_pte by done. case_decide as Hpd; [|done].
  unfold pte_of. by rewrite Hpd, Hnone.
Qed.
End table.

(** ** walkpgdir *)

(** Only memory and the free list change. *)
Definition mem_step (k k' : kernel) : Prop :=
  k' = k <| k_mem := k_mem k' |> <| k_freelist := k_freelist k' |>.

#[export] Instance mem_step_preorder : PreOrder mem_step.
Proof.
  split; [by intros []|]. intros k1 k2 k3 H1 H2. unfold mem_step in *.
  rewrite H2. rewrite H1. by destruct k1.
Qed.

Lemma mem_step_ready k k' : mem_step k k' → kmem_ready k → kmem_ready k'.
Proof.
  intros Hs [H|(Hu & i & c & Hoc & Hl)]; rewrite Hs; [by left|right].
  split; [done|]. exists i, c. split; [|done]. by destruct Hoc.
Qed.

Lemma mem_step_end k k' : mem_step k k' → k_end k' = k_end k.
Proof. intros ->. done. Qed.

(** The pages a page directory consists of. *)
Definition pt_page (m : mem) (d p : Z) : Prop :=
  p = d ∨ ∃ i, 0 ≤ i < 1024 ∧ table_of m d i = Some p.
(** Memory outside the page directory [d] of [m'] is as in [m]. *)
Definition pt_only (m m' : mem) (d : Z) : Prop :=
  (∀ p, pt_page m d p → pt_page m' d p) ∧
  ∀ a, (∀ p, pt_page m' d p → a < p ∨ p + 4096 ≤ a) → ld8 m' a = ld8 m a.

#[export] Instance pt_only_refl d : Reflexive (λ m m', pt_only m m' d).
Proof. intros m. by split. Qed.
Lemma pt_only_trans m1 m2 m3 d : pt_only m1 m2 d → pt_only m2 m3 d → pt_only m1 m3 d.
Proof.
  intros [Hp1 Ha1] [Hp2 Ha2]. split; [by auto|]. intros a Ha.
  rewrite Ha2 by done. apply Ha1. intros p Hp. apply Ha. by apply Hp2.
Qed.

Lemma walk_hit k d va t alloc :
  table_of (k_mem k) d (PDX va) = Some t →
  walkpgdir d va alloc k = Ret (t + 4 * PTX va) k.
Proof.
  unfold table_of, present, walkpgdir, load, bind, gets.
  destruct (truthy _); [|done]. by intros [= <-].
Qed.

Lemma walk_miss k d va :
  table_of (k_mem k) d (PDX va) = None → walkpgdir d va false k = Ret 0 k.
Proof. unfold table_of, present, walkpgdir, load, bind, gets. by destruct (truthy _). Qed.

Lemma walk_alloc k d va :
  kmem_ready k → table_of (k_mem k) d (PDX va) = None →
  walkpgdir d va true k =
  let v := k_freelist k in
  if v =? 0 then Ret 0 k
  else Ret (v + 4 * PTX va)
    (k <| k_freelist := ld32 (k_mem k) v |> <| k_mem := with_table (k_mem k) d (PDX va) v |>).
Proof.
  intros Hr Hnone. unfold walkpgdir, load. unfold bind at 1, gets at 1.
  unfold table_of, present in Hnone. destruct (truthy _); [done|]. cbv iota. cbn [negb].
  erewrite bind_ret_eq by by apply kalloc_ret. unfold truthy. cbv zeta.
  by destruct (Z.eqb_spec (k_freelist k) 0).
Qed.

(** What [walkpgdir(pgdir, va, 1)] establishes. *)
Record walked (k : kernel) (l : list Z) (d va : Z) (k' : kernel) (l' : list Z) (t : Z) : Prop := {
  wk_ret : walkpgdir d va true k = Ret (t + 4 * PTX va) k';
  wk_tab : table_of (k_mem k') d (PDX va) = Some t;
  wk_inv : kmem_inv k' l';
  wk_pg : pgdir_ok (k_mem k') (k_end k) d l';
  wk_frame vb : va_ok vb → frame_of (k_mem k') d vb = frame_of (k_mem k) d vb;
  wk_step : mem_step k k';
  wk_only : pt_only (k_mem k) (k_mem k') d;
  wk_suffix : ∃ used, l = used ++ l'
}.

Lemma walk_spec k l d va :
  kmem_inv k l → kmem_ready k → pgdir_ok (k_mem k) (k_end k) d l → va_ok va →
  (∃ k' l' t, walked k l d va k' l' t) ∨
  (walkpgdir d va true k = Ret 0 k ∧ l = [] ∧ table_of (k_mem k) d (PDX va) = None).
Proof.
  intros Hinv Hr Hpg Hva. pose proof (PDX_range _ Hva) as Hi.
  destruct (table_of (k_mem k) d (PDX va)) as [t|] eqn:Et.
  { left. exists k, l, t.
    split; [by apply walk_hit|done|done|done|done|reflexivity|by split|by exists []]. }
  rewrite walk_alloc by done. cbv zeta. destruct Hinv as [Hm Hc Hn Hp].
  destruct l as [|v l]; simpl in Hc; [rewrite Hc; by right|]. left.
  destruct Hc as [Hf Hc]. apply NoDup_cons in Hn as [Hvl Hn]. apply Forall_cons in Hp as [Hpv Hp].
  pose proof (page_ok_range _ _ Hpv) as [Hvr _]. unfold KERNBASE in Hvr.
  pose proof (table_pde (k_mem k) (k_end k) d l (PDX va) v Hpg Hi Hpv) as Hpde.
  pose proof (table_pgdir (k_mem k) (k_end k) d l (PDX va) v Hpg Hi Hpv Hvl) as Hpg'.
  eexists _, l, v. split.
  - rewrite walk_alloc by done. cbv zeta. rewrite Hf. destruct (Z.eqb_spec v 0); [lia|]. reflexivity.
  - simpl. rewrite Hpde by done. by rewrite decide_True.
  - apply kmem_inv_write with (k := k <| k_freelist := ld32 (k_mem k) v |>); [by split|..].
    { unfold with_table. apply mem_ok_st32, mem_ok_memset; [done|done]. }
    intros w a Hw Ha. rewrite Forall_forall in Hp.
    apply table_outside.
    + assert (v ≠ w) by by intros ->.
      destruct (pages_disjoint _ _ _ Hpv (Hp w Hw)); [done|lia|lia].
    + assert (d ≠ w). { intros ->. apply (pg_dir_used _ _ _ _ Hpg). by right. }
      destruct (pages_disjoint _ _ _ (pg_dir _ _ _ _ Hpg) (Hp w Hw)); [done|lia|lia].
  - simpl. done.
  - intros vb Hvb. simpl. eapply table_frame; done.
  - done.
  - simpl. split.
    + intros p [->|(i & Hi2 & Hp2)]; [by left|right]. exists i. split; [done|].
      rewrite Hpde by done. case_decide; [subst i; congruence|done].
    + intros a Ha. apply table_outside.
      * apply Ha. right. exists (PDX va). split; [done|]. rewrite Hpde by done. by rewrite decide_True.
      * pose proof (Ha d (or_introl eq_refl)). lia.
  - by exists [v].
Qed.

(** ** mappages *)

Lemma lor_P perm : 0 ≤ perm < 4096 → 0 ≤ Z.lor perm PTE_P < 4096 ∧ Z.odd (Z.lor perm PTE_P) = true.
Proof.
  intros H. unfold PTE_P. split.
  - pose proof (Z.add_lor_land perm 1) as He.
    assert (Z.land perm (Z.ones 1) = perm mod 2 ^ 1) as Hl by (apply Z.land_ones; lia).
    change (Z.ones 1) with 1 in Hl. change (2 ^ 1) with 2 in Hl. Z.div_mod_to_equations. lia.
  - rewrite <-Z.bit0_odd, Z.lor_spec. apply orb_true_r.
Qed.

(** [n] pages from [a] on, mapped to the frames from physical address [pa] on,
    with flags [fl], are added to the address space; memory outside the page
    directory is untouched. *)
Record mapped (k : kernel) (l : list Z) (d a n pa fl : Z) (k' : kernel) (l' : list Z) : Prop := {
  mp_inv : kmem_inv k' l';
  mp_pg : pgdir_ok (k_mem k') (k_end k) d l';
  mp_frame vb : va_ok vb →
    frame_of (k_mem k') d vb =
    if decide (a / 4096 ≤ vb / 4096 < a / 4096 + n)
    then Some (P2V (pa + (vb / 4096 - a / 4096) * 4096), fl) else frame_of (k_mem k) d vb;
  mp_step : mem_step k k';
  mp_only : pt_only (k_mem k) (k_mem k') d;
  mp_suffix : ∃ used, l = used ++ l'
}.

Lemma mapped_0 k l d a pa fl :
  kmem_inv k l → pgdir_ok (k_mem k) (k_end k) d l → mapped k l d a 0 pa fl k l.
Proof.
  intros Hinv Hpg. split; [done|done| |reflexivity|by split|by exists []].
  intros vb Hvb. rewrite decide_False by lia. done.
Qed.

Lemma mapped_trans k1 l1 d a n1 n2 pa fl k2 l2 k3 l3 :
  0 ≤ n1 → 0 ≤ n2 →
  mapped k1 l1 d a n1 pa fl k2 l2 →
  mapped k2 l2 d (a + n1 * 4096) n2 (pa + n1 * 4096) fl k3 l3 →
  mapped k1 l1 d a (n1 + n2) pa fl k3 l3.
Proof.
  intros Hn1 Hn2 [Hi1 Hp1 Hf1 Hs1 Ho1 [u1 ->]] [Hi2 Hp2 Hf2 Hs2 Ho2 [u2 ->]].
  split; [done| | |by etrans|by eapply pt_only_trans|exists (u1 ++ u2); by rewrite app_assoc].
  { by rewrite <-(mem_step_end _ _ Hs1). }
  intros vb Hvb. rewrite Hf2 by done. rewrite Hf1 by done.
  rewrite Z.div_add by lia. repeat case_decide; try lia; try done.
  do 3 f_equal. lia.
Qed.

(** Writing the entry found by [walkpgdir]. *)
Lemma map_entry k l d a pa perm k1 l1 t :
  walked k l d a k1 l1 t → va_ok a →
  pa mod 4096 = 0 → 0 ≤ pa < 4294967296 → 0 ≤ perm < 4096 →
  mapped k l d a 1 pa (Z.lor perm PTE_P)
    (k1 <| k_mem := st32 (k_mem k1) (t + 4 * PTX a) (Z.lor (Z.lor pa perm) PTE_P) |>) l1.
Proof.
  intros [Hret Htab Hinv Hpg Hfr Hs Honly Hsuf] Hva Hpa Hpr Hperm.
  destruct (lor_P perm Hperm) as [Hfl Hodd].
  rewrite <-Z.lor_assoc, (lor_aligned pa) by done.
  destruct (entry_parts pa (Z.lor perm PTE_P) Hpa Hpr Hfl) as (HA & HF & HP & HR).
  set (e := pa + Z.lor perm PTE_P) in *.
  pose proof (entry_tab _ _ _ _ _ _ Hpg Hva Htab) as (Htok & Htl & Htd).
  split; simpl.
  - apply kmem_inv_write; [done|by eapply mem_ok_st32, ki_mem|].
    intros w b Hw Hb. eapply entry_outside; [done|].
    assert (page_ok (k_end k1) w) as Hwok.
    { pose proof (ki_pages _ _ Hinv) as H. rewrite Forall_forall in H. by apply H. }
    rewrite (mem_step_end _ _ Hs) in Hwok.
    assert (t ≠ w) as Hne by by intros ->.
    destruct (pages_disjoint _ _ _ Htok Hwok Hne); lia.
  - by eapply entry_pgdir.
  - intros vb Hvb. erewrite entry_frame by done. rewrite Hfr by done.
    rewrite HP, Hodd, HA, HF. repeat case_decide; try lia; [|done].
    do 3 f_equal. lia.
  - etrans; [done|]. done.
  - eapply pt_only_trans; [done|]. split.
    + intros p [->|(i & Hi & Hp)]; [by left|right]. exists i. split; [done|].
      rewrite (table_of_ext (k_mem k1)); [done|]. by eapply entry_pdes.
    + intros b Hb. eapply entry_outside; [done|]. apply Hb. right. exists (PDX a).
      split; [by apply PDX_range|]. rewrite (table_of_ext (k_mem k1)); [done|].
      eapply entry_pdes; [done|done|done|by apply PDX_range].
  - done.
Qed.

(** One iteration of the loop of [mappages]. *)
Lemma mappages_iter fuel k l d a last pa perm :
  kmem_inv k l → kmem_ready k → pgdir_ok (k_mem k) (k_end k) d l → va_ok a →
  pa mod 4096 = 0 → 0 ≤ pa < 4294967296 → 0 ≤ perm < 4096 → frame_of (k_mem k) d a = None →
  (∃ k1 l1, mapped k l d a 1 pa (Z.lor perm PTE_P) k1 l1 ∧
     mappages_loop (S fuel) d a last pa perm k =
     if a =? last then Ret 0 k1
     else mappages_loop fuel d (u32 (a + PGSIZE)) last (u32 (pa + PGSIZE)) perm k1) ∨
  (mappages_loop (S fuel) d a last pa perm k = Ret (-1) k ∧ l = []).
Proof.
  intros Hinv Hr Hpg Hva Hpa Hpr Hperm Hfree. cbn [mappages_loop].
  destruct (walk_spec k l d a Hinv Hr Hpg Hva) as [(k1 & l1 & t & Hw)|(Hw & -> & _)].
  2: { right. by erewrite bind_ret_eq by exact Hw. }
  left. eexists _, l1. split; [by eapply map_entry|].
  destruct Hw as [Hret Htab _ Hpg1 Hfr _ _ _].
  pose proof (entry_tab _ _ _ _ _ _ Hpg1 Hva Htab) as (Htok & _).
  pose proof (page_ok_range _ _ Htok) as [Htr _]. unfold KERNBASE in Htr.
  pose proof (PTX_range a Hva).
  assert (present (ld32 (k_mem k1) (t + 4 * PTX a)) = false) as Hnp.
  { specialize (Hfr a Hva). rewrite Hfree in Hfr. unfold frame_of, pte_of in Hfr.
    rewrite Htab in Hfr. simpl in Hfr. by destruct (present _). }
  erewrite bind_ret_eq by exact Hret. destruct (Z.eqb_spec (t + 4 * PTX a) 0); [lia|].
  unfold load. unfold bind at 1, gets at 1. unfold present in Hnp. rewrite Hnp.
  unfold bind at 1, store at 1, modify at 1. by destruct (a =? last).
Qed.

Lemma mappages_loop_spec n k l d a pa perm :
  kmem_inv k l → kmem_ready k → pgdir_ok (k_mem k) (k_end k) d l →
  a mod 4096 = 0 → 0 ≤ a → a + Z.of_nat n * 4096 < 4294967296 →
  pa mod 4096 = 0 → 0 ≤ pa → pa + Z.of_nat n * 4096 < 4294967296 → 0 ≤ perm < 4096 →
  (∀ vb, va_ok vb → a / 4096 ≤ vb / 4096 ≤ a / 4096 + Z.of_nat n →
         frame_of (k_mem k) d vb = None) →
  ∃ r k' l' j, mappages_loop (S n) d a (a + Z.of_nat n * 4096) pa perm k = Ret r k' ∧
    mapped k l d a j pa (Z.lor perm PTE_P) k' l' ∧
    (r = 0 ∧ j = Z.of_nat n + 1 ∨ r = -1 ∧ 0 ≤ j ≤ Z.of_nat n ∧ l' = []).
Proof.
  revert k l a pa. induction n as [|n IH];
    intros k l a pa Hinv Hr Hpg Ha Ha0 Han Hpa Hpa0 Hpan Hperm Hfree.
  - assert (va_ok a) as Hva by (unfold va_ok; lia).
    destruct (mappages_iter 0 k l d a (a + Z.of_nat 0 * 4096) pa perm)
      as [(k1 & l1 & Hmap & ->)|(-> & ->)]; [done..|lia|done|apply Hfree; [done|lia]| |].
    + rewrite Z.add_0_r, Z.eqb_refl. eexists 0, _, l1, 1. split; [done|]. split; [done|]. left. lia.
    + exists (-1), k, [], 0. split; [done|]. split; [by apply mapped_0|]. right. split; [done|]. split; [lia|done].
  - assert (va_ok a) as Hva by (unfold va_ok; lia).
    destruct (mappages_iter (S n) k l d a (a + Z.of_nat (S n) * 4096) pa perm)
      as [(k1 & l1 & Hmap & ->)|(-> & ->)]; [done..|lia|done|apply Hfree; [done|lia]| |].
    2: { exists (-1), k, [], 0. split; [done|]. split; [by apply mapped_0|]. right. split; [done|]. split; [lia|done]. }
    destruct (Z.eqb_spec a (a + Z.of_nat (S n) * 4096)); [lia|].
    assert (u32 (a + PGSIZE) = a + 4096) as -> by (apply u32_small; unfold PGSIZE; lia).
    assert (u32 (pa + PGSIZE) = pa + 4096) as -> by (apply u32_small; unfold PGSIZE; lia).
    replace (a + Z.of_nat (S n) * 4096) with (a + 4096 + Z.of_nat n * 4096) by lia.
    pose proof Hmap as [Hinv1 Hpg1 Hfr1 Hs1 _ _].
    destruct (IH k1 l1 (a + 4096) (pa + 4096) Hinv1) as (r & k' & l' & j & Hret & Hmap' & Hres);
      [by eapply mem_step_ready|by rewrite (mem_step_end _ _ Hs1)
      |rewrite <-Zplus_mod_idemp_l, Ha; done|lia|lia
      |rewrite <-Zplus_mod_idemp_l, Hpa; done|lia|lia|done| |].
    + intros vb Hvb Hb. replace (a + 4096) with (a + 1 * 4096) in Hb by lia.
      rewrite Z.div_add in Hb by lia. rewrite Hfr1, decide_False by (done || lia).
      apply Hfree; [done|lia].
    + exists r, k', l', (1 + j). split; [done|]. split.
      * eapply mapped_trans; [lia|lia|done|]. by rewrite !Z.mul_1_l.
      * destruct Hres as [?|(? & ? & ?)]; [left; lia|right]. split; [done|]. split; [lia|done].
Qed.

Lemma PGROUNDDOWN_eq a : PGROUNDDOWN a = a / 4096 * 4096.
Proof.
  unfold PGROUNDDOWN. change (PGSIZE - 1) with (Z.ones 12).
  rewrite Z.ldiff_ones_r, Z.shiftl_mul_pow2, Z.shiftr_div_pow2 by lia. done.
Qed.
Lemma PGROUNDUP_eq sz : 0 ≤ sz ≤ 4294963200 → PGROUNDUP sz = (sz + 4095) / 4096 * 4096.
Proof.
  intros H. unfold PGROUNDUP. rewrite u32_small by (unfold PGSIZE; lia).
  change (PGSIZE - 1) with (Z.ones 12).
  rewrite Z.ldiff_ones_r, Z.shiftl_mul_pow2, Z.shiftr_div_pow2 by lia.
  unfold PGSIZE. change (2 ^ 12) with 4096. f_equal. f_equal. lia.
Qed.

(** [mappages] maps every page that meets [va .. va + size) or runs out of
    memory. *)
Lemma mappages_ret k l d va size pa perm :
  kmem_inv k l → kmem_ready k → pgdir_ok (k_mem k) (k_end k) d l →
  0 ≤ va → 0 < size → va + size ≤ 4294967296 →
  let n := (va + size - 1) / 4096 - va / 4096 in
  pa mod 4096 = 0 → 0 ≤ pa → pa + n * 4096 < 4294967296 → 0 ≤ perm < 4096 →
  (∀ vb, va_ok vb → va / 4096 ≤ vb / 4096 ≤ va / 4096 + n → frame_of (k_mem k) d vb = None) →
  ∃ r k' l' j, mappages d va size pa perm k = Ret r k' ∧
    mapped k l d va j pa (Z.lor perm PTE_P) k' l' ∧
    (r = 0 ∧ j = n + 1 ∨ r = -1 ∧ 0 ≤ j ≤ n ∧ l' = []).
Proof.
  intros Hinv Hr Hpg Hva Hsz Hend n Hpa Hpa0 Hpan Hperm Hfree.
  assert (0 ≤ n) as Hn by (unfold n; Z.div_mod_to_equations; lia).
  unfold mappages. rewrite !PGROUNDDOWN_eq, (u32_small (va + size - 1)) by lia.
  set (a := va / 4096 * 4096).
  assert ((va + size - 1) / 4096 * 4096 = a + Z.of_nat (Z.to_nat n) * 4096) as ->
    by (unfold a, n in *; lia).
  assert (a / 4096 = va / 4096) as Hdiv by (unfold a; by rewrite Z.div_mul by lia).
  assert (a + n * 4096 < 4294967296) by (unfold a, n; Z.div_mod_to_equations; lia).
  assert (Z.to_nat (u32 (a + Z.of_nat (Z.to_nat n) * 4096 - a) / PGSIZE) = Z.to_nat n) as ->.
  { assert (n < 1048576) by (clear -Hva Hsz Hend; unfold n; Z.div_mod_to_equations; lia).
    rewrite u32_small by lia. unfold PGSIZE.
    replace (a + Z.of_nat (Z.to_nat n) * 4096 - a) with (n * 4096) by lia. by rewrite Z.div_mul by lia. }
  destruct (mappages_loop_spec (Z.to_nat n) k l d a pa perm Hinv Hr Hpg)
    as (r & k' & l' & j & Hret & Hmap & Hres);
    [unfold a; by rewrite Z.mod_mul by lia|unfold a; Z.div_mod_to_equations; lia
    |lia|done|done|lia|done| |].
  - intros vb Hvb Hb. apply Hfree; [done|]. rewrite Hdiv in Hb. lia.
  - exists r, k', l', j. split; [done|]. split.
    + destruct Hmap as [H1 H2 H3 H4 H5 H6]. split; try done.
      intros vb Hvb. rewrite H3 by done. by rewrite Hdiv.
    + destruct Hres as [?|(? & ? & ?)]; [left; lia|right]. split; [done|]. split; [lia|done].
Qed.

(** ** User address spaces *)

(** The frames of the user part belong to this space alone.  The kernel image,
    which ends at [end_], lies above KERNBASE. *)
Record space_ok (m : mem) (end_ d : Z) (l : list Z) : Prop := {
  sp_end : KERNBASE < end_;
  sp_pg : pgdir_ok m end_ d l;
  sp_frame va f fl : 0 ≤ va < KERNBASE → frame_of m d va = Some (f, fl) →
    page_ok end_ f ∧ (f ∉ l) ∧ ¬ pt_page m d f;
  sp_inj va vb f fa fb : 0 ≤ va < KERNBASE → 0 ≤ vb < KERNBASE →
    frame_of m d va = Some (f, fa) → frame_of m d vb = Some (f, fb) → va / 4096 = vb / 4096
}.

(** Memory that agrees on the page directory's pages has the same mappings. *)
Section agree.
Context (m m' : mem) (end_ d : Z) (l : list Z) (Hpg : pgdir_ok m end_ d l).
Context (Hsame : ∀ p a, pt_page m d p → p ≤ a < p + 4096 → ld8 m' a = ld8 m a).

Lemma agree_table i : 0 ≤ i < 1024 → table_of m' d i = table_of m d i.
Proof.
  intros Hi. apply table_of_ext, ld32_ext. intros b Hb. apply (Hsame d); [by left|lia].
Qed.
Lemma agree_pt p : pt_page m' d p ↔ pt_page m d p.
Proof.
  unfold pt_page. split; (intros [->|(i & Hi & H)]; [by left|right; exists i; split; [done|]]).
  - by rewrite <-agree_table.
  - by rewrite agree_table.
Qed.
Lemma agree_pte vb : va_ok vb → pte_of m' d vb = pte_of m d vb.
Proof.
  intros Hvb. pose proof (PTX_range _ Hvb). pose proof (PDX_range _ Hvb). unfold pte_of.
  rewrite agree_table by done. destruct (table_of m d (PDX vb)) as [t|] eqn:E; [|done].
  simpl. f_equal. apply ld32_ext. intros b Hb. apply (Hsame t); [|lia]. right. by eexists.
Qed.
Lemma agree_frame vb : va_ok vb → frame_of m' d vb = frame_of m d vb.
Proof. intros Hvb. unfold frame_of. by rewrite agree_pte. Qed.
End agree.

Lemma user_va va : 0 ≤ va < KERNBASE → va_ok va.
Proof. unfold va_ok, KERNBASE. lia. Qed.

(** Freeing a page that is not part of [d]'s own structure. *)
Lemma free_frame k l d f :
  kmem_inv k l → kmem_ready k → page_ok (k_end k) f → f ∉ l →
  pgdir_ok (k_mem k) (k_end k) d l → ¬ pt_page (k_mem k) d f →
  ∃ k', kfree f k = Ret tt k' ∧ kmem_inv k' (f :: l) ∧ mem_step k k' ∧
    (∀ p a, page_ok (k_end k) p → p ≠ f → p ≤ a < p + 4096 → ld8 (k_mem k') a = ld8 (k_mem k) a) ∧
    pgdir_ok (k_mem k') (k_end k) d (f :: l).
Proof.
  intros Hinv Hr Hf Hfl Hpg Hpt.
  destruct (kfree_push k l f Hinv Hr Hf Hfl) as (k' & Hret & Hinv' & _ & _ & _ & _ & _ & _ & Hout).
  exists k'. split; [done|]. split; [done|].
  assert (mem_step k k') as Hs.
  { rewrite kfree_ret in Hret by (done || apply Hf). injection Hret as <-. done. }
  assert (∀ p a, page_ok (k_end k) p → p ≠ f → p ≤ a < p + 4096 → ld8 (k_mem k') a = ld8 (k_mem k) a) as Hsame.
  { intros p a Hp Hne Ha. apply Hout. unfold PGSIZE.
    destruct (pages_disjoint _ _ _ Hp Hf Hne); lia. }
  split; [done|]. split; [done|].
  assert (∀ p, pt_page (k_mem k) d p → page_ok (k_end k) p ∧ p ≠ f) as Hpp.
  { intros p Hp. split; [|by intros ->]. destruct Hp as [->|(i & Hi & Ht)].
    - apply (pg_dir _ _ _ _ Hpg). - by apply (pg_tab _ _ _ _ Hpg i). }
  assert (∀ i, 0 ≤ i < 1024 → table_of (k_mem k') d i = table_of (k_mem k) d i) as Htab.
  { intros i Hi. apply agree_table; [|done]. intros p a Hp Ha. apply (Hsame p); [by apply Hpp..|done]. }
  destruct Hpg as [Hd Hdl Ht Hinj]. split; [done|..].
  - apply not_elem_of_cons. split; [|done]. intros ->. apply Hpt. by left.
  - intros i t Hi. rewrite Htab by done. intros E. destruct (Ht i t Hi E) as (? & ? & ?).
    split; [done|]. split; [|done]. apply not_elem_of_cons. split; [|done].
    intros ->. apply Hpt. right. by exists i.
  - intros i j t Hi Hj. rewrite !Htab by done. by apply Hinj.
Qed.

(** ** deallocuvm *)

(** The mappings of the user pages [lo .. hi) are gone and their frames [fs]
    are on the free list; nothing else changed. *)
Record unmapped (k : kernel) (l : list Z) (d lo hi : Z) (k' : kernel) (fs : list Z) : Prop := {
  um_inv : kmem_inv k' (fs ++ l);
  um_space : space_ok (k_mem k') (k_end k) d (fs ++ l);
  um_frame vb : va_ok vb →
    frame_of (k_mem k') d vb =
    if decide (lo ≤ vb / 4096 < hi) then None else frame_of (k_mem k) d vb;
  um_tab i : 0 ≤ i < 1024 → table_of (k_mem k') d i = table_of (k_mem k) d i;
  um_step : mem_step k k';
  um_freed f : f ∈ fs ↔
    ∃ vb fl, 0 ≤ vb < KERNBASE ∧ lo ≤ vb / 4096 < hi ∧ frame_of (k_mem k) d vb = Some (f, fl)
}.

Lemma unmapped_none k l d lo hi :
  kmem_inv k l → space_ok (k_mem k) (k_end k) d l →
  (∀ vb, va_ok vb → lo ≤ vb / 4096 < hi → frame_of (k_mem k) d vb = None) →
  unmapped k l d lo hi k [].
Proof.
  intros Hinv Hsp Hnone. split; [done|done| |done|reflexivity|].
  - intros vb Hvb. case_decide; [by apply Hnone|done].
  - intros f. split; [by intros ?%not_elem_of_nil|].
    intros (vb & fl & Hvb & Hr & Hf). rewrite Hnone in Hf by (done || by apply user_va). done.
Qed.

Lemma unmapped_trans k1 l d lo mid hi k2 k3 fs1 fs2 :
  lo ≤ mid → mid ≤ hi →
  unmapped k1 l d lo mid k2 fs1 → unmapped k2 (fs1 ++ l) d mid hi k3 fs2 →
  unmapped k1 l d lo hi k3 (fs2 ++ fs1).
Proof.
  intros Hlo Hhi [Hi1 Hs1 Hf1 Ht1 Hm1 Hfs1] [Hi2 Hs2 Hf2 Ht2 Hm2 Hfs2].
  rewrite (mem_step_end _ _ Hm1) in Hs2.
  split; [by rewrite <-app_assoc|by rewrite <-app_assoc| | |by etrans|].
  - intros vb Hvb. rewrite Hf2, Hf1 by done. repeat case_decide; try lia; done.
  - intros i Hi. by rewrite Ht2, Ht1.
  - intros f. rewrite elem_of_app, Hfs1, Hfs2. split.
    + intros [(vb & fl & Hvb & Hr & Hf)|(vb & fl & Hvb & Hr & Hf)]; exists vb, fl.
      * rewrite Hf1, decide_False in Hf by (lia || by apply user_va). split; [done|]. split; [lia|done].
      * split; [done|]. split; [lia|done].
    + intros (vb & fl & Hvb & Hr & Hf). destruct (decide (vb / 4096 < mid)).
      * right. exists vb, fl. split; [done|]. split; [lia|done].
      * left. exists vb, fl. rewrite Hf1, decide_False by (lia || by apply user_va).
        split; [done|]. split; [lia|done].
Qed.

(** Page tables with the same entries. *)
Lemma pt_page_ext m m' d :
  (∀ i, 0 ≤ i < 1024 → table_of m' d i = table_of m d i) → ∀ p, pt_page m' d p ↔ pt_page m d p.
Proof.
  intros H p. unfold pt_page. split; (intros [->|(i & Hi & Hpi)]; [by left|right; exists i; split; [done|]]).
  - by rewrite <-H. - by rewrite H.
Qed.
(** The only frame of a page. *)
Lemma page_frames m d va f fl g :
  0 ≤ va < KERNBASE → frame_of m d va = Some (f, fl) →
  g = f ↔ ∃ vb gl, 0 ≤ vb < KERNBASE ∧ va / 4096 ≤ vb / 4096 < va / 4096 + 1 ∧ frame_of m d vb = Some (g, gl).
Proof.
  intros Hu Hf. split.
  - intros ->. exists va, fl. split; [done|]. split; [lia|done].
  - intros (vb & gl & Hvb & Hr2 & Hg). assert (frame_of m d vb = frame_of m d va) as Heq; [|congruence].
    unfold frame_of, pte_of. destruct (page_indices vb va) as [-> ->]; [by apply user_va|by apply user_va|lia|done].
Qed.

(** Unmapping the page at [va]. *)
Lemma unmap_page k l d va t f fl :
  kmem_inv k l → kmem_ready k → space_ok (k_mem k) (k_end k) d l →
  0 ≤ va < KERNBASE → table_of (k_mem k) d (PDX va) = Some t →
  frame_of (k_mem k) d va = Some (f, fl) →
  ∃ k', (kfree f ;; store (t + 4 * PTX va) 0) k = Ret tt k' ∧
        unmapped k l d (va / 4096) (va / 4096 + 1) k' [f].
Proof.
  intros Hinv Hr [Hend Hpg Hsf Hsi] Hu Ht Hf. pose proof (user_va _ Hu) as Hva.
  destruct (Hsf va f fl Hu Hf) as (Hfok & Hfl & Hfpt).
  destruct (free_frame k l d f Hinv Hr Hfok Hfl Hpg Hfpt)
    as (k1 & Hret & Hinv1 & Hs1 & Hsame & Hpg1).
  erewrite bind_ret_eq by exact Hret. eexists. split; [done|].
  assert (∀ p, pt_page (k_mem k) d p → page_ok (k_end k) p ∧ p ≠ f) as Hpp.
  { intros p Hp. split; [|by intros ->]. destruct Hp as [->|(i & Hi & Hti)].
    - apply (pg_dir _ _ _ _ Hpg). - by apply (pg_tab _ _ _ _ Hpg i). }
  assert (∀ p a, pt_page (k_mem k) d p → p ≤ a < p + 4096 → ld8 (k_mem k1) a = ld8 (k_mem k) a) as Hag.
  { intros p a Hp Ha. apply (Hsame p); [by apply Hpp..|done]. }
  pose proof (agree_table _ _ d Hag) as Htab1.
  pose proof (agree_frame _ _ d Hag) as Hfr1.
  rewrite <-(Htab1 _ (PDX_range _ Hva)) in Ht.
  pose proof (entry_tab _ _ _ _ _ _ Hpg1 Hva Ht) as (Htok & Htl & Htd).
  set (m2 := st32 (k_mem k1) (t + 4 * PTX va) 0).
  assert (∀ i, 0 ≤ i < 1024 → table_of m2 d i = table_of (k_mem k) d i) as Htab2.
  { intros i Hi. rewrite <-Htab1 by done. apply table_of_ext. by eapply entry_pdes. }
  assert (∀ vb, va_ok vb → frame_of m2 d vb =
    if decide (va / 4096 ≤ vb / 4096 < va / 4096 + 1) then None else frame_of (k_mem k) d vb) as Hfr2.
  { intros vb Hvb. unfold m2. erewrite entry_frame by (done || lia).
    rewrite Hfr1 by done. repeat case_decide; try lia; done. }
  assert (∀ p, pt_page m2 d p ↔ pt_page (k_mem k) d p) as Hptp by by apply pt_page_ext.
  split; simpl.
  - apply kmem_inv_write; [done|by eapply mem_ok_st32, ki_mem|].
    intros w b Hw Hb. eapply entry_outside; [done|].
    assert (page_ok (k_end k1) w) as Hwok.
    { pose proof (ki_pages _ _ Hinv1) as H. rewrite Forall_forall in H. by apply H. }
    rewrite (mem_step_end _ _ Hs1) in Hwok. assert (t ≠ w) as Hne by by intros ->.
    destruct (pages_disjoint _ _ _ Htok Hwok Hne); lia.
  - split; [done|by eapply entry_pgdir|..].
    + intros vb g gl Hvb. rewrite Hfr2 by by apply user_va. case_decide; [done|].
      intros Hg. destruct (Hsf vb g gl Hvb Hg) as (? & ? & ?). split; [done|]. rewrite Hptp. split; [|done].
      apply not_elem_of_cons. split; [|done]. intros ->.
      pose proof (Hsi va vb f fl gl Hu Hvb Hf Hg). lia.
    + intros v1 v2 g g1 g2 Hv1 Hv2. rewrite !Hfr2 by by apply user_va.
      repeat case_decide; try done. by apply Hsi.
  - done.
  - done.
  - etrans; [done|]. done.
  - intros g. rewrite list_elem_of_singleton. by apply (page_frames _ _ _ _ fl).
Qed.

Lemma PGADDR_next a :
  0 ≤ a < KERNBASE →
  u32 (u32 (PGADDR (PDX a + 1) 0 0 - PGSIZE) + PGSIZE) = (a / 4194304 + 1) * 4194304.
Proof.
  intros Ha. rewrite PDX_eq by by apply user_va. unfold PGADDR.
  rewrite Z.shiftl_0_l, !Z.lor_0_r, Z.shiftl_mul_pow2 by lia. change (2 ^ 22) with 4194304.
  unfold KERNBASE, PGSIZE in *.
  assert (0 ≤ a / 4194304 < 512) by (Z.div_mod_to_equations; lia).
  rewrite (u32_small ((a / 4194304 + 1) * 4194304)) by lia.
  rewrite (u32_small (_ - 4096)) by lia. rewrite u32_small by lia. lia.
Qed.

(** No table: nothing is mapped up to the next 4 MB boundary. *)
Lemma no_table_no_frame m d a vb :
  0 ≤ a < KERNBASE → va_ok vb → table_of m d (PDX a) = None →
  a / 4096 ≤ vb / 4096 < (a / 4194304 + 1) * 1024 → frame_of m d vb = None.
Proof.
  intros Ha Hvb Ht Hr. unfold frame_of, pte_of.
  assert (PDX vb = PDX a) as ->; [|by rewrite Ht].
  rewrite !PDX_eq by (done || by apply user_va). unfold va_ok in Hvb.
  Z.div_mod_to_equations. lia.
Qed.

(** One iteration of the loop of [deallocuvm]: some pages are unmapped and the
    loop goes on behind them. *)
Lemma dealloc_iter fuel k l d a oldsz :
  kmem_inv k l → kmem_ready k → space_ok (k_mem k) (k_end k) d l →
  0 ≤ a < oldsz → oldsz ≤ KERNBASE → a mod 4096 = 0 →
  ∃ a' k' fs, deallocuvm_loop (S fuel) d a oldsz k = deallocuvm_loop fuel d a' oldsz k' ∧
    a + 4096 ≤ a' ∧ a' mod 4096 = 0 ∧
    unmapped k l d (a / 4096) (Z.min (a' / 4096) ((oldsz + 4095) / 4096)) k' fs.
Proof.
  intros Hinv Hr Hsp Ha Hold Hal. assert (0 ≤ a < KERNBASE) as Hu by lia.
  pose proof (user_va _ Hu) as Hva. pose proof (sp_pg _ _ _ _ Hsp) as Hpg.
  cbn [deallocuvm_loop]. destruct (Z.ltb_spec a oldsz); [|lia].
  destruct (table_of (k_mem k) d (PDX a)) as [t|] eqn:Et.
  2: { erewrite bind_ret_eq by by apply walk_miss. rewrite PGADDR_next by done.
       exists ((a / 4194304 + 1) * 4194304), k, []. split; [done|].
       split; [unfold KERNBASE in *; Z.div_mod_to_equations; lia|].
       split; [Z.div_mod_to_equations; lia|].
       replace ((a / 4194304 + 1) * 4194304 / 4096) with ((a / 4194304 + 1) * 1024)
         by (Z.div_mod_to_equations; lia).
       apply unmapped_none; [done|done|]. intros vb Hvb Hb.
       eapply no_table_no_frame; [done..|lia]. }
  pose proof (entry_tab _ _ _ _ _ _ Hpg Hva Et) as (Htok & _).
  pose proof (page_ok_range _ _ Htok) as [Htr _]. unfold KERNBASE in Htr. pose proof (PTX_range a Hva).
  erewrite bind_ret_eq by by apply walk_hit. destruct (Z.eqb_spec (t + 4 * PTX a) 0); [lia|].
  unfold load. unfold bind at 1, gets at 1.
  assert (u32 (a + PGSIZE) = a + 4096) as -> by (apply u32_small; unfold PGSIZE, KERNBASE in *; lia).
  assert (Z.min ((a + 4096) / 4096) ((oldsz + 4095) / 4096) = a / 4096 + 1) as Hdiv
    by (Z.div_mod_to_equations; lia).
  assert ((a + 4096) mod 4096 = 0) as Hal' by (rewrite <-Zplus_mod_idemp_l, Hal; done).
  assert (frame_of (k_mem k) d a =
    let e := ld32 (k_mem k) (t + 4 * PTX a) in
    if present e then Some (P2V (PTE_ADDR e), PTE_FLAGS e) else None) as Hfr.
  { unfold frame_of, pte_of. by rewrite Et. }
  cbv zeta in Hfr. change (truthy (Z.land ?e PTE_P)) with (present e).
  set (e := ld32 (k_mem k) (t + 4 * PTX a)) in *.
  destruct (present e).
  - destruct (sp_frame _ _ _ _ Hsp _ _ _ Hu Hfr) as (Hfok & _).
    destruct (unmap_page k l d a t _ _ Hinv Hr Hsp Hu Et Hfr) as (k' & Hret & Hum).
    destruct (Z.eqb_spec (PTE_ADDR e) 0) as [Hz|Hz].
    { rewrite Hz in Hfok. destruct Hfok as [Hb _]. unfold bad_page in Hb.
      pose proof (sp_end _ _ _ _ Hsp). change (P2V 0) with KERNBASE in Hb.
      destruct (Z.ltb_spec KERNBASE (k_end k)); [by rewrite orb_true_r in Hb|lia]. }
    exists (a + 4096), k', [P2V (PTE_ADDR e)]. cbn [when].
    erewrite bind_ret_eq by exact Hret. rewrite Hdiv. done.
  - exists (a + 4096), k, []. cbn [when]. split; [done|]. split; [lia|]. split; [done|].
    rewrite Hdiv. apply unmapped_none; [done|done|]. intros vb Hvb Hb.
    unfold frame_of, pte_of. destruct (page_indices vb a) as [-> ->]; [done|done|lia|].
    unfold frame_of, pte_of in Hfr. done.
Qed.

Lemma dealloc_loop_spec fuel k l d a oldsz :
  kmem_inv k l → kmem_ready k → space_ok (k_mem k) (k_end k) d l →
  0 ≤ a → oldsz ≤ KERNBASE → a mod 4096 = 0 → (oldsz + 4095) / 4096 - a / 4096 < Z.of_nat fuel →
  a / 4096 ≤ (oldsz + 4095) / 4096 →
  ∃ k' fs, deallocuvm_loop fuel d a oldsz k = Ret tt k' ∧
    unmapped k l d (a / 4096) ((oldsz + 4095) / 4096) k' fs.
Proof.
  revert k l a. induction fuel as [|fuel IH]; intros k l a Hinv Hr Hsp Ha Hold Hal Hf Hlo; [lia|].
  destruct (Z.lt_ge_cases a oldsz) as [Hlt|Hge].
  2: { exists k, []. cbn [deallocuvm_loop]. destruct (Z.ltb_spec a oldsz); [lia|]. split; [done|].
       apply unmapped_none; [done|done|]. intros vb Hvb Hb. exfalso.
       Z.div_mod_to_equations. lia. }
  destruct (dealloc_iter fuel k l d a oldsz) as (a' & k1 & fs1 & -> & Ha' & Hal' & Hum); [done..|].
  destruct (Z.le_gt_cases (a' / 4096) ((oldsz + 4095) / 4096)) as [Hle|Hgt].
  - rewrite Z.min_l in Hum by done. pose proof Hum as [Hinv1 Hsp1 _ _ Hs1 _].
    destruct (IH k1 (fs1 ++ l) a') as (k2 & fs2 & Hret & Hum2);
      [done|by eapply mem_step_ready|by rewrite (mem_step_end _ _ Hs1)|lia|done|done| |done|].
    { Z.div_mod_to_equations. lia. }
    exists k2, (fs2 ++ fs1). split; [done|]. eapply unmapped_trans; [|done|done|done].
    Z.div_mod_to_equations. lia.
  - rewrite Z.min_r in Hum by lia. exists k1, fs1. split; [|done].
    destruct fuel; [Z.div_mod_to_equations; lia|]. cbn [deallocuvm_loop].
    destruct (Z.ltb_spec a' oldsz); [Z.div_mod_to_equations; lia|done].
Qed.

(** [deallocuvm] shrinks the space from [oldsz] to [newsz]. *)
Lemma deallocuvm_ret k l d oldsz newsz :
  kmem_inv k l → kmem_ready k → space_ok (k_mem k) (k_end k) d l →
  0 ≤ newsz < oldsz → oldsz ≤ KERNBASE →
  ∃ k' fs, deallocuvm d oldsz newsz k = Ret newsz k' ∧
    unmapped k l d ((newsz + 4095) / 4096) ((oldsz + 4095) / 4096) k' fs.
Proof.
  intros Hinv Hr Hsp Hn Ho. unfold deallocuvm. destruct (Z.leb_spec oldsz newsz); [lia|].
  unfold KERNBASE in *. rewrite PGROUNDUP_eq by lia.
  assert (Hd : (newsz + 4095) / 4096 * 4096 / 4096 = (newsz + 4095) / 4096) by by rewrite Z.div_mul.
  destruct (dealloc_loop_spec (S (Z.to_nat (oldsz / PGSIZE + 1))) k l d
    ((newsz + 4095) / 4096 * 4096) oldsz) as (k' & fs & Hret & Hum);
    [done|done|done|Z.div_mod_to_equations; lia|done|by rewrite Z.mod_mul| | |].
  - rewrite Hd. unfold PGSIZE. Z.div_mod_to_equations; lia.
  - rewrite Hd. Z.div_mod_to_equations; lia.
  - rewrite Hd in Hum. exists k', fs. split; [|done]. by erewrite bind_ret_eq by exact Hret.
Qed.

(** ** freevm *)

Definition free_table (d : Z) (i : nat) : K unit :=
  e ← load (d + 4 * Z.of_nat i);
  when (truthy (Z.land e PTE_P)) (kfree (P2V (PTE_ADDR e))).

(** The loop of [freevm] over the directory's entries. *)
Lemma free_tables_spec ixs k l d :
  kmem_inv k l → kmem_ready k → page_ok (k_end k) d → d ∉ l → NoDup ixs →
  (∀ i t, i ∈ ixs → table_of (k_mem k) d (Z.of_nat i) = Some t →
     page_ok (k_end k) t ∧ (t ∉ l) ∧ t ≠ d) →
  (∀ i j t, i ∈ ixs → j ∈ ixs → table_of (k_mem k) d (Z.of_nat i) = Some t →
     table_of (k_mem k) d (Z.of_nat j) = Some t → i = j) →
  (∀ i, i ∈ ixs → (i < 1024)%nat) →
  ∃ k' ts, for_each ixs (free_table d) k = Ret tt k' ∧ kmem_inv k' (ts ++ l) ∧ mem_step k k' ∧
    (d ∉ ts) ∧ ∀ t, t ∈ ts ↔ ∃ i, i ∈ ixs ∧ table_of (k_mem k) d (Z.of_nat i) = Some t.
Proof.
  revert k l. induction ixs as [|i ixs IH]; intros k l Hinv Hr Hd Hdl Hnd Htab Hinj Hrange; simpl.
  { exists k, []. split; [done|]. split; [done|]. split; [reflexivity|].
    split; [apply not_elem_of_nil|]. intros t. split; [by intros ?%not_elem_of_nil|].
    by intros (i & Hi%not_elem_of_nil & _). }
  apply NoDup_cons in Hnd as [Hi Hnd].
  destruct (table_of (k_mem k) d (Z.of_nat i)) as [t|] eqn:Et.
  - destruct (Htab i t ltac:(left) Et) as (Htok & Htl & Htd).
    destruct (kfree_push k l t Hinv Hr Htok Htl) as (k1 & Hret & Hinv1 & Hend & _ & _ & _ & _ & _ & Hout).
    assert (mem_step k k1) as Hs1.
    { rewrite kfree_ret in Hret by (done || apply Htok). injection Hret as <-. done. }
    assert (∀ j, j ∈ ixs → table_of (k_mem k1) d (Z.of_nat j) = table_of (k_mem k) d (Z.of_nat j)) as Hsame.
    { intros j Hj. specialize (Hrange j ltac:(by right)).
      apply table_of_ext, ld32_ext. intros b Hb. apply Hout. unfold PGSIZE.
      destruct (pages_disjoint _ _ _ Htok Hd Htd); lia. }
    destruct (IH k1 (t :: l)) as (k' & ts & Hret2 & Hinv2 & Hs2 & Hdts & Hts).
    + done. + by eapply mem_step_ready. + by rewrite Hend.
    + apply not_elem_of_cons. done. + done.
    + intros j u Hj. rewrite Hsame by done. rewrite Hend. intros Hu.
      destruct (Htab j u ltac:(by right) Hu) as (? & ? & ?). split; [done|]. split; [|done].
      apply not_elem_of_cons. split; [|done]. intros ->. apply Hi.
      rewrite (Hinj i j t); [done|left|by right|done|done].
    + intros a b u Ha Hb. rewrite !Hsame by done. apply Hinj; by right.
    + intros j Hj. apply Hrange. by right.
    + exists k', (ts ++ [t]). split; [|split; [by rewrite <-app_assoc|]].
      { unfold free_table at 1, load. unfold bind at 1 2, gets at 1.
        unfold table_of, present in Et. destruct (truthy _); [|done]. injection Et as Et.
        cbn [when]. rewrite Et, Hret. done. }
      split; [by etrans|]. split.
      { rewrite not_elem_of_app, list_elem_of_singleton. split; [done|by apply not_eq_sym]. }
      intros u. rewrite elem_of_app, list_elem_of_singleton, Hts. setoid_rewrite elem_of_cons. split.
      * intros [(j & Hj & Hu)| ->]; [|by exists i; auto]. exists j. rewrite <-Hsame by done. auto.
      * intros (j & [->|Hj] & Hu); [right; congruence|left]. exists j. by rewrite Hsame.
  - destruct (IH k l) as (k' & ts & Hret2 & Hinv2 & Hs2 & Hdts & Hts); try done.
    + intros j u Hj. apply Htab. by right.
    + intros a b u Ha Hb. apply Hinj; by right.
    + intros j Hj. apply Hrange. by right.
    + exists k', ts. split.
      { unfold free_table at 1, load. unfold bind at 1 2, gets at 1.
        unfold table_of, present in Et. destruct (truthy _); [done|]. done. }
      split; [done|]. split; [done|]. split; [done|]. intros u. rewrite Hts.
      setoid_rewrite elem_of_cons. split; intros (j & Hj & Hu); exists j; [by auto|].
      destruct Hj as [->|Hj]; [congruence|done].
Qed.

(** [freevm] returns the directory, its tables and the user frames to the free
    list, each exactly once. *)
Lemma freevm_ret k l d :
  kmem_inv k l → kmem_ready k → space_ok (k_mem k) (k_end k) d l →
  ∃ k' ps, freevm d k = Ret tt k' ∧ kmem_inv k' (ps ++ l) ∧ mem_step k k' ∧
    ∀ p, p ∈ ps ↔ pt_page (k_mem k) d p ∨
                  ∃ va fl, 0 ≤ va < KERNBASE ∧ frame_of (k_mem k) d va = Some (p, fl).
Proof.
  intros Hinv Hr Hsp. pose proof (sp_pg _ _ _ _ Hsp) as Hpg.
  pose proof (page_ok_range _ _ (pg_dir _ _ _ _ Hpg)) as [Hdr _].
  unfold freevm. destruct (Z.eqb_spec d 0) as [->|_]; [unfold KERNBASE in Hdr; lia|].
  destruct (deallocuvm_ret k l d KERNBASE 0) as (k1 & fs & Hret1 & [Hinv1 Hsp1 Hf1 Ht1 Hs1 Hfs]);
    [done|done|done|unfold KERNBASE; lia|done|].
  pose proof (sp_pg _ _ _ _ Hsp1) as [Hd1 Hdl1 Htab1 Hinj1].
  erewrite bind_ret_eq by exact Hret1.
  destruct (free_tables_spec (seq 0 1024) k1 (fs ++ l) d) as (k2 & ts & Hret2 & Hinv2 & Hs2 & Hdts & Hts).
  - done. - by eapply mem_step_ready. - by rewrite (mem_step_end _ _ Hs1). - done. - apply NoDup_seq.
  - intros i t Hi. rewrite (mem_step_end _ _ Hs1). apply elem_of_seq in Hi. apply Htab1. lia.
  - intros i j t Hi Hj Ha Hb. apply elem_of_seq in Hi, Hj.
    apply Nat2Z.inj. eapply Hinj1; [lia|lia|done|done].
  - intros i Hi. apply elem_of_seq in Hi. lia.
  - change NPDENTRIES with 1024%nat. erewrite bind_ret_eq by exact Hret2.
    assert (mem_step k k2) as Hs by by etrans.
    destruct (kfree_push k2 (ts ++ fs ++ l) d) as (k3 & Hret3 & Hinv3 & _).
    + done. + by eapply mem_step_ready. + by rewrite (mem_step_end _ _ Hs).
    + rewrite not_elem_of_app. done.
    + exists k3, (d :: ts ++ fs). split; [done|]. split; [by rewrite <-app_comm_cons, <-app_assoc|]. split.
      { etrans; [exact Hs|]. rewrite kfree_ret in Hret3; [injection Hret3 as <-; done|by eapply mem_step_ready|].
        rewrite (mem_step_end _ _ Hs). apply Hd1. }
      intros p. rewrite elem_of_cons, elem_of_app, Hts, Hfs. unfold pt_page. split.
      * intros [->|[(i & Hi & Hp)|(va & fl & Hva & _ & Hp)]]; [by left; left| |right; by eauto].
        apply elem_of_seq in Hi. left. right. exists (Z.of_nat i). split; [lia|]. rewrite <-Ht1 by lia. done.
      * intros [[->|(i & Hi & Hp)]|(va & fl & Hva & Hp)]; [by left|right; left|right; right].
        -- exists (Z.to_nat i). rewrite elem_of_seq, Z2Nat.id by lia. split; [lia|]. by rewrite Ht1.
        -- exists va, fl. split; [done|]. split; [|done]. unfold KERNBASE in *. Z.div_mod_to_equations. lia.
Qed.

(** A space survives the freeing of a page that is not its own. *)
Lemma space_ok_free k l d f :
  kmem_inv k l → kmem_ready k → page_ok (k_end k) f → f ∉ l →
  space_ok (k_mem k) (k_end k) d l → ¬ pt_page (k_mem k) d f →
  (∀ va fl, 0 ≤ va < KERNBASE → frame_of (k_mem k) d va ≠ Some (f, fl)) →
  ∃ k', kfree f k = Ret tt k' ∧ kmem_inv k' (f :: l) ∧ mem_step k k' ∧
    space_ok (k_mem k') (k_end k) d (f :: l) ∧
    (∀ p, pt_page (k_mem k') d p ↔ pt_page (k_mem k) d p) ∧
    (∀ vb, va_ok vb → frame_of (k_mem k') d vb = frame_of (k_mem k) d vb).
Proof.
  intros Hinv Hr Hf Hfl Hsp Hpt Hnf. pose proof Hsp as [Hend Hpg Hsf Hsi].
  destruct (free_frame k l d f Hinv Hr Hf Hfl Hpg Hpt) as (k1 & Hret & Hinv1 & Hs1 & Hsame & Hpg1).
  assert (∀ p a, pt_page (k_mem k) d p → p ≤ a < p + 4096 → ld8 (k_mem k1) a = ld8 (k_mem k) a) as Hag.
  { intros p a Hp Ha. apply (Hsame p); [|by intros ->|done]. destruct Hp as [->|(i & Hi & Hti)].
    - apply (pg_dir _ _ _ _ Hpg). - by apply (pg_tab _ _ _ _ Hpg i). }
  pose proof (agree_frame _ _ d Hag) as Hfr. pose proof (agree_pt _ _ d Hag) as Hptp.
  exists k1. split; [done|]. split; [done|]. split; [done|]. split; [|done].
  split; [done|done|..].
  - intros va g gl Hva. rewrite Hfr, Hptp by by apply user_va. intros Hg.
    destruct (Hsf va g gl Hva Hg) as (? & ? & ?). split; [done|]. split; [|done].
    apply not_elem_of_cons. split; [|done]. intros ->. by eapply Hnf.
  - intros va vb g ga gb Hva Hvb. rewrite !Hfr by by apply user_va. by apply Hsi.
Qed.

(** ** The empty address space *)

Lemma ld32_empty a : ld32 ∅ a = 0.
Proof. unfold ld32, ld8. by rewrite !lookup_empty. Qed.
Lemma table_of_empty d i : table_of ∅ d i = None.
Proof. unfold table_of. by rewrite ld32_empty. Qed.
Lemma frame_of_empty d va : frame_of ∅ d va = None.
Proof. unfold frame_of, pte_of. by rewrite table_of_empty. Qed.
Lemma pt_page_empty d p : pt_page ∅ d p → p = d.
Proof. intros [->|(i & _ & Hi)]; [done|]. by rewrite table_of_empty in Hi. Qed.
Lemma pgdir_ok_empty end_ d l : page_ok end_ d → d ∉ l → pgdir_ok ∅ end_ d l.
Proof. intros Hd Hl. split; [done|done|..]; intros; by rewrite table_of_empty in *. Qed.
Lemma space_ok_empty end_ d l : KERNBASE < end_ → page_ok end_ d → d ∉ l → space_ok ∅ end_ d l.
Proof.
  intros He Hd Hl. split; [done|by apply pgdir_ok_empty|..]; intros; by rewrite frame_of_empty in *.
Qed.
