(* ===== verification/MainVm.v ===== *)
(** * MainVm: physical pages and address spaces

    The page allocator as a stack of pages, and what mapping, unmapping and
    freeing do to an address space and to the pages it owns. *)
From S2P Require Import Prelude.
From S2P Require Import Mem.
From S2P Require Import Str.
From S2P Require Import State.
From S2P Require Import Spin.
From S2P Require Import Boot.
From S2P Require Import Cons.
From S2P Require Import Kalloc.
From S2P Require Import Vm.
From S2P Require Import Frame.
From S2P Require Import VmSpec.

(** ** The allocator *)

(** C6: every sequence of [kalloc] and [kfree] calls that keeps the contract of
    [kfree] runs to its end and returns what a stack of distinct pages returns;
    the free list threaded through the pages represents that stack before and
    after. *)
Theorem allocator_refines_stack k l os rs l' :
  kmem_inv k l → kmem_ready k → abs_kops (k_end k) l os = Some (rs, l') →
  ∃ k', run_kops os k = Ret rs k' ∧ kmem_inv k' l' ∧ kmem_ready k'.
Proof.
  intros Hi Hr Ha. destruct (run_kops_refines os k l rs l' Hi Hr Ha) as (k' & ? & ? & ? & _). eauto.
Qed.

Lemma sample_kmem pol : kmem_inv (sample pol) [].
Proof. split; [apply mem_ok_empty|done|constructor|constructor]. Qed.

Lemma allocator_refines_stack_witness :
  ∃ k', run_kops [Alloc; Free 0x80300000; Free 0x80301000; Alloc; Alloc; Alloc] (sample DEFAULT) =
    Ret [0; 0; 0; 0x80301000; 0x80300000; 0] k'.
Proof.
  destruct (allocator_refines_stack (sample DEFAULT) [] [Alloc; Free 0x80300000; Free 0x80301000; Alloc; Alloc; Alloc]
    [0; 0; 0; 0x80301000; 0x80300000; 0] [] (sample_kmem DEFAULT) (or_introl eq_refl) eq_refl) as (k' & H & _).
  exists k'. exact H.
Defined.

(** [freerange] returns and adds to the free list exactly the whole pages
    that lie between the rounded-up start and the end of the range. *)
Theorem freerange_frees_pages k l vstart vend :
  kmem_inv k l → kmem_ready k → PGROUNDUP vstart ≤ vend →
  let p := PGROUNDUP vstart in let n := Z.to_nat ((vend - p) / PGSIZE) in
  (∀ i, (i < n)%nat → page_ok (k_end k) (p + PGSIZE * Z.of_nat i) ∧ p + PGSIZE * Z.of_nat i ∉ l) →
  ∃ k' fs, freerange vstart vend k = Ret tt k' ∧ kmem_inv k' (fs ++ l) ∧ length fs = n ∧
    ∀ v, v ∈ fs ↔ ∃ i, (i < n)%nat ∧ v = p + PGSIZE * Z.of_nat i.
Proof.
  intros Hi Hr Hle p n Hp. destruct (freerange_ret k l vstart vend Hi Hr Hle Hp) as (k' & Hret & Hi' & _).
  exists k', (pages p n). split_and!; [done|done|apply length_pages|].
  intros v. split; [|intros (i & Hlt & ->); by apply pages_elem].
  intros (i & -> & Hlt)%elem_of_pages. eauto.
Qed.

Lemma freerange_frees_pages_witness :
  ∃ k' fs, freerange 0x80300001 0x80303fff (sample DEFAULT) = Ret tt k' ∧ kmem_inv k' fs ∧
    (∀ v, v ∈ fs ↔ ∃ i, (i < 2)%nat ∧ v = 0x80301000 + PGSIZE * Z.of_nat i).
Proof.
  destruct (freerange_frees_pages (sample DEFAULT) [] 0x80300001 0x80303fff (sample_kmem DEFAULT) (or_introl eq_refl))
    as (k' & fs & H & Hi & _ & Hv); [done| |].
  - intros i Hi. split; [|by apply not_elem_of_nil].
    destruct i as [|[|i]]; [by split|by split|exfalso; revert Hi; vm_compute; lia].
  - exists k', fs. rewrite app_nil_r in Hi. split_and!; [exact H|exact Hi|exact Hv].
Defined.

(** ** Address spaces *)

(** C31: [mappages] over unmapped addresses.  It returns 0 and every page of the
    range is mapped, in order, to the physical pages from [pa] on with the given
    permissions, or it runs out of memory, returns -1 and has mapped a prefix of
    the range.  Either way no other address changes its mapping, memory changes
    in the page tables of this space only, and the tables come off the free
    list. *)
Theorem mappages_maps k l d va size pa perm :
  kmem_inv k l → kmem_ready k → pgdir_ok (k_mem k) (k_end k) d l →
  0 ≤ va → 0 < size → va + size ≤ 4294967296 →
  let n := (va + size - 1) / 4096 - va / 4096 in
  pa mod 4096 = 0 → 0 ≤ pa → pa + n * 4096 < 4294967296 → 0 ≤ perm < 4096 →
  (∀ vb, va_ok vb → va / 4096 ≤ vb / 4096 ≤ va / 4096 + n → frame_of (k_mem k) d vb = None) →
  ∃ r k' l' j, mappages d va size pa perm k = Ret r k' ∧
    (r = 0 ∧ j = n + 1 ∨ r = -1 ∧ 0 ≤ j ≤ n ∧ l' = []) ∧
    (∀ vb, va_ok vb → frame_of (k_mem k') d vb =
      if decide (va / 4096 ≤ vb / 4096 < va / 4096 + j)
      then Some (P2V (pa + (vb / 4096 - va / 4096) * 4096), Z.lor perm PTE_P) else frame_of (k_mem k) d vb) ∧
    kmem_inv k' l' ∧ pgdir_ok (k_mem k') (k_end k) d l' ∧ pt_only (k_mem k) (k_mem k') d ∧
    mem_step k k' ∧ ∃ used, l = used ++ l'.
Proof.
  intros Hi Hr Hp H1 H2 H3 n H4 H5 H6 H7 H8.
  destruct (mappages_ret k l d va size pa perm Hi Hr Hp H1 H2 H3 H4 H5 H6 H7 H8)
    as (r & k' & l' & j & Hret & [] & Hor). exists r, k', l', j. by split_and!.
Qed.

(** One page is free: the page table of the new mapping. *)
Definition map_sample : kernel := sample DEFAULT <| k_freelist := 0x80300000 |>.
Lemma map_sample_kmem : kmem_inv map_sample [0x80300000].
Proof.
  split; [apply mem_ok_empty|split; [done|by apply ld32_empty]|repeat constructor; by apply not_elem_of_nil|].
  repeat constructor.
Qed.
Lemma mappages_maps_witness :
  ∃ r k' j, mappages 0x80301000 0x1234 0x1000 0x400000 PTE_W map_sample = Ret r k' ∧
    (r = 0 ∧ j = 2 ∨ r = -1 ∧ 0 ≤ j ≤ 1).
Proof.
  destruct (mappages_maps map_sample [0x80300000] 0x80301000 0x1234 0x1000 0x400000 PTE_W map_sample_kmem (or_introl eq_refl))
    as (r & k' & l' & j & H & Hor & _).
  - apply pgdir_ok_empty; [by split|]. intros Hin%list_elem_of_singleton. discriminate.
  - discriminate.
  - reflexivity.
  - discriminate.
  - reflexivity.
  - discriminate.
  - reflexivity.
  - split; [discriminate|reflexivity].
  - intros vb _ _. apply frame_of_empty.
  - exists r, k', j. split; [exact H|clear H]. destruct Hor as [[-> ->]|(-> & Hj & _)]; [by left|right]. split; [done|exact Hj].
Defined.

(** [deallocuvm] returns the new size; exactly the pages between the two
    sizes are unmapped and exactly their frames are back on the free list, the
    space stays well formed and keeps its page tables. *)
Theorem deallocuvm_unmaps k l d oldsz newsz :
  kmem_inv k l → kmem_ready k → space_ok (k_mem k) (k_end k) d l →
  0 ≤ newsz < oldsz → oldsz ≤ KERNBASE →
  let lo := (newsz + 4095) / 4096 in let hi := (oldsz + 4095) / 4096 in
  ∃ k' fs, deallocuvm d oldsz newsz k = Ret newsz k' ∧ kmem_inv k' (fs ++ l) ∧
    space_ok (k_mem k') (k_end k) d (fs ++ l) ∧
    (∀ vb, va_ok vb → frame_of (k_mem k') d vb =
       if decide (lo ≤ vb / 4096 < hi) then None else frame_of (k_mem k) d vb) ∧
    (∀ i, 0 ≤ i < 1024 → table_of (k_mem k') d i = table_of (k_mem k) d i) ∧
    (∀ f, f ∈ fs ↔ ∃ vb fl, 0 ≤ vb < KERNBASE ∧ lo ≤ vb / 4096 < hi ∧ frame_of (k_mem k) d vb = Some (f, fl)).
Proof.
  intros Hi Hr Hs Hn Ho lo hi. destruct (deallocuvm_ret k l d oldsz newsz Hi Hr Hs Hn Ho) as (k' & fs & Hret & []).
  exists k', fs. by split_and!.
Qed.

Lemma deallocuvm_unmaps_witness :
  ∃ k' fs, deallocuvm 0x80301000 0x3000 0x1000 (sample DEFAULT) = Ret 0x1000 k' ∧ kmem_inv k' (fs ++ []).
Proof.
  destruct (deallocuvm_unmaps (sample DEFAULT) [] 0x80301000 0x3000 0x1000 (sample_kmem DEFAULT) (or_introl eq_refl))
    as (k' & fs & H & Hi & _).
  - apply space_ok_empty; [done|by split|by apply not_elem_of_nil].
  - done.
  - done.
  - exists k', fs. split; [exact H|exact Hi].
Defined.

(** C32: [freevm] gives back the page directory, every page table and every user
    frame of the space, and no other page. *)
Theorem freevm_frees_all k l d :
  kmem_inv k l → kmem_ready k → space_ok (k_mem k) (k_end k) d l →
  ∃ k' ps, freevm d k = Ret tt k' ∧ kmem_inv k' (ps ++ l) ∧ mem_step k k' ∧
    ∀ p, p ∈ ps ↔ pt_page (k_mem k) d p ∨
                  ∃ va fl, 0 ≤ va < KERNBASE ∧ frame_of (k_mem k) d va = Some (p, fl).
Proof. apply freevm_ret. Qed.

Lemma freevm_frees_all_witness :
  ∃ k' ps, freevm 0x80301000 (sample DEFAULT) = Ret tt k' ∧ kmem_inv k' (ps ++ []) ∧ 0x80301000 ∈ ps.
Proof.
  destruct (freevm_frees_all (sample DEFAULT) [] 0x80301000 (sample_kmem DEFAULT) (or_introl eq_refl))
    as (k' & ps & H & Hi & _ & Hp).
  - apply space_ok_empty; [done|by split|by apply not_elem_of_nil].
  - exists k', ps. split_and!; [exact H|exact Hi|]. apply Hp. left. by left.
Defined.
