(* ===== verification/Mlq.v ===== *)
(** * Mlq: the run queues of the multi-level feedback scheduler ([proc.c])

    [q0] .. [q4] are arrays of 64 process pointers; [c0] .. [c4] are the
    indices of their last elements, -1 when empty.  The queue proper is the
    prefix of the array up to [c] ([live]).  Removal shifts the tail down; a
    store past the array is undefined. *)
From S2P Require Import Prelude.
From S2P Require Import Mem.
From S2P Require Import State.
From S2P Require Import Spin.

Module Mlq.

Definition NQUEUE : nat := 64.
Definition clockperiod : list Z := [1; 2; 4; 8; 16].

Definition get_queue (q : nat) : K mlq :=
  qs ← gets k_queue; get_or "no such queue" (qs !! q).
Definition set_queue (q : nat) (m : mlq) : K unit :=
  modify (λ k, k <| k_queue := <[q := m]> (k_queue k) |>).

(** [c++; q[c] = p;] *)
Definition push (p : nat) (m : mlq) : option mlq :=
  let c := q_c m + 1 in
  slots ←? aset (q_slot m) c (Some p); Some (mkMlq slots c).
Definition push_queue (q : nat) (p : nat) : K unit :=
  m ← get_queue q;
  m' ← get_or "queue index out of range" (push p m);
  set_queue q m'.

(** [for (j = i; j <= c - 1; j++) q[j] = q[j + 1];], [n] iterations. *)
Fixpoint shift (n : nat) (j : Z) (slots : list (option nat)) : option (list (option nat)) :=
  match n with
  | O => Some slots
  | S n' =>
      x ←? aget slots (j + 1);
      slots' ←? aset slots j x;
      shift n' (j + 1) slots'
  end.
(** Shift the tail over entry [i] and decrement [c]. *)
Definition remove_at (i : Z) (m : mlq) : option mlq :=
  slots ←? shift (Z.to_nat (q_c m - i)) i (q_slot m); Some (mkMlq slots (q_c m - 1)).

(** [for (i = 0; i <= c; i++) if (q[i]->pid == pid) { shift; c--; }]: the
    loop of [rem_process] for one queue, [fuel] bounding its iterations.  After
    a removal [i] still advances, over the entry that moved into its place. *)
Fixpoint rem_loop (ps : list proc) (pid : Z) (fuel : nat) (i : Z) (m : mlq) : option mlq :=
  match fuel with
  | O => Some m
  | S fuel' =>
      if i <=? q_c m then
        e ←? aget (q_slot m) i;
        x ←? e;
        p ←? ps !! x;
        if p_pid p =? pid then m' ←? remove_at i m; rem_loop ps pid fuel' (i + 1) m'
        else rem_loop ps pid fuel' (i + 1) m
      else Some m
  end.

(** [curq] selects one of the five queues; any other value does nothing. *)
Definition rem_process (pid curq : Z) : K unit :=
  if (0 <=? curq) && (curq <=? 4) then
    m ← get_queue (Z.to_nat curq);
    ps ← gets k_proc;
    m' ← get_or "rem_process" (rem_loop ps pid (Z.to_nat (q_c m + 1)) 0 m);
    set_queue (Z.to_nat curq) m'
  else ret tt.

(** ** The abstract queue *)

Definition live (m : mlq) : list (option nat) := take (Z.to_nat (q_c m + 1)) (q_slot m).

Record mlq_ok (m : mlq) : Prop := {
  mq_len : length (q_slot m) = NQUEUE;
  mq_c : -1 ≤ q_c m < Z.of_nat NQUEUE
}.

Lemma length_live m : mlq_ok m → Z.of_nat (length (live m)) = q_c m + 1.
Proof. intros [Hl Hc]. unfold live. rewrite length_take, Hl. unfold NQUEUE in *. lia. Qed.

Lemma live_app_slots m : q_slot m = live m ++ drop (Z.to_nat (q_c m + 1)) (q_slot m).
Proof. unfold live. by rewrite take_drop. Qed.

(** A queue with a given abstract content. *)
Lemma live_intro m l t :
  q_slot m = l ++ t → q_c m = Z.of_nat (length l) - 1 → live m = l.
Proof.
  intros Hs Hc. unfold live. rewrite Hs, Hc.
  replace (Z.to_nat _) with (length l) by lia. by rewrite take_app_length.
Qed.

Lemma push_ok p m :
  mlq_ok m → q_c m + 1 < Z.of_nat NQUEUE →
  ∃ m', push p m = Some m' ∧ mlq_ok m' ∧ live m' = live m ++ [Some p] ∧ q_c m' = q_c m + 1.
Proof.
  intros Hok Hc. pose proof (length_live m Hok) as Hlen. destruct Hok as [Hl Hr].
  unfold push. unfold aset. rewrite Hl.
  destruct (Z.leb_spec 0 (q_c m + 1)), (Z.ltb_spec (q_c m + 1) (Z.of_nat NQUEUE)); try lia.
  simpl. eexists. split; [done|]. split; [split; simpl; rewrite ?length_insert; [done|lia]|].
  split; [|done].
  apply (live_intro _ _ (drop 1 (drop (Z.to_nat (q_c m + 1)) (q_slot m)))).
  - simpl. rewrite (live_app_slots m) at 1.
    replace (Z.to_nat (q_c m + 1)) with (length (live m) + 0)%nat at 1 by lia.
    rewrite insert_app_r, <-app_assoc. f_equal.
    destruct (drop _ (q_slot m)) as [|x t] eqn:E; [|done].
    apply (f_equal length) in E. rewrite length_drop, Hl in E. simpl in E. lia.
  - simpl. rewrite length_app. simpl. lia.
Qed.

(** The array has room for 64 entries: one more is an out-of-range store. *)
Lemma push_full p m : mlq_ok m → q_c m + 1 = Z.of_nat NQUEUE → push p m = None.
Proof.
  intros [Hl _] Hc. unfold push. rewrite aset_oob; [done|]. rewrite Hl. lia.
Qed.

Lemma shift_spec n j slots :
  (j + n < length slots)%nat →
  shift n (Z.of_nat j) slots =
  Some (take j slots ++ take n (drop (S j) slots) ++ drop (j + n) slots).
Proof.
  revert j slots. induction n as [|n IH]; intros j slots H; simpl.
  { rewrite Nat.add_0_r. simpl. by rewrite take_drop. }
  replace (Z.of_nat j + 1) with (Z.of_nat (S j)) by lia. rewrite aget_nat.
  destruct (lookup_lt_is_Some_2 slots (S j)) as [x Hx]; [lia|]. rewrite Hx.
  rewrite aset_nat by lia. rewrite IH by (rewrite length_insert; lia). f_equal.
  assert (take (S j) (<[j := x]> slots) = take j slots ++ [x]) as ->.
  { erewrite take_S_r; [|apply list_lookup_insert_eq; lia]. by rewrite take_insert_ge by lia. }
  rewrite !drop_insert_lt by lia. rewrite <-app_assoc. f_equal.
  rewrite (drop_S slots x (S j)) by done. simpl.
  replace (j + S n)%nat with (S (j + n)) by lia. done.
Qed.

Lemma remove_at_ok i m :
  mlq_ok m → (Z.of_nat i ≤ q_c m) →
  ∃ m', remove_at (Z.of_nat i) m = Some m' ∧ mlq_ok m' ∧
        live m' = delete i (live m) ∧ q_c m' = q_c m - 1.
Proof.
  intros Hok Hi. pose proof (length_live m Hok) as Hlen. destruct Hok as [Hl Hr].
  unfold NQUEUE in *. unfold remove_at.
  rewrite shift_spec by lia. eexists. split; [done|].
  set (n := Z.to_nat (q_c m - Z.of_nat i)).
  set (t := drop (Z.to_nat (q_c m + 1)) (q_slot m)).
  assert (Hlive : length (live m) = S (i + n)) by lia.
  split; [|split; [|done]].
  - split; simpl; [|unfold NQUEUE; lia].
    rewrite !length_app, !length_take, !length_drop, Hl. unfold NQUEUE. lia.
  - apply (live_intro _ _ (drop (i + n) (q_slot m))).
    + simpl. rewrite app_assoc. f_equal. rewrite delete_take_drop. f_equal.
      * rewrite (live_app_slots m), take_app_le by lia. done.
      * rewrite (live_app_slots m), drop_app_le by lia.
        rewrite take_app_le by (rewrite length_drop; lia).
        apply take_ge. rewrite length_drop. lia.
    + simpl. rewrite length_delete by (apply lookup_lt_is_Some_2; lia). lia.
Qed.

(** What [rem_process] does to a queue: it drops matching entries, but the
    entry right after a dropped one is kept unexamined. *)
Fixpoint rem_skip (f : option nat → bool) (l : list (option nat)) : list (option nat) :=
  match l with
  | [] => []
  | e :: l' =>
      if f e then match l' with [] => [] | e2 :: l'' => e2 :: rem_skip f l'' end
      else e :: rem_skip f l'
  end.

Definition has_pid (ps : list proc) (pid : Z) (e : option nat) : bool :=
  match e with
  | Some x => match ps !! x with Some p => p_pid p =? pid | None => false end
  | None => false
  end.

(** Every entry of the queue points to a process. *)
Definition entries_ok (ps : list proc) (l : list (option nat)) : Prop :=
  Forall (λ e, ∃ x p, e = Some x ∧ ps !! x = Some p) l.

Lemma rem_skip_ind (f : option nat → bool) (P : list (option nat) → Prop) :
  P [] →
  (∀ e l, f e = false → P l → P (e :: l)) →
  (∀ e, f e = true → P [e]) →
  (∀ e e2 l, f e = true → P l → P (e :: e2 :: l)) →
  ∀ l, P l.
Proof.
  intros Hnil Hno H1 H2 l. remember (length l) as n eqn:Hn. revert l Hn.
  induction (lt_wf n) as [n _ IH]. intros [|e l] ->; [done|].
  destruct (f e) eqn:E.
  - destruct l as [|e2 l]; [by apply H1|]. apply H2; [done|]. eapply IH; [|done]. simpl; lia.
  - apply Hno; [done|]. eapply IH; [|done]. simpl; lia.
Qed.

(** One iteration on a matching entry. *)
Lemma rem_loop_hit ps pid fuel m pre x rest :
  mlq_ok m → live m = pre ++ Some x :: rest → has_pid ps pid (Some x) = true →
  ∃ m', rem_loop ps pid (S fuel) (Z.of_nat (length pre)) m =
          rem_loop ps pid fuel (Z.of_nat (S (length pre))) m' ∧
        mlq_ok m' ∧ live m' = pre ++ rest.
Proof.
  intros Hok Hlive He. pose proof (length_live m Hok) as Hl.
  rewrite Hlive, length_app in Hl. simpl in Hl.
  assert (aget (q_slot m) (Z.of_nat (length pre)) = Some (Some x)) as Hg.
  { rewrite aget_nat, (live_app_slots m), Hlive, <-app_assoc. by apply list_lookup_middle. }
  destruct (remove_at_ok (length pre) m Hok) as (m' & Hr & Hok' & Hlive' & _); [lia|].
  exists m'. split; [|split; [done|]].
  - cbn [rem_loop]. destruct (Z.leb_spec (Z.of_nat (length pre)) (q_c m)); [|lia].
    rewrite Hg. simpl in He. destruct (ps !! x); [|done]. rewrite He, Hr.
    f_equal. lia.
  - by rewrite Hlive', Hlive, delete_middle.
Qed.

Lemma rem_loop_end ps pid fuel m i :
  mlq_ok m → q_c m < i → rem_loop ps pid fuel i m = Some m.
Proof. intros Hok Hi. destruct fuel; simpl; [done|]. by destruct (Z.leb_spec i (q_c m)); [lia|]. Qed.

Lemma rem_loop_miss ps pid fuel m pre x rest p :
  mlq_ok m → live m = pre ++ Some x :: rest → ps !! x = Some p → p_pid p ≠ pid →
  rem_loop ps pid (S fuel) (Z.of_nat (length pre)) m =
  rem_loop ps pid fuel (Z.of_nat (S (length pre))) m.
Proof.
  intros Hok Hlive Hx He. pose proof (length_live m Hok) as Hl.
  rewrite Hlive, length_app in Hl. simpl in Hl.
  assert (aget (q_slot m) (Z.of_nat (length pre)) = Some (Some x)) as Hg.
  { rewrite aget_nat, (live_app_slots m), Hlive, <-app_assoc. by apply list_lookup_middle. }
  cbn [rem_loop]. destruct (Z.leb_spec (Z.of_nat (length pre)) (q_c m)); [|lia].
  rewrite Hg, Hx. destruct (Z.eqb_spec (p_pid p) pid); [done|]. f_equal. lia.
Qed.

Lemma rem_loop_ok ps pid fuel m pre rest :
  mlq_ok m → live m = pre ++ rest → entries_ok ps rest → (length rest ≤ fuel)%nat →
  ∃ m', rem_loop ps pid fuel (Z.of_nat (length pre)) m = Some m' ∧ mlq_ok m' ∧
        live m' = pre ++ rem_skip (has_pid ps pid) rest.
Proof.
  revert fuel m pre. induction rest as [|e rest He IH|e He|e e2 rest He IH] using
    (rem_skip_ind (has_pid ps pid)); intros fuel m pre Hok Hlive Hent Hf.
  - exists m. pose proof (length_live m Hok) as Hl. rewrite Hlive, app_nil_r in Hl.
    split; [apply rem_loop_end; [done|lia]|done].
  - destruct fuel as [|fuel]; simpl in Hf; [lia|].
    apply Forall_cons in Hent as [(x & p & -> & Hx) Hent].
    assert (p_pid p ≠ pid) by (simpl in He; rewrite Hx in He; by apply Z.eqb_neq).
    erewrite rem_loop_miss by done.
    destruct (IH fuel m (pre ++ [Some x])) as (m' & Hr & Hok' & Hlive'); [done|..|done|lia|].
    { rewrite Hlive, <-app_assoc. done. }
    exists m'. rewrite length_app, Nat.add_comm in Hr. split; [done|]. split; [done|].
    rewrite Hlive', <-app_assoc. cbn [rem_skip]. by rewrite He.
  - destruct fuel as [|fuel]; simpl in Hf; [lia|].
    apply Forall_cons in Hent as [(x & p & -> & Hx) Hent].
    destruct (rem_loop_hit ps pid fuel m pre x [] Hok Hlive He) as (m' & -> & Hok' & Hlive').
    exists m'. pose proof (length_live m' Hok') as Hl. rewrite Hlive', app_nil_r in Hl.
    split; [apply rem_loop_end; [done|lia]|]. split; [done|].
    cbn [rem_skip]. by rewrite He.
  - destruct fuel as [|[|fuel]]; simpl in Hf; [lia..|].
    apply Forall_cons in Hent as [(x & p & -> & Hx) Hent].
    apply Forall_cons in Hent as [He2 Hent].
    destruct (rem_loop_hit ps pid (S fuel) m pre x (e2 :: rest) Hok Hlive He)
      as (m' & -> & Hok' & Hlive').
    destruct (IH (S fuel) m' (pre ++ [e2])) as (m2 & Hr & Hok2 & Hlive2); [done|..|done|lia|].
    { rewrite Hlive', <-app_assoc. done. }
    exists m2. rewrite length_app, Nat.add_comm in Hr. split; [done|]. split; [done|].
    rewrite Hlive2, <-app_assoc. cbn [rem_skip]. by rewrite He.
Qed.

(** With at most one matching entry the skip does not matter. *)
Lemma rem_skip_nomatch f l : (∀ e, e ∈ l → f e = false) → rem_skip f l = l.
Proof.
  induction l as [|e l IH]; intros H; [done|]. cbn [rem_skip].
  rewrite (H e) by left. f_equal. apply IH. intros x Hx. apply H. by right.
Qed.

Lemma rem_skip_once f pre e post :
  f e = true → (∀ x, x ∈ pre ++ post → f x = false) →
  rem_skip f (pre ++ e :: post) = pre ++ post.
Proof.
  intros He. induction pre as [|a pre IH]; intros Hn.
  - cbn [rem_skip app]. rewrite He. destruct post as [|e2 post]; [done|]. f_equal.
    apply rem_skip_nomatch. intros x Hx. apply Hn. simpl. by right.
  - cbn [rem_skip app]. rewrite (Hn a) by (simpl; left). f_equal. apply IH.
    intros x Hx. apply Hn. simpl. by right.
Qed.

(** [rem_process] as a state transformer. *)
Lemma rem_process_ret pid q m k :
  (q < 5)%nat → k_queue k !! q = Some m → mlq_ok m → entries_ok (k_proc k) (live m) →
  ∃ m', rem_process pid (Z.of_nat q) k =
          Ret tt (k <| k_queue := <[q := m']> (k_queue k) |>) ∧
        mlq_ok m' ∧ live m' = rem_skip (has_pid (k_proc k) pid) (live m).
Proof.
  intros Hq Hm Hok Hent.
  destruct (rem_loop_ok (k_proc k) pid (Z.to_nat (q_c m + 1)) m [] (live m))
    as (m' & Hr & Hok' & Hlive'); [done|done|done| |].
  { pose proof (length_live m Hok). lia. }
  exists m'. split; [|done]. unfold rem_process.
  destruct (Z.leb_spec 0 (Z.of_nat q)), (Z.leb_spec (Z.of_nat q) 4); try lia. simpl.
  rewrite Nat2Z.id. unfold get_queue, bind, gets, get_or. rewrite Hm. unfold ret.
  change (Z.of_nat (length [])) with 0 in Hr. rewrite Hr. done.
Qed.

End Mlq.
Export Mlq.
