(* ===== verification/Proc.v ===== *)
(** * Proc: the process table ([proc.c], and [sysproc.c]'s view of it)

    Creation, sleeping and waking, exiting and waiting, and the system calls
    that inspect or change the table.  A function that gives up the processor
    ends in [Switch]; what it does when it is scheduled again is the function
    named [..._resume]. *)
From S2P Require Import Prelude.
From S2P Require Import Mem.
From S2P Require Import Str.
From S2P Require Import State.
From S2P Require Import Spin.
From S2P Require Import Cons.
From S2P Require Import Kalloc.
From S2P Require Import Vm.
From S2P Require Import Mlq.

Module Proc.

Definition TF_SIZE : Z := 76.       (* sizeof(struct trapframe) *)
Definition CONTEXT_SIZE : Z := 20.  (* sizeof(struct context) *)
Definition CTX_EIP : Z := 16.       (* offset of eip in struct context *)

Definition get_proc (i : nat) : K proc :=
  ps ← gets k_proc; get_or "ptable.proc" (ps !! i).
Definition upd_proc (i : nat) (f : proc → proc) : K unit :=
  modify (λ k, k <| k_proc := alter f i (k_proc k) |>).

(** The current process, which the caller dereferences. *)
Definition curproc : K nat := p ← myproc; get_or "myproc() is null" p.

(** ** Creation *)

Definition is_unused (p : proc) : bool := bool_decide (p_state p = UNUSED).

(** [found:] give the slot a pid and a place in queue 0; the lock is held. *)
Definition claim_slot (i : nat) : K unit :=
  upd_proc i (λ p, p <| p_state := EMBRYO |>) ;;
  pid ← gets k_nextpid;
  modify (λ k, k <| k_nextpid := s32 (pid + 1) |>) ;;
  upd_proc i (λ p, p <| p_pid := pid |> <| p_current_queue := 0 |>
                     <| p_ticks := [0; 0; 0; 0; 0] |> <| p_waittime := 5 |>) ;;
  push_queue 0 i.

(** Lay out the kernel stack at [kst]: room for the trap frame, the return
    address [trapret], and a context that starts executing at [forkret]. *)
Definition setup_kstack (i : nat) (kst : Z) : K unit :=
  let sp := kst + KSTACKSIZE - TF_SIZE in
  upd_proc i (λ p, p <| p_tf := sp |>) ;;
  let sp := sp - 4 in
  trapret ← gets k_trapret;
  store sp trapret ;;
  let sp := sp - CONTEXT_SIZE in
  upd_proc i (λ p, p <| p_context := sp |>) ;;
  kmemset sp 0 CONTEXT_SIZE ;;
  forkret ← gets k_forkret;
  store (sp + CTX_EIP) forkret.

(** The accounting fields. *)
Definition stamp_proc (i : nat) : K unit :=
  acquire LPtable ;;
  ticks ← gets k_ticks;
  upd_proc i (λ p, p <| p_ctime := s32 ticks |> <| p_etime := 0 |> <| p_rtime := 0 |>
                     <| p_iotime := 0 |> <| p_num_run := 0 |>) ;;
  release LPtable ;;
  upd_proc i (λ p, p <| p_priority :=
                        if (p_pid p =? 1) || (p_pid p =? 2) then 1 else 60 |>).

Definition allocproc : K (option nat) :=
  acquire LPtable ;;
  ps ← gets k_proc;
  match find_first is_unused ps with
  | None => release LPtable ;; ret None
  | Some i =>
      claim_slot i ;;
      release LPtable ;;
      (* Allocate kernel stack. *)
      kst ← kalloc;
      upd_proc i (λ p, p <| p_kstack := kst |>) ;;
      if kst =? 0 then
        upd_proc i (λ p, p <| p_state := UNUSED |>) ;; ret None
      else
        setup_kstack i kst ;;
        stamp_proc i ;;
        ret (Some i)
  end.

(** Grow the current process's memory by [n] bytes. *)
Definition growproc (n : Z) : K Z :=
  i ← curproc;
  p ← get_proc i;
  let sz := p_sz p in
  if 0 <? n then
    sz' ← allocuvm (p_pgdir p) sz (u32 (sz + n));
    if sz' =? 0 then ret (-1)
    else upd_proc i (λ p, p <| p_sz := sz' |>) ;; switchuvm (Some i) ;; ret 0
  else if n <? 0 then
    sz' ← deallocuvm (p_pgdir p) sz (u32 (sz + n));
    if sz' =? 0 then ret (-1)
    else upd_proc i (λ p, p <| p_sz := sz' |>) ;; switchuvm (Some i) ;; ret 0
  else
    upd_proc i (λ p, p <| p_sz := sz |>) ;; switchuvm (Some i) ;; ret 0.

(** ** Giving up the processor *)

(** [sched] up to its [swtch]. *)
Definition sched : K unit :=
  i ← curproc;
  h ← holding LPtable;
  if negb h then panic "sched ptable.lock"
  else
    ci ← mycpu; c ← get_cpu ci;
    if negb (c_ncli c =? 1) then panic "sched locks"
    else
      p ← get_proc i;
      if bool_decide (p_state p = RUNNING) then panic "sched running"
      else
        eflags ← readeflags;
        if truthy (Z.land eflags FL_IF) then panic "sched interruptible"
        else swtch.
(** [mycpu()->intena = intena], once the process runs again. *)
Definition sched_resume (intena : Z) : K unit :=
  ci ← mycpu; upd_cpu ci (λ c, c <| c_intena := intena |>).

Definition yield : K unit :=
  acquire LPtable ;;
  i ← curproc;
  upd_proc i (λ p, p <| p_state := RUNNABLE |>) ;;
  ticks ← gets k_ticks;
  upd_proc i (λ p, p <| p_start := s32 ticks |>) ;;
  sched.
Definition yield_resume (intena : Z) : K unit :=
  sched_resume intena ;; release LPtable.

(** The statements by which process [i] goes to sleep on [ch], in the order in
    which another processor can see their effects. *)
Definition sleep_steps (i : nat) (ch : chan) (lk : lockid) : list (K unit) :=
  (if bool_decide (lk ≠ LPtable) then [acquire LPtable; release lk] else []) ++
  [upd_proc i (λ p, p <| p_chan := Some ch |>);
   upd_proc i (λ p, p <| p_state := SLEEPING |>)].

(** Atomically release [lk] and sleep on [ch]. *)
Definition sleep (ch : chan) (lk : lockid) : K unit :=
  p ← myproc;
  match p with
  | None => panic "sleep"
  | Some i => for_each (sleep_steps i ch lk) id ;; sched
  end.
Definition sleep_resume (i : nat) (intena : Z) (lk : lockid) : K unit :=
  sched_resume intena ;;
  upd_proc i (λ p, p <| p_chan := None |>) ;;
  when (bool_decide (lk ≠ LPtable)) (release LPtable ;; acquire lk).

(** Wake up all processes sleeping on [ch].  The ptable lock must be held. *)
Definition wakeup1 (ch : option chan) : K unit :=
  for_each (seq 0 NPROC) (λ i,
    p ← get_proc i;
    when (bool_decide (p_state p = SLEEPING) && bool_decide (p_chan p = ch))
      (upd_proc i (λ p, p <| p_state := RUNNABLE |>) ;;
       ticks ← gets k_ticks;
       upd_proc i (λ p, p <| p_start := s32 ticks |>))).

Definition wakeup (ch : chan) : K unit :=
  acquire LPtable ;; wakeup1 (Some ch) ;; release LPtable.

(** ** Exit and wait *)

(** A process pointer used as a sleep channel. *)
Definition proc_chan (o : option nat) : option chan := ChProc <$> o.

(** The part of [exit] that runs under the ptable lock: wake the parent, pass
    abandoned children to init, become a zombie and jump into the scheduler. *)
Definition exit_ptable (me : nat) : K unit :=
  acquire LPtable ;;
  p ← get_proc me;
  wakeup1 (proc_chan (p_parent p)) ;;
  for_each (seq 0 NPROC) (λ i,
    p ← get_proc i;
    when (bool_decide (p_parent p = Some me))
      (init ← gets k_initproc;
       upd_proc i (λ p, p <| p_parent := init |>) ;;
       p ← get_proc i;
       when (bool_decide (p_state p = ZOMBIE)) (wakeup1 (proc_chan init)))) ;;
  upd_proc me (λ p, p <| p_state := ZOMBIE |>) ;;
  ticks ← gets k_ticks;
  upd_proc me (λ p, p <| p_etime := s32 ticks |>) ;;
  sched ;;
  panic "zombie exit".

(** [p->name[0] = 0] *)
Definition clear_name (p : proc) : proc := p <| p_name := <[0%nat := 0]> (p_name p) |>.

(** [wait] on a zombie child [i]. *)
Definition reap (i : nat) : K Z :=
  p ← get_proc i;
  let pid := p_pid p in
  kfree (p_kstack p) ;;
  upd_proc i (λ p, p <| p_kstack := 0 |>) ;;
  freevm (p_pgdir p) ;;
  pol ← gets k_policy;
  when (bool_decide (pol = MLFQ)) (rem_process (p_pid p) (p_current_queue p)) ;;
  upd_proc i (λ p, clear_name (p <| p_pid := 0 |> <| p_parent := None |>)) ;;
  upd_proc i (λ p, p <| p_killed := 0 |> <| p_state := UNUSED |>) ;;
  release LPtable ;;
  ret pid.

(** One scan of the table by [wait]: the first zombie child, and whether there
    are children at all. *)
Fixpoint scan_children (me : nat) (ps : list proc) (i : nat) (havekids : bool) :
    option nat * bool :=
  match ps with
  | [] => (None, havekids)
  | p :: ps' =>
      if bool_decide (p_parent p = Some me) then
        if bool_decide (p_state p = ZOMBIE) then (Some i, true)
        else scan_children me ps' (S i) true
      else scan_children me ps' (S i) havekids
  end.

(** The body of the [for(;;)] of [wait], with the ptable lock held. *)
Definition wait_loop (me : nat) : K Z :=
  ps ← gets k_proc;
  match scan_children me ps 0 false with
  | (Some i, _) => reap i
  | (None, havekids) =>
      p ← get_proc me;
      if negb havekids || truthy (p_killed p) then release LPtable ;; ret (-1)
      else sleep (ChProc me) LPtable ;; ret 0
  end.
Definition wait : K Z :=
  me ← curproc; acquire LPtable ;; wait_loop me.
Definition wait_resume (me : nat) (intena : Z) : K Z :=
  sleep_resume me intena LPtable ;; wait_loop me.

(** [waitx] also reports the child's waiting and running time. *)
Definition reapx (i : nat) : K (Z * option (Z * Z)) :=
  p ← get_proc i;
  cprintf (NL +:+ "etime %d  ctime %d    rtime %d    iotime %d " +:+ NL)
    [CInt (p_etime p); CInt (p_ctime p); CInt (p_rtime p); CInt (p_iotime p)] ;;
  let wtime := s32 (p_etime p - p_ctime p - p_rtime p - p_iotime p) in
  let rtime := p_rtime p in
  let pid := p_pid p in
  kfree (p_kstack p) ;;
  upd_proc i (λ p, p <| p_kstack := 0 |>) ;;
  freevm (p_pgdir p) ;;
  upd_proc i (λ p, p <| p_state := UNUSED |>) ;;
  upd_proc i (λ p, clear_name (p <| p_pid := 0 |> <| p_parent := None |>)) ;;
  upd_proc i (λ p, p <| p_killed := 0 |>) ;;
  release LPtable ;;
  ret (pid, Some (wtime, rtime)).
Definition waitx_loop (me : nat) : K (Z * option (Z * Z)) :=
  ps ← gets k_proc;
  match scan_children me ps 0 false with
  | (Some i, _) => reapx i
  | (None, havekids) =>
      p ← get_proc me;
      if negb havekids || truthy (p_killed p) then release LPtable ;; ret (-1, None)
      else sleep (ChProc me) LPtable ;; ret (0, None)
  end.
Definition waitx : K (Z * option (Z * Z)) :=
  me ← curproc; acquire LPtable ;; waitx_loop me.
Definition waitx_resume (me : nat) (intena : Z) : K (Z * option (Z * Z)) :=
  sleep_resume me intena LPtable ;; waitx_loop me.

(** ** System calls on the table *)

Definition kill (pid : Z) : K Z :=
  acquire LPtable ;;
  ps ← gets k_proc;
  match find_first (λ p, p_pid p =? pid) ps with
  | Some i =>
      upd_proc i (λ p, p <| p_killed := 1 |>) ;;
      p ← get_proc i;
      when (bool_decide (p_state p = SLEEPING))
        (ticks ← gets k_ticks;
         upd_proc i (λ p, p <| p_start := s32 ticks |> <| p_state := RUNNABLE |>)) ;;
      release LPtable ;;
      ret 0
  | None => release LPtable ;; ret (-1)
  end.

Record proc_stat := mkProcStat {
  st_pid : Z; st_runtime : Z; st_num_run : Z; st_current_queue : Z; st_ticks : list Z
}.

(** [getpinfo]: the fields it stores through its pointer, and its result. *)
Definition getpinfo (pid : Z) : K (option proc_stat * Z) :=
  acquire LPtable ;;
  ps ← gets k_proc;
  match find_first (λ p, p_pid p =? pid) ps with
  | Some i =>
      p ← get_proc i;
      release LPtable ;;
      ret (Some (mkProcStat (p_pid p) (p_rtime p) (p_num_run p) (p_current_queue p)
                            (take 5 (p_total_ticks p))), pid)
  | None => release LPtable ;; ret (None, -1)
  end.

(** The string in [p->name]. *)
Definition proc_name (p : proc) : list Z := Str.cut 16 (p_name p).

(** A line of [ps]. *)
Definition ps_line (st : string) (p : proc) : K unit :=
  cprintf ("%s " +:+ TAB +:+ " %d " +:+ TAB +:+ " " +:+ st +:+ " " +:+ TAB +:+ " %d " +:+ TAB +:+
           " %d " +:+ TAB +:+ " " +:+ NL)
    [CStr (proc_name p); CInt (p_pid p); CInt (p_priority p); CInt (p_ctime p)].
Definition ps : K Z :=
  sti ;;
  acquire LPtable ;;
  cprintf ("name " +:+ TAB +:+ " pid " +:+ TAB +:+ " stat " +:+ TAB +:+ "    priority " +:+ TAB +:+
           "   ctime " +:+ TAB +:+ "  " +:+ NL) [] ;;
  for_each (seq 0 NPROC) (λ i,
    p ← get_proc i;
    match p_state p with
    | SLEEPING => ps_line "SLEEPING" p
    | RUNNING => ps_line "RUNNING" p
    | RUNNABLE => ps_line "RUNNABLE" p
    | _ => ret tt
    end) ;;
  release LPtable ;;
  ret 24.

Definition set_priority (pid priority : Z) : K Z :=
  sti ;;
  if (priority <? 0) || (100 <? priority) then ret (-2)
  else
    acquire LPtable ;;
    ps ← gets k_proc;
    match find_first (λ p, p_pid p =? pid) ps with
    | Some i =>
        upd_proc i (λ p, p <| p_priority := priority |>) ;;
        release LPtable ;;
        ret 24
    | None => release LPtable ;; ret (-1)
    end.

End Proc.
Export Proc.
