(* ===== verification/ProcSpec.v ===== *)
(** * ProcSpec: what the operations on the process table do

    Functional specifications of the operations of [Proc] on every branch, for
    a processor that can take the table's lock. *)
From S2P Require Import Prelude.
From S2P Require Import Mem.
From S2P Require Import Str.
From S2P Require Import State.
From S2P Require Import Spin.
From S2P Require Import Cons.
From S2P Require Import Kalloc.
From S2P Require Import Vm.
From S2P Require Import Frame.
From S2P Require Import Mlq.
From S2P Require Import Proc.

(** The table's lock can be taken by processor [i]. *)
Record table_ready (k : kernel) (i : nat) (c : cpu) : Prop := {
  tr_cpu : on_cpu k i c;
  tr_lock : lock_free LPtable k;
  tr_len : length (k_proc k) = NPROC
}.

(** ** Critical sections in assertions *)

Lemma on_cpu_ext k k' i c :
  on_cpu k i c → k_cpus k' = k_cpus k → k_eflags k' = k_eflags k →
  k_lapicid k' = k_lapicid k → on_cpu k' i c.
Proof. intros [H1 H2 H3 H4 H5] Hc He Hl. split; rewrite ?Hc, ?He, ?Hl; done. Qed.

Lemma wp_acquire l k i c Q :
  on_cpu k i c → lock_free l k → Q tt (locked_by l i c k) → wp (acquire l) Q k.
Proof. intros Hoc Hl HQ. eapply wp_of_eq; [by apply acquire_ret|done]. Qed.

Lemma wp_release l k i c k1 Q :
  on_cpu k i c → lock_free l k →
  k_cpus k1 = k_cpus (pushed i c k) → k_eflags k1 = k_eflags (pushed i c k) →
  k_lapicid k1 = k_lapicid k → k_locks k1 = <[l := held i]> (k_locks k) →
  Q tt (unlocked_from k k1) → wp (release l) Q k1.
Proof. intros ??????. eapply wp_of_eq; [by eapply release_ret]. Qed.

Lemma wp_get_proc k i p (Q : proc → kernel → Prop) :
  k_proc k !! i = Some p → Q p k → wp (get_proc i) Q k.
Proof. intros H HQ. unfold get_proc, wp, bind, gets. by rewrite H. Qed.

Lemma wp_upd_proc k i f p (Q : unit → kernel → Prop) :
  k_proc k !! i = Some p → Q tt (k <| k_proc := <[i := f p]> (k_proc k) |>) →
  wp (upd_proc i f) Q k.
Proof. intros H HQ. unfold upd_proc, wp, modify. by rewrite (alter_lookup _ _ _ _ H). Qed.

(** ** Loops over the table *)

(** A loop that rewrites each entry by [g] maps [g] over the table. *)
Lemma for_each_procs (f : nat → K unit) (g : proc → proc) t k :
  (∀ i k p, k_ticks k = t → k_proc k !! i = Some p →
     f i k = Ret tt (k <| k_proc := <[i := g p]> (k_proc k) |>)) →
  k_ticks k = t →
  for_each (seq 0 (length (k_proc k))) f k = Ret tt (k <| k_proc := g <$> k_proc k |>).
Proof.
  intros Hf Ht.
  assert (∀ post pre k, k_ticks k = t → k_proc k = pre ++ post →
    for_each (seq (length pre) (length post)) f k =
    Ret tt (k <| k_proc := pre ++ (g <$> post) |>)) as Hgen.
  { induction post as [|p post IH]; intros pre k' Ht' Hk; simpl.
    - rewrite app_nil_r in *. subst pre. by destruct k'.
    - erewrite bind_ret_eq; [|apply Hf; [done|by rewrite Hk, list_lookup_middle]].
      rewrite Hk. replace (<[length pre := g p]> (pre ++ p :: post)) with ((pre ++ [g p]) ++ post).
      2: { rewrite <-app_assoc. simpl. rewrite insert_app_r_alt, Nat.sub_diag by lia. done. }
      replace (S (length pre)) with (length (pre ++ [g p])) by (rewrite length_app; simpl; lia).
      rewrite IH; [|done|done]. simpl. by rewrite <-app_assoc. }
  by apply (Hgen (k_proc k) [] k).
Qed.

(** [wakeup1] maps this over the table. *)
Definition wake (ch : option chan) (t : Z) (p : proc) : proc :=
  if bool_decide (p_state p = SLEEPING) && bool_decide (p_chan p = ch)
  then p <| p_state := RUNNABLE |> <| p_start := s32 t |> else p.

Lemma proc_insert_id k i p :
  k_proc k !! i = Some p → k <| k_proc := <[i := p]> (k_proc k) |> = k.
Proof. intros H. rewrite list_insert_id by done. by destruct k. Qed.

Lemma wakeup1_ret ch k :
  length (k_proc k) = NPROC →
  wakeup1 ch k = Ret tt (k <| k_proc := wake ch (k_ticks k) <$> k_proc k |>).
Proof.
  intros Hl. unfold wakeup1. rewrite <-Hl.
  apply (for_each_procs _ _ (k_ticks k)); [|done].
  intros i k1 p Ht Hp. unfold get_proc, bind at 1 2, gets at 1. rewrite Hp. simpl.
  unfold wake. destruct (_ && _); simpl; [|exact (f_equal (Ret tt) (eq_sym (proc_insert_id k1 i p Hp)))].
  unfold bind, upd_proc, gets, modify. simpl. rewrite Ht.
  rewrite (alter_lookup _ _ _ _ Hp).
  rewrite (alter_lookup _ _ _ (p <| p_state := RUNNABLE |>))
    by (apply list_lookup_insert_eq; by eapply lookup_lt_Some).
  by rewrite list_insert_insert_eq.
Qed.

Lemma wakeup_ret ch k i c :
  table_ready k i c →
  wakeup ch k = Ret tt (k <| k_proc := wake (Some ch) (k_ticks k) <$> k_proc k |>).
Proof.
  intros [Hoc Hl Hlen]. unfold wakeup.
  erewrite bind_ret_eq; [|by apply acquire_ret].
  erewrite bind_ret_eq; [|by apply wakeup1_ret].
  erewrite (release_ret LPtable k i c) by done. by destruct k.
Qed.

(** ** Creation *)

(** What [allocproc] leaves in the slot it takes, step by step. *)
Definition claimed_proc (pid : Z) (p : proc) : proc :=
  p <| p_state := EMBRYO |> <| p_pid := pid |> <| p_current_queue := 0 |>
    <| p_ticks := [0; 0; 0; 0; 0] |> <| p_waittime := 5 |>.
Definition framed_proc (kst : Z) (p : proc) : proc :=
  p <| p_tf := kst + KSTACKSIZE - TF_SIZE |>
    <| p_context := kst + KSTACKSIZE - TF_SIZE - 4 - CONTEXT_SIZE |>.
Definition stamped_proc (t : Z) (p : proc) : proc :=
  p <| p_ctime := s32 t |> <| p_etime := 0 |> <| p_rtime := 0 |> <| p_iotime := 0 |>
    <| p_num_run := 0 |>
    <| p_priority := if (p_pid p =? 1) || (p_pid p =? 2) then 1 else 60 |>.
Definition new_proc (pid kst t : Z) (p : proc) : proc :=
  stamped_proc t (framed_proc kst (claimed_proc pid p <| p_kstack := kst |>)).

(** The kernel stack [setup_kstack] builds. *)
Definition framed_mem (trapret forkret kst : Z) (m : mem) : mem :=
  let ctx := kst + KSTACKSIZE - TF_SIZE - 4 - CONTEXT_SIZE in
  st32 (memset (st32 m (kst + KSTACKSIZE - TF_SIZE - 4) trapret) ctx 0 CONTEXT_SIZE)
    (ctx + CTX_EIP) forkret.

Lemma unlocked_locked l k i c : unlocked_from k (locked_by l i c k) = k.
Proof. by destruct k. Qed.

Lemma wp_push_queue k q p m m' (Q : unit → kernel → Prop) :
  k_queue k !! q = Some m → push p m = Some m' →
  Q tt (k <| k_queue := <[q := m']> (k_queue k) |>) → wp (push_queue q p) Q k.
Proof.
  intros Hm Hp HQ. unfold push_queue, get_queue, wp, bind, gets, get_or. rewrite Hm.
  unfold ret. by rewrite Hp.
Qed.

Lemma allocproc_full k i c :
  table_ready k i c → find_first is_unused (k_proc k) = None → allocproc k = Ret None k.
Proof.
  intros [Hoc Hl Hlen] Hn. unfold allocproc.
  erewrite bind_ret_eq; [|by apply acquire_ret].
  unfold bind at 1, gets at 1. simpl. rewrite Hn.
  erewrite bind_ret_eq; [|by apply (release_ret LPtable k i c)].
  unfold ret. by rewrite unlocked_locked.
Qed.

Lemma claim_slot_ret k j p m m' :
  k_proc k !! j = Some p → k_queue k !! 0%nat = Some m → push j m = Some m' →
  claim_slot j k = Ret tt
    (k <| k_nextpid := s32 (k_nextpid k + 1) |>
       <| k_queue := <[0%nat := m']> (k_queue k) |>
       <| k_proc := <[j := claimed_proc (k_nextpid k) p]> (k_proc k) |>).
Proof.
  intros Hp Hm Hpush. assert (j < length (k_proc k))%nat by by eapply lookup_lt_Some.
  unfold claim_slot, upd_proc, push_queue, get_queue, set_queue, bind, gets, modify, get_or, ret.
  simpl. rewrite (alter_lookup _ _ _ _ Hp), alter_insert_same by done. by rewrite Hm, Hpush.
Qed.

Lemma setup_kstack_ret k j p kst :
  k_proc k !! j = Some p →
  setup_kstack j kst k = Ret tt
    (k <| k_mem := framed_mem (k_trapret k) (k_forkret k) kst (k_mem k) |>
       <| k_proc := <[j := framed_proc kst p]> (k_proc k) |>).
Proof.
  intros Hp. assert (j < length (k_proc k))%nat by by eapply lookup_lt_Some.
  unfold setup_kstack, upd_proc, store, kmemset, bind, gets, modify. simpl.
  by rewrite (alter_lookup _ _ _ _ Hp), alter_insert_same.
Qed.

Lemma stamp_proc_ret k i c j p :
  on_cpu k i c → lock_free LPtable k → k_proc k !! j = Some p →
  stamp_proc j k = Ret tt (k <| k_proc := <[j := stamped_proc (k_ticks k) p]> (k_proc k) |>).
Proof.
  intros Hoc Hl Hp. assert (j < length (k_proc k))%nat by by eapply lookup_lt_Some.
  unfold stamp_proc. erewrite bind_ret_eq by by apply acquire_ret.
  unfold bind at 1, gets at 1. unfold bind at 1, upd_proc at 1, modify at 1.
  erewrite bind_ret_eq by by apply (release_ret LPtable k i c).
  unfold upd_proc, modify. simpl.
  by rewrite (alter_lookup _ _ _ _ Hp), alter_insert_same.
Qed.

Section allocproc.
Context (k : kernel) (i : nat) (c : cpu) (j : nat) (p : proc) (m m' : mlq).
Context (Hready : table_ready k i c) (Hkm : kmem_ready k).
Context (Hj : find_first is_unused (k_proc k) = Some j) (Hp : k_proc k !! j = Some p).
Context (Hm : k_queue k !! 0%nat = Some m) (Hpush : push j m = Some m').

(** The state when [allocproc] calls [kalloc]. *)
Definition claimed : kernel :=
  k <| k_nextpid := s32 (k_nextpid k + 1) |>
    <| k_queue := <[0%nat := m']> (k_queue k) |>
    <| k_proc := <[j := claimed_proc (k_nextpid k) p]> (k_proc k) |>.

(** Out of memory: the slot is unused again, but [nextpid] and the queue have
    moved on. *)
Definition unclaimed : kernel :=
  claimed <| k_proc := <[j := claimed_proc (k_nextpid k) p <| p_kstack := 0 |>
                                <| p_state := UNUSED |>]> (k_proc k) |>.

(** Success. *)
Definition allocated : kernel :=
  let kst := k_freelist k in
  claimed <| k_freelist := ld32 (k_mem k) kst |>
    <| k_mem := framed_mem (k_trapret k) (k_forkret k) kst (k_mem k) |>
    <| k_proc := <[j := new_proc (k_nextpid k) kst (k_ticks k) p]> (k_proc k) |>.

Lemma allocproc_ret :
  allocproc k = if k_freelist k =? 0 then Ret None unclaimed else Ret (Some j) allocated.
Proof.
  destruct Hready as [Hoc Hl Hlen].
  assert (j < length (k_proc k))%nat by by eapply lookup_lt_Some.
  unfold allocproc. erewrite bind_ret_eq by by apply acquire_ret.
  unfold bind at 1, gets at 1.
  change (k_proc (locked_by LPtable i c k)) with (k_proc k). rewrite Hj.
  erewrite bind_ret_eq by by eapply claim_slot_ret.
  erewrite bind_ret_eq by by apply (release_ret LPtable k i c).
  erewrite bind_ret_eq; [|apply kalloc_ret; by eapply kmem_ready_ext].
  change (k_freelist (unlocked_from _ _)) with (k_freelist k). unfold truthy.
  unfold bind at 1, upd_proc at 1, modify at 1.
  destruct (Z.eqb_spec (k_freelist k) 0) as [Hz|Hz]; cbv iota; cbn [negb].
  - unfold bind, upd_proc, modify, ret. simpl. rewrite !alter_insert_same by done.
    unfold unclaimed, claimed. simpl. by rewrite Hz.
  - erewrite bind_ret_eq.
    2: { apply setup_kstack_ret. simpl. rewrite alter_insert_same by done.
         by apply list_lookup_insert_eq. }
    erewrite bind_ret_eq.
    2: { eapply stamp_proc_ret; [by eapply (on_cpu_ext k)|done|]. simpl.
         apply list_lookup_insert_eq. by rewrite length_alter, length_insert. }
    unfold ret. simpl. rewrite !alter_insert_same, !list_insert_insert_eq by done. done.
Qed.
End allocproc.

(** ** Giving up the processor *)

Lemma curproc_ret k i c me : on_cpu k i c → c_proc c = Some me → curproc k = Ret me k.
Proof.
  intros Hoc Hme. unfold curproc. erewrite bind_ret_eq by by apply (myproc_ret k i c).
  by rewrite Hme.
Qed.

(** [sched] gives the processor away exactly when its four checks pass. *)
Lemma sched_switch k i c me p :
  on_cpu k i c → c_proc c = Some me → k_locks k !! LPtable = Some (held i) →
  c_ncli c = 1 → k_proc k !! me = Some p → p_state p ≠ RUNNING →
  sched k = Switch k.
Proof.
  intros Hoc Hme Hl Hn Hp Hs. unfold sched.
  assert (Z.land (k_eflags k) FL_IF = 0) as Hoff by (apply (oc_off _ _ _ Hoc); lia).
  erewrite bind_ret_eq; [|by eapply curproc_ret].
  erewrite bind_ret_eq; [|by eapply holding_ret]. simpl.
  rewrite bool_decide_true by done. simpl.
  erewrite bind_ret_eq; [|by eapply mycpu_off].
  unfold get_cpu, get_proc, readeflags, bind, gets, get_or, swtch.
  rewrite (oc_cpu _ _ _ Hoc). unfold ret. rewrite Hn. simpl. rewrite Hp.
  rewrite bool_decide_false by done. by rewrite Hoff.
Qed.

(** Calling [sched] with another lock held panics. *)
Lemma sched_nested k i c me :
  on_cpu k i c → c_proc c = Some me → k_locks k !! LPtable = Some (held i) →
  c_ncli c ≠ 1 → 0 < c_ncli c → sched k = Panic "sched locks".
Proof.
  intros Hoc Hme Hl Hn Hpos. unfold sched.
  erewrite bind_ret_eq; [|by eapply curproc_ret].
  erewrite bind_ret_eq; [|by eapply holding_ret]. simpl.
  rewrite bool_decide_true by done. simpl.
  erewrite bind_ret_eq; [|eapply mycpu_off; [done|by apply (oc_off _ _ _ Hoc)]].
  unfold get_cpu, bind, gets, get_or. rewrite (oc_cpu _ _ _ Hoc). unfold ret.
  by destruct (Z.eqb_spec (c_ncli c) 1).
Qed.

Lemma on_cpu_locked l k i c :
  on_cpu k i c → on_cpu (locked_by l i c k) i (c <| c_ncli := c_ncli c + 1 |>).
Proof. intros Hoc. by eapply on_cpu_ext; [by apply on_cpu_pushed|..]. Qed.
Lemma table_ready_locked l k i c :
  table_ready k i c → l ≠ LPtable → table_ready (locked_by l i c k) i (c <| c_ncli := c_ncli c + 1 |>).
Proof.
  intros [Hoc Hl Hlen] Hne. split; [by apply on_cpu_locked| |done].
  unfold lock_free in *. simpl. by rewrite lookup_insert_ne.
Qed.

(** [yield] with no lock held puts the process back in the run set and leaves
    with only the table's lock held. *)
Lemma yield_switch k i c me p :
  table_ready k i c → c_ncli c = 0 → c_proc c = Some me → k_proc k !! me = Some p →
  yield k = Switch (locked_by LPtable i c
    (k <| k_proc := <[me := p <| p_state := RUNNABLE |> <| p_start := s32 (k_ticks k) |>]> (k_proc k) |>)).
Proof.
  intros [Hoc Hl Hlen] Hn Hme Hp. unfold yield.
  assert (me < length (k_proc k))%nat by by eapply lookup_lt_Some.
  erewrite bind_ret_eq by by apply acquire_ret.
  erewrite bind_ret_eq by by eapply curproc_ret; [by apply on_cpu_locked|].
  unfold upd_proc, bind, modify, gets. simpl.
  rewrite (alter_lookup _ _ _ _ Hp), alter_insert_same by done.
  erewrite sched_switch; [by destruct k|by eapply on_cpu_ext; [by apply (on_cpu_locked LPtable k i c)|..]|done|..].
  - simpl. apply lookup_insert_eq.
  - simpl. lia.
  - simpl. by apply list_lookup_insert_eq.
  - done.
Qed.

Definition asleep (ch : chan) (p : proc) : proc :=
  p <| p_chan := Some ch |> <| p_state := SLEEPING |>.

(** [sleep] on the table's own lock. *)
Lemma sleep_ptable ch k i c me p :
  on_cpu k i c → c_ncli c = 1 → c_proc c = Some me → k_proc k !! me = Some p →
  k_locks k !! LPtable = Some (held i) →
  sleep ch LPtable k = Switch (k <| k_proc := <[me := asleep ch p]> (k_proc k) |>).
Proof.
  intros Hoc Hn Hme Hp Hl. unfold sleep, sleep_steps.
  assert (me < length (k_proc k))%nat by by eapply lookup_lt_Some.
  erewrite bind_ret_eq by by apply (myproc_ret k i c). rewrite Hme.
  rewrite bool_decide_false by naive_solver. cbn [app for_each]. unfold id.
  unfold upd_proc, bind, modify, ret. simpl.
  rewrite (alter_lookup _ _ _ _ Hp), alter_insert_same by done.
  eapply (sched_switch _ i c me (asleep ch p)); [by eapply (on_cpu_ext k)|done|done|done| |done]. simpl.
  by apply list_lookup_insert_eq.
Qed.

(** The machine after the first [n] statements of [sleep] on another lock [lk]
    than the table's: the table's lock is taken before [lk] is released. *)
Definition falling_asleep (n i : nat) (c : cpu) (me : nat) (p : proc) (ch : chan) (lk : lockid) (k : kernel) : kernel :=
  let k2 := k <| k_locks := <[lk := unlocked]> (<[LPtable := held i]> (k_locks k)) |> in
  match n with
  | 0%nat => k
  | 1%nat => locked_by LPtable i c k
  | 2%nat => k2
  | 3%nat => k2 <| k_proc := <[me := p <| p_chan := Some ch |>]> (k_proc k) |>
  | _ => k2 <| k_proc := <[me := asleep ch p]> (k_proc k) |>
  end.

Lemma sleep_steps_ret n ch lk k i c me p :
  on_cpu k i c → k_proc k !! me = Some p → lk ≠ LPtable → k_locks k !! lk = Some (held i) → lock_free LPtable k →
  for_each (take n (sleep_steps me ch lk)) id k = Ret tt (falling_asleep n i c me p ch lk k).
Proof.
  intros Hoc Hp Hne Hlk Hl. assert (me < length (k_proc k))%nat by by eapply lookup_lt_Some.
  assert (release lk (locked_by LPtable i c k) = Ret tt (falling_asleep 2 i c me p ch lk k)) as Hrel.
  { rewrite (release_pop lk k i c); [|done..|simpl; by rewrite lookup_insert_ne]. by destruct k. }
  unfold sleep_steps. rewrite bool_decide_true by done. cbn [app].
  destruct n as [|n]; [done|]. cbn [take for_each]. unfold id at 1.
  erewrite bind_ret_eq by by apply acquire_ret. destruct n as [|n]; [done|]. cbn [take for_each]. unfold id at 1.
  erewrite bind_ret_eq by exact Hrel.
  destruct n as [|n]; [done|]. cbn [take for_each]. unfold id at 1, bind at 1, upd_proc at 1, modify at 1. simpl.
  rewrite (alter_lookup _ _ _ _ Hp). destruct n as [|n]; [done|]. simpl.
  unfold id at 1, bind, upd_proc, modify. rewrite take_nil. simpl. by rewrite alter_insert_same.
Qed.

(** [sleep] on another lock [lk] leaves with [lk] released and the table's lock
    held instead. *)
Lemma sleep_switch ch lk k i c me p :
  on_cpu k i c → c_ncli c = 1 → c_proc c = Some me → k_proc k !! me = Some p →
  lk ≠ LPtable → k_locks k !! lk = Some (held i) → lock_free LPtable k →
  sleep ch lk k = Switch
    (k <| k_proc := <[me := asleep ch p]> (k_proc k) |>
       <| k_locks := <[LPtable := held i]> (<[lk := unlocked]> (k_locks k)) |>).
Proof.
  intros Hoc Hn Hme Hp Hne Hlk Hl. unfold sleep.
  assert (me < length (k_proc k))%nat by by eapply lookup_lt_Some.
  erewrite bind_ret_eq by by apply (myproc_ret k i c). rewrite Hme.
  pose proof (sleep_steps_ret 4 ch lk k i c me p Hoc Hp Hne Hlk Hl) as Hs.
  rewrite take_ge in Hs by (unfold sleep_steps; destruct (bool_decide _); simpl; lia).
  erewrite bind_ret_eq by exact Hs. cbn [falling_asleep].
  erewrite (sched_switch _ i c me (asleep ch p)); [|by eapply (on_cpu_ext k)|done|..].
  - by rewrite insert_insert_ne.
  - simpl. by rewrite lookup_insert_ne, lookup_insert_eq.
  - done.
  - simpl. by apply list_lookup_insert_eq.
  - done.
Qed.

(** Another processor meanwhile: it has its own interrupt controller and flags. *)
Definition seen_by (a fl : Z) (k : kernel) : kernel := k <| k_lapicid := a |> <| k_eflags := fl |>.

Lemma seen_falling_asleep a fl n i c me p ch lk k j cj :
  on_cpu k i c → j ≠ i → on_cpu (seen_by a fl k) j cj → on_cpu (seen_by a fl (falling_asleep n i c me p ch lk k)) j cj.
Proof.
  intros Hoc Hji Hj. destruct n as [|[|[|[|n]]]]; [done| |by eapply on_cpu_ext..].
  destruct Hj as [Hf Hc Hn Ho Hi]. simpl in *. split; simpl; try done.
  - by rewrite (find_first_insert_same _ _ c) by (by eauto using oc_cpu).
  - by rewrite list_lookup_insert_ne.
Qed.

(** A processor that takes [lk] and then wakes up [ch] waits as long as the
    process is on its way into [sleep]. *)
Lemma waker_waits a fl n i c me p ch lk k j cj :
  on_cpu k i c → j ≠ i → on_cpu (seen_by a fl k) j cj →
  lk ≠ LPtable → k_locks k !! lk = Some (held i) → lock_free LPtable k →
  ∃ s, (acquire lk ;; wakeup ch) (seen_by a fl (falling_asleep n i c me p ch lk k)) = Spin s.
Proof.
  intros Hoc Hji Hj Hne Hlk Hl.
  pose proof (seen_falling_asleep a fl n i c me p ch lk k j cj Hoc Hji Hj) as Hn.
  set (kn := seen_by a fl (falling_asleep n i c me p ch lk k)) in *.
  assert (k_locks kn !! lk = Some (held i) ∨ lock_free lk kn ∧ k_locks kn !! LPtable = Some (held i)) as [Hb|[Hfr Hb]].
  { destruct n as [|[|n]]; [by left|left; simpl; by rewrite lookup_insert_ne|right].
    unfold lock_free. replace (k_locks kn) with (<[lk := unlocked]> (<[LPtable := held i]> (k_locks k))) by by destruct n as [|[|n]].
    rewrite lookup_insert_eq, lookup_insert_ne, lookup_insert_eq by done. done. }
  - destruct (acquire_busy lk kn j cj i) as [s Hs]; [done..|]. exists s. unfold bind. by rewrite Hs.
  - erewrite bind_ret_eq by by apply acquire_ret. unfold wakeup.
    destruct (acquire_busy LPtable (locked_by lk j cj kn) j (cj <| c_ncli := c_ncli cj + 1 |>) i) as [s Hs];
      [by apply on_cpu_locked|simpl; by rewrite lookup_insert_ne|done|].
    exists s. unfold bind. by rewrite Hs.
Qed.

(** Once the table's lock is free it finds the process asleep. *)
Lemma waker_wakes ch lk k j cj me q :
  on_cpu k j cj → lock_free LPtable k → lock_free lk k → lk ≠ LPtable → length (k_proc k) = NPROC → k_proc k !! me = Some q →
  p_state q = SLEEPING → p_chan q = Some ch →
  ∃ k' q', (acquire lk ;; wakeup ch ;; release lk) k = Ret tt k' ∧ k_proc k' !! me = Some q' ∧ p_state q' = RUNNABLE.
Proof.
  intros Hoc Hl Hlk Hne Hlen Hq Hs Hc.
  erewrite bind_ret_eq by by apply acquire_ret.
  erewrite bind_ret_eq.
  2: { eapply (wakeup_ret _ _ j (cj <| c_ncli := c_ncli cj + 1 |>)). split; [by apply on_cpu_locked| |done].
       unfold lock_free. simpl. by rewrite lookup_insert_ne. }
  rewrite (release_ret lk k j cj) by done.
  eexists _, _. split; [done|]. simpl. rewrite list_lookup_fmap, Hq. split; [done|].
  unfold wake. by rewrite !bool_decide_true.
Qed.

(** ** System calls on the table *)

Definition killed (t : Z) (p : proc) : proc :=
  let p := p <| p_killed := 1 |> in
  if bool_decide (p_state p = SLEEPING)
  then p <| p_start := s32 t |> <| p_state := RUNNABLE |> else p.

Lemma kill_ret pid k i c :
  table_ready k i c →
  kill pid k =
  match find_first (λ p, p_pid p =? pid) (k_proc k) with
  | Some j => Ret 0 (k <| k_proc := alter (killed (k_ticks k)) j (k_proc k) |>)
  | None => Ret (-1) k
  end.
Proof.
  intros [Hoc Hl Hlen]. unfold kill.
  erewrite bind_ret_eq; [|by apply acquire_ret].
  unfold bind at 1, gets at 1. simpl.
  destruct (find_first _ _) as [j|] eqn:Hj.
  - apply find_first_Some in Hj as (p & Hp & _).
    assert (j < length (k_proc k))%nat by by eapply lookup_lt_Some.
    unfold upd_proc, get_proc, bind, modify, gets, get_or, when. simpl.
    rewrite !(alter_lookup _ _ _ _ Hp), list_lookup_insert_eq by done. unfold ret.
    unfold killed. simpl.
    destruct (bool_decide _); simpl; rewrite ?alter_insert_same by done;
      by erewrite (release_ret LPtable k i c) by done.
  - erewrite bind_ret_eq; [|by apply (release_ret LPtable k i c)].
    unfold ret. by rewrite unlocked_locked.
Qed.

Lemma getpinfo_ret pid k i c :
  table_ready k i c →
  getpinfo pid k =
  match find_first (λ p, p_pid p =? pid) (k_proc k) ≫= (λ j, k_proc k !! j) with
  | Some p => Ret (Some (mkProcStat (p_pid p) (p_rtime p) (p_num_run p) (p_current_queue p)
                           (take 5 (p_total_ticks p))), pid) k
  | None => Ret (None, -1) k
  end.
Proof.
  intros [Hoc Hl Hlen]. unfold getpinfo.
  erewrite bind_ret_eq; [|by apply acquire_ret].
  unfold bind at 1, gets at 1. simpl.
  destruct (find_first _ _) as [j|] eqn:Hj; simpl.
  - apply find_first_Some in Hj as (p & Hp & _).
    unfold get_proc, bind, gets, get_or. simpl. rewrite Hp. unfold ret.
    erewrite (release_ret LPtable k i c) by done. by destruct k.
  - erewrite bind_ret_eq; [|by apply (release_ret LPtable k i c)].
    unfold ret. by rewrite unlocked_locked.
Qed.

(** The system calls that execute [sti] are entered with interrupts on. *)
Lemma sti_on k : Z.land (k_eflags k) FL_IF ≠ 0 → sti k = Ret tt k.
Proof.
  intros H. unfold sti, modify. replace (Z.lor (k_eflags k) FL_IF) with (k_eflags k).
  { by destruct k. }
  rewrite <-(lor_cli (k_eflags k)) at 2 by done.
  rewrite <-Z.lor_assoc, Z.lor_diag. symmetry. by apply lor_cli.
Qed.

Lemma set_priority_ret pid priority k i c :
  table_ready k i c → Z.land (k_eflags k) FL_IF ≠ 0 →
  set_priority pid priority k =
  if (priority <? 0) || (100 <? priority) then Ret (-2) k
  else match find_first (λ p, p_pid p =? pid) (k_proc k) with
       | Some j => Ret 24 (k <| k_proc := alter (λ p, p <| p_priority := priority |>) j (k_proc k) |>)
       | None => Ret (-1) k
       end.
Proof.
  intros [Hoc Hl Hlen] Hif. unfold set_priority.
  erewrite bind_ret_eq by by apply sti_on. destruct (_ || _); [done|].
  erewrite bind_ret_eq; [|by apply acquire_ret].
  unfold bind at 1, gets at 1. simpl.
  destruct (find_first _ _) as [j|] eqn:Hj.
  - unfold upd_proc, bind, modify, ret.
    by erewrite (release_ret LPtable k i c) by done.
  - erewrite bind_ret_eq; [|by apply (release_ret LPtable k i c)].
    unfold ret. by rewrite unlocked_locked.
Qed.
