(* ===== verification/ProcWait.v ===== *)
(** * ProcWait: exiting and waiting

    What [exit] does to the process table, in closed form, and what [wait] and
    [waitx] find there. *)
From S2P Require Import Prelude.
From S2P Require Import Mem.
From S2P Require Import Str.
From S2P Require Import State.
From S2P Require Import Spin.
From S2P Require Import Cons.
From S2P Require Import Kalloc.
From S2P Require Import Vm.
From S2P Require Import Frame.
From S2P Require Import VmSpec.
From S2P Require Import Mlq.
From S2P Require Import Proc.
From S2P Require Import ProcSpec.

(** ** exit *)

Definition zombie_child (me : nat) (p : proc) : bool :=
  bool_decide (p_parent p = Some me) && bool_decide (p_state p = ZOMBIE).
Definition adopt (me : nat) (init : option nat) (p : proc) : proc :=
  if bool_decide (p_parent p = Some me) then p <| p_parent := init |> else p.

(** The table after the reparenting loop of [exit]: every child of [me] is a
    child of init, and init is awake if one of them is a zombie. *)
Definition orphaned (me : nat) (init : option nat) (t : Z) (ps : list proc) : list proc :=
  let ps' := adopt me init <$> ps in
  if existsb (zombie_child me) ps then wake (proc_chan init) t <$> ps' else ps'.

(** The table when the exiting process [me] enters the scheduler. *)
Definition exited (me : nat) (init : option nat) (t : Z) (p : proc) (ps : list proc) : list proc :=
  alter (λ p, p <| p_state := ZOMBIE |> <| p_etime := s32 t |>) me
    (orphaned me init t (wake (proc_chan (p_parent p)) t <$> ps)).

Lemma wake_wake ch t p : wake ch t (wake ch t p) = wake ch t p.
Proof.
  unfold wake. destruct (bool_decide (p_state p = SLEEPING)) eqn:E, (bool_decide (p_chan p = ch)) eqn:E2;
    simpl; rewrite ?E, ?E2; done.
Qed.
Lemma wake_parent ch t p : p_parent (wake ch t p) = p_parent p.
Proof. unfold wake. by destruct (_ && _). Qed.
Lemma wake_zombie ch t p : bool_decide (p_state (wake ch t p) = ZOMBIE) = bool_decide (p_state p = ZOMBIE).
Proof.
  unfold wake. destruct (bool_decide_reflect (p_state p = SLEEPING)) as [E|]; simpl; [|done].
  destruct (bool_decide (p_chan p = ch)); simpl; by rewrite ?E.
Qed.
Lemma wake_adopt ch t me init p : adopt me init (wake ch t p) = wake ch t (adopt me init p).
Proof. unfold adopt. rewrite wake_parent. unfold wake. by destruct (bool_decide (p_parent p = _)); destruct (_ && _). Qed.
Lemma wake_zombie_child ch t me p : zombie_child me (wake ch t p) = zombie_child me p.
Proof. unfold zombie_child. by rewrite wake_parent, wake_zombie. Qed.

(** The loop has handled [pre]; it will handle [p]. *)
Definition half_orphaned (me : nat) (init : option nat) (t : Z) (pre post : list proc) : list proc :=
  let ps' := (adopt me init <$> pre) ++ post in
  if existsb (zombie_child me) pre then wake (proc_chan init) t <$> ps' else ps'.

Lemma orphan_step me init t pre p post :
  let cur := half_orphaned me init t pre (p :: post) in
  ∃ q, cur !! length pre = Some q ∧ p_parent q = p_parent p ∧
       bool_decide (p_state q = ZOMBIE) = bool_decide (p_state p = ZOMBIE) ∧
       half_orphaned me init t (pre ++ [p]) post =
       if zombie_child me p then wake (proc_chan init) t <$> <[length pre := adopt me init q]> cur
       else <[length pre := adopt me init q]> cur.
Proof.
  unfold half_orphaned. rewrite existsb_app, (fmap_app _ pre [p]), <-app_assoc. simpl.
  rewrite orb_false_r.
  set (w := wake (proc_chan init) t). set (a := adopt me init <$> pre).
  assert (length a = length pre) as Hl by apply length_fmap.
  assert (Hins : ∀ x y (b l : list proc), length b = length pre →
    <[length pre := y]> (b ++ x :: l) = b ++ y :: l).
  { intros x y b l Hb. rewrite <-Hb, insert_app_r_alt, Nat.sub_diag by lia. done. }
  assert (Hww : ∀ l : list proc, w <$> (w <$> l) = w <$> l).
  { intros l. rewrite <-list_fmap_compose. apply list_fmap_ext. intros. apply wake_wake. }
  destruct (existsb _ pre) eqn:E; simpl.
  - exists (w p). rewrite fmap_app. simpl. split.
    { by rewrite <-Hl, <-(length_fmap w), list_lookup_middle. }
    split; [apply wake_parent|]. split; [apply wake_zombie|].
    assert (adopt me init (w p) = w (adopt me init p)) as -> by apply wake_adopt.
    rewrite Hins by (by rewrite length_fmap).
    change (w (adopt me init p) :: list_fmap proc proc w post) with (w <$> (adopt me init p :: post)).
    rewrite <-fmap_app.
    rewrite Hww. by destruct (zombie_child me p).
  - exists p. split; [by rewrite <-Hl, list_lookup_middle|]. split; [done|]. split; [done|].
    rewrite Hins by done. done.
Qed.

Definition orphan_body (me : nat) (i : nat) : K unit :=
  p ← get_proc i;
  when (bool_decide (p_parent p = Some me))
    (init ← gets k_initproc;
     upd_proc i (λ p, p <| p_parent := init |>) ;;
     p ← get_proc i;
     when (bool_decide (p_state p = ZOMBIE)) (wakeup1 (proc_chan init))).

Lemma orphan_body_ret me i k q :
  length (k_proc k) = NPROC → k_proc k !! i = Some q →
  orphan_body me i k = Ret tt (k <| k_proc :=
    let ps := <[i := adopt me (k_initproc k) q]> (k_proc k) in
    if zombie_child me q then wake (proc_chan (k_initproc k)) (k_ticks k) <$> ps else ps |>).
Proof.
  intros Hlen Hq. assert (i < length (k_proc k))%nat by by eapply lookup_lt_Some.
  unfold orphan_body, get_proc, bind, gets, get_or. rewrite Hq. unfold ret.
  unfold adopt, zombie_child. destruct (bool_decide (p_parent q = Some me)); simpl.
  - unfold upd_proc, modify. simpl. rewrite (alter_lookup _ _ _ _ Hq), list_lookup_insert_eq by done.
    simpl. destruct (bool_decide (p_state q = ZOMBIE)); [|done].
    unfold when. rewrite wakeup1_ret by (simpl; by rewrite length_insert). done.
  - unfold ret. rewrite list_insert_id by done. by destruct k.
Qed.

Lemma orphan_loop_ret me k :
  length (k_proc k) = NPROC →
  for_each (seq 0 NPROC) (orphan_body me) k =
  Ret tt (k <| k_proc := orphaned me (k_initproc k) (k_ticks k) (k_proc k) |>).
Proof.
  intros Hlen. set (init := k_initproc k). set (t := k_ticks k).
  assert (∀ post pre k1, k_initproc k1 = init → k_ticks k1 = t → length (pre ++ post) = NPROC →
    k_proc k1 = half_orphaned me init t pre post →
    for_each (seq (length pre) (length post)) (orphan_body me) k1 =
    Ret tt (k1 <| k_proc := half_orphaned me init t (pre ++ post) [] |>)) as Hgen.
  { induction post as [|p post IH]; intros pre k1 Hi Ht Hl Hk; simpl.
    { rewrite app_nil_r, <-Hk. by destruct k1. }
    destruct (orphan_step me init t pre p post) as (q & Hq & Hpar & Hz & Hnext).
    erewrite bind_ret_eq.
    2: { apply orphan_body_ret; [|by rewrite Hk].
         rewrite Hk, <-Hl. unfold half_orphaned. destruct (existsb _ _);
           rewrite ?length_fmap, !length_app, length_fmap; done. }
    rewrite Hk, Hi, Ht. cbv zeta.
    assert (zombie_child me q = zombie_child me p) as -> by (unfold zombie_child; by rewrite Hpar, Hz).
    rewrite <-Hnext.
    replace (S (length pre)) with (length (pre ++ [p])) by (rewrite length_app; simpl; lia).
    rewrite (IH (pre ++ [p])); [|done|done|by rewrite <-app_assoc|done].
    simpl. by rewrite Hi, Ht, <-app_assoc. }
  rewrite <-Hlen. specialize (Hgen (k_proc k) [] k eq_refl eq_refl Hlen eq_refl).
  simpl in Hgen. rewrite Hgen. unfold half_orphaned, orphaned. by rewrite app_nil_r.
Qed.

(** With no lock held and a table whose lock is free, [exit] enters the
    scheduler with the table in the state [exited] describes. *)
Lemma exit_ptable_switch k i c me p :
  table_ready k i c → c_ncli c = 0 → c_proc c = Some me → k_proc k !! me = Some p →
  exit_ptable me k = Switch (locked_by LPtable i c
    (k <| k_proc := exited me (k_initproc k) (k_ticks k) p (k_proc k) |>)).
Proof.
  intros [Hoc Hl Hlen] Hn Hme Hp. unfold exit_ptable.
  erewrite bind_ret_eq by by apply acquire_ret.
  unfold get_proc at 1, bind at 1 2, gets at 1, get_or. simpl. rewrite Hp. unfold ret at 1.
  erewrite bind_ret_eq by by apply wakeup1_ret.
  erewrite bind_ret_eq.
  2: { apply (orphan_loop_ret me). simpl. by rewrite length_fmap. }
  unfold upd_proc, bind, modify, gets. simpl. rewrite alter_alter.
  set (ps := orphaned _ _ _ _). assert (∃ q, ps !! me = Some q) as [q Hq].
  { unfold ps, orphaned. destruct (existsb _ _); rewrite !list_lookup_fmap, Hp; by eexists. }
  erewrite sched_switch; [|by eapply on_cpu_ext; [by apply (on_cpu_locked LPtable k i c)|..]|done|..].
  - done.
  - simpl. apply lookup_insert_eq.
  - simpl. lia.
  - simpl. by rewrite list_lookup_alter_eq, Hq.
  - done.
Qed.

(** ** The entries of the table after an exit *)

(** [exit] wakes a process that sleeps on the parent of the exiting process
    [p], or on init when init inherits a zombie. *)
Definition roused (me : nat) (init : option nat) (p : proc) (ps : list proc) (q : proc) : bool :=
  bool_decide (p_state q = SLEEPING) &&
  (bool_decide (p_chan q = proc_chan (p_parent p)) ||
   existsb (zombie_child me) ps && bool_decide (p_chan q = proc_chan init)).

(** Entry [j] of the table, [q], after the exit of [p] in entry [me]. *)
Definition exit_entry (me : nat) (init : option nat) (t : Z) (p : proc) (ps : list proc) (j : nat) (q : proc) : proc :=
  let woken := roused me init p ps q in
  q <| p_parent := if bool_decide (p_parent q = Some me) then init else p_parent q |>
    <| p_state := if bool_decide (j = me) then ZOMBIE else if woken then RUNNABLE else p_state q |>
    <| p_start := if woken then s32 t else p_start q |>
    <| p_etime := if bool_decide (j = me) then s32 t else p_etime q |>.

Lemma existsb_wake me ch t ps : existsb (zombie_child me) (wake ch t <$> ps) = existsb (zombie_child me) ps.
Proof. induction ps as [|x ps IH]; [done|]. rewrite fmap_cons. cbn [existsb]. by rewrite wake_zombie_child, IH. Qed.

Lemma exited_entry me init t p ps j q :
  ps !! j = Some q → exited me init t p ps !! j = Some (exit_entry me init t p ps j q).
Proof.
  intros Hq. unfold exited, orphaned, exit_entry, roused. rewrite existsb_wake.
  assert (∀ f (l : list proc), alter f me l !! j = (if bool_decide (j = me) then f else id) <$> l !! j) as ->.
  { intros f l. rewrite list_lookup_alter. case_decide as Hd; case_bool_decide; subst; try done. by destruct (l !! j). }
  assert (∀ (b : bool) (f : proc → proc) (l : list proc), (if b then f <$> l else l) !! j =
    (if b then f else id) <$> l !! j) as -> by (intros [] f l; [apply list_lookup_fmap|by destruct (l !! j)]).
  rewrite !list_lookup_fmap, Hq. cbn [fmap option_fmap option_map]. f_equal.
  clear Hq. unfold adopt, wake. generalize (existsb (zombie_child me) ps). intros any.
  destruct q as [sz pg ks st pid par tf ctx ch kd ofs cw nm ct et rt io nr pri tk sta wt cq tot].
  cbn [p_state p_chan].
  destruct (bool_decide (st = SLEEPING)) eqn:E1, (bool_decide (ch = proc_chan (p_parent p))) eqn:E2,
    (bool_decide (par = Some me)) eqn:E3, any, (bool_decide (ch = proc_chan init)) eqn:E4,
    (bool_decide (j = me));
    simpl; rewrite ?E1, ?E2, ?E3, ?E4; simpl; rewrite ?E1, ?E3, ?E4; reflexivity.
Qed.

(** ** wait *)

Lemma scan_children_spec me ps i b :
  match scan_children me ps i b with
  | (Some j, h) => ∃ n p, j = (i + n)%nat ∧ ps !! n = Some p ∧ zombie_child me p = true ∧
      (∀ n' p', (n' < n)%nat → ps !! n' = Some p' → zombie_child me p' = false) ∧ h = true
  | (None, h) => (∀ p, p ∈ ps → zombie_child me p = false) ∧
      h = b || existsb (λ p, bool_decide (p_parent p = Some me)) ps
  end.
Proof.
  revert i b. induction ps as [|p ps IH]; intros i b; simpl.
  { split; [by intros p ?%not_elem_of_nil|by rewrite orb_false_r]. }
  assert (∀ b', (bool_decide (p_parent p = Some me) && bool_decide (p_state p = ZOMBIE)) = false →
    b' = b || bool_decide (p_parent p = Some me) →
    match scan_children me ps (S i) b' with
    | (Some j, h) => ∃ n q, j = (i + n)%nat ∧ (p :: ps) !! n = Some q ∧ zombie_child me q = true ∧
        (∀ n' p', (n' < n)%nat → (p :: ps) !! n' = Some p' → zombie_child me p' = false) ∧ h = true
    | (None, h) => (∀ q, q ∈ p :: ps → zombie_child me q = false) ∧
        h = b || (bool_decide (p_parent p = Some me) || existsb (λ p, bool_decide (p_parent p = Some me)) ps)
    end) as Hskip.
  { intros b' Hz Hb'. specialize (IH (S i) b'). destruct (scan_children me ps (S i) b') as [[j|] h].
    - destruct IH as (n & q & -> & Hq & Hzq & Hmin & ->). exists (S n), q.
      split; [lia|]. split; [done|]. split; [done|]. split; [|done].
      intros [|n'] p' Hlt Hp'; simplify_eq/=; [done|]. eapply (Hmin n'); [lia|done].
    - destruct IH as [Hall ->]. split; [|rewrite Hb'; by rewrite orb_assoc].
      intros q [->|Hq]%elem_of_cons; [done|by apply Hall]. }
  destruct (bool_decide (p_parent p = Some me)) eqn:E1.
  - destruct (bool_decide (p_state p = ZOMBIE)) eqn:E2.
    + exists 0%nat, p. split; [lia|]. split; [done|]. split; [unfold zombie_child; by rewrite E1, E2|].
      split; [lia|done].
    + apply Hskip; [done|by rewrite orb_true_r].
  - apply Hskip; [done|by rewrite orb_false_r].
Qed.

(** The slot of a reaped process. *)
Definition freed (p : proc) : proc :=
  clear_name (p <| p_kstack := 0 |> <| p_pid := 0 |> <| p_parent := None |>
                <| p_killed := 0 |> <| p_state := UNUSED |>).

(** A zombie's memory: a kernel stack and an address space of its own. *)
Record owns_memory (k : kernel) (l : list Z) (p : proc) : Prop := {
  om_stack : page_ok (k_end k) (p_kstack p);
  om_used : p_kstack p ∉ l;
  om_space : space_ok (k_mem k) (k_end k) (p_pgdir p) l;
  om_pt : ¬ pt_page (k_mem k) (p_pgdir p) (p_kstack p);
  om_frame va fl : 0 ≤ va < KERNBASE → frame_of (k_mem k) (p_pgdir p) va ≠ Some (p_kstack p, fl)
}.

(** The pages of a process. *)
Definition proc_page (k : kernel) (p : proc) (v : Z) : Prop :=
  v = p_kstack p ∨ pt_page (k_mem k) (p_pgdir p) v ∨
  ∃ va fl, 0 ≤ va < KERNBASE ∧ frame_of (k_mem k) (p_pgdir p) va = Some (v, fl).

(** The memory half of reaping. *)
Lemma free_proc_memory k l p i :
  kmem_inv k l → kmem_ready k → owns_memory k l p →
  ∃ k' vs, (kfree (p_kstack p) ;;
            upd_proc i (λ p, p <| p_kstack := 0 |>) ;; freevm (p_pgdir p)) k =
           Ret tt (k' <| k_proc := alter (λ p, p <| p_kstack := 0 |>) i (k_proc k) |>) ∧
    mem_step k k' ∧ kmem_inv k' (vs ++ l) ∧ ∀ v, v ∈ vs ↔ proc_page k p v.
Proof.
  intros Hinv Hr [Hst Hstl Hsp Hpt Hfr].
  destruct (space_ok_free k l (p_pgdir p) (p_kstack p)) as (k1 & Hret & Hinv1 & Hs1 & Hsp1 & Hpt1 & Hfr1); [done..|].
  erewrite bind_ret_eq by exact Hret. unfold bind, upd_proc, modify.
  set (ps := alter _ i (k_proc k1)).
  destruct (freevm_ret (k1 <| k_proc := ps |>) (p_kstack p :: l) (p_pgdir p))
    as (k2 & vs & Hret2 & Hinv2 & Hs2 & Hvs).
  - by destruct Hinv1.
  - apply (mem_step_ready _ _ Hs1) in Hr. by eapply kmem_ready_ext.
  - simpl. by rewrite (mem_step_end _ _ Hs1).
  - exists (k2 <| k_proc := k_proc k |>), (vs ++ [p_kstack p]).
    split; [|split; [|split]].
    + rewrite Hret2, Hs2. unfold ps. rewrite Hs1. done.
    + unfold mem_step in *. rewrite Hs2, Hs1. by destruct k.
    + rewrite <-app_assoc. by destruct Hinv2.
    + intros v. rewrite elem_of_app, list_elem_of_singleton, Hvs. simpl. unfold proc_page.
      rewrite Hpt1. split.
      * intros [[?|(va & fl & Hva & Hv)]|?]; [by auto| |by auto]. right. right. exists va, fl.
        rewrite <-Hfr1 by by apply user_va. done.
      * intros [?|[?|(va & fl & Hva & Hv)]]; [by auto..|]. left. right. exists va, fl.
        rewrite Hfr1 by by apply user_va. done.
Qed.

(** ** Reaping *)

Lemma has_pid_alter ps j f pid e :
  (∀ p, p_pid (f p) = p_pid p) → has_pid (alter f j ps) pid e = has_pid ps pid e.
Proof.
  intros Hf. destruct e as [x|]; [|done]. unfold has_pid.
  destruct (decide (j = x)) as [->|]; [|by rewrite list_lookup_alter_ne].
  rewrite list_lookup_alter_eq. destruct (ps !! x); simpl; [by rewrite Hf|done].
Qed.

Lemma entries_ok_alter ps j f l : entries_ok ps l → entries_ok (alter f j ps) l.
Proof.
  intros H. eapply Forall_impl; [exact H|]. intros e (x & p & -> & Hx). exists x.
  destruct (decide (j = x)) as [->|]; [rewrite list_lookup_alter_eq, Hx; simpl; eauto|].
  rewrite list_lookup_alter_ne by done. eauto.
Qed.

Lemma rem_skip_filter f j l :
  f (Some j) = true → (∀ e, e ∈ l → f e = true → e = Some j) → NoDup l →
  rem_skip f l = filter (λ e, e ≠ Some j) l.
Proof.
  intros Hj. induction l as [|e l IH]; intros Hf Hnd; [done|]. apply NoDup_cons in Hnd as [He Hnd].
  rewrite filter_cons. destruct (f e) eqn:E.
  - assert (e = Some j) as -> by (apply Hf; [left|done]). rewrite decide_False by (intros H; by apply H).
    assert (∀ x, x ∈ l → f x = false) as Hl.
    { intros x Hx. destruct (f x) eqn:Ex; [|done]. rewrite (Hf x) in Hx; [done|by right|done]. }
    rewrite (rem_skip_once f [] (Some j) l E Hl : rem_skip f (Some j :: l) = l). symmetry.
    clear -He. induction l as [|x l IH]; [done|]. apply not_elem_of_cons in He as [Hx He].
    rewrite filter_cons_True by (by intros ->). f_equal. by apply IH.
  - rewrite decide_True by (intros ->; congruence). cbn [rem_skip]. rewrite E. f_equal.
    apply IH; [|done]. intros x Hx. apply Hf. by right.
Qed.

(** Under MLFQ the queue of the process [p] in entry [j] is well formed: it has
    no entry twice, and no other process of it has the pid of [p]. *)
Definition in_queue (k : kernel) (j : nat) (p : proc) : Prop :=
  k_policy k = MLFQ → ∃ q m, p_current_queue p = Z.of_nat q ∧ (q < 5)%nat ∧
    k_queue k !! q = Some m ∧ mlq_ok m ∧ entries_ok (k_proc k) (live m) ∧ NoDup (live m) ∧
    ∀ x r, Some x ∈ live m → k_proc k !! x = Some r → p_pid r = p_pid p → x = j.

(** The queues after the process in entry [j] has been reaped by [wait]: under
    MLFQ its queue is the old one without it, and nothing else changes. *)
Definition dequeued (k : kernel) (j : nat) (p : proc) (k' : kernel) : Prop :=
  if bool_decide (k_policy k = MLFQ) then
    ∃ q m m', p_current_queue p = Z.of_nat q ∧ k_queue k !! q = Some m ∧
      k_queue k' = <[q := m']> (k_queue k) ∧ mlq_ok m' ∧
      live m' = filter (λ e, e ≠ Some j) (live m)
  else k_queue k' = k_queue k.

Lemma dequeue_ret k p j f :
  in_queue k j p → k_proc k !! j = Some p → (∀ p, p_pid (f p) = p_pid p) →
  ∃ qs, when (bool_decide (k_policy k = MLFQ)) (rem_process (p_pid p) (p_current_queue p))
      (k <| k_proc := alter f j (k_proc k) |>) =
    Ret tt (k <| k_proc := alter f j (k_proc k) |> <| k_queue := qs |>) ∧
    dequeued k j p (k <| k_queue := qs |>).
Proof.
  intros Hq Hj Hf. unfold in_queue, dequeued in *.
  destruct (bool_decide_reflect (k_policy k = MLFQ)) as [Hp|Hp]; cbn [when].
  2: { exists (k_queue k). split; [by destruct k|done]. }
  destruct (Hq Hp) as (q & m & Hcq & Hq5 & Hm & Hok & Hent & Hnd & Hun). rewrite Hcq.
  destruct (rem_process_ret (p_pid p) q m (k <| k_proc := alter f j (k_proc k) |>))
    as (m' & Hret & Hok' & Hlive); [done|done|done|by apply entries_ok_alter|].
  exists (<[q := m']> (k_queue k)). split; [done|]. exists q, m, m'. do 4 (split; [done|]).
  rewrite Hlive. assert (∀ e, has_pid (k_proc (k <| k_proc := alter f j (k_proc k) |>)) (p_pid p) e =
    has_pid (k_proc k) (p_pid p) e) as Hhas by (intros e; by apply has_pid_alter).
  apply rem_skip_filter; [..|done].
  - rewrite Hhas. simpl. rewrite Hj. apply Z.eqb_refl.
  - intros e He. rewrite Hhas. intros Hpid.
    destruct (proj1 (Forall_forall _ _) Hent e He) as (x & r & -> & Hx). simpl in Hpid. rewrite Hx in Hpid.
    apply Z.eqb_eq in Hpid. f_equal. by eapply Hun.
Qed.

(** What reaping [p] in slot [j] does; [k] is the state in which the lock was
    taken. *)
Record reaped (k : kernel) (l : list Z) (j : nat) (p : proc) (k' : kernel) : Prop := {
  rp_proc : k_proc k' = <[j := freed p]> (k_proc k);
  rp_queue : dequeued k j p k';
  rp_mem : ∃ vs, kmem_inv k' (vs ++ l) ∧ ∀ v, v ∈ vs ↔ proc_page k p v;
  rp_cpus : k_cpus k' = k_cpus k;
  rp_eflags : k_eflags k' = k_eflags k;
  rp_locks : k_locks k' = k_locks k
}.

Lemma kmem_ready_locked k i c :
  on_cpu k i c → k_use_lock k = 0 ∨ lock_free LKmem k →
  kmem_ready (locked_by LPtable i c k).
Proof.
  intros Hoc [Hu|Hl]; [by left|]. destruct (decide (k_use_lock k = 0)); [by left|right].
  split; [done|]. exists i, (c <| c_ncli := c_ncli c + 1 |>). split; [by apply on_cpu_locked|].
  unfold lock_free in *. simpl. by rewrite lookup_insert_ne.
Qed.

Lemma owns_memory_locked k l p i c :
  owns_memory k l p → owns_memory (locked_by LPtable i c k) l p.
Proof. intros []. by split. Qed.

Lemma reap_ret k i c l j p :
  on_cpu k i c → lock_free LPtable k → k_use_lock k = 0 ∨ lock_free LKmem k →
  kmem_inv k l → k_proc k !! j = Some p → owns_memory k l p → in_queue k j p →
  ∃ k', reap j (locked_by LPtable i c k) = Ret (p_pid p) k' ∧ reaped k l j p k'.
Proof.
  intros Hoc Hl Hkl Hinv Hp Hmem Hq. assert (j < length (k_proc k))%nat by by eapply lookup_lt_Some.
  set (k1 := locked_by LPtable i c k).
  destruct (free_proc_memory k1 l p j) as (k2 & vs & Hret & Hs & Hinv2 & Hvs);
    [by destruct Hinv|by apply kmem_ready_locked|by apply owns_memory_locked|].
  assert (in_queue k2 j p) as Hq2 by (rewrite Hs; exact Hq).
  destruct (dequeue_ret k2 p j (λ p, p <| p_kstack := 0 |>)) as (qs & Hdeq & Hqs); [done|by rewrite Hs|done|].
  assert (k_proc k2 = k_proc k) as Hpk by by rewrite Hs.
  unfold reap. unfold bind at 1. unfold get_proc, bind at 1, gets at 1.
  change (k_proc k1) with (k_proc k). rewrite Hp. cbn [get_or]. unfold ret at 1.
  rewrite Hpk in Hdeq. change (k_proc k1) with (k_proc k) in Hret.
  erewrite bind3_ret_eq by exact Hret.
  unfold bind at 1, gets at 1.
  erewrite bind_ret_eq by exact Hdeq.
  unfold bind at 1 2, upd_proc, modify.
  erewrite bind_ret_eq.
  2: { apply (release_ret LPtable k i c); [done|done|..]; simpl; by rewrite Hs. }
  eexists. split; [done|]. split; try done.
  - simpl. by rewrite !alter_alter, (alter_lookup _ _ _ _ Hp).
  - rewrite Hs in Hqs. exact Hqs.
  - exists vs. split; [by destruct Hinv2|exact Hvs].
Qed.

(** [wait] when there is a zombie child: the first one is reaped. *)
Lemma wait_zombie k i c l me j h p :
  table_ready k i c → c_proc c = Some me → k_use_lock k = 0 ∨ lock_free LKmem k →
  scan_children me (k_proc k) 0 false = (Some j, h) → k_proc k !! j = Some p →
  kmem_inv k l → owns_memory k l p → in_queue k j p →
  ∃ k', wait k = Ret (p_pid p) k' ∧ reaped k l j p k'.
Proof.
  intros [Hoc Hl Hlen] Hme Hkl Hscan Hp Hinv Hmem Hq. unfold wait.
  erewrite bind_ret_eq by by eapply curproc_ret.
  erewrite bind_ret_eq by by apply acquire_ret.
  unfold wait_loop, bind at 1, gets at 1. change (k_proc (locked_by LPtable i c k)) with (k_proc k).
  rewrite Hscan. by eapply reap_ret.
Qed.

(** [wait] with nothing to wait for. *)
Lemma wait_none k i c me h p :
  table_ready k i c → c_proc c = Some me →
  scan_children me (k_proc k) 0 false = (None, h) → k_proc k !! me = Some p →
  h = false ∨ p_killed p ≠ 0 → wait k = Ret (-1) k.
Proof.
  intros [Hoc Hl Hlen] Hme Hscan Hp Hh. unfold wait.
  erewrite bind_ret_eq by by eapply curproc_ret.
  erewrite bind_ret_eq by by apply acquire_ret.
  unfold wait_loop, bind at 1, gets at 1. change (k_proc (locked_by LPtable i c k)) with (k_proc k).
  rewrite Hscan. unfold get_proc, bind at 1 2, gets at 1, get_or.
  change (k_proc (locked_by LPtable i c k)) with (k_proc k). rewrite Hp. unfold ret at 1.
  assert (negb h || truthy (p_killed p) = true) as ->.
  { destruct Hh as [->|Hk]; [done|]. unfold truthy. destruct (Z.eqb_spec (p_killed p) 0); [done|].
    by rewrite orb_true_r. }
  erewrite bind_ret_eq by by apply (release_ret LPtable k i c). unfold ret. by rewrite unlocked_locked.
Qed.

(** [wait] with live children only: the caller sleeps on itself. *)
Lemma wait_sleeps k i c me p :
  table_ready k i c → c_ncli c = 0 → c_proc c = Some me →
  scan_children me (k_proc k) 0 false = (None, true) → k_proc k !! me = Some p →
  p_killed p = 0 →
  wait k = Switch (locked_by LPtable i c
    (k <| k_proc := <[me := asleep (ChProc me) p]> (k_proc k) |>)).
Proof.
  intros [Hoc Hl Hlen] Hn Hme Hscan Hp Hk. unfold wait.
  erewrite bind_ret_eq by by eapply curproc_ret.
  erewrite bind_ret_eq by by apply acquire_ret.
  unfold wait_loop, bind at 1, gets at 1. change (k_proc (locked_by LPtable i c k)) with (k_proc k).
  rewrite Hscan. unfold get_proc, bind at 1 2, gets at 1, get_or.
  change (k_proc (locked_by LPtable i c k)) with (k_proc k). rewrite Hp. unfold ret at 1. rewrite Hk. simpl.
  unfold bind. erewrite sleep_ptable; [by destruct k|by apply on_cpu_locked|simpl; lia|done|done|].
  simpl. apply lookup_insert_eq.
Qed.
