(* ===== verification/Sched.v ===== *)
(** * Sched: choosing the process to run ([scheduler] and [ageing] of [proc.c])

    The four policies the kernel can be built with.  [scheduler] gives the
    processor to a process with [swtch] and gets it back when that process
    calls [sched]; what happens in between is the parameter [run]. *)
From S2P Require Import Prelude.
From S2P Require Import Mem.
From S2P Require Import Str.
From S2P Require Import State.
From S2P Require Import Spin.
From S2P Require Import Cons.
From S2P Require Import Kalloc.
From S2P Require Import Vm.
From S2P Require Import Mlq.
From S2P Require Import Proc.

Module Sched.

(** The process in entry [i] of a queue. *)
Definition entry (m : mlq) (i : Z) : K nat :=
  e ← get_or "queue index out of range" (aget (q_slot m) i);
  get_or "null queue entry" e.

(** ** ageing *)

(** [ticks - p->start > p->waittime], an unsigned comparison. *)
Definition waited_long (ticks : Z) (p : proc) : bool :=
  u32 (p_waittime p) <? u32 (ticks - p_start p).

(** [p->ticks[q] = 0] *)
Definition zero_ticks (x : nat) (q : Z) : K unit :=
  p ← get_proc x;
  ts ← get_or "ticks index out of range" (aset (p_ticks p) q 0);
  upd_proc x (λ p, p <| p_ticks := ts |>).

(** The message names the queue the process is meant to move to. *)
Definition age_msg (q : nat) : string :=
  ESC +:+ "[1;32m %d switching to queue " +:+
  match q with 1%nat => "0" | 2%nat => "1" | 3%nat => "2" | _ => "3" end +:+
  "  since waittime %ds exceeded" +:+ NL +:+ ESC +:+ "[0m".

(** One entry of queue [q], a process that waits to run. *)
Definition age_entry (q : nat) (x : nat) : K unit :=
  p ← get_proc x;
  ticks ← gets k_ticks;
  when (bool_decide (p_state p = RUNNABLE) && waited_long ticks p)
    (cprintf (age_msg q) [CInt (p_pid p); CInt (p_waittime p)] ;;
     upd_proc x (λ p, p <| p_current_queue := p_current_queue p - 1 |>) ;;
     p ← get_proc x;
     zero_ticks x (p_current_queue p) ;;
     upd_proc x (λ p, p <| p_start := s32 ticks |>) ;;
     push_queue (q - 1) x ;;
     rem_process (p_pid p) (p_current_queue p)).

(** [for(int i=0; i<=c; i++)]; an index past the array is undefined, so the
    loop has at most [NQUEUE] iterations. *)
Fixpoint ageing_loop (q : nat) (fuel : nat) (i : Z) : K unit :=
  match fuel with
  | O => spin
  | S fuel' =>
      m ← get_queue q;
      if i <=? q_c m then
        x ← entry m i;
        age_entry q x ;;
        ageing_loop q fuel' (i + 1)
      else ret tt
  end.

Definition ageing_q1 : K unit := ageing_loop 1 (S NQUEUE) 0.
Definition ageing_q2 : K unit := ageing_loop 2 (S NQUEUE) 0.
Definition ageing_q3 : K unit := ageing_loop 3 (S NQUEUE) 0.
Definition ageing_q4 : K unit := ageing_loop 4 (S NQUEUE) 0.
Definition ageing : K unit :=
  ageing_q1 ;; ageing_q2 ;; ageing_q3 ;; ageing_q4.

(** ** Choosing from the table *)

(** PRIORITY: the scan for a runnable process with a smaller priority value
    than the best so far. *)
Fixpoint highest_priority (ps : list proc) (j : nat) (best : nat * proc) : nat * proc :=
  match ps with
  | [] => best
  | p1 :: ps' =>
      highest_priority ps' (S j)
        (if bool_decide (p_state p1 = RUNNABLE) && (p_priority p1 <? p_priority best.2)
         then (j, p1) else best)
  end.

(** FCFS: the scan compares creation times with the process [p] the outer loop
    stands at. *)
Fixpoint min_process (ps : list proc) (j : nat) (p : proc) (best : nat) : nat :=
  match ps with
  | [] => best
  | p2 :: ps' =>
      min_process ps' (S j) p
        (if bool_decide (p_state p2 = RUNNABLE) && negb (p_pid p2 <=? 2) && (p_ctime p2 <? p_ctime p)
         then j else best)
  end.

Definition choose (pol : policy) (ps : list proc) (i : nat) (p : proc) : nat :=
  match pol with
  | PRIORITY => (highest_priority ps 0 (i, p)).1
  | FCFS => min_process ps 0 p i
  | _ => i
  end.

(** ** Running a process *)

Section scheduler.
Context (run : nat → K unit).

(** From [c->proc = p] to [c->proc = 0]. *)
Definition dispatch (ci : nat) (x : nat) : K unit :=
  upd_cpu ci (λ c, c <| c_proc := Some x |>) ;;
  switchuvm (Some x) ;;
  upd_proc x (λ p, p <| p_state := RUNNING |>) ;;
  upd_proc x (λ p, p <| p_num_run := s32 (p_num_run p + 1) |>) ;;
  run x ;;
  switchkvm ;;
  upd_cpu ci (λ c, c <| c_proc := None |>).

(** The loop over the table.  PRIORITY and FCFS assign the loop variable, so
    the next iteration looks at the entry behind the chosen one; the fuel bounds
    the number of iterations. *)
Fixpoint table_loop (ci : nat) (fuel : nat) (i : nat) : K unit :=
  match fuel with
  | O => spin
  | S fuel' =>
      if (i <? NPROC)%nat then
        ps ← gets k_proc;
        p ← get_proc i;
        if negb (bool_decide (p_state p = RUNNABLE)) then table_loop ci fuel' (S i)
        else
          pol ← gets k_policy;
          let x := choose pol ps i p in
          dispatch ci x ;;
          table_loop ci fuel' (S x)
      else ret tt
  end.

(** ** The multi-level feedback queues *)

(** The time slice of queue [q] is used up, or the process was killed. *)
Definition expired (q : nat) (p : proc) : bool :=
  let used := default 0 (p_ticks p !! q) in
  let slice := default 0 (clockperiod !! q) in
  match q with
  | 0%nat => (slice <=? used) && (3 <? p_pid p)
  | _ => (slice <=? used) || negb (p_killed p =? 0)
  end.

(** After the process [x] of entry [i] has run: queues 0 to 3. *)
Definition demote (q : nat) (i : Z) (x : nat) : K unit :=
  p ← get_proc x;
  when (expired q p)
    (when (p_killed p =? 0)
       (upd_proc x (λ p, p <| p_current_queue := p_current_queue p + 1 |>) ;;
        push_queue (S q) x) ;;
     zero_ticks x (Z.of_nat q) ;;
     m ← get_queue q;
     m' ← get_or "delete from queue" (remove_at i m);
     set_queue q m').

(** After the process of entry [i] has run: queue 4.  A killed process is
    shifted out but [c4] stays. *)
Definition rotate (i : Z) (x : nat) : K unit :=
  p ← get_proc x;
  m ← get_queue 4;
  slots ← get_or "shift" (shift (Z.to_nat (q_c m - i)) i (q_slot m));
  if negb (p_killed p =? 0) then set_queue 4 (m <| q_slot := slots |>)
  else
    slots' ← get_or "q4[c4]" (aset slots (q_c m) (Some x));
    set_queue 4 (m <| q_slot := slots' |>).

Fixpoint queue_loop (ci : nat) (q : nat) (after : Z → nat → K unit) (fuel : nat) (i : Z) : K unit :=
  match fuel with
  | O => spin
  | S fuel' =>
      m ← get_queue q;
      if i <=? q_c m then
        x ← entry m i;
        p ← get_proc x;
        when (bool_decide (p_state p = RUNNABLE))
          (ticks ← gets k_ticks;
           upd_proc x (λ p, p <| p_start := s32 ticks |>) ;;
           dispatch ci x ;;
           after i x) ;;
        queue_loop ci q after fuel' (i + 1)
      else ret tt
  end.
(** [if (c != -1) for (i = 0; i <= c; i++)] *)
Definition queue_pass (ci : nat) (q : nat) (after : Z → nat → K unit) : K unit :=
  m ← get_queue q;
  when (negb (q_c m =? -1)) (queue_loop ci q after (S NQUEUE) 0).

Definition pass_q0 (ci : nat) : K unit := queue_pass ci 0 (demote 0).
Definition pass_q1 (ci : nat) : K unit := queue_pass ci 1 (demote 1).
Definition pass_q2 (ci : nat) : K unit := queue_pass ci 2 (demote 2).
Definition pass_q3 (ci : nat) : K unit := queue_pass ci 3 (demote 3).
Definition pass_q4 (ci : nat) : K unit := queue_pass ci 4 rotate.

(** One turn of the scheduler's [for(;;)]. *)
Definition scheduler_pass (fuel : nat) (ci : nat) : K unit :=
  sti ;;
  pol ← gets k_policy;
  acquire LPtable ;;
  (if bool_decide (pol = MLFQ) then
     ageing ;; pass_q0 ci ;; pass_q1 ci ;; pass_q2 ci ;; pass_q3 ci ;; pass_q4 ci
   else table_loop ci fuel 0) ;;
  release LPtable.

(** [scheduler], for [n] turns. *)
Fixpoint scheduler_loop (n fuel ci : nat) : K unit :=
  match n with
  | O => ret tt
  | S n' => scheduler_pass fuel ci ;; scheduler_loop n' fuel ci
  end.
Definition scheduler (n fuel : nat) : K unit :=
  ci ← mycpu;
  upd_cpu ci (λ c, c <| c_proc := None |>) ;;
  scheduler_loop n fuel ci.

End scheduler.
End Sched.
Export Sched.
