(* ===== verification/SchedSpec.v ===== *)
(** * SchedSpec: what the scheduling policies guarantee *)
From S2P Require Import Prelude.
From S2P Require Import Mem.
From S2P Require Import Str.
From S2P Require Import State.
From S2P Require Import Spin.
From S2P Require Import Cons.
From S2P Require Import Kalloc.
From S2P Require Import Vm.
From S2P Require Import Frame.
From S2P Require Import Mlq.
From S2P Require Import Proc.
From S2P Require Import ProcSpec.
From S2P Require Import ProcWait.
From S2P Require Import Sched.

(** ** PRIORITY *)

(** The best process seen so far is a runnable process of the table that no
    process before [j] beats. *)
Record best_so_far (ps : list proc) (j : nat) (b : nat * proc) : Prop := {
  bs_lookup : ps !! b.1 = Some b.2;
  bs_runnable : p_state b.2 = RUNNABLE;
  bs_min i p : (i < j)%nat → ps !! i = Some p → p_state p = RUNNABLE → p_priority b.2 ≤ p_priority p
}.

Lemma highest_priority_scan ps pre post b :
  ps = pre ++ post → best_so_far ps (length pre) b →
  best_so_far ps (length ps) (highest_priority post (length pre) b).
Proof.
  revert pre b. induction post as [|p1 post IH]; intros pre b Hps Hb; cbn [highest_priority].
  { by rewrite Hps, app_nil_r in *. }
  assert (ps !! length pre = Some p1) as Hp1 by (rewrite Hps; by apply list_lookup_middle).
  replace (S (length pre)) with (length (pre ++ [p1])) by (rewrite length_app; simpl; lia).
  apply IH; [by rewrite <-app_assoc|]. destruct Hb as [Hl Hr Hm].
  destruct (bool_decide_reflect (p_state p1 = RUNNABLE)), (Z.ltb_spec (p_priority p1) (p_priority b.2));
    simpl; split; try done; simpl; intros i p Hi Hp Hst; rewrite length_app in Hi; simpl in Hi;
    (destruct (decide (i = length pre)) as [->|Hne];
     [rewrite Hp1 in Hp; simplify_eq; try done; try lia
     |pose proof (Hm i p ltac:(lia) Hp Hst); lia]).
Qed.

Lemma choose_priority_best ps i p :
  ps !! i = Some p → p_state p = RUNNABLE →
  ∃ q, ps !! choose PRIORITY ps i p = Some q ∧ p_state q = RUNNABLE ∧
       ∀ j r, ps !! j = Some r → p_state r = RUNNABLE → p_priority q ≤ p_priority r.
Proof.
  intros Hp Hr.
  destruct (highest_priority_scan ps [] ps (i, p) eq_refl) as [Hl Hs Hm].
  { split; [done|done|]. simpl. lia. }
  exists (highest_priority ps 0 (i, p)).2. split; [done|]. split; [done|].
  intros j r Hj. apply Hm with j; [|done]. by eapply lookup_lt_Some.
Qed.

(** ** FCFS *)

Definition older (p q : proc) : bool :=
  bool_decide (p_state q = RUNNABLE) && negb (p_pid q <=? 2) && (p_ctime q <? p_ctime p).

(** The last entry of the table that satisfies [f]. *)
Fixpoint find_last {A} (f : A → bool) (l : list A) : option nat :=
  match l with
  | [] => None
  | x :: l' =>
      match find_last f l' with Some n => Some (S n) | None => if f x then Some 0%nat else None end
  end.

Lemma min_process_last ps j p best :
  min_process ps j p best = match find_last (older p) ps with Some n => (j + n)%nat | None => best end.
Proof.
  revert j best. induction ps as [|q ps IH]; intros j best; cbn [min_process find_last]; [done|].
  rewrite IH. destruct (find_last (older p) ps); [lia|].
  change (_ && _ && _) with (older p q). destruct (older p q); [lia|done].
Qed.

Lemma find_last_Some {A} (f : A → bool) l n :
  find_last f l = Some n → ∃ x, l !! n = Some x ∧ f x = true.
Proof.
  revert n. induction l as [|y l IH]; intros n; cbn [find_last]; [done|].
  destruct (find_last f l) as [m|].
  - intros [= <-]. apply (IH m eq_refl).
  - destruct (f y) eqn:E; [|done]. intros [= <-]. by exists y.
Qed.
Lemma find_last_None {A} (f : A → bool) l x : find_last f l = None → x ∈ l → f x = false.
Proof.
  induction l as [|y l IH]; cbn [find_last]; [by intros _ ?%not_elem_of_nil|].
  destruct (find_last f l); [done|]. destruct (f y) eqn:E; [done|].
  intros _ [->|H]%elem_of_cons; [done|by apply IH].
Qed.

Lemma find_last_le {A} (f : A → bool) l n j x :
  find_last f l = Some n → l !! j = Some x → f x = true → (j ≤ n)%nat.
Proof.
  revert n j. induction l as [|y l IH]; intros n [|j] Hn Hj Hx; try done; [lia|].
  cbn [find_last] in Hn. simpl in Hj. destruct (find_last f l) as [m|] eqn:E.
  - injection Hn as <-. pose proof (IH m j eq_refl Hj Hx). lia.
  - pose proof (find_last_None f l x E (list_elem_of_lookup_2 _ _ _ Hj)). congruence.
Qed.

(** FCFS chooses a runnable process that is no younger than [p], and [p] itself
    only if no eligible process is older. *)
Lemma choose_fcfs_older ps i p :
  ps !! i = Some p → p_state p = RUNNABLE →
  ∃ q, ps !! choose FCFS ps i p = Some q ∧ p_state q = RUNNABLE ∧ p_ctime q ≤ p_ctime p ∧
       (choose FCFS ps i p = i →
        ∀ j r, ps !! j = Some r → p_state r = RUNNABLE → 2 < p_pid r → p_ctime p ≤ p_ctime r).
Proof.
  intros Hp Hr. unfold choose. rewrite min_process_last.
  destruct (find_last (older p) ps) as [n|] eqn:E; simpl.
  - destruct (find_last_Some _ _ _ E) as (q & Hq & Ho). exists q. unfold older in Ho.
    apply andb_true_iff in Ho as [Ho Hc]. apply andb_true_iff in Ho as [Ho Hpid].
    apply bool_decide_eq_true in Ho. apply Z.ltb_lt in Hc. split; [done|]. split; [done|].
    split; [lia|]. intros ->. simplify_eq. lia.
  - exists p. split; [done|]. split; [done|]. split; [lia|]. intros _ j r Hj Hrr Hpid.
    pose proof (find_last_None _ _ r E ltac:(by eapply list_elem_of_lookup_2)) as Ho.
    unfold older in Ho. rewrite bool_decide_true in Ho by done.
    destruct (Z.leb_spec (p_pid r) 2); [lia|]. simpl in Ho. by apply Z.ltb_ge in Ho.
Qed.

(** Whatever the policy, a runnable process is chosen. *)
Lemma choose_runnable pol ps i p :
  ps !! i = Some p → p_state p = RUNNABLE →
  ∃ q, ps !! choose pol ps i p = Some q ∧ p_state q = RUNNABLE.
Proof.
  intros Hi Hs. destruct pol; [by eauto| | |by eauto].
  - destruct (choose_priority_best ps i p Hi Hs) as (q & ? & ? & _). eauto.
  - destruct (choose_fcfs_older ps i p Hi Hs) as (q & ? & ? & _). eauto.
Qed.

(** ** Dispatching *)

Lemma upd_cpu_on_cpu k i c f :
  on_cpu k i c → c_apicid (f c) = c_apicid c → c_ncli (f c) = c_ncli c → c_intena (f c) = c_intena c →
  on_cpu (k <| k_cpus := <[i := f c]> (k_cpus k) |>) i (f c).
Proof.
  intros [Hf Hc Hn Ho Hi] Ha Hnc Hie. split; simpl; rewrite ?Hnc, ?Hie; try done.
  - by rewrite (find_first_insert_same _ _ c).
  - apply list_lookup_insert_eq. by eapply lookup_lt_Some.
Qed.

Lemma switchuvm_ret k i c x p :
  on_cpu k i c → k_proc k !! x = Some p → p_kstack p ≠ 0 → p_pgdir p ≠ 0 →
  switchuvm (Some x) k = Ret tt
    (k <| k_cpus := <[i := c <| c_esp0 := u32 (p_kstack p + KSTACKSIZE) |>]> (k_cpus k) |>
       <| k_cr3 := V2P (p_pgdir p) |>).
Proof.
  intros Hoc Hp Hk Hg. unfold switchuvm. unfold bind at 1, gets at 1. rewrite Hp.
  unfold bind at 1, get_or, ret at 1.
  destruct (Z.eqb_spec (p_kstack p) 0), (Z.eqb_spec (p_pgdir p) 0); try done.
  erewrite bind_ret_eq by by apply pushcli_ret.
  erewrite bind_ret_eq.
  2: { eapply mycpu_run; [done|apply (oc_find _ _ _ (on_cpu_pushed _ _ _ Hoc))|apply land_cli]. }
  unfold bind, upd_cpu, modify. simpl.
  assert (i < length (k_cpus k))%nat by (destruct Hoc; by eapply lookup_lt_Some).
  rewrite alter_insert_same by done. simpl.
  set (c' := c <| c_esp0 := u32 (p_kstack p + KSTACKSIZE) |>).
  rewrite (popcli_pushed (k <| k_cpus := <[i := c']> (k_cpus k) |>) i c').
  - done.
  - by apply (upd_cpu_on_cpu k i c (λ c, c <| c_esp0 := u32 (p_kstack p + KSTACKSIZE) |>)).
  - simpl. by rewrite list_insert_insert_eq.
  - done.
  - done.
Qed.

(** The state in which the chosen process [x] starts to run. *)
Definition dispatched (k : kernel) (ci : nat) (c : cpu) (x : nat) (p : proc) : kernel :=
  k <| k_cpus := <[ci := c <| c_proc := Some x |>
                            <| c_esp0 := u32 (p_kstack p + KSTACKSIZE) |>]> (k_cpus k) |>
    <| k_cr3 := V2P (p_pgdir p) |>
    <| k_proc := <[x := p <| p_state := RUNNING |> <| p_num_run := s32 (p_num_run p + 1) |>]> (k_proc k) |>.

Lemma dispatch_ret run k ci c x p k' :
  on_cpu k ci c → k_proc k !! x = Some p → p_kstack p ≠ 0 → p_pgdir p ≠ 0 →
  run x (dispatched k ci c x p) = Ret tt k' →
  dispatch run ci x k = Ret tt
    (k' <| k_cr3 := V2P (k_kpgdir k') |>
        <| k_cpus := alter (λ c, c <| c_proc := None |>) ci (k_cpus k') |>).
Proof.
  intros Hoc Hp Hk Hg Hrun. unfold dispatch.
  assert (ci < length (k_cpus k))%nat by (destruct Hoc; by eapply lookup_lt_Some).
  assert (x < length (k_proc k))%nat by by eapply lookup_lt_Some.
  unfold bind at 1, upd_cpu at 1, modify at 1. rewrite (alter_lookup _ _ _ _ (oc_cpu _ _ _ Hoc)).
  erewrite bind_ret_eq.
  2: { eapply switchuvm_ret; [|done|done|done].
       by apply (upd_cpu_on_cpu k ci c (λ c, c <| c_proc := Some x |>)). }
  unfold bind at 1 2, upd_proc at 1 2, modify at 1 2. simpl.
  rewrite (alter_lookup _ _ _ _ Hp), alter_insert_same, list_insert_insert_eq by done. simpl.
  erewrite bind_ret_eq; [|exact Hrun]. done.
Qed.

(** ** Round robin *)

(** A process that has run or can run has a kernel stack and a page table. *)
Definition image_ok (p : proc) : Prop :=
  p_state p = RUNNABLE ∨ p_state p = RUNNING ∨ p_state p = SLEEPING → p_kstack p ≠ 0 ∧ p_pgdir p ≠ 0.

(** What the scheduler of processor [ci] relies on between two dispatches. *)
Record sched_ok (ci : nat) (k : kernel) : Prop := {
  so_cpu : ∃ c, on_cpu k ci c;
  so_policy : k_policy k = DEFAULT;
  so_len : length (k_proc k) = NPROC;
  so_table j p : k_proc k !! j = Some p → image_ok p
}.

(** A process that runs comes back to the scheduler.  Until then it, and the
    other processors, may have changed any entry of the table, created and
    removed processes, written memory and the disk. *)
Definition comes_back (run : nat → K unit) (ci : nat) : Prop :=
  ∀ x k p, sched_ok ci k → k_proc k !! x = Some p → p_state p = RUNNING →
  ∃ k', run x k = Ret tt k' ∧ sched_ok ci k'.

Lemma sched_ok_dispatched ci k c x p :
  sched_ok ci k → on_cpu k ci c → k_proc k !! x = Some p → p_state p = RUNNABLE →
  sched_ok ci (dispatched k ci c x p).
Proof.
  intros [_ Hpol Hlen Hok] Hoc Hp Hst. assert (x < length (k_proc k))%nat by by eapply lookup_lt_Some.
  split; [|done|simpl; by rewrite length_insert|].
  - pose proof (upd_cpu_on_cpu k ci c (λ c, c <| c_proc := Some x |>
      <| c_esp0 := u32 (p_kstack p + KSTACKSIZE) |>) Hoc) as H'.
    specialize (H' eq_refl eq_refl eq_refl). simpl in H'. eexists. by eapply on_cpu_ext; [exact H'|..].
  - intros j q. simpl. destruct (decide (j = x)) as [->|Hne].
    + rewrite list_lookup_insert_eq by done. intros [= <-] _. apply (Hok x p Hp). by left.
    + rewrite list_lookup_insert_ne by done. apply Hok.
Qed.

Lemma sched_ok_back ci k :
  sched_ok ci k →
  sched_ok ci (k <| k_cr3 := V2P (k_kpgdir k) |>
                 <| k_cpus := alter (λ c, c <| c_proc := None |>) ci (k_cpus k) |>).
Proof.
  intros [[c Hoc] Hpol Hlen Hok]. split; [|done..].
  pose proof (upd_cpu_on_cpu k ci c (λ c, c <| c_proc := None |>) Hoc) as H'. specialize (H' eq_refl eq_refl eq_refl). simpl in H'.
  exists (c <| c_proc := None |>). rewrite (alter_lookup _ _ _ _ (oc_cpu _ _ _ Hoc)). by eapply on_cpu_ext; [exact H'|..].
Qed.

(** A dispatch is the run of the process, from the state in which its entry is
    RUNNING and counted to the state in which the processor is idle again. *)
Lemma dispatch_comes_back run k ci x p :
  comes_back run ci → sched_ok ci k → k_proc k !! x = Some p → p_state p = RUNNABLE →
  ∃ c k1 k', run x (dispatched k ci c x p) = Ret tt k1 ∧ k_proc k' = k_proc k1 ∧
    dispatch run ci x k = Ret tt k' ∧ sched_ok ci k'.
Proof.
  intros Hrun Hso Hp Hst. destruct (so_cpu _ _ Hso) as [c Hoc].
  destruct (so_table _ _ Hso x p Hp) as [Hk Hg]; [by left|].
  destruct (Hrun x (dispatched k ci c x p) (p <| p_state := RUNNING |> <| p_num_run := s32 (p_num_run p + 1) |>))
    as (k1 & Hr & Hso1); [by apply sched_ok_dispatched|simpl; apply list_lookup_insert_eq; by eapply lookup_lt_Some|done|].
  eexists c, k1, _. split; [exact Hr|]. split; [|split; [by eapply dispatch_ret|by apply sched_ok_back]]. done.
Qed.

(** Entry [j] in its turn: it is dispatched when it is RUNNABLE, and skipped
    when it is not. *)
Definition turn (run : nat → K unit) (ci j : nat) (k k' : kernel) : Prop :=
  ∃ p, k_proc k !! j = Some p ∧
    if bool_decide (p_state p = RUNNABLE) then dispatch run ci j k = Ret tt k' else k' = k.

Lemma table_loop_turn run ci fuel k i :
  comes_back run ci → sched_ok ci k → (i < NPROC)%nat →
  ∃ k1, sched_ok ci k1 ∧ turn run ci i k k1 ∧ table_loop run ci (S fuel) i k = table_loop run ci fuel (S i) k1.
Proof.
  intros Hrun Hso Hi. destruct (lookup_lt_is_Some_2 (k_proc k) i) as [p Hp]; [rewrite (so_len _ _ Hso); lia|].
  unfold turn. cbn [table_loop]. rewrite (proj2 (Nat.ltb_lt _ _) Hi).
  unfold get_proc. unfold bind at 1, gets at 1. unfold bind at 1 2, gets at 1.
  rewrite Hp. unfold get_or, ret at 1.
  destruct (bool_decide (p_state p = RUNNABLE)) eqn:Hst; cbn [negb].
  - destruct (dispatch_comes_back run k ci i p Hrun Hso Hp) as (c & k1 & k' & _ & _ & Hd & Hso').
    { by apply bool_decide_eq_true in Hst. }
    exists k'. split; [done|]. split; [by exists p; rewrite Hst|].
    unfold bind at 1, gets at 1. rewrite (so_policy _ _ Hso). cbn [choose]. by erewrite bind_ret_eq by exact Hd.
  - exists k. split; [done|]. split; [|done]. by exists p; rewrite Hst.
Qed.

Lemma table_loop_rr run ci fuel k i :
  comes_back run ci → sched_ok ci k → (i ≤ NPROC)%nat → (NPROC - i < fuel)%nat →
  ∃ ks : nat → kernel, ks i = k ∧ table_loop run ci fuel i k = Ret tt (ks NPROC) ∧
    ∀ j, (i ≤ j < NPROC)%nat → sched_ok ci (ks j) ∧ turn run ci j (ks j) (ks (S j)).
Proof.
  intros Hrun. revert k i. induction fuel as [|fuel IH]; intros k i Hso Hi Hf; [lia|].
  destruct (decide (i < NPROC)%nat) as [Hlt|Hge].
  - destruct (table_loop_turn run ci fuel k i Hrun Hso Hlt) as (k1 & Hso1 & Ht & ->).
    destruct (IH k1 (S i)) as (ks & Hk1 & Hret & Hall); [done|lia|lia|].
    exists (λ j, if decide (j = i) then k else ks j). rewrite decide_True by done. split; [done|].
    rewrite decide_False by lia. split; [done|]. intros j Hj. rewrite (decide_False (P := S j = i)) by lia.
    case_decide as Hji; [subst j; by rewrite Hk1|]. apply Hall. lia.
  - exists (λ _, k). split; [done|]. split; [|lia]. cbn [table_loop].
    by rewrite (proj2 (Nat.ltb_ge _ _)) by lia.
Qed.

(** A process that every other process leaves runnable is still runnable when
    its turn comes. *)
Definition leaves_runnable (run : nat → K unit) (j : nat) : Prop :=
  ∀ x k k', x ≠ j → run x k = Ret tt k' →
  p_state <$> k_proc k !! j = Some RUNNABLE → p_state <$> k_proc k' !! j = Some RUNNABLE.

Lemma turn_leaves_runnable run ci i j k k' :
  comes_back run ci → sched_ok ci k → leaves_runnable run j → i ≠ j → turn run ci i k k' →
  p_state <$> k_proc k !! j = Some RUNNABLE → p_state <$> k_proc k' !! j = Some RUNNABLE.
Proof.
  intros Hrun Hso Hl Hne (p & Hp & Ht) Hj. destruct (bool_decide_reflect (p_state p = RUNNABLE)) as [Hst|]; [|by subst].
  destruct (dispatch_comes_back run k ci i p Hrun Hso Hp Hst) as (c & k1 & k2 & Hr & Hk & Hd & _).
  rewrite Hd in Ht. injection Ht as <-. rewrite Hk. eapply Hl; [done|exact Hr|].
  simpl. by rewrite list_lookup_insert_ne.
Qed.

Lemma turn_reached run ci (ks : nat → kernel) j n :
  comes_back run ci → leaves_runnable run j →
  (∀ i, (i < n)%nat → sched_ok ci (ks i) ∧ turn run ci i (ks i) (ks (S i))) → (n ≤ j)%nat →
  p_state <$> k_proc (ks 0%nat) !! j = Some RUNNABLE → p_state <$> k_proc (ks n) !! j = Some RUNNABLE.
Proof.
  intros Hrun Hl Hall Hn H0. induction n as [|n IH]; [done|]. destruct (Hall n) as [Hso Ht]; [lia|].
  eapply turn_leaves_runnable; [done|done|done| |exact Ht|]; [lia|]. apply IH; [|lia]. intros i Hi. apply Hall. lia.
Qed.

(** ** Demotion *)

Lemma zero_ticks_ret k x p q :
  k_proc k !! x = Some p → length (p_ticks p) = 5%nat → (q < 5)%nat →
  zero_ticks x (Z.of_nat q) k =
  Ret tt (k <| k_proc := <[x := p <| p_ticks := <[q := 0]> (p_ticks p) |>]> (k_proc k) |>).
Proof.
  intros Hp Hl Hq. unfold zero_ticks, get_proc, bind, gets, get_or. rewrite Hp. unfold ret.
  rewrite aset_nat by lia. unfold upd_proc, modify. by rewrite (alter_lookup _ _ _ _ Hp).
Qed.

Lemma push_queue_ret k q x m m' :
  k_queue k !! q = Some m → push x m = Some m' →
  push_queue q x k = Ret tt (k <| k_queue := <[q := m']> (k_queue k) |>).
Proof.
  intros Hm Hp. unfold push_queue, get_queue, set_queue, bind, gets, get_or, modify. rewrite Hm.
  unfold ret. by rewrite Hp.
Qed.

(** Taking entry [i] out of queue [q] after resetting the slice of [x]. *)
Lemma leave_queue k q i x p m :
  (q < 5)%nat → k_proc k !! x = Some p → length (p_ticks p) = 5%nat →
  k_queue k !! q = Some m → mlq_ok m → Z.of_nat i ≤ q_c m →
  ∃ m', (zero_ticks x (Z.of_nat q) ;; m ← get_queue q;
         m' ← get_or "delete from queue" (remove_at (Z.of_nat i) m); set_queue q m') k =
        Ret tt (k <| k_proc := <[x := p <| p_ticks := <[q := 0]> (p_ticks p) |>]> (k_proc k) |>
                  <| k_queue := <[q := m']> (k_queue k) |>) ∧
        mlq_ok m' ∧ live m' = delete i (live m).
Proof.
  intros Hq Hp Hlen Hm Hok Hi.
  destruct (remove_at_ok i m Hok Hi) as (m' & Hr & Hok' & Hlive & _).
  exists m'. split; [|done]. erewrite bind_ret_eq by by apply zero_ticks_ret.
  unfold get_queue, set_queue, bind, gets, get_or, modify. simpl. rewrite Hm. unfold ret.
  by rewrite Hr.
Qed.

Section demotion.
Context (k : kernel) (q i x : nat) (p : proc) (m m2 : mlq).
Context (Hq : (q < 4)%nat) (Hp : k_proc k !! x = Some p) (Hlen : length (p_ticks p) = 5%nat).
Context (Hm : k_queue k !! q = Some m) (Hok : mlq_ok m) (Hi : Z.of_nat i ≤ q_c m).

Lemma demote_stays : expired q p = false → demote q (Z.of_nat i) x k = Ret tt k.
Proof.
  intros He. unfold demote, get_proc, bind at 1 2, gets at 1, get_or. rewrite Hp. unfold ret at 1.
  by rewrite He.
Qed.

(** A process that used up its slice goes to the tail of the next queue. *)
Lemma demote_moves :
  expired q p = true → p_killed p = 0 →
  k_queue k !! S q = Some m2 → mlq_ok m2 → q_c m2 + 1 < Z.of_nat NQUEUE →
  ∃ k' m' m2', demote q (Z.of_nat i) x k = Ret tt k' ∧
    k_queue k' = <[q := m']> (<[S q := m2']> (k_queue k)) ∧ mlq_ok m' ∧ mlq_ok m2' ∧
    live m' = delete i (live m) ∧ live m2' = live m2 ++ [Some x] ∧
    k_proc k' = <[x := p <| p_current_queue := p_current_queue p + 1 |>
                         <| p_ticks := <[q := 0]> (p_ticks p) |>]> (k_proc k).
Proof.
  intros He Hk Hm2 Hok2 Hroom. assert (x < length (k_proc k))%nat by by eapply lookup_lt_Some.
  destruct (push_ok x m2 Hok2 Hroom) as (m2' & Hpush & Hok2' & Hlive2 & _).
  unfold demote. unfold get_proc at 1, bind at 1 2, gets at 1, get_or at 1. rewrite Hp. unfold ret at 1.
  rewrite He, Hk. cbn [when Z.eqb].
  unfold upd_proc at 1. erewrite (bind_ret_eq (bind _ _)).
  2: { unfold bind at 1, modify at 1. rewrite (alter_lookup _ _ _ _ Hp).
       by apply push_queue_ret with (m := m2) (m' := m2'). }
  destruct (leave_queue (k <| k_proc := <[x := p <| p_current_queue := p_current_queue p + 1 |>]> (k_proc k) |>
      <| k_queue := <[S q := m2']> (k_queue k) |>) q i x
      (p <| p_current_queue := p_current_queue p + 1 |>) m) as (m' & Hret & Hok' & Hlive).
  - lia. - simpl. by apply list_lookup_insert_eq. - done.
  - simpl. by rewrite list_lookup_insert_ne by lia. - done. - done.
  - eexists _, m', m2'. split; [exact Hret|]. simpl. rewrite list_insert_insert_eq. done.
Qed.

(** A killed process is only taken out. *)
Lemma demote_killed :
  expired q p = true → p_killed p ≠ 0 →
  ∃ k' m', demote q (Z.of_nat i) x k = Ret tt k' ∧
    k_queue k' = <[q := m']> (k_queue k) ∧ mlq_ok m' ∧ live m' = delete i (live m).
Proof.
  intros He Hk. unfold demote. unfold get_proc at 1, bind at 1 2, gets at 1, get_or at 1.
  rewrite Hp. unfold ret at 1. rewrite He. destruct (Z.eqb_spec (p_killed p) 0); [done|]. cbn [when].
  destruct (leave_queue k q i x p m) as (m' & Hret & Hok' & Hlive); [lia|done..|].
  eexists _, m'. split; [exact Hret|]. done.
Qed.
End demotion.

(** ** Queue 4 *)

Lemma live_length_lookup m i : mlq_ok m → (Z.of_nat i ≤ q_c m) → ∃ e, live m !! i = Some e.
Proof. intros Hok Hi. pose proof (length_live m Hok). apply lookup_lt_is_Some_2. lia. Qed.

(** Shifting the tail down leaves a second copy of the last entry. *)
Lemma shift_live m i :
  mlq_ok m → Z.of_nat i ≤ q_c m →
  ∃ slots e, shift (Z.to_nat (q_c m - Z.of_nat i)) (Z.of_nat i) (q_slot m) = Some slots ∧
    length slots = NQUEUE ∧ last (live m) = Some e ∧
    live (m <| q_slot := slots |>) = delete i (live m) ++ [e].
Proof.
  intros Hok Hi. pose proof (length_live m Hok) as Hlen.
  destruct (remove_at_ok i m Hok Hi) as (m' & Hr & Hok' & Hlive & Hc).
  unfold remove_at in Hr. destruct (shift _ _ _) as [slots|] eqn:Hsh; [|done]. injection Hr as <-.
  destruct (live_length_lookup m (Z.to_nat (q_c m)) Hok) as [e He]; [lia|].
  exists slots, e. split; [done|]. split; [apply (mq_len _ Hok')|]. split.
  { rewrite last_lookup. rewrite <-He. f_equal. lia. }
  destruct Hok as [Hl Hr]. unfold NQUEUE in *.
  rewrite shift_spec in Hsh by lia. injection Hsh as Hsh.
  unfold live in *. simpl in *. rewrite <-Hlive.
  replace (Z.to_nat (q_c m + 1)) with (S (Z.to_nat (q_c m - 1 + 1))) by lia.
  apply take_S_r. rewrite <-Hsh.
  rewrite lookup_app_r by (rewrite length_take; lia).
  rewrite length_take, lookup_app_r by (rewrite length_take, length_drop; lia).
  rewrite length_take, length_drop, lookup_drop.
  rewrite lookup_take_Some in He. destruct He as [He _]. rewrite <-He. f_equal. lia.
Qed.

(** In queue 4 a process that ran goes to the tail of the queue. *)
Lemma rotate_moves k i x p m :
  k_proc k !! x = Some p → p_killed p = 0 → k_queue k !! 4%nat = Some m → mlq_ok m →
  Z.of_nat i ≤ q_c m →
  ∃ m', rotate (Z.of_nat i) x k = Ret tt (k <| k_queue := <[4%nat := m']> (k_queue k) |>) ∧
    mlq_ok m' ∧ live m' = delete i (live m) ++ [Some x].
Proof.
  intros Hp Hk Hm Hok Hi. pose proof (length_live m Hok) as Hlen.
  destruct (shift_live m i Hok Hi) as (slots & e & Hsh & Hls & _ & Hlive).
  pose proof (mq_c _ Hok) as Hc.
  exists (m <| q_slot := <[Z.to_nat (q_c m) := Some x]> slots |>). split; [|split].
  - unfold rotate, get_proc, get_queue, set_queue, bind, gets, get_or, modify. rewrite Hp. unfold ret.
    rewrite Hm, Hsh, Hk. simpl.
    replace (aset slots (q_c m) (Some x)) with (Some (<[Z.to_nat (q_c m) := Some x]> slots)); [done|].
    rewrite <-aset_nat by (unfold NQUEUE in *; lia). f_equal. lia.
  - split; simpl; [by rewrite length_insert|done].
  - unfold live in *. simpl in *. rewrite take_insert_lt by lia. rewrite Hlive.
    rewrite insert_app_r_alt.
    + replace (Z.to_nat (q_c m) - length (delete i (take (Z.to_nat (q_c m + 1)) (q_slot m))))%nat with 0%nat.
      { done. }
      rewrite length_delete by (apply lookup_lt_is_Some_2; lia). lia.
    + rewrite length_delete by (apply lookup_lt_is_Some_2; lia). lia.
Qed.

(** A killed process of queue 4 is shifted out, but the queue keeps its length:
    its last entry is then in it twice. *)
Lemma rotate_killed k i x p m :
  k_proc k !! x = Some p → p_killed p ≠ 0 → k_queue k !! 4%nat = Some m → mlq_ok m →
  Z.of_nat i ≤ q_c m →
  ∃ m' e, rotate (Z.of_nat i) x k = Ret tt (k <| k_queue := <[4%nat := m']> (k_queue k) |>) ∧
    last (live m) = Some e ∧ live m' = delete i (live m) ++ [e].
Proof.
  intros Hp Hk Hm Hok Hi.
  destruct (shift_live m i Hok Hi) as (slots & e & Hsh & _ & Hlast & Hlive).
  exists (m <| q_slot := slots |>), e. split; [|done].
  unfold rotate, get_proc, get_queue, set_queue, bind, gets, get_or, modify. rewrite Hp. unfold ret.
  rewrite Hm, Hsh. by destruct (Z.eqb_spec (p_killed p) 0).
Qed.

(** ** Ageing *)

Definition aged (q : nat) (t : Z) (p : proc) : proc :=
  p <| p_current_queue := p_current_queue p - 1 |>
    <| p_ticks := <[(q - 1)%nat := 0]> (p_ticks p) |> <| p_start := s32 t |>.

Lemma age_msg_chars q a b :
  ∃ out, cprintf_chars (chars (age_msg q)) [CInt a; CInt b] = Some out.
Proof.
  unfold age_msg. do 4 (destruct q as [|q]; [eexists; reflexivity|]). eexists; reflexivity.
Qed.

(** [ageing] appends the process to the queue above, and then [rem_process],
    called with the decremented queue number, takes it out of there again: both
    queues are as before and the process keeps waiting in queue [q]. *)
Lemma age_entry_stays k q x p m :
  cons_ready k → (1 ≤ q ≤ 4)%nat → k_proc k !! x = Some p → p_state p = RUNNABLE →
  waited_long (k_ticks k) p = true → p_current_queue p = Z.of_nat q → length (p_ticks p) = 5%nat →
  k_queue k !! (q - 1)%nat = Some m → mlq_ok m → q_c m + 1 < Z.of_nat NQUEUE →
  entries_ok (k_proc k) (live m) → (∀ e, e ∈ live m → has_pid (k_proc k) (p_pid p) e = false) →
  ∃ k' m', age_entry q x k = Ret tt k' ∧
    k_queue k' = <[(q - 1)%nat := m']> (k_queue k) ∧ mlq_ok m' ∧ live m' = live m ∧
    k_proc k' = <[x := aged q (k_ticks k) p]> (k_proc k).
Proof.
  intros Hcons Hq Hp Hst Hw Hcq Hlen Hm Hok Hroom Hent Hno.
  destruct (age_msg_chars q (p_pid p) (p_waittime p)) as [out Hout].
  assert (x < length (k_proc k))%nat as Hx by by eapply lookup_lt_Some.
  destruct (push_ok x m Hok Hroom) as (m1 & Hpush & Hok1 & Hlive1 & _).
  unfold age_entry. unfold get_proc at 1, bind at 1 2, gets at 1, get_or at 1. rewrite Hp.
  unfold ret at 1. unfold bind at 1, gets at 1. rewrite bool_decide_true, Hw by done. cbn [andb when].
  erewrite bind_ret_eq by by eapply cprintf_ret. unfold bind at 1, upd_proc at 1, modify at 1.
  unfold get_proc at 1, bind at 1 2, gets at 1, get_or at 1. simpl.
  rewrite (alter_lookup _ _ _ _ Hp), list_lookup_insert_eq by done. unfold ret at 1. simpl.
  rewrite Hcq. replace (Z.of_nat q - 1) with (Z.of_nat (q - 1)) by lia.
  erewrite bind_ret_eq.
  2: { apply zero_ticks_ret; [simpl; by apply list_lookup_insert_eq|done|lia]. }
  unfold bind at 1, upd_proc at 1, modify at 1. simpl.
  rewrite list_insert_insert_eq, alter_insert_same by done. simpl.
  erewrite bind_ret_eq by by apply push_queue_ret with (m := m) (m' := m1).
  set (p1 := aged q (k_ticks k) p).
  match goal with |- context [rem_process _ _ ?k0] => set (k1 := k0) end.
  assert (k_proc k1 = <[x := p1]> (k_proc k)) as Hk1.
  { simpl. unfold p1, aged. rewrite Hcq. by replace (Z.of_nat q - 1) with (Z.of_nat (q - 1)) by lia. }
  assert (∀ e, has_pid (k_proc k1) (p_pid p) e = has_pid (k_proc k) (p_pid p) e) as Hhas.
  { intros e. rewrite Hk1. rewrite <-(alter_lookup (λ _, p1) _ _ _ Hp).
    destruct e as [y|]; [|done]. unfold has_pid. destruct (decide (x = y)) as [<-|Hne].
    - by rewrite list_lookup_alter_eq, Hp.
    - by rewrite list_lookup_alter_ne. }
  destruct (rem_process_ret (p_pid p) (q - 1) m1 k1) as (m' & Hret & Hok' & Hlive').
  - lia.
  - simpl. apply list_lookup_insert_eq. by eapply lookup_lt_Some.
  - done.
  - rewrite Hlive1, Hk1. apply Forall_app. split.
    + rewrite <-(alter_lookup (λ _, p1) _ _ _ Hp). by apply entries_ok_alter.
    + apply Forall_singleton. exists x, p1. split; [done|]. by apply list_lookup_insert_eq.
  - eexists _, m'. split; [exact Hret|]. simpl. rewrite list_insert_insert_eq.
    split; [done|]. split; [done|]. split; [|exact Hk1].
    rewrite Hlive', Hlive1. rewrite (rem_skip_once _ _ _ []).
    + by rewrite app_nil_r.
    + rewrite Hhas. simpl. by rewrite Hp, Z.eqb_refl.
    + intros e. rewrite app_nil_r, Hhas. apply Hno.
Qed.
