(* ===== verification/MainSched.v ===== *)
(** * MainSched: the schedulers

    What each scheduling policy picks, what a pass over the table or over the
    multi-level queues does, and where the queues depart from what they are
    meant to do. *)
From S2P Require Import Prelude.
From S2P Require Import Mem.
From S2P Require Import Str.
From S2P Require Import State.
From S2P Require Import Spin.
From S2P Require Import Boot.
From S2P Require Import Cons.
From S2P Require Import Kalloc.
From S2P Require Import Vm.
From S2P Require Import Frame.
From S2P Require Import VmSpec.
From S2P Require Import Mlq.
From S2P Require Import Proc.
From S2P Require Import ProcSpec.
From S2P Require Import ProcWait.
From S2P Require Import Sched.
From S2P Require Import SchedSpec.

(** Processes for the closed instances. *)
Definition ready_proc (pid prio ctime : Z) : proc :=
  zero_proc <| p_pid := pid |> <| p_state := RUNNABLE |> <| p_priority := prio |> <| p_ctime := ctime |>
    <| p_kstack := 0x80200000 |> <| p_pgdir := 0x80201000 |>.

(** ** Choosing a process *)

(** C37: under PRIORITY the entry dispatched is runnable and no runnable entry
    of the table has a smaller priority number. *)
Theorem priority_picks_minimum ps i p :
  ps !! i = Some p → p_state p = RUNNABLE →
  ∃ q, ps !! choose PRIORITY ps i p = Some q ∧ p_state q = RUNNABLE ∧
       ∀ j r, ps !! j = Some r → p_state r = RUNNABLE → p_priority q ≤ p_priority r.
Proof. apply choose_priority_best. Qed.

Lemma priority_picks_minimum_witness :
  let ps := [ready_proc 4 60 1; ready_proc 5 20 2; ready_proc 6 40 3] in
  ∃ q, ps !! choose PRIORITY ps 0 (ready_proc 4 60 1) = Some q ∧ p_state q = RUNNABLE ∧
       ∀ j r, ps !! j = Some r → p_state r = RUNNABLE → p_priority q ≤ p_priority r.
Proof. intros ps. apply (priority_picks_minimum ps 0 (ready_proc 4 60 1)); reflexivity. Defined.

(** Under FCFS the entry dispatched is runnable and was created no later
    than the entry the loop is at; when it is that entry itself, no runnable
    process beyond pid 2 is older. *)
Theorem fcfs_picks_older ps i p :
  ps !! i = Some p → p_state p = RUNNABLE →
  ∃ q, ps !! choose FCFS ps i p = Some q ∧ p_state q = RUNNABLE ∧ p_ctime q ≤ p_ctime p ∧
       (choose FCFS ps i p = i →
        ∀ j r, ps !! j = Some r → p_state r = RUNNABLE → 2 < p_pid r → p_ctime p ≤ p_ctime r).
Proof. apply choose_fcfs_older. Qed.

Lemma fcfs_picks_older_witness :
  let ps := [ready_proc 4 60 3; ready_proc 5 60 1] in
  ∃ q, ps !! choose FCFS ps 0 (ready_proc 4 60 3) = Some q ∧ p_state q = RUNNABLE ∧ p_ctime q ≤ 3.
Proof.
  intros ps. destruct (fcfs_picks_older ps 0 (ready_proc 4 60 3) eq_refl eq_refl) as (q & Hq & Hs & Hc & _).
  exists q. split_and!; [exact Hq|exact Hs|exact Hc].
Defined.



(** ** A pass over the table *)

(** C36: round robin.  Whatever the processes do to the kernel while they run,
    provided each comes back to the scheduler, a pass over the table ends; it
    gives every entry one turn, in the order of the table, and dispatches
    exactly the entries that are RUNNABLE in their turn.  A process that was
    runnable when the pass began, and that no other process takes off the
    runnable ones, is dispatched. *)
Theorem round_robin_pass run k ci :
  comes_back run ci → sched_ok ci k →
  ∃ ks : nat → kernel, ks 0%nat = k ∧ table_loop run ci (S NPROC) 0 k = Ret tt (ks NPROC) ∧
    (∀ j, (j < NPROC)%nat → turn run ci j (ks j) (ks (S j))) ∧
    ∀ j, p_state <$> k_proc k !! j = Some RUNNABLE → leaves_runnable run j →
      dispatch run ci j (ks j) = Ret tt (ks (S j)).
Proof.
  intros Hrun Hso. destruct (table_loop_rr run ci (S NPROC) k 0 Hrun Hso) as (ks & H0 & Hret & Hall); [lia|lia|].
  assert (∀ j, (j < NPROC)%nat → sched_ok ci (ks j) ∧ turn run ci j (ks j) (ks (S j))) as Hall' by (intros; apply Hall; lia).
  exists ks. split_and!; [done|done|intros j Hj; by apply Hall'|].
  intros j Hj Hl. destruct (k_proc k !! j) as [p|] eqn:Hp; [|done].
  pose proof (lookup_lt_Some _ _ _ Hp) as Hlt. rewrite (so_len _ _ Hso) in Hlt.
  destruct (Hall' j Hlt) as [_ (q & Hq & Ht)].
  pose proof (turn_reached run ci ks j j Hrun Hl) as Hr. rewrite H0, Hq, Hp in Hr. simpl in Hr.
  rewrite bool_decide_true in Ht; [done|].
  apply (inj Some). apply Hr; [intros i Hi; apply Hall'; lia|lia|done].
Qed.

(** Processes that give up the processor at once; the one in entry 0 wakes the
    one in entry 2 up. *)
Definition wake (p : proc) : proc :=
  if bool_decide (p_state p = SLEEPING) then p <| p_state := RUNNABLE |> else p.
Definition yield_and_wake (x : nat) : K unit :=
  upd_proc x (λ p, p <| p_state := RUNNABLE |>) ;;
  when (x =? 0)%nat (upd_proc 2 wake).
Definition rr_sample : kernel := sample DEFAULT
  <| k_proc := ready_proc 4 60 1 :: ready_proc 5 60 1 ::
               replicate 62 (ready_proc 6 60 1 <| p_state := SLEEPING |>) |>.

Lemma rr_sample_ok : sched_ok 0 rr_sample.
Proof.
  split; [exists sample_cpu; by split|reflexivity|reflexivity|].
  change (k_proc rr_sample) with (ready_proc 4 60 1 :: ready_proc 5 60 1 ::
    replicate 62 (ready_proc 6 60 1 <| p_state := SLEEPING |>)).
  intros [|[|j]] p; simpl; [by intros [= <-]..|]. intros [-> _]%(lookup_replicate 62). done.
Qed.

Lemma sched_ok_alter ci k x f :
  sched_ok ci k → (∀ p, k_proc k !! x = Some p → image_ok p → image_ok (f p)) →
  sched_ok ci (k <| k_proc := alter f x (k_proc k) |>).
Proof.
  intros [[c Hc] Hp Hl Ht] Hf. split; [exists c; by eapply on_cpu_ext|done|simpl; by rewrite length_alter|].
  intros j p. simpl. destruct (decide (x = j)) as [->|Hne].
  - rewrite list_lookup_alter_eq. destruct (k_proc k !! j) as [q|] eqn:Hq; [|done].
    intros [= <-]. apply Hf; [done|by apply (Ht j)].
  - rewrite list_lookup_alter_ne by done. apply Ht.
Qed.

Lemma wake_image p : image_ok p → image_ok (wake p).
Proof. unfold wake, image_ok. destruct (bool_decide_reflect (p_state p = SLEEPING)); [|done]. simpl. tauto. Qed.

Lemma yield_and_wake_back : comes_back yield_and_wake 0.
Proof.
  intros x k p Hso Hp Hst. unfold yield_and_wake, upd_proc, bind, modify.
  assert (sched_ok 0 (k <| k_proc := alter (λ p, p <| p_state := RUNNABLE |>) x (k_proc k) |>)) as Hso1.
  { apply sched_ok_alter; [done|]. intros q Hq. rewrite Hp in Hq. injection Hq as <-. unfold image_ok. simpl. tauto. }
  destruct (x =? 0)%nat; simpl; eexists; (split; [reflexivity|]); [|done].
  apply (sched_ok_alter 0 _ 2 wake Hso1). intros q _. apply wake_image.
Qed.

Lemma yield_and_wake_leaves j : leaves_runnable yield_and_wake j.
Proof.
  intros x k k' Hx. unfold yield_and_wake, upd_proc, bind, modify.
  assert (∀ f (ps : list proc) y, (∀ p, p_state p = RUNNABLE → p_state (f p) = RUNNABLE) →
    p_state <$> ps !! j = Some RUNNABLE → p_state <$> alter f y ps !! j = Some RUNNABLE) as Hf.
  { intros f ps y Hf Hj. destruct (decide (y = j)) as [->|Hne].
    - rewrite list_lookup_alter_eq. destruct (ps !! j); [|done]. injection Hj as Hj. simpl. by rewrite Hf.
    - by rewrite list_lookup_alter_ne. }
  destruct (x =? 0)%nat; simpl; intros [= <-] Hj; simpl; [apply Hf|]; try (apply Hf; [done|exact Hj]).
  intros p Hp. unfold wake. by rewrite bool_decide_false by (rewrite Hp; done).
Qed.

Lemma round_robin_pass_witness :
  ∃ ks : nat → kernel, table_loop yield_and_wake 0 (S NPROC) 0 rr_sample = Ret tt (ks NPROC) ∧
    dispatch yield_and_wake 0 1 (ks 1%nat) = Ret tt (ks 2%nat) ∧
    turn yield_and_wake 0 2 (ks 2%nat) (ks 3%nat).
Proof.
  destruct (round_robin_pass yield_and_wake rr_sample 0) as (ks & _ & H & Ht & Hd).
  - apply yield_and_wake_back.
  - apply rr_sample_ok.
  - exists ks. split_and!; [exact H|apply Hd; [reflexivity|]|apply Ht; unfold NPROC; lia].
    apply yield_and_wake_leaves.
Defined.

(** ** The multi-level feedback queues *)

(** What happens to entry [i] of queue [q] (0..3) when its process comes
    back: with its slice not used up nothing changes; when it is used up and the
    process is alive it goes to the tail of the next queue, its level is one
    higher and its slice starts anew; a process that was killed only leaves the
    queue.  The other entries keep their order. *)
Theorem demotion_effect k q i x p m m2 :
  (q < 4)%nat → k_proc k !! x = Some p → length (p_ticks p) = 5%nat →
  k_queue k !! q = Some m → mlq_ok m → Z.of_nat i ≤ q_c m →
  k_queue k !! S q = Some m2 → mlq_ok m2 → q_c m2 + 1 < Z.of_nat NQUEUE →
  if negb (expired q p) then demote q (Z.of_nat i) x k = Ret tt k
  else ∃ k' m', demote q (Z.of_nat i) x k = Ret tt k' ∧ mlq_ok m' ∧ live m' = delete i (live m) ∧
    if p_killed p =? 0 then
      ∃ m2', k_queue k' = <[q := m']> (<[S q := m2']> (k_queue k)) ∧ mlq_ok m2' ∧ live m2' = live m2 ++ [Some x] ∧
        k_proc k' = <[x := p <| p_current_queue := p_current_queue p + 1 |>
                             <| p_ticks := <[q := 0]> (p_ticks p) |>]> (k_proc k)
    else k_queue k' = <[q := m']> (k_queue k).
Proof.
  intros Hq Hp Hl Hm Hok Hi Hm2 Hok2 Hroom. destruct (expired q p) eqn:He; simpl; [|by eapply demote_stays].
  destruct (Z.eqb_spec (p_killed p) 0) as [Hk|Hk].
  - destruct (demote_moves k q i x p m m2 Hq Hp Hl Hm Hok Hi He Hk Hm2 Hok2 Hroom)
      as (k' & m' & m2' & ? & ? & ? & ? & ? & ? & ?). eauto 12.
  - destruct (demote_killed k q i x p m Hq Hp Hl Hm Hok Hi He Hk) as (k' & m' & ? & ? & ? & ?). eauto 10.
Qed.

Definition demote_sample : kernel :=
  sample MLFQ <| k_proc := <[1%nat := ready_proc 5 60 1 <| p_ticks := [1; 0; 0; 0; 0] |>]> sample_procs |>.
Lemma demotion_effect_witness :
  ∃ k' m' m2', demote 0 1 1 demote_sample = Ret tt k' ∧ live m' = Some <$> [0; 2]%nat ∧ live m2' = [Some 1%nat] ∧
    k_queue k' = <[0%nat := m']> (<[1%nat := m2']> (k_queue demote_sample)).
Proof.
  destruct (demotion_effect demote_sample 0 1 1 (ready_proc 5 60 1 <| p_ticks := [1; 0; 0; 0; 0] |>)
    (mkMlq ([Some 0; Some 1; Some 2]%nat ++ replicate 61 None) 2) empty_queue)
    as (k' & m' & H & _ & Hl & m2' & Hq & _ & Hl2 & _);
    [lia|reflexivity|reflexivity|reflexivity|by split|simpl; lia|reflexivity|by split|reflexivity|].
  exists k', m', m2'. split_and!; [exact H|exact Hl|exact Hl2|exact Hq].
Defined.

(** In the last queue a process that comes back alive moves to the tail,
    the others keep their order and none is lost: round robin. *)
Theorem last_queue_rotates k i x p m :
  k_proc k !! x = Some p → p_killed p = 0 → k_queue k !! 4%nat = Some m → mlq_ok m →
  live m !! i = Some (Some x) →
  ∃ m', rotate (Z.of_nat i) x k = Ret tt (k <| k_queue := <[4%nat := m']> (k_queue k) |>) ∧
    mlq_ok m' ∧ live m' = delete i (live m) ++ [Some x] ∧ live m' ≡ₚ live m.
Proof.
  intros Hp Hk Hm Hok Hi. pose proof (lookup_lt_Some _ _ _ Hi) as Hlt. pose proof (length_live m Hok) as Hlen.
  destruct (rotate_moves k i x p m Hp Hk Hm Hok) as (m' & Hr & Hok' & Hl); [lia|].
  exists m'. split_and!; try done. rewrite Hl. etrans; [apply Permutation_app_comm|].
  symmetry. by apply delete_Permutation.
Qed.

Definition rotate_sample : kernel :=
  sample MLFQ <| k_queue := replicate 4 empty_queue ++ [mkMlq ([Some 0; Some 1; Some 2]%nat ++ replicate 61 None) 2] |>.
Lemma last_queue_rotates_witness :
  ∃ m', rotate 0 0 rotate_sample = Ret tt (rotate_sample <| k_queue := <[4%nat := m']> (k_queue rotate_sample) |>) ∧
    live m' = Some <$> [1; 2; 0]%nat.
Proof.
  destruct (last_queue_rotates rotate_sample 0 0 (sample_proc 1 RUNNING None)
    (mkMlq ([Some 0; Some 1; Some 2]%nat ++ replicate 61 None) 2)) as (m' & H & _ & Hl & _);
    [reflexivity|reflexivity|reflexivity|by split|reflexivity|].
  exists m'. split; [exact H|exact Hl].
Defined.

(** C38: ageing does not move a process to the queue above.  A process of queue
    [q] that waited too long gets the level [q - 1], a message and a new start
    time, but the lowered level is also what [rem_process] is told, so the
    process stays in queue [q]; it is then appended to and removed from queue
    [q - 1], whose contents do not change. *)
Theorem ageing_keeps_queue k q x p m :
  cons_ready k → (1 ≤ q ≤ 4)%nat → k_proc k !! x = Some p → p_state p = RUNNABLE →
  waited_long (k_ticks k) p = true → p_current_queue p = Z.of_nat q → length (p_ticks p) = 5%nat →
  k_queue k !! (q - 1)%nat = Some m → mlq_ok m → q_c m + 1 < Z.of_nat NQUEUE →
  entries_ok (k_proc k) (live m) → (∀ e, e ∈ live m → has_pid (k_proc k) (p_pid p) e = false) →
  ∃ k' m' p', age_entry q x k = Ret tt k' ∧
    k_queue k' = <[(q - 1)%nat := m']> (k_queue k) ∧ live m' = live m ∧
    k_proc k' = <[x := p']> (k_proc k) ∧ p_current_queue p' = Z.of_nat q - 1.
Proof.
  intros Hc Hq Hp Hs Hw Hcur Hl Hm Hok Hroom He Hn.
  destruct (age_entry_stays k q x p m Hc Hq Hp Hs Hw Hcur Hl Hm Hok Hroom He Hn) as (k' & m' & ? & ? & ? & ? & Hps).
  exists k', m', (aged q (k_ticks k) p). split_and!; try done. simpl. by rewrite Hcur.
Qed.

Definition ageing_sample : kernel :=
  sample MLFQ <| k_proc := <[1%nat := ready_proc 5 60 1 <| p_current_queue := 1 |> <| p_waittime := 5 |>]> sample_procs |>
    <| k_queue := [empty_queue; mkMlq (Some 1%nat :: replicate 63 None) 0; empty_queue; empty_queue; empty_queue] |>.
Lemma ageing_keeps_queue_witness :
  ∃ k' m' p', age_entry 1 1 ageing_sample = Ret tt k' ∧
    k_queue k' = <[0%nat := m']> (k_queue ageing_sample) ∧ live m' = [] ∧
    k_proc k' = <[1%nat := p']> (k_proc ageing_sample) ∧ p_current_queue p' = 0.
Proof.
  apply (ageing_keeps_queue ageing_sample 1 1 (ready_proc 5 60 1 <| p_current_queue := 1 |> <| p_waittime := 5 |>) empty_queue);
    [by left|lia|reflexivity|reflexivity|reflexivity|reflexivity|reflexivity|reflexivity|by split|reflexivity|constructor|].
  by intros e ?%not_elem_of_nil.
Defined.

(** C39: [allocproc] appends every new process to [q0] and, unless the policy is
    MLFQ, nothing ever takes it out; once [q0] holds 64 entries the next call,
    with a free entry in the table, stores past the end of the array. *)
Theorem allocproc_overflows_queue k i c j p m :
  table_ready k i c → find_first is_unused (k_proc k) = Some j → k_proc k !! j = Some p →
  k_queue k !! 0%nat = Some m → mlq_ok m → q_c m + 1 = Z.of_nat NQUEUE →
  allocproc k = Fault "queue index out of range".
Proof.
  intros [Hoc Hl Hlen] Hj Hp Hm Hok Hfull. unfold allocproc.
  erewrite bind_ret_eq by by apply acquire_ret. unfold bind at 1, gets at 1.
  change (k_proc (locked_by LPtable i c k)) with (k_proc k). rewrite Hj.
  unfold claim_slot, upd_proc, push_queue, get_queue, bind, gets, modify, get_or, ret, fault. simpl.
  by rewrite Hm, (push_full j m Hok Hfull).
Qed.

Lemma allocproc_overflows_queue_witness :
  allocproc (sample DEFAULT <| k_queue := mkMlq (replicate 64 (Some 0%nat)) 63 :: replicate 4 empty_queue |>) =
  Fault "queue index out of range".
Proof.
  apply (allocproc_overflows_queue _ 0 sample_cpu 3 zero_proc (mkMlq (replicate 64 (Some 0%nat)) 63));
    [split; [by split|done|done]|reflexivity|reflexivity|reflexivity|by split|reflexivity].
Defined.

(** [rem_process] on a queue that holds the process once takes exactly that
    entry out and keeps the order of the others; when no entry has the pid the
    queue is unchanged.  The other queues never change. *)
Theorem rem_process_effect pid q m k l1 l2 x p :
  (q < 5)%nat → k_queue k !! q = Some m → mlq_ok m → entries_ok (k_proc k) (live m) →
  live m = l1 ++ Some x :: l2 → k_proc k !! x = Some p →
  (∀ e, e ∈ l1 ++ l2 → has_pid (k_proc k) pid e = false) →
  ∃ m', rem_process pid (Z.of_nat q) k = Ret tt (k <| k_queue := <[q := m']> (k_queue k) |>) ∧ mlq_ok m' ∧
    live m' = if p_pid p =? pid then l1 ++ l2 else live m.
Proof.
  intros Hq Hm Hok He Hl Hx Hn. destruct (rem_process_ret pid q m k Hq Hm Hok He) as (m' & Hr & Hok' & Hl').
  exists m'. split; [done|]. split; [done|]. rewrite Hl', Hl.
  destruct (Z.eqb_spec (p_pid p) pid) as [Hp|Hp].
  - apply rem_skip_once; [|done]. simpl. rewrite Hx. by apply Z.eqb_eq.
  - apply rem_skip_nomatch. intros e. rewrite elem_of_app, elem_of_cons. intros [?|[->|?]];
      [apply Hn; set_solver| |apply Hn; set_solver]. simpl. rewrite Hx. by apply Z.eqb_neq.
Qed.

Lemma rem_process_effect_witness :
  ∃ m', rem_process 2 0 (sample MLFQ) = Ret tt (sample MLFQ <| k_queue := <[0%nat := m']> (k_queue (sample MLFQ)) |>) ∧
    live m' = Some <$> [0; 2]%nat.
Proof.
  destruct (rem_process_effect 2 0 (mkMlq ([Some 0; Some 1; Some 2]%nat ++ replicate 61 None) 2) (sample MLFQ)
    [Some 0%nat] [Some 2%nat] 1 (sample_proc 2 RUNNABLE (Some 0%nat))) as (m' & H & _ & Hl);
    [lia|reflexivity|by split|repeat constructor; eexists _, _; done|reflexivity|reflexivity| |].
  - intros e [->|[->|[]%not_elem_of_nil]%elem_of_cons]%elem_of_cons; reflexivity.
  - exists m'. split; [exact H|exact Hl].
Defined.
