(* ===== verification/Pipe.v ===== *)
(** * Pipe: pipes ([pipe.c], without [pipealloc])

    A pipe is a 512-byte ring between two unbounded 32-bit counters.  Its
    content is the byte string between them; writing appends to it, reading
    takes from its front, whether or not the counters have wrapped around. *)
From S2P Require Import Prelude.
From S2P Require Import Mem.
From S2P Require Import Str.
From S2P Require Import State.
From S2P Require Import Spin.
From S2P Require Import Cons.
From S2P Require Import Kalloc.
From S2P Require Import Vm.
From S2P Require Import Frame.
From S2P Require Import Mlq.
From S2P Require Import Proc.
From S2P Require Import ProcSpec.

Module Pipe.

Definition PIPESIZE : Z := 512.

Definition get_pipe (p : Z) : K pipe :=
  ps ← gets k_pipes; get_or "pipe" (ps !! p).
Definition upd_pipe (p : Z) (f : pipe → pipe) : K unit :=
  modify (λ k, k <| k_pipes := alter f p (k_pipes k) |>).

Definition pipeclose (p : Z) (writable : Z) : K unit :=
  acquire (LPipe p) ;;
  (if truthy writable then
     upd_pipe p (λ pi, pi <| pi_writeopen := 0 |>) ;; wakeup (ChPipeR p)
   else
     upd_pipe p (λ pi, pi <| pi_readopen := 0 |>) ;; wakeup (ChPipeW p)) ;;
  pi ← get_pipe p;
  if (pi_readopen pi =? 0) && (pi_writeopen pi =? 0) then
    release (LPipe p) ;;
    kfree p ;;
    modify (λ k, k <| k_pipes := delete p (k_pipes k) |>)
  else release (LPipe p).

Definition myproc_killed : K bool :=
  i ← curproc; p ← get_proc i; ret (truthy (p_killed p)).

Definition pipe_full (pi : pipe) : bool :=
  pi_nwrite pi =? u32 (pi_nread pi + PIPESIZE).

(** [p->data[p->nwrite++ % PIPESIZE] = c] *)
Definition put_byte (c : Z) (pi : pipe) : pipe :=
  pi <| pi_data := <[Z.to_nat (pi_nwrite pi mod PIPESIZE) := u8 c]> (pi_data pi) |>
     <| pi_nwrite := u32 (pi_nwrite pi + 1) |>.

(** The rest of [pipewrite] when the bytes [bs] are still to be written, with
    the pipe's lock held. *)
Fixpoint pipewrite_loop (p : Z) (bs : list Z) (n : Z) : K Z :=
  match bs with
  | [] => wakeup (ChPipeR p) ;; release (LPipe p) ;; ret n
  | c :: bs' =>
      pi ← get_pipe p;
      if pipe_full pi then
        killed ← (if pi_readopen pi =? 0 then ret true else myproc_killed);
        if killed then release (LPipe p) ;; ret (-1)
        else
          wakeup (ChPipeR p) ;;
          sleep (ChPipeW p) (LPipe p) ;;
          ret 0
      else
        upd_pipe p (put_byte c) ;;
        pipewrite_loop p bs' n
  end.
Definition pipewrite (p : Z) (bs : list Z) : K Z :=
  acquire (LPipe p) ;; pipewrite_loop p bs (Z.of_nat (length bs)).
(** After the [sleep]: the test for a full pipe is made again. *)
Definition pipewrite_resume (me : nat) (intena : Z) (p : Z) (bs : list Z) (n : Z) : K Z :=
  sleep_resume me intena (LPipe p) ;; pipewrite_loop p bs n.

(** [addr[i] = p->data[p->nread++ % PIPESIZE]], for at most [n] bytes. *)
Fixpoint get_bytes (n : nat) (pi : pipe) : list Z * pipe :=
  match n with
  | O => ([], pi)
  | S n' =>
      if pi_nread pi =? pi_nwrite pi then ([], pi)
      else
        let c := default 0 (pi_data pi !! Z.to_nat (pi_nread pi mod PIPESIZE)) in
        let '(bs, pi') := get_bytes n' (pi <| pi_nread := u32 (pi_nread pi + 1) |>) in
        (c :: bs, pi')
  end.

(** [piperead] with the lock held: the result and the bytes stored from [addr]
    on. *)
Definition piperead_loop (p : Z) (n : Z) : K (Z * list Z) :=
  pi ← get_pipe p;
  if (pi_nread pi =? pi_nwrite pi) && truthy (pi_writeopen pi) then
    killed ← myproc_killed;
    if killed then release (LPipe p) ;; ret (-1, [])
    else sleep (ChPipeR p) (LPipe p) ;; ret (0, [])
  else
    let '(bs, pi') := get_bytes (Z.to_nat n) pi in
    upd_pipe p (λ _, pi') ;;
    wakeup (ChPipeW p) ;;
    release (LPipe p) ;;
    ret (Z.of_nat (length bs), bs).
Definition piperead (p : Z) (n : Z) : K (Z * list Z) :=
  acquire (LPipe p) ;; piperead_loop p n.
Definition piperead_resume (me : nat) (intena : Z) (p : Z) (n : Z) : K (Z * list Z) :=
  sleep_resume me intena (LPipe p) ;; piperead_loop p n.

(** ** The content of a pipe *)

Definition count (pi : pipe) : Z := u32 (pi_nwrite pi - pi_nread pi).
Definition at_index (pi : pipe) (j : Z) : Z :=
  default 0 (pi_data pi !! Z.to_nat (j mod PIPESIZE)).
Definition content (pi : pipe) : list Z :=
  (λ j, at_index pi (pi_nread pi + Z.of_nat j)) <$> seq 0 (Z.to_nat (count pi)).

Record pipe_ok (pi : pipe) : Prop := {
  po_len : length (pi_data pi) = 512%nat;
  po_count : count pi ≤ PIPESIZE;
  po_nread : 0 ≤ pi_nread pi < 4294967296;
  po_nwrite : 0 ≤ pi_nwrite pi < 4294967296
}.

Lemma count_range pi : 0 ≤ count pi < 4294967296.
Proof. apply u32_range. Qed.

Lemma length_content pi : Z.of_nat (length (content pi)) = count pi.
Proof. unfold content. rewrite length_fmap, length_seq. pose proof (count_range pi). lia. Qed.

Lemma pipe_full_iff pi : pipe_ok pi → pipe_full pi = bool_decide (count pi = PIPESIZE).
Proof.
  intros [Hl Hc Hr Hw]. unfold pipe_full, count, PIPESIZE in *.
  destruct (Z.eqb_spec (pi_nwrite pi) (u32 (pi_nread pi + 512))) as [He|He];
    [rewrite bool_decide_true|rewrite bool_decide_false]; unfold u32 in *; try done;
    Z.div_mod_to_equations; lia.
Qed.

Lemma pipe_empty_iff pi : pipe_ok pi → (pi_nread pi =? pi_nwrite pi) = bool_decide (count pi = 0).
Proof.
  intros [Hl Hc Hr Hw]. unfold count.
  destruct (Z.eqb_spec (pi_nread pi) (pi_nwrite pi)) as [He|He];
    [rewrite bool_decide_true|rewrite bool_decide_false]; unfold u32; try done;
    Z.div_mod_to_equations; lia.
Qed.

(** Counters are taken modulo 2^32, a multiple of the ring's size. *)
Lemma mod_u32 z : u32 z mod 512 = z mod 512.
Proof. unfold u32. Z.div_mod_to_equations. lia. Qed.

Lemma put_byte_ok c pi :
  pipe_ok pi → count pi < PIPESIZE →
  pipe_ok (put_byte c pi) ∧ content (put_byte c pi) = content pi ++ [u8 c] ∧
  count (put_byte c pi) = count pi + 1.
Proof.
  intros [Hl Hc Hr Hw] Hlt. pose proof (count_range pi) as Hcr.
  assert (count (put_byte c pi) = count pi + 1) as Hcount.
  { unfold count, put_byte, PIPESIZE in *. simpl. unfold u32 in *. Z.div_mod_to_equations. lia. }
  split; [|split; [|done]].
  - split; simpl; [by rewrite length_insert|lia|done|apply u32_range].
  - unfold content. rewrite Hcount.
    replace (Z.to_nat (count pi + 1)) with (Z.to_nat (count pi) + 1)%nat by lia.
    rewrite seq_app, fmap_app. simpl. f_equal.
    + apply list_fmap_ext. intros i j Hj. apply lookup_seq in Hj as [-> Hi]. simpl in *.
      unfold at_index. simpl. f_equal. apply list_lookup_insert_ne.
      unfold count, PIPESIZE, u32 in *. Z.div_mod_to_equations. lia.
    + f_equal. unfold at_index. simpl.
      assert ((pi_nread pi + Z.of_nat (Z.to_nat (count pi))) mod PIPESIZE = pi_nwrite pi mod PIPESIZE) as ->.
      { unfold count, PIPESIZE in *. rewrite Z2Nat.id by lia.
        rewrite Zplus_mod, mod_u32, <-Zplus_mod. f_equal. lia. }
      rewrite list_lookup_insert_eq; [done|]. unfold PIPESIZE. Z.div_mod_to_equations. lia.
Qed.

Lemma get_bytes_ok n pi :
  pipe_ok pi →
  let '(bs, pi') := get_bytes n pi in
  bs = take n (content pi) ∧ content pi' = drop n (content pi) ∧ pipe_ok pi'.
Proof.
  revert pi. induction n as [|n IH]; intros pi Hok; cbn [get_bytes]; [by rewrite take_0, drop_0|].
  rewrite pipe_empty_iff by done. pose proof (count_range pi) as Hcr. pose proof Hok as [Hl Hc Hr Hw].
  destruct (bool_decide_reflect (count pi = 0)) as [Hz|Hz].
  { unfold content. rewrite Hz. done. }
  set (pi1 := pi <| pi_nread := u32 (pi_nread pi + 1) |>).
  assert (count pi1 = count pi - 1) as Hc1.
  { unfold count, pi1 in *. simpl. unfold u32 in *. Z.div_mod_to_equations. lia. }
  assert (pipe_ok pi1) as Hok1 by (split; simpl; [done|lia|apply u32_range|done]).
  assert (content pi = at_index pi (pi_nread pi) :: content pi1) as Hcont.
  { unfold content. rewrite Hc1. replace (Z.to_nat (count pi)) with (S (Z.to_nat (count pi - 1))) by lia.
    simpl. rewrite Z.add_0_r. f_equal. rewrite <-fmap_S_seq, <-list_fmap_compose.
    apply list_fmap_ext. intros i j Hj. simpl. unfold at_index, PIPESIZE. simpl. do 3 f_equal.
    rewrite (Zplus_mod (u32 _)), mod_u32, <-Zplus_mod. f_equal. lia. }
  specialize (IH pi1 Hok1). destruct (get_bytes n pi1) as [bs pi'].
  destruct IH as (-> & -> & Hok'). rewrite Hcont. done.
Qed.

(** ** The operations *)

Lemma upd_pipe_ret p f k pi :
  k_pipes k !! p = Some pi → upd_pipe p f k = Ret tt (k <| k_pipes := <[p := f pi]> (k_pipes k) |>).
Proof.
  intros H. unfold upd_pipe, modify.
  assert (alter f p (k_pipes k) = <[p := f pi]> (k_pipes k)) as ->; [|done].
  apply map_eq. intros j. destruct (decide (j = p)) as [->|Hne].
  - by rewrite lookup_alter_eq, H, lookup_insert_eq.
  - by rewrite lookup_alter_ne, lookup_insert_ne.
Qed.

Lemma get_pipe_ret p k pi : k_pipes k !! p = Some pi → get_pipe p k = Ret pi k.
Proof. intros H. unfold get_pipe, bind, gets. by rewrite H. Qed.

Definition put_bytes (bs : list Z) (pi : pipe) : pipe := fold_left (λ pi c, put_byte c pi) bs pi.

Lemma put_bytes_ok bs pi :
  pipe_ok pi → count pi + Z.of_nat (length bs) ≤ PIPESIZE →
  pipe_ok (put_bytes bs pi) ∧ content (put_bytes bs pi) = content pi ++ (u8 <$> bs).
Proof.
  revert pi. induction bs as [|c bs IH]; intros pi Hok Hn; simpl in *; [by rewrite app_nil_r|].
  destruct (put_byte_ok c pi Hok) as (Hok1 & Hc1 & Hn1); [lia|].
  destruct (IH (put_byte c pi) Hok1) as (Hok2 & Hc2); [lia|]. split; [done|].
  rewrite Hc2, Hc1, <-app_assoc. done.
Qed.

(** As long as there is room the loop only stores bytes. *)
Lemma pipewrite_loop_room p bs bs' n k pi :
  k_pipes k !! p = Some pi → pipe_ok pi → count pi + Z.of_nat (length bs) ≤ PIPESIZE →
  pipewrite_loop p (bs ++ bs') n k =
  pipewrite_loop p bs' n (k <| k_pipes := <[p := put_bytes bs pi]> (k_pipes k) |>).
Proof.
  revert k pi. induction bs as [|c bs IH]; intros k pi Hp Hok Hn.
  { simpl. rewrite insert_id by done. by destruct k. }
  cbn [app pipewrite_loop]. simpl in Hn.
  erewrite bind_ret_eq by by apply get_pipe_ret. rewrite pipe_full_iff by done.
  rewrite bool_decide_false by (unfold PIPESIZE in *; lia).
  erewrite bind_ret_eq by by apply upd_pipe_ret.
  destruct (put_byte_ok c pi Hok) as (Hok1 & Hc1 & Hn1); [lia|].
  erewrite IH; [|simpl; apply lookup_insert_eq|done|lia]. simpl. by rewrite insert_insert_eq.
Qed.

Definition woken (ch : chan) (k : kernel) : kernel :=
  k <| k_proc := wake (Some ch) (k_ticks k) <$> k_proc k |>.

(** A write that fits appends its bytes and wakes the readers. *)
Lemma pipewrite_ret p bs k i c pi :
  table_ready k i c → lock_free (LPipe p) k → k_pipes k !! p = Some pi → pipe_ok pi →
  count pi + Z.of_nat (length bs) ≤ PIPESIZE →
  pipewrite p bs k = Ret (Z.of_nat (length bs))
    (woken (ChPipeR p) (k <| k_pipes := <[p := put_bytes bs pi]> (k_pipes k) |>)).
Proof.
  intros Hr Hl Hp Hok Hn. pose proof Hr as [Hoc Hlt Hlen]. unfold pipewrite.
  erewrite bind_ret_eq by by apply acquire_ret.
  rewrite <-(app_nil_r bs) at 1.
  erewrite pipewrite_loop_room by done. cbn [pipewrite_loop].
  erewrite bind_ret_eq.
  2: { apply (wakeup_ret _ _ i (c <| c_ncli := c_ncli c + 1 |>)).
       apply (table_ready_locked (LPipe p)) in Hr as [H1 H2 H3]; [|done]. split; [|exact H2|exact H3].
       by eapply on_cpu_ext. }
  erewrite bind_ret_eq by by apply (release_ret (LPipe p) k i c).
  unfold ret. by destruct k.
Qed.

(** A write that meets a full pipe stores what fits, wakes the readers and
    sleeps with the pipe's lock released. *)
Lemma pipewrite_blocks p b1 ch b2 k i c pi me q :
  table_ready k i c → lock_free (LPipe p) k → k_pipes k !! p = Some pi → pipe_ok pi →
  c_ncli c = 0 → c_proc c = Some me → k_proc k !! me = Some q →
  p_state q = RUNNING → p_killed q = 0 → pi_readopen pi ≠ 0 →
  count pi + Z.of_nat (length b1) = PIPESIZE →
  ∃ k', pipewrite p (b1 ++ ch :: b2) k = Switch k' ∧
    k_pipes k' = <[p := put_bytes b1 pi]> (k_pipes k) ∧
    k_proc k' = <[me := asleep (ChPipeW p) q]> (wake (Some (ChPipeR p)) (k_ticks k) <$> k_proc k) ∧
    k_locks k' = <[LPtable := held i]> (k_locks k).
Proof.
  intros Hr Hl Hp Hok Hn Hme Hq Hst Hkl Hro Hcnt. pose proof Hr as [Hoc Hlt Hlen].
  destruct (put_bytes_ok b1 pi Hok) as [Hok1 Hc1]; [lia|].
  assert (count (put_bytes b1 pi) = PIPESIZE) as Hfull.
  { rewrite <-length_content, Hc1, length_app, length_fmap, Nat2Z.inj_add, length_content. lia. }
  assert (pi_readopen (put_bytes b1 pi) = pi_readopen pi) as Hro1.
  { clear. revert pi. induction b1 as [|x b1 IH]; intros pi; [done|]. simpl. by rewrite IH. }
  unfold pipewrite. erewrite bind_ret_eq by by apply acquire_ret.
  erewrite pipewrite_loop_room by (done || lia). cbn [pipewrite_loop].
  set (k1 := _ <| k_pipes := _ |>).
  assert (table_ready k1 i (c <| c_ncli := c_ncli c + 1 |>)) as Hr1.
  { apply (table_ready_locked (LPipe p)) in Hr as [H1 H2 H3]; [|done]. split; [by eapply on_cpu_ext|exact H2|exact H3]. }
  erewrite bind_ret_eq.
  2: { apply get_pipe_ret. simpl. apply lookup_insert_eq. }
  rewrite pipe_full_iff, bool_decide_true by done. rewrite Hro1.
  destruct (Z.eqb_spec (pi_readopen pi) 0); [done|].
  erewrite bind_ret_eq.
  2: { unfold myproc_killed. erewrite bind_ret_eq by by eapply curproc_ret; [apply Hr1|].
       unfold get_proc, bind, gets. simpl. rewrite Hq. simpl. by rewrite Hkl. }
  simpl. erewrite bind_ret_eq by by eapply wakeup_ret.
  unfold bind. erewrite sleep_switch.
  - eexists. split; [done|]. simpl. split; [done|]. split.
    + reflexivity.
    + f_equal. by rewrite insert_insert_eq, insert_id.
  - by eapply on_cpu_ext; [apply Hr1|..].
  - simpl. lia.
  - done.
  - simpl. rewrite list_lookup_fmap, Hq. simpl. unfold wake. by rewrite Hst.
  - done.
  - simpl. apply lookup_insert_eq.
  - apply Hr1.
Qed.

(** A read takes the front of the content and wakes the writers. *)
Lemma piperead_ret p n k i c pi :
  table_ready k i c → lock_free (LPipe p) k → k_pipes k !! p = Some pi → pipe_ok pi →
  0 < count pi ∨ pi_writeopen pi = 0 →
  ∃ pi', piperead p n k =
    Ret (Z.of_nat (length (take (Z.to_nat n) (content pi))), take (Z.to_nat n) (content pi))
      (woken (ChPipeW p) (k <| k_pipes := <[p := pi']> (k_pipes k) |>)) ∧
    pipe_ok pi' ∧ content pi' = drop (Z.to_nat n) (content pi).
Proof.
  intros Hr Hl Hp Hok Hne. pose proof Hr as [Hoc Hlt Hlen]. unfold piperead.
  pose proof (get_bytes_ok (Z.to_nat n) pi Hok) as Hg.
  destruct (get_bytes (Z.to_nat n) pi) as [bs pi'] eqn:E. destruct Hg as (-> & Hc & Hok').
  exists pi'. split; [|done]. erewrite bind_ret_eq by by apply acquire_ret.
  unfold piperead_loop. erewrite bind_ret_eq by by apply get_pipe_ret.
  rewrite pipe_empty_iff by done.
  assert (bool_decide (count pi = 0) && truthy (pi_writeopen pi) = false) as ->.
  { destruct Hne as [H| ->]; [rewrite bool_decide_false by lia|]; [done|by rewrite andb_false_r]. }
  rewrite E. erewrite bind_ret_eq by by apply upd_pipe_ret.
  erewrite bind_ret_eq.
  2: { apply (wakeup_ret _ _ i (c <| c_ncli := c_ncli c + 1 |>)).
       apply (table_ready_locked (LPipe p)) in Hr as [H1 H2 H3]; [|done]. split; [|exact H2|exact H3].
       by eapply on_cpu_ext. }
  erewrite bind_ret_eq by by apply (release_ret (LPipe p) k i c).
  unfold ret. by destruct k.
Qed.

End Pipe.
Export Pipe.
