(* ===== verification/MainSync.v ===== *)
(** * MainSync: spinlocks and pipes *)
From S2P Require Import Prelude.
From S2P Require Import Mem.
From S2P Require Import Str.
From S2P Require Import State.
From S2P Require Import Spin.
From S2P Require Import Boot.
From S2P Require Import Cons.
From S2P Require Import Kalloc.
From S2P Require Import Vm.
From S2P Require Import Frame.
From S2P Require Import VmSpec.
From S2P Require Import Mlq.
From S2P Require Import Proc.
From S2P Require Import ProcSpec.
From S2P Require Import ProcWait.
From S2P Require Import Pipe.

(** ** Spinlocks *)

(** [acquire] on a processor with consistent interrupt bookkeeping.  A free
    lock is taken, with interrupts off and the nesting depth one higher; a lock
    this processor holds already is a panic; a lock of another processor makes
    it spin with interrupts off. *)
Theorem acquire_cases l lk k i c :
  on_cpu k i c → k_locks k !! l = Some lk → lk = unlocked ∨ (∃ j, lk = held j) →
  if bool_decide (lk = unlocked) then
    ∃ k', acquire l k = Ret tt k' ∧ k_locks k' = <[l := held i]> (k_locks k) ∧
      Z.land (k_eflags k') FL_IF = 0 ∧ k_proc k' = k_proc k ∧ k_mem k' = k_mem k ∧
      c_ncli <$> k_cpus k' !! i = Some (c_ncli c + 1)
  else if bool_decide (lk = held i) then acquire l k = Panic "acquire"
  else ∃ k', acquire l k = Spin k'.
Proof.
  intros Hoc Hl [->|[j ->]].
  - rewrite bool_decide_true by done. eexists. split; [by apply acquire_ret|]. split; [done|].
    split; [apply land_cli|]. split; [done|]. split; [done|]. simpl.
    rewrite list_lookup_insert_eq; [done|]. eapply lookup_lt_Some, Hoc.
  - rewrite bool_decide_false by done. destruct (decide (j = i)) as [->|Hne].
    + rewrite bool_decide_true by done. by eapply acquire_held.
    + rewrite bool_decide_false by (unfold held; congruence). by eapply acquire_busy.
Qed.

Lemma acquire_cases_witness :
  ∃ k', acquire LTicks (sample DEFAULT) = Ret tt k' ∧ k_locks k' = <[LTicks := held 0]> sys_locks ∧
    Z.land (k_eflags k') FL_IF = 0.
Proof.
  destruct (acquire_cases LTicks unlocked (sample DEFAULT) 0 sample_cpu (sample_on_cpu DEFAULT) eq_refl (or_introl eq_refl))
    as (k' & H & Hl & He & _). exists k'. split_and!; [exact H|exact Hl|exact He].
Defined.

(** A critical section is transparent.  Code that runs between [acquire]
    and [release] without touching the locks, the flags or the processors sees
    the lock held, and afterwards the lock, the interrupt flag and the nesting
    depth are as they were before. *)
Theorem critical_section {A} l (body : K A) k i c a k1 :
  on_cpu k i c → lock_free l k →
  body (locked_by l i c k) = Ret a k1 →
  k_cpus k1 = k_cpus (pushed i c k) → k_eflags k1 = k_eflags (pushed i c k) →
  k_lapicid k1 = k_lapicid k → k_locks k1 = <[l := held i]> (k_locks k) →
  ∃ k', (acquire l ;; x ← body; release l ;; ret x) k = Ret a k' ∧
    k_locks k' = k_locks k ∧ k_eflags k' = k_eflags k ∧ k_cpus k' = k_cpus k ∧
    k' = k1 <| k_locks := k_locks k |> <| k_eflags := k_eflags k |> <| k_cpus := k_cpus k |>.
Proof. intros. eexists. split; [by eapply critical|]. done. Qed.

Lemma critical_section_witness :
  ∃ k', (acquire LTicks ;; x ← (modify (λ k, k <| k_ticks := 7 |>) ;; ret 5); release LTicks ;; ret x) (sample DEFAULT) = Ret 5 k' ∧
    k_locks k' = sys_locks ∧ k_ticks k' = 7.
Proof.
  destruct (critical_section LTicks (modify (λ k, k <| k_ticks := 7 |>) ;; ret 5) (sample DEFAULT) 0 sample_cpu 5
    (locked_by LTicks 0 sample_cpu (sample DEFAULT) <| k_ticks := 7 |>) (sample_on_cpu DEFAULT))
    as (k' & H & Hl & _ & _ & Hk); [reflexivity..|].
  exists k'. split_and!; [exact H|exact Hl|]. by rewrite Hk.
Defined.

(** ** Pipes *)

(** C12: a pipe is a first-in first-out queue of bytes.  A write that fits
    returns the number of bytes and appends them; what a later read of [n] bytes
    returns are the first [n] bytes of the contents then, and the rest stays.
    The 32-bit counters may wrap. *)
Theorem pipe_fifo p bs n k i c pi :
  table_ready k i c → lock_free (LPipe p) k → k_pipes k !! p = Some pi → pipe_ok pi →
  count pi + Z.of_nat (length bs) ≤ PIPESIZE → 0 < count pi + Z.of_nat (length bs) →
  let all := content pi ++ (u8 <$> bs) in
  ∃ k1 pi1 k2 pi2, pipewrite p bs k = Ret (Z.of_nat (length bs)) k1 ∧
    k_pipes k1 !! p = Some pi1 ∧ pipe_ok pi1 ∧ content pi1 = all ∧
    piperead p n k1 = Ret (Z.of_nat (length (take (Z.to_nat n) all)), take (Z.to_nat n) all) k2 ∧
    k_pipes k2 !! p = Some pi2 ∧ pipe_ok pi2 ∧ content pi2 = drop (Z.to_nat n) all.
Proof.
  intros Hr Hl Hp Hok Hfit Hpos all.
  destruct (put_bytes_ok bs pi Hok Hfit) as [Hok1 Hc1].
  set (k1 := woken (ChPipeR p) (k <| k_pipes := <[p := put_bytes bs pi]> (k_pipes k) |>)).
  assert (table_ready k1 i c) as Hr1.
  { destruct Hr as [Hoc Hlk Hlen]. split; [by eapply on_cpu_ext|done|]. simpl. by rewrite length_fmap. }
  assert (k_pipes k1 !! p = Some (put_bytes bs pi)) as Hp1 by apply lookup_insert_eq.
  destruct (piperead_ret p n k1 i c (put_bytes bs pi) Hr1 Hl Hp1 Hok1) as (pi2 & Hread & Hok2 & Hc2).
  { left. rewrite <-length_content, Hc1, length_app, length_fmap. rewrite <-length_content in Hpos. lia. }
  rewrite Hc1 in Hread, Hc2. eexists k1, _, _, pi2. split; [by eapply pipewrite_ret|]. split; [done|]. split; [done|].
  split; [done|]. split; [exact Hread|]. split; [apply lookup_insert_eq|]. done.
Qed.

(** A pipe whose counters are about to wrap, holding the byte 9. *)
Definition pipe_sample : pipe := mkPipe (replicate 511 0 ++ [9]) 4294967295 0 1 1.
Definition pipe_kernel : kernel :=
  sample DEFAULT <| k_locks := <[LPipe 0 := unlocked]> sys_locks |> <| k_pipes := {[0 := pipe_sample]} |>.

Lemma pipe_fifo_witness :
  ∃ k1 k2, pipewrite 0 [1; 2; 3] pipe_kernel = Ret 3 k1 ∧ piperead 0 2 k1 = Ret (2, [9; 1]) k2.
Proof.
  destruct (pipe_fifo 0 [1; 2; 3] 2 pipe_kernel 0 sample_cpu pipe_sample) as (k1 & _ & k2 & _ & H & _ & _ & _ & Hr & _).
  - split; [by split|reflexivity|reflexivity].
  - reflexivity.
  - reflexivity.
  - split; (reflexivity || discriminate || (split; (discriminate || reflexivity))).
  - discriminate.
  - reflexivity.
  - exists k1, k2. split; [exact H|exact Hr].
Defined.

(** A write that does not fit puts in what fits, wakes the readers and goes
    to sleep on the pipe's write channel with the pipe's lock released and the
    table's lock held: the bytes in the pipe are the old ones followed by the
    prefix, and no byte is lost or reordered. *)
Theorem pipe_write_blocks p b1 ch b2 k i c pi me q :
  table_ready k i c → lock_free (LPipe p) k → k_pipes k !! p = Some pi → pipe_ok pi →
  c_ncli c = 0 → c_proc c = Some me → k_proc k !! me = Some q →
  p_state q = RUNNING → p_killed q = 0 → pi_readopen pi ≠ 0 →
  count pi + Z.of_nat (length b1) = PIPESIZE →
  ∃ k' pi', pipewrite p (b1 ++ ch :: b2) k = Switch k' ∧
    k_pipes k' !! p = Some pi' ∧ pipe_ok pi' ∧ content pi' = content pi ++ (u8 <$> b1) ∧ count pi' = PIPESIZE ∧
    k_proc k' = <[me := asleep (ChPipeW p) q]> (wake (Some (ChPipeR p)) (k_ticks k) <$> k_proc k) ∧
    k_locks k' = <[LPtable := held i]> (k_locks k).
Proof.
  intros Hr Hl Hp Hok H1 H2 H3 H4 H5 H6 Hfull.
  destruct (pipewrite_blocks p b1 ch b2 k i c pi me q Hr Hl Hp Hok H1 H2 H3 H4 H5 H6 Hfull)
    as (k' & Hret & Hpi & Hps & Hlk).
  destruct (put_bytes_ok b1 pi Hok) as [Hok' Hc']; [lia|].
  exists k', (put_bytes b1 pi). split_and!; try done.
  - rewrite Hpi. apply lookup_insert_eq.
  - rewrite <-!length_content in *. rewrite Hc', length_app, length_fmap. lia.
Qed.

(** A pipe with room for one byte. *)
Definition full_pipe : pipe := mkPipe (replicate 512 7) 0 511 1 1.
Lemma pipe_write_blocks_witness :
  ∃ k' pi', pipewrite 0 [1; 2; 3] (sample DEFAULT <| k_locks := <[LPipe 0 := unlocked]> sys_locks |>
      <| k_pipes := {[0 := full_pipe]} |>) = Switch k' ∧
    k_pipes k' !! 0 = Some pi' ∧ content pi' = content full_pipe ++ [1].
Proof.
  destruct (pipe_write_blocks 0 [1] 2 [3] (sample DEFAULT <| k_locks := <[LPipe 0 := unlocked]> sys_locks |>
      <| k_pipes := {[0 := full_pipe]} |>) 0 sample_cpu full_pipe 0 (sample_proc 1 RUNNING None))
    as (k' & pi' & H & Hp & _ & Hc & _).
  - split; [by split|reflexivity|reflexivity].
  - reflexivity.
  - reflexivity.
  - split; (reflexivity || discriminate || (split; (discriminate || reflexivity))).
  - reflexivity.
  - reflexivity.
  - reflexivity.
  - reflexivity.
  - reflexivity.
  - discriminate.
  - reflexivity.
  - exists k', pi'. split_and!; [exact H|exact Hp|exact Hc].
Defined.
