(* ===== verification/Blk.v ===== *)
(** * Blk: the bytes of a disk block

    A block is the list of its 512 bytes.  The kernel views it through casts as
    little-endian words and as the structs of [fs.h]; here are the readings and
    writings those casts amount to. *)
From S2P Require Import Prelude.
From S2P Require Import Mem.
From S2P Require Import State.

Module Blk.

Definition byte_at (l : list Z) (o : nat) : Z := default 0 (l !! o).

Definition get16 (l : list Z) (o : nat) : Z := byte_at l o + 256 * byte_at l (o + 1).
Definition get32 (l : list Z) (o : nat) : Z :=
  get16 l o + 65536 * get16 l (o + 2).
Definition put16 (l : list Z) (o : nat) (v : Z) : list Z :=
  <[o := u8 v]> (<[(o + 1)%nat := u8 (v / 256)]> l).
Definition put32 (l : list Z) (o : nat) (v : Z) : list Z :=
  put16 (put16 l (o + 2) (v / 65536)) o v.

(** [memmove(l + o, src, n)] within a block, [n] the length of [src]. *)
Definition splice (l : list Z) (o : nat) (src : list Z) : list Z :=
  take o l ++ src ++ drop (o + length src) l.
(** [n] bytes from [o] on. *)
Definition slice (l : list Z) (o n : nat) : list Z := take n (drop o l).

Definition zero_block : list Z := replicate (Z.to_nat BSIZE) 0.

(** An array of words. *)
Fixpoint put_words (l : list Z) (o : nat) (ws : list Z) : list Z :=
  match ws with
  | [] => l
  | w :: ws' => put_words (put32 l o w) (o + 4) ws'
  end.
Definition get_words (l : list Z) (o n : nat) : list Z :=
  (λ i, get32 l (o + 4 * i)) <$> seq 0 n.

(** ** Lemmas *)

Lemma length_put16 l o v : length (put16 l o v) = length l.
Proof. unfold put16. by rewrite !length_insert. Qed.
Lemma length_put32 l o v : length (put32 l o v) = length l.
Proof. unfold put32. by rewrite !length_put16. Qed.
Lemma length_put_words l o ws : length (put_words l o ws) = length l.
Proof. revert l o. induction ws as [|w ws IH]; intros l o; simpl; [done|]. by rewrite IH, length_put32. Qed.

Lemma byte_at_insert l i j v :
  (i < length l)%nat → byte_at (<[i := v]> l) j = if decide (i = j) then v else byte_at l j.
Proof.
  intros H. unfold byte_at. case_decide as E; [subst; by rewrite list_lookup_insert_eq|].
  by rewrite list_lookup_insert_ne.
Qed.

Lemma byte_at_put32 l o v j :
  (o + 4 ≤ length l)%nat →
  byte_at (put32 l o v) j =
  if decide (o ≤ j < o + 4)%nat then u8 (v / 256 ^ Z.of_nat (j - o)) else byte_at l j.
Proof.
  intros H. unfold put32, put16.
  rewrite !byte_at_insert by (rewrite ?length_insert; lia).
  destruct (decide (o ≤ j < o + 4)%nat) as [Hr|Hr]; [|repeat case_decide; lia || done].
  assert (∃ d, j = o + d ∧ d < 4)%nat as (d & -> & Hd) by (exists (j - o)%nat; lia).
  replace (o + d - o)%nat with d by lia.
  destruct d as [|[|[|[|d]]]]; [..|lia]; repeat case_decide; try lia.
  - by rewrite Z.div_1_r.
  - done.
  - done.
  - by rewrite Z.div_div by lia.
Qed.

Lemma get32_ext l1 l2 o :
  (∀ j, (o ≤ j < o + 4)%nat → byte_at l1 j = byte_at l2 j) → get32 l1 o = get32 l2 o.
Proof. intros H. unfold get32, get16. rewrite !H by lia. done. Qed.

Lemma get32_put32_eq l o v : (o + 4 ≤ length l)%nat → get32 (put32 l o v) o = u32 v.
Proof.
  intros H. unfold get32, get16. rewrite !byte_at_put32 by done.
  rewrite !decide_True by lia.
  replace (o - o)%nat with 0%nat by lia. replace (o + 1 - o)%nat with 1%nat by lia.
  replace (o + 2 - o)%nat with 2%nat by lia. replace (o + 2 + 1 - o)%nat with 3%nat by lia.
  change (256 ^ Z.of_nat 0) with 1. change (256 ^ Z.of_nat 1) with 256.
  change (256 ^ Z.of_nat 2) with 65536. change (256 ^ Z.of_nat 3) with 16777216.
  unfold u8, u32. Z.div_mod_to_equations. lia.
Qed.

Lemma get32_put32_ne l o v j :
  (o + 4 ≤ length l)%nat → (j + 4 ≤ o ∨ o + 4 ≤ j)%nat → get32 (put32 l o v) j = get32 l j.
Proof.
  intros H Hj. apply get32_ext. intros i Hi. rewrite byte_at_put32 by done.
  rewrite decide_False by lia. done.
Qed.

Lemma get32_put_words_before ws l o j :
  (j + 4 ≤ o)%nat → (o + 4 * length ws ≤ length l)%nat → get32 (put_words l o ws) j = get32 l j.
Proof.
  revert l o. induction ws as [|w ws IH]; intros l o Hj Hl; simpl in *; [done|].
  rewrite IH by (rewrite ?length_put32; lia). apply get32_put32_ne; lia.
Qed.

(** Storing an array of words and reading word [i] back. *)
Lemma get32_put_words l o ws i w :
  (o + 4 * length ws ≤ length l)%nat → ws !! i = Some w →
  get32 (put_words l o ws) (o + 4 * i) = u32 w.
Proof.
  revert l o i. induction ws as [|x ws IH]; intros l o [|i] Hl Hw; simpl in *; try done.
  - injection Hw as ->. rewrite Nat.add_0_r.
    rewrite get32_put_words_before by (rewrite ?length_put32; lia). apply get32_put32_eq. lia.
  - replace (o + 4 * S i)%nat with (o + 4 + 4 * i)%nat by lia.
    replace (o + S (i + S (i + S (i + S (i + 0)))))%nat with (o + 4 + 4 * i)%nat by lia.
    apply IH; [rewrite length_put32; lia|done].
Qed.

Lemma length_splice l o src :
  (o + length src ≤ length l)%nat → length (splice l o src) = length l.
Proof. intros H. unfold splice. rewrite !length_app, length_take, length_drop. lia. Qed.

Lemma slice_splice l o src :
  (o + length src ≤ length l)%nat → slice (splice l o src) o (length src) = src.
Proof.
  intros H. unfold slice, splice.
  rewrite drop_app_ge by (rewrite length_take; lia).
  rewrite length_take. replace (o - o `min` length l)%nat with 0%nat by lia. rewrite drop_0.
  by rewrite take_app_length.
Qed.

End Blk.
Export Blk.
