(* ===== verification/Bio.v ===== *)
(** * Bio: sleep locks and the buffer cache ([sleeplock.c], [bio.c], [memide.c])

    The disk is the memory disk of [memide.c], whose [iderw] completes before it
    returns.  [bread] gives the caller exclusive use of a buffer holding the
    block, [bwrite] writes it to the disk, [brelse] gives it back and moves it
    to the front of the LRU list. *)
From S2P Require Import Prelude.
From S2P Require Import Mem.
From S2P Require Import Str.
From S2P Require Import State.
From S2P Require Import Spin.
From S2P Require Import Cons.
From S2P Require Import Kalloc.
From S2P Require Import Vm.
From S2P Require Import Mlq.
From S2P Require Import Proc.
From S2P Require Import Blk.

Module Bio.

(** ** Sleep locks *)

Definition get_slock (l : lockid) : K sleeplock :=
  ls ← gets k_slocks; get_or "sleeplock" (ls !! l).
Definition set_slock (l : lockid) (v : sleeplock) : K unit :=
  modify (λ k, k <| k_slocks := <[l := v]> (k_slocks k) |>).
Definition my_pid : K Z := i ← curproc; p ← get_proc i; ret (p_pid p).

Definition initsleeplock (l : lockid) : K unit :=
  initlock l ;; set_slock l (mkSleeplock 0 0).

(** [acquiresleep] with the inner spin lock held. *)
Definition acquiresleep_loop (l : lockid) : K unit :=
  s ← get_slock l;
  if truthy (sl_locked s) then sleep (ChSleepLock l) l
  else
    set_slock l (s <| sl_locked := 1 |>) ;;
    pid ← my_pid;
    s ← get_slock l;
    set_slock l (s <| sl_pid := pid |>) ;;
    release l.
Definition acquiresleep (l : lockid) : K unit := acquire l ;; acquiresleep_loop l.
Definition acquiresleep_resume (me : nat) (intena : Z) (l : lockid) : K unit :=
  sleep_resume me intena l ;; acquiresleep_loop l.

Definition releasesleep (l : lockid) : K unit :=
  acquire l ;;
  set_slock l (mkSleeplock 0 0) ;;
  wakeup (ChSleepLock l) ;;
  release l.

Definition holdingsleep (l : lockid) : K bool :=
  acquire l ;;
  s ← get_slock l;
  r ← (if truthy (sl_locked s) then pid ← my_pid; ret (sl_pid s =? pid) else ret false);
  release l ;;
  ret r.

(** ** Buffers *)

Definition B_VALID : Z := 2.
Definition B_DIRTY : Z := 4.

(** [&bcache.head], the entry behind the buffers. *)
Definition bhead : nat := NBUF.

Definition get_buf (b : nat) : K buf :=
  bs ← gets k_bcache; get_or "buf" (bs !! b).
Definition upd_buf (b : nat) (f : buf → buf) : K unit :=
  modify (λ k, k <| k_bcache := alter f b (k_bcache k) |>).

Definition binit : K unit :=
  initlock LBcache ;;
  upd_buf bhead (λ h, h <| b_prev := bhead |>) ;;
  upd_buf bhead (λ h, h <| b_next := bhead |>) ;;
  for_each (seq 0 NBUF) (λ b,
    h ← get_buf bhead;
    upd_buf b (λ x, x <| b_next := b_next h |>) ;;
    upd_buf b (λ x, x <| b_prev := bhead |>) ;;
    initsleeplock (LBuf b) ;;
    upd_buf (b_next h) (λ x, x <| b_prev := b |>) ;;
    upd_buf bhead (λ h, h <| b_next := b |>)).

(** [for(b = ...; b != &bcache.head; b = step(b)) if(f(b)) ...]: the first
    buffer of the list satisfying [f].  The list is circular and has at most
    [NBUF] buffers, which bounds the iterations. *)
Fixpoint find_buf (fuel : nat) (step : buf → nat) (f : buf → bool) (bs : list buf) (b : nat) :
    option (option nat) :=
  if bool_decide (b = bhead) then Some None
  else
    match fuel with
    | O => None
    | S fuel' =>
        x ←? bs !! b;
        if f x then Some (Some b) else find_buf fuel' step f bs (step x)
    end.

Definition bget (dev blockno : Z) : K nat :=
  acquire LBcache ;;
  h ← get_buf bhead;
  bs ← gets k_bcache;
  (* Is the block already cached? *)
  r ← get_or "bcache list" (find_buf NBUF b_next
        (λ b, (b_dev b =? dev) && (b_blockno b =? blockno)) bs (b_next h));
  match r with
  | Some b =>
      upd_buf b (λ x, x <| b_refcnt := u32 (b_refcnt x + 1) |>) ;;
      release LBcache ;;
      acquiresleep (LBuf b) ;;
      ret b
  | None =>
      (* Not cached; recycle an unused buffer. *)
      r ← get_or "bcache list" (find_buf NBUF b_prev
            (λ b, (b_refcnt b =? 0) && (Z.land (b_flags b) B_DIRTY =? 0)) bs (b_prev h));
      match r with
      | Some b =>
          upd_buf b (λ x, x <| b_dev := dev |> <| b_blockno := blockno |>
                            <| b_flags := 0 |> <| b_refcnt := 1 |>) ;;
          release LBcache ;;
          acquiresleep (LBuf b) ;;
          ret b
      | None => panic "bget: no buffers"
      end
  end.

(** [iderw] of the memory disk. *)
Definition iderw (b : nat) : K unit :=
  h ← holdingsleep (LBuf b);
  if negb h then panic "iderw: buf not locked"
  else
    x ← get_buf b;
    if Z.land (b_flags x) (Z.lor B_VALID B_DIRTY) =? B_VALID then panic "iderw: nothing to do"
    else if negb (b_dev x =? 1) then panic "iderw: request not for disk 1"
    else
      disk ← gets k_disk;
      if Z.of_nat (length disk) <=? b_blockno x then panic "iderw: block out of range"
      else
        (if truthy (Z.land (b_flags x) B_DIRTY) then
           upd_buf b (λ x, x <| b_flags := Z.ldiff (b_flags x) B_DIRTY |>) ;;
           modify (λ k, k <| k_disk := <[Z.to_nat (b_blockno x) := b_data x]> (k_disk k) |>
                          <| k_writes := k_writes k ++ [(b_blockno x, b_data x)] |>)
         else
           blk ← get_or "memdisk" (disk !! Z.to_nat (b_blockno x));
           upd_buf b (λ x, x <| b_data := blk |>)) ;;
        upd_buf b (λ x, x <| b_flags := Z.lor (b_flags x) B_VALID |>).

(** Return a locked buf with the contents of the indicated block. *)
Definition bread (dev blockno : Z) : K nat :=
  b ← bget dev blockno;
  x ← get_buf b;
  when (Z.land (b_flags x) B_VALID =? 0) (iderw b) ;;
  ret b.

(** Write b's contents to disk.  Must be locked. *)
Definition bwrite (b : nat) : K unit :=
  h ← holdingsleep (LBuf b);
  if negb h then panic "bwrite"
  else
    upd_buf b (λ x, x <| b_flags := Z.lor (b_flags x) B_DIRTY |>) ;;
    iderw b.

(** Unlink [b] and insert it behind the head. *)
Definition move_to_front (b : nat) : K unit :=
  x ← get_buf b;
  upd_buf (b_next x) (λ y, y <| b_prev := b_prev x |>) ;;
  x ← get_buf b;
  upd_buf (b_prev x) (λ y, y <| b_next := b_next x |>) ;;
  h ← get_buf bhead;
  upd_buf b (λ x, x <| b_next := b_next h |>) ;;
  upd_buf b (λ x, x <| b_prev := bhead |>) ;;
  h ← get_buf bhead;
  upd_buf (b_next h) (λ y, y <| b_prev := b |>) ;;
  upd_buf bhead (λ h, h <| b_next := b |>).

(** Release a locked buffer. *)
Definition brelse (b : nat) : K unit :=
  h ← holdingsleep (LBuf b);
  if negb h then panic "brelse"
  else
    releasesleep (LBuf b) ;;
    acquire LBcache ;;
    upd_buf b (λ x, x <| b_refcnt := u32 (b_refcnt x - 1) |>) ;;
    x ← get_buf b;
    when (b_refcnt x =? 0) (move_to_front b) ;;
    release LBcache.

(** [b->data = f(b->data)], the caller's change to a locked buffer. *)
Definition upd_data (b : nat) (f : list Z → list Z) : K unit :=
  upd_buf b (λ x, x <| b_data := f (b_data x) |>).
Definition get_data (b : nat) : K (list Z) := x ← get_buf b; ret (b_data x).

End Bio.
Export Bio.
