(* ===== verification/Log.v ===== *)
(** * Log: the redo log ([log.c], [readsb] of [fs.c])

    A transaction's blocks are first written to the log area, then the header
    block commits them, then they are copied home and the header is cleared. *)
From S2P Require Import Prelude.
From S2P Require Import Mem.
From S2P Require Import Str.
From S2P Require Import State.
From S2P Require Import Spin.
From S2P Require Import Cons.
From S2P Require Import Kalloc.
From S2P Require Import Vm.
From S2P Require Import Mlq.
From S2P Require Import Proc.
From S2P Require Import Blk.
From S2P Require Import Bio.

Module Log.

Definition upd_log (f : logst → logst) : K unit := modify (λ k, k <| k_log := f (k_log k) |>).

(** Read the super block. *)
Definition decode_sb (d : list Z) : superblock :=
  mkSuperblock (get32 d 0) (get32 d 4) (get32 d 8) (get32 d 12) (get32 d 16) (get32 d 20) (get32 d 24).
Definition readsb (dev : Z) : K superblock :=
  bp ← bread dev 1;
  d ← get_data bp;
  brelse bp ;;
  ret (decode_sb d).

(** Copy committed blocks from log to their home location. *)
Fixpoint install_trans_loop (n : nat) (tail : Z) : K unit :=
  match n with
  | O => ret tt
  | S n' =>
      lg ← gets k_log;
      lbuf ← bread (log_dev lg) (u32 (log_start lg + tail + 1));
      blockno ← get_or "lh.block" (aget (lh_block lg) tail);
      dbuf ← bread (log_dev lg) blockno;
      d ← get_data lbuf;
      upd_data dbuf (λ _, d) ;;
      bwrite dbuf ;;
      brelse lbuf ;;
      brelse dbuf ;;
      install_trans_loop n' (tail + 1)
  end.
Definition install_trans : K unit :=
  lg ← gets k_log; install_trans_loop (Z.to_nat (lh_n lg)) 0.

(** Read the log header from disk into the in-memory log header. *)
Definition read_head : K unit :=
  lg ← gets k_log;
  bp ← bread (log_dev lg) (u32 (log_start lg));
  d ← get_data bp;
  upd_log (λ lg, lg <| lh_n := s32 (get32 d 0) |>) ;;
  for_each (seq 0 (Z.to_nat (s32 (get32 d 0)))) (λ i,
    lg ← gets k_log;
    blocks ← get_or "lh.block" (aset (lh_block lg) (Z.of_nat i) (get32 d (4 + 4 * i)));
    upd_log (λ lg, lg <| lh_block := blocks |>)) ;;
  brelse bp.

(** Write in-memory log header to disk.  This is the true point at which the
    current transaction commits. *)
Definition encode_head (lg : logst) (d : list Z) : list Z :=
  put_words (put32 d 0 (lh_n lg)) 4 (take (Z.to_nat (lh_n lg)) (lh_block lg)).
Definition write_head : K unit :=
  lg ← gets k_log;
  bp ← bread (log_dev lg) (u32 (log_start lg));
  upd_data bp (encode_head lg) ;;
  bwrite bp ;;
  brelse bp.

Definition recover_from_log : K unit :=
  read_head ;;
  install_trans ;;
  upd_log (λ lg, lg <| lh_n := 0 |>) ;;
  write_head.

Definition initlog (dev : Z) : K unit :=
  initlock LLog ;;
  sb ← readsb dev;
  upd_log (λ lg, lg <| log_start := s32 (sb_logstart sb) |>) ;;
  upd_log (λ lg, lg <| log_size := s32 (sb_nlog sb) |>) ;;
  upd_log (λ lg, lg <| log_dev := dev |>) ;;
  recover_from_log.

(** The body of [begin_op]'s loop, with the log's lock held. *)
Definition begin_op_loop : K unit :=
  lg ← gets k_log;
  if truthy (log_committing lg) then sleep ChLog LLog
  else if LOGSIZE <? lh_n lg + (log_outstanding lg + 1) * MAXOPBLOCKS then
    (* this op might exhaust log space; wait for commit. *)
    sleep ChLog LLog
  else
    upd_log (λ lg, lg <| log_outstanding := log_outstanding lg + 1 |>) ;;
    release LLog.
Definition begin_op : K unit := acquire LLog ;; begin_op_loop.
Definition begin_op_resume (me : nat) (intena : Z) : K unit :=
  sleep_resume me intena LLog ;; begin_op_loop.

(** Copy modified blocks from cache to log. *)
Fixpoint write_log_loop (n : nat) (tail : Z) : K unit :=
  match n with
  | O => ret tt
  | S n' =>
      lg ← gets k_log;
      to ← bread (log_dev lg) (u32 (log_start lg + tail + 1));
      blockno ← get_or "lh.block" (aget (lh_block lg) tail);
      from ← bread (log_dev lg) blockno;
      d ← get_data from;
      upd_data to (λ _, d) ;;
      bwrite to ;;
      brelse from ;;
      brelse to ;;
      write_log_loop n' (tail + 1)
  end.
Definition write_log : K unit :=
  lg ← gets k_log; write_log_loop (Z.to_nat (lh_n lg)) 0.

Definition commit : K unit :=
  lg ← gets k_log;
  when (0 <? lh_n lg)
    (write_log ;;
     write_head ;;
     install_trans ;;
     upd_log (λ lg, lg <| lh_n := 0 |>) ;;
     write_head).

Definition end_op : K unit :=
  acquire LLog ;;
  upd_log (λ lg, lg <| log_outstanding := log_outstanding lg - 1 |>) ;;
  lg ← gets k_log;
  if truthy (log_committing lg) then panic "log.committing"
  else
    let do_commit := log_outstanding lg =? 0 in
    (if do_commit then upd_log (λ lg, lg <| log_committing := 1 |>)
     else wakeup ChLog) ;;
    release LLog ;;
    when do_commit
      (commit ;;
       acquire LLog ;;
       upd_log (λ lg, lg <| log_committing := 0 |>) ;;
       wakeup ChLog ;;
       release LLog).

(** Record the block number of [b] and pin it in the cache with B_DIRTY. *)
Definition log_write (b : nat) : K unit :=
  lg ← gets k_log;
  if (LOGSIZE <=? lh_n lg) || (log_size lg - 1 <=? lh_n lg) then panic "too big a transaction"
  else if log_outstanding lg <? 1 then panic "log_write outside of trans"
  else
    acquire LLog ;;
    x ← get_buf b;
    lg ← gets k_log;
    let i := match find_first (λ n, n =? b_blockno x) (take (Z.to_nat (lh_n lg)) (lh_block lg)) with
             | Some i => Z.of_nat i      (* log absorption *)
             | None => lh_n lg
             end in
    blocks ← get_or "lh.block" (aset (lh_block lg) i (b_blockno x));
    upd_log (λ lg, lg <| lh_block := blocks |>) ;;
    when (i =? lh_n lg) (upd_log (λ lg, lg <| lh_n := lh_n lg + 1 |>)) ;;
    upd_buf b (λ x, x <| b_flags := Z.lor (b_flags x) B_DIRTY |>) ;;
    release LLog.

End Log.
Export Log.
