(* ===== verification/Fs.v ===== *)
(** * Fs: inodes, directories and path names ([fs.c])

    A [char *] destination of [readi] is the list of the bytes stored there; a
    source of [writei] is the list of the bytes read from it.  A path or a name
    is the list of its characters before the terminating NUL.  Device files
    are handled by the functions of [devsw], an interface. *)
From S2P Require Import Prelude.
From S2P Require Import Mem.
From S2P Require Import Str.
From S2P Require Import State.
From S2P Require Import Spin.
From S2P Require Import Cons.
From S2P Require Import Kalloc.
From S2P Require Import Vm.
From S2P Require Import Mlq.
From S2P Require Import Proc.
From S2P Require Import Blk.
From S2P Require Import Bio.
From S2P Require Import Log.

(** file.h: the table of device functions, [None] for a null pointer. *)
Class DevSw := {
  devsw_read : Z → option (nat → Z → K (Z * list Z));
  devsw_write : Z → option (nat → list Z → K Z)
}.

Module Fs.

Definition BPB : Z := 4096.       (* bitmap bits per block *)
Definition IPB : Z := 8.          (* inodes per block *)
Definition DINODE_SIZE : nat := 64.
Definition DIRSIZ : nat := 14.
Definition DIRENT_SIZE : Z := 16.

Definition IBLOCK (i : Z) (sb : superblock) : Z := u32 (i / IPB + sb_inodestart sb).
Definition BBLOCK (b : Z) (sb : superblock) : Z := u32 (b / BPB + sb_bmapstart sb).

(** ** Blocks *)

Definition bzero (dev bno : Z) : K unit :=
  bp ← bread dev bno;
  upd_data bp (λ _, zero_block) ;;
  log_write bp ;;
  brelse bp.

(** Bit [bi] of a bitmap block. *)
Definition bit_mask (bi : Z) : Z := Z.shiftl 1 (bi mod 8).
Definition bit_set (d : list Z) (bi : Z) : bool :=
  truthy (Z.land (byte_at d (Z.to_nat (bi / 8))) (bit_mask bi)).
Definition set_bit (d : list Z) (bi : Z) : list Z :=
  alter (λ x, u8 (Z.lor x (bit_mask bi))) (Z.to_nat (bi / 8)) d.
Definition clear_bit (d : list Z) (bi : Z) : list Z :=
  alter (λ x, u8 (Z.ldiff x (bit_mask bi))) (Z.to_nat (bi / 8)) d.

(** The inner loop of [balloc]: the first clear bit of the block whose first
    bit is the one of disk block [b]. *)
Definition free_bit (d : list Z) (b size : Z) : option Z :=
  Z.of_nat <$> find_first (λ bi, negb (bit_set d (Z.of_nat bi)))
                 (seq 0 (Z.to_nat (Z.min BPB (size - b)))).

Fixpoint balloc_loop (fuel : nat) (dev b : Z) : K Z :=
  match fuel with
  | O => panic "balloc: out of blocks"
  | S fuel' =>
      sb ← gets k_sb;
      if b <? sb_size sb then
        bp ← bread dev (BBLOCK b sb);
        d ← get_data bp;
        match free_bit d b (sb_size sb) with
        | Some bi =>
            upd_data bp (λ d, set_bit d bi) ;;
            log_write bp ;;
            brelse bp ;;
            bzero dev (b + bi) ;;
            ret (b + bi)
        | None => brelse bp ;; balloc_loop fuel' dev (b + BPB)
        end
      else panic "balloc: out of blocks"
  end.
(** Allocate a zeroed disk block. *)
Definition balloc (dev : Z) : K Z :=
  sb ← gets k_sb; balloc_loop (S (Z.to_nat (sb_size sb / BPB + 1))) dev 0.

(** Free a disk block. *)
Definition bfree (dev b : Z) : K unit :=
  sb ← gets k_sb;
  bp ← bread dev (BBLOCK b sb);
  let bi := b mod BPB in
  d ← get_data bp;
  if negb (bit_set d bi) then panic "freeing free block"
  else
    upd_data bp (λ d, clear_bit d bi) ;;
    log_write bp ;;
    brelse bp.

(** ** Inodes *)

Definition get_inode (ip : nat) : K inode :=
  ics ← gets k_icache; get_or "inode" (ics !! ip).
Definition upd_inode (ip : nat) (f : inode → inode) : K unit :=
  modify (λ k, k <| k_icache := alter f ip (k_icache k) |>).

Definition iinit (dev : Z) : K unit :=
  initlock LIcache ;;
  for_each (seq 0 NINODE) (λ i, initsleeplock (LInode i)) ;;
  sb ← readsb dev;
  modify (λ k, k <| k_sb := sb |>) ;;
  cprintf ("sb: size %d nblocks %d ninodes %d nlog %d logstart %d inodestart %d bmap start %d" +:+ NL)
    [CInt (sb_size sb); CInt (sb_nblocks sb); CInt (sb_ninodes sb); CInt (sb_nlog sb);
     CInt (sb_logstart sb); CInt (sb_inodestart sb); CInt (sb_bmapstart sb)].

(** [struct dinode] at byte [o] of a block. *)
Definition dinode_off (inum : Z) : nat := (Z.to_nat (inum mod IPB) * DINODE_SIZE)%nat.
Definition encode_dinode (i : inode) (d : list Z) : list Z :=
  let o := dinode_off (i_inum i) in
  let d := put16 d o (i_type i) in
  let d := put16 d (o + 2) (i_major i) in
  let d := put16 d (o + 4) (i_minor i) in
  let d := put16 d (o + 6) (i_nlink i) in
  let d := put32 d (o + 8) (i_size i) in
  put_words d (o + 12) (i_addrs i).
Definition decode_dinode (d : list Z) (i : inode) : inode :=
  let o := dinode_off (i_inum i) in
  i <| i_type := s16 (get16 d o) |> <| i_major := s16 (get16 d (o + 2)) |>
    <| i_minor := s16 (get16 d (o + 4)) |> <| i_nlink := s16 (get16 d (o + 6)) |>
    <| i_size := get32 d (o + 8) |> <| i_addrs := get_words d (o + 12) 13 |>.

(** Find the inode with number inum on device dev and return the in-memory
    copy.  Does not lock the inode and does not read it from disk. *)
Definition iget (dev inum : Z) : K nat :=
  acquire LIcache ;;
  ics ← gets k_icache;
  match find_first (λ i, (0 <? i_ref i) && (i_dev i =? dev) && (i_inum i =? inum)) ics with
  | Some ip =>
      upd_inode ip (λ i, i <| i_ref := i_ref i + 1 |>) ;;
      release LIcache ;;
      ret ip
  | None =>
      match find_first (λ i, i_ref i =? 0) ics with
      | None => panic "iget: no inodes"
      | Some ip =>
          upd_inode ip (λ i, i <| i_dev := dev |> <| i_inum := inum |> <| i_ref := 1 |>
                               <| i_valid := 0 |>) ;;
          release LIcache ;;
          ret ip
      end
  end.

(** Allocate an inode on device dev, with type [type]. *)
Fixpoint ialloc_loop (fuel : nat) (dev type inum : Z) : K nat :=
  match fuel with
  | O => panic "ialloc: no inodes"
  | S fuel' =>
      sb ← gets k_sb;
      if inum <? sb_ninodes sb then
        bp ← bread dev (IBLOCK inum sb);
        d ← get_data bp;
        if get16 d (dinode_off inum) =? 0 then
          upd_data bp (λ d, put16 (splice d (dinode_off inum) (replicate DINODE_SIZE 0))
                              (dinode_off inum) type) ;;
          log_write bp ;;
          brelse bp ;;
          iget dev inum
        else brelse bp ;; ialloc_loop fuel' dev type (inum + 1)
      else panic "ialloc: no inodes"
  end.
Definition ialloc (dev type : Z) : K nat :=
  sb ← gets k_sb; ialloc_loop (Z.to_nat (sb_ninodes sb)) dev type 1.

(** Copy a modified in-memory inode to disk. *)
Definition iupdate (ip : nat) : K unit :=
  i ← get_inode ip;
  sb ← gets k_sb;
  bp ← bread (i_dev i) (IBLOCK (i_inum i) sb);
  upd_data bp (encode_dinode i) ;;
  log_write bp ;;
  brelse bp.

Definition idup (ip : nat) : K nat :=
  acquire LIcache ;;
  upd_inode ip (λ i, i <| i_ref := i_ref i + 1 |>) ;;
  release LIcache ;;
  ret ip.

(** The rest of [ilock] once the sleep lock is held. *)
Definition ilock_load (ip : nat) : K unit :=
  i ← get_inode ip;
  when (i_valid i =? 0)
    (sb ← gets k_sb;
     bp ← bread (i_dev i) (IBLOCK (i_inum i) sb);
     d ← get_data bp;
     upd_inode ip (decode_dinode d) ;;
     brelse bp ;;
     upd_inode ip (λ i, i <| i_valid := 1 |>) ;;
     i ← get_inode ip;
     when (i_type i =? 0) (panic "ilock: no type")).
Definition ilock (ip : nat) : K unit :=
  i ← get_inode ip;
  if i_ref i <? 1 then panic "ilock"
  else acquiresleep (LInode ip) ;; ilock_load ip.

Definition iunlock (ip : nat) : K unit :=
  h ← holdingsleep (LInode ip);
  i ← get_inode ip;
  if negb h || (i_ref i <? 1) then panic "iunlock"
  else releasesleep (LInode ip).

(** ** Inode content *)

(** The address of the [bn]th block of inode [ip], allocated if necessary. *)
Definition bmap (ip : nat) (bn : Z) : K Z :=
  i ← get_inode ip;
  if bn <? NDIRECT then
    addr ← get_or "addrs" (aget (i_addrs i) bn);
    if addr =? 0 then
      addr ← balloc (i_dev i);
      upd_inode ip (λ i, i <| i_addrs := <[Z.to_nat bn := addr]> (i_addrs i) |>) ;;
      ret addr
    else ret addr
  else
    let bn := bn - NDIRECT in
    if bn <? NINDIRECT then
      addr ← get_or "addrs" (aget (i_addrs i) NDIRECT);
      addr ← (if addr =? 0 then
                addr ← balloc (i_dev i);
                upd_inode ip (λ i, i <| i_addrs := <[Z.to_nat NDIRECT := addr]> (i_addrs i) |>) ;;
                ret addr
              else ret addr);
      bp ← bread (i_dev i) addr;
      d ← get_data bp;
      let addr := get32 d (Z.to_nat (4 * bn)) in
      if addr =? 0 then
        addr ← balloc (i_dev i);
        upd_data bp (λ d, put32 d (Z.to_nat (4 * bn)) addr) ;;
        log_write bp ;;
        brelse bp ;;
        ret addr
      else brelse bp ;; ret addr
    else panic "bmap: out of range".

(** Truncate inode (discard contents). *)
Definition itrunc (ip : nat) : K unit :=
  for_each (seq 0 (Z.to_nat NDIRECT)) (λ j,
    i ← get_inode ip;
    a ← get_or "addrs" (i_addrs i !! j);
    when (truthy a)
      (bfree (i_dev i) a ;;
       upd_inode ip (λ i, i <| i_addrs := <[j := 0]> (i_addrs i) |>))) ;;
  i ← get_inode ip;
  a ← get_or "addrs" (aget (i_addrs i) NDIRECT);
  when (truthy a)
    (bp ← bread (i_dev i) a;
     d ← get_data bp;
     for_each (seq 0 (Z.to_nat NINDIRECT)) (λ j,
       let a := get32 d (4 * j) in
       when (truthy a) (bfree (i_dev i) a)) ;;
     brelse bp ;;
     bfree (i_dev i) a ;;
     upd_inode ip (λ i, i <| i_addrs := <[Z.to_nat NDIRECT := 0]> (i_addrs i) |>)) ;;
  upd_inode ip (λ i, i <| i_size := 0 |>) ;;
  iupdate ip.

(** Drop a reference to an in-memory inode. *)
Definition iput (ip : nat) : K unit :=
  acquiresleep (LInode ip) ;;
  i ← get_inode ip;
  when (truthy (i_valid i) && (i_nlink i =? 0))
    (acquire LIcache ;;
     i ← get_inode ip;
     let r := i_ref i in
     release LIcache ;;
     when (r =? 1)
       (itrunc ip ;;
        upd_inode ip (λ i, i <| i_type := 0 |>) ;;
        iupdate ip ;;
        upd_inode ip (λ i, i <| i_valid := 0 |>))) ;;
  releasesleep (LInode ip) ;;
  acquire LIcache ;;
  upd_inode ip (λ i, i <| i_ref := i_ref i - 1 |>) ;;
  release LIcache.

Definition iunlockput (ip : nat) : K unit := iunlock ip ;; iput ip.

Record stat := mkStat { st_type : Z; st_dev : Z; st_ino : Z; st_nlink : Z; st_size : Z }.
Definition stati (ip : nat) : K stat :=
  i ← get_inode ip;
  ret (mkStat (i_type i) (i_dev i) (i_inum i) (i_nlink i) (i_size i)).

Section devices.
Context `{!DevSw}.

(** The loop of [readi]: [tot] of [n] bytes are done; the bytes stored at the
    destination, in order. *)
Fixpoint readi_loop (fuel : nat) (ip : nat) (tot off n : Z) : K (list Z) :=
  match fuel with
  | O => spin
  | S fuel' =>
      if tot <? n then
        i ← get_inode ip;
        addr ← bmap ip (off / BSIZE);
        bp ← bread (i_dev i) addr;
        let m := Z.min (n - tot) (BSIZE - off mod BSIZE) in
        d ← get_data bp;
        brelse bp ;;
        rest ← readi_loop fuel' ip (tot + m) (off + m) n;
        ret (slice d (Z.to_nat (off mod BSIZE)) (Z.to_nat m) ++ rest)
      else ret []
  end.
Definition readi (ip : nat) (off n : Z) : K (Z * list Z) :=
  i ← get_inode ip;
  if i_type i =? T_DEV then
    if (i_major i <? 0) || (NDEV <=? i_major i) then ret (-1, [])
    else match devsw_read (i_major i) with
         | None => ret (-1, [])
         | Some f => f ip n
         end
  else if (i_size i <? off) || (u32 (off + n) <? off) then ret (-1, [])
  else
    let n := if i_size i <? u32 (off + n) then i_size i - off else n in
    bs ← readi_loop (S (Z.to_nat n)) ip 0 off n;
    ret (n, bs).

(** The loop of [writei]; the final value of [off]. *)
Fixpoint writei_loop (fuel : nat) (ip : nat) (src : list Z) (tot off n : Z) : K Z :=
  match fuel with
  | O => spin
  | S fuel' =>
      if tot <? n then
        i ← get_inode ip;
        addr ← bmap ip (off / BSIZE);
        bp ← bread (i_dev i) addr;
        let m := Z.min (n - tot) (BSIZE - off mod BSIZE) in
        upd_data bp (λ d, splice d (Z.to_nat (off mod BSIZE)) (slice src (Z.to_nat tot) (Z.to_nat m))) ;;
        log_write bp ;;
        brelse bp ;;
        writei_loop fuel' ip src (tot + m) (off + m) n
      else ret off
  end.
Definition writei (ip : nat) (src : list Z) (off : Z) : K Z :=
  let n := Z.of_nat (length src) in
  i ← get_inode ip;
  if i_type i =? T_DEV then
    if (i_major i <? 0) || (NDEV <=? i_major i) then ret (-1)
    else match devsw_write (i_major i) with
         | None => ret (-1)
         | Some f => f ip src
         end
  else if (i_size i <? off) || (u32 (off + n) <? off) then ret (-1)
  else if MAXFILE * BSIZE <? u32 (off + n) then ret (-1)
  else
    off ← writei_loop (S (Z.to_nat n)) ip src 0 off n;
    i ← get_inode ip;
    when ((0 <? n) && (i_size i <? off))
      (upd_inode ip (λ i, i <| i_size := off |>) ;; iupdate ip) ;;
    ret n.

(** ** Directories *)

(** [strncmp(s, t, DIRSIZ)]; [s] is NUL-terminated, [t] a [de.name]. *)
Definition namecmp (s t : list Z) : option Z := Str.strncmp (s ++ [0]) t DIRSIZ.

Definition de_inum (de : list Z) : Z := get16 de 0.
Definition de_name (de : list Z) : list Z := slice de 2 DIRSIZ.

(** [dirlookup]: the inode of the entry called [name], and its offset. *)
Fixpoint dirlookup_loop (fuel : nat) (dp : nat) (name : list Z) (off : Z) : K (option (nat * Z)) :=
  match fuel with
  | O => spin
  | S fuel' =>
      d ← get_inode dp;
      if off <? i_size d then
        ' (r, de) ← readi dp off DIRENT_SIZE;
        if negb (r =? DIRENT_SIZE) then panic "dirlookup read"
        else if de_inum de =? 0 then dirlookup_loop fuel' dp name (off + DIRENT_SIZE)
        else
          c ← get_or "namecmp" (namecmp name (de_name de));
          if c =? 0 then ip ← iget (i_dev d) (de_inum de); ret (Some (ip, off))
          else dirlookup_loop fuel' dp name (off + DIRENT_SIZE)
      else ret None
  end.
Definition dirlookup (dp : nat) (name : list Z) : K (option (nat * Z)) :=
  d ← get_inode dp;
  if negb (i_type d =? T_DIR) then panic "dirlookup not DIR"
  else dirlookup_loop (S (Z.to_nat (i_size d / DIRENT_SIZE + 1))) dp name 0.

(** The offset of the first empty entry, or the end of the directory. *)
Fixpoint empty_dirent (fuel : nat) (dp : nat) (off : Z) : K (Z * list Z) :=
  match fuel with
  | O => spin
  | S fuel' =>
      d ← get_inode dp;
      if off <? i_size d then
        ' (r, de) ← readi dp off DIRENT_SIZE;
        if negb (r =? DIRENT_SIZE) then panic "dirlink read"
        else if de_inum de =? 0 then ret (off, de)
        else empty_dirent fuel' dp (off + DIRENT_SIZE)
      else ret (off, replicate 16 0)
  end.
(** Write a new directory entry (name, inum) into the directory dp. *)
Definition dirlink (dp : nat) (name : list Z) (inum : Z) : K Z :=
  r ← dirlookup dp name;
  match r with
  | Some (ip, _) => iput ip ;; ret (-1)
  | None =>
      d ← get_inode dp;
      ' (off, de) ← empty_dirent (S (Z.to_nat (i_size d / DIRENT_SIZE + 1))) dp 0;
      nm ← get_or "strncpy" (Str.strncpy (de_name de) (name ++ [0]) DIRSIZ);
      r ← writei dp (put16 (splice de 2 nm) 0 inum) off;
      if negb (r =? DIRENT_SIZE) then panic "dirlink" else ret 0
  end.

(** ** Paths *)

Definition SLASH : Z := 47.

(** Skip the slashes a path starts with. *)
Fixpoint skip_slashes (path : list Z) : list Z :=
  match path with
  | c :: path' => if c =? SLASH then skip_slashes path' else path
  | [] => []
  end.
(** The characters before the next slash or the end, and the rest. *)
Fixpoint take_elem (path : list Z) : list Z * list Z :=
  match path with
  | c :: path' =>
      if c =? SLASH then ([], path)
      else let '(e, rest) := take_elem path' in (c :: e, rest)
  | [] => ([], [])
  end.
(** The next path element, cut to DIRSIZ characters, and the path behind it. *)
Definition skipelem (path : list Z) : option (list Z * list Z) :=
  match skip_slashes path with
  | [] => None
  | p =>
      let '(e, rest) := take_elem p in
      Some (take DIRSIZ e, skip_slashes rest)
  end.

(** Look up and return the inode for a path name; with [parent], the inode of
    the parent and the final path element. *)
Fixpoint namex_loop (fuel : nat) (ip : nat) (path : list Z) (parent : bool) (name : list Z) :
    K (option nat * list Z) :=
  match fuel with
  | O => spin
  | S fuel' =>
      match skipelem path with
      | None =>
          if parent then iput ip ;; ret (None, name) else ret (Some ip, name)
      | Some (name, path) =>
          ilock ip ;;
          i ← get_inode ip;
          if negb (i_type i =? T_DIR) then iunlockput ip ;; ret (None, name)
          else if parent && bool_decide (path = []) then
            (* Stop one level early. *)
            iunlock ip ;; ret (Some ip, name)
          else
            next ← dirlookup ip name;
            match next with
            | None => iunlockput ip ;; ret (None, name)
            | Some (next, _) => iunlockput ip ;; namex_loop fuel' next path parent name
            end
      end
  end.
Definition namex (path : list Z) (parent : bool) : K (option nat * list Z) :=
  ip ← (if bool_decide (head path = Some SLASH) then iget ROOTDEV ROOTINO
        else
          me ← curproc; p ← get_proc me;
          cwd ← get_or "cwd" (p_cwd p); idup cwd);
  namex_loop (S (length path)) ip path parent [].
Definition namei (path : list Z) : K (option nat) :=
  ' (r, _) ← namex path false; ret r.
Definition nameiparent (path : list Z) : K (option nat * list Z) := namex path true.

End devices.
End Fs.
Export Fs.
