(* ===== verification/File.v ===== *)
(** * File: the open-file table ([file.c], [pipealloc] of [pipe.c])

    Entries of the table are shared by the descriptors that refer to them and
    counted in [ref]; the last close gives the pipe end or the inode back. *)
From S2P Require Import Prelude.
From S2P Require Import Mem.
From S2P Require Import Str.
From S2P Require Import State.
From S2P Require Import Spin.
From S2P Require Import Cons.
From S2P Require Import Kalloc.
From S2P Require Import Vm.
From S2P Require Import Mlq.
From S2P Require Import Proc.
From S2P Require Import Pipe.
From S2P Require Import Blk.
From S2P Require Import Bio.
From S2P Require Import Log.
From S2P Require Import Fs.

Module File.

Definition get_file (f : nat) : K file :=
  fs ← gets k_ftable; get_or "file" (fs !! f).
Definition upd_file (f : nat) (g : file → file) : K unit :=
  modify (λ k, k <| k_ftable := alter g f (k_ftable k) |>).

Definition fileinit : K unit := initlock LFtable.

(** Allocate a file structure. *)
Definition filealloc : K (option nat) :=
  acquire LFtable ;;
  fs ← gets k_ftable;
  match find_first (λ f, f_ref f =? 0) fs with
  | Some f => upd_file f (λ f, f <| f_ref := 1 |>) ;; release LFtable ;; ret (Some f)
  | None => release LFtable ;; ret None
  end.

(** Increment ref count for file f. *)
Definition filedup (f : nat) : K nat :=
  acquire LFtable ;;
  x ← get_file f;
  if f_ref x <? 1 then panic "filedup"
  else
    upd_file f (λ f, f <| f_ref := f_ref f + 1 |>) ;;
    release LFtable ;;
    ret f.

(** Close file f.  (Decrement ref count, close when reaches 0.) *)
Definition fileclose (f : nat) : K unit :=
  acquire LFtable ;;
  x ← get_file f;
  if f_ref x <? 1 then panic "fileclose"
  else
    upd_file f (λ f, f <| f_ref := f_ref f - 1 |>) ;;
    ff ← get_file f;
    if 0 <? f_ref ff then release LFtable
    else
      upd_file f (λ f, f <| f_ref := 0 |> <| f_type := FD_NONE |>) ;;
      release LFtable ;;
      match f_type ff with
      | FD_PIPE => pipeclose (f_pipe ff) (f_writable ff)
      | FD_INODE =>
          ip ← get_or "ip" (f_ip ff);
          begin_op ;; iput ip ;; end_op
      | FD_NONE => ret tt
      end.

(** Get metadata about file f. *)
Definition filestat (f : nat) : K (Z * option stat) :=
  x ← get_file f;
  match f_type x with
  | FD_INODE =>
      ip ← get_or "ip" (f_ip x);
      ilock ip ;;
      st ← stati ip;
      iunlock ip ;;
      ret (0, Some st)
  | _ => ret (-1, None)
  end.

Section devices.
Context `{!DevSw}.

(** Read from file f: the result and the bytes stored from [addr] on. *)
Definition fileread (f : nat) (n : Z) : K (Z * list Z) :=
  x ← get_file f;
  if f_readable x =? 0 then ret (-1, [])
  else
    match f_type x with
    | FD_PIPE => piperead (f_pipe x) n
    | FD_INODE =>
        ip ← get_or "ip" (f_ip x);
        ilock ip ;;
        ' (r, bs) ← readi ip (f_off x) (u32 n);
        when (0 <? r) (upd_file f (λ x, x <| f_off := u32 (f_off x + r) |>)) ;;
        iunlock ip ;;
        ret (r, bs)
    | FD_NONE => panic "fileread"
    end.

(** [((MAXOPBLOCKS-1-1-2) / 2) * 512] *)
Definition filewrite_max : Z := (MAXOPBLOCKS - 1 - 1 - 2) / 2 * 512.

(** The loop of [filewrite]: the final value of [i]. *)
Fixpoint filewrite_loop (fuel : nat) (f : nat) (ip : nat) (bs : list Z) (i n : Z) : K Z :=
  match fuel with
  | O => spin
  | S fuel' =>
      if i <? n then
        let n1 := if filewrite_max <? n - i then filewrite_max else n - i in
        begin_op ;;
        ilock ip ;;
        x ← get_file f;
        r ← writei ip (slice bs (Z.to_nat i) (Z.to_nat n1)) (f_off x);
        when (0 <? r) (upd_file f (λ x, x <| f_off := u32 (f_off x + r) |>)) ;;
        iunlock ip ;;
        end_op ;;
        if r <? 0 then ret i
        else if negb (r =? n1) then panic "short filewrite"
        else filewrite_loop fuel' f ip bs (i + r) n
      else ret i
  end.
(** Write the bytes [bs] at [addr] to file f. *)
Definition filewrite (f : nat) (bs : list Z) : K Z :=
  let n := Z.of_nat (length bs) in
  x ← get_file f;
  if f_writable x =? 0 then ret (-1)
  else
    match f_type x with
    | FD_PIPE => pipewrite (f_pipe x) bs
    | FD_INODE =>
        ip ← get_or "ip" (f_ip x);
        i ← filewrite_loop (S (length bs)) f ip bs 0 n;
        ret (if i =? n then n else -1)
    | FD_NONE => panic "filewrite"
    end.

End devices.

(** [bad:] of [pipealloc] *)
Definition pipealloc_bad (p : Z) (f0 f1 : option nat) : K (option (nat * nat)) :=
  when (truthy p) (kfree p) ;;
  match f0 with Some f => fileclose f | None => ret tt end ;;
  match f1 with Some f => fileclose f | None => ret tt end ;;
  ret None.

(** The read end and the write end of a new pipe. *)
Definition pipealloc : K (option (nat * nat)) :=
  f0 ← filealloc;
  match f0 with
  | None => pipealloc_bad 0 None None
  | Some r =>
      f1 ← filealloc;
      match f1 with
      | None => pipealloc_bad 0 f0 None
      | Some w =>
          p ← kalloc;
          if p =? 0 then pipealloc_bad 0 f0 f1
          else
            d ← gets (λ k, bytes (k_mem k) (p + 52) 512);
            modify (λ k, k <| k_pipes := <[p := mkPipe d 0 0 1 1]> (k_pipes k) |>) ;;
            initlock (LPipe p) ;;
            upd_file r (λ f, f <| f_type := FD_PIPE |> <| f_readable := 1 |>
                               <| f_writable := 0 |> <| f_pipe := p |>) ;;
            upd_file w (λ f, f <| f_type := FD_PIPE |> <| f_readable := 0 |>
                               <| f_writable := 1 |> <| f_pipe := p |>) ;;
            ret (Some (r, w))
      end
  end.

End File.
Export File.
