(* ===== verification/Life.v ===== *)
(** * Life: creating and ending processes ([userinit], [fork], [exit],
    [forkret] of [proc.c]) *)
From S2P Require Import Prelude.
From S2P Require Import Mem.
From S2P Require Import Str.
From S2P Require Import State.
From S2P Require Import Spin.
From S2P Require Import Cons.
From S2P Require Import Kalloc.
From S2P Require Import Vm.
From S2P Require Import Mlq.
From S2P Require Import Proc.
From S2P Require Import Pipe.
From S2P Require Import Blk.
From S2P Require Import Bio.
From S2P Require Import Log.
From S2P Require Import Fs.
From S2P Require Import File.

Module Life.

(** Offsets of the fields of [struct trapframe] (x86.h). *)
Definition TF_EAX : Z := 28.
Definition TF_ES : Z := 40.
Definition TF_DS : Z := 44.
Definition TF_TRAPNO : Z := 48.
Definition TF_ERR : Z := 52.
Definition TF_EIP : Z := 56.
Definition TF_CS : Z := 60.
Definition TF_EFLAGS : Z := 64.
Definition TF_ESP : Z := 68.
Definition TF_SS : Z := 72.

Definition SEG_UCODE : Z := 3.
Definition SEG_UDATA : Z := 4.
Definition DPL_USER : Z := 3.

(** A store to a [ushort] field. *)
Definition store16 (a w : Z) : K unit :=
  modify (λ k, k <| k_mem := st8 (st8 (k_mem k) a w) (a + 1) (w / 256) |>).
Definition load16 (a : Z) : K Z := gets (λ k, ld8 (k_mem k) a + 256 * ld8 (k_mem k) (a + 1)).

(** [safestrcpy(p->name, s, sizeof(p->name))] *)
Definition set_name (i : nat) (s : list Z) : K unit :=
  p ← get_proc i;
  nm ← get_or "safestrcpy" (Str.safestrcpy (p_name p) s 16);
  upd_proc i (λ p, p <| p_name := nm |>).

(** The trap frame of the first process. *)
Definition init_trapframe (tf : Z) : K unit :=
  kmemset tf 0 TF_SIZE ;;
  store16 (tf + TF_CS) (Z.lor (Z.shiftl SEG_UCODE 3) DPL_USER) ;;
  store16 (tf + TF_DS) (Z.lor (Z.shiftl SEG_UDATA 3) DPL_USER) ;;
  ds ← load16 (tf + TF_DS);
  store16 (tf + TF_ES) ds ;;
  store16 (tf + TF_SS) ds ;;
  store (tf + TF_EFLAGS) FL_IF ;;
  store (tf + TF_ESP) PGSIZE ;;
  store (tf + TF_EIP) 0.

Section devices.
Context `{!DevSw}.

(** Set up first user process; [start] and [size] are the linker's symbols for
    the embedded initcode. *)
Definition userinit (start size : Z) : K unit :=
  o ← allocproc;
  modify (λ k, k <| k_initproc := o |>) ;;
  i ← get_or "allocproc" o;
  pgdir ← setupkvm;
  upd_proc i (λ p, p <| p_pgdir := pgdir |>) ;;
  if pgdir =? 0 then panic "userinit: out of memory?"
  else
    inituvm pgdir start size ;;
    upd_proc i (λ p, p <| p_sz := PGSIZE |>) ;;
    p ← get_proc i;
    init_trapframe (p_tf p) ;;
    set_name i (chars "initcode" ++ [0]) ;;
    root ← namei [SLASH];
    upd_proc i (λ p, p <| p_cwd := root |>) ;;
    acquire LPtable ;;
    upd_proc i (λ p, p <| p_state := RUNNABLE |>) ;;
    ticks ← gets k_ticks;
    upd_proc i (λ p, p <| p_start := s32 ticks |>) ;;
    release LPtable.
End devices.

(** [for (i = 0; i < NOFILE; i++) if (curproc->ofile[i])
      np->ofile[i] = filedup(curproc->ofile[i]);] *)
Definition copy_files (me np : nat) : K unit :=
  for_each (seq 0 NOFILE) (λ fd,
    p ← get_proc me;
    match p_ofile p !! fd with
    | Some (Some f) =>
        f' ← filedup f;
        upd_proc np (λ p, p <| p_ofile := <[fd := Some f']> (p_ofile p) |>)
    | _ => ret tt
    end).

(** Create a new process copying the current one. *)
Definition fork : K Z :=
  me ← curproc;
  o ← allocproc;
  match o with
  | None => ret (-1)
  | Some np =>
      p ← get_proc me;
      pgdir ← copyuvm (p_pgdir p) (p_sz p);
      upd_proc np (λ q, q <| p_pgdir := pgdir |>) ;;
      if pgdir =? 0 then
        q ← get_proc np;
        kfree (p_kstack q) ;;
        upd_proc np (λ q, q <| p_kstack := 0 |>) ;;
        upd_proc np (λ q, q <| p_state := UNUSED |>) ;;
        ret (-1)
      else
        upd_proc np (λ q, q <| p_sz := p_sz p |>) ;;
        upd_proc np (λ q, q <| p_parent := Some me |>) ;;
        q ← get_proc np;
        kmemmove (p_tf q) (p_tf p) TF_SIZE ;;
        (* Clear %eax so that fork returns 0 in the child. *)
        store (p_tf q + TF_EAX) 0 ;;
        copy_files me np ;;
        cwd ← get_or "cwd" (p_cwd p);
        cwd' ← idup cwd;
        upd_proc np (λ q, q <| p_cwd := Some cwd' |>) ;;
        set_name np (p_name p) ;;
        q ← get_proc np;
        let pid := p_pid q in
        acquire LPtable ;;
        upd_proc np (λ q, q <| p_state := RUNNABLE |>) ;;
        ticks ← gets k_ticks;
        upd_proc np (λ q, q <| p_start := s32 ticks |>) ;;
        release LPtable ;;
        ret pid
  end.

(** Close all open files. *)
Definition close_files (me : nat) : K unit :=
  for_each (seq 0 NOFILE) (λ fd,
    p ← get_proc me;
    match p_ofile p !! fd with
    | Some (Some f) =>
        fileclose f ;;
        upd_proc me (λ p, p <| p_ofile := <[fd := None]> (p_ofile p) |>)
    | _ => ret tt
    end).

(** Exit the current process.  Does not return. *)
Definition exit : K unit :=
  me ← curproc;
  init ← gets k_initproc;
  if bool_decide (init = Some me) then panic "init exiting"
  else
    close_files me ;;
    begin_op ;;
    p ← get_proc me;
    cwd ← get_or "cwd" (p_cwd p);
    iput cwd ;;
    end_op ;;
    upd_proc me (λ p, p <| p_cwd := None |>) ;;
    exit_ptable me.

(** A fork child's very first scheduling by scheduler() will swtch here;
    [first] is the static variable. *)
Definition forkret (first : bool) : K bool :=
  release LPtable ;;
  when first (iinit ROOTDEV ;; initlog ROOTDEV) ;;
  ret false.

End Life.
Export Life.
