(* ===== verification/ConsDev.v ===== *)
(** * ConsDev: the console as a device ([console.c], [procdump] of [proc.c],
    [getcallerpcs] of [spinlock.c])

    Interrupts append typed characters to a ring of 128 bytes, with line editing
    between the write index [w] and the edit index [e]; readers take complete
    lines between the read index [r] and [w]. *)
From S2P Require Import Prelude.
From S2P Require Import Mem.
From S2P Require Import Str.
From S2P Require Import State.
From S2P Require Import Spin.
From S2P Require Import Cons.
From S2P Require Import Kalloc.
From S2P Require Import Vm.
From S2P Require Import Mlq.
From S2P Require Import Proc.
From S2P Require Import Pipe.
From S2P Require Import Blk.
From S2P Require Import Bio.
From S2P Require Import Log.
From S2P Require Import Fs.

Module ConsDev.

Definition INPUT_BUF : Z := 128.
Definition NEWLINE : Z := 10.
Definition CTRL_D : Z := 4.
Definition CTRL_H : Z := 8.
Definition CTRL_P : Z := 16.
Definition CTRL_U : Z := 21.
Definition DEL : Z := 127.

Definition upd_input (f : inputst → inputst) : K unit :=
  modify (λ k, k <| k_input := f (k_input k) |>).
(** [input.buf[i % INPUT_BUF]] *)
Definition in_at (inp : inputst) (i : Z) : Z :=
  default 0 (in_buf inp !! Z.to_nat (u32 i mod INPUT_BUF)).

(** ** procdump *)

(** The return addresses found by following saved frame pointers from [ebp];
    the unused entries of [pcs] are 0. *)
Fixpoint callerpcs (n : nat) (m : mem) (ebp : Z) : list Z :=
  match n with
  | O => []
  | S n' =>
      if (ebp =? 0) || (ebp <? KERNBASE) || (ebp =? 0xffffffff) then replicate n 0
      else ld32 m (ebp + 4) :: callerpcs n' m (ld32 m ebp)
  end.
Definition getcallerpcs (m : mem) (v : Z) : list Z := callerpcs 10 m (u32 (v - 8)).

Definition state_name (s : procstate) : list Z :=
  chars match s with
        | UNUSED => "unused" | EMBRYO => "embryo" | SLEEPING => "sleep "
        | RUNNABLE => "runble" | RUNNING => "run   " | ZOMBIE => "zombie"
        end.

(** [for(i=0; i<10 && pc[i] != 0; i++) cprintf(" %p", pc[i])] *)
Fixpoint print_pcs (pcs : list Z) : K unit :=
  match pcs with
  | [] => ret tt
  | pc :: pcs' => if pc =? 0 then ret tt else cprintf " %p" [CInt pc] ;; print_pcs pcs'
  end.

Definition CTX_EBP : Z := 12.

Definition procdump : K unit :=
  for_each (seq 0 NPROC) (λ i,
    p ← get_proc i;
    if bool_decide (p_state p = UNUSED) then ret tt
    else
      cprintf "%d %s %s" [CInt (p_pid p); CStr (state_name (p_state p)); CStr (proc_name p)] ;;
      when (bool_decide (p_state p = SLEEPING))
        (m ← gets k_mem;
         print_pcs (getcallerpcs m (u32 (ld32 m (p_context p + CTX_EBP) + 8)))) ;;
      cprintf NL []).

(** ** Interrupts *)

(** Kill line: erase back to the last newline or to [w]; at most the 128
    characters of the buffer. *)
Fixpoint kill_line (fuel : nat) : K unit :=
  match fuel with
  | O => ret tt
  | S fuel' =>
      inp ← gets k_input;
      if negb (in_e inp =? in_w inp) && negb (in_at inp (in_e inp - 1) =? NEWLINE) then
        upd_input (λ inp, inp <| in_e := u32 (in_e inp - 1) |>) ;;
        consputc BACKSPACE ;;
        kill_line fuel'
      else ret tt
  end.

(** An ordinary character. *)
Definition type_char (c : Z) : K unit :=
  inp ← gets k_input;
  when (negb (c =? 0) && (u32 (in_e inp - in_r inp) <? INPUT_BUF))
    (let c := if c =? 13 then NEWLINE else c in
     upd_input (λ inp, inp <| in_buf := <[Z.to_nat (in_e inp mod INPUT_BUF) := u8 c]> (in_buf inp) |>
                           <| in_e := u32 (in_e inp + 1) |>) ;;
     consputc c ;;
     inp ← gets k_input;
     when ((c =? NEWLINE) || (c =? CTRL_D) || (in_e inp =? u32 (in_r inp + INPUT_BUF)))
       (upd_input (λ inp, inp <| in_w := in_e inp |>) ;;
        wakeup ChInput)).

(** One character from [getc]; the result says whether a process listing was
    asked for. *)
Definition input_char (c : Z) : K bool :=
  if c =? CTRL_P then ret true
  else if c =? CTRL_U then kill_line 128 ;; ret false
  else if (c =? CTRL_H) || (c =? DEL) then
    inp ← gets k_input;
    when (negb (in_e inp =? in_w inp))
      (upd_input (λ inp, inp <| in_e := u32 (in_e inp - 1) |>) ;; consputc BACKSPACE) ;;
    ret false
  else type_char c ;; ret false.

Fixpoint input_chars (cs : list Z) (doprocdump : bool) : K bool :=
  match cs with
  | [] => ret doprocdump
  | c :: cs' => d ← input_char c; input_chars cs' (doprocdump || d)
  end.

(** [consoleintr] when [getc] returns the characters [cs] before -1. *)
Definition consoleintr (cs : list Z) : K unit :=
  acquire LCons ;;
  d ← input_chars cs false;
  release LCons ;;
  when d procdump.

(** ** Reading and writing *)

(** The loop of [consoleread], with [cons.lock] held: [n] bytes are still
    wanted, [acc] are the bytes stored so far. *)
Fixpoint consoleread_loop (fuel : nat) (ip : nat) (n target : Z) (acc : list Z) : K (Z * list Z) :=
  match fuel with
  | O => spin
  | S fuel' =>
      if 0 <? n then
        inp ← gets k_input;
        if in_r inp =? in_w inp then
          killed ← myproc_killed;
          if killed then release LCons ;; ilock ip ;; ret (-1, acc)
          else sleep ChInput LCons ;; ret (0, acc)
        else
          let c := s8 (in_at inp (in_r inp)) in
          upd_input (λ inp, inp <| in_r := u32 (in_r inp + 1) |>) ;;
          if c =? CTRL_D then
            when (n <? target) (upd_input (λ inp, inp <| in_r := u32 (in_r inp - 1) |>)) ;;
            release LCons ;; ilock ip ;; ret (target - n, acc)
          else if c =? NEWLINE then
            release LCons ;; ilock ip ;; ret (target - (n - 1), acc ++ [c])
          else consoleread_loop fuel' ip (n - 1) target (acc ++ [c])
      else release LCons ;; ilock ip ;; ret (target - n, acc)
  end.
Definition consoleread (ip : nat) (n : Z) : K (Z * list Z) :=
  iunlock ip ;;
  acquire LCons ;;
  consoleread_loop (S (Z.to_nat n)) ip n n [].
Definition consoleread_resume (me : nat) (intena : Z) (ip : nat) (n target : Z) (acc : list Z) :
    K (Z * list Z) :=
  sleep_resume me intena LCons ;; consoleread_loop (S (Z.to_nat n)) ip n target acc.

Definition consolewrite (ip : nat) (bs : list Z) : K Z :=
  iunlock ip ;;
  acquire LCons ;;
  for_each bs (λ c, consputc (Z.land c 255)) ;;
  release LCons ;;
  ilock ip ;;
  ret (Z.of_nat (length bs)).

(** [consoleinit] makes the console device number 1. *)
Definition CONSOLE : Z := 1.
Definition consoleinit : K unit :=
  initlock LCons ;; modify (λ k, k <| k_cons_locking := 1 |>).
#[export] Instance console_devsw : DevSw := {|
  devsw_read major := if major =? CONSOLE then Some consoleread else None;
  devsw_write major := if major =? CONSOLE then Some consolewrite else None
|}.

End ConsDev.
Export ConsDev.
