(* ===== verification/Syscall.v ===== *)
(** * Syscall: system-call arguments and the calls about processes
    ([syscall.c], [sysproc.c])

    The kernel runs on the page table of the current process, so a user pointer
    is dereferenced through it ([user_byte]); an unmapped address is a fault.
    The checks of [fetchint] and its companions keep the addresses they hand
    out below the process's size. *)
From S2P Require Import Prelude.
From S2P Require Import Mem.
From S2P Require Import Str.
From S2P Require Import State.
From S2P Require Import Spin.
From S2P Require Import Cons.
From S2P Require Import Kalloc.
From S2P Require Import Vm.
From S2P Require Import VmSpec.
From S2P Require Import Mlq.
From S2P Require Import Proc.
From S2P Require Import Pipe.
From S2P Require Import Blk.
From S2P Require Import Bio.
From S2P Require Import Log.
From S2P Require Import Fs.
From S2P Require Import File.
From S2P Require Import Life.

Module Syscall.

(** ** User memory *)

Definition user_byte (m : mem) (pgdir va : Z) : option Z :=
  match frame_of m pgdir va with
  | Some (f, _) => Some (ld8 m (f + va mod PGSIZE))
  | None => None
  end.
(** A supervisor write respects read-only pages (CR0_WP). *)
Definition put_user_byte (m : mem) (pgdir va c : Z) : option mem :=
  match frame_of m pgdir va with
  | Some (f, fl) => if truthy (Z.land fl PTE_W) then Some (st8 m (f + va mod PGSIZE) c) else None
  | None => None
  end.

Fixpoint user_bytes (m : mem) (pgdir va : Z) (n : nat) : option (list Z) :=
  match n with
  | O => Some []
  | S n' => c ←? user_byte m pgdir va; cs ←? user_bytes m pgdir (va + 1) n'; Some (c :: cs)
  end.
Fixpoint put_user_bytes (m : mem) (pgdir va : Z) (cs : list Z) : option mem :=
  match cs with
  | [] => Some m
  | c :: cs' => m' ←? put_user_byte m pgdir va c; put_user_bytes m' pgdir (va + 1) cs'
  end.

Definition my_proc : K proc := i ← curproc; get_proc i.

Definition uread (va : Z) (n : nat) : K (list Z) :=
  p ← my_proc; m ← gets k_mem; get_or "page fault" (user_bytes m (p_pgdir p) va n).
Definition uwrite (va : Z) (cs : list Z) : K unit :=
  p ← my_proc; m ← gets k_mem;
  m' ← get_or "page fault" (put_user_bytes m (p_pgdir p) va cs);
  modify (λ k, k <| k_mem := m' |>).

(** ** syscall.c *)

(** Fetch the int at addr from the current process. *)
Definition fetchint (addr : Z) : K (option Z) :=
  p ← my_proc;
  if (p_sz p <=? addr) || (p_sz p <? u32 (addr + 4)) then ret None
  else
    bs ← uread addr 4;
    ret (Some (s32 (get32 bs 0))).

(** The loop of [fetchstr] from [s] up to [ep]. *)
Fixpoint fetchstr_loop (n : nat) (m : mem) (pgdir s : Z) : option (option (list Z)) :=
  match n with
  | O => Some None
  | S n' =>
      c ←? user_byte m pgdir s;
      if c =? 0 then Some (Some [])
      else
        r ←? fetchstr_loop n' m pgdir (s + 1);
        Some ((λ cs, c :: cs) <$> r)
  end.
(** Fetch the nul-terminated string at addr: its characters. *)
Definition fetchstr (addr : Z) : K (option (list Z)) :=
  p ← my_proc;
  if p_sz p <=? addr then ret None
  else
    m ← gets k_mem;
    get_or "page fault" (fetchstr_loop (Z.to_nat (p_sz p - addr)) m (p_pgdir p) addr).

(** Fetch the nth 32-bit system call argument. *)
Definition argint (n : Z) : K (option Z) :=
  p ← my_proc;
  esp ← load (p_tf p + TF_ESP);
  fetchint (u32 (esp + 4 + 4 * n)).

(** Fetch the nth argument as a pointer to a block of [size] bytes. *)
Definition argptr (n size : Z) : K (option Z) :=
  p ← my_proc;
  r ← argint n;
  match r with
  | None => ret None
  | Some i =>
      if (size <? 0) || (p_sz p <=? u32 i) || (p_sz p <? u32 (u32 i + size)) then ret None
      else ret (Some (u32 i))
  end.

(** Fetch the nth argument as a string. *)
Definition argstr (n : Z) : K (option (list Z)) :=
  r ← argint n;
  match r with
  | None => ret None
  | Some addr => fetchstr (u32 addr)
  end.

(** ** sysproc.c *)

Definition sys_fork : K Z := fork.
Definition sys_exit : K Z := exit ;; ret 0.
Definition sys_wait : K Z := wait.

(** An [int] as it is stored in memory. *)
Definition int_bytes (v : Z) : list Z := put32 [0; 0; 0; 0] 0 v.

Definition sys_waitx : K Z :=
  wtime ← argptr 0 4;
  match wtime with
  | None => ret (-1)
  | Some wtime =>
      rtime ← argptr 1 4;
      match rtime with
      | None => ret (-1)
      | Some rtime =>
          ' (pid, ts) ← waitx;
          match ts with
          | Some (w, r) => uwrite wtime (int_bytes w) ;; uwrite rtime (int_bytes r)
          | None => ret tt
          end ;;
          ret pid
      end
  end.

Definition sys_kill : K Z :=
  pid ← argint 0;
  match pid with None => ret (-1) | Some pid => kill pid end.

Definition sys_getpid : K Z := p ← my_proc; ret (p_pid p).

Definition sys_sbrk : K Z :=
  n ← argint 0;
  match n with
  | None => ret (-1)
  | Some n =>
      p ← my_proc;
      let addr := s32 (p_sz p) in
      r ← growproc n;
      if r <? 0 then ret (-1) else ret addr
  end.

(** The loop of [sys_sleep], with [tickslock] held; the comparison is
    unsigned. *)
Definition sys_sleep_loop (n ticks0 : Z) : K Z :=
  ticks ← gets k_ticks;
  if u32 (ticks - ticks0) <? u32 n then
    killed ← myproc_killed;
    if killed then release LTicks ;; ret (-1)
    else sleep ChTicks LTicks ;; ret 0
  else release LTicks ;; ret 0.
Definition sys_sleep : K Z :=
  n ← argint 0;
  match n with
  | None => ret (-1)
  | Some n =>
      acquire LTicks ;;
      ticks0 ← gets k_ticks;
      sys_sleep_loop n ticks0
  end.
Definition sys_sleep_resume (me : nat) (intena n ticks0 : Z) : K Z :=
  sleep_resume me intena LTicks ;; sys_sleep_loop n ticks0.

Definition sys_uptime : K Z :=
  acquire LTicks ;;
  xticks ← gets k_ticks;
  release LTicks ;;
  ret (s32 xticks).

(** The fields [getpinfo] stores, as they are laid out in memory; the last
    field of the struct, [active], is not among them. *)
Definition stat_bytes (s : proc_stat) : list Z :=
  int_bytes (st_pid s) ++ int_bytes (st_runtime s) ++ int_bytes (st_num_run s) ++
  int_bytes (st_current_queue s) ++ flat_map int_bytes (st_ticks s).
Definition PROC_STAT_SIZE : Z := 40.

Definition sys_getpinfo : K Z :=
  a ← argptr 0 PROC_STAT_SIZE;
  match a with
  | None => ret (-1)
  | Some a =>
      pid ← argint 1;
      match pid with
      | None => ret (-1)
      | Some pid =>
          ' (s, r) ← getpinfo pid;
          match s with Some s => uwrite a (stat_bytes s) | None => ret tt end ;;
          ret r
      end
  end.

Definition sys_ps : K Z := ps.

Definition sys_set_priority : K Z :=
  pid ← argint 0;
  match pid with
  | None => ret (-1)
  | Some pid =>
      priority ← argint 1;
      match priority with None => ret (-1) | Some priority => set_priority pid priority end
  end.

End Syscall.
Export Syscall.
