(* ===== verification/Sysfile.v ===== *)
(** * Sysfile: the file-system calls and exec ([sysfile.c], [exec.c],
    [loaduvm] of [vm.c]) *)
From S2P Require Import Prelude.
From S2P Require Import Mem.
From S2P Require Import Str.
From S2P Require Import State.
From S2P Require Import Spin.
From S2P Require Import Cons.
From S2P Require Import Kalloc.
From S2P Require Import Vm.
From S2P Require Import VmSpec.
From S2P Require Import Mlq.
From S2P Require Import Proc.
From S2P Require Import Pipe.
From S2P Require Import Blk.
From S2P Require Import Bio.
From S2P Require Import Log.
From S2P Require Import Fs.
From S2P Require Import ConsDev.
From S2P Require Import File.
From S2P Require Import Life.
From S2P Require Import Syscall.

Module Sysfile.

(** fcntl.h *)
Definition O_RDONLY : Z := 0.
Definition O_WRONLY : Z := 1.
Definition O_RDWR : Z := 2.
Definition O_CREATE : Z := 0x200.

(** Fetch the nth argument as a file descriptor: the descriptor and the
    corresponding struct file. *)
Definition argfd (n : Z) : K (option (nat * nat)) :=
  r ← argint n;
  match r with
  | None => ret None
  | Some fd =>
      if (fd <? 0) || (Z.of_nat NOFILE <=? fd) then ret None
      else
        p ← my_proc;
        match p_ofile p !! Z.to_nat fd with
        | Some (Some f) => ret (Some (Z.to_nat fd, f))
        | _ => ret None
        end
  end.

(** Allocate a file descriptor for the given file. *)
Definition fdalloc (f : nat) : K (option nat) :=
  me ← curproc;
  p ← get_proc me;
  match find_first (λ o, bool_decide (o = None)) (take NOFILE (p_ofile p)) with
  | Some fd => upd_proc me (λ p, p <| p_ofile := <[fd := Some f]> (p_ofile p) |>) ;; ret (Some fd)
  | None => ret None
  end.

Definition sys_dup : K Z :=
  a ← argfd 0;
  match a with
  | None => ret (-1)
  | Some (_, f) =>
      fd ← fdalloc f;
      match fd with
      | None => ret (-1)
      | Some fd => filedup f ;; ret (Z.of_nat fd)
      end
  end.

Definition sys_read : K Z :=
  a ← argfd 0;
  match a with
  | None => ret (-1)
  | Some (_, f) =>
      n ← argint 2;
      match n with
      | None => ret (-1)
      | Some n =>
          p ← argptr 1 n;
          match p with
          | None => ret (-1)
          | Some p => ' (r, bs) ← fileread f n; uwrite p bs ;; ret r
          end
      end
  end.

Definition sys_write : K Z :=
  a ← argfd 0;
  match a with
  | None => ret (-1)
  | Some (_, f) =>
      n ← argint 2;
      match n with
      | None => ret (-1)
      | Some n =>
          p ← argptr 1 n;
          match p with
          | None => ret (-1)
          | Some p => bs ← uread p (Z.to_nat n); filewrite f bs
          end
      end
  end.

Definition sys_close : K Z :=
  a ← argfd 0;
  match a with
  | None => ret (-1)
  | Some (fd, f) =>
      me ← curproc;
      upd_proc me (λ p, p <| p_ofile := <[fd := None]> (p_ofile p) |>) ;;
      fileclose f ;;
      ret 0
  end.

(** [struct stat] is 20 bytes with two holes. *)
Definition put_stat (a : Z) (st : stat) : K unit :=
  uwrite a (put16 [0; 0] 0 (st_type st)) ;;
  uwrite (a + 4) (int_bytes (st_dev st)) ;;
  uwrite (a + 8) (int_bytes (st_ino st)) ;;
  uwrite (a + 12) (put16 [0; 0] 0 (st_nlink st)) ;;
  uwrite (a + 16) (int_bytes (st_size st)).

Definition sys_fstat : K Z :=
  a ← argfd 0;
  match a with
  | None => ret (-1)
  | Some (_, f) =>
      st ← argptr 1 20;
      match st with
      | None => ret (-1)
      | Some a =>
          ' (r, st) ← filestat f;
          match st with Some st => put_stat a st | None => ret tt end ;;
          ret r
      end
  end.

(** [bad:] of [sys_link]: undo the new link count. *)
Definition link_bad (ip : nat) : K Z :=
  ilock ip ;;
  upd_inode ip (λ i, i <| i_nlink := s16 (i_nlink i - 1) |>) ;;
  iupdate ip ;;
  iunlockput ip ;;
  end_op ;;
  ret (-1).

(** Create the path new as a link to the same inode as old. *)
Definition sys_link : K Z :=
  old ← argstr 0;
  match old with
  | None => ret (-1)
  | Some old =>
      new ← argstr 1;
      match new with
      | None => ret (-1)
      | Some new =>
          begin_op ;;
          r ← namei old;
          match r with
          | None => end_op ;; ret (-1)
          | Some ip =>
              ilock ip ;;
              i ← get_inode ip;
              if i_type i =? T_DIR then iunlockput ip ;; end_op ;; ret (-1)
              else
                upd_inode ip (λ i, i <| i_nlink := s16 (i_nlink i + 1) |>) ;;
                iupdate ip ;;
                iunlock ip ;;
                ' (dp, name) ← nameiparent new;
                match dp with
                | None => link_bad ip
                | Some dp =>
                    ilock dp ;;
                    d ← get_inode dp;
                    i ← get_inode ip;
                    r ← (if i_dev d =? i_dev i then dirlink dp name (i_inum i) else ret (-1));
                    if r <? 0 then iunlockput dp ;; link_bad ip
                    else iunlockput dp ;; iput ip ;; end_op ;; ret 0
                end
          end
      end
  end.

(** Is the directory dp empty except for "." and ".." ? *)
Fixpoint isdirempty_loop (fuel : nat) (dp : nat) (off : Z) : K bool :=
  match fuel with
  | O => spin
  | S fuel' =>
      d ← get_inode dp;
      if off <? i_size d then
        ' (r, de) ← readi dp off DIRENT_SIZE;
        if negb (r =? DIRENT_SIZE) then panic "isdirempty: readi"
        else if negb (de_inum de =? 0) then ret false
        else isdirempty_loop fuel' dp (off + DIRENT_SIZE)
      else ret true
  end.
Definition isdirempty (dp : nat) : K bool :=
  d ← get_inode dp;
  isdirempty_loop (S (Z.to_nat (i_size d / DIRENT_SIZE + 1))) dp (2 * DIRENT_SIZE).

(** [namecmp(name, s) == 0] for a string constant [s]. *)
Definition name_is (name : list Z) (s : string) : bool :=
  bool_decide (namecmp name (chars s ++ replicate DIRSIZ 0) = Some 0).

Definition sys_unlink : K Z :=
  path ← argstr 0;
  match path with
  | None => ret (-1)
  | Some path =>
      begin_op ;;
      ' (dp, name) ← nameiparent path;
      match dp with
      | None => end_op ;; ret (-1)
      | Some dp =>
          let bad := iunlockput dp ;; end_op ;; ret (-1) in
          ilock dp ;;
          (* Cannot unlink "." or "..". *)
          if name_is name "." || name_is name ".." then bad
          else
            r ← dirlookup dp name;
            match r with
            | None => bad
            | Some (ip, off) =>
                ilock ip ;;
                i ← get_inode ip;
                if i_nlink i <? 1 then panic "unlink: nlink < 1"
                else
                  empty ← (if i_type i =? T_DIR then isdirempty ip else ret true);
                  if negb empty then iunlockput ip ;; bad
                  else
                    r ← writei dp (replicate 16 0) off;
                    if negb (r =? DIRENT_SIZE) then panic "unlink: writei"
                    else
                      when (i_type i =? T_DIR)
                        (upd_inode dp (λ d, d <| i_nlink := s16 (i_nlink d - 1) |>) ;; iupdate dp) ;;
                      iunlockput dp ;;
                      upd_inode ip (λ i, i <| i_nlink := s16 (i_nlink i - 1) |>) ;;
                      iupdate ip ;;
                      iunlockput ip ;;
                      end_op ;;
                      ret 0
            end
      end
  end.

Definition create (path : list Z) (type major minor : Z) : K (option nat) :=
  ' (dp, name) ← nameiparent path;
  match dp with
  | None => ret None
  | Some dp =>
      ilock dp ;;
      r ← dirlookup dp name;
      match r with
      | Some (ip, _) =>
          iunlockput dp ;;
          ilock ip ;;
          i ← get_inode ip;
          if (type =? T_FILE) && (i_type i =? T_FILE) then ret (Some ip)
          else iunlockput ip ;; ret None
      | None =>
          d ← get_inode dp;
          ip ← ialloc (i_dev d) type;
          ilock ip ;;
          upd_inode ip (λ i, i <| i_major := s16 major |> <| i_minor := s16 minor |>
                               <| i_nlink := 1 |>) ;;
          iupdate ip ;;
          i ← get_inode ip;
          when (type =? T_DIR)   (* Create . and .. entries. *)
            (upd_inode dp (λ d, d <| i_nlink := s16 (i_nlink d + 1) |>) ;;
             iupdate dp ;;
             r ← dirlink ip (chars ".") (i_inum i);
             r ← (if r <? 0 then ret r else dirlink ip (chars "..") (i_inum d));
             when (r <? 0) (panic "create dots")) ;;
          r ← dirlink dp name (i_inum i);
          if r <? 0 then panic "create: dirlink"
          else iunlockput dp ;; ret (Some ip)
      end
  end.

(** The second half of [sys_open], with the inode locked. *)
Definition open_file (ip : nat) (omode : Z) : K Z :=
  f ← filealloc;
  match f with
  | None => iunlockput ip ;; end_op ;; ret (-1)
  | Some f =>
      fd ← fdalloc f;
      match fd with
      | None => fileclose f ;; iunlockput ip ;; end_op ;; ret (-1)
      | Some fd =>
          iunlock ip ;;
          end_op ;;
          upd_file f (λ x, x <| f_type := FD_INODE |> <| f_ip := Some ip |> <| f_off := 0 |>
            <| f_readable := b2z (negb (truthy (Z.land omode O_WRONLY))) |>
            <| f_writable := b2z (truthy (Z.land omode O_WRONLY) || truthy (Z.land omode O_RDWR)) |>) ;;
          ret (Z.of_nat fd)
      end
  end.

Definition sys_open : K Z :=
  path ← argstr 0;
  match path with
  | None => ret (-1)
  | Some path =>
      omode ← argint 1;
      match omode with
      | None => ret (-1)
      | Some omode =>
          begin_op ;;
          if truthy (Z.land omode O_CREATE) then
            r ← create path T_FILE 0 0;
            match r with
            | None => end_op ;; ret (-1)
            | Some ip => open_file ip omode
            end
          else
            r ← namei path;
            match r with
            | None => end_op ;; ret (-1)
            | Some ip =>
                ilock ip ;;
                i ← get_inode ip;
                if (i_type i =? T_DIR) && negb (omode =? O_RDONLY) then
                  iunlockput ip ;; end_op ;; ret (-1)
                else open_file ip omode
            end
      end
  end.

(** [create] for [mkdir] and [mknod], inside the transaction. *)
Definition make_node (path : option (list Z)) (type major minor : Z) : K Z :=
  match path with
  | None => end_op ;; ret (-1)
  | Some path =>
      r ← create path type major minor;
      match r with
      | None => end_op ;; ret (-1)
      | Some ip => iunlockput ip ;; end_op ;; ret 0
      end
  end.

Definition sys_mkdir : K Z :=
  begin_op ;;
  path ← argstr 0;
  make_node path T_DIR 0 0.

Definition sys_mknod : K Z :=
  begin_op ;;
  path ← argstr 0;
  match path with
  | None => make_node None T_DEV 0 0
  | Some _ =>
      major ← argint 1;
      match major with
      | None => make_node None T_DEV 0 0
      | Some major =>
          minor ← argint 2;
          match minor with
          | None => make_node None T_DEV 0 0
          | Some minor => make_node path T_DEV (s16 major) (s16 minor)
          end
      end
  end.

Definition sys_chdir : K Z :=
  me ← curproc;
  begin_op ;;
  path ← argstr 0;
  r ← (match path with Some path => namei path | None => ret None end);
  match r with
  | None => end_op ;; ret (-1)
  | Some ip =>
      ilock ip ;;
      i ← get_inode ip;
      if negb (i_type i =? T_DIR) then iunlockput ip ;; end_op ;; ret (-1)
      else
        iunlock ip ;;
        p ← get_proc me;
        cwd ← get_or "cwd" (p_cwd p);
        iput cwd ;;
        end_op ;;
        upd_proc me (λ p, p <| p_cwd := Some ip |>) ;;
        ret 0
  end.

Definition sys_pipe : K Z :=
  a ← argptr 0 8;
  match a with
  | None => ret (-1)
  | Some a =>
      r ← pipealloc;
      match r with
      | None => ret (-1)
      | Some (rf, wf) =>
          me ← curproc;
          fd0 ← fdalloc rf;
          match fd0 with
          | None => fileclose rf ;; fileclose wf ;; ret (-1)
          | Some fd0 =>
              fd1 ← fdalloc wf;
              match fd1 with
              | None =>
                  upd_proc me (λ p, p <| p_ofile := <[fd0 := None]> (p_ofile p) |>) ;;
                  fileclose rf ;; fileclose wf ;; ret (-1)
              | Some fd1 =>
                  uwrite a (int_bytes (Z.of_nat fd0)) ;;
                  uwrite (a + 4) (int_bytes (Z.of_nat fd1)) ;;
                  ret 0
              end
          end
      end
  end.

End Sysfile.
Export Sysfile.
