(* ===== verification/Exec.v ===== *)
(** * Exec: running a program ([exec.c], [loaduvm] of [vm.c], [sys_exec] of
    [sysfile.c]) *)
From S2P Require Import Prelude.
From S2P Require Import Mem.
From S2P Require Import Str.
From S2P Require Import State.
From S2P Require Import Spin.
From S2P Require Import Cons.
From S2P Require Import Kalloc.
From S2P Require Import Vm.
From S2P Require Import VmSpec.
From S2P Require Import Mlq.
From S2P Require Import Proc.
From S2P Require Import Pipe.
From S2P Require Import Blk.
From S2P Require Import Bio.
From S2P Require Import Log.
From S2P Require Import Fs.
From S2P Require Import ConsDev.
From S2P Require Import File.
From S2P Require Import Life.
From S2P Require Import Syscall.
From S2P Require Import Sysfile.

Module Exec.

Abbreviation MAXARG := 32%nat (only parsing).
Abbreviation ELF_MAGIC := (0x464C457F)%Z (only parsing).
Abbreviation ELF_PROG_LOAD := (1)%Z (only parsing).
Definition ELFHDR_SIZE : Z := 52.
Definition PROGHDR_SIZE : Z := 32.

(** Fields of [struct elfhdr] and [struct proghdr]. *)
Definition e_magic (h : list Z) : Z := get32 h 0.
Definition e_entry (h : list Z) : Z := get32 h 24.
Definition e_phoff (h : list Z) : Z := get32 h 28.
Definition e_phnum (h : list Z) : Z := get16 h 44.
Definition ph_type (h : list Z) : Z := get32 h 0.
Definition ph_off (h : list Z) : Z := get32 h 4.
Definition ph_vaddr (h : list Z) : Z := get32 h 8.
Definition ph_filesz (h : list Z) : Z := get32 h 16.
Definition ph_memsz (h : list Z) : Z := get32 h 20.

(** Load a program segment into pgdir. *)
Fixpoint loaduvm_loop (fuel : nat) (pgdir addr : Z) (ip : nat) (offset sz i : Z) : K Z :=
  match fuel with
  | O => spin
  | S fuel' =>
      if i <? sz then
        pte ← walkpgdir pgdir (u32 (addr + i)) false;
        if pte =? 0 then panic "loaduvm: address should exist"
        else
          e ← load pte;
          let pa := PTE_ADDR e in
          let n := if sz - i <? PGSIZE then sz - i else PGSIZE in
          ' (r, bs) ← readi ip (u32 (offset + i)) n;
          modify (λ k, k <| k_mem := poke (k_mem k) (P2V pa) bs |>) ;;
          if negb (r =? n) then ret (-1)
          else loaduvm_loop fuel' pgdir addr ip offset sz (u32 (i + PGSIZE))
      else ret 0
  end.
Definition loaduvm (pgdir addr : Z) (ip : nat) (offset sz : Z) : K Z :=
  if negb (addr mod PGSIZE =? 0) then panic "loaduvm: addr must be page aligned"
  else loaduvm_loop (S (Z.to_nat (sz / PGSIZE + 1))) pgdir addr ip offset sz 0.

(** [bad:] *)
Definition exec_bad (pgdir : Z) (ip : option nat) : K Z :=
  when (truthy pgdir) (freevm pgdir) ;;
  match ip with
  | Some ip => iunlockput ip ;; end_op
  | None => ret tt
  end ;;
  ret (-1).

(** Load program into memory: the new size, or [None] for [goto bad]. *)
Fixpoint load_segments (n : nat) (pgdir : Z) (ip : nat) (off sz : Z) : K (option Z) :=
  match n with
  | O => ret (Some sz)
  | S n' =>
      ' (r, ph) ← readi ip off PROGHDR_SIZE;
      if negb (r =? PROGHDR_SIZE) then ret None
      else if negb (ph_type ph =? ELF_PROG_LOAD) then
        load_segments n' pgdir ip (u32 (off + PROGHDR_SIZE)) sz
      else if ph_memsz ph <? ph_filesz ph then ret None
      else if u32 (ph_vaddr ph + ph_memsz ph) <? ph_vaddr ph then ret None
      else
        sz ← allocuvm pgdir sz (u32 (ph_vaddr ph + ph_memsz ph));
        if sz =? 0 then ret None
        else if negb (ph_vaddr ph mod PGSIZE =? 0) then ret None
        else
          r ← loaduvm pgdir (ph_vaddr ph) ip (ph_off ph) (ph_filesz ph);
          if r <? 0 then ret None
          else load_segments n' pgdir ip (u32 (off + PROGHDR_SIZE)) sz
  end.

(** Push argument strings: the stack pointer and the pointers pushed, or
    [None] for [goto bad]. *)
Fixpoint push_args (argv : list (list Z)) (argc : nat) (pgdir sp : Z) (ustack : list Z) :
    K (option (Z * list Z)) :=
  match argv with
  | [] => ret (Some (sp, ustack))
  | s :: argv' =>
      if (MAXARG <=? argc)%nat then ret None
      else
        let sp := Z.ldiff (u32 (sp - (Z.of_nat (length s) + 1))) 3 in
        r ← copyout pgdir sp (s ++ [0]);
        if r <? 0 then ret None
        else push_args argv' (S argc) pgdir sp (ustack ++ [sp])
  end.

(** The part of [path] behind its last slash. *)
Fixpoint last_elem (s last : list Z) : list Z :=
  match s with
  | [] => last
  | c :: s' => last_elem s' (if c =? SLASH then s' else last)
  end.

(** [ustack]: fake return PC, argc, argv pointer, the arguments and a null. *)
Definition user_stack (argc : Z) (sp : Z) (ptrs : list Z) : list Z :=
  flat_map int_bytes ([0xffffffff; argc; u32 (sp - (argc + 1) * 4)] ++ ptrs ++ [0]).

(** From the user stack on, with the program loaded. *)
Definition exec_stack (me : nat) (path : list Z) (argv : list (list Z)) (pgdir sz entry : Z) : K Z :=
  let sz := PGROUNDUP sz in
  sz ← allocuvm pgdir sz (u32 (sz + 2 * PGSIZE));
  if sz =? 0 then exec_bad pgdir None
  else
    clearpteu pgdir (u32 (sz - 2 * PGSIZE)) ;;
    r ← push_args argv 0 pgdir sz [];
    match r with
    | None => exec_bad pgdir None
    | Some (sp, ptrs) =>
        let argc := Z.of_nat (length argv) in
        let sp' := u32 (sp - (3 + argc + 1) * 4) in
        r ← copyout pgdir sp' (user_stack argc sp ptrs);
        if r <? 0 then exec_bad pgdir None
        else
          (* Save program name for debugging. *)
          set_name me (last_elem path path ++ [0]) ;;
          (* Commit to the user image. *)
          p ← get_proc me;
          let oldpgdir := p_pgdir p in
          upd_proc me (λ p, p <| p_pgdir := pgdir |>) ;;
          upd_proc me (λ p, p <| p_sz := sz |>) ;;
          store (p_tf p + TF_EIP) entry ;;
          store (p_tf p + TF_ESP) sp' ;;
          switchuvm (Some me) ;;
          freevm oldpgdir ;;
          ret 0
    end.

Definition exec (path : list Z) (argv : list (list Z)) : K Z :=
  me ← curproc;
  begin_op ;;
  r ← namei path;
  match r with
  | None => end_op ;; cprintf (NL +:+ "exec: fail" +:+ NL) [] ;; ret (-1)
  | Some ip =>
      ilock ip ;;
      (* Check ELF header *)
      ' (r, elf) ← readi ip 0 ELFHDR_SIZE;
      if negb (r =? ELFHDR_SIZE) then exec_bad 0 (Some ip)
      else if negb (e_magic elf =? ELF_MAGIC) then exec_bad 0 (Some ip)
      else
        pgdir ← setupkvm;
        if pgdir =? 0 then exec_bad 0 (Some ip)
        else
          sz ← load_segments (Z.to_nat (e_phnum elf)) pgdir ip (e_phoff elf) 0;
          match sz with
          | None => exec_bad pgdir (Some ip)
          | Some sz =>
              iunlockput ip ;;
              end_op ;;
              exec_stack me path argv pgdir sz (e_entry elf)
          end
  end.

(** The loop of [sys_exec] that collects the arguments; [None] for -1. *)
Fixpoint fetch_argv (n : nat) (uargv : Z) : K (option (list (list Z))) :=
  match n with
  | O => ret None
  | S n' =>
      a ← fetchint uargv;
      match a with
      | None => ret None
      | Some a =>
          if a =? 0 then ret (Some [])
          else
            s ← fetchstr (u32 a);
            match s with
            | None => ret None
            | Some s =>
                rest ← fetch_argv n' (u32 (uargv + 4));
                ret ((λ l, s :: l) <$> rest)
            end
      end
  end.
Definition sys_exec : K Z :=
  path ← argstr 0;
  match path with
  | None => ret (-1)
  | Some path =>
      uargv ← argint 1;
      match uargv with
      | None => ret (-1)
      | Some uargv =>
          argv ← fetch_argv MAXARG (u32 uargv);
          match argv with None => ret (-1) | Some argv => exec path argv end
      end
  end.

End Exec.
Export Exec.
