(* ===== verification/Trap.v ===== *)
(** * Trap: the system-call table and the interrupt handler ([syscall] of
    [syscall.c], [trap.c]) *)
From S2P Require Import Prelude.
From S2P Require Import Mem.
From S2P Require Import Str.
From S2P Require Import State.
From S2P Require Import Spin.
From S2P Require Import Cons.
From S2P Require Import Kalloc.
From S2P Require Import Vm.
From S2P Require Import VmSpec.
From S2P Require Import Mlq.
From S2P Require Import Proc.
From S2P Require Import Pipe.
From S2P Require Import Blk.
From S2P Require Import Bio.
From S2P Require Import Log.
From S2P Require Import Fs.
From S2P Require Import ConsDev.
From S2P Require Import File.
From S2P Require Import Life.
From S2P Require Import Syscall.
From S2P Require Import Sysfile.
From S2P Require Import Exec.

Module Trap.

(** [syscalls[]]; a hole of the array is [None]. *)
Definition syscalls (num : Z) : option (K Z) :=
  match num with
  | 1 => Some sys_fork | 2 => Some sys_exit | 3 => Some sys_wait | 4 => Some sys_pipe
  | 5 => Some sys_read | 6 => Some sys_kill | 7 => Some sys_exec | 8 => Some sys_fstat
  | 9 => Some sys_chdir | 10 => Some sys_dup | 11 => Some sys_getpid | 12 => Some sys_sbrk
  | 13 => Some sys_sleep | 14 => Some sys_uptime | 15 => Some sys_open | 16 => Some sys_write
  | 17 => Some sys_mknod | 18 => Some sys_unlink | 19 => Some sys_link | 20 => Some sys_mkdir
  | 21 => Some sys_close | 22 => Some sys_waitx | 23 => Some sys_getpinfo | 24 => Some sys_ps
  | 25 => Some sys_set_priority
  | _ => None
  end.

Definition syscall : K unit :=
  me ← curproc;
  p ← get_proc me;
  num ← load (p_tf p + TF_EAX);
  match syscalls (s32 num) with
  | Some f =>
      r ← f;
      p ← get_proc me;
      store (p_tf p + TF_EAX) r
  | None =>
      cprintf ("%d %s: unknown sys call %d" +:+ NL)
        [CInt (p_pid p); CStr (proc_name p); CInt (s32 num)] ;;
      store (p_tf p + TF_EAX) (-1)
  end.

(** traps.h *)
Abbreviation T_SYSCALL := (64)%Z (only parsing).
Abbreviation T_IRQ0 := (32)%Z (only parsing).
Abbreviation IRQ_TIMER := (0)%Z (only parsing).
Abbreviation IRQ_KBD := (1)%Z (only parsing).
Abbreviation IRQ_COM1 := (4)%Z (only parsing).
Abbreviation IRQ_IDE := (14)%Z (only parsing).
Abbreviation IRQ_SPURIOUS := (31)%Z (only parsing).

(** [p->ticks[q]++; p->total_ticks[q]++], [q] the current queue: the new
    arrays. *)
Definition charge_tick (p : proc) : option (list Z * list Z) :=
  let q := p_current_queue p in
  a ←? aget (p_ticks p) q;
  ts ←? aset (p_ticks p) q (s32 (a + 1));
  b ←? aget (p_total_ticks p) q;
  tts ←? aset (p_total_ticks p) q (s32 (b + 1));
  Some (ts, tts).

(** The accounting of a clock tick for the interrupted process. *)
Definition account (i : nat) : K unit :=
  p ← get_proc i;
  if bool_decide (p_state p = RUNNING) then
    upd_proc i (λ p, p <| p_rtime := s32 (p_rtime p + 1) |>) ;;
    p ← get_proc i;
    ' (ts, tts) ← get_or "ticks index out of range" (charge_tick p);
    upd_proc i (λ p, p <| p_ticks := ts |> <| p_total_ticks := tts |>)
  else
    when (bool_decide (p_state p = SLEEPING))
      (upd_proc i (λ p, p <| p_iotime := s32 (p_iotime p + 1) |>)).

(** [case T_IRQ0 + IRQ_TIMER], before the end-of-interrupt. *)
Definition timer_tick (proc : option nat) : K unit :=
  id ← cpuid;
  when (id =? 0)
    (acquire LTicks ;;
     modify (λ k, k <| k_ticks := u32 (k_ticks k + 1) |>) ;;
     wakeup ChTicks ;;
     release LTicks ;;
     match proc with Some i => account i | None => ret tt end).

(** What the devices have for the handlers: the characters the keyboard or the
    serial port deliver, and the faulting address. *)
Record devices := mkDevices { dv_kbd : list Z; dv_uart : list Z; dv_cr2 : Z }.

(** The [default] case: a process that misbehaved is killed. *)
Definition bad_trap (dv : devices) (tf trapno : Z) : K unit :=
  proc ← myproc;
  cs ← load16 (tf + TF_CS);
  eip ← load (tf + TF_EIP);
  err ← load (tf + TF_ERR);
  id ← cpuid;
  match proc with
  | Some i =>
      if Z.land cs 3 =? 0 then
        cprintf ("lala" +:+ NL) [] ;;
        cprintf ("unexpected trap %d from cpu %d eip %x (cr2=0x%x)" +:+ NL)
          [CInt trapno; CInt id; CInt eip; CInt (dv_cr2 dv)] ;;
        panic "trap"
      else
        p ← get_proc i;
        cprintf ("pid %d %s: trap %d err %d on cpu %d eip 0x%x addr 0x%x--kill proc" +:+ NL)
          [CInt (p_pid p); CStr (proc_name p); CInt trapno; CInt err; CInt id; CInt eip;
           CInt (dv_cr2 dv)] ;;
        upd_proc i (λ p, p <| p_killed := 1 |>)
  | None =>
      cprintf ("myproc" +:+ NL) [] ;;
      cprintf ("unexpected trap %d from cpu %d eip %x (cr2=0x%x)" +:+ NL)
        [CInt trapno; CInt id; CInt eip; CInt (dv_cr2 dv)] ;;
      panic "trap"
  end.

(** [if (myproc() && myproc()->killed && (tf->cs & 3) == DPL_USER) exit();] *)
Definition exit_if_killed (tf : Z) : K unit :=
  proc ← myproc;
  match proc with
  | Some i =>
      p ← get_proc i;
      cs ← load16 (tf + TF_CS);
      when (truthy (p_killed p) && (Z.land cs 3 =? DPL_USER)) exit
  | None => ret tt
  end.

(** What [trap] does after the [switch]: the clock preempts, except in an FCFS
    build. *)
Definition trap_preempts (pol : policy) (trapno : Z) (p : proc) : bool :=
  bool_decide (p_state p = RUNNING) && (trapno =? T_IRQ0 + IRQ_TIMER) && negb (bool_decide (pol = FCFS)).
Definition trap_tail (tf trapno : Z) : K unit :=
  exit_if_killed tf ;;
  proc ← myproc;
  match proc with
  | Some i =>
      p ← get_proc i;
      pol ← gets k_policy;
      when (trap_preempts pol trapno p) yield
  | None => ret tt
  end ;;
  exit_if_killed tf.
(** After a [yield] returns. *)
Definition trap_resume (intena tf : Z) : K unit := yield_resume intena ;; exit_if_killed tf.

(** The end-of-interrupt signals to the local APIC are left out. *)
Definition trap (dv : devices) (tf : Z) : K unit :=
  proc ← myproc;
  trapno ← load (tf + TF_TRAPNO);
  if trapno =? T_SYSCALL then
    killed ← myproc_killed;
    when killed exit ;;
    me ← curproc;
    upd_proc me (λ p, p <| p_tf := tf |>) ;;
    syscall ;;
    killed ← myproc_killed;
    when killed exit
  else
    (if trapno =? T_IRQ0 + IRQ_TIMER then timer_tick proc
     else if trapno =? T_IRQ0 + IRQ_IDE then ret tt      (* no-op with the memory disk *)
     else if trapno =? T_IRQ0 + IRQ_IDE + 1 then ret tt  (* spurious *)
     else if trapno =? T_IRQ0 + IRQ_KBD then consoleintr (dv_kbd dv)
     else if trapno =? T_IRQ0 + IRQ_COM1 then consoleintr (dv_uart dv)
     else if (trapno =? T_IRQ0 + 7) || (trapno =? T_IRQ0 + IRQ_SPURIOUS) then
       id ← cpuid;
       cs ← load16 (tf + TF_CS);
       eip ← load (tf + TF_EIP);
       cprintf ("cpu%d: spurious interrupt at %x:%x" +:+ NL) [CInt id; CInt cs; CInt eip]
     else bad_trap dv tf trapno) ;;
    trap_tail tf trapno.

End Trap.
Export Trap.
