(* ===== verification/Table.v ===== *)
(** * Table: the invariant of the process table

    [table_inv] is what the table promises to the rest of the kernel: used slots
    have different pids below [nextpid], the parent of every process is a live
    process, and a process that sleeps in [wait] has no zombie child.
    [cpus_inv] ties the table to the processors: the RUNNING processes are
    exactly the current processes of the processors, each on one of them.  This
    file has the two invariants and how the elementary changes of the table
    preserve them; [Safe] carries them through the kernel. *)
From S2P Require Import Prelude.
From S2P Require Import Mem.
From S2P Require Import Str.
From S2P Require Import State.
From S2P Require Import Spin.
From S2P Require Import Cons.
From S2P Require Import Kalloc.
From S2P Require Import Vm.
From S2P Require Import Frame.
From S2P Require Import Mlq.
From S2P Require Import Proc.
From S2P Require Import ProcSpec.
From S2P Require Import ProcWait.

(** A process that has not exited. *)
Definition alive (p : proc) : Prop := p_state p ≠ UNUSED ∧ p_state p ≠ ZOMBIE.

Definition INT_MAX : Z := 2147483647.

Record table_inv (ps : list proc) (nextpid : Z) (init : option nat) : Prop := {
  ti_len : length ps = NPROC;
  ti_next : 0 < nextpid ≤ INT_MAX;
  ti_pid i p : ps !! i = Some p → p_state p ≠ UNUSED → 0 < p_pid p < nextpid;
  ti_inj i j p q : ps !! i = Some p → ps !! j = Some q → p_state p ≠ UNUSED →
    p_state q ≠ UNUSED → p_pid p = p_pid q → i = j;
  ti_parent i p j : ps !! i = Some p → p_parent p = Some j →
    j ≠ i ∧ ∃ q, ps !! j = Some q ∧ alive q;
  ti_unused i p : ps !! i = Some p → p_state p = UNUSED → p_parent p = None;
  ti_init j : init = Some j → ∃ q, ps !! j = Some q ∧ alive q ∧ p_parent q = None;
  ti_wait i p j q : ps !! i = Some p → p_state p = SLEEPING → p_chan p = Some (ChProc i) →
    ps !! j = Some q → p_parent q = Some i → p_state q ≠ ZOMBIE
}.

(** [skip] is a processor whose current process has just stopped running. *)
Record cpus_inv (ps : list proc) (cs : list cpu) (skip : option nat) : Prop := {
  ci_run c x i : cs !! c = Some x → c_proc x = Some i → skip ≠ Some c →
    ∃ p, ps !! i = Some p ∧ p_state p = RUNNING;
  ci_inj c c' x x' i : cs !! c = Some x → cs !! c' = Some x' → c_proc x = Some i →
    c_proc x' = Some i → c = c';
  ci_all i p : ps !! i = Some p → p_state p = RUNNING →
    ∃ c x, cs !! c = Some x ∧ c_proc x = Some i ∧ skip ≠ Some c
}.

Section lists.
Implicit Types (ps : list proc) (cs : list cpu) (i j : nat) (init : option nat).

(** Only [ess] of the processes and [cview] of the processors matter. *)
Lemma ess_lookup ps ps' i p' :
  ess <$> ps' = ess <$> ps → ps' !! i = Some p' → ∃ p, ps !! i = Some p ∧ ess p' = ess p.
Proof.
  intros He Hi. assert ((ess <$> ps') !! i = (ess <$> ps) !! i) as H by by rewrite He.
  rewrite !list_lookup_fmap, Hi in H. destruct (ps !! i) as [p|]; [|done]. exists p. simpl in H. split; [done|congruence].
Qed.
Lemma cview_lookup cs cs' i c' :
  cview <$> cs' = cview <$> cs → cs' !! i = Some c' → ∃ c, cs !! i = Some c ∧ cview c' = cview c.
Proof.
  intros He Hi. assert ((cview <$> cs') !! i = (cview <$> cs) !! i) as H by by rewrite He.
  rewrite !list_lookup_fmap, Hi in H. destruct (cs !! i) as [c|]; [|done]. exists c. simpl in H. split; [done|congruence].
Qed.

(** ** A change that only wakes sleepers *)

(** [p] may have become [p']: nothing the invariants read has changed, or it has
    been woken up. *)
Definition woke (p p' : proc) : Prop :=
  p_pid p' = p_pid p ∧ p_parent p' = p_parent p ∧
  (p_state p' = p_state p ∧ p_chan p' = p_chan p ∨ p_state p = SLEEPING ∧ p_state p' = RUNNABLE).

Lemma woke_alive p p' : woke p p' → alive p ↔ alive p'.
Proof. unfold alive. intros (? & ? & [[-> ?]|[-> ->]]); [done|]. by split; intros _. Qed.
Lemma woke_state p p' s : woke p p' → s ≠ SLEEPING → s ≠ RUNNABLE → p_state p' = s ↔ p_state p = s.
Proof. intros (? & ? & [[-> ?]|[-> ->]]) ??; [done|]. split; congruence. Qed.
Lemma woke_ess p p' : ess p' = ess p → woke p p'.
Proof. unfold ess. intros H. simplify_eq. repeat split; [done..|]. left. done. Qed.
Lemma woke_refl p : woke p p. Proof. by apply woke_ess. Qed.

Lemma Forall2_woke_l ps ps' i p' : Forall2 woke ps ps' → ps' !! i = Some p' →
  ∃ p, ps !! i = Some p ∧ woke p p'.
Proof. intros H Hi. destruct (Forall2_lookup_r _ _ _ _ _ H Hi) as (p & ? & ?). eauto. Qed.
Lemma Forall2_woke_r ps ps' i p : Forall2 woke ps ps' → ps !! i = Some p →
  ∃ p', ps' !! i = Some p' ∧ woke p p'.
Proof. intros H Hi. destruct (Forall2_lookup_l _ _ _ _ _ H Hi) as (q & ? & ?). eauto. Qed.

Lemma table_inv_woke ps ps' n init :
  Forall2 woke ps ps' → table_inv ps n init → table_inv ps' n init.
Proof.
  intros Hw [Hlen Hn Hpid Hinj Hpar Hun Hinit Hwait].
  assert (Hal : ∀ j q, ps !! j = Some q → alive q →
    ∃ q', ps' !! j = Some q' ∧ alive q' ∧ p_parent q' = p_parent q).
  { intros j q Hj Ha. destruct (Forall2_woke_r _ _ _ _ Hw Hj) as (q' & ? & Hq).
    exists q'. rewrite <-(woke_alive _ _ Hq). destruct Hq as (_ & -> & _). done. }
  split; [by rewrite <-(Forall2_length _ _ _ Hw)|done|..].
  - intros i p' Hi Hs. destruct (Forall2_woke_l _ _ _ _ Hw Hi) as (p & Hp & Hpp).
    rewrite (woke_state _ _ UNUSED Hpp) in Hs by done. destruct Hpp as (-> & _). eauto.
  - intros i j p' q' Hi Hj Hsp Hsq Heq.
    destruct (Forall2_woke_l _ _ _ _ Hw Hi) as (p & Hp & Hpp).
    destruct (Forall2_woke_l _ _ _ _ Hw Hj) as (q & Hq & Hqq).
    rewrite (woke_state _ _ UNUSED Hpp) in Hsp by done. rewrite (woke_state _ _ UNUSED Hqq) in Hsq by done.
    destruct Hpp as (Hp1 & _), Hqq as (Hq1 & _). eapply Hinj; eauto. congruence.
  - intros i p' j Hi Hj. destruct (Forall2_woke_l _ _ _ _ Hw Hi) as (p & Hp & Hpp).
    destruct Hpp as (_ & Hp2 & _). destruct (Hpar i p j) as (Hne & q & Hq & Ha); [done|congruence|].
    split; [done|]. destruct (Hal j q Hq Ha) as (q' & ? & ? & _). eauto.
  - intros i p' Hi Hs. destruct (Forall2_woke_l _ _ _ _ Hw Hi) as (p & Hp & Hpp).
    apply (woke_state _ _ UNUSED Hpp) in Hs; [|done..]. destruct Hpp as (_ & -> & _). eauto.
  - intros j Hj. destruct (Hinit j Hj) as (q & Hq & Ha & Hpq).
    destruct (Hal j q Hq Ha) as (q' & ? & ? & Hp'). exists q'. rewrite Hp'. done.
  - intros i p' j q' Hi Hs Hc Hj Hq. destruct (Forall2_woke_l _ _ _ _ Hw Hi) as (p & Hp & Hpp).
    destruct (Forall2_woke_l _ _ _ _ Hw Hj) as (q & Hq0 & Hqq).
    rewrite (woke_state _ _ ZOMBIE Hqq) by done.
    destruct Hpp as (_ & _ & [[? ?]|[? ?]]); [|congruence].
    destruct Hqq as (_ & Hq2 & _). apply (Hwait i p j q); [done|congruence..].
Qed.

Lemma cpus_inv_woke ps ps' cs cs' skip :
  Forall2 woke ps ps' → cview <$> cs' = cview <$> cs → cpus_inv ps cs skip → cpus_inv ps' cs' skip.
Proof.
  intros Hw Hc [Hrun Hinj Hall]. split.
  - intros c x' i Hx Hi Hs. destruct (cview_lookup _ _ _ _ Hc Hx) as (x & Hx0 & Hv).
    assert (c_proc x' = c_proc x) as He by (unfold cview in Hv; congruence).
    destruct (Hrun c x i) as (p & Hp & Hps); [done|congruence|done|].
    destruct (Forall2_woke_r _ _ _ _ Hw Hp) as (p' & ? & Hpp). exists p'. split; [done|].
    by apply (woke_state _ _ RUNNING Hpp).
  - intros c c' x x' i Hx Hx' Hi Hi'. destruct (cview_lookup _ _ _ _ Hc Hx) as (y & Hy & Hv).
    destruct (cview_lookup _ _ _ _ Hc Hx') as (y' & Hy' & Hv'). unfold cview in *.
    eapply (Hinj c c' y y' i); congruence.
  - intros i p' Hi Hs. destruct (Forall2_woke_l _ _ _ _ Hw Hi) as (p & Hp & Hpp).
    apply (woke_state _ _ RUNNING Hpp) in Hs; [|done..].
    destruct (Hall i p Hp Hs) as (c & x & Hx & Hxi & ?).
    symmetry in Hc. destruct (cview_lookup _ _ _ _ Hc Hx) as (x' & ? & Hv). exists c, x'. unfold cview in *.
    split; [done|]. split; [congruence|done].
Qed.

Lemma Forall2_woke_ess ps ps' : ess <$> ps' = ess <$> ps → Forall2 woke ps ps'.
Proof.
  intros He. apply Forall2_same_length_lookup_2.
  - rewrite <-(length_fmap ess ps), <-He. by rewrite length_fmap.
  - intros i p p' Hp Hp'. destruct (ess_lookup _ _ _ _ He Hp') as (q & Hq & ?). assert (q = p) as -> by congruence.
    by apply woke_ess.
Qed.
Lemma Forall2_woke_insert ps i p p' :
  ps !! i = Some p → woke p p' → Forall2 woke ps (<[i := p']> ps).
Proof.
  intros Hi Hw. rewrite <-(list_insert_id ps i p Hi) at 1.
  apply Forall2_insert; [|done]. apply Forall_Forall2_diag, Forall_true. intros. apply woke_refl.
Qed.
Lemma wake_woke ch t p : woke p (wake ch t p).
Proof.
  unfold wake. destruct (bool_decide_reflect (p_state p = SLEEPING)); simpl; [|apply woke_refl].
  destruct (bool_decide (p_chan p = ch)); [|apply woke_refl]. split; [done|]. split; [done|]. by right.
Qed.
Lemma Forall2_woke_wake ch t ps : Forall2 woke ps (wake ch t <$> ps).
Proof. apply Forall2_fmap_r, Forall_Forall2_diag, Forall_true. intros. apply wake_woke. Qed.

(** ** A change of one slot *)

Definition childless ps i : Prop := ∀ j q, ps !! j = Some q → p_parent q ≠ Some i.
(** The process in slot [i] sleeps in [wait]. *)
Definition waiting i (p : proc) : Prop := p_state p = SLEEPING ∧ p_chan p = Some (ChProc i).

Lemma table_inv_insert ps n n' init i p p' :
  table_inv ps n init → ps !! i = Some p → n ≤ n' ≤ INT_MAX →
  (p_state p' ≠ UNUSED → 0 < p_pid p' < n' ∧
     ∀ j q, j ≠ i → ps !! j = Some q → p_state q ≠ UNUSED → p_pid q ≠ p_pid p') →
  (∀ j, p_parent p' = Some j → j ≠ i ∧ ∃ q, ps !! j = Some q ∧ alive q) →
  (p_state p' = UNUSED → p_parent p' = None) →
  (alive p' ∧ (init = Some i → p_parent p' = None) ∨ childless ps i ∧ init ≠ Some i) →
  (waiting i p' → ∀ j q, <[i := p']> ps !! j = Some q → p_parent q = Some i → p_state q ≠ ZOMBIE) →
  (p_state p' = ZOMBIE → ∀ j w, p_parent p' = Some j → j ≠ i → ps !! j = Some w → ~ waiting j w) →
  table_inv (<[i := p']> ps) n' init.
Proof.
  intros [Hlen Hn Hpid Hinj Hpar Hun Hinit Hwait] Hi Hnn Hpid' Hpar' Hun' Hal Hw Hz.
  assert (Hal' : ∀ k r j q, ps !! k = Some r → p_parent r = Some j → ps !! j = Some q → alive q →
    ∃ q', <[i := p']> ps !! j = Some q' ∧ alive q').
  { intros k r j q Hr Hrp Hj Ha. destruct (decide (i = j)) as [<-|].
    - exists p'. rewrite list_lookup_insert_eq by by eapply lookup_lt_Some. split; [done|].
      destruct Hal as [[? _]|[Hc Hni]]; [done|]. by destruct (Hc k r).
    - exists q. by rewrite list_lookup_insert_ne. }
  split; [by rewrite length_insert|lia|..].
  - intros j q [(<- & -> & _)|(Hne & Hj)]%list_lookup_insert_Some Hs; [by apply Hpid'|].
    specialize (Hpid _ _ Hj Hs). lia.
  - intros j k q r [(<- & -> & _)|(Hne & Hj)]%list_lookup_insert_Some
      [(<- & -> & _)|(Hne' & Hk)]%list_lookup_insert_Some Hsq Hsr Heq; [done|..].
    + destruct (Hpid' Hsq) as [_ Hd]. by destruct (Hd k r).
    + destruct (Hpid' Hsr) as [_ Hd]. by destruct (Hd j q).
    + eauto.
  - intros j q k [(<- & -> & _)|(Hne & Hj)]%list_lookup_insert_Some Hq.
    + destruct (Hpar' k Hq) as (Hne & r & Hr & Ha). split; [done|]. exists r.
      by rewrite list_lookup_insert_ne.
    + destruct (Hpar j q k Hj Hq) as (Hk & r & Hr & Ha). split; [done|]. by eapply (Hal' j q k r).
  - intros j q [(<- & -> & _)|(Hne & Hj)]%list_lookup_insert_Some Hs; [by apply Hun'|by eapply Hun].
  - intros j Hj. destruct (Hinit j Hj) as (q & Hq & Ha & Hpq). destruct (decide (i = j)) as [<-|].
    + destruct Hal as [[? Hn']|[_ ?]]; [|done]. exists p'.
      rewrite list_lookup_insert_eq by by eapply lookup_lt_Some. auto.
    + exists q. by rewrite list_lookup_insert_ne.
  - intros j q k r [(<- & -> & _)|(Hne & Hj)]%list_lookup_insert_Some Hs Hc Hk Hr; [by eapply Hw|].
    apply list_lookup_insert_Some in Hk as [(<- & -> & _)|(Hne' & Hk)]; [|by eauto].
    intros Hzz. by eapply Hz.
Qed.

(** A live process stays alive; it does not enter [wait], and its parent is
    the same. *)
Lemma table_inv_alive ps n init i p p' :
  table_inv ps n init → ps !! i = Some p → alive p → alive p' → p_pid p' = p_pid p →
  p_parent p' = p_parent p →
  (waiting i p' → ∀ j q, ps !! j = Some q → p_parent q = Some i → p_state q ≠ ZOMBIE) →
  table_inv (<[i := p']> ps) n init.
Proof.
  intros Hinv Hi Ha Ha' Hpid Hpar Hw. pose proof (ti_next _ _ _ Hinv).
  eapply table_inv_insert; [done|done|lia|..].
  - intros _. rewrite Hpid. split; [by apply (ti_pid _ _ _ Hinv i p Hi), Ha|].
    intros j q Hne Hj Hs Heq. apply Hne. eapply (ti_inj _ _ _ Hinv j i q p); try done. apply Ha.
  - intros j Hj. rewrite Hpar in Hj. by eapply (ti_parent _ _ _ Hinv i p).
  - intros Hs. by destruct Ha'.
  - left. split; [done|]. intros Hq. rewrite Hpar. destruct (ti_init _ _ _ Hinv i Hq) as (r & ? & ? & ?).
    by simplify_eq.
  - intros Hwt j q [(<- & -> & _)|(Hne & Hj)]%list_lookup_insert_Some Hq; [by apply Ha'|by eapply Hw].
  - intros Hz. by destruct Ha'.
Qed.

(** A slot is given up. *)
Lemma table_inv_free ps n init i p p' :
  table_inv ps n init → ps !! i = Some p → childless ps i → init ≠ Some i →
  p_state p' = UNUSED → p_parent p' = None →
  table_inv (<[i := p']> ps) n init.
Proof.
  intros Hinv Hi Hc Hne Hs Hp. pose proof (ti_next _ _ _ Hinv).
  eapply table_inv_insert; [done|done|lia|done| |done|by right|..].
  - intros j. by rewrite Hp.
  - intros [? _]. congruence.
  - congruence.
Qed.

(** A slot is claimed. *)
Lemma table_inv_claim ps n init i p p' :
  table_inv ps n init → ps !! i = Some p → p_state p = UNUSED → n < INT_MAX →
  p_state p' = EMBRYO → p_pid p' = n → p_parent p' = p_parent p →
  table_inv (<[i := p']> ps) (n + 1) init.
Proof.
  intros Hinv Hi Hu Hn Hs Hpid Hpar. pose proof (ti_next _ _ _ Hinv).
  assert (alive p') as Ha by (unfold alive; by rewrite Hs).
  rewrite (ti_unused _ _ _ Hinv i p Hi Hu) in Hpar.
  eapply table_inv_insert; [done|done|lia| | |done|by left|..].
  - intros _. rewrite Hpid. split; [lia|]. intros j q Hne Hj Hq Heq.
    pose proof (ti_pid _ _ _ Hinv j q Hj Hq). lia.
  - intros j. by rewrite Hpar.
  - intros [? _]. congruence.
  - congruence.
Qed.

(** A process gets a parent. *)
Lemma table_inv_adopted ps n init i p p' j q :
  table_inv ps n init → ps !! i = Some p → alive p → p_state p' = p_state p → p_pid p' = p_pid p →
  ~ waiting i p' → p_parent p' = Some j → j ≠ i → ps !! j = Some q → alive q → init ≠ Some i →
  table_inv (<[i := p']> ps) n init.
Proof.
  intros Hinv Hi Ha Hs Hpid Hw Hpar Hij Hj Hq Hni. pose proof (ti_next _ _ _ Hinv).
  assert (alive p') as Ha' by (unfold alive; by rewrite Hs).
  eapply table_inv_insert; [done|done|lia| | | |by left|done|].
  - intros _. rewrite Hpid. split; [by apply (ti_pid _ _ _ Hinv i p Hi), Ha|].
    intros k r Hne Hk Hr Heq. apply Hne. eapply (ti_inj _ _ _ Hinv k i r p); try done. apply Ha.
  - intros k. rewrite Hpar. intros [= <-]. eauto.
  - intros Hz. by destruct Ha'.
  - intros Hz. by destruct Ha'.
Qed.

(** The slot of an unused process or of a zombie has no children. *)
Lemma dead_childless ps n init i p :
  table_inv ps n init → ps !! i = Some p → ~ alive p → childless ps i ∧ init ≠ Some i.
Proof.
  intros Hinv Hi Hd. split.
  - intros j q Hj Hq. destruct (ti_parent _ _ _ Hinv j q i Hj Hq) as (_ & r & Hr & Ha). by simplify_eq.
  - intros Hq. destruct (ti_init _ _ _ Hinv i Hq) as (r & Hr & Ha & _). by simplify_eq.
Qed.

(** ** exit *)

(** What an entry of the table becomes when [me] exits. *)
Record exits (me : nat) init (any : bool) (mp : option nat) (i : nat) (q q' : proc) : Prop := {
  ex_pid : p_pid q' = p_pid q;
  ex_parent : p_parent q' = if bool_decide (p_parent q = Some me) then init else p_parent q;
  ex_unused : p_state q' = UNUSED ↔ p_state q = UNUSED ∧ i ≠ me;
  ex_zombie : p_state q' = ZOMBIE ↔ p_state q = ZOMBIE ∨ i = me;
  ex_running : p_state q' = RUNNING ↔ p_state q = RUNNING ∧ i ≠ me;
  ex_wait : waiting i q' → waiting i q ∧ i ≠ me ∧ mp ≠ Some i ∧ (any = true → init ≠ Some i)
}.

Lemma wake_waiting ch t i p : waiting i (wake ch t p) → waiting i p ∧ ch ≠ Some (ChProc i).
Proof.
  unfold waiting, wake. intros [Hs Hc]. destruct (bool_decide_reflect (p_state p = SLEEPING)); [|done].
  simpl in *. destruct (bool_decide_reflect (p_chan p = ch)); simpl in *; [done|].
  split; [done|]. congruence.
Qed.
Lemma proc_chan_ne mp i : proc_chan mp ≠ Some (ChProc i) → mp ≠ Some i.
Proof. by intros H ->. Qed.

Lemma adopt_exits me init p :
  let q := adopt me init p in
  p_pid q = p_pid p ∧ p_state q = p_state p ∧ p_chan q = p_chan p ∧
  p_parent q = if bool_decide (p_parent p = Some me) then init else p_parent p.
Proof. unfold adopt. by destruct (bool_decide _). Qed.

Lemma exited_lookup me init t p ps i q' :
  exited me init t p ps !! i = Some q' →
  ∃ q, ps !! i = Some q ∧ exits me init (existsb (zombie_child me) ps) (p_parent p) i q q'.
Proof.
  unfold exited, orphaned.
  rewrite existsb_wake.
  set (any := existsb _ ps). set (w2 := λ q, if any then wake (proc_chan init) t q else q).
  assert (∀ l : list proc, (if any then wake (proc_chan init) t <$> l else l) = w2 <$> l) as ->.
  { intros l. unfold w2. destruct any; [done|]. by rewrite list_fmap_id. }
  assert (∀ f (l : list proc), alter f me l !! i = (if decide (me = i) then f else id) <$> l !! i) as ->.
  { intros f l. rewrite list_lookup_alter. case_decide as Hd; [by rewrite Hd|]. by destruct (l !! i). }
  rewrite !list_lookup_fmap. destruct (ps !! i) as [q|]; [|done].
  cbn [fmap option_fmap option_map]. intros Hq'. exists q. split; [done|].
  set (q1 := wake (proc_chan (p_parent p)) t q) in *.
  destruct (adopt_exits me init q1) as (Ha1 & Ha2 & Ha3 & Ha4). set (q2 := adopt me init q1) in *.
  assert (woke q q1) as W1 by apply wake_woke.
  assert (woke q2 (w2 q2)) as W2 by (unfold w2; destruct any; [apply wake_woke|apply woke_refl]).
  assert (waiting i (w2 q2) → waiting i q ∧ p_parent p ≠ Some i ∧ (any = true → init ≠ Some i)) as Hw.
  { intros Hw. assert (waiting i q2 ∧ (any = true → init ≠ Some i)) as [Hw2 Hni].
    { unfold w2 in Hw. destruct any; [|done]. destruct (wake_waiting _ _ _ _ Hw) as [? ?%proc_chan_ne].
      done. }
    assert (waiting i q1) as [? ?%proc_chan_ne]%wake_waiting
      by (unfold waiting in *; by rewrite <-Ha2, <-Ha3). done. }
  assert (Hst : ∀ s, s ≠ SLEEPING → s ≠ RUNNABLE → p_state (w2 q2) = s ↔ p_state q = s).
  { intros s ? ?. by rewrite (woke_state _ _ s W2), Ha2, (woke_state _ _ s W1). }
  destruct W1 as (Hp1 & Hr1 & _), W2 as (Hp2 & Hr2 & _). rewrite Hr1 in Ha4.
  case_decide as Hd; simpl in Hq'; simplify_eq.
  - split; simpl; [congruence|congruence|by split; [|intros [_ ?]]|by split; [right|]|
      by split; [|intros [_ ?]]|]. by intros [? _].
  - split; [congruence| |..]; [congruence|rewrite Hst by done|rewrite Hst by done|rewrite Hst by done|].
    + split; [done|by intros [? _]].
    + split; [by left|by intros [?|?]].
    + split; [done|by intros [? _]].
    + intros (? & ? & ?)%Hw. auto.
Qed.

Lemma length_exited me init t p ps : length (exited me init t p ps) = length ps.
Proof.
  unfold exited. rewrite length_alter. unfold orphaned.
  destruct (existsb _ _); by repeat rewrite length_fmap.
Qed.

Lemma exited_lookup_Some me init t p ps i q :
  ps !! i = Some q → ∃ q', exited me init t p ps !! i = Some q' ∧
    exits me init (existsb (zombie_child me) ps) (p_parent p) i q q'.
Proof.
  intros Hi. assert (is_Some (exited me init t p ps !! i)) as [q' Hq'].
  { apply lookup_lt_is_Some. apply lookup_lt_Some in Hi. by rewrite length_exited. }
  destruct (exited_lookup _ _ _ _ _ _ _ Hq') as (r & Hr & Hex). simplify_eq. eauto.
Qed.

Lemma zombie_child_any me ps j q :
  ps !! j = Some q → p_parent q = Some me → p_state q = ZOMBIE → existsb (zombie_child me) ps = true.
Proof.
  intros Hj Hp Hz. apply existsb_exists. exists q. split; [apply list_elem_of_In; by eapply list_elem_of_lookup_2|].
  unfold zombie_child. by rewrite !bool_decide_true.
Qed.

Lemma table_inv_exited ps n init me p t :
  table_inv ps n init → ps !! me = Some p → alive p → init ≠ Some me →
  table_inv (exited me init t p ps) n init.
Proof.
  intros Hinv Hme Ha Hni. pose proof Hinv as [Hlen Hn Hpid Hinj Hpar Hun Hinit Hwait].
  set (any := existsb (zombie_child me) ps).
  assert (Hback := λ i q', exited_lookup me init t p ps i q'). fold any in Hback.
  assert (Hal : ∀ j q, ps !! j = Some q → alive q → j ≠ me → ∃ q', exited me init t p ps !! j = Some q' ∧ alive q' ∧
    exits me init any (p_parent p) j q q').
  { intros j q Hj [Hu Hz] Hne. destruct (exited_lookup_Some me init t p ps j q Hj) as (q' & Hq' & Hex).
    exists q'. split; [done|]. split; [|done]. unfold alive. rewrite (ex_unused _ _ _ _ _ _ _ Hex), (ex_zombie _ _ _ _ _ _ _ Hex).
    split; [by intros [? _]|by intros [?|?]]. }
  assert (Huse : ∀ i q q', ps !! i = Some q → exits me init any (p_parent p) i q q' → p_state q' ≠ UNUSED →
    p_state q ≠ UNUSED).
  { intros i q q' Hi Hex Hs Hu. destruct (decide (i = me)) as [->|]; [simplify_eq; by destruct Ha|].
    apply Hs, (ex_unused _ _ _ _ _ _ _ Hex). done. }
  split; [|done|..].
  - by rewrite length_exited.
  - intros i q' (q & Hq & Hex)%Hback Hs. rewrite (ex_pid _ _ _ _ _ _ _ Hex). eauto.
  - intros i j q' r' (q & Hq & Hex)%Hback (r & Hr & Hex')%Hback Hs Hs'.
    rewrite (ex_pid _ _ _ _ _ _ _ Hex), (ex_pid _ _ _ _ _ _ _ Hex'). eauto.
  - intros i q' j (q & Hq & Hex)%Hback. rewrite (ex_parent _ _ _ _ _ _ _ Hex).
    destruct (bool_decide_reflect (p_parent q = Some me)) as [Hqm|Hqm]; intros Hj.
    + destruct (Hinit j Hj) as (r & Hr & Hra & Hrp). split; [intros ->; congruence|].
      destruct (Hal j r) as (r' & ? & ? & _); [done|done|congruence|eauto].
    + destruct (Hpar i q j Hq Hj) as (Hne & r & Hr & Hra). split; [done|].
      destruct (Hal j r) as (r' & ? & ? & _); [done|done|congruence|eauto].
  - intros i q' (q & Hq & Hex)%Hback [Hu Hne]%(ex_unused _ _ _ _ _ _ _ Hex).
    rewrite (ex_parent _ _ _ _ _ _ _ Hex), (Hun i q Hq Hu). by rewrite bool_decide_false.
  - intros j Hj. destruct (Hinit j Hj) as (q & Hq & Hqa & Hqp).
    destruct (Hal j q) as (q' & ? & ? & Hex); [done|done|congruence|]. exists q'.
    rewrite (ex_parent _ _ _ _ _ _ _ Hex), Hqp. by rewrite bool_decide_false.
  - intros i q' j r' (q & Hq & Hex)%Hback Hs Hc (r & Hr & Hex')%Hback. 
    destruct (ex_wait _ _ _ _ _ _ _ Hex (conj Hs Hc)) as ([Hqs Hqc] & Hime & Hmp & Hany).
    rewrite (ex_parent _ _ _ _ _ _ _ Hex'), (ex_zombie _ _ _ _ _ _ _ Hex').
    destruct (bool_decide_reflect (p_parent r = Some me)) as [Hrm|Hrm]; intros Hi [Hz| ->].
    + by apply Hany in Hi; [|by eapply zombie_child_any].
    + destruct (Hpar me r me Hr Hrm) as [? _]. done.
    + by eapply (Hwait i q j r).
    + by simplify_eq.
Qed.

(** ** The processors *)

Lemma cpus_inv_insert ps cs skip i p p' :
  cpus_inv ps cs skip → ps !! i = Some p → (p_state p' = RUNNING ↔ p_state p = RUNNING) →
  cpus_inv (<[i := p']> ps) cs skip.
Proof.
  intros [Hrun Hinj Hall] Hi Hp. split; [|done|].
  - intros c x j Hx Hj Hs. destruct (Hrun c x j Hx Hj Hs) as (q & Hq & Hqs).
    destruct (decide (i = j)) as [<-|]; [|exists q; by rewrite list_lookup_insert_ne].
    exists p'. rewrite list_lookup_insert_eq by by eapply lookup_lt_Some. split; [done|].
    apply Hp. by simplify_eq.
  - intros j q [(<- & -> & _)|(Hne & Hj)]%list_lookup_insert_Some Hs; [|by eapply Hall].
    eapply Hall; [done|by apply Hp].
Qed.

(** The current process of processor [c] stops running. *)
Lemma cpus_inv_stop ps ps' cs c x me :
  cpus_inv ps cs None → cs !! c = Some x → c_proc x = Some me →
  (∀ i q', ps' !! i = Some q' → p_state q' = RUNNING → i ≠ me ∧ ∃ q, ps !! i = Some q ∧ p_state q = RUNNING) →
  (∀ i q, ps !! i = Some q → p_state q = RUNNING → i ≠ me → ∃ q', ps' !! i = Some q' ∧ p_state q' = RUNNING) →
  cpus_inv ps' cs (Some c).
Proof.
  intros [Hrun Hinj Hall] Hx Hme Hback Hfwd. split; [|done|].
  - intros d y i Hy Hi Hs. destruct (Hrun d y i Hy Hi) as (q & Hq & Hqs); [done|].
    eapply Hfwd; [done|done|]. intros ->. by destruct Hs; f_equal; eapply (Hinj c d x y me).
  - intros i q' Hi Hs. destruct (Hback i q' Hi Hs) as (Hne & q & Hq & Hqs).
    destruct (Hall i q Hq Hqs) as (d & y & Hy & Hyi & _). exists d, y. split; [done|]. split; [done|].
    intros [= <-]. simplify_eq.
Qed.

(** The scheduler takes over processor [c]. *)
Lemma cpus_inv_leave ps cs c :
  cpus_inv ps cs (Some c) → cpus_inv ps (alter (λ x, x <| c_proc := None |>) c cs) None.
Proof.
  intros [Hrun Hinj Hall].
  assert (Hl : ∀ d y i, alter (λ x, x <| c_proc := None |>) c cs !! d = Some y → c_proc y = Some i →
    d ≠ c ∧ cs !! d = Some y).
  { intros d y i Hy Hi. destruct (decide (c = d)) as [<-|].
    - rewrite list_lookup_alter_eq in Hy. destruct (cs !! c); by simplify_eq/=.
    - by rewrite list_lookup_alter_ne in Hy. }
  split.
  - intros d y i Hy Hi _. destruct (Hl d y i Hy Hi) as [Hne Hd]. eapply Hrun; [done|done|congruence].
  - intros d d' y y' i Hy Hy' Hi Hi'. destruct (Hl _ _ _ Hy Hi), (Hl _ _ _ Hy' Hi'). by eapply (Hinj d d' y y').
  - intros i p Hi Hs. destruct (Hall i p Hi Hs) as (d & y & Hy & Hyi & Hne). exists d, y.
    rewrite list_lookup_alter_ne by congruence. done.
Qed.

(** Processor [c], idle so far, starts to run the runnable process [i]. *)
Lemma cpus_inv_enter ps cs c x i p p' :
  cpus_inv ps cs None → cs !! c = Some x → c_proc x = None → ps !! i = Some p →
  p_state p ≠ RUNNING → p_state p' = RUNNING →
  cpus_inv (<[i := p']> ps) (alter (λ x, x <| c_proc := Some i |>) c cs) None.
Proof.
  intros [Hrun Hinj Hall] Hx Hidle Hi Hp Hp'.
  assert (Hl : ∀ d y j, alter (λ x, x <| c_proc := Some i |>) c cs !! d = Some y → c_proc y = Some j →
    d = c ∧ j = i ∨ d ≠ c ∧ j ≠ i ∧ cs !! d = Some y).
  { intros d y j Hy Hj. destruct (decide (c = d)) as [<-|].
    - rewrite list_lookup_alter_eq, Hx in Hy. simplify_eq/=. by left.
    - rewrite list_lookup_alter_ne in Hy by done. right. split; [done|]. split; [|done].
      intros ->. destruct (Hrun d y i Hy Hj) as (q & Hq & ?); [done|]. by simplify_eq. }
  assert (i < length ps)%nat by by eapply lookup_lt_Some. split.
  - intros d y j Hy Hj _. destruct (Hl d y j Hy Hj) as [[-> ->]|(Hne & Hji & Hd)].
    + exists p'. by rewrite list_lookup_insert_eq.
    + rewrite list_lookup_insert_ne by done. by eapply Hrun.
  - intros d d' y y' j Hy Hy' Hj Hj'. destruct (Hl _ _ _ Hy Hj) as [[-> ->]|(Hne & Hji & Hd)],
      (Hl _ _ _ Hy' Hj') as [[-> ?]|(Hne' & Hji' & Hd')]; try done. by eapply (Hinj d d' y y').
  - intros j q [(<- & -> & _)|(Hne & Hj)]%list_lookup_insert_Some Hs.
    + exists c, (x <| c_proc := Some i |>). by rewrite list_lookup_alter_eq, Hx.
    + destruct (Hall j q Hj Hs) as (d & y & Hy & Hyj & _). exists d, y.
      rewrite list_lookup_alter_ne; [done|]. intros ->. by simplify_eq.
Qed.
End lists.
