(* ===== verification/Safe.v ===== *)
(** * Safe: the kernel preserves the process-table invariant

    [J ci o it n] is the invariant while processor [ci] executes kernel code for
    the process [o]; [away ci it n] is the invariant at the moment that process has
    given up the processor.  [kernel_code] is the code made of the operations of
    proc.c on the table and of code that leaves the table alone, and an operation
    is [safe] if it is such code for every process.  Such code leads from [J] to
    [J] when it returns or spins, and to [away] when it enters the scheduler. *)
From S2P Require Import Prelude.
From S2P Require Import Mem.
From S2P Require Import Str.
From S2P Require Import State.
From S2P Require Import Spin.
From S2P Require Import Cons.
From S2P Require Import Kalloc.
From S2P Require Import Vm.
From S2P Require Import Frame.
From S2P Require Import VmSpec.
From S2P Require Import Mlq.
From S2P Require Import Proc.
From S2P Require Import ProcSpec.
From S2P Require Import ProcWait.
From S2P Require Import Sched.
From S2P Require Import Pipe.
From S2P Require Import Blk.
From S2P Require Import Bio.
From S2P Require Import Log.
From S2P Require Import Fs.
From S2P Require Import File.
From S2P Require Import Life.
From S2P Require Import ConsDev.
From S2P Require Import Syscall.
From S2P Require Import Sysfile.
From S2P Require Import Exec.
From S2P Require Import Trap.
From S2P Require Import Table.

Definition cur_cpu (k : kernel) : option nat :=
  find_first (λ c, c_apicid c =? k_lapicid k) (k_cpus k).

Record J (ci : nat) (o it : option nat) (n : Z) (k : kernel) : Prop := {
  j_table : table_inv (k_proc k) n (k_initproc k);
  j_next : k_nextpid k = n;
  j_init : k_initproc k = it;
  j_cpus : cpus_inv (k_proc k) (k_cpus k) None;
  j_cur : cur_cpu k = Some ci;
  j_proc : c_proc <$> k_cpus k !! ci = Some o
}.

Record away (ci : nat) (it : option nat) (n : Z) (k : kernel) : Prop := {
  a_table : table_inv (k_proc k) n (k_initproc k);
  a_next : k_nextpid k = n;
  a_init : k_initproc k = it;
  a_cpus : cpus_inv (k_proc k) (k_cpus k) (Some ci);
  a_cur : cur_cpu k = Some ci
}.

(** The code of the kernel, run on a processor whose process is [o] and with
    [it] for [initproc]: code that leaves the table alone and the operations of
    proc.c on the table, one after the other.  [wait_loop], [waitx_loop],
    [sleep_resume] and [exit_ptable] act on the current process, and only a
    process other than [initproc] exits. *)
Inductive kernel_code (o it : option nat) : ∀ {A}, K A → Prop :=
  | code_quiet {A} (m : K A) : quiet m → kernel_code o it m
  | code_bind {A B} (m : K A) (f : A → K B) :
      kernel_code o it m → (∀ a, kernel_code o it (f a)) → kernel_code o it (bind m f)
  | code_curproc {A} (f : nat → K A) :
      (∀ me, o = Some me → kernel_code o it (f me)) → kernel_code o it (me ← curproc; f me)
  | code_initproc {A} (f : option nat → K A) :
      kernel_code o it (f it) → kernel_code o it (i ← gets k_initproc; f i)
  | code_yield : kernel_code o it yield
  | code_sleep ch lk : (∀ j, ch ≠ ChProc j) → kernel_code o it (sleep ch lk)
  | code_sleep_resume me intena lk : o = Some me → kernel_code o it (sleep_resume me intena lk)
  | code_wakeup1 ch : kernel_code o it (wakeup1 ch)
  | code_kill pid : kernel_code o it (kill pid)
  | code_wait_loop me : o = Some me → kernel_code o it (wait_loop me)
  | code_waitx_loop me : o = Some me → kernel_code o it (waitx_loop me)
  | code_exit_ptable me : o = Some me → it ≠ Some me → kernel_code o it (exit_ptable me).

(** Code that any process may run. *)
Definition safe {A} (m : K A) : Prop := ∀ o it, kernel_code o it m.

(** ** Both are preserved by code that leaves the table alone *)

Lemma find_first_map {A B} (f : B → bool) (g : A → B) l :
  find_first f (g <$> l) = find_first (λ x, f (g x)) l.
Proof. induction l as [|x l IH]; [done|]. rewrite fmap_cons. cbn [find_first]. by rewrite IH. Qed.

Lemma cur_cpu_same k k' : same_table k k' → cur_cpu k' = cur_cpu k.
Proof.
  intros [_ Hc Hl _ _]. unfold cur_cpu. rewrite Hl.
  pose proof (find_first_map (λ v : Z * option nat, v.1 =? k_lapicid k) cview) as H.
  unfold cview at 2 in H. simpl in H. rewrite <-!H. by rewrite Hc.
Qed.

Lemma J_same ci o it n k k' : same_table k k' → J ci o it n k → J ci o it n k'.
Proof.
  intros Hs [Ht Hn Hit Hc Hcur Hp]. pose proof (cur_cpu_same _ _ Hs) as Hcur'. destruct Hs as [He Hv Hl Hn' Hi].
  apply Forall2_woke_ess in He. split.
  - rewrite Hi. by eapply table_inv_woke.
  - congruence.
  - congruence.
  - by eapply cpus_inv_woke.
  - congruence.
  - rewrite <-Hp. assert ((cview <$> k_cpus k') !! ci = (cview <$> k_cpus k) !! ci) as H by by rewrite Hv.
    rewrite !list_lookup_fmap in H. destruct (k_cpus k' !! ci), (k_cpus k !! ci); try done.
    simpl in *. unfold cview in H. congruence.
Qed.
Lemma away_same ci it n k k' : same_table k k' → away ci it n k → away ci it n k'.
Proof.
  intros Hs [Ht Hn Hit Hc Hcur]. pose proof (cur_cpu_same _ _ Hs) as Hcur'. destruct Hs as [He Hv Hl Hn' Hi].
  apply Forall2_woke_ess in He. split; [|congruence|congruence| |congruence].
  - rewrite Hi. by eapply table_inv_woke.
  - by eapply cpus_inv_woke.
Qed.

Lemma quiet_J {A} ci o it n (m : K A) k :
  quiet m → J ci o it n k → wpp m (λ _, J ci o it n) (away ci it n) (J ci o it n) k.
Proof. intros Hm HJ. eapply wpp_stays; [exact Hm|..]; intros; by eapply J_same. Qed.

(** ** Structural rules *)

Lemma safe_quiet {A} (m : K A) : quiet m → safe m.
Proof. intros Hm o it. by apply code_quiet. Qed.
Lemma safe_ret {A} (a : A) : safe (ret a). Proof. apply safe_quiet. quiet_tac. Qed.
Lemma safe_bind {A B} (m : K A) (f : A → K B) : safe m → (∀ a, safe (f a)) → safe (bind m f).
Proof. intros Hm Hf o it. apply code_bind; [apply Hm|intros a; apply Hf]. Qed.
Lemma code_then {A B} o it (m : K A) (f : A → K B) :
  safe m → (∀ a, kernel_code o it (f a)) → kernel_code o it (bind m f).
Proof. intros Hm. by apply code_bind. Qed.
Lemma safe_gets {A} (f : kernel → A) : safe (gets f). Proof. apply safe_quiet. quiet_tac. Qed.
Lemma safe_panic {A} e : safe (panic (A := A) e). Proof. apply safe_quiet. quiet_tac. Qed.
Lemma safe_fault {A} e : safe (fault (A := A) e). Proof. apply safe_quiet. quiet_tac. Qed.
Lemma safe_spin {A} : safe (spin (A := A)). Proof. apply safe_quiet. quiet_tac. Qed.
Lemma safe_get_or {A} e (o : option A) : safe (get_or e o).
Proof. destruct o; [apply safe_ret|apply safe_fault]. Qed.
Lemma safe_when b (m : K unit) : safe m → safe (when b m).
Proof. intros. destruct b; [done|apply safe_ret]. Qed.
Lemma safe_for_each {A} (l : list A) (f : A → K unit) : (∀ x, safe (f x)) → safe (for_each l f).
Proof. intros Hf. induction l as [|x l IH]; [apply safe_ret|]. by apply safe_bind. Qed.

Create HintDb safe discriminated.
#[export] Hint Constants Opaque : safe.
#[export] Hint Variables Opaque : safe.

Ltac solve_safe :=
  repeat first
    [ progress cbv zeta
    | lazymatch goal with
      | |- safe (bind _ _) => apply safe_bind; [|intros ?]
      | |- safe (ret _) => apply safe_ret
      | |- safe (gets _) => apply safe_gets
      | |- safe (panic _) => apply safe_panic
      | |- safe (fault _) => apply safe_fault
      | |- safe spin => apply safe_spin
      | |- safe (get_or _ _) => apply safe_get_or
      | |- safe (when _ _) => apply safe_when
      | |- safe (for_each _ _) => apply safe_for_each; intros ?
      | |- safe (if ?b then _ else _) => destruct b
      | |- safe (match ?x with _ => _ end) => destruct x eqn:?
      end
    | match goal with H : ∀ _, _ |- _ => solve [simple apply H] end
    | solve [auto 2 with safe nocore]
    | solve [apply safe_quiet; auto 1 with quiet nocore]
    | solve [apply safe_quiet, quiet_modify; intros []; by split] ].

(** ** The table's own operations *)

Lemma quiet_get_proc i : quiet (get_proc i). Proof. unfold get_proc. quiet_tac. Qed.
Lemma quiet_curproc : quiet curproc. Proof. unfold curproc. quiet_tac. Qed.
Lemma quiet_upd_proc i f : (∀ p, ess (f p) = ess p) → quiet (upd_proc i f).
Proof. intros Hf. apply quiet_modify. intros k. split; try done. by apply fmap_alter_same. Qed.
Lemma quiet_get_queue q : quiet (get_queue q). Proof. unfold get_queue. quiet_tac. Qed.
Lemma quiet_set_queue q m : quiet (set_queue q m). Proof. unfold set_queue. quiet_tac. Qed.
#[export] Hint Resolve quiet_get_proc quiet_curproc quiet_get_queue quiet_set_queue : quiet.
#[export] Hint Extern 1 (stays same_table (upd_proc _ _)) => by apply quiet_upd_proc : quiet.
Lemma quiet_push_queue q p : quiet (push_queue q p). Proof. unfold push_queue. quiet_tac. Qed.
Lemma quiet_rem_process p q : quiet (rem_process p q). Proof. unfold rem_process. quiet_tac. Qed.
Lemma quiet_setup_kstack i s : quiet (setup_kstack i s). Proof. unfold setup_kstack. quiet_tac. Qed.
Lemma quiet_stamp_proc i : quiet (stamp_proc i). Proof. unfold stamp_proc. quiet_tac. Qed.
Lemma quiet_growproc n : quiet (growproc n). Proof. unfold growproc. quiet_tac. Qed.
Lemma quiet_sched_resume i : quiet (sched_resume i). Proof. unfold sched_resume. quiet_tac. Qed.
#[export] Hint Resolve quiet_push_queue quiet_rem_process quiet_setup_kstack quiet_stamp_proc
  quiet_growproc quiet_sched_resume : quiet.
Lemma quiet_yield_resume i : quiet (yield_resume i). Proof. unfold yield_resume. quiet_tac. Qed.
Lemma quiet_getpinfo pid : quiet (getpinfo pid). Proof. unfold getpinfo. quiet_tac. Qed.
Lemma quiet_ps : quiet ps. Proof. unfold ps, ps_line. quiet_tac. Qed.
Lemma quiet_set_priority pid pr : quiet (set_priority pid pr). Proof. unfold set_priority. quiet_tac. Qed.
#[export] Hint Resolve quiet_yield_resume quiet_getpinfo quiet_ps quiet_set_priority : quiet.

(** Steps over quiet code, keeping any assertion the table alone determines. *)
Lemma wpp_quiet {A} (P : kernel → Prop) (m : K A) Q W (V : kernel → Prop) k :
  quiet m → (∀ k', same_table k k' → P k → P k') → P k →
  (∀ a k', P k' → Q a k') → (∀ k', P k' → V k') → wpp m Q W V k.
Proof. intros Hm HP Hk HQ HV. eapply wpp_stays; [exact Hm|..]; eauto. Qed.

(** The process that executes kernel code. *)
Lemma wpp_mycpu k Q W (V : kernel → Prop) :
  (∀ i, cur_cpu k = Some i → Q i k) → wpp mycpu Q W V k.
Proof.
  intros HQ. unfold wpp, mycpu, bind, readeflags, lapicid, gets. destruct (truthy _); [done|].
  fold (cur_cpu k). destruct (cur_cpu k) as [i|] eqn:E; [by apply HQ|done].
Qed.
Lemma wpp_get_cpu k i Q W (V : kernel → Prop) :
  (∀ c, k_cpus k !! i = Some c → Q c k) → wpp (get_cpu i) Q W V k.
Proof. intros HQ. apply wpp_bind, wpp_gets, wpp_get_or, HQ. Qed.
Lemma wpp_get_proc k i Q W (V : kernel → Prop) :
  (∀ p, k_proc k !! i = Some p → Q p k) → wpp (get_proc i) Q W V k.
Proof. intros HQ. apply wpp_bind, wpp_gets, wpp_get_or, HQ. Qed.
Lemma wpp_J {A} ci o it n (m : K A) Q W (V : kernel → Prop) k :
  quiet m → J ci o it n k → (∀ a k', J ci o it n k' → Q a k') → (∀ k', J ci o it n k' → V k') →
  wpp m Q W V k.
Proof. intros Hm HJ. apply (wpp_quiet (J ci o it n)); [done|intros; by eapply J_same|done]. Qed.

Lemma wpp_myproc ci o it n k Q W (V : kernel → Prop) :
  J ci o it n k → (∀ k', J ci o it n k' → Q o k') → (∀ k', J ci o it n k' → V k') → wpp myproc Q W V k.
Proof.
  intros HJ HQ HV. unfold myproc. apply wpp_bind.
  eapply (wpp_J ci o it n); [auto with quiet nocore|done|intros [] k1 HJ1|done].
  apply wpp_bind, wpp_mycpu. intros i. rewrite (j_cur _ _ _ _ _ HJ1). intros [= <-].
  apply wpp_bind, wpp_get_cpu. intros c Hc. apply wpp_bind.
  eapply (wpp_J ci o it n); [auto with quiet nocore|done|intros [] k2 HJ2|done].
  assert (c_proc c = o) as ->.
  { pose proof (j_proc _ _ _ _ _ HJ1) as Hp. rewrite Hc in Hp. by simplify_eq/=. }
  by apply HQ.
Qed.
Lemma wpp_curproc ci o it n k Q W (V : kernel → Prop) :
  J ci o it n k → (∀ me k', o = Some me → J ci o it n k' → Q me k') → (∀ k', J ci o it n k' → V k') →
  wpp curproc Q W V k.
Proof.
  intros HJ HQ HV. apply wpp_bind. eapply wpp_myproc; [done| |done]. intros k' HJ'.
  apply wpp_get_or. intros me ->. by apply HQ.
Qed.

(** The current process is running. *)
Lemma J_running ci me it n k :
  J ci (Some me) it n k → ∃ p, k_proc k !! me = Some p ∧ p_state p = RUNNING.
Proof.
  intros HJ. pose proof (j_proc _ _ _ _ _ HJ) as Hp. destruct (k_cpus k !! ci) as [c|] eqn:Hc; [|done].
  simplify_eq/=. eapply (ci_run _ _ _ (j_cpus _ _ _ _ _ HJ)); by eauto.
Qed.

(** It stops running: its slot gets a live process again, or it exits. *)
Lemma J_stop ci me it n k ps' :
  J ci (Some me) it n k → table_inv ps' n (k_initproc k) →
  (∀ i q', ps' !! i = Some q' → p_state q' = RUNNING →
     i ≠ me ∧ ∃ q, k_proc k !! i = Some q ∧ p_state q = RUNNING) →
  (∀ i q, k_proc k !! i = Some q → p_state q = RUNNING → i ≠ me →
     ∃ q', ps' !! i = Some q' ∧ p_state q' = RUNNING) →
  away ci it n (k <| k_proc := ps' |>).
Proof.
  intros HJ Ht Hb Hf. pose proof (j_proc _ _ _ _ _ HJ) as Hp. destruct (k_cpus k !! ci) as [c|] eqn:Hc; [|done].
  simplify_eq/=. split; [done|by apply HJ|by apply HJ| |by apply HJ]. simpl. eapply cpus_inv_stop; [apply HJ|done..].
Qed.
Lemma J_stop_insert ci me it n k p p' :
  J ci (Some me) it n k → k_proc k !! me = Some p → alive p' → p_state p' ≠ RUNNING →
  p_pid p' = p_pid p → p_parent p' = p_parent p →
  (waiting me p' → ∀ j q, k_proc k !! j = Some q → p_parent q = Some me → p_state q ≠ ZOMBIE) →
  away ci it n (k <| k_proc := <[me := p']> (k_proc k) |>).
Proof.
  intros HJ Hp Ha Hr Hpid Hpar Hw. destruct (J_running _ _ _ _ _ HJ) as (q & Hq & Hs). simplify_eq.
  eapply J_stop; [done|..].
  - eapply table_inv_alive; [apply HJ|done| |done..]. unfold alive. by rewrite Hs.
  - intros i q' [(<- & -> & _)|(Hne & Hj)]%list_lookup_insert_Some Hs'; [done|eauto].
  - intros i q' Hi Hs' Hne. exists q'. by rewrite list_lookup_insert_ne.
Qed.

(** ** Entering the scheduler *)

Lemma holding_nospin l k Q W (V : kernel → Prop) :
  (∀ b k', same_table k k' → Q b k') → wpp (holding l) Q W V k.
Proof.
  intros HQ. pose proof (quiet_holding l k) as Hq. unfold wpp in *.
  destruct (holding l k) eqn:E; [by apply HQ|done| |done..]. exfalso. revert E.
  unfold holding, pushcli, popcli, mycpu, get_cpu, get_lock, upd_cpu, readeflags, lapicid, cli, sti,
    bind, gets, modify, ret, when, get_or, panic, fault. repeat (case_match; simplify_eq/=; try done).
Qed.
Lemma myproc_nospin k Q W (V : kernel → Prop) :
  (∀ o k', same_table k k' → Q o k') → wpp myproc Q W V k.
Proof.
  intros HQ. pose proof (quiet_myproc k) as Hq. unfold wpp in *.
  destruct (myproc k) eqn:E; [by apply HQ|done| |done..]. exfalso. revert E.
  unfold myproc, pushcli, popcli, mycpu, get_cpu, upd_cpu, readeflags, lapicid, cli, sti,
    bind, gets, modify, ret, when, get_or, panic, fault. repeat (case_match; simplify_eq/=; try done).
Qed.

Lemma wpp_sched ci it n k Q (V : kernel → Prop) :
  away ci it n k → wpp sched Q (away ci it n) V k.
Proof.
  intros Ha. unfold sched, curproc. do 2 apply wpp_bind. apply myproc_nospin. intros o k1 H1.
  apply wpp_get_or. intros me ->. apply wpp_bind, holding_nospin. intros h k2 H2.
  destruct (negb h); [done|]. apply wpp_bind, wpp_mycpu. intros i Hi. apply wpp_bind, wpp_get_cpu.
  intros c Hc. destruct (negb _); [done|]. apply wpp_bind, wpp_get_proc. intros p Hp.
  destruct (bool_decide _); [done|]. unfold readeflags. apply wpp_bind, wpp_gets.
  destruct (truthy _); [done|]. apply wpp_swtch. eapply away_same; [done|]. by eapply away_same.
Qed.

Lemma wpp_yield ci o it n k :
  J ci o it n k → wpp yield (λ _, J ci o it n) (away ci it n) (J ci o it n) k.
Proof.
  intros HJ. unfold yield. apply wpp_bind.
  eapply (wpp_J ci o it n); [auto with quiet nocore|done|intros [] k1 HJ1|done]. apply wpp_bind.
  eapply wpp_curproc; [done| |done]. intros me k2 -> HJ2.
  destruct (J_running _ _ _ _ _ HJ2) as (p & Hp & Hs).
  apply wpp_bind, wpp_modify, wpp_bind, wpp_gets, wpp_bind, wpp_modify.
  apply wpp_sched. simpl. rewrite alter_alter, (alter_lookup _ _ _ _ Hp).
  eapply (J_stop_insert ci me it n k2 p); [done..|]. by intros [? _].
Qed.

(** No child of [me] is a zombie. *)
Definition no_zombie (me : nat) (k : kernel) : Prop :=
  ∀ j q, k_proc k !! j = Some q → p_parent q = Some me → p_state q ≠ ZOMBIE.
Lemma no_zombie_same me k k' : same_table k k' → no_zombie me k → no_zombie me k'.
Proof.
  intros Hs Hz j q' Hj Hq. destruct (ess_lookup _ _ _ _ (tb_proc _ _ Hs) Hj) as (q & Hq0 & He).
  unfold ess in He. specialize (Hz j q Hq0).
  assert (p_state q' = p_state q) as -> by congruence. apply Hz. congruence.
Qed.

Lemma wpp_sleep ci me it n k ch lk Q :
  J ci (Some me) it n k → (ch = ChProc me → no_zombie me k) →
  wpp (sleep ch lk) Q (away ci it n) (J ci (Some me) it n) k.
Proof.
  intros HJ Hz. unfold sleep. apply wpp_bind. set (P := λ k, J ci (Some me) it n k ∧ (ch = ChProc me → no_zombie me k)).
  assert (HP : ∀ k k', same_table k k' → P k → P k').
  { intros k1 k2 Hs [HJ1 Hz1]. split; [by eapply J_same|]. intros. eapply no_zombie_same; eauto. }
  eapply wpp_mono; [eapply (wpp_and _ (λ o _, o = Some me) (λ _, P))| |done|done].
  { by apply (wpp_myproc ci (Some me) it n). }
  { eapply (wpp_quiet P); [auto with quiet nocore|by apply HP|done|done|by intros k' []]. }
  intros o k1 [-> HP1].
  apply wpp_bind, wpp_for_each_app. eapply (wpp_quiet P); [|by apply HP|done| |by intros k' []].
  { destruct (bool_decide _); cbn [for_each]; unfold id; quiet_tac. }
  intros [] k2 [HJ2 Hz2]. apply wpp_bind, wpp_modify, wpp_bind, wpp_modify, wpp_ret.
  destruct (J_running _ _ _ _ _ HJ2) as (p & Hp & Hs).
  apply wpp_sched. simpl. rewrite alter_alter, (alter_lookup _ _ _ _ Hp).
  eapply (J_stop_insert ci me it n k2 p); [done..|]. intros [_ [= ->]]. by apply Hz2.
Qed.
Lemma wpp_sleep_on ci o it n k ch lk :
  J ci o it n k → (∀ j, ch ≠ ChProc j) →
  wpp (sleep ch lk) (λ _, J ci o it n) (away ci it n) (J ci o it n) k.
Proof.
  intros HJ Hch. destruct o as [me|].
  - eapply wpp_mono; [eapply wpp_sleep; [exact HJ|by intros ?%Hch]|by intros a k' H; exact H|done|done].
  - apply wpp_bind. eapply wpp_myproc; done.
Qed.

(** ** Waking up *)

Lemma J_woke ci o it n k ps' :
  J ci o it n k → Forall2 woke (k_proc k) ps' → J ci o it n (k <| k_proc := ps' |>).
Proof.
  intros [Ht Hn Hit Hc Hcur Hp] Hw. split; [by eapply table_inv_woke|done|done| |done|done].
  by eapply (cpus_inv_woke _ _ (k_cpus k) (k_cpus k)).
Qed.

Lemma wpp_wakeup1 ci o it n k ch :
  J ci o it n k → wpp (wakeup1 ch) (λ _, J ci o it n) (away ci it n) (J ci o it n) k.
Proof.
  intros HJ. unfold wpp. rewrite wakeup1_ret by apply (ti_len _ _ _ (j_table _ _ _ _ _ HJ)).
  apply J_woke; [done|]. apply Forall2_woke_wake.
Qed.

Lemma wpp_kill ci o it n k pid :
  J ci o it n k → wpp (kill pid) (λ _, J ci o it n) (away ci it n) (J ci o it n) k.
Proof.
  intros HJ. unfold kill. apply wpp_bind.
  eapply (wpp_J ci o it n); [auto with quiet nocore|done|intros [] k1 HJ1|done]. apply wpp_bind, wpp_gets.
  destruct (find_first _ _) as [i|]; [|apply quiet_J; [quiet_tac|done]]. apply wpp_bind.
  eapply (wpp_J ci o it n); [auto with quiet nocore|done|intros [] k2 HJ2|done].
  apply wpp_bind, wpp_get_proc. intros p Hp. apply wpp_bind.
  eapply (wpp_mono _ (λ _, J ci o it n) _ (away ci it n) (J ci o it n));
    [|intros [] k3 HJ3; apply quiet_J; [quiet_tac|done]|done|done].
  destruct (bool_decide_reflect (p_state p = SLEEPING)) as [Hs|]; [|done].
  apply wpp_bind, wpp_gets, wpp_modify. rewrite (alter_lookup _ _ _ _ Hp).
  apply J_woke; [done|]. eapply Forall2_woke_insert; [done|]. split; [done|]. split; [done|]. by right.
Qed.

(** ** exit *)

Lemma wpp_exit_ptable ci me it n k Q :
  J ci (Some me) it n k → k_initproc k ≠ Some me →
  wpp (exit_ptable me) Q (away ci it n) (J ci (Some me) it n) k.
Proof.
  intros HJ Hni. unfold exit_ptable. apply wpp_bind.
  eapply (wpp_quiet (λ k, J ci (Some me) it n k ∧ k_initproc k ≠ Some me));
    [auto with quiet nocore| |done|intros [] k1 [HJ1 Hn1]|by intros ? []].
  { intros k' Hs [H1 H2]. split; [by eapply J_same|]. by rewrite (tb_initproc _ _ Hs). }
  destruct (J_running _ _ _ _ _ HJ1) as (p & Hp & Hs).
  apply wpp_bind, wpp_get_proc. intros p' Hp'. simplify_eq.
  pose proof (ti_len _ _ _ (j_table _ _ _ _ _ HJ1)) as Hlen.
  unfold wpp. erewrite bind_ret_eq by by apply wakeup1_ret.
  erewrite bind_ret_eq.
  2: { apply (orphan_loop_ret me). simpl. by rewrite length_fmap. }
  unfold upd_proc, bind at 1, modify at 1, bind at 1, gets at 1, bind at 1, modify at 1. simpl.
  rewrite alter_alter. fold (exited me (k_initproc k1) (k_ticks k1) p (k_proc k1)).
  match goal with |- context [bind _ _ ?k] => set (k2 := k) end.
  change (wpp (sched ;; panic "zombie exit") Q (away ci it n) (J ci (Some me) it n) k2).
  apply wpp_bind. apply wpp_sched. eapply (J_stop ci me it n k1); [done|..].
  - eapply table_inv_exited; [apply HJ1|done| |done]. unfold alive. by rewrite Hs.
  - intros i q' Hi Hq'. destruct (exited_lookup _ _ _ _ _ _ _ Hi) as (q & Hq & Hex).
    destruct (proj1 (ex_running _ _ _ _ _ _ _ Hex) Hq') as [Hr Hne]. split; [done|]. by exists q.
  - intros i q Hi Hq Hne. destruct (exited_lookup_Some me (k_initproc k1) (k_ticks k1) p (k_proc k1) i q Hi)
      as (q' & Hq' & Hex). exists q'. split; [done|]. by apply (ex_running _ _ _ _ _ _ _ Hex).
Qed.

(** ** wait *)

(** The slot of a zombie child is given up. *)
Lemma J_free ci o it n k i p p' :
  J ci o it n k → k_proc k !! i = Some p → childless (k_proc k) i → k_initproc k ≠ Some i →
  p_state p ≠ RUNNING → p_state p' = UNUSED → p_parent p' = None →
  J ci o it n (k <| k_proc := <[i := p']> (k_proc k) |>).
Proof.
  intros [Ht Hn Hit Hc Hcur Hpr] Hi Hch Hni Hr Hs Hp. split; [by eapply table_inv_free|done|done| |done|done].
  simpl. eapply cpus_inv_insert; [done..|]. split; congruence.
Qed.

(** Slot [i] holds a zombie. *)
Definition holds_zombie (i : nat) (k : kernel) : Prop :=
  ∃ p, k_proc k !! i = Some p ∧ p_state p = ZOMBIE.
Lemma holds_zombie_same i k k' : same_table k k' → holds_zombie i k → holds_zombie i k'.
Proof.
  intros Hs (p & Hp & Hz). symmetry in Hs. destruct (ess_lookup _ _ _ _ (tb_proc _ _ Hs) Hp) as (q & Hq & He).
  exists q. split; [done|]. unfold ess in He. congruence.
Qed.

Lemma J_reap ci o it n k i f :
  J ci o it n k → holds_zombie i k → (∀ p, p_state (f p) = UNUSED ∧ p_parent (f p) = None) →
  J ci o it n (k <| k_proc := alter f i (k_proc k) |>).
Proof.
  intros HJ (p & Hp & Hz) Hf. rewrite (alter_lookup _ _ _ _ Hp). destruct (Hf p) as [Hs Hn].
  destruct (dead_childless (k_proc k) n (k_initproc k) i p) as [Hc Hni];
    [apply HJ|done|intros [_ ?]; done|]. eapply J_free; try done. congruence.
Qed.
Lemma wpp_zombie {A} ci o it n i (m : K A) Q W k :
  quiet m → J ci o it n k → holds_zombie i k → (∀ a k', J ci o it n k' → holds_zombie i k' → Q a k') →
  wpp m Q W (J ci o it n) k.
Proof.
  intros Hm HJ Hz HQ. eapply (wpp_quiet (λ k, J ci o it n k ∧ holds_zombie i k)); [done| |done|..].
  - intros k' Hs [??]. split; [by eapply J_same|by eapply holds_zombie_same].
  - intros a k' []. by apply HQ.
  - by intros k' [].
Qed.
Ltac zombie_step :=
  match goal with
  | HJ : J _ _ _ _ ?k, Hz : holds_zombie _ ?k |- wpp _ _ _ _ ?k =>
      apply wpp_bind; eapply wpp_zombie; [unfold when; quiet_tac|exact HJ|exact Hz|];
      clear HJ Hz; intros ? ? ? ?
  end.

Lemma wpp_reap ci o it n k i :
  J ci o it n k → holds_zombie i k → wpp (reap i) (λ _, J ci o it n) (away ci it n) (J ci o it n) k.
Proof.
  intros HJ Hz. unfold reap. do 6 zombie_step.
  apply wpp_bind, wpp_modify, wpp_bind, wpp_modify. apply quiet_J; [quiet_tac|]. simpl.
  rewrite alter_alter. by apply J_reap.
Qed.
Lemma wpp_reapx ci o it n k i :
  J ci o it n k → holds_zombie i k → wpp (reapx i) (λ _, J ci o it n) (away ci it n) (J ci o it n) k.
Proof.
  intros HJ Hz. unfold reapx. do 5 zombie_step.
  do 3 apply wpp_bind, wpp_modify. apply quiet_J; [quiet_tac|]. simpl.
  rewrite !alter_alter. by apply J_reap.
Qed.

(** The two loops of [wait] and [waitx], for the current process. *)
Lemma scan_children_found me k j h :
  scan_children me (k_proc k) 0 false = (Some j, h) → holds_zombie j k.
Proof.
  intros Hs. pose proof (scan_children_spec me (k_proc k) 0 false) as H. rewrite Hs in H.
  destruct H as (m & p & -> & Hp & Hz & _). exists p. split; [done|]. unfold zombie_child in Hz.
  apply andb_true_iff in Hz as [_ ?%bool_decide_eq_true]. done.
Qed.
Lemma scan_children_none me k h :
  scan_children me (k_proc k) 0 false = (None, h) → no_zombie me k.
Proof.
  intros Hs. pose proof (scan_children_spec me (k_proc k) 0 false) as H. rewrite Hs in H.
  destruct H as [Hz _]. intros j q Hj Hq Hzq. specialize (Hz q (list_elem_of_lookup_2 _ _ _ Hj)).
  unfold zombie_child in Hz. by rewrite !bool_decide_true in Hz.
Qed.

Lemma wpp_wait_loop ci me it n k :
  J ci (Some me) it n k →
  wpp (wait_loop me) (λ _, J ci (Some me) it n) (away ci it n) (J ci (Some me) it n) k.
Proof.
  intros HJ. unfold wait_loop. apply wpp_bind, wpp_gets.
  destruct (scan_children me (k_proc k) 0 false) as [[j|] h] eqn:E.
  - apply wpp_reap; [done|by eapply scan_children_found].
  - apply wpp_bind, wpp_get_proc. intros p Hp. destruct (_ || _).
    + apply quiet_J; [quiet_tac|done].
    + apply wpp_bind, wpp_sleep; [done|]. intros _. by eapply scan_children_none.
Qed.
Lemma wpp_waitx_loop ci me it n k :
  J ci (Some me) it n k →
  wpp (waitx_loop me) (λ _, J ci (Some me) it n) (away ci it n) (J ci (Some me) it n) k.
Proof.
  intros HJ. unfold waitx_loop. apply wpp_bind, wpp_gets.
  destruct (scan_children me (k_proc k) 0 false) as [[j|] h] eqn:E.
  - apply wpp_reapx; [done|by eapply scan_children_found].
  - apply wpp_bind, wpp_get_proc. intros p Hp. destruct (_ || _).
    + apply quiet_J; [quiet_tac|done].
    + apply wpp_bind, wpp_sleep; [done|]. intros _. by eapply scan_children_none.
Qed.

(** ** The code of the kernel preserves the invariant *)

Lemma J_alive ci o it n k i p p' :
  J ci o it n k → k_proc k !! i = Some p → alive p → alive p' →
  (p_state p' = RUNNING ↔ p_state p = RUNNING) →
  p_pid p' = p_pid p → p_parent p' = p_parent p → ~ waiting i p' →
  J ci o it n (k <| k_proc := <[i := p']> (k_proc k) |>).
Proof.
  intros [Ht Hn Hit Hc Hcur Hpr] Hi Ha Ha' Hr Hpid Hpar Hw.
  split; [by eapply table_inv_alive|done|done|by eapply cpus_inv_insert|done|done].
Qed.

Lemma wpp_sleep_resume ci me it n k intena lk :
  J ci (Some me) it n k →
  wpp (sleep_resume me intena lk) (λ _, J ci (Some me) it n) (away ci it n) (J ci (Some me) it n) k.
Proof.
  intros HJ. unfold sleep_resume. apply wpp_bind.
  eapply (wpp_J ci); [auto with quiet nocore|done|intros [] k1 HJ1|done].
  destruct (J_running _ _ _ _ _ HJ1) as (p & Hp & Hs). apply wpp_bind, wpp_modify.
  apply quiet_J; [unfold when; quiet_tac|]. rewrite (alter_lookup _ _ _ _ Hp).
  eapply (J_alive ci (Some me) it n k1 me p); try done; unfold alive, waiting; simpl; rewrite ?Hs; try done.
  by intros [? _].
Qed.

Lemma kernel_code_wpp {A} o it (m : K A) :
  kernel_code o it m → ∀ ci n k, J ci o it n k → wpp m (λ _, J ci o it n) (away ci it n) (J ci o it n) k.
Proof.
  induction 1 as [A m Hm|A B m f _ IHm _ IHf|A f _ IH|A f _ IH| |ch lk Hch|me intena lk ->|ch|pid|me ->|me ->|me -> Hne];
    intros ci n k HJ.
  - by apply quiet_J.
  - apply wpp_bind. eapply wpp_mono; [by apply IHm|intros a k' HJ'; by apply IHf|done|done].
  - apply wpp_bind. eapply wpp_curproc; [done|intros me k' Ho HJ'; by apply IH|done].
  - apply wpp_bind, wpp_gets. rewrite (j_init _ _ _ _ _ HJ). by apply IH.
  - by apply wpp_yield.
  - by apply wpp_sleep_on.
  - by apply wpp_sleep_resume.
  - by apply wpp_wakeup1.
  - by apply wpp_kill.
  - by apply wpp_wait_loop.
  - by apply wpp_waitx_loop.
  - apply wpp_exit_ptable; [done|]. by rewrite (j_init _ _ _ _ _ HJ).
Qed.
Lemma safe_wpp {A} (m : K A) ci o it n k :
  safe m → J ci o it n k → wpp m (λ _, J ci o it n) (away ci it n) (J ci o it n) k.
Proof. intros Hm. by apply kernel_code_wpp. Qed.

Lemma safe_curproc {A} (f : nat → K A) :
  (∀ me it, kernel_code (Some me) it (f me)) → safe (me ← curproc; f me).
Proof. intros Hf o it. apply code_curproc. intros me ->. apply Hf. Qed.
Lemma safe_yield : safe yield. Proof. intros o it. apply code_yield. Qed.
Lemma safe_sleep ch lk : (∀ j, ch ≠ ChProc j) → safe (sleep ch lk).
Proof. intros Hch o it. by apply code_sleep. Qed.
Lemma safe_wakeup1 ch : safe (wakeup1 ch). Proof. intros o it. apply code_wakeup1. Qed.
Lemma safe_kill pid : safe (kill pid). Proof. intros o it. apply code_kill. Qed.
#[export] Hint Resolve safe_yield safe_wakeup1 safe_kill : safe.
#[export] Hint Extern 1 (safe (sleep _ _)) => by apply safe_sleep : safe.
Lemma safe_wakeup ch : safe (wakeup ch). Proof. unfold wakeup. solve_safe. Qed.
Lemma safe_wait : safe wait.
Proof.
  apply safe_curproc. intros me it. apply code_bind; [|intros _; by apply code_wait_loop].
  apply code_quiet. auto with quiet nocore.
Qed.
Lemma safe_waitx : safe waitx.
Proof.
  apply safe_curproc. intros me it. apply code_bind; [|intros _; by apply code_waitx_loop].
  apply code_quiet. auto with quiet nocore.
Qed.
#[export] Hint Resolve safe_wakeup safe_wait safe_waitx : safe.

(** ** Creation *)

(** Slot [i] has been claimed and its process is not yet runnable. *)
Definition embryo (i : nat) (k : kernel) : Prop :=
  (∃ p, k_proc k !! i = Some p ∧ p_state p = EMBRYO ∧ p_parent p = None) ∧
  childless (k_proc k) i ∧ k_initproc k ≠ Some i.
Lemma embryo_same i k k' : same_table k k' → embryo i k → embryo i k'.
Proof.
  intros Hs ((p & Hp & Hse & Hpn) & Hc & Hi). split; [|split].
  - symmetry in Hs. destruct (ess_lookup _ _ _ _ (tb_proc _ _ Hs) Hp) as (q & Hq & He).
    exists q. unfold ess in He. split; [done|]. split; congruence.
  - intros j q' Hj. destruct (ess_lookup _ _ _ _ (tb_proc _ _ Hs) Hj) as (q & Hq & He).
    unfold ess in He. specialize (Hc j q Hq). congruence.
  - by rewrite (tb_initproc _ _ Hs).
Qed.

Lemma J_claim ci o it n k i p p' :
  J ci o it n k → k_proc k !! i = Some p → p_state p = UNUSED → n < INT_MAX →
  p_state p' = EMBRYO → p_pid p' = n → p_parent p' = p_parent p →
  let k' := k <| k_proc := <[i := p']> (k_proc k) |> <| k_nextpid := s32 (n + 1) |> in
  J ci o it (n + 1) k' ∧ embryo i k'.
Proof.
  intros [Ht Hn Hit Hc Hcur Hpr] Hi Hu Hlt Hs Hpid Hpar k'.
  assert (p_parent p = None) as Hpn by by eapply (ti_unused _ _ _ Ht).
  destruct (dead_childless _ _ _ _ _ Ht Hi) as [Hch Hni]; [by intros [? _]|]. split.
  - split; [by eapply table_inv_claim| |done|eapply cpus_inv_insert; [done|done|by split; congruence]|done|done].
    pose proof (ti_next _ _ _ Ht). unfold INT_MAX in *. simpl. apply s32_small. lia.
  - assert (i < length (k_proc k))%nat by by eapply lookup_lt_Some. split; [|split; [|done]].
    + exists p'. simpl. rewrite list_lookup_insert_eq by done. split; [done|]. split; [done|congruence].
    + intros j q [(<- & -> & _)|(Hne & Hj)]%list_lookup_insert_Some; [congruence|by apply (Hch j q)].
Qed.

(** Between [n] and [n + 1] pids have been given out. *)
Definition J1 (ci : nat) (o it : option nat) (n : Z) (k : kernel) : Prop :=
  J ci o it n k ∨ J ci o it (n + 1) k.

Lemma wpp_embryo {A} ci o it n i (m : K A) Q W k :
  quiet m → J ci o it (n + 1) k → embryo i k → (∀ a k', J ci o it (n + 1) k' → embryo i k' → Q a k') →
  wpp m Q W (J1 ci o it n) k.
Proof.
  intros Hm HJ He HQ. eapply (wpp_quiet (λ k, J ci o it (n + 1) k ∧ embryo i k)); [done| |done|..].
  - intros k' Hs [??]. split; [by eapply J_same|by eapply embryo_same].
  - intros a k' []. by apply HQ.
  - intros k' []. by right.
Qed.
Ltac embryo_step :=
  match goal with
  | HJ : J _ _ _ _ ?k, He : embryo _ ?k |- wpp _ _ _ _ ?k =>
      apply wpp_bind; eapply wpp_embryo; [quiet_tac|exact HJ|exact He|];
      clear HJ He; intros ? ? ? ?
  end.

Lemma J_unclaim ci o it n k i f :
  J ci o it n k → embryo i k → (∀ p, p_state (f p) = UNUSED ∧ p_parent (f p) = p_parent p) →
  J ci o it n (k <| k_proc := alter f i (k_proc k) |>).
Proof.
  intros HJ ((p & Hp & Hs & Hn) & Hc & Hi) Hf. rewrite (alter_lookup _ _ _ _ Hp).
  destruct (Hf p) as [Hu Hpp]. eapply J_free; try done; congruence.
Qed.

Lemma wpp_allocproc ci o it n k W :
  J ci o it n k → n < INT_MAX →
  wpp allocproc (λ r k', match r with
    | Some i => J ci o it (n + 1) k' ∧ embryo i k'
    | None => J1 ci o it n k'
    end) W (J1 ci o it n) k.
Proof.
  intros HJ Hn. unfold allocproc. apply wpp_bind.
  eapply (wpp_J ci o it n); [auto with quiet nocore|done|intros [] k1 HJ1|by left].
  apply wpp_bind, wpp_gets. destruct (find_first is_unused (k_proc k1)) as [i|] eqn:Hf.
  2: { apply wpp_bind. eapply (wpp_J ci o it n); [auto with quiet nocore|done|by left|by left]. }
  apply find_first_Some in Hf as (p & Hp & Hu & _). unfold is_unused in Hu. apply bool_decide_eq_true in Hu.
  apply wpp_bind. unfold claim_slot.
  apply wpp_bind, wpp_modify, wpp_bind, wpp_gets, wpp_bind, wpp_modify, wpp_bind, wpp_modify.
  simpl. rewrite alter_alter, (alter_lookup _ _ _ _ Hp).
  match goal with |- context [<[i := ?p']> (k_proc k1)] =>
    destruct (J_claim ci o it n k1 i p p') as [HJ2 He2]; [done|done|done|done|done|apply HJ1|done|] end.
  eapply wpp_embryo; [auto with quiet nocore| |rewrite <-(j_next _ _ _ _ _ HJ1) in He2; exact He2|].
  { revert HJ2. by rewrite (j_next _ _ _ _ _ HJ1). }
  clear HJ2 He2. intros [] k2 HJ2 He2. do 3 embryo_step.
  destruct (_ =? 0).
  - apply wpp_bind, wpp_modify. right. by apply J_unclaim.
  - do 2 embryo_step. done.
Qed.

Lemma quiet_get_file f : quiet (get_file f). Proof. unfold get_file. quiet_tac. Qed.
Lemma quiet_upd_file f g : quiet (upd_file f g). Proof. unfold upd_file. quiet_tac. Qed.
Lemma quiet_get_inode i : quiet (get_inode i). Proof. unfold get_inode. quiet_tac. Qed.
Lemma quiet_upd_inode i g : quiet (upd_inode i g). Proof. unfold upd_inode. quiet_tac. Qed.
Lemma quiet_store16 a w : quiet (store16 a w). Proof. unfold store16. quiet_tac. Qed.
Lemma quiet_load16 a : quiet (load16 a). Proof. unfold load16. quiet_tac. Qed.
Lemma quiet_set_name i s : quiet (set_name i s). Proof. unfold set_name. quiet_tac. Qed.
#[export] Hint Resolve quiet_get_file quiet_upd_file quiet_get_inode quiet_upd_inode quiet_store16
  quiet_load16 quiet_set_name : quiet.
Lemma quiet_filedup f : quiet (filedup f). Proof. unfold filedup. quiet_tac. Qed.
Lemma quiet_filealloc : quiet filealloc. Proof. unfold filealloc. quiet_tac. Qed.
Lemma quiet_idup i : quiet (idup i). Proof. unfold idup. quiet_tac. Qed.
Lemma quiet_iget d i : quiet (iget d i). Proof. unfold iget. quiet_tac. Qed.
Lemma quiet_init_trapframe a : quiet (init_trapframe a). Proof. unfold init_trapframe. quiet_tac. Qed.
#[export] Hint Resolve quiet_filedup quiet_filealloc quiet_idup quiet_iget quiet_init_trapframe : quiet.
Lemma quiet_copy_files a b : quiet (copy_files a b). Proof. unfold copy_files. quiet_tac. Qed.
#[export] Hint Resolve quiet_copy_files : quiet.
Lemma quiet_namei_root `{!DevSw} : quiet (namei [SLASH]).
Proof. unfold namei, namex. simpl. quiet_tac. Qed.
#[export] Hint Resolve quiet_namei_root : quiet.

(** A claimed slot becomes a child of [me]. *)
Lemma J_adopt ci me it n k i f :
  J ci (Some me) it n k → embryo i k →
  (∀ p, p_state (f p) = p_state p ∧ p_pid (f p) = p_pid p ∧ p_parent (f p) = Some me) →
  let k' := k <| k_proc := alter f i (k_proc k) |> in
  J ci (Some me) it n k' ∧ ∃ p, k_proc k' !! i = Some p ∧ p_state p = EMBRYO.
Proof.
  intros HJ ((p & Hp & Hs & Hn) & Hc & Hi) Hf k'. destruct (J_running _ _ _ _ _ HJ) as (q & Hq & Hqs).
  destruct (Hf p) as (Hf1 & Hf2 & Hf3). unfold k'. rewrite (alter_lookup _ _ _ _ Hp).
  assert (me ≠ i) by congruence. destruct HJ as [Ht Hnx Hit Hcp Hcur Hpr]. split.
  - split; [|done|done|eapply cpus_inv_insert; [done|done|by split; congruence]|done|done].
    eapply (table_inv_adopted _ _ _ i p (f p) me q); try done; unfold alive, waiting; rewrite ?Hf1, ?Hs, ?Hqs; try done.
    by intros [? _].
  - exists (f p). simpl. rewrite list_lookup_insert_eq by by eapply lookup_lt_Some. split; [done|congruence].
Qed.

(** A process that has been set up becomes runnable. *)
Lemma J_runnable ci o it n k i f p :
  J ci o it n k → k_proc k !! i = Some p → p_state p = EMBRYO →
  (∀ p, p_state (f p) = RUNNABLE ∧ p_pid (f p) = p_pid p ∧ p_parent (f p) = p_parent p) →
  J ci o it n (k <| k_proc := alter f i (k_proc k) |>).
Proof.
  intros HJ Hp Hs Hf. destruct (Hf p) as (Hf1 & Hf2 & Hf3). rewrite (alter_lookup _ _ _ _ Hp).
  eapply (J_alive ci o it n k i p); try done; unfold alive, waiting; rewrite ?Hf1, ?Hs; try done.
  by intros [? _].
Qed.

(** Slot [i] is an embryo, whoever its parent is. *)
Definition unborn (i : nat) (k : kernel) : Prop := ∃ p, k_proc k !! i = Some p ∧ p_state p = EMBRYO.
Lemma unborn_same i k k' : same_table k k' → unborn i k → unborn i k'.
Proof.
  intros Hs (p & Hp & Hse). symmetry in Hs. destruct (ess_lookup _ _ _ _ (tb_proc _ _ Hs) Hp) as (q & Hq & He).
  exists q. unfold ess in He. split; [done|congruence].
Qed.
Lemma wpp_unborn {A} ci o it n i (m : K A) Q W k :
  quiet m → J ci o it (n + 1) k → unborn i k → (∀ a k', J ci o it (n + 1) k' → unborn i k' → Q a k') →
  wpp m Q W (J1 ci o it n) k.
Proof.
  intros Hm HJ He HQ. eapply (wpp_quiet (λ k, J ci o it (n + 1) k ∧ unborn i k)); [done| |done|..].
  - intros k' Hs [??]. split; [by eapply J_same|by eapply unborn_same].
  - intros a k' []. by apply HQ.
  - intros k' []. by right.
Qed.
Ltac unborn_step :=
  match goal with
  | HJ : J _ _ _ _ ?k, He : unborn _ ?k |- wpp _ _ _ _ ?k =>
      apply wpp_bind; eapply wpp_unborn; [quiet_tac|exact HJ|exact He|];
      clear HJ He; intros ? ? ? ?
  end.

(** The last step of [fork] and [userinit]. *)
Lemma wpp_make_runnable {A} ci o it n i (r : K A) Q W k :
  J ci o it (n + 1) k → unborn i k →
  (∀ k', J ci o it (n + 1) k' → wpp r Q W (J1 ci o it n) k') →
  wpp (upd_proc i (λ q, q <| p_state := RUNNABLE |>) ;;
       ticks ← gets k_ticks;
       upd_proc i (λ q, q <| p_start := s32 ticks |>) ;;
       release LPtable ;; r) Q W (J1 ci o it n) k.
Proof.
  intros HJ (p & Hp & Hs) Hr. apply wpp_bind, wpp_modify, wpp_bind, wpp_gets, wpp_bind, wpp_modify.
  apply wpp_bind. eapply (wpp_J ci o it (n + 1)); [auto with quiet nocore| |intros []; apply Hr|by right].
  simpl. rewrite alter_alter. by eapply J_runnable.
Qed.

Lemma wpp_fork ci o it n k W :
  J ci o it n k → n < INT_MAX → wpp fork (λ _, J1 ci o it n) W (J1 ci o it n) k.
Proof.
  intros HJ Hn. unfold fork. apply wpp_bind. eapply wpp_curproc; [done| |by left].
  intros me k1 -> HJ1. apply wpp_bind. eapply wpp_mono; [by eapply wpp_allocproc| |intros k' H; exact H|done].
  intros [np|] k2 H2; [|done]. destruct H2 as [HJ2 He2]. do 3 embryo_step.
  destruct (_ =? 0).
  - do 3 embryo_step. apply wpp_bind, wpp_modify. right. by apply J_unclaim.
  - embryo_step. apply wpp_bind, wpp_modify.
    match goal with HJ : J _ _ _ _ ?k, He : embryo _ ?k |- _ =>
      destruct (J_adopt ci me it (n + 1) k np (λ q, q <| p_parent := Some me |>) HJ He) as [HJ3 Hu3];
        [done|change (unborn np (k <| k_proc := alter (λ q, q <| p_parent := Some me |>) np (k_proc k) |>)) in Hu3;
         clear HJ He] end.
    do 10 unborn_step.
    eapply wpp_make_runnable; [done|done|]. intros k9 HJ9. by right.
Qed.

Lemma wpp_userinit `{!DevSw} ci o it n k start size W :
  J ci o it n k → n < INT_MAX →
  wpp (userinit start size) (λ _ k', ∃ i, J ci o (Some i) (n + 1) k') W (λ k', ∃ it', J1 ci o it' n k') k.
Proof.
  intros HJ Hn. unfold userinit. apply wpp_bind.
  eapply wpp_mono; [by eapply wpp_allocproc| |done|by eauto].
  intros r k1 H1. apply wpp_bind, wpp_modify, wpp_bind, wpp_get_or. intros i ->.
  destruct H1 as [HJ1 He1]. destruct He1 as ((p & Hp & Hs & Hpn) & Hc & Hi).
  assert (J ci o (Some i) (n + 1) (k1 <| k_initproc := Some i |>)) as HJ2.
  { destruct HJ1 as [[Hl Hn1 Hpid Hinj Hpar Hun Hinit Hw] Hnx Hit Hcp Hcur Hpr]. split; try done.
    split; try done. intros j [= <-]. exists p. unfold alive. by rewrite Hs. }
  assert (unborn i (k1 <| k_initproc := Some i |>)) as Hu2 by by exists p.
  clear HJ1 Hp Hs Hpn Hc Hi.
  eapply (wpp_mono _ (λ _, J ci o (Some i) (n + 1)) _ W (J1 ci o (Some i) n)); [|by eauto|done|by eauto].
  do 2 unborn_step. destruct (_ =? 0); [done|]. do 8 unborn_step.
  match goal with HJ : J _ _ _ _ ?k, He : unborn _ ?k |- _ => destruct He as (q & Hq & Hqs) end.
  apply wpp_bind, wpp_modify, wpp_bind, wpp_gets, wpp_bind, wpp_modify.
  eapply (wpp_J ci o (Some i) (n + 1)); [auto with quiet nocore| |done|by right].
  simpl. rewrite alter_alter. by eapply J_runnable.
Qed.
