(* ===== verification/SafeCalls.v ===== *)
(** * SafeCalls: every system call preserves the process-table invariant

    The file system, the devices and the system calls other than fork are
    [safe], one function after the other: they are made of the operations of
    proc.c and of code that leaves the table alone, and what they sleep on is
    never a process.  So is, with them, every rest of a system call behind a
    [sleep]. *)
From S2P Require Import Prelude.
From S2P Require Import Mem.
From S2P Require Import Str.
From S2P Require Import State.
From S2P Require Import Spin.
From S2P Require Import Cons.
From S2P Require Import Kalloc.
From S2P Require Import Vm.
From S2P Require Import Frame.
From S2P Require Import VmSpec.
From S2P Require Import Mlq.
From S2P Require Import Proc.
From S2P Require Import ProcSpec.
From S2P Require Import ProcWait.
From S2P Require Import Sched.
From S2P Require Import Pipe.
From S2P Require Import Blk.
From S2P Require Import Bio.
From S2P Require Import Log.
From S2P Require Import Fs.
From S2P Require Import File.
From S2P Require Import Life.
From S2P Require Import ConsDev.
From S2P Require Import Syscall.
From S2P Require Import Sysfile.
From S2P Require Import Exec.
From S2P Require Import Trap.
From S2P Require Import Table.
From S2P Require Import Safe.

(** What the process table needs from a device driver. *)
Class DevSafe `{!DevSw} := {
  dev_read_safe d f : devsw_read d = Some f → ∀ ip n, safe (f ip n);
  dev_write_safe d f : devsw_write d = Some f → ∀ ip bs, safe (f ip bs)
}.
#[export] Hint Extern 1 (safe (_ _ _)) =>
  match goal with
  | H : devsw_read _ = Some ?f |- safe (?f _ _) => exact (dev_read_safe _ _ H _ _)
  | H : devsw_write _ = Some ?f |- safe (?f _ _) => exact (dev_write_safe _ _ H _ _)
  end : safe.

(** ** Bio *)

Lemma safe_get_slock (l : lockid) : safe (get_slock l).
Proof. unfold get_slock. solve_safe. Qed.
#[export] Hint Resolve safe_get_slock : safe.
Lemma safe_set_slock (l : lockid) (v : sleeplock) : safe (set_slock l v).
Proof. unfold set_slock. solve_safe. Qed.
#[export] Hint Resolve safe_set_slock : safe.
Lemma safe_my_pid : safe my_pid.
Proof. unfold my_pid. solve_safe. Qed.
#[export] Hint Resolve safe_my_pid : safe.
Lemma safe_initsleeplock (l : lockid) : safe (initsleeplock l).
Proof. unfold initsleeplock. solve_safe. Qed.
#[export] Hint Resolve safe_initsleeplock : safe.
Lemma safe_acquiresleep_loop (l : lockid) : safe (acquiresleep_loop l).
Proof. unfold acquiresleep_loop. solve_safe. Qed.
#[export] Hint Resolve safe_acquiresleep_loop : safe.
Lemma safe_acquiresleep (l : lockid) : safe (acquiresleep l).
Proof. unfold acquiresleep. solve_safe. Qed.
#[export] Hint Resolve safe_acquiresleep : safe.
Lemma safe_releasesleep (l : lockid) : safe (releasesleep l).
Proof. unfold releasesleep. solve_safe. Qed.
#[export] Hint Resolve safe_releasesleep : safe.
Lemma safe_holdingsleep (l : lockid) : safe (holdingsleep l).
Proof. unfold holdingsleep. solve_safe. Qed.
#[export] Hint Resolve safe_holdingsleep : safe.
Lemma safe_get_buf (b : nat) : safe (get_buf b).
Proof. unfold get_buf. solve_safe. Qed.
#[export] Hint Resolve safe_get_buf : safe.
Lemma safe_upd_buf (b : nat) (f : buf → buf) : safe (upd_buf b f).
Proof. unfold upd_buf. solve_safe. Qed.
#[export] Hint Resolve safe_upd_buf : safe.
Lemma safe_binit : safe binit.
Proof. unfold binit. solve_safe. Qed.
#[export] Hint Resolve safe_binit : safe.
Lemma safe_bget (dev blockno : Z) : safe (bget dev blockno).
Proof. unfold bget. solve_safe. Qed.
#[export] Hint Resolve safe_bget : safe.
Lemma safe_iderw (b : nat) : safe (iderw b).
Proof. unfold iderw. solve_safe. Qed.
#[export] Hint Resolve safe_iderw : safe.
Lemma safe_bread (dev blockno : Z) : safe (bread dev blockno).
Proof. unfold bread. solve_safe. Qed.
#[export] Hint Resolve safe_bread : safe.
Lemma safe_bwrite (b : nat) : safe (bwrite b).
Proof. unfold bwrite. solve_safe. Qed.
#[export] Hint Resolve safe_bwrite : safe.
Lemma safe_move_to_front (b : nat) : safe (move_to_front b).
Proof. unfold move_to_front. solve_safe. Qed.
#[export] Hint Resolve safe_move_to_front : safe.
Lemma safe_brelse (b : nat) : safe (brelse b).
Proof. unfold brelse. solve_safe. Qed.
#[export] Hint Resolve safe_brelse : safe.
Lemma safe_upd_data (b : nat) (f : list Z → list Z) : safe (upd_data b f).
Proof. unfold upd_data. solve_safe. Qed.
#[export] Hint Resolve safe_upd_data : safe.
Lemma safe_get_data (b : nat) : safe (get_data b).
Proof. unfold get_data. solve_safe. Qed.
#[export] Hint Resolve safe_get_data : safe.

(** ** Log *)

Lemma safe_upd_log (f : logst → logst) : safe (upd_log f).
Proof. unfold upd_log. solve_safe. Qed.
#[export] Hint Resolve safe_upd_log : safe.
Lemma safe_readsb (dev : Z) : safe (readsb dev).
Proof. unfold readsb. solve_safe. Qed.
#[export] Hint Resolve safe_readsb : safe.
Lemma safe_install_trans_loop (n : nat) (tail : Z) : safe (install_trans_loop n tail).
Proof. revert tail. induction n as [|n IH]; intros tail; cbn [install_trans_loop]; solve_safe. Qed.
#[export] Hint Resolve safe_install_trans_loop : safe.
Lemma safe_install_trans : safe install_trans.
Proof. unfold install_trans. solve_safe. Qed.
#[export] Hint Resolve safe_install_trans : safe.
Lemma safe_read_head : safe read_head.
Proof. unfold read_head. solve_safe. Qed.
#[export] Hint Resolve safe_read_head : safe.
Lemma safe_write_head : safe write_head.
Proof. unfold write_head. solve_safe. Qed.
#[export] Hint Resolve safe_write_head : safe.
Lemma safe_recover_from_log : safe recover_from_log.
Proof. unfold recover_from_log. solve_safe. Qed.
#[export] Hint Resolve safe_recover_from_log : safe.
Lemma safe_initlog (dev : Z) : safe (initlog dev).
Proof. unfold initlog. solve_safe. Qed.
#[export] Hint Resolve safe_initlog : safe.
Lemma safe_begin_op_loop : safe begin_op_loop.
Proof. unfold begin_op_loop. solve_safe. Qed.
#[export] Hint Resolve safe_begin_op_loop : safe.
Lemma safe_begin_op : safe begin_op.
Proof. unfold begin_op. solve_safe. Qed.
#[export] Hint Resolve safe_begin_op : safe.
Lemma safe_write_log_loop (n : nat) (tail : Z) : safe (write_log_loop n tail).
Proof. revert tail. induction n as [|n IH]; intros tail; cbn [write_log_loop]; solve_safe. Qed.
#[export] Hint Resolve safe_write_log_loop : safe.
Lemma safe_write_log : safe write_log.
Proof. unfold write_log. solve_safe. Qed.
#[export] Hint Resolve safe_write_log : safe.
Lemma safe_commit : safe commit.
Proof. unfold commit. solve_safe. Qed.
#[export] Hint Resolve safe_commit : safe.
Lemma safe_end_op : safe end_op.
Proof. unfold end_op. solve_safe. Qed.
#[export] Hint Resolve safe_end_op : safe.
Lemma safe_log_write (b : nat) : safe (log_write b).
Proof. unfold log_write. solve_safe. Qed.
#[export] Hint Resolve safe_log_write : safe.

(** ** Pipe *)

Lemma safe_get_pipe (p : Z) : safe (get_pipe p).
Proof. unfold get_pipe. solve_safe. Qed.
#[export] Hint Resolve safe_get_pipe : safe.
Lemma safe_upd_pipe (p : Z) (f : pipe → pipe) : safe (upd_pipe p f).
Proof. unfold upd_pipe. solve_safe. Qed.
#[export] Hint Resolve safe_upd_pipe : safe.
Lemma safe_pipeclose (p : Z) (writable : Z) : safe (pipeclose p writable).
Proof. unfold pipeclose. solve_safe. Qed.
#[export] Hint Resolve safe_pipeclose : safe.
Lemma safe_myproc_killed : safe myproc_killed.
Proof. unfold myproc_killed. solve_safe. Qed.
#[export] Hint Resolve safe_myproc_killed : safe.
Lemma safe_pipewrite_loop (p : Z) (bs : list Z) (n : Z) : safe (pipewrite_loop p bs n).
Proof. revert p n. induction bs as [|b bs IH]; intros p n; cbn [pipewrite_loop]; solve_safe. Qed.
#[export] Hint Resolve safe_pipewrite_loop : safe.
Lemma safe_pipewrite (p : Z) (bs : list Z) : safe (pipewrite p bs).
Proof. unfold pipewrite. solve_safe. Qed.
#[export] Hint Resolve safe_pipewrite : safe.
Lemma safe_piperead_loop (p : Z) (n : Z) : safe (piperead_loop p n).
Proof. unfold piperead_loop. solve_safe. Qed.
#[export] Hint Resolve safe_piperead_loop : safe.
Lemma safe_piperead (p : Z) (n : Z) : safe (piperead p n).
Proof. unfold piperead. solve_safe. Qed.
#[export] Hint Resolve safe_piperead : safe.

(** ** The file system over any safe devices *)

Section devices.
Context `{!DevSw} `{!DevSafe}.

(** ** Fs *)

Lemma safe_bzero (dev bno : Z) : safe (bzero dev bno).
Proof. unfold bzero. solve_safe. Qed.
#[local] Hint Resolve safe_bzero : safe.
Lemma safe_balloc_loop (fuel : nat) (dev b : Z) : safe (balloc_loop fuel dev b).
Proof. revert dev b. induction fuel as [|fuel IH]; intros dev b; cbn [balloc_loop]; solve_safe. Qed.
#[local] Hint Resolve safe_balloc_loop : safe.
Lemma safe_balloc (dev : Z) : safe (balloc dev).
Proof. unfold balloc. solve_safe. Qed.
#[local] Hint Resolve safe_balloc : safe.
Lemma safe_bfree (dev b : Z) : safe (bfree dev b).
Proof. unfold bfree. solve_safe. Qed.
#[local] Hint Resolve safe_bfree : safe.
Lemma safe_iinit (dev : Z) : safe (iinit dev).
Proof. unfold iinit. solve_safe. Qed.
#[local] Hint Resolve safe_iinit : safe.
Lemma safe_ialloc_loop (fuel : nat) (dev type inum : Z) : safe (ialloc_loop fuel dev type inum).
Proof. revert dev type inum. induction fuel as [|fuel IH]; intros dev type inum; cbn [ialloc_loop]; solve_safe. Qed.
#[local] Hint Resolve safe_ialloc_loop : safe.
Lemma safe_ialloc (dev type : Z) : safe (ialloc dev type).
Proof. unfold ialloc. solve_safe. Qed.
#[local] Hint Resolve safe_ialloc : safe.
Lemma safe_iupdate (ip : nat) : safe (iupdate ip).
Proof. unfold iupdate. solve_safe. Qed.
#[local] Hint Resolve safe_iupdate : safe.
Lemma safe_ilock_load (ip : nat) : safe (ilock_load ip).
Proof. unfold ilock_load. solve_safe. Qed.
#[local] Hint Resolve safe_ilock_load : safe.
Lemma safe_ilock (ip : nat) : safe (ilock ip).
Proof. unfold ilock. solve_safe. Qed.
#[local] Hint Resolve safe_ilock : safe.
Lemma safe_iunlock (ip : nat) : safe (iunlock ip).
Proof. unfold iunlock. solve_safe. Qed.
#[local] Hint Resolve safe_iunlock : safe.
Lemma safe_bmap (ip : nat) (bn : Z) : safe (bmap ip bn).
Proof. unfold bmap. solve_safe. Qed.
#[local] Hint Resolve safe_bmap : safe.
Lemma safe_itrunc (ip : nat) : safe (itrunc ip).
Proof. unfold itrunc. solve_safe. Qed.
#[local] Hint Resolve safe_itrunc : safe.
Lemma safe_iput (ip : nat) : safe (iput ip).
Proof. unfold iput. solve_safe. Qed.
#[local] Hint Resolve safe_iput : safe.
Lemma safe_iunlockput (ip : nat) : safe (iunlockput ip).
Proof. unfold iunlockput. solve_safe. Qed.
#[local] Hint Resolve safe_iunlockput : safe.
Lemma safe_stati (ip : nat) : safe (stati ip).
Proof. unfold stati. solve_safe. Qed.
#[local] Hint Resolve safe_stati : safe.
Lemma safe_readi_loop (fuel : nat) (ip : nat) (tot off n : Z) : safe (readi_loop fuel ip tot off n).
Proof. revert ip tot off n. induction fuel as [|fuel IH]; intros ip tot off n; cbn [readi_loop]; solve_safe. Qed.
#[local] Hint Resolve safe_readi_loop : safe.
Lemma safe_readi (ip : nat) (off n : Z) : safe (readi ip off n).
Proof. unfold readi. solve_safe. Qed.
#[local] Hint Resolve safe_readi : safe.
Lemma safe_writei_loop (fuel : nat) (ip : nat) (src : list Z) (tot off n : Z) : safe (writei_loop fuel ip src tot off n).
Proof. revert ip src tot off n. induction fuel as [|fuel IH]; intros ip src tot off n; cbn [writei_loop]; solve_safe. Qed.
#[local] Hint Resolve safe_writei_loop : safe.
Lemma safe_writei (ip : nat) (src : list Z) (off : Z) : safe (writei ip src off).
Proof. unfold writei. solve_safe. Qed.
#[local] Hint Resolve safe_writei : safe.
Lemma safe_dirlookup_loop (fuel : nat) (dp : nat) (name : list Z) (off : Z) : safe (dirlookup_loop fuel dp name off).
Proof. revert dp name off. induction fuel as [|fuel IH]; intros dp name off; cbn [dirlookup_loop]; solve_safe. Qed.
#[local] Hint Resolve safe_dirlookup_loop : safe.
Lemma safe_dirlookup (dp : nat) (name : list Z) : safe (dirlookup dp name).
Proof. unfold dirlookup. solve_safe. Qed.
#[local] Hint Resolve safe_dirlookup : safe.
Lemma safe_empty_dirent (fuel : nat) (dp : nat) (off : Z) : safe (empty_dirent fuel dp off).
Proof. revert dp off. induction fuel as [|fuel IH]; intros dp off; cbn [empty_dirent]; solve_safe. Qed.
#[local] Hint Resolve safe_empty_dirent : safe.
Lemma safe_dirlink (dp : nat) (name : list Z) (inum : Z) : safe (dirlink dp name inum).
Proof. unfold dirlink. solve_safe. Qed.
#[local] Hint Resolve safe_dirlink : safe.
Lemma safe_namex_loop (fuel : nat) (ip : nat) (path : list Z) (parent : bool) (name : list Z) : safe (namex_loop fuel ip path parent name).
Proof. revert ip path parent name. induction fuel as [|fuel IH]; intros ip path parent name; cbn [namex_loop]; solve_safe. Qed.
#[local] Hint Resolve safe_namex_loop : safe.
Lemma safe_namex (path : list Z) (parent : bool) : safe (namex path parent).
Proof. unfold namex. solve_safe. Qed.
#[local] Hint Resolve safe_namex : safe.
Lemma safe_namei (path : list Z) : safe (namei path).
Proof. unfold namei. solve_safe. Qed.
#[local] Hint Resolve safe_namei : safe.
Lemma safe_nameiparent (path : list Z) : safe (nameiparent path).
Proof. unfold nameiparent. solve_safe. Qed.
#[local] Hint Resolve safe_nameiparent : safe.

(** ** File *)

Lemma safe_fileinit : safe fileinit.
Proof. unfold fileinit. solve_safe. Qed.
#[local] Hint Resolve safe_fileinit : safe.
Lemma safe_fileclose (f : nat) : safe (fileclose f).
Proof. unfold fileclose. solve_safe. Qed.
#[local] Hint Resolve safe_fileclose : safe.
Lemma safe_filestat (f : nat) : safe (filestat f).
Proof. unfold filestat. solve_safe. Qed.
#[local] Hint Resolve safe_filestat : safe.
Lemma safe_fileread (f : nat) (n : Z) : safe (fileread f n).
Proof. unfold fileread. solve_safe. Qed.
#[local] Hint Resolve safe_fileread : safe.
Lemma safe_filewrite_loop (fuel : nat) (f : nat) (ip : nat) (bs : list Z) (i n : Z) : safe (filewrite_loop fuel f ip bs i n).
Proof. revert f ip bs i n. induction fuel as [|fuel IH]; intros f ip bs i n; cbn [filewrite_loop]; solve_safe. Qed.
#[local] Hint Resolve safe_filewrite_loop : safe.
Lemma safe_filewrite (f : nat) (bs : list Z) : safe (filewrite f bs).
Proof. unfold filewrite. solve_safe. Qed.
#[local] Hint Resolve safe_filewrite : safe.
Lemma safe_pipealloc_bad (p : Z) (f0 f1 : option nat) : safe (pipealloc_bad p f0 f1).
Proof. unfold pipealloc_bad. solve_safe. Qed.
#[local] Hint Resolve safe_pipealloc_bad : safe.
Lemma safe_pipealloc : safe pipealloc.
Proof. unfold pipealloc. solve_safe. Qed.
#[local] Hint Resolve safe_pipealloc : safe.
End devices.
#[export] Hint Resolve safe_bzero safe_balloc_loop safe_balloc safe_bfree safe_iinit safe_ialloc_loop safe_ialloc safe_iupdate safe_ilock_load safe_ilock safe_iunlock safe_bmap safe_itrunc safe_iput safe_iunlockput safe_stati safe_readi_loop safe_readi safe_writei_loop safe_writei safe_dirlookup_loop safe_dirlookup safe_empty_dirent safe_dirlink safe_namex_loop safe_namex safe_namei safe_nameiparent safe_fileinit safe_fileclose safe_filestat safe_fileread safe_filewrite_loop safe_filewrite safe_pipealloc_bad safe_pipealloc : safe.

(** ** ConsDev *)

Lemma safe_upd_input (f : inputst → inputst) : safe (upd_input f).
Proof. unfold upd_input. solve_safe. Qed.
#[export] Hint Resolve safe_upd_input : safe.
Lemma safe_print_pcs (pcs : list Z) : safe (print_pcs pcs).
Proof. induction pcs as [|pc pcs IH]; cbn [print_pcs]; solve_safe. Qed.
#[export] Hint Resolve safe_print_pcs : safe.
Lemma safe_procdump : safe procdump.
Proof. unfold procdump. solve_safe. Qed.
#[export] Hint Resolve safe_procdump : safe.
Lemma safe_kill_line (fuel : nat) : safe (kill_line fuel).
Proof. induction fuel as [|fuel IH]; cbn [kill_line]; solve_safe. Qed.
#[export] Hint Resolve safe_kill_line : safe.
Lemma safe_type_char (c : Z) : safe (type_char c).
Proof. unfold type_char. solve_safe. Qed.
#[export] Hint Resolve safe_type_char : safe.
Lemma safe_input_char (c : Z) : safe (input_char c).
Proof. unfold input_char. solve_safe. Qed.
#[export] Hint Resolve safe_input_char : safe.
Lemma safe_input_chars (cs : list Z) (doprocdump : bool) : safe (input_chars cs doprocdump).
Proof. revert doprocdump. induction cs as [|c cs IH]; intros doprocdump; cbn [input_chars]; solve_safe. Qed.
#[export] Hint Resolve safe_input_chars : safe.
Lemma safe_consoleintr (cs : list Z) : safe (consoleintr cs).
Proof. unfold consoleintr. solve_safe. Qed.
#[export] Hint Resolve safe_consoleintr : safe.
Lemma safe_consoleread_loop (fuel : nat) (ip : nat) (n target : Z) (acc : list Z) : safe (consoleread_loop fuel ip n target acc).
Proof. revert ip n target acc. induction fuel as [|fuel IH]; intros ip n target acc; cbn [consoleread_loop]; solve_safe. Qed.
#[export] Hint Resolve safe_consoleread_loop : safe.
Lemma safe_consoleread (ip : nat) (n : Z) : safe (consoleread ip n).
Proof. unfold consoleread. solve_safe. Qed.
#[export] Hint Resolve safe_consoleread : safe.
Lemma safe_consolewrite (ip : nat) (bs : list Z) : safe (consolewrite ip bs).
Proof. unfold consolewrite. solve_safe. Qed.
#[export] Hint Resolve safe_consolewrite : safe.
Lemma safe_consoleinit : safe consoleinit.
Proof. unfold consoleinit. solve_safe. Qed.
#[export] Hint Resolve safe_consoleinit : safe.

#[export] Instance console_safe : DevSafe.
Proof.
  split; intros d f; simpl; destruct (_ =? _); intros ?; simplify_eq; intros; auto with safe nocore.
Qed.
#[export] Hint Resolve console_safe : safe.

(** ** Life *)

Lemma safe_close_files (me : nat) : safe (close_files me).
Proof. unfold close_files. solve_safe. Qed.
#[export] Hint Resolve safe_close_files : safe.
Lemma safe_forkret (first : bool) : safe (forkret first).
Proof. unfold forkret. solve_safe. Qed.
#[export] Hint Resolve safe_forkret : safe.

Lemma safe_exit : safe exit.
Proof.
  unfold exit. apply safe_curproc. intros me it. apply code_initproc.
  destruct (bool_decide_reflect (it = Some me)) as [|Hne]; [apply safe_panic|].
  do 7 (apply code_then; [solve_safe|intros ?]).
  by apply code_exit_ptable.
Qed.
#[export] Hint Resolve safe_exit : safe.

(** ** Syscall *)

Lemma safe_my_proc : safe my_proc.
Proof. unfold my_proc. solve_safe. Qed.
#[export] Hint Resolve safe_my_proc : safe.
Lemma safe_uread (va : Z) (n : nat) : safe (uread va n).
Proof. unfold uread. solve_safe. Qed.
#[export] Hint Resolve safe_uread : safe.
Lemma safe_uwrite (va : Z) (cs : list Z) : safe (uwrite va cs).
Proof. unfold uwrite. solve_safe. Qed.
#[export] Hint Resolve safe_uwrite : safe.
Lemma safe_fetchint (addr : Z) : safe (fetchint addr).
Proof. unfold fetchint. solve_safe. Qed.
#[export] Hint Resolve safe_fetchint : safe.
Lemma safe_fetchstr (addr : Z) : safe (fetchstr addr).
Proof. unfold fetchstr. solve_safe. Qed.
#[export] Hint Resolve safe_fetchstr : safe.
Lemma safe_argint (n : Z) : safe (argint n).
Proof. unfold argint. solve_safe. Qed.
#[export] Hint Resolve safe_argint : safe.
Lemma safe_argptr (n size : Z) : safe (argptr n size).
Proof. unfold argptr. solve_safe. Qed.
#[export] Hint Resolve safe_argptr : safe.
Lemma safe_argstr (n : Z) : safe (argstr n).
Proof. unfold argstr. solve_safe. Qed.
#[export] Hint Resolve safe_argstr : safe.
Lemma safe_sys_wait : safe sys_wait.
Proof. unfold sys_wait. solve_safe. Qed.
#[export] Hint Resolve safe_sys_wait : safe.
Lemma safe_sys_waitx : safe sys_waitx.
Proof. unfold sys_waitx. solve_safe. Qed.
#[export] Hint Resolve safe_sys_waitx : safe.
Lemma safe_sys_kill : safe sys_kill.
Proof. unfold sys_kill. solve_safe. Qed.
#[export] Hint Resolve safe_sys_kill : safe.
Lemma safe_sys_getpid : safe sys_getpid.
Proof. unfold sys_getpid. solve_safe. Qed.
#[export] Hint Resolve safe_sys_getpid : safe.
Lemma safe_sys_sbrk : safe sys_sbrk.
Proof. unfold sys_sbrk. solve_safe. Qed.
#[export] Hint Resolve safe_sys_sbrk : safe.
Lemma safe_sys_sleep_loop (n ticks0 : Z) : safe (sys_sleep_loop n ticks0).
Proof. unfold sys_sleep_loop. solve_safe. Qed.
#[export] Hint Resolve safe_sys_sleep_loop : safe.
Lemma safe_sys_sleep : safe sys_sleep.
Proof. unfold sys_sleep. solve_safe. Qed.
#[export] Hint Resolve safe_sys_sleep : safe.
Lemma safe_sys_uptime : safe sys_uptime.
Proof. unfold sys_uptime. solve_safe. Qed.
#[export] Hint Resolve safe_sys_uptime : safe.
Lemma safe_sys_getpinfo : safe sys_getpinfo.
Proof. unfold sys_getpinfo. solve_safe. Qed.
#[export] Hint Resolve safe_sys_getpinfo : safe.
Lemma safe_sys_ps : safe sys_ps.
Proof. unfold sys_ps. solve_safe. Qed.
#[export] Hint Resolve safe_sys_ps : safe.
Lemma safe_sys_set_priority : safe sys_set_priority.
Proof. unfold sys_set_priority. solve_safe. Qed.
#[export] Hint Resolve safe_sys_set_priority : safe.

Lemma safe_sys_exit : safe sys_exit.
Proof. unfold sys_exit. solve_safe. Qed.
#[export] Hint Resolve safe_sys_exit : safe.

(** ** Sysfile *)

Lemma safe_argfd (n : Z) : safe (argfd n).
Proof. unfold argfd. solve_safe. Qed.
#[export] Hint Resolve safe_argfd : safe.
Lemma safe_fdalloc (f : nat) : safe (fdalloc f).
Proof. unfold fdalloc. solve_safe. Qed.
#[export] Hint Resolve safe_fdalloc : safe.
Lemma safe_sys_dup : safe sys_dup.
Proof. unfold sys_dup. solve_safe. Qed.
#[export] Hint Resolve safe_sys_dup : safe.
Lemma safe_sys_read : safe sys_read.
Proof. unfold sys_read. solve_safe. Qed.
#[export] Hint Resolve safe_sys_read : safe.
Lemma safe_sys_write : safe sys_write.
Proof. unfold sys_write. solve_safe. Qed.
#[export] Hint Resolve safe_sys_write : safe.
Lemma safe_sys_close : safe sys_close.
Proof. unfold sys_close. solve_safe. Qed.
#[export] Hint Resolve safe_sys_close : safe.
Lemma safe_put_stat (a : Z) (st : stat) : safe (put_stat a st).
Proof. unfold put_stat. solve_safe. Qed.
#[export] Hint Resolve safe_put_stat : safe.
Lemma safe_sys_fstat : safe sys_fstat.
Proof. unfold sys_fstat. solve_safe. Qed.
#[export] Hint Resolve safe_sys_fstat : safe.
Lemma safe_link_bad (ip : nat) : safe (link_bad ip).
Proof. unfold link_bad. solve_safe. Qed.
#[export] Hint Resolve safe_link_bad : safe.
Lemma safe_sys_link : safe sys_link.
Proof. unfold sys_link. solve_safe. Qed.
#[export] Hint Resolve safe_sys_link : safe.
Lemma safe_isdirempty_loop (fuel : nat) (dp : nat) (off : Z) : safe (isdirempty_loop fuel dp off).
Proof. revert dp off. induction fuel as [|fuel IH]; intros dp off; cbn [isdirempty_loop]; solve_safe. Qed.
#[export] Hint Resolve safe_isdirempty_loop : safe.
Lemma safe_isdirempty (dp : nat) : safe (isdirempty dp).
Proof. unfold isdirempty. solve_safe. Qed.
#[export] Hint Resolve safe_isdirempty : safe.
Lemma safe_sys_unlink : safe sys_unlink.
Proof. unfold sys_unlink. solve_safe. Qed.
#[export] Hint Resolve safe_sys_unlink : safe.
Lemma safe_create (path : list Z) (type major minor : Z) : safe (create path type major minor).
Proof. unfold create. solve_safe. Qed.
#[export] Hint Resolve safe_create : safe.
Lemma safe_open_file (ip : nat) (omode : Z) : safe (open_file ip omode).
Proof. unfold open_file. solve_safe. Qed.
#[export] Hint Resolve safe_open_file : safe.
Lemma safe_sys_open : safe sys_open.
Proof. unfold sys_open. solve_safe. Qed.
#[export] Hint Resolve safe_sys_open : safe.
Lemma safe_make_node (path : option (list Z)) (type major minor : Z) : safe (make_node path type major minor).
Proof. unfold make_node. solve_safe. Qed.
#[export] Hint Resolve safe_make_node : safe.
Lemma safe_sys_mkdir : safe sys_mkdir.
Proof. unfold sys_mkdir. solve_safe. Qed.
#[export] Hint Resolve safe_sys_mkdir : safe.
Lemma safe_sys_mknod : safe sys_mknod.
Proof. unfold sys_mknod. solve_safe. Qed.
#[export] Hint Resolve safe_sys_mknod : safe.
Lemma safe_sys_chdir : safe sys_chdir.
Proof. unfold sys_chdir. solve_safe. Qed.
#[export] Hint Resolve safe_sys_chdir : safe.
Lemma safe_sys_pipe : safe sys_pipe.
Proof. unfold sys_pipe. solve_safe. Qed.
#[export] Hint Resolve safe_sys_pipe : safe.

(** ** Exec *)

Lemma safe_loaduvm_loop (fuel : nat) (pgdir addr : Z) (ip : nat) (offset sz i : Z) : safe (loaduvm_loop fuel pgdir addr ip offset sz i).
Proof. revert pgdir addr ip offset sz i. induction fuel as [|fuel IH]; intros pgdir addr ip offset sz i; cbn [loaduvm_loop]; solve_safe. Qed.
#[export] Hint Resolve safe_loaduvm_loop : safe.
Lemma safe_loaduvm (pgdir addr : Z) (ip : nat) (offset sz : Z) : safe (loaduvm pgdir addr ip offset sz).
Proof. unfold loaduvm. solve_safe. Qed.
#[export] Hint Resolve safe_loaduvm : safe.
Lemma safe_exec_bad (pgdir : Z) (ip : option nat) : safe (exec_bad pgdir ip).
Proof. unfold exec_bad. solve_safe. Qed.
#[export] Hint Resolve safe_exec_bad : safe.
Lemma safe_load_segments (n : nat) (pgdir : Z) (ip : nat) (off sz : Z) : safe (load_segments n pgdir ip off sz).
Proof. revert pgdir ip off sz. induction n as [|n IH]; intros pgdir ip off sz; cbn [load_segments]; solve_safe. Qed.
#[export] Hint Resolve safe_load_segments : safe.
Lemma safe_push_args (argv : list (list Z)) (argc : nat) (pgdir sp : Z) (ustack : list Z) :
  safe (push_args argv argc pgdir sp ustack).
Proof.
  revert argc sp ustack. induction argv as [|s argv IH]; intros argc sp ustack; cbn [push_args]; solve_safe.
Qed.
#[export] Hint Resolve safe_push_args : safe.
Lemma safe_exec_stack (me : nat) (path : list Z) (argv : list (list Z)) (pgdir sz entry : Z) :
  safe (exec_stack me path argv pgdir sz entry).
Proof. unfold exec_stack. solve_safe. Qed.
#[export] Hint Resolve safe_exec_stack : safe.
Lemma safe_exec (path : list Z) (argv : list (list Z)) : safe (exec path argv).
Proof. unfold exec. solve_safe. Qed.
#[export] Hint Resolve safe_exec : safe.
Lemma safe_fetch_argv (n : nat) (uargv : Z) : safe (fetch_argv n uargv).
Proof. revert uargv. induction n as [|n IH]; intros uargv; cbn [fetch_argv]; solve_safe. Qed.
#[export] Hint Resolve safe_fetch_argv : safe.
Lemma safe_sys_exec : safe sys_exec.
Proof. unfold sys_exec. solve_safe. Qed.
#[export] Hint Resolve safe_sys_exec : safe.
