(* ===== verification/Reach.v ===== *)
(** * Reach: the process table in every reachable state

    The trap handler, whatever system call it runs, leads from the invariant to
    the invariant; so does the scheduler when it starts a process and when a
    process has given up the processor, and so does the code that runs when a
    sleeping process is resumed, up to the end of the system call it slept in.
    By induction on the steps, the invariant holds in every state the machine can
    reach from boot, as long as [nextpid] has not come to the largest [int]. *)
From S2P Require Import Prelude.
From S2P Require Import Mem.
From S2P Require Import Str.
From S2P Require Import State.
From S2P Require Import Spin.
From S2P Require Import Cons.
From S2P Require Import Kalloc.
From S2P Require Import Vm.
From S2P Require Import Frame.
From S2P Require Import VmSpec.
From S2P Require Import Mlq.
From S2P Require Import Proc.
From S2P Require Import ProcSpec.
From S2P Require Import ProcWait.
From S2P Require Import Sched.
From S2P Require Import SchedSpec.
From S2P Require Import Pipe.
From S2P Require Import Blk.
From S2P Require Import Bio.
From S2P Require Import Log.
From S2P Require Import Fs.
From S2P Require Import File.
From S2P Require Import Life.
From S2P Require Import ConsDev.
From S2P Require Import Syscall.
From S2P Require Import Sysfile.
From S2P Require Import Exec.
From S2P Require Import Trap.
From S2P Require Import Table.
From S2P Require Import Safe.
From S2P Require Import SafeCalls.

(** ** The trap handler *)

(** A trap creates at most one process. *)
Definition away1 (ci : nat) (it : option nat) (n : Z) (k : kernel) : Prop :=
  away ci it n k ∨ away ci it (n + 1) k.
Definition safe1 {A} (m : K A) : Prop :=
  ∀ ci o it n k, J ci o it n k → n < INT_MAX →
    wpp m (λ _, J1 ci o it n) (away1 ci it n) (J1 ci o it n) k.

Lemma safe1_safe {A} (m : K A) : safe m → safe1 m.
Proof. intros Hm ci o it n k HJ _. eapply wpp_mono; [by apply safe_wpp|by left..]. Qed.
Lemma safe1_bind {A B} (m : K A) (f : A → K B) : safe m → (∀ a, safe1 (f a)) → safe1 (bind m f).
Proof.
  intros Hm Hf ci o it n k HJ Hn. apply wpp_bind. eapply wpp_mono; [by apply safe_wpp| |by left|by left].
  intros a k' HJ'. by apply Hf.
Qed.
Lemma safe1_then {A B} (m : K A) (f : A → K B) : safe1 m → (∀ a, safe (f a)) → safe1 (bind m f).
Proof.
  intros Hm Hf ci o it n k HJ Hn. apply wpp_bind. eapply wpp_mono; [by apply Hm| |done|done].
  intros a k' [HJ'|HJ']; (eapply wpp_mono; [by apply safe_wpp|..]); [by left..|by right|by right|by right].
Qed.
Lemma safe1_fork : safe1 fork.
Proof. intros ci o it n k HJ Hn. by apply wpp_fork. Qed.

Lemma safe_syscalls num f : syscalls num = Some f → num = 1 ∨ safe f.
Proof.
  unfold syscalls. intros H. repeat (case_match; try discriminate); simplify_eq;
    first [by left | right; solve_safe].
Qed.

Lemma safe1_syscall : safe1 syscall.
Proof.
  unfold syscall. do 3 (apply safe1_bind; [solve_safe|intros ?]).
  destruct (syscalls _) as [f|] eqn:Hf; [|apply safe1_safe; solve_safe].
  apply safe1_then; [|intros; solve_safe].
  destruct (safe_syscalls _ _ Hf) as [H1|Hs]; [|by apply safe1_safe].
  rewrite H1 in Hf. simpl in Hf. simplify_eq. apply safe1_fork.
Qed.

Lemma safe_account i : safe (account i). Proof. unfold account. solve_safe. Qed.
#[export] Hint Resolve safe_account : safe.
Lemma safe_timer_tick p : safe (timer_tick p).
Proof. unfold timer_tick, cpuid. solve_safe. Qed.
Lemma safe_bad_trap dv tf t : safe (bad_trap dv tf t).
Proof. unfold bad_trap, cpuid. solve_safe. Qed.
Lemma safe_exit_if_killed tf : safe (exit_if_killed tf).
Proof. unfold exit_if_killed. solve_safe. Qed.
#[export] Hint Resolve safe_timer_tick safe_bad_trap safe_exit_if_killed : safe.
Lemma safe_trap_tail tf t : safe (trap_tail tf t).
Proof. unfold trap_tail. solve_safe. Qed.
#[export] Hint Resolve safe_trap_tail : safe.

Lemma safe1_trap dv tf : safe1 (trap dv tf).
Proof.
  unfold trap. do 2 (apply safe1_bind; [solve_safe|intros ?]). destruct (_ =? T_SYSCALL).
  - do 4 (apply safe1_bind; [solve_safe|intros ?]). apply safe1_then; [apply safe1_syscall|].
    intros; solve_safe.
  - apply safe1_safe. unfold cpuid. solve_safe.
Qed.

(** ** Resumed code *)

(** What process [me] does first when it runs again: the code after the [sleep]
    or the [yield] it stopped in, up to the end of the function that called it,
    and the first code of a new process. *)
Inductive resumption (me : nat) : ∀ {A}, K A → Prop :=
  | resume_sleep intena lk : resumption me (sleep_resume me intena lk)
  | resume_yield intena : resumption me (yield_resume intena)
  | resume_trap intena tf : resumption me (trap_resume intena tf)
  | resume_fork first : resumption me (forkret first)
  | resume_wait intena : resumption me (wait_resume me intena)
  | resume_waitx intena : resumption me (waitx_resume me intena)
  | resume_pipewrite intena p bs n : resumption me (pipewrite_resume me intena p bs n)
  | resume_piperead intena p n : resumption me (piperead_resume me intena p n)
  | resume_sleeplock intena l : resumption me (acquiresleep_resume me intena l)
  | resume_begin_op intena : resumption me (begin_op_resume me intena)
  | resume_console intena ip n t acc : resumption me (consoleread_resume me intena ip n t acc)
  | resume_sys_sleep intena n t : resumption me (sys_sleep_resume me intena n t).

(** It is code of the kernel, so it may be followed by any other. *)
Lemma code_resumption {A} me it (m : K A) : resumption me m → kernel_code (Some me) it m.
Proof.
  assert (Hsl : ∀ {A} intena lk (f : K A), safe f → kernel_code (Some me) it (sleep_resume me intena lk ;; f)).
  { intros B intena lk f Hf. apply code_bind; [by apply code_sleep_resume|intros _; apply Hf]. }
  destruct 1.
  - by apply code_sleep_resume.
  - apply (safe_quiet (yield_resume intena)). auto with quiet nocore.
  - assert (safe (trap_resume intena tf)) as Hs by (unfold trap_resume; solve_safe). apply Hs.
  - apply (safe_forkret first).
  - apply code_bind; [by apply code_sleep_resume|intros _; by apply code_wait_loop].
  - apply code_bind; [by apply code_sleep_resume|intros _; by apply code_waitx_loop].
  - apply Hsl. solve_safe.
  - apply Hsl. solve_safe.
  - apply Hsl. solve_safe.
  - apply Hsl. solve_safe.
  - apply Hsl. solve_safe.
  - apply Hsl. solve_safe.
Qed.

(** ** The scheduler *)

(** [dispatch] up to its [swtch], and from there on. *)
Definition enter (ci x : nat) : K unit := dispatch (λ _, swtch) ci x.
Definition leave (ci : nat) : K unit := switchkvm ;; upd_cpu ci (λ c, c <| c_proc := None |>).

(** The table and the processors between [c->proc = p] and [swtch]. *)
Lemma J_enter ci it n k x p k2 f :
  J ci None it n k → k_proc k !! x = Some p → p_state p = RUNNABLE →
  same_table (k <| k_cpus := alter (λ c, c <| c_proc := Some x |>) ci (k_cpus k) |>) k2 →
  (∀ q, p_state (f q) = RUNNING ∧ p_pid (f q) = p_pid q ∧ p_parent (f q) = p_parent q) →
  J ci (Some x) it n (k2 <| k_proc := alter f x (k_proc k2) |>).
Proof.
  intros [Ht Hnx Hit Hc Hcu Hpr] Hp Hs Hsame Hf. pose proof (cur_cpu_same _ _ Hsame) as Hcur.
  destruct Hsame as [He Hv Hl Hn Hi]. simpl in *.
  destruct (k_cpus k !! ci) as [c|] eqn:Hci; [|done]. simpl in Hpr. injection Hpr as Hpr.
  destruct (ess_lookup _ _ _ _ (eq_sym He) Hp) as (q & Hq & Heq).
  assert (p_state q = RUNNABLE) as Hqs by (unfold ess in Heq; congruence).
  destruct (Hf q) as (Hf1 & Hf2 & Hf3). apply Forall2_woke_ess in He. rewrite (alter_lookup _ _ _ _ Hq).
  assert (table_inv (k_proc k2) n (k_initproc k)) as Ht2 by by eapply table_inv_woke.
  assert (cpus_inv (k_proc k2) (k_cpus k) None) as Hc2 by by eapply cpus_inv_woke.
  split; simpl; [|congruence|congruence|..].
  - rewrite Hi. eapply (table_inv_alive _ _ _ x q (f q)); try done; unfold alive, waiting; rewrite ?Hqs, ?Hf1; try done.
    by intros [? _].
  - eapply (cpus_inv_woke _ _ _ _ _ (Forall2_woke_ess _ _ eq_refl) Hv).
    eapply (cpus_inv_enter _ _ ci c x q); try done. congruence.
  - etrans; [exact Hcur|]. rewrite <-Hcu. unfold cur_cpu. simpl.
    by rewrite (alter_lookup _ _ _ _ Hci), (find_first_insert_same _ _ c).
  - assert ((cview <$> k_cpus k2) !! ci = cview <$> Some (c <| c_proc := Some x |>)) as Hlk
      by by rewrite Hv, list_lookup_fmap, list_lookup_alter_eq, Hci.
    rewrite list_lookup_fmap in Hlk. destruct (k_cpus k2 !! ci); [|done]. simpl in *. unfold cview in Hlk.
    simpl in Hlk. congruence.
Qed.

Lemma enter_J ci it n k x p k' :
  J ci None it n k → k_proc k !! x = Some p → p_state p = RUNNABLE → enter ci x k = Switch k' →
  J ci (Some x) it n k'.
Proof.
  intros HJ Hp Hs. unfold enter, dispatch, bind at 1, upd_cpu at 1, modify at 1.
  set (k1 := k <| k_cpus := alter _ ci _ |>). unfold bind at 1.
  pose proof (quiet_switchuvm (Some x) k1) as Hq. unfold wpp in Hq.
  destruct (switchuvm (Some x) k1) as [[] k2| | | |]; try done.
  unfold bind, upd_proc, modify, swtch. intros [= <-].
  eapply (J_same _ _ _ _ (k2 <| k_proc := alter (λ q, q <| p_state := RUNNING |>) x (k_proc k2) |>));
    [split; try done; by apply fmap_alter_same|].
  by eapply (J_enter ci it n k x p k2).
Qed.

Lemma leave_J ci it n k k' : away ci it n k → leave ci k = Ret tt k' → J ci None it n k'.
Proof.
  intros [Ht Hn Hit Hc Hcur]. unfold leave, switchkvm, upd_cpu, bind, modify. intros [= <-].
  assert (∃ c, k_cpus k !! ci = Some c) as [c Hci].
  { unfold cur_cpu in Hcur. apply find_first_Some in Hcur as (c & ? & _). eauto. }
  split; simpl; [done|done|done|by apply cpus_inv_leave| |].
  - rewrite <-Hcur. unfold cur_cpu. simpl. by rewrite (alter_lookup _ _ _ _ Hci), (find_first_insert_same _ _ c).
  - by rewrite list_lookup_alter_eq, Hci.
Qed.

(** ** The machine *)

(** One step of processor [k_lapicid k], or a change of processor.
    - A trap runs to its end or to a [sched], and so does the start of the first
      process.  Both may take a new pid, which has to be below the largest [int].
    - The scheduler starts the process that its policy chooses.
    - A process that has been started goes on after its [swtch] with the rest [m]
      of the function it stopped in and with the rest [f] of its callers, which is
      any code of the kernel: [safe_syscalls] and [safe_trap_tail] show that the
      system calls and the end of the trap handler consist of it, and fork, which
      creates a process, does not sleep.
    - Any other piece of such code runs on its own.  So the code of a system call
      need not run in one step: between two pieces of it an interrupt may come and
      the other processors may take steps. *)
Inductive xv6_step (k k' : kernel) : Prop :=
  | step_trap dv tf :
      k_nextpid k < INT_MAX → trap dv tf k = Ret tt k' → xv6_step k k'
  | step_trap_switch dv tf ci k1 :
      k_nextpid k < INT_MAX → cur_cpu k = Some ci → trap dv tf k = Switch k1 →
      leave ci k1 = Ret tt k' → xv6_step k k'
  | step_userinit start size :
      k_nextpid k < INT_MAX → userinit start size k = Ret tt k' → xv6_step k k'
  | step_table ci c i p :
      cur_cpu k = Some ci → k_cpus k !! ci = Some c → c_proc c = None →
      k_proc k !! i = Some p → p_state p = RUNNABLE →
      enter ci (choose (k_policy k) (k_proc k) i p) k = Switch k' → xv6_step k k'
  | step_kernel ci c {A} (m : K A) a :
      cur_cpu k = Some ci → k_cpus k !! ci = Some c → kernel_code (c_proc c) (k_initproc k) m →
      m k = Ret a k' → xv6_step k k'
  | step_kernel_switch ci c {A} (m : K A) k1 :
      cur_cpu k = Some ci → k_cpus k !! ci = Some c → kernel_code (c_proc c) (k_initproc k) m →
      m k = Switch k1 → leave ci k1 = Ret tt k' → xv6_step k k'
  | step_resume ci c me {A B} (m : K A) (f : A → K B) b :
      cur_cpu k = Some ci → k_cpus k !! ci = Some c → c_proc c = Some me → resumption me m →
      (∀ a, kernel_code (Some me) (k_initproc k) (f a)) → bind m f k = Ret b k' → xv6_step k k'
  | step_resume_switch ci c me {A B} (m : K A) (f : A → K B) k1 :
      cur_cpu k = Some ci → k_cpus k !! ci = Some c → c_proc c = Some me → resumption me m →
      (∀ a, kernel_code (Some me) (k_initproc k) (f a)) → bind m f k = Switch k1 →
      leave ci k1 = Ret tt k' → xv6_step k k'
  | step_other_cpu a fl ci :
      k' = seen_by a fl k → cur_cpu k' = Some ci → xv6_step k k'.

(** The machine before the first process is made. *)
Record booted (k : kernel) : Prop := {
  bt_len : length (k_proc k) = NPROC;
  bt_proc : Forall (λ p, p_state p = UNUSED ∧ p_parent p = None) (k_proc k);
  bt_next : k_nextpid k = 1;
  bt_init : k_initproc k = None;
  bt_idle : Forall (λ c, c_proc c = None) (k_cpus k);
  bt_cur : is_Some (cur_cpu k)
}.

Definition J_any (k : kernel) : Prop := ∃ ci o it n, J ci o it n k.

Lemma booted_J k : booted k → J_any k.
Proof.
  intros [Hl Hp Hn Hi Hc [ci Hcur]].
  assert (∀ i p, k_proc k !! i = Some p → p_state p = UNUSED ∧ p_parent p = None) as Hpp
    by by apply Forall_lookup.
  assert (∀ i c, k_cpus k !! i = Some c → c_proc c = None) as Hcc by by apply Forall_lookup.
  exists ci, None, None, 1. split; [|done|done| |done|].
  - split; [done|done|..].
    + intros i p [? _]%Hpp. done.
    + intros i j p q [? _]%Hpp. done.
    + intros i p j [_ Hq]%Hpp. congruence.
    + by intros i p [_ ?]%Hpp.
    + by rewrite Hi.
    + intros i p j q [Hq _]%Hpp. congruence.
  - split.
    + intros c x i ?%Hcc. congruence.
    + intros c c' x x' i ?%Hcc. congruence.
    + intros i p [Hq _]%Hpp. congruence.
  - apply find_first_Some in Hcur as (c & Hci & _). rewrite Hci. simpl. f_equal. by eapply Hcc.
Qed.

Lemma J_current ci o it n k ci' c :
  J ci o it n k → cur_cpu k = Some ci' → k_cpus k !! ci' = Some c → J ci' (c_proc c) it n k.
Proof.
  intros HJ Hcur Hc. rewrite (j_cur _ _ _ _ _ HJ) in Hcur. simplify_eq.
  pose proof (j_proc _ _ _ _ _ HJ) as Hp. rewrite Hc in Hp. by simplify_eq/=.
Qed.

Lemma J_other_cpu ci o it n k a fl ci' :
  J ci o it n k → cur_cpu (seen_by a fl k) = Some ci' → J_any (seen_by a fl k).
Proof.
  intros [Ht Hn Hit Hc Hcur Hp] Ha. pose proof Ha as Hf. apply find_first_Some in Hf as (c & Hci & _).
  exists ci', (c_proc c), it, n. split; try done. simpl in *. by rewrite Hci.
Qed.

(** The code of the kernel, run by the current process or by an idle processor. *)
Lemma kernel_code_J {A} k ci c (m : K A) :
  J_any k → cur_cpu k = Some ci → k_cpus k !! ci = Some c → kernel_code (c_proc c) (k_initproc k) m →
  match m k with
  | Ret _ k' => J_any k'
  | Switch k1 => ∀ k', leave ci k1 = Ret tt k' → J_any k'
  | _ => True
  end.
Proof.
  intros (ci' & o & it & n & HJ) Hcur Hc Hm. pose proof (J_current _ _ _ _ _ _ _ HJ Hcur Hc) as HJ'.
  rewrite (j_init _ _ _ _ _ HJ) in Hm. pose proof (kernel_code_wpp _ _ _ Hm _ _ _ HJ') as Hw. unfold wpp in Hw.
  destruct (m k); [by eexists _, _, _, _| |done..]. intros k' Hl. eapply leave_J in Hl; [|done].
  by eexists _, _, _, _.
Qed.
Lemma code_resumed {A B} me it (m : K A) (f : A → K B) :
  resumption me m → (∀ a, kernel_code (Some me) it (f a)) → kernel_code (Some me) it (bind m f).
Proof. intros Hm. apply code_bind. by apply code_resumption. Qed.

Lemma xv6_step_J k k' : xv6_step k k' → J_any k → J_any k'.
Proof.
  intros Hs Hany. pose proof Hany as (ci & o & it & n & HJ). destruct Hs.
  - pose proof (safe1_trap dv tf ci o it n k HJ) as Hw. rewrite <-(j_next _ _ _ _ _ HJ) in Hw.
    specialize (Hw ltac:(done)). unfold wpp in Hw. rewrite H0 in Hw. destruct Hw; by eexists _, _, _, _.
  - pose proof (safe1_trap dv tf ci o it n k HJ) as Hw. rewrite <-(j_next _ _ _ _ _ HJ) in Hw.
    specialize (Hw ltac:(done)). unfold wpp in Hw. rewrite H1 in Hw.
    assert (ci0 = ci) as -> by (rewrite (j_cur _ _ _ _ _ HJ) in H0; congruence).
    destruct Hw as [Hw|Hw]; eapply leave_J in Hw; try done; by eexists _, _, _, _.
  - pose proof (wpp_userinit ci o it n k start size (λ _, True) HJ) as Hw.
    rewrite <-(j_next _ _ _ _ _ HJ) in Hw. specialize (Hw ltac:(done)). unfold wpp in Hw.
    rewrite H0 in Hw. destruct Hw as [i Hw]. by eexists _, _, _, _.
  - pose proof (J_current _ _ _ _ _ _ _ HJ H H0) as HJ'. rewrite H1 in HJ'.
    destruct (choose_runnable (k_policy k) (k_proc k) i p) as (q & Hq & Hqs); [done|done|].
    eapply enter_J in H4; [|done|done|done]. by eexists _, _, _, _.
  - pose proof (kernel_code_J _ _ _ _ Hany H H0 H1) as Hw. by rewrite H2 in Hw.
  - pose proof (kernel_code_J _ _ _ _ Hany H H0 H1) as Hw. rewrite H2 in Hw. by apply Hw.
  - pose proof (code_resumed _ _ _ _ H2 H3) as Hm. rewrite <-H1 in Hm.
    pose proof (kernel_code_J _ _ _ _ Hany H H0 Hm) as Hw. by rewrite H4 in Hw.
  - pose proof (code_resumed _ _ _ _ H2 H3) as Hm. rewrite <-H1 in Hm.
    pose proof (kernel_code_J _ _ _ _ Hany H H0 Hm) as Hw. rewrite H4 in Hw. by apply Hw.
  - subst k'. by eapply J_other_cpu.
Qed.

Lemma reachable_J k0 k : booted k0 → rtc xv6_step k0 k → J_any k.
Proof.
  intros Hb Hr. assert (J_any k0) as Hj by by apply booted_J. clear Hb.
  induction Hr as [|k1 k2 k3 Hs Hr IH]; [done|]. by eapply IH, xv6_step_J.
Qed.
