(* ===== verification/MainProc.v ===== *)
(** * MainProc: what the process table guarantees

    The results on process management in one place: the invariant of the table
    in every reachable state, and the exact effect of the operations on it. *)
From S2P Require Import Prelude.
From S2P Require Import Mem.
From S2P Require Import Str.
From S2P Require Import State.
From S2P Require Import Spin.
From S2P Require Import Boot.
From S2P Require Import Cons.
From S2P Require Import Kalloc.
From S2P Require Import Vm.
From S2P Require Import Frame.
From S2P Require Import VmSpec.
From S2P Require Import Mlq.
From S2P Require Import Proc.
From S2P Require Import ProcSpec.
From S2P Require Import ProcWait.
From S2P Require Import Sched.
From S2P Require Import SchedSpec.
From S2P Require Import Pipe.
From S2P Require Import Blk.
From S2P Require Import Bio.
From S2P Require Import Log.
From S2P Require Import Fs.
From S2P Require Import File.
From S2P Require Import Life.
From S2P Require Import ConsDev.
From S2P Require Import Syscall.
From S2P Require Import Sysfile.
From S2P Require Import Exec.
From S2P Require Import Trap.
From S2P Require Import Table.
From S2P Require Import Safe.
From S2P Require Import SafeCalls.
From S2P Require Import Reach.

(** ** The sample machines meet the hypotheses *)

Lemma sample_ready pol : table_ready (sample pol) 0 sample_cpu.
Proof. split; [apply sample_on_cpu|done|done]. Qed.

(** The machine before the first process, with its locks initialised, about to
    take the timer interrupt whose trap frame is at [tick_frame]. *)
Definition tick_frame : Z := 0x80200000.
Definition no_devices : devices := mkDevices [] [] 0.
Definition boot_sample : kernel :=
  bss DEFAULT <| k_locks := sys_locks |> <| k_mem := st32 ∅ (tick_frame + TF_TRAPNO) 32 |>.
Definition ticked : kernel :=
  match trap no_devices tick_frame boot_sample with
  | Ret _ k => k | _ => boot_sample
  end.

(** ** The invariant *)

(** C4: in every state the machine can reach from boot, by traps and system
    calls, dispatches, context switches, resumptions that run the rest of the
    interrupted system call, and pieces of kernel code, in any order and on any
    processor, the process table is well formed (pids of used entries distinct
    and below [nextpid], parents alive, no process waits while it has a zombie
    child) and the RUNNING processes are exactly the processors' current ones,
    each on one processor only.  The steps are those taken while [nextpid] is
    below the largest [int]: the code does not check that pids run out. *)
Theorem reachable_table k0 k :
  booted k0 → rtc xv6_step k0 k →
  table_inv (k_proc k) (k_nextpid k) (k_initproc k) ∧ cpus_inv (k_proc k) (k_cpus k) None.
Proof. intros Hb Hr. destruct (reachable_J k0 k Hb Hr) as (ci & o & it & n & [Ht <- _ Hc _ _]). done. Qed.

Lemma reachable_table_witness :
  k_ticks ticked = 1 ∧
  table_inv (k_proc ticked) (k_nextpid ticked) (k_initproc ticked) ∧ cpus_inv (k_proc ticked) (k_cpus ticked) None.
Proof.
  split; [vm_compute; reflexivity|].
  apply (reachable_table boot_sample).
  - split; [done| |done|done|by repeat constructor|by eexists].
    apply Forall_replicate. done.
  - apply rtc_once. apply (step_trap _ _ no_devices tick_frame); [done|]. vm_compute. reflexivity.
Defined.

Lemma sample_lookup pol m fl i p :
  k_proc (sample_with pol m fl) !! i = Some p →
  (i = 0%nat ∧ p = sample_proc 1 RUNNING None) ∨ (i = 1%nat ∧ p = sample_proc 2 RUNNABLE (Some 0%nat)) ∨
  (i = 2%nat ∧ p = sample_proc 3 ZOMBIE (Some 0%nat)) ∨ p = zero_proc.
Proof.
  change (k_proc (sample_with pol m fl)) with sample_procs. unfold sample_procs.
  destruct i as [|[|[|i]]]; cbn [app lookup list_lookup]; intros Hi; [naive_solver..|].
  apply lookup_replicate in Hi as [-> _]. auto.
Qed.
Lemma sample_table pol m fl : table_inv (k_proc (sample_with pol m fl)) (k_nextpid (sample_with pol m fl)) (k_initproc (sample_with pol m fl)).
Proof.
  assert (Hl := sample_lookup pol m fl). split; [done|done|..].
  - intros i p [[_ ->]|[[_ ->]|[[_ ->]| ->]]]%Hl; simpl; (done || lia).
  - intros i j p q [[-> ->]|[[-> ->]|[[-> ->]| ->]]]%Hl [[-> ->]|[[-> ->]|[[-> ->]| ->]]]%Hl; simpl; done.
  - intros i p j [[-> ->]|[[-> ->]|[[-> ->]| ->]]]%Hl [= <-]; (split; [done|]); by eexists.
  - intros i p [[_ ->]|[[_ ->]|[[_ ->]| ->]]]%Hl; done.
  - intros j [= <-]. eexists. split; [done|]. done.
  - intros i p j q [[_ ->]|[[_ ->]|[[_ ->]| ->]]]%Hl; done.
Qed.
Lemma sample_cpus pol m fl : cpus_inv (k_proc (sample_with pol m fl)) (k_cpus (sample_with pol m fl)) None.
Proof.
  assert (Hl := sample_lookup pol m fl).
  assert (Hc : ∀ c x, k_cpus (sample_with pol m fl) !! c = Some x → c = 0%nat ∧ x = sample_cpu).
  { intros [|c] x; simpl; [by intros [= <-]|done]. }
  split.
  - intros c x i [-> ->]%Hc [= <-] _. by eexists.
  - intros c c' x x' i [-> ->]%Hc [-> ->]%Hc. done.
  - intros i p [[-> ->]|[[_ ->]|[[_ ->]| ->]]]%Hl; try done. intros _. by exists 0%nat, sample_cpu.
Qed.

(** C5: one entry of the kernel, whatever the trap, the system call and its
    arguments, leads from a well-formed table to a well-formed table: when it
    returns or is spinning on a lock the invariant holds, and when it gives up
    the processor it holds with the exception of that processor's current
    process.  [nextpid] has to be below the largest [int] before. *)
Theorem trap_keeps_table dv tf k ci c :
  table_inv (k_proc k) (k_nextpid k) (k_initproc k) → cpus_inv (k_proc k) (k_cpus k) None →
  cur_cpu k = Some ci → k_cpus k !! ci = Some c → k_nextpid k < INT_MAX →
  match trap dv tf k with
  | Ret _ k' | Spin k' =>
      table_inv (k_proc k') (k_nextpid k') (k_initproc k') ∧ cpus_inv (k_proc k') (k_cpus k') None
  | Switch k' =>
      table_inv (k_proc k') (k_nextpid k') (k_initproc k') ∧ cpus_inv (k_proc k') (k_cpus k') (Some ci)
  | Panic _ | Fault _ => True
  end.
Proof.
  intros Ht Hc Hcur Hci Hn.
  assert (J ci (c_proc c) (k_initproc k) (k_nextpid k) k) as HJ by (split; try done; by rewrite Hci).
  pose proof (safe1_trap dv tf _ _ _ _ _ HJ Hn) as Hw. unfold wpp in Hw.
  destruct (trap dv tf k) as [[] k'|k'|k'| |]; [| | |done|done];
    destruct Hw as [[Ht' Hn' _ Hc' _]|[Ht' Hn' _ Hc' _]]; by rewrite Hn'.
Qed.

(** The witness traps with a timer interrupt while process 0 runs. *)
Lemma trap_keeps_table_witness :
  let k := sample_with MLFQ (st32 ∅ (tick_frame + TF_TRAPNO) 32) 0 in
  match trap no_devices tick_frame k with
  | Ret _ k' | Spin k' =>
      table_inv (k_proc k') (k_nextpid k') (k_initproc k') ∧ cpus_inv (k_proc k') (k_cpus k') None
  | Switch k' =>
      table_inv (k_proc k') (k_nextpid k') (k_initproc k') ∧ cpus_inv (k_proc k') (k_cpus k') (Some 0%nat)
  | Panic _ | Fault _ => False
  end.
Proof.
  intros k.
  assert (H1 : table_inv (k_proc k) (k_nextpid k) (k_initproc k)) by apply sample_table.
  assert (H2 : cpus_inv (k_proc k) (k_cpus k) None) by apply sample_cpus.
  assert (H3 : cur_cpu k = Some 0%nat) by reflexivity.
  assert (H4 : k_cpus k !! 0%nat = Some sample_cpu) by reflexivity.
  assert (H5 : k_nextpid k < INT_MAX) by reflexivity.
  pose proof (trap_keeps_table no_devices tick_frame k 0 sample_cpu H1 H2 H3 H4 H5) as H.
  assert (match trap no_devices tick_frame k with Panic _ | Fault _ => false | _ => true end = true) as E
    by (vm_compute; reflexivity).
  revert H E. by destruct (trap no_devices tick_frame k).
Defined.

(** ** Exit and wait *)

(** C25: the locked half of [exit] ends in the scheduler with the table's lock
    held and, besides that lock, only the table changed.  Every entry of the
    table is then exactly what it was, but for this: the exiting process is a
    zombie with its end time set; every child of it belongs to init; a process
    that slept on the parent's entry is runnable, and so is one that slept on
    init's when init inherits a zombie. *)
Theorem exit_effect k i c me p :
  table_ready k i c → c_ncli c = 0 → c_proc c = Some me → k_proc k !! me = Some p →
  ∃ ps', exit_ptable me k = Switch (locked_by LPtable i c (k <| k_proc := ps' |>)) ∧ length ps' = NPROC ∧
    ∀ j q, k_proc k !! j = Some q → ps' !! j = Some (
      let woken := roused me (k_initproc k) p (k_proc k) q in
      q <| p_parent := if bool_decide (p_parent q = Some me) then k_initproc k else p_parent q |>
        <| p_state := if bool_decide (j = me) then ZOMBIE else if woken then RUNNABLE else p_state q |>
        <| p_start := if woken then s32 (k_ticks k) else p_start q |>
        <| p_etime := if bool_decide (j = me) then s32 (k_ticks k) else p_etime q |>).
Proof.
  intros Hr Hn Hme Hp. exists (exited me (k_initproc k) (k_ticks k) p (k_proc k)).
  split; [by apply exit_ptable_switch|]. split; [rewrite length_exited; apply Hr|].
  intros j q Hq. by apply exited_entry.
Qed.

(** The child of the sample exits while its parent waits for it. *)
Definition waiting_parent : proc := sample_proc 1 SLEEPING None <| p_chan := Some (ChProc 0) |>.
Definition exit_cpu : cpu := sample_cpu <| c_proc := Some 1%nat |>.
Definition exit_sample : kernel := sample DEFAULT <| k_cpus := [exit_cpu] |>
  <| k_proc := <[0%nat := waiting_parent]> (<[1%nat := sample_proc 2 RUNNING (Some 0%nat)]> sample_procs) |>.
Lemma exit_effect_witness :
  ∃ ps', exit_ptable 1 exit_sample = Switch (locked_by LPtable 0 exit_cpu (exit_sample <| k_proc := ps' |>)) ∧
    (p_state <$> ps' !! 0%nat) = Some RUNNABLE ∧ (p_state <$> ps' !! 1%nat) = Some ZOMBIE.
Proof.
  destruct (exit_effect exit_sample 0 exit_cpu 1 (sample_proc 2 RUNNING (Some 0%nat)))
    as (ps' & H & _ & Hps); [split; [by split|done|done]|reflexivity..|].
  exists ps'. split; [exact H|]. split.
  - rewrite (Hps 0%nat waiting_parent eq_refl). reflexivity.
  - rewrite (Hps 1%nat (sample_proc 2 RUNNING (Some 0%nat)) eq_refl). reflexivity.
Defined.

(** [wait] when no child is a zombie: with no child at all, or killed, it
    returns -1 and changes nothing; otherwise it goes to sleep on its own entry
    with the table's lock held, so that no [exit] of a child can come between
    the scan and the sleep. *)
Theorem wait_no_zombie k i c me p :
  table_ready k i c → c_ncli c = 0 → c_proc c = Some me → k_proc k !! me = Some p →
  (∀ q, q ∈ k_proc k → zombie_child me q = false) →
  wait k =
  if negb (existsb (λ q, bool_decide (p_parent q = Some me)) (k_proc k)) || truthy (p_killed p)
  then Ret (-1) k
  else Switch (locked_by LPtable i c (k <| k_proc := <[me := asleep (ChProc me) p]> (k_proc k) |>)).
Proof.
  intros Hr Hn Hme Hp Hz. pose proof (scan_children_spec me (k_proc k) 0 false) as Hs.
  destruct (scan_children me (k_proc k) 0 false) as [[j|] h] eqn:E.
  - destruct Hs as (n & q & _ & Hq & Hzq & _). rewrite Hz in Hzq; [done|]. by eapply list_elem_of_lookup_2.
  - destruct Hs as [_ Hh]. rewrite orb_false_l in Hh. rewrite <-Hh.
    destruct h; simpl.
    + destruct (truthy (p_killed p)) eqn:Hk.
      * eapply wait_none; [done|done|done|done|]. right. by apply truthy_true.
      * eapply wait_sleeps; try done. by apply truthy_false.
    + eapply wait_none; [done|done|done|done|]. by left.
Qed.

(** A process with no children. *)
Lemma wait_no_zombie_witness :
  wait (sample DEFAULT <| k_proc := sample_proc 1 RUNNING None :: replicate 63 zero_proc |>) =
  Ret (-1) (sample DEFAULT <| k_proc := sample_proc 1 RUNNING None :: replicate 63 zero_proc |>).
Proof.
  rewrite (wait_no_zombie (sample DEFAULT <| k_proc := sample_proc 1 RUNNING None :: replicate 63 zero_proc |>)
    0 sample_cpu 0 (sample_proc 1 RUNNING None)); [reflexivity| |reflexivity|reflexivity|reflexivity|].
  - split; [by split|done|done].
  - intros q [->|Hq]%elem_of_cons; [done|]. apply elem_of_replicate in Hq as [-> _]. done.
Defined.

(** C26: [wait] reaps the first zombie child of the table: it returns its pid,
    its entry is unused again with name, pid, parent and killed flag cleared,
    exactly its pages (kernel stack, page tables and user frames) are back on
    the free list, and no other entry of the table has changed.  Under MLFQ, if
    its queue holds no entry twice and no other process with its pid, that queue
    is the old one without it and the other queues are unchanged; under the
    other policies no queue changes. *)
Theorem wait_reaps k i c l me j p :
  table_ready k i c → c_proc c = Some me → k_use_lock k = 0 ∨ lock_free LKmem k →
  k_proc k !! j = Some p → zombie_child me p = true →
  (∀ n q, (n < j)%nat → k_proc k !! n = Some q → zombie_child me q = false) →
  kmem_inv k l → owns_memory k l p → in_queue k j p →
  ∃ k', wait k = Ret (p_pid p) k' ∧ k_proc k' = <[j := freed p]> (k_proc k) ∧ dequeued k j p k' ∧
    (∃ vs, kmem_inv k' (vs ++ l) ∧ ∀ v, v ∈ vs ↔ proc_page k p v) ∧
    k_cpus k' = k_cpus k ∧ k_eflags k' = k_eflags k ∧ k_locks k' = k_locks k.
Proof.
  intros Hr Hme Hu Hp Hz Hfirst Hi Ho Hq. pose proof (scan_children_spec me (k_proc k) 0 false) as Hs.
  destruct (scan_children me (k_proc k) 0 false) as [[j'|] h] eqn:E.
  - destruct Hs as (n & q & -> & Hn & Hzn & Hbefore & _). simpl in E.
    assert (n = j) as ->.
    { destruct (Nat.lt_trichotomy n j) as [Hlt|[?|Hlt]]; [|done|].
      - by rewrite (Hfirst n q Hlt Hn) in Hzn.
      - by rewrite (Hbefore j p Hlt Hp) in Hz. }
    destruct (wait_zombie k i c l me j h p Hr Hme Hu E Hp Hi Ho Hq) as (k' & Hw & []). eauto 10.
  - destruct Hs as [Hn _]. rewrite Hn in Hz; [done|]. by eapply list_elem_of_lookup_2.
Qed.

(** The zombie child owns a kernel stack and an empty address space. *)
Definition zombie_sample : proc :=
  sample_proc 3 ZOMBIE (Some 0%nat) <| p_kstack := 0x80200000 |> <| p_pgdir := 0x80201000 |>.
Definition reap_sample : kernel := sample MLFQ <| k_proc := <[2%nat := zombie_sample]> sample_procs |>.

Lemma wait_reaps_witness :
  ∃ k', wait reap_sample = Ret 3 k' ∧ k_proc k' = <[2%nat := freed zombie_sample]> (k_proc reap_sample) ∧
    dequeued reap_sample 2 zombie_sample k'.
Proof.
  destruct (wait_reaps reap_sample 0 sample_cpu [] 0 2 zombie_sample) as (k' & H & Hp & Hd & _).
  - split; [by split|done|done].
  - reflexivity.
  - by left.
  - reflexivity.
  - reflexivity.
  - intros [|[|n]] q Hn; [by intros [= <-]..|lia].
  - split; [apply mem_ok_empty|done|constructor|constructor].
  - split; simpl.
    + by split.
    + by apply not_elem_of_nil.
    + apply space_ok_empty; [done|by split|by apply not_elem_of_nil].
    + intros Hpt%pt_page_empty. discriminate.
    + intros va fl _. by rewrite frame_of_empty.
  - intros _. exists 0%nat, (mkMlq ([Some 0; Some 1; Some 2]%nat ++ replicate 61 None) 2).
    split_and!; [done|lia|done|by split| | |].
    + repeat constructor; eexists _, _; done.
    + change (NoDup (Some <$> [0; 1; 2]%nat)). apply NoDup_fmap_2; [apply _|]. repeat constructor; set_solver.
    + change (∀ x r, Some x ∈ (Some <$> [0; 1; 2]%nat) → k_proc reap_sample !! x = Some r → p_pid r = 3 → x = 2%nat).
      intros x r (y & [= ->] & Hx)%list_elem_of_fmap. revert Hx. rewrite !elem_of_cons.
      intros [->|[->|[->|[]%not_elem_of_nil]]] [= <-]; done.
  - exists k'. split; [exact H|]. split; [exact Hp|exact Hd].
Defined.

(** ** Sleep and wakeup *)

(** C24: [sleep] loses no wakeup.  A process holds [lk] on processor [i] and goes
    to sleep on [ch]; another processor [j] takes [lk] and wakes up [ch].
    Wherever the process is between two statements of [sleep], the other
    processor waits for a lock: it cannot look at the table before the process is
    in it.  [sleep] reaches the scheduler with [lk] released, the table's lock
    held, the process asleep on the channel and the other entries unchanged; once
    the scheduler releases the table's lock, the wakeup makes the process
    runnable. *)
Theorem sleep_no_lost_wakeup ch lk k i c me p a fl j cj :
  on_cpu k i c → c_ncli c = 1 → c_proc c = Some me → k_proc k !! me = Some p → length (k_proc k) = NPROC →
  lk ≠ LPtable → k_locks k !! lk = Some (held i) → lock_free LPtable k →
  j ≠ i → on_cpu (seen_by a fl k) j cj →
  (∀ n, ∃ kn s, for_each (take n (sleep_steps me ch lk)) id k = Ret tt kn ∧
     (acquire lk ;; wakeup ch) (seen_by a fl kn) = Spin s) ∧
  ∃ k', sleep ch lk k = Switch k' ∧
    k_locks k' !! lk = Some unlocked ∧ k_locks k' !! LPtable = Some (held i) ∧
    k_proc k' !! me = Some (asleep ch p) ∧ (∀ x, x ≠ me → k_proc k' !! x = k_proc k !! x) ∧
    ∃ k'' q, (acquire lk ;; wakeup ch ;; release lk)
        (seen_by a fl (k' <| k_locks := <[LPtable := unlocked]> (k_locks k') |>)) = Ret tt k'' ∧
      k_proc k'' !! me = Some q ∧ p_state q = RUNNABLE.
Proof.
  intros Hoc Hn Hme Hp Hlen Hne Hl Hf Hji Hj. assert (me < length (k_proc k))%nat by by eapply lookup_lt_Some.
  split.
  { intros n. destruct (waker_waits a fl n i c me p ch lk k j cj) as [s Hs]; [done..|].
    eexists _, s. split; [by apply sleep_steps_ret|exact Hs]. }
  eexists. split; [by eapply sleep_switch|]. split_and!.
  - simpl. rewrite lookup_insert_ne by done. apply lookup_insert_eq.
  - simpl. apply lookup_insert_eq.
  - simpl. by apply list_lookup_insert_eq.
  - simpl. intros x Hx. by rewrite list_lookup_insert_ne.
  - eapply (waker_wakes ch lk _ j cj me (asleep ch p)); try done.
    + by eapply on_cpu_ext.
    + unfold lock_free. simpl. by rewrite lookup_insert_eq.
    + unfold lock_free. simpl. do 2 rewrite lookup_insert_ne by done. apply lookup_insert_eq.
    + simpl. by rewrite length_insert.
    + simpl. by apply list_lookup_insert_eq.
Qed.

(** Two processors. *)
Definition two_cpus : kernel :=
  sample DEFAULT <| k_cpus := [sample_cpu; sample_cpu <| c_apicid := 1 |> <| c_proc := None |>] |>.
Lemma sleep_no_lost_wakeup_witness :
  let k := locked_by LTicks 0 sample_cpu two_cpus in
  (∀ n, ∃ kn s, for_each (take n (sleep_steps 0 ChTicks LTicks)) id k = Ret tt kn ∧
     (acquire LTicks ;; wakeup ChTicks) (seen_by 1 FL_IF kn) = Spin s) ∧
  ∃ k', sleep ChTicks LTicks k = Switch k' ∧ k_locks k' !! LTicks = Some unlocked.
Proof.
  intros k. destruct (sleep_no_lost_wakeup ChTicks LTicks k 0 (sample_cpu <| c_ncli := 1 |>) 0 (sample_proc 1 RUNNING None)
    1 FL_IF 1 (sample_cpu <| c_apicid := 1 |> <| c_proc := None |>))
    as (Hn & k' & H & Hl & _);
    [|reflexivity|reflexivity|reflexivity|reflexivity|discriminate|reflexivity|reflexivity|discriminate| |].
  - by split.
  - by split.
  - split; [exact Hn|]. exists k'. split; [exact H|exact Hl].
Defined.

(** [wakeup] makes every process asleep on the channel runnable, with the
    tick it became ready, changes no other entry, and leaves the lock, the
    interrupt flag and the rest of the machine as they were. *)
Theorem wakeup_exact ch k i c :
  table_ready k i c →
  ∃ ps', wakeup ch k = Ret tt (k <| k_proc := ps' |>) ∧ length ps' = length (k_proc k) ∧
    ∀ j p, k_proc k !! j = Some p →
      ps' !! j = Some (if bool_decide (p_state p = SLEEPING ∧ p_chan p = Some ch)
                       then p <| p_state := RUNNABLE |> <| p_start := s32 (k_ticks k) |> else p).
Proof.
  intros Hr. eexists. split; [by eapply wakeup_ret|]. split; [by rewrite length_fmap|]. intros j p Hp.
  rewrite list_lookup_fmap, Hp. simpl. unfold wake. by rewrite bool_decide_and.
Qed.

Lemma wakeup_exact_witness :
  ∃ ps', wakeup ChTicks (sample DEFAULT <| k_proc := <[1%nat := asleep ChTicks (sample_proc 2 RUNNING None)]> sample_procs |>) =
    Ret tt (sample DEFAULT <| k_proc := ps' |>) ∧ p_state <$> ps' !! 1%nat = Some RUNNABLE.
Proof.
  destruct (wakeup_exact ChTicks
    (sample DEFAULT <| k_proc := <[1%nat := asleep ChTicks (sample_proc 2 RUNNING None)]> sample_procs |>) 0 sample_cpu)
    as (ps' & H & _ & Hj); [split; [by split|done|done]|].
  exists ps'. split; [exact H|]. rewrite (Hj 1%nat (asleep ChTicks (sample_proc 2 RUNNING None)) eq_refl). reflexivity.
Defined.

(** ** Creating a process *)

(** [allocproc] with a free entry [j] and room in [q0].  Out of memory it
    returns null and frees the entry, but the pid is spent and the entry stays
    in [q0].  Otherwise entry [j] is an EMBRYO with the next pid, a kernel
    stack of its own holding the frame that makes it start in [forkret] and
    return to [trapret], zeroed counters, the creation time and the default
    priority, and it is the last entry of [q0]. *)
Theorem allocproc_effect k i c j p m :
  table_ready k i c → kmem_ready k → find_first is_unused (k_proc k) = Some j → k_proc k !! j = Some p →
  k_queue k !! 0%nat = Some m → mlq_ok m → q_c m + 1 < Z.of_nat NQUEUE →
  let kst := k_freelist k in
  ∃ k' m' q, allocproc k = Ret (if kst =? 0 then None else Some j) k' ∧
    k_nextpid k' = s32 (k_nextpid k + 1) ∧
    k_queue k' = <[0%nat := m']> (k_queue k) ∧ live m' = live m ++ [Some j] ∧
    k_proc k' = <[j := q]> (k_proc k) ∧ p_pid q = k_nextpid k ∧ p_kstack q = kst ∧
    if kst =? 0 then p_state q = UNUSED ∧ k_mem k' = k_mem k
    else p_state q = EMBRYO ∧ p_ctime q = s32 (k_ticks k) ∧ p_current_queue q = 0 ∧
      p_ticks q = [0; 0; 0; 0; 0] ∧ p_num_run q = 0 ∧
      p_priority q = (if (p_pid q =? 1) || (p_pid q =? 2) then 1 else 60) ∧
      p_tf q = kst + KSTACKSIZE - TF_SIZE ∧ k_freelist k' = ld32 (k_mem k) kst ∧
      ld32 (k_mem k') (p_context q + CTX_EIP) = u32 (k_forkret k) ∧
      ld32 (k_mem k') (p_tf q - 4) = u32 (k_trapret k) ∧
      ∀ a, (a < p_context q ∨ p_tf q ≤ a) → ld8 (k_mem k') a = ld8 (k_mem k) a.
Proof.
  intros Hr Hk Hj Hp Hm Hok Hroom kst. destruct (push_ok j m Hok Hroom) as (m' & Hpush & _ & Hlive & _).
  pose proof (allocproc_ret k i c j p m m' Hr Hk Hj Hp Hm Hpush) as Ha. fold kst in Ha.
  destruct (kst =? 0) eqn:Hz.
  - eexists _, m', _. split; [exact Ha|]. simpl. apply Z.eqb_eq in Hz. by split_and!.
  - eexists _, m', _. split; [exact Ha|]. simpl. fold kst. unfold framed_mem, CONTEXT_SIZE, CTX_EIP, TF_SIZE, KSTACKSIZE.
    split_and!; try done.
    + by rewrite ld32_st32_eq.
    + change (p_tf _) with (kst + 4096 - 76). rewrite ld32_st32_ne by lia. erewrite ld32_ext; [apply ld32_st32_eq|].
      intros b Hb. rewrite ld8_memset by lia. rewrite decide_False; [done|lia].
    + intros a. change (p_tf _) with (kst + 4096 - 76). change (p_context _) with (kst + 4096 - 76 - 4 - 20).
      intros Ha'. rewrite ld8_st32_out by lia. rewrite ld8_memset by lia.
      rewrite decide_False by lia. by rewrite ld8_st32_out by lia.
Qed.

(** Two pages are on the free list; entry 3 is the first unused one. *)
Definition alloc_sample : kernel :=
  sample_with MLFQ (st32 ∅ 0x80300000 0x80301000) FL_IF <| k_freelist := 0x80300000 |>.

Lemma allocproc_effect_witness :
  ∃ k' m' q, allocproc alloc_sample = Ret (Some 3%nat) k' ∧
    k_queue k' = <[0%nat := m']> (k_queue alloc_sample) ∧ live m' = Some <$> [0; 1; 2; 3]%nat ∧
    k_proc k' = <[3%nat := q]> (k_proc alloc_sample) ∧ p_pid q = 4 ∧ k_freelist k' = 0x80301000.
Proof.
  destruct (allocproc_effect alloc_sample 0 sample_cpu 3 zero_proc
    (mkMlq ([Some 0; Some 1; Some 2]%nat ++ replicate 61 None) 2))
    as (k' & m' & q & H & _ & Hq & Hl & Hp & Hpid & _ & _ & _ & _ & _ & _ & _ & _ & Hfl & _);
    [split; [by split|done|done]|by left|reflexivity|reflexivity|reflexivity|by split|reflexivity|].
  exists k', m', q. split_and!; [exact H|exact Hq|exact Hl|exact Hp|exact Hpid|]. rewrite Hfl. vm_compute. reflexivity.
Defined.

(** ** Operations by pid *)

(** [kill] marks the first entry with the pid, whatever its state, and wakes
    it if it is asleep; it returns 0, or -1 and no change when there is none. *)
Theorem kill_effect pid k i c :
  table_ready k i c →
  match find_first (λ p, p_pid p =? pid) (k_proc k) with
  | None => kill pid k = Ret (-1) k
  | Some j => ∃ p q, kill pid k = Ret 0 (k <| k_proc := <[j := q]> (k_proc k) |>) ∧
      k_proc k !! j = Some p ∧ p_pid p = pid ∧ p_killed q = 1 ∧ p_pid q = pid ∧ p_parent q = p_parent p ∧
      p_state q = (if bool_decide (p_state p = SLEEPING) then RUNNABLE else p_state p)
  end.
Proof.
  intros Hr. pose proof (kill_ret pid k i c Hr) as Hk.
  destruct (find_first _ (k_proc k)) as [j|] eqn:Hj; [|done].
  apply find_first_Some in Hj as (p & Hp & Hpid & _). apply Z.eqb_eq in Hpid.
  exists p, (killed (k_ticks k) p). rewrite (alter_lookup _ _ _ _ Hp) in Hk. split; [done|].
  unfold killed. simpl. destruct (bool_decide (p_state p = SLEEPING)); simpl; done.
Qed.

Lemma kill_effect_witness :
  ∃ p q, kill 2 (sample DEFAULT) = Ret 0 (sample DEFAULT <| k_proc := <[1%nat := q]> sample_procs |>) ∧
    sample_procs !! 1%nat = Some p ∧ p_killed q = 1.
Proof.
  destruct (kill_effect 2 (sample DEFAULT) 0 sample_cpu (sample_ready DEFAULT)) as (p & q & H & Hp & _ & Hq & _).
  exists p, q. split_and!; [exact H|exact Hp|exact Hq].
Defined.

(** [set_priority] rejects a priority outside 0..100 with -2 and a pid that
    no entry has with -1, changing nothing; otherwise it returns 24 and changes
    the priority of the first entry with that pid, and nothing else. *)
Theorem set_priority_effect pid priority k i c :
  table_ready k i c → Z.land (k_eflags k) FL_IF ≠ 0 →
  ∃ r ps', set_priority pid priority k = Ret r (k <| k_proc := ps' |>) ∧
    (r = -2 ∧ ps' = k_proc k ∧ ~ (0 ≤ priority ≤ 100) ∨
     r = -1 ∧ ps' = k_proc k ∧ 0 ≤ priority ≤ 100 ∧ (∀ p, p ∈ k_proc k → p_pid p ≠ pid) ∨
     r = 24 ∧ 0 ≤ priority ≤ 100 ∧ ∃ j p, k_proc k !! j = Some p ∧ p_pid p = pid ∧
       (∀ n q, (n < j)%nat → k_proc k !! n = Some q → p_pid q ≠ pid) ∧
       ps' = <[j := p <| p_priority := priority |>]> (k_proc k)).
Proof.
  intros Hr Hf. rewrite (set_priority_ret _ _ _ _ _ Hr Hf).
  assert (k = k <| k_proc := k_proc k |>) as Hk by by destruct k.
  destruct ((priority <? 0) || (100 <? priority)) eqn:Hp.
  { exists (-2), (k_proc k). rewrite <-Hk. split; [done|]. left. split_and!; [done|done|lia]. }
  assert (0 ≤ priority ≤ 100) as Hrange by lia.
  destruct (find_first _ (k_proc k)) as [j|] eqn:Hj.
  - apply find_first_Some in Hj as (p & Hpj & Hpid & Hb). apply Z.eqb_eq in Hpid.
    eexists 24, _. rewrite (alter_lookup _ _ _ _ Hpj). split; [done|]. right. right. split; [done|]. split; [done|].
    exists j, p. split_and!; try done. intros n q Hn Hq. by apply Z.eqb_neq, (Hb n q).
  - exists (-1), (k_proc k). rewrite <-Hk. split; [done|]. right. left. split_and!; [done|done|lia|lia|].
    intros p Hin. apply Z.eqb_neq. by eapply find_first_None in Hj.
Qed.

Lemma set_priority_effect_witness :
  ∃ r ps', set_priority 2 7 (sample PRIORITY) = Ret r (sample PRIORITY <| k_proc := ps' |>) ∧
    (r = 24 → p_priority <$> ps' !! 1%nat = Some 7).
Proof.
  destruct (set_priority_effect 2 7 (sample PRIORITY) 0 sample_cpu (sample_ready PRIORITY)) as (r & ps' & H & Hor);
    [discriminate|]. exists r, ps'. split; [exact H|]. intros ->.
  destruct Hor as [[? _]|[[? _]|(_ & _ & j & p & Hj & Hp & Hb & ->)]]; [done|done|].
  apply sample_lookup in Hj as [[-> ->]|[[-> ->]|[[-> ->]| ->]]]; done.
Defined.
