(* ===== verification/BioSpec.v ===== *)
(** * BioSpec: the buffer cache

    [bc_inv] is the invariant of the cache: the LRU list is a circular doubly
    linked list of all the buffers, no block is in two buffers, and a buffer
    that is valid and not dirty has the contents of its block on the disk.
    [bread], [bwrite] and [brelse] are specified against it. *)
From S2P Require Import Prelude.
From S2P Require Import Mem.
From S2P Require Import Str.
From S2P Require Import State.
From S2P Require Import Spin.
From S2P Require Import Cons.
From S2P Require Import Kalloc.
From S2P Require Import Vm.
From S2P Require Import Frame.
From S2P Require Import VmSpec.
From S2P Require Import Mlq.
From S2P Require Import Proc.
From S2P Require Import ProcSpec.
From S2P Require Import ProcWait.
From S2P Require Import Blk.
From S2P Require Import Bio.

(** ** Sleep locks *)

(** Processor [i] executes process [me] with no lock the cache needs taken. *)
Record bio_env (i : nat) (c : cpu) (me : nat) (pid : Z) (k : kernel) : Prop := {
  be_cpu : on_cpu k i c;
  be_proc : c_proc c = Some me;
  be_pid : p_pid <$> k_proc k !! me = Some pid;
  be_len : length (k_proc k) = NPROC;
  be_bcache : lock_free LBcache k;
  be_ptable : lock_free LPtable k;
  be_bufs b : (b < NBUF)%nat → lock_free (LBuf b) k
}.

(** What an operation of the cache may change. *)
Record bio_step (k k' : kernel) : Prop := {
  bs_frame : k' = k <| k_bcache := k_bcache k' |> <| k_slocks := k_slocks k' |>
                    <| k_proc := k_proc k' |> <| k_disk := k_disk k' |> <| k_writes := k_writes k' |>;
  bs_pids : p_pid <$> k_proc k' = p_pid <$> k_proc k;
  bs_inodes j : k_slocks k' !! LInode j = k_slocks k !! LInode j
}.
#[export] Instance bio_step_preorder : PreOrder bio_step.
Proof.
  split.
  - intros k. split; [by destruct k|done|done].
  - intros k1 k2 k3 [H1 P1 I1] [H2 P2 I2]. split; [|congruence|intros j; by rewrite I2]. rewrite H2, H1. done.
Qed.

Lemma bio_env_step i c me pid k k' : bio_step k k' → bio_env i c me pid k → bio_env i c me pid k'.
Proof.
  intros [Hf Hp _] [Hcpu Hpr Hpid Hlen Hbc Hpt Hb]. rewrite Hf. split; try done; simpl.
  - by eapply on_cpu_ext.
  - by rewrite <-list_lookup_fmap, Hp, list_lookup_fmap.
  - by rewrite <-(length_fmap p_pid), Hp, length_fmap.
Qed.

Lemma my_pid_ret k i c me pid :
  on_cpu k i c → c_proc c = Some me → p_pid <$> k_proc k !! me = Some pid → my_pid k = Ret pid k.
Proof.
  intros Hoc Hme Hp. unfold my_pid. erewrite bind_ret_eq by by eapply curproc_ret.
  unfold get_proc, bind, gets. destruct (k_proc k !! me); by simplify_eq/=.
Qed.

Section sleeplocks.
Context (i : nat) (c : cpu) (me : nat) (pid : Z) (k : kernel) (l : lockid).
Context (Henv : bio_env i c me pid k) (Hfree : lock_free l k) (Hpt' : l ≠ LPtable).

Lemma acquiresleep_free s :
  k_slocks k !! l = Some s → sl_locked s = 0 →
  acquiresleep l k = Ret tt (k <| k_slocks := <[l := mkSleeplock 1 pid]> (k_slocks k) |>).
Proof.
  intros Hs Hl. pose proof Henv as [Hcpu Hpr Hpid Hlen Hbc Hpt Hbf]. unfold acquiresleep.
  erewrite bind_ret_eq by by apply acquire_ret. unfold acquiresleep_loop.
  unfold get_slock at 1, bind at 1 2, gets at 1. simpl. rewrite Hs. simpl. rewrite Hl. simpl.
  unfold set_slock at 1, bind at 1, modify at 1. 
  erewrite bind_ret_eq.
  2: { eapply (my_pid_ret _ i (c <| c_ncli := c_ncli c + 1 |>)); [|done|done].
       eapply on_cpu_ext; [by apply (on_cpu_locked l k i c)|done..]. }
  unfold get_slock, bind at 1 2, gets. simpl. rewrite lookup_insert_eq. simpl.
  unfold set_slock, bind at 1, modify. simpl. rewrite insert_insert_eq.
  rewrite (release_ret l k i c); [by destruct k|done|done|done..].
Qed.

(** A lock that is taken: the process goes to sleep on it. *)
Lemma acquiresleep_busy s p :
  c_ncli c = 0 → k_slocks k !! l = Some s → sl_locked s ≠ 0 → k_proc k !! me = Some p →
  ∃ k', acquiresleep l k = Switch k' ∧ k_slocks k' = k_slocks k ∧ k_proc k' = <[me := asleep (ChSleepLock l) p]> (k_proc k).
Proof.
  intros Hn Hs Hl Hp. pose proof Henv as [Hcpu Hpr Hpid Hlen Hbc Hpt Hbf]. unfold acquiresleep.
  erewrite bind_ret_eq by by apply acquire_ret. unfold acquiresleep_loop.
  unfold get_slock at 1, bind at 1 2, gets at 1. simpl. rewrite Hs. simpl. rewrite (proj2 (truthy_true _) Hl).
  erewrite (sleep_switch _ l _ i (c <| c_ncli := c_ncli c + 1 |>) me p); [by eexists|by apply on_cpu_locked|simpl; lia|done|done|done| |].
  - simpl. apply lookup_insert_eq.
  - unfold lock_free. simpl. by rewrite lookup_insert_ne.
Qed.

Lemma holdingsleep_held :
  k_slocks k !! l = Some (mkSleeplock 1 pid) → holdingsleep l k = Ret true k.
Proof.
  intros Hs. pose proof Henv as [Hcpu Hpr Hpid Hlen Hbc Hpt Hbf]. unfold holdingsleep.
  erewrite bind_ret_eq by by apply acquire_ret.
  unfold get_slock at 1, bind at 1 2, gets at 1. simpl. rewrite Hs. simpl.
  erewrite bind_ret_eq.
  2: { erewrite bind_ret_eq; [done|].
       eapply (my_pid_ret _ i (c <| c_ncli := c_ncli c + 1 |>)); [|done|done]. by apply on_cpu_locked. }
  erewrite bind_ret_eq by by apply (release_ret l k i c); auto.
  rewrite Z.eqb_refl. unfold ret. by rewrite unlocked_locked.
Qed.

Lemma releasesleep_held :
  releasesleep l k =
  Ret tt (k <| k_slocks := <[l := mkSleeplock 0 0]> (k_slocks k) |>
            <| k_proc := wake (Some (ChSleepLock l)) (k_ticks k) <$> k_proc k |>).
Proof.
  pose proof Henv as [Hcpu Hpr Hpid Hlen Hbc Hpt Hbf]. unfold releasesleep.
  erewrite bind_ret_eq by by apply acquire_ret.
  unfold set_slock at 1, bind at 1, modify at 1.
  erewrite bind_ret_eq.
  2: { eapply (wakeup_ret _ _ i (c <| c_ncli := c_ncli c + 1 |>)). split; [|unfold lock_free; simpl; by rewrite lookup_insert_ne|done].
       eapply on_cpu_ext; [by apply (on_cpu_locked l k i c)|done..]. }
  rewrite (release_ret l k i c); [by destruct k|done|done|done..].
Qed.
End sleeplocks.

Section buffer_locks.
Context (i : nat) (c : cpu) (me : nat) (pid : Z) (k : kernel) (b : nat).
Context (Henv : bio_env i c me pid k) (Hb : (b < NBUF)%nat).

Lemma acquiresleep_ret s :
  k_slocks k !! LBuf b = Some s → sl_locked s = 0 →
  acquiresleep (LBuf b) k = Ret tt (k <| k_slocks := <[LBuf b := mkSleeplock 1 pid]> (k_slocks k) |>).
Proof. eapply acquiresleep_free; [exact Henv|by apply Henv]. Qed.
Lemma holdingsleep_ret :
  k_slocks k !! LBuf b = Some (mkSleeplock 1 pid) → holdingsleep (LBuf b) k = Ret true k.
Proof. eapply holdingsleep_held; [exact Henv|by apply Henv]. Qed.
Lemma releasesleep_ret :
  releasesleep (LBuf b) k =
  Ret tt (k <| k_slocks := <[LBuf b := mkSleeplock 0 0]> (k_slocks k) |>
            <| k_proc := wake (Some (ChSleepLock (LBuf b))) (k_ticks k) <$> k_proc k |>).
Proof. eapply releasesleep_held; [exact Henv|by apply Henv|done]. Qed.
End buffer_locks.

(** ** The LRU list *)

Definition nx (bs : list buf) (x : nat) : option nat := b_next <$> bs !! x.
Definition pv (bs : list buf) (x : nat) : option nat := b_prev <$> bs !! x.

(** Neighbours in [l] are linked in both directions. *)
Fixpoint links (bs : list buf) (l : list nat) : Prop :=
  match l with
  | x :: ((y :: _) as l') => nx bs x = Some y ∧ pv bs y = Some x ∧ links bs l'
  | _ => True
  end.

Lemma links_app bs l1 x l2 :
  links bs (l1 ++ x :: l2) ↔ links bs (l1 ++ [x]) ∧ links bs (x :: l2).
Proof.
  induction l1 as [|a [|b l1] IH]; [by split; [|intros [_ ?]]|simpl|].
  - tauto.
  - change (links bs ((a :: b :: l1) ++ x :: l2)) with
      (nx bs a = Some b ∧ pv bs b = Some a ∧ links bs ((b :: l1) ++ x :: l2)).
    change (links bs ((a :: b :: l1) ++ [x])) with
      (nx bs a = Some b ∧ pv bs b = Some a ∧ links bs ((b :: l1) ++ [x])).
    rewrite IH. tauto.
Qed.

(** The links of the entries of [l] are the same in [bs']. *)
Lemma links_ext bs bs' l :
  (∀ x, x ∈ l → nx bs' x = nx bs x) → (∀ x, x ∈ l → pv bs' x = pv bs x) → links bs l → links bs' l.
Proof.
  intros Hn Hp. induction l as [|x [|y l] IH]; simpl; [done|done|]. intros (H1 & H2 & H3).
  rewrite Hn by (left). rewrite Hp by (right; left). split; [done|]. split; [done|].
  apply IH; [intros; apply Hn; by right|intros; apply Hp; by right|done].
Qed.

Lemma nx_alter bs f x y :
  nx (alter f x bs) y = if decide (x = y) then b_next <$> (f <$> bs !! y) else nx bs y.
Proof.
  unfold nx. case_decide as E; [subst; by rewrite list_lookup_alter_eq|by rewrite list_lookup_alter_ne].
Qed.
Lemma pv_alter bs f x y :
  pv (alter f x bs) y = if decide (x = y) then b_prev <$> (f <$> bs !! y) else pv bs y.
Proof.
  unfold pv. case_decide as E; [subst; by rewrite list_lookup_alter_eq|by rewrite list_lookup_alter_ne].
Qed.

(** The scans of [bget]. *)
Lemma find_buf_next f bs fuel x l :
  links bs (x :: l ++ [bhead]) → Forall (λ y, y ≠ bhead) l → (length l ≤ fuel)%nat →
  ∀ y0, nx bs x = Some y0 →
  (∃ y b, find_buf fuel b_next f bs y0 = Some (Some y) ∧ y ∈ l ∧ bs !! y = Some b ∧ f b = true) ∨
  (find_buf fuel b_next f bs y0 = Some None ∧ ∀ y b, y ∈ l → bs !! y = Some b → f b = false).
Proof.
  revert x fuel. induction l as [|y l IH]; intros x fuel Hl Hh Hf y0 Hy0; simpl in Hl.
  - destruct Hl as (Hn & _). rewrite Hn in Hy0. simplify_eq. right. split; [|by intros y b ?%not_elem_of_nil].
    by destruct fuel.
  - destruct Hl as (Hn & Hp & Hl). rewrite Hn in Hy0. simplify_eq. apply Forall_cons in Hh as [Hy Hh].
    destruct fuel as [|fuel]; simpl in Hf; [lia|]. simpl. rewrite bool_decide_false by done.
    destruct (bs !! y0) as [b|] eqn:Hb; [|by unfold pv in Hp; rewrite Hb in Hp].
    simpl. destruct (f b) eqn:Hfb; [left; exists y0, b; split; [done|]; split; [left|done]|].
    destruct (IH y0 fuel Hl Hh ltac:(lia) (b_next b)) as [(z & bz & ? & ? & ? & ?)|[? Hall]].
    + unfold nx. by rewrite Hb.
    + left. exists z, bz. split; [done|]. split; [by right|done].
    + right. split; [done|]. intros z bz [->|Hz]%elem_of_cons Hbz; [by simplify_eq|by eapply Hall].
Qed.

Lemma find_buf_prev f bs fuel x l :
  links bs (bhead :: l ++ [x]) → Forall (λ y, y ≠ bhead) l → (length l ≤ fuel)%nat →
  ∀ y0, pv bs x = Some y0 →
  (∃ y b, find_buf fuel b_prev f bs y0 = Some (Some y) ∧ y ∈ l ∧ bs !! y = Some b ∧ f b = true) ∨
  (find_buf fuel b_prev f bs y0 = Some None ∧ ∀ y b, y ∈ l → bs !! y = Some b → f b = false).
Proof.
  revert x fuel. induction l as [|y l IH] using rev_ind; intros x fuel Hl Hh Hf y0 Hy0.
  - simpl in Hl. destruct Hl as (_ & Hp & _). rewrite Hp in Hy0. simplify_eq. right.
    split; [|by intros y b ?%not_elem_of_nil]. by destruct fuel.
  - rewrite <-app_assoc in Hl. change (bhead :: l ++ [y] ++ [x]) with ((bhead :: l) ++ y :: [x]) in Hl.
    apply links_app in Hl as [Hl (Hn & Hp & _)]. rewrite Hp in Hy0. simplify_eq.
    apply Forall_app in Hh as [Hh [Hy _]%Forall_cons]. rewrite length_app in Hf. simpl in Hf.
    destruct fuel as [|fuel]; [lia|]. simpl. rewrite bool_decide_false by done.
    destruct (bs !! y0) as [b|] eqn:Hb; [|by unfold nx in Hn; rewrite Hb in Hn].
    simpl. destruct (f b) eqn:Hfb; [left; exists y0, b; split; [done|]; split; [set_solver|done]|].
    destruct (IH y0 fuel Hl Hh ltac:(lia) (b_prev b)) as [(z & bz & ? & ? & ? & ?)|[? Hall]].
    + unfold pv. by rewrite Hb.
    + left. exists z, bz. split; [done|]. split; [set_solver|done].
    + right. split; [done|]. intros z bz [Hz|Hz%list_elem_of_singleton]%elem_of_app Hbz; [by eapply Hall|].
      simplify_eq. done.
Qed.

(** The links a list needs: [next] of all but its last entry and [prev] of all
    but its first. *)
Lemma links_ext_tail bs bs' x l :
  (∀ y, y ∈ removelast (x :: l) → nx bs' y = nx bs y) → (∀ y, y ∈ l → pv bs' y = pv bs y) →
  links bs (x :: l) → links bs' (x :: l).
Proof.
  revert x. induction l as [|y l IH]; intros x Hn Hp; [done|].
  change (links bs (x :: y :: l)) with (nx bs x = Some y ∧ pv bs y = Some x ∧ links bs (y :: l)).
  change (links bs' (x :: y :: l)) with (nx bs' x = Some y ∧ pv bs' y = Some x ∧ links bs' (y :: l)).
  intros (H1 & H2 & H3). rewrite Hn, Hp by left. split; [done|]. split; [done|].
  apply IH; [intros z Hz; apply Hn; by right|intros z Hz; apply Hp; by right|done].
Qed.

(** Unlinking an entry. *)
Lemma links_unlink bs bs' l1 p x n l2 :
  links bs (l1 ++ p :: x :: n :: l2) →
  p ∉ l1 → p ∉ removelast (n :: l2) → n ∉ tail (l1 ++ [p]) → n ∉ l2 →
  (∀ y, nx bs' y = if decide (y = p) then Some n else nx bs y) →
  (∀ y, pv bs' y = if decide (y = n) then Some p else pv bs y) →
  links bs' (l1 ++ p :: n :: l2).
Proof.
  intros Hl Hp1 Hp2 Hn1 Hn2 Hnx Hpv. apply links_app in Hl as [Ha Hb]. apply links_app.
  change (links bs (p :: x :: n :: l2)) with
    (nx bs p = Some x ∧ pv bs x = Some p ∧ nx bs x = Some n ∧ pv bs n = Some x ∧ links bs (n :: l2)) in Hb.
  destruct Hb as (_ & _ & _ & _ & Hb). split.
  - destruct l1 as [|a l1]; [done|]. revert Ha. simpl app. apply links_ext_tail.
    + intros y Hy. rewrite Hnx. rewrite decide_False; [done|]. intros ->.
      change (a :: l1 ++ [p]) with ((a :: l1) ++ [p]) in Hy. rewrite removelast_last in Hy. done.
    + intros y Hy. rewrite Hpv. rewrite decide_False; [done|]. intros ->. by apply Hn1.
  - change (links bs' (p :: n :: l2)) with (nx bs' p = Some n ∧ pv bs' n = Some p ∧ links bs' (n :: l2)).
    rewrite Hnx, Hpv, !decide_True by done. split; [done|]. split; [done|]. revert Hb. apply links_ext_tail.
    + intros y Hy. rewrite Hnx. rewrite decide_False; [done|]. by intros ->.
    + intros y Hy. rewrite Hpv. rewrite decide_False; [done|]. by intros ->.
Qed.

(** Inserting an entry behind the head. *)
Lemma links_front bs bs' h x f l :
  links bs (h :: f :: l) → f ∉ l → x ∉ removelast (f :: l) → x ∉ l → h ∉ removelast (f :: l) → h ≠ x → x ≠ f →
  (∀ y, nx bs' y = if decide (y = h) then Some x else if decide (y = x) then Some f else nx bs y) →
  (∀ y, pv bs' y = if decide (y = f) then Some x else if decide (y = x) then Some h else pv bs y) →
  links bs' (h :: x :: f :: l).
Proof.
  intros Hl Hf Hx1 Hx2 Hh Hhx Hxf Hnx Hpv.
  change (links bs (h :: f :: l)) with (nx bs h = Some f ∧ pv bs f = Some h ∧ links bs (f :: l)) in Hl.
  change (links bs' (h :: x :: f :: l)) with
    (nx bs' h = Some x ∧ pv bs' x = Some h ∧ nx bs' x = Some f ∧ pv bs' f = Some x ∧ links bs' (f :: l)).
  destruct Hl as (_ & _ & Hl). split; [by rewrite Hnx, decide_True|].
  split; [rewrite Hpv, decide_False, decide_True by done; done|].
  split; [rewrite Hnx, decide_False, decide_True by done; done|].
  split; [by rewrite Hpv, decide_True|]. revert Hl. apply links_ext_tail.
  - intros y Hy. rewrite Hnx, !decide_False; [done|by intros ->..].
  - intros y Hy. rewrite Hpv, !decide_False; [done|by intros ->..].
Qed.

Definition lru (bs : list buf) (ord : list nat) : Prop :=
  ord ≡ₚ seq 0 NBUF ∧ links bs (bhead :: ord ++ [bhead]).

(** Everything but the links. *)
Definition body (b : buf) : Z * Z * Z * Z * list Z :=
  (b_flags b, b_dev b, b_blockno b, b_refcnt b, b_data b).

Lemma lru_elem bs ord x : lru bs ord → x ∈ ord ↔ (x < NBUF)%nat.
Proof. intros [Hp _]. rewrite Hp, elem_of_seq. lia. Qed.
Lemma lru_nodup bs ord : lru bs ord → NoDup (bhead :: ord).
Proof.
  intros [Hp Hl]. apply NoDup_cons. split.
  - rewrite Hp, elem_of_seq. unfold bhead. lia.
  - rewrite Hp. apply NoDup_seq.
Qed.

Lemma last_split {A} (a : A) l : ∃ l' p, a :: l = l' ++ [p].
Proof. destruct (exists_last (l := a :: l)) as (l' & p & ->); [done|]. eauto. Qed.
Lemma first_split {A} (a : A) l : ∃ n l', l ++ [a] = n :: l'.
Proof. destruct l; simpl; eauto. Qed.

(** The two halves of [move_to_front] on the list of buffers. *)
Definition unlinked (p n : nat) (bs : list buf) : list buf :=
  alter (λ y, y <| b_next := n |>) p (alter (λ y, y <| b_prev := p |>) n bs).
Definition fronted (x f : nat) (bs : list buf) : list buf :=
  alter (λ h, h <| b_next := x |>) bhead
    (alter (λ y, y <| b_prev := x |>) f
      (alter (λ y, y <| b_prev := bhead |>) x (alter (λ y, y <| b_next := f |>) x bs))).

Lemma nx_unlinked p n bs y :
  is_Some (bs !! p) → nx (unlinked p n bs) y = if decide (y = p) then Some n else nx bs y.
Proof.
  intros [b Hb]. unfold unlinked. rewrite nx_alter.
  destruct (decide (p = y)) as [->|Hne]; [rewrite decide_True by done|rewrite decide_False by done].
  - rewrite list_lookup_alter. destruct (decide (n = y)) as [->|]; by rewrite Hb.
  - rewrite nx_alter. destruct (decide (n = y)) as [->|]; [|done]. unfold nx. by destruct (bs !! y).
Qed.
Lemma pv_unlinked p n bs y :
  is_Some (bs !! n) → pv (unlinked p n bs) y = if decide (y = n) then Some p else pv bs y.
Proof.
  intros [b Hb]. unfold unlinked. rewrite pv_alter.
  assert (pv (alter (λ y, y <| b_prev := p |>) n bs) y = if decide (y = n) then Some p else pv bs y) as H.
  { rewrite pv_alter. destruct (decide (n = y)) as [->|]; [by rewrite Hb, decide_True|by rewrite decide_False]. }
  rewrite <-H. destruct (decide (p = y)) as [->|]; [|done]. unfold pv. by destruct (_ !! y).
Qed.
Lemma nx_fronted x f bs y :
  is_Some (bs !! bhead) → is_Some (bs !! x) → x ≠ bhead →
  nx (fronted x f bs) y = if decide (y = bhead) then Some x else if decide (y = x) then Some f else nx bs y.
Proof.
  intros [h Hh] [b Hb] Hx. unfold fronted. rewrite nx_alter.
  destruct (decide (bhead = y)) as [<-|Hne]; [rewrite decide_True by done|rewrite (decide_False (P := y = bhead)) by done].
  - rewrite list_lookup_alter. destruct (decide (f = bhead)) as [->|];
      rewrite !(list_lookup_alter_ne _ _ x bhead) by done; by rewrite Hh.
  - assert (∀ g z l, (∀ w, b_next (g w) = b_next w) → nx (alter g z l) y = nx l y) as Hk.
    { intros g z l Hg. rewrite nx_alter. destruct (decide (z = y)) as [->|]; [|done]. unfold nx.
      destruct (l !! y); [|done]. simpl. by rewrite Hg. }
    rewrite !Hk by done. rewrite nx_alter.
    destruct (decide (x = y)) as [<-|]; [by rewrite Hb, decide_True|by rewrite decide_False].
Qed.
Lemma pv_fronted x f bs y :
  is_Some (bs !! f) → is_Some (bs !! x) → x ≠ f →
  pv (fronted x f bs) y = if decide (y = f) then Some x else if decide (y = x) then Some bhead else pv bs y.
Proof.
  intros [h Hh] [b Hb] Hx. unfold fronted.
  assert (∀ g z l, (∀ w, b_prev (g w) = b_prev w) → pv (alter g z l) y = pv l y) as Hk.
  { intros g z l Hg. rewrite pv_alter. destruct (decide (z = y)) as [->|]; [|done]. unfold pv.
    destruct (l !! y); [|done]. simpl. by rewrite Hg. }
  rewrite Hk by done. rewrite pv_alter.
  destruct (decide (f = y)) as [<-|Hne]; [rewrite decide_True by done|rewrite (decide_False (P := y = f)) by done].
  - rewrite !(list_lookup_alter_ne _ _ x f) by done. by rewrite Hh.
  - rewrite pv_alter. destruct (decide (x = y)) as [<-|]; [rewrite decide_True by done|rewrite decide_False by done].
    + by rewrite list_lookup_alter_eq, Hb.
    + by rewrite Hk.
Qed.

Lemma body_unlinked p n bs : body <$> unlinked p n bs = body <$> bs.
Proof. unfold unlinked. by rewrite !fmap_alter_same. Qed.
Lemma body_fronted x f bs : body <$> fronted x f bs = body <$> bs.
Proof. unfold fronted. by rewrite !fmap_alter_same. Qed.

Lemma move_to_front_run x k b h :
  k_bcache k !! x = Some b → b_next b ≠ x → b_prev b ≠ x → x ≠ bhead →
  unlinked (b_prev b) (b_next b) (k_bcache k) !! bhead = Some h →
  move_to_front x k = Ret tt (k <| k_bcache :=
    fronted x (b_next h) (unlinked (b_prev b) (b_next b) (k_bcache k)) |>).
Proof.
  intros Hb Hn Hp Hx Hh. unfold move_to_front.
  unfold get_buf at 1, bind at 1 2, gets at 1, get_or. rewrite Hb. unfold ret at 1.
  unfold upd_buf at 1, bind at 1, modify at 1.
  unfold get_buf at 1, bind at 1 2, gets at 1, get_or. simpl. rewrite list_lookup_alter_ne, Hb by done. unfold ret at 1.
  unfold upd_buf at 1, bind at 1, modify at 1.
  unfold get_buf at 1, bind at 1 2, gets at 1, get_or. simpl. unfold unlinked in Hh. simpl in Hh. rewrite Hh. unfold ret at 1.
  unfold upd_buf at 1, bind at 1, modify at 1. unfold upd_buf at 1, bind at 1, modify at 1.
  unfold get_buf at 1, bind at 1 2, gets at 1, get_or. simpl.
  rewrite !(list_lookup_alter_ne _ _ x bhead) by done. rewrite Hh. unfold ret at 1.
  unfold upd_buf, bind, modify. done.
Qed.

(** The facts about a list [bhead :: l1 ++ x :: l2] without duplicates that the
    surgery needs; [p] and [n] are the neighbours of [x]. *)
Lemma cyc_facts x l1 l2 l1' p n l2' :
  NoDup (bhead :: l1 ++ x :: l2) → bhead :: l1 = l1' ++ [p] → l2 ++ [bhead] = n :: l2' →
  (p ∉ l1') ∧ (p ∉ removelast (n :: l2')) ∧ (n ∉ tail (l1' ++ [p])) ∧ (n ∉ l2') ∧ x ≠ n ∧ x ≠ p ∧
  x ≠ bhead ∧ NoDup ((l1 ++ l2) ++ [bhead]) ∧ x ∉ l1 ++ l2.
Proof.
  intros Hnd Hp Hn. apply NoDup_cons in Hnd as [Hb Hnd]. apply NoDup_app in Hnd as (Hn1 & Hd & Hnd2).
  apply NoDup_cons in Hnd2 as [Hx Hn2]. rewrite <-Hp, <-Hn, removelast_last. simpl tail.
  assert (NoDup (bhead :: l1)) as Hnd1 by (apply NoDup_cons; set_solver).
  assert (NoDup (l2 ++ [bhead])) as Hnd2 by (apply NoDup_app; split_and!; [done|set_solver|apply NoDup_singleton]).
  assert (p ∈ bhead :: l1) as Hpi by (rewrite Hp; set_solver).
  assert (n ∈ l2 ++ [bhead]) as Hni by (rewrite Hn; set_solver).
  split_and!.
  - rewrite Hp in Hnd1. apply NoDup_app in Hnd1 as (_ & H & _). intros Hin. by eapply H; [exact Hin|set_solver].
  - set_solver.
  - set_solver.
  - rewrite Hn in Hnd2. by apply NoDup_cons in Hnd2 as [? _].
  - set_solver.
  - set_solver.
  - set_solver.
  - apply NoDup_app. split_and!; [apply NoDup_app; split_and!; [done|set_solver|done]|set_solver|apply NoDup_singleton].
  - set_solver.
Qed.

(** Putting [x] in front of the circular list [l]. *)
Lemma links_fronted bs x l :
  links bs (bhead :: l ++ [bhead]) → NoDup (bhead :: x :: l) → is_Some (bs !! x) →
  ∃ h, bs !! bhead = Some h ∧ links (fronted x (b_next h) bs) (bhead :: x :: l ++ [bhead]).
Proof.
  intros Hl Hnd Hxs. apply NoDup_cons in Hnd as [Hh Hnd]. apply NoDup_cons in Hnd as [Hx Hnd].
  destruct (first_split bhead l) as (f & l' & Hf). rewrite Hf in Hl |- *.
  change (links bs (bhead :: f :: l')) with (nx bs bhead = Some f ∧ pv bs f = Some bhead ∧ links bs (f :: l')) in Hl.
  pose proof Hl as (Hhf & Hpf & _). unfold nx in Hhf.
  destruct (bs !! bhead) as [h|] eqn:Hbh; [|done]. exists h. split; [done|]. simpl in Hhf. injection Hhf as Hhf. rewrite Hhf.
  assert (is_Some (bs !! f)) as Hfs by (unfold pv in Hpf; destruct (bs !! f); by eauto).
  assert (f ∈ l ++ [bhead]) as Hfi by (rewrite Hf; set_solver).
  assert (NoDup (f :: l')) as Hnd' by (rewrite <-Hf; apply NoDup_app; set_solver by eauto using NoDup_singleton).
  apply NoDup_cons in Hnd' as [Hfl _].
  assert (∀ y, y ∈ removelast (f :: l') → y ∈ l) as Hrl by (intros y; by rewrite <-Hf, removelast_last).
  eapply links_front; [exact Hl|done| | | |set_solver|set_solver| |].
  - intros ?%Hrl. set_solver.
  - intros Hin. assert (x ∈ l ++ [bhead]) by (rewrite Hf; by right). set_solver.
  - intros ?%Hrl. set_solver.
  - intros y. apply nx_fronted; [by eauto|done|set_solver].
  - intros y. apply pv_fronted; [done|done|set_solver].
Qed.

Lemma move_to_front_ret x k l1 l2 :
  length (k_bcache k) = S NBUF → lru (k_bcache k) (l1 ++ x :: l2) →
  ∃ bs', move_to_front x k = Ret tt (k <| k_bcache := bs' |>) ∧
    lru bs' (x :: l1 ++ l2) ∧ body <$> bs' = body <$> k_bcache k.
Proof.
  intros Hlen Hlru. pose proof (lru_nodup _ _ Hlru) as Hnd. destruct Hlru as [Hperm Hl].
  destruct (last_split bhead l1) as (l1' & p & Hp). destruct (first_split bhead l2) as (n & l2' & Hn).
  destruct (cyc_facts x l1 l2 l1' p n l2') as (F1 & F2 & F3 & F4 & Fn & Fp & Fx & Fnd & Fxl); [done..|].
  assert (bhead :: (l1 ++ x :: l2) ++ [bhead] = l1' ++ p :: x :: n :: l2') as Hcyc.
  { change (bhead :: (l1 ++ x :: l2) ++ [bhead]) with (((bhead :: l1) ++ x :: l2) ++ [bhead]).
    rewrite Hp, <-!app_assoc. simpl. by rewrite Hn. }
  assert (bhead :: (l1 ++ l2) ++ [bhead] = l1' ++ p :: n :: l2') as Hcyc2.
  { change (bhead :: (l1 ++ l2) ++ [bhead]) with (((bhead :: l1) ++ l2) ++ [bhead]).
    rewrite Hp, <-!app_assoc. simpl. by rewrite Hn. }
  rewrite Hcyc in Hl. pose proof Hl as Hl0. apply links_app in Hl0 as [_ Hx].
  change (links (k_bcache k) (p :: x :: n :: l2')) with
    (nx (k_bcache k) p = Some x ∧ pv (k_bcache k) x = Some p ∧ nx (k_bcache k) x = Some n ∧
     pv (k_bcache k) n = Some x ∧ links (k_bcache k) (n :: l2')) in Hx.
  destruct Hx as (Hx1 & Hx2 & Hx3 & Hx4 & _).
  assert (∀ y z, nx (k_bcache k) y = Some z → is_Some (k_bcache k !! y)) as Hnxs
    by (unfold nx; intros y z; destruct (k_bcache k !! y); by eauto).
  assert (is_Some (k_bcache k !! n)) as Hns by (unfold pv in Hx4; destruct (k_bcache k !! n); by eauto).
  destruct (k_bcache k !! x) as [b|] eqn:Hb; [|by unfold nx in Hx3; rewrite Hb in Hx3].
  unfold nx in Hx3. unfold pv in Hx2. rewrite Hb in Hx2, Hx3. simpl in Hx2, Hx3. injection Hx2 as Hbp. injection Hx3 as Hbn.
  set (bs1 := unlinked p n (k_bcache k)).
  assert (links bs1 (bhead :: (l1 ++ l2) ++ [bhead])) as Hl1.
  { rewrite Hcyc2. eapply links_unlink; [exact Hl|done..| |].
    - intros y. apply nx_unlinked. by eapply Hnxs.
    - intros y. by apply pv_unlinked. }
  assert (is_Some (bs1 !! x)) as Hxs.
  { apply lookup_lt_is_Some. unfold bs1, unlinked. rewrite !length_alter. by eapply lookup_lt_Some. }
  destruct (links_fronted bs1 x (l1 ++ l2) Hl1) as (h & Hbh & Hl2); [|done|].
  { by rewrite Permutation_middle. }
  exists (fronted x (b_next h) bs1). split; [|split; [split|]].
  - rewrite (move_to_front_run x k b h); rewrite ?Hbp, ?Hbn; done.
  - rewrite <-Hperm. by rewrite Permutation_middle.
  - done.
  - rewrite body_fronted. apply body_unlinked.
Qed.
