(* ===== verification/Cache.v ===== *)
(** * Cache: the buffer cache operations against the invariant

    [bread], [bwrite] and [brelse] as seen by the log and the file system: a
    block is read from its buffer if it is cached and from the disk otherwise, a
    dirty buffer keeps its contents until it is written, and a write changes one
    block of the disk. *)
From S2P Require Import Prelude.
From S2P Require Import Mem.
From S2P Require Import Str.
From S2P Require Import State.
From S2P Require Import Spin.
From S2P Require Import Cons.
From S2P Require Import Kalloc.
From S2P Require Import Vm.
From S2P Require Import Frame.
From S2P Require Import VmSpec.
From S2P Require Import Mlq.
From S2P Require Import Proc.
From S2P Require Import ProcSpec.
From S2P Require Import ProcWait.
From S2P Require Import Blk.
From S2P Require Import Bio.
From S2P Require Import BioSpec.

(** [H] are the buffers the current process holds; nobody else holds any. *)
Record bc_inv (pid : Z) (H : list nat) (k : kernel) : Prop := {
  bc_len : length (k_bcache k) = S NBUF;
  bc_lru : ∃ ord, lru (k_bcache k) ord;
  bc_ref x b : (x < NBUF)%nat → k_bcache k !! x = Some b →
    b_refcnt b = if bool_decide (x ∈ H) then 1 else 0;
  bc_lock x : (x < NBUF)%nat → ∃ s, k_slocks k !! LBuf x = Some s ∧
    if bool_decide (x ∈ H) then s = mkSleeplock 1 pid else sl_locked s = 0;
  bc_uniq x y b b' : (x < NBUF)%nat → (y < NBUF)%nat → k_bcache k !! x = Some b → k_bcache k !! y = Some b' →
    b_dev b = 1 → b_dev b' = 1 → b_blockno b = b_blockno b' → x = y;
  bc_flags x b : (x < NBUF)%nat → k_bcache k !! x = Some b →
    b_flags b = 0 ∨ (b_flags b = 2 ∨ b_flags b = 6) ∧ b_dev b = 1 ∧
    0 ≤ b_blockno b < Z.of_nat (length (k_disk k));
  bc_clean x b : (x < NBUF)%nat → k_bcache k !! x = Some b → x ∉ H → b_flags b = 2 →
    k_disk k !! Z.to_nat (b_blockno b) = Some (b_data b)
}.

(** A block whose contents are in a dirty buffer and not yet on the disk. *)
Definition dirty (k : kernel) (blk : Z) (d : list Z) : Prop :=
  ∃ x b, (x < NBUF)%nat ∧ k_bcache k !! x = Some b ∧ b_flags b = 6 ∧ b_blockno b = blk ∧ b_data b = d.

Lemma bc_lookup pid H k x : bc_inv pid H k → (x < NBUF)%nat → ∃ b, k_bcache k !! x = Some b.
Proof. intros Hi Hx. apply lookup_lt_is_Some. rewrite (bc_len _ _ _ Hi). lia. Qed.

Lemma dirty_inj pid H k blk d d' : bc_inv pid H k → dirty k blk d → dirty k blk d' → d = d'.
Proof.
  intros Hi (x & b & Hx & Hb & Hf & Hbl & <-) (y & b' & Hy & Hb' & Hf' & Hbl' & <-).
  assert (x = y) as ->; [|by simplify_eq].
  destruct (bc_flags _ _ _ Hi x b Hx Hb) as [?|(_ & Hd & _)]; [congruence|].
  destruct (bc_flags _ _ _ Hi y b' Hy Hb') as [?|(_ & Hd' & _)]; [congruence|].
  eapply (bc_uniq _ _ _ Hi x y b b'); congruence || done.
Qed.

(** ** Changing one buffer *)

Lemma lru_insert bs x b b' ord :
  bs !! x = Some b → b_next b' = b_next b → b_prev b' = b_prev b → lru bs ord → lru (<[x := b']> bs) ord.
Proof.
  intros Hb Hn Hp [Hpm Hl]. split; [done|]. rewrite <-(alter_lookup (λ _, b') _ _ _ Hb).
  eapply links_ext; [..|exact Hl]; intros y _.
  - rewrite nx_alter. destruct (decide (x = y)) as [->|]; [|done]. unfold nx. rewrite Hb. simpl. congruence.
  - rewrite pv_alter. destruct (decide (x = y)) as [->|]; [|done]. unfold pv. rewrite Hb. simpl. congruence.
Qed.

Lemma bc_inv_insert pid H H' k k' x b b' :
  bc_inv pid H k → (x < NBUF)%nat → k_bcache k !! x = Some b →
  k_bcache k' = <[x := b']> (k_bcache k) → b_next b' = b_next b → b_prev b' = b_prev b →
  (∀ y, y ≠ x → y ∈ H' ↔ y ∈ H) → (∀ y, y ≠ x → k_slocks k' !! LBuf y = k_slocks k !! LBuf y) →
  length (k_disk k') = length (k_disk k) →
  (∀ y by', y ≠ x → (y < NBUF)%nat → k_bcache k !! y = Some by' → b_flags by' = 2 →
     k_disk k' !! Z.to_nat (b_blockno by') = k_disk k !! Z.to_nat (b_blockno by')) →
  b_refcnt b' = (if bool_decide (x ∈ H') then 1 else 0) →
  (∃ s, k_slocks k' !! LBuf x = Some s ∧ if bool_decide (x ∈ H') then s = mkSleeplock 1 pid else sl_locked s = 0) →
  (∀ y by', y ≠ x → (y < NBUF)%nat → k_bcache k !! y = Some by' → b_dev by' = 1 → b_dev b' = 1 →
     b_blockno by' ≠ b_blockno b') →
  (b_flags b' = 0 ∨ (b_flags b' = 2 ∨ b_flags b' = 6) ∧ b_dev b' = 1 ∧
     0 ≤ b_blockno b' < Z.of_nat (length (k_disk k))) →
  (x ∉ H' → b_flags b' = 2 → k_disk k' !! Z.to_nat (b_blockno b') = Some (b_data b')) →
  bc_inv pid H' k'.
Proof.
  intros [Hlen Hlru Href Hlock Huq Hfl Hcl] Hx Hb Hbs Hnx Hpv HH Hsl Hd Hdy Hr Hs Hu Hf Hc.
  assert (Hget : ∀ y z, k_bcache k' !! y = Some z → y = x ∧ z = b' ∨ y ≠ x ∧ k_bcache k !! y = Some z).
  { intros y z. rewrite Hbs. intros [(<- & -> & _)|(Hne & ?)]%list_lookup_insert_Some; [by left|by right]. }
  assert (HbH : ∀ y, y ≠ x → bool_decide (y ∈ H') = bool_decide (y ∈ H))
    by (intros y Hy; apply bool_decide_ext; by apply HH).
  split.
  - rewrite Hbs. by rewrite length_insert.
  - destruct Hlru as [ord Ho]. exists ord. rewrite Hbs. by eapply lru_insert.
  - intros y z Hy [[-> ->]|[Hne Hb']]%Hget; [done|]. rewrite HbH by done. by apply Href.
  - intros y Hy. destruct (decide (y = x)) as [->|Hne]; [done|]. rewrite HbH, Hsl by done. by apply Hlock.
  - intros y z b1 b2 Hy Hz [[-> ->]|[Hn1 H1]]%Hget [[-> ->]|[Hn2 H2]]%Hget Hd1 Hd2 Hbl; try done.
    + by destruct (Hu z b2).
    + by destruct (Hu y b1).
    + by eapply (Huq y z b1 b2).
  - intros y z Hy [[-> ->]|[Hne Hb']]%Hget; rewrite Hd; [done|by eapply Hfl].
  - intros y z Hy [[-> ->]|[Hne Hb']]%Hget Hyn Hfb; [by apply Hc|].
    rewrite (Hdy y z) by done. eapply Hcl; [done|done| |done]. by rewrite <-HH.
Qed.

(** Only the links changed. *)
Lemma body_inj b b' : body b = body b' →
  b_flags b = b_flags b' ∧ b_dev b = b_dev b' ∧ b_blockno b = b_blockno b' ∧
  b_refcnt b = b_refcnt b' ∧ b_data b = b_data b'.
Proof. unfold body. intros He. split_and!; congruence. Qed.
Lemma body_lookup (bs bs' : list buf) (y : nat) b' :
  body <$> bs' = body <$> bs → bs' !! y = Some b' → ∃ b, bs !! y = Some b ∧ body b' = body b.
Proof.
  intros Hb Hy. assert ((body <$> bs') !! y = (body <$> bs) !! y) as He by by rewrite Hb.
  rewrite !list_lookup_fmap, Hy in He. destruct (bs !! y) as [b|]; [|done]. exists b.
  simpl in He. split; [done|congruence].
Qed.

Lemma bc_inv_body pid H k k' ord :
  bc_inv pid H k → body <$> k_bcache k' = body <$> k_bcache k → lru (k_bcache k') ord →
  k_slocks k' = k_slocks k → k_disk k' = k_disk k → bc_inv pid H k'.
Proof.
  intros [Hlen Hlru Href Hlock Huq Hfl Hcl] Hb Hl Hs Hd.
  assert (Hget := λ y b', body_lookup _ _ y b' Hb). split.
  - by rewrite <-(length_fmap body), Hb, length_fmap.
  - by exists ord.
  - intros x b' Hx (b & Hxb & (_ & _ & _ & -> & _)%body_inj)%Hget. by apply Href.
  - intros x Hx. rewrite Hs. by apply Hlock.
  - intros x y b1 b2 Hx Hy (b & Hxb & (_ & -> & -> & _)%body_inj)%Hget (b' & Hyb & (_ & -> & -> & _)%body_inj)%Hget.
    by eapply Huq.
  - intros x b' Hx (b & Hxb & (-> & -> & -> & _)%body_inj)%Hget. rewrite Hd. by eapply Hfl.
  - intros x b' Hx (b & Hxb & (-> & _ & -> & _ & ->)%body_inj)%Hget. rewrite Hd. by eapply Hcl.
Qed.

Lemma dirty_body k k' : body <$> k_bcache k' = body <$> k_bcache k → ∀ blk d, dirty k' blk d ↔ dirty k blk d.
Proof.
  intros Hb blk d. split; intros (x & b' & Hx & Hxb & Hf & Hbl & Hd).
  - destruct (body_lookup _ _ _ _ Hb Hxb) as (b & Hb' & (H1 & H2 & H3 & H4 & H5)%body_inj).
    exists x, b. split_and!; congruence || done.
  - destruct (body_lookup _ _ _ _ (eq_sym Hb) Hxb) as (b & Hb' & (H1 & H2 & H3 & H4 & H5)%body_inj).
    exists x, b. split_and!; congruence || done.
Qed.

(** ** Finding a buffer *)

(** [L] bounds the dirty blocks; if there are buffers left, one of them is clean
    and free. *)
Lemma spare pid H k L :
  bc_inv pid H k → (∀ blk d, dirty k blk d → blk ∈ L) → (length L + length H < NBUF)%nat →
  ∃ x b, (x < NBUF)%nat ∧ (x ∉ H) ∧ k_bcache k !! x = Some b ∧ b_flags b ≠ 6.
Proof.
  intros Hi HL Hlt. 
  assert (∀ n, (n ≤ NBUF)%nat → (∃ x b, (x < NBUF)%nat ∧ (x ∉ H) ∧ k_bcache k !! x = Some b ∧ b_flags b ≠ 6) ∨
    ∃ bl hs, (bl : list Z) ⊆ L ∧ NoDup bl ∧ hs ⊆ H ∧ NoDup hs ∧ (length bl + length hs = n)%nat ∧
      (∀ z, z ∈ bl → ∃ x b, (x < n)%nat ∧ k_bcache k !! x = Some b ∧ b_flags b = 6 ∧ b_blockno b = z) ∧
      (∀ z, z ∈ hs → (z < n)%nat)) as Hind.
  { induction n as [|n IH]; intros Hn.
    { right. exists [], []. split_and!; try done; try apply NoDup_nil_2; by intros ? ?%not_elem_of_nil. }
    destruct (IH ltac:(lia)) as [?|(bl & hs & H1 & H2 & H3 & H4 & H5 & H6 & H7)]; [by left|].
    destruct (bc_lookup _ _ _ n Hi) as [b Hb]; [lia|].
    destruct (decide (n ∈ H)) as [HnH|HnH].
    - right. exists bl, (n :: hs). split_and!; [done|done|set_solver| |simpl; lia| |].
      + apply NoDup_cons. split; [|done]. intros ?%H7. lia.
      + intros z (x & b' & ? & ?)%H6. exists x, b'. split; [lia|done].
      + intros z [->|?%H7]%elem_of_cons; lia.
    - destruct (decide (b_flags b = 6)) as [Hf|Hf]; [|left; by exists n, b].
      right. exists (b_blockno b :: bl), hs.
      split_and!; [|apply NoDup_cons; split; [|done]|done|done|simpl; lia| |].
      + intros z [->|?]%elem_of_cons; [|by apply H1]. apply (HL _ (b_data b)). by exists n, b.
      + intros (x & b' & Hx & Hb' & Hf' & Hbl)%H6. assert (x = n); [|lia].
        destruct (bc_flags _ _ _ Hi x b' ltac:(lia) Hb') as [?|(_ & Hd & _)]; [congruence|].
        destruct (bc_flags _ _ _ Hi n b ltac:(lia) Hb) as [?|(_ & Hd' & _)]; [congruence|].
        eapply (bc_uniq _ _ _ Hi x n b' b); lia || done.
      + intros z [->|(x & b' & ? & ?)%H6]%elem_of_cons; [exists n, b; by split; [lia|]|].
        exists x, b'. split; [lia|done].
      + intros z ?%H7. lia. }
  destruct (Hind NBUF ltac:(lia)) as [?|(bl & hs & H1 & H2 & H3 & H4 & H5 & _)]; [done|exfalso].
  assert (length bl ≤ length L)%nat by (apply submseteq_length, NoDup_submseteq; set_solver).
  assert (length hs ≤ length H)%nat by (apply submseteq_length, NoDup_submseteq; set_solver). lia.
Qed.

(** ** bget and bread *)

Definition take_ref (x : buf) : buf := x <| b_refcnt := u32 (b_refcnt x + 1) |>.
Definition recycle (dev blk : Z) (x : buf) : buf :=
  x <| b_dev := dev |> <| b_blockno := blk |> <| b_flags := 0 |> <| b_refcnt := 1 |>.

Section cache.
Context (i : nat) (c : cpu) (me : nat) (pid : Z).
Implicit Types (k : kernel) (H : list nat) (L : list Z).

(** The end of [bget], once the buffer [x] is chosen. *)
Lemma bget_tail k H x g :
  bio_env i c me pid k → bc_inv pid H k → (x < NBUF)%nat → (x ∉ H) →
  (upd_buf x g ;; release LBcache ;; acquiresleep (LBuf x) ;; ret x) (locked_by LBcache i c k) =
  Ret x (k <| k_bcache := alter g x (k_bcache k) |>
           <| k_slocks := <[LBuf x := mkSleeplock 1 pid]> (k_slocks k) |>).
Proof.
  intros He Hi Hx HH. pose proof He as [Hcpu Hpr Hpid Hlen Hbc Hpt Hbf].
  unfold upd_buf, bind at 1, modify.
  erewrite bind_ret_eq by by apply (release_ret LBcache k i c).
  destruct (bc_lock _ _ _ Hi x Hx) as (s & Hs & Hsl). rewrite bool_decide_false in Hsl by done.
  match goal with |- (acquiresleep _ ;; _) ?k1 = _ =>
    assert (k1 = k <| k_bcache := alter g x (k_bcache k) |>) as -> by by destruct k end.
  assert (bio_env i c me pid (k <| k_bcache := alter g x (k_bcache k) |>)) as He'.
  { eapply bio_env_step; [|exact He]. split; [by destruct k|done|intros j; simpl; by rewrite ?lookup_insert_ne]. }
  by rewrite (bind_ret_eq _ _ _ _ _ (acquiresleep_ret i c me pid _ x He' Hx s Hs Hsl)).
Qed.

Lemma bget_ret k H L blk :
  bio_env i c me pid k → bc_inv pid H k →
  (∀ x b, x ∈ H → k_bcache k !! x = Some b → b_blockno b ≠ blk) →
  (∀ blk d, dirty k blk d → blk ∈ L) → (length L + length H < NBUF)%nat →
  ∃ x b g, bget 1 blk k = Ret x (k <| k_bcache := alter g x (k_bcache k) |>
             <| k_slocks := <[LBuf x := mkSleeplock 1 pid]> (k_slocks k) |>) ∧
    (x < NBUF)%nat ∧ (x ∉ H) ∧ k_bcache k !! x = Some b ∧
    (g = take_ref ∧ b_dev b = 1 ∧ b_blockno b = blk ∨
     g = recycle 1 blk ∧ b_flags b ≠ 6 ∧
     ∀ y b', (y < NBUF)%nat → k_bcache k !! y = Some b' → b_dev b' = 1 → b_blockno b' ≠ blk).
Proof.
  intros He Hi HH HL Hlt. pose proof He as [Hcpu Hpr Hpid Hlen Hbc Hpt Hbf].
  destruct (bc_lru _ _ _ Hi) as [ord Hlru]. pose proof Hlru as [Hperm Hl].
  assert (∀ x, x ∈ ord ↔ (x < NBUF)%nat) as Hord by (intros; by eapply lru_elem).
  assert (Forall (λ y, y ≠ bhead) ord) as Hnh.
  { apply Forall_forall. intros y Hy. apply Hord in Hy. unfold bhead. lia. }
  assert (length ord = NBUF) as Hlo by by rewrite Hperm, length_seq.
  assert (∃ h, k_bcache k !! bhead = Some h) as [h Hh].
  { apply lookup_lt_is_Some. rewrite (bc_len _ _ _ Hi). unfold bhead. lia. }
  unfold bget. erewrite bind_ret_eq by by apply acquire_ret.
  unfold get_buf at 1, bind at 1 2, gets at 1. change (k_bcache (locked_by LBcache i c k)) with (k_bcache k).
  rewrite Hh. cbn [get_or]. unfold ret at 1. unfold bind at 1, gets at 1.
  change (k_bcache (locked_by LBcache i c k)) with (k_bcache k).
  destruct (find_buf_next (λ b, (b_dev b =? 1) && (b_blockno b =? blk)) (k_bcache k) NBUF bhead ord Hl Hnh)
    with (y0 := b_next h) as [(x & b & -> & Hxo & Hxb & Hfx)|[-> Hnone]]; [lia|unfold nx; by rewrite Hh|..].
  - apply Hord in Hxo. apply andb_true_iff in Hfx as [Hd%Z.eqb_eq Hbl%Z.eqb_eq].
    assert (x ∉ H) as HxH by (intros Hin; by apply (HH x b)).
    exists x, b, take_ref. split_and!; [|done..|by left].
    unfold get_or, ret at 1, bind at 1. by apply (bget_tail k H x take_ref).
  - unfold get_or at 1, ret at 1, bind at 1.
    destruct (find_buf_prev (λ b, (b_refcnt b =? 0) && (Z.land (b_flags b) B_DIRTY =? 0)) (k_bcache k) NBUF bhead ord Hl Hnh)
      with (y0 := b_prev h) as [(x & b & -> & Hxo & Hxb & Hfx)|[_ Hall]]; [lia|unfold pv; by rewrite Hh|..].
    + apply Hord in Hxo. apply andb_true_iff in Hfx as [Hr%Z.eqb_eq Hf%Z.eqb_eq].
      pose proof (bc_ref _ _ _ Hi x b Hxo Hxb) as Href.
      assert (x ∉ H) as HxH by (intros Hin; rewrite bool_decide_true in Href by done; lia).
      exists x, b, (recycle 1 blk). split_and!; [|done..|right].
      * unfold get_or, ret at 1, bind at 1. by apply (bget_tail k H x (recycle 1 blk)).
      * split_and!; [done|intros Hf6; by rewrite Hf6 in Hf|]. intros y b' Hy Hyb Hd Hbl.
        assert ((b_dev b' =? 1) && (b_blockno b' =? blk) = false) as Hff by (eapply Hnone; [by apply Hord|done]).
        rewrite Hd, Hbl in Hff. by rewrite !Z.eqb_refl in Hff.
    + destruct (spare pid H k L Hi HL Hlt) as (x & b & Hx & HxH & Hxb & Hf6). exfalso.
      assert ((b_refcnt b =? 0) && (Z.land (b_flags b) B_DIRTY =? 0) = false) as Hff
        by (eapply Hall; [by apply Hord|done]).
      rewrite (bc_ref _ _ _ Hi x b Hx Hxb), bool_decide_false in Hff by done. simpl in Hff.
      destruct (bc_flags _ _ _ Hi x b Hx Hxb) as [E|([E|E] & _)]; rewrite E in Hff; done.
Qed.

(** [iderw] on a held buffer: a read of a buffer without contents, a write of a
    dirty one. *)
Lemma iderw_read k x b d :
  bio_env i c me pid k → (x < NBUF)%nat → k_slocks k !! LBuf x = Some (mkSleeplock 1 pid) →
  k_bcache k !! x = Some b → b_flags b = 0 → b_dev b = 1 →
  0 ≤ b_blockno b → k_disk k !! Z.to_nat (b_blockno b) = Some d →
  iderw x k = Ret tt (k <| k_bcache := <[x := b <| b_data := d |> <| b_flags := 2 |>]> (k_bcache k) |>).
Proof.
  intros He Hx Hs Hb Hf Hd H0 Hdisk. unfold iderw.
  rewrite (bind_ret_eq _ _ _ _ _ (holdingsleep_ret i c me pid k x He Hx Hs)). cbn [negb].
  unfold get_buf at 1, bind at 1 2, gets at 1, get_or at 1. rewrite Hb. unfold ret at 1. rewrite Hf, Hd. simpl.
  unfold bind at 1, gets at 1. apply lookup_lt_Some in Hdisk as Hlt.
  destruct (Z.leb_spec (Z.of_nat (length (k_disk k))) (b_blockno b)); [lia|].
  rewrite Hdisk. unfold upd_buf, bind, modify, ret. simpl. rewrite alter_alter, (alter_lookup _ _ _ _ Hb), Hf. done.
Qed.

Lemma iderw_write k x b :
  bio_env i c me pid k → (x < NBUF)%nat → k_slocks k !! LBuf x = Some (mkSleeplock 1 pid) →
  k_bcache k !! x = Some b → b_flags b = 6 → b_dev b = 1 →
  0 ≤ b_blockno b < Z.of_nat (length (k_disk k)) →
  iderw x k = Ret tt (k <| k_bcache := <[x := b <| b_flags := 2 |>]> (k_bcache k) |>
                        <| k_disk := <[Z.to_nat (b_blockno b) := b_data b]> (k_disk k) |>
                        <| k_writes := k_writes k ++ [(b_blockno b, b_data b)] |>).
Proof.
  intros He Hx Hs Hb Hf Hd H0. unfold iderw.
  rewrite (bind_ret_eq _ _ _ _ _ (holdingsleep_ret i c me pid k x He Hx Hs)). cbn [negb].
  unfold get_buf at 1, bind at 1 2, gets at 1, get_or at 1. rewrite Hb. unfold ret at 1. rewrite Hf, Hd. simpl.
  unfold bind at 1, gets at 1.
  destruct (Z.leb_spec (Z.of_nat (length (k_disk k))) (b_blockno b)); [lia|].
  unfold upd_buf, bind, modify, ret. simpl. rewrite alter_alter, (alter_lookup _ _ _ _ Hb), Hf. done.
Qed.

Lemma dirty_insert k k' x b b' :
  (x < NBUF)%nat → k_bcache k !! x = Some b → k_bcache k' = <[x := b']> (k_bcache k) →
  (b_flags b' = 6 ↔ b_flags b = 6) → (b_flags b = 6 → b_blockno b' = b_blockno b ∧ b_data b' = b_data b) →
  ∀ blk d, dirty k' blk d ↔ dirty k blk d.
Proof.
  intros Hx Hb Hk Hf Hs blk d. assert (x < length (k_bcache k))%nat by by eapply lookup_lt_Some.
  split; intros (y & z & Hy & Hz & H6 & Hbl & Hd).
  - rewrite Hk in Hz. apply list_lookup_insert_Some in Hz as [(<- & -> & _)|(Hne & Hz)]; [|by exists y, z].
    apply Hf in H6 as H6'. destruct (Hs H6'). exists x, b. split_and!; congruence || done.
  - destruct (decide (x = y)) as [<-|Hne].
    + simplify_eq. destruct (Hs H6). exists x, b'. rewrite Hk, list_lookup_insert_eq by done.
      split_and!; [done|done|by apply Hf|congruence..].
    + exists y, z. rewrite Hk, list_lookup_insert_ne by done. done.
Qed.

(** What [bread] gives the caller: a held buffer with the block's contents. *)
Record read_block H (blk : Z) (x : nat) (b : buf) (k k' : kernel) : Prop := {
  rb_step : bio_step k k';
  rb_inv : bc_inv pid (x :: H) k';
  rb_lt : (x < NBUF)%nat;
  rb_new : x ∉ H;
  rb_buf : k_bcache k' !! x = Some b;
  rb_dev : b_dev b = 1;
  rb_blk : b_blockno b = blk;
  rb_disk : k_disk k' = k_disk k;
  rb_writes : k_writes k' = k_writes k;
  rb_others y : y ≠ x → k_bcache k' !! y = k_bcache k !! y;
  rb_data : b_flags b = 6 ∧ dirty k blk (b_data b) ∨
    b_flags b = 2 ∧ k_disk k !! Z.to_nat blk = Some (b_data b) ∧ ∀ d, ~ dirty k blk d;
  rb_dirty blk' d : dirty k' blk' d ↔ dirty k blk' d
}.

(** A held buffer [b'] in place of [b], which nobody held. *)
Lemma read_block_intro k H blk x b b' k' :
  bio_env i c me pid k → bc_inv pid H k → (x < NBUF)%nat → (x ∉ H) → k_bcache k !! x = Some b →
  k' = k <| k_bcache := <[x := b']> (k_bcache k) |>
         <| k_slocks := <[LBuf x := mkSleeplock 1 pid]> (k_slocks k) |> →
  b_next b' = b_next b → b_prev b' = b_prev b → b_refcnt b' = 1 → b_dev b' = 1 → b_blockno b' = blk →
  0 ≤ blk < Z.of_nat (length (k_disk k)) →
  (∀ y by', y ≠ x → (y < NBUF)%nat → k_bcache k !! y = Some by' → b_dev by' = 1 → b_blockno by' ≠ blk) →
  (b_flags b' = b_flags b ∧ b_flags b ≠ 0 ∧ b_data b' = b_data b ∧ b_blockno b = blk ∨
   b_flags b' = 2 ∧ b_flags b ≠ 6 ∧ k_disk k !! Z.to_nat blk = Some (b_data b')) →
  read_block H blk x b' k k'.
Proof.
  intros He Hi Hx HxH Hb -> Hn Hp Hr Hd Hbl Hrange Hoth Hcase.
  assert (x < length (k_bcache k))%nat by by eapply lookup_lt_Some.
  assert (b_flags b' = 6 ↔ b_flags b = 6) as Hf6 by (destruct Hcase as [(-> & _)|(-> & ? & _)]; [done|by split]).
  pose proof (bc_flags _ _ _ Hi x b Hx Hb) as Hfl.
  split; try done; simpl.
  - split; [by destruct k|done|intros j; simpl; by rewrite lookup_insert_ne].
  - eapply (bc_inv_insert pid H (x :: H) k _ x b b'); try done.
    + intros y Hy. rewrite elem_of_cons. naive_solver.
    + intros y Hy. simpl. by rewrite lookup_insert_ne by congruence.
    + rewrite bool_decide_true by left. done.
    + exists (mkSleeplock 1 pid). simpl. rewrite lookup_insert_eq. rewrite bool_decide_true by left. done.
    + intros y by' Hy Hyl Hyb Hyd _. rewrite Hbl. by eapply Hoth.
    + right. rewrite Hbl. split; [|done]. destruct Hcase as [(-> & ? & _)|(-> & _)]; [|by left].
      destruct Hfl as [?|(? & _)]; [done|done].
    + intros Hnx. destruct Hnx. left.
  - by rewrite list_lookup_insert_eq.
  - intros y Hy. by rewrite list_lookup_insert_ne.
  - assert (∀ d, dirty k blk d → b_flags b = 6 ∧ b_blockno b = blk ∧ b_data b = d) as Hdirty.
    { intros d (y & z & Hy & Hz & H6 & Hzb & Hzd). destruct (decide (y = x)) as [->|Hne]; [by simplify_eq|].
      destruct (bc_flags _ _ _ Hi y z Hy Hz) as [?|(_ & Hzdev & _)]; [congruence|]. by destruct (Hoth y z). }
    destruct Hcase as [(Hff & Hf0 & Hdd & Hbb)|(Hff & Hf & Hdk)].
    + destruct Hfl as [?|([H2|H6] & Hdb & _)]; [done|right|left].
      * split; [congruence|]. split; [|intros d (? & _)%Hdirty; congruence]. rewrite Hdd, <-Hbb.
        by apply (bc_clean _ _ _ Hi x b).
      * split; [congruence|]. exists x, b. split_and!; congruence || done.
    + right. split; [done|]. split; [done|]. intros d (? & _)%Hdirty. congruence.
  - eapply (dirty_insert k _ x b b'); try done. intros H6.
    destruct Hcase as [(_ & _ & ? & ?)|(_ & ? & _)]; [split; congruence|done].
Qed.

Lemma bread_ret k H L blk :
  bio_env i c me pid k → bc_inv pid H k → 0 ≤ blk < Z.of_nat (length (k_disk k)) →
  (∀ x b, x ∈ H → k_bcache k !! x = Some b → b_blockno b ≠ blk) →
  (∀ blk d, dirty k blk d → blk ∈ L) → (length L + length H < NBUF)%nat →
  ∃ x b k', bread 1 blk k = Ret x k' ∧ read_block H blk x b k k'.
Proof.
  intros He Hi Hrange HH HL Hlt.
  destruct (bget_ret k H L blk He Hi HH HL Hlt) as (x & b & g & Hget & Hx & HxH & Hb & Hg).
  assert (∃ d, k_disk k !! Z.to_nat blk = Some d) as [d Hdisk] by (apply lookup_lt_is_Some; lia).
  unfold bread. rewrite (bind_ret_eq _ _ _ _ _ Hget). rewrite (alter_lookup _ _ _ _ Hb).
  set (k1 := k <| k_bcache := _ |> <| k_slocks := _ |>).
  assert (x < length (k_bcache k))%nat by by eapply lookup_lt_Some.
  assert (k_bcache k1 !! x = Some (g b)) as Hb1 by (simpl; by rewrite list_lookup_insert_eq).
  assert (bio_step k k1) as Hst1 by (split; [by destruct k|done|intros j; simpl; by rewrite ?lookup_insert_ne]).
  assert (b_refcnt b = 0) as Hr0 by (rewrite (bc_ref _ _ _ Hi x b Hx Hb); by rewrite bool_decide_false).
  assert (Hgb : b_dev (g b) = 1 ∧ b_blockno (g b) = blk ∧ b_refcnt (g b) = 1 ∧ b_next (g b) = b_next b ∧
    b_prev (g b) = b_prev b ∧ (b_flags (g b) ≠ 0 → b_flags (g b) = b_flags b ∧ b_data (g b) = b_data b ∧ b_blockno b = blk) ∧
    (b_flags (g b) = 0 → b_flags b ≠ 6)).
  { destruct Hg as [(-> & Hd & Hbl)|(-> & Hf & _)]; simpl; rewrite ?Hr0; split_and!; try done. congruence. }
  destruct Hgb as (Hg1 & Hg2 & Hg3 & Hg4 & Hg5 & Hg6 & Hg7).
  assert (Hoth : ∀ y by', y ≠ x → (y < NBUF)%nat → k_bcache k !! y = Some by' → b_dev by' = 1 → b_blockno by' ≠ blk).
  { intros y by' Hne Hy Hyb Hyd. destruct Hg as [(-> & Hd & Hbl)|(-> & _ & Hn)]; [|by eapply Hn].
    intros Hybl. apply Hne. eapply (bc_uniq _ _ _ Hi y x by' b); congruence || done. }
  unfold get_buf at 1, bind at 1 2, gets at 1, get_or at 1. rewrite Hb1. unfold ret at 1.
  assert (Hfg : b_flags (g b) = 0 ∨ b_flags (g b) = 2 ∨ b_flags (g b) = 6).
  { destruct Hg as [(-> & _)|(-> & _)]; [|by left]. simpl. pose proof (bc_flags _ _ _ Hi x b Hx Hb). tauto. }
  destruct Hfg as [Hf0|Hf2].
  - rewrite Hf0. cbn [Z.land Z.eqb when].
    rewrite (bind_ret_eq _ _ _ _ _ (iderw_read k1 x (g b) d ltac:(by eapply bio_env_step) Hx
      ltac:(simpl; by rewrite lookup_insert_eq) Hb1 Hf0 Hg1 ltac:(lia) ltac:(by rewrite Hg2))).
    eexists x, (g b <| b_data := d |> <| b_flags := 2 |>), _. split; [done|].
    eapply (read_block_intro k H blk x b); try done.
    + simpl. by rewrite list_insert_insert_eq.
    + right. simpl. split; [done|]. split; [by apply Hg7|done].
  - assert (Z.land (b_flags (g b)) B_VALID =? 0 = false) as -> by (by destruct Hf2 as [->| ->]).
    cbn [when]. eexists x, (g b), _. split; [done|].
    eapply (read_block_intro k H blk x b); try done. left.
    destruct Hg6 as (Ha & Hb' & Hc); [by destruct Hf2 as [->| ->]|].
    split_and!; try done. rewrite <-Ha. by destruct Hf2 as [->| ->].
Qed.

(** ** Writing and releasing *)

(** [b->data = f(b->data); bwrite(b)] *)
Lemma write_block k H x b f :
  bio_env i c me pid k → bc_inv pid H k → (x < NBUF)%nat → x ∈ H → k_bcache k !! x = Some b →
  b_flags b ≠ 0 →
  let b' := b <| b_data := f (b_data b) |> <| b_flags := 2 |> in
  let k' := k <| k_bcache := <[x := b']> (k_bcache k) |>
              <| k_disk := <[Z.to_nat (b_blockno b) := b_data b']> (k_disk k) |>
              <| k_writes := k_writes k ++ [(b_blockno b, b_data b')] |> in
  (upd_data x f ;; bwrite x) k = Ret tt k' ∧ bc_inv pid H k' ∧ bio_step k k' ∧
  ∀ blk d, dirty k' blk d ↔ dirty k blk d ∧ blk ≠ b_blockno b.
Proof.
  intros He Hi Hx HxH Hb Hf b' k'.
  assert (x < length (k_bcache k))%nat by by eapply lookup_lt_Some.
  destruct (bc_flags _ _ _ Hi x b Hx Hb) as [?|(Hf' & Hd & Hr)]; [done|].
  assert (k_slocks k !! LBuf x = Some (mkSleeplock 1 pid)) as Hs.
  { destruct (bc_lock _ _ _ Hi x Hx) as (s & Hs & Hsl). rewrite bool_decide_true in Hsl by done. congruence. }
  split_and!.
  - unfold bind at 1, upd_data, upd_buf at 1, modify. rewrite (alter_lookup _ _ _ _ Hb). unfold bwrite.
    set (k1 := k <| k_bcache := <[x := _]> (k_bcache k) |>).
    assert (bio_env i c me pid k1) as He1 by (eapply bio_env_step; [|exact He]; split; [by destruct k|done|intros j; simpl; by rewrite ?lookup_insert_ne]).
    rewrite (bind_ret_eq _ _ _ _ _ (holdingsleep_ret i c me pid k1 x He1 Hx Hs)). cbn [negb].
    unfold bind, upd_buf at 1, modify.
    assert (k_bcache k1 !! x = Some (b <| b_data := f (b_data b) |>)) as Hb1 by (simpl; by rewrite list_lookup_insert_eq).
    rewrite (alter_lookup _ _ _ _ Hb1). simpl. rewrite list_insert_insert_eq.
    assert (Z.lor (b_flags b) B_DIRTY = 6) as -> by (by destruct Hf' as [->| ->]).
    erewrite (iderw_write _ x); [..|simpl; by rewrite list_lookup_insert_eq|done|done|done].
    + simpl. by rewrite list_insert_insert_eq.
    + eapply bio_env_step; [|exact He]. split; [by destruct k|done|intros j; simpl; by rewrite ?lookup_insert_ne].
    + done.
    + done.
  - eapply (bc_inv_insert pid H H k k' x b b'); try done; simpl.
    + by rewrite length_insert.
    + intros y z Hy Hyl Hz Hz2. destruct (bc_flags _ _ _ Hi y z Hyl Hz) as [?|(_ & Hzd & Hzr)]; [congruence|].
      rewrite list_lookup_insert_ne; [done|]. intros Heq. apply Hy. eapply (bc_uniq _ _ _ Hi y x z b); try done. lia.
    + by rewrite (bc_ref _ _ _ Hi x b Hx Hb).
    + destruct (bc_lock _ _ _ Hi x Hx) as (s & ? & ?). by exists s.
    + intros y z Hy Hyl Hz Hzd _ Heq. apply Hy. by eapply (bc_uniq _ _ _ Hi y x z b).
    + right. by split; [left|].
  - split; [by destruct k|done|intros j; simpl; by rewrite ?lookup_insert_ne].
  - intros blk d. split.
    + intros (y & z & Hy & Hz & H6 & Hbl & Hzd). simpl in Hz.
      apply list_lookup_insert_Some in Hz as [(<- & <- & _)|(Hne & Hz)]; [done|].
      split; [by exists y, z|]. intros ->. apply Hne. symmetry.
      destruct (bc_flags _ _ _ Hi y z Hy Hz) as [?|(_ & Hzdev & _)]; [congruence|]. by eapply (bc_uniq _ _ _ Hi y x z b).
    + intros [(y & z & Hy & Hz & H6 & Hbl & Hzd) Hne]. exists y, z. simpl.
      rewrite list_lookup_insert_ne; [done|]. intros <-. simplify_eq.
Qed.

(** The buffer is given back and becomes the most recently used one. *)
Record released (x : nat) (k k' : kernel) : Prop := {
  rl_step : bio_step k k';
  rl_disk : k_disk k' = k_disk k;
  rl_writes : k_writes k' = k_writes k;
  rl_others y b : y ≠ x → k_bcache k !! y = Some b → ∃ b', k_bcache k' !! y = Some b' ∧ body b' = body b;
  rl_dirty blk d : dirty k' blk d ↔ dirty k blk d
}.

Lemma brelse_ret k H H' x b :
  bio_env i c me pid k → bc_inv pid H k → (x < NBUF)%nat → x ∈ H → k_bcache k !! x = Some b →
  (b_flags b = 2 → k_disk k !! Z.to_nat (b_blockno b) = Some (b_data b)) →
  (∀ y, y ∈ H' ↔ y ∈ H ∧ y ≠ x) →
  ∃ k', brelse x k = Ret tt k' ∧ bc_inv pid H' k' ∧ released x k k'.
Proof.
  intros He Hi Hx HxH Hb Hcl HH'. pose proof He as [Hcpu Hpr Hpid Hlen Hbc Hpt Hbf].
  assert (x < length (k_bcache k))%nat by by eapply lookup_lt_Some.
  assert (k_slocks k !! LBuf x = Some (mkSleeplock 1 pid)) as Hs.
  { destruct (bc_lock _ _ _ Hi x Hx) as (s & Hs & Hsl). rewrite bool_decide_true in Hsl by done. congruence. }
  assert (b_refcnt b = 1) as Hr by (rewrite (bc_ref _ _ _ Hi x b Hx Hb); by rewrite bool_decide_true).
  set (b' := b <| b_refcnt := 0 |>).
  set (k1 := k <| k_slocks := <[LBuf x := mkSleeplock 0 0]> (k_slocks k) |>
               <| k_proc := wake (Some (ChSleepLock (LBuf x))) (k_ticks k) <$> k_proc k |>).
  assert (bio_step k k1) as Hst1.
  { split; [by destruct k| |intros j; simpl; by rewrite lookup_insert_ne].
    simpl. rewrite <-list_fmap_compose. apply list_fmap_ext. intros j p _. simpl. unfold wake. by destruct (_ && _). }
  assert (bio_env i c me pid k1) as He1 by by eapply bio_env_step.
  set (k2 := k1 <| k_bcache := <[x := b']> (k_bcache k) |>).
  assert (bc_inv pid H' k2) as Hi2.
  { pose proof (bc_flags _ _ _ Hi x b Hx Hb) as Hf.
    assert (x ∉ H') as HxH' by (rewrite HH'; by intros [_ ?]).
    eapply (bc_inv_insert pid H H' k k2 x b b'); try done; simpl.
    - intros y Hy. rewrite HH'. naive_solver.
    - intros y Hy. by rewrite lookup_insert_ne by congruence.
    - by rewrite bool_decide_false.
    - exists (mkSleeplock 0 0). rewrite lookup_insert_eq. by rewrite bool_decide_false.
    - intros y z Hy Hyl Hz Hzd Hd Heq. apply Hy. by eapply (bc_uniq _ _ _ Hi y x z b). }
  assert (lru (k_bcache k2) = lru (<[x := b']> (k_bcache k))) as Hl2 by done.
  destruct (bc_lru _ _ _ Hi2) as [ord Hlru]. assert (x ∈ ord) as Hxo by by eapply lru_elem.
  apply list_elem_of_split in Hxo as (l1 & l2 & ->).
  destruct (move_to_front_ret x (locked_by LBcache i c k2) l1 l2) as (bs' & Hmv & Hlru' & Hbody);
    [apply (bc_len _ _ _ Hi2)|done|].
  exists (k2 <| k_bcache := bs' |>). split; [|split].
  - unfold brelse. rewrite (bind_ret_eq _ _ _ _ _ (holdingsleep_ret i c me pid k x He Hx Hs)). cbn [negb].
    rewrite (bind_ret_eq _ _ _ _ _ (releasesleep_ret i c me pid k x He Hx)). fold k1.
    erewrite bind_ret_eq by (apply acquire_ret; [apply He1|apply He1]).
    unfold upd_buf, bind at 1, modify. change (k_bcache (locked_by LBcache i c k1)) with (k_bcache k).
    rewrite (alter_lookup _ _ _ _ Hb). unfold get_buf, bind at 1 2, gets. simpl.
    rewrite list_lookup_insert_eq by done. simpl. rewrite Hr. simpl.
    change (locked_by LBcache i c k1 <| k_bcache := _ |>) with (locked_by LBcache i c k2).
    rewrite (bind_ret_eq _ _ _ _ _ Hmv).
    rewrite (release_ret LBcache k2 i c); [by destruct k|by eapply on_cpu_ext|apply He1|done..].
  - eapply bc_inv_body; [exact Hi2|done|exact Hlru'|done|done].
  - assert (body <$> bs' = body <$> <[x := b']> (k_bcache k)) as Hbody' by exact Hbody.
    split; simpl; try done.
    + destruct Hst1 as [_ Hp Hj]. split; [by destruct k|exact Hp|exact Hj].
    + intros y z Hy Hz. destruct (body_lookup _ _ y z (eq_sym Hbody')) as (z' & ? & ?); [by rewrite list_lookup_insert_ne|].
      exists z'. by split.
    + intros blk d. etrans; [apply (dirty_body k2); exact Hbody'|]. by apply (dirty_insert k k2 x b b').
Qed.
End cache.
