(* ===== verification/BioInit.v ===== *)
(** * BioInit: [binit] establishes the invariant of the buffer cache *)
From S2P Require Import Prelude.
From S2P Require Import Mem.
From S2P Require Import Str.
From S2P Require Import State.
From S2P Require Import Spin.
From S2P Require Import Boot.
From S2P Require Import Cons.
From S2P Require Import Kalloc.
From S2P Require Import Vm.
From S2P Require Import Frame.
From S2P Require Import VmSpec.
From S2P Require Import Mlq.
From S2P Require Import Proc.
From S2P Require Import ProcSpec.
From S2P Require Import ProcWait.
From S2P Require Import Blk.
From S2P Require Import Bio.
From S2P Require Import BioSpec.
From S2P Require Import Cache.

(** The cache after the first [n] turns of the loop of [binit] on [k0]. *)
Record linked (k0 : kernel) (n : nat) (k : kernel) : Prop := {
  ln_frame : k = k0 <| k_bcache := k_bcache k |> <| k_slocks := k_slocks k |> <| k_locks := k_locks k |>;
  ln_links : links (k_bcache k) (bhead :: reverse (seq 0 n) ++ [bhead]);
  ln_body : body <$> k_bcache k = body <$> k_bcache k0;
  ln_locks x : (x < n)%nat → k_slocks k !! LBuf x = Some (mkSleeplock 0 0) ∧ k_locks k !! LBuf x = Some unlocked;
  ln_own l : (∀ x, l ≠ LBuf x) → k_locks k !! l = k_locks k0 !! l
}.

Definition binit_body (b : nat) : K unit :=
  h ← get_buf bhead;
  upd_buf b (λ x, x <| b_next := b_next h |>) ;;
  upd_buf b (λ x, x <| b_prev := bhead |>) ;;
  initsleeplock (LBuf b) ;;
  upd_buf (b_next h) (λ x, x <| b_prev := b |>) ;;
  upd_buf bhead (λ h, h <| b_next := b |>).

Lemma binit_body_run b k h :
  k_bcache k !! bhead = Some h →
  binit_body b k = Ret tt (k <| k_bcache := fronted b (b_next h) (k_bcache k) |>
    <| k_locks := <[LBuf b := unlocked]> (k_locks k) |> <| k_slocks := <[LBuf b := mkSleeplock 0 0]> (k_slocks k) |>).
Proof.
  intros Hh. unfold binit_body, get_buf at 1, bind at 1 2, gets at 1, get_or. rewrite Hh. unfold ret at 1. done.
Qed.

Lemma linked_step k0 n k :
  length (k_bcache k0) = S NBUF → (n < NBUF)%nat → linked k0 n k →
  ∃ k', binit_body n k = Ret tt k' ∧ linked k0 (S n) k'.
Proof.
  intros Hlen Hn [Hf Hl Hb Hs Ho].
  assert (length (k_bcache k) = S NBUF) as Hlen' by by rewrite <-(length_fmap body), Hb, length_fmap.
  destruct (links_fronted (k_bcache k) n (reverse (seq 0 n)) Hl) as (h & Hh & Hl').
  { rewrite !NoDup_cons, elem_of_cons, !elem_of_reverse, !elem_of_seq. unfold bhead.
    split_and!; [lia|lia|]. rewrite reverse_Permutation. apply NoDup_seq. }
  { apply lookup_lt_is_Some. lia. }
  eexists. split; [by apply binit_body_run|]. split.
  - simpl. rewrite Hf. done.
  - rewrite seq_S, reverse_snoc. exact Hl'.
  - simpl. by rewrite body_fronted.
  - intros x Hx. simpl. destruct (decide (x = n)) as [->|Hne]; [by rewrite !lookup_insert_eq|].
    rewrite !lookup_insert_ne by congruence. apply Hs. lia.
  - intros l Hnb. simpl. rewrite lookup_insert_ne by (intros <-; by destruct (Hnb n)). by apply Ho.
Qed.

Lemma binit_loop k0 m : ∀ n k,
  length (k_bcache k0) = S NBUF → (n + m = NBUF)%nat → linked k0 n k →
  ∃ k', for_each (seq n m) binit_body k = Ret tt k' ∧ linked k0 NBUF k'.
Proof.
  induction m as [|m IH]; intros n k Hlen Hn Hl; simpl.
  { exists k. split; [done|]. by replace NBUF with n by lia. }
  destruct (linked_step k0 n k Hlen ltac:(lia) Hl) as (k1 & H1 & Hl1).
  rewrite (bind_ret_eq _ _ _ _ _ H1). apply (IH (S n) k1 Hlen); [lia|done].
Qed.

(** On a cache of zeroed buffers [binit] returns and no buffer is in use. *)
Lemma binit_ret pid k :
  length (k_bcache k) = S NBUF → Forall (λ b, b_flags b = 0 ∧ b_dev b = 0 ∧ b_refcnt b = 0) (k_bcache k) →
  ∃ k', binit k = Ret tt k' ∧ bc_inv pid [] k' ∧ lru (k_bcache k') (reverse (seq 0 NBUF)) ∧ (∀ blk d, ~ dirty k' blk d) ∧
    k_locks k' !! LBcache = Some unlocked ∧ (∀ x, (x < NBUF)%nat → k_locks k' !! LBuf x = Some unlocked) ∧
    k_disk k' = k_disk k ∧ k_proc k' = k_proc k.
Proof.
  intros Hlen Hz.
  set (k0 := k <| k_locks := <[LBcache := unlocked]> (k_locks k) |>).
  set (k1 := k0 <| k_bcache := alter (λ h, h <| b_next := bhead |>) bhead (alter (λ h, h <| b_prev := bhead |>) bhead (k_bcache k)) |>).
  assert (body <$> k_bcache k1 = body <$> k_bcache k) as Hb1 by (simpl; by rewrite !fmap_alter_same).
  destruct (binit_loop k0 NBUF 0 k1) as (k' & Hloop & [Hf Hl Hb Hs Ho]); [done|done| |].
  { split; [done| |done|lia|done]. destruct (lookup_lt_is_Some_2 (k_bcache k) bhead) as [h Hh]; [unfold bhead; lia|].
    assert (k_bcache k1 !! bhead = Some (h <| b_prev := bhead |> <| b_next := bhead |>)) as Hk1
      by (simpl; by rewrite !list_lookup_alter_eq, Hh).
    simpl. unfold nx, pv. simpl in Hk1. rewrite Hk1. done. }
  assert (∀ x b, k_bcache k' !! x = Some b → b_flags b = 0 ∧ b_dev b = 0 ∧ b_refcnt b = 0) as Hzero.
  { intros x b Hx. change (k_bcache k0) with (k_bcache k) in Hb.
    assert ((body <$> k_bcache k) !! x = Some (body b)) as Hxb by by rewrite <-Hb, list_lookup_fmap, Hx.
    rewrite list_lookup_fmap in Hxb. destruct (k_bcache k !! x) as [b0|] eqn:Hx0; [|done].
    rewrite Forall_lookup in Hz. destruct (Hz x b0 Hx0) as (? & ? & ?).
    simpl in Hxb. unfold body in Hxb. injection Hxb as ? ? ? ? ?. split_and!; congruence. }
  assert (lru (k_bcache k') (reverse (seq 0 NBUF))) as Hlru by (split; [apply reverse_Permutation|done]).
  exists k'. split; [exact Hloop|]. split; [split|split_and!]; try done.
  - rewrite <-(length_fmap body), Hb, length_fmap. done.
  - by eexists.
  - intros x b _ (_ & _ & ->)%Hzero. done.
  - intros x Hx. destruct (Hs x Hx) as [? _]. eexists. split; [done|]. done.
  - intros x y b b' _ _ (_ & Hd & _)%Hzero. lia.
  - intros x b _ (? & _)%Hzero. by left.
  - intros x b _ (Hd & _)%Hzero. lia.
  - intros blk d (x & b & _ & (Hd & _)%Hzero & Hd' & _). lia.
  - rewrite Ho by done. apply lookup_insert_eq.
  - intros x Hx. by apply Hs.
  - by rewrite Hf.
  - by rewrite Hf.
Qed.
