(* ===== verification/LogSpec.v ===== *)
(** * LogSpec: the redo log

    [commit] writes the blocks of a transaction to the log, then the header,
    then the blocks to their homes, then clears the header; the writes it issues
    are [commit_writes], in that order.  After a crash between any two of those
    writes recovery leaves either none or all of the transaction on the disk. *)
From S2P Require Import Prelude.
From S2P Require Import Mem.
From S2P Require Import Str.
From S2P Require Import State.
From S2P Require Import Spin.
From S2P Require Import Cons.
From S2P Require Import Kalloc.
From S2P Require Import Vm.
From S2P Require Import Frame.
From S2P Require Import VmSpec.
From S2P Require Import Mlq.
From S2P Require Import Proc.
From S2P Require Import ProcSpec.
From S2P Require Import ProcWait.
From S2P Require Import Blk.
From S2P Require Import Bio.
From S2P Require Import BioSpec.
From S2P Require Import Cache.
From S2P Require Import Log.

(** ** Disk contents *)

Definition apply_writes (disk : list (list Z)) (ws : list (Z * list Z)) : list (list Z) :=
  foldl (λ dk '(blk, d), <[Z.to_nat blk := d]> dk) disk ws.

Lemma apply_writes_app disk ws ws' :
  apply_writes disk (ws ++ ws') = apply_writes (apply_writes disk ws) ws'.
Proof. apply foldl_app. Qed.
Lemma length_apply_writes disk ws : length (apply_writes disk ws) = length disk.
Proof.
  revert disk. induction ws as [|[blk d] ws IH]; intros disk; [done|]. simpl. rewrite IH. by rewrite length_insert.
Qed.

(** What a reader of block [blk] gets. *)
Definition contents (k : kernel) (blk : Z) (d : list Z) : Prop :=
  dirty k blk d ∨ k_disk k !! Z.to_nat blk = Some d ∧ ∀ d', ~ dirty k blk d'.

Section log.
Context (i : nat) (c : cpu) (me : nat) (pid : Z).
Implicit Types (k : kernel) (L : list Z).

(** Two blocks read one after the other. *)
Record two_blocks (blk1 blk2 : Z) (x y : nat) (bx by' : buf) (k k' : kernel) : Prop := {
  tb_step : bio_step k k';
  tb_inv : bc_inv pid [y; x] k';
  tb_x : (x < NBUF)%nat; tb_y : (y < NBUF)%nat; tb_ne : x ≠ y;
  tb_bx : k_bcache k' !! x = Some bx; tb_by : k_bcache k' !! y = Some by';
  tb_blk1 : b_blockno bx = blk1; tb_blk2 : b_blockno by' = blk2;
  tb_fx : b_flags bx ≠ 0; tb_fy : b_flags by' ≠ 0;
  tb_disk : k_disk k' = k_disk k; tb_writes : k_writes k' = k_writes k;
  tb_cx : contents k blk1 (b_data bx); tb_cy : contents k blk2 (b_data by');
  tb_clx : b_flags bx = 2 → k_disk k !! Z.to_nat blk1 = Some (b_data bx);
  tb_cly : b_flags by' = 2 → k_disk k !! Z.to_nat blk2 = Some (b_data by');
  tb_dirty blk d : dirty k' blk d ↔ dirty k blk d
}.

Lemma read_block_facts H blk x b k k' :
  read_block pid H blk x b k k' →
  contents k blk (b_data b) ∧ b_flags b ≠ 0 ∧ (b_flags b = 2 → k_disk k !! Z.to_nat blk = Some (b_data b)).
Proof.
  intros Hr. destruct (rb_data _ _ _ _ _ _ _ Hr) as [[Hf Hd]|(Hf & Hd & Hn)]; unfold contents;
    (split; [auto|split; [congruence|]]); [congruence|done].
Qed.

Lemma two_breads k L blk1 blk2 :
  bio_env i c me pid k → bc_inv pid [] k →
  0 ≤ blk1 < Z.of_nat (length (k_disk k)) → 0 ≤ blk2 < Z.of_nat (length (k_disk k)) → blk1 ≠ blk2 →
  (∀ blk d, dirty k blk d → blk ∈ L) → (length L + 1 < NBUF)%nat →
  ∃ x bx k1 y by' k2, bread 1 blk1 k = Ret x k1 ∧ bread 1 blk2 k1 = Ret y k2 ∧ bio_step k k1 ∧
    two_blocks blk1 blk2 x y bx by' k k2.
Proof.
  intros He Hi Hr1 Hr2 Hne HL Hlt.
  destruct (bread_ret i c me pid k [] L blk1) as (x & bx & k1 & Hret1 & Hb1); [done|done|done| |done|simpl; lia|].
  { by intros ? ? ?%not_elem_of_nil. }
  destruct (bread_ret i c me pid k1 [x] L blk2) as (y & by' & k2 & Hret2 & Hb2).
  { eapply bio_env_step; [apply Hb1|done]. }
  { apply Hb1. } { by rewrite (rb_disk _ _ _ _ _ _ _ Hb1). }
  { intros z b ->%list_elem_of_singleton. rewrite (rb_buf _ _ _ _ _ _ _ Hb1). intros [= <-].
    by rewrite (rb_blk _ _ _ _ _ _ _ Hb1). }
  { intros blk d. rewrite (rb_dirty _ _ _ _ _ _ _ Hb1). apply HL. } { simpl. lia. }
  exists x, bx, k1, y, by', k2. split; [done|]. split; [done|]. split; [apply Hb1|].
  destruct (read_block_facts _ _ _ _ _ _ Hb1) as (Hc1 & Hf1 & Hcl1).
  destruct (read_block_facts _ _ _ _ _ _ Hb2) as (Hc2 & Hf2 & Hcl2).
  assert (x ≠ y) as Hxy by (pose proof (rb_new _ _ _ _ _ _ _ Hb2); set_solver).
  rewrite (rb_disk _ _ _ _ _ _ _ Hb1) in Hcl2.
  split; try done; try apply Hb2; try apply Hb1.
  - etrans; [apply Hb1|apply Hb2].
  - rewrite (rb_others _ _ _ _ _ _ _ Hb2) by done. apply Hb1.
  - rewrite (rb_disk _ _ _ _ _ _ _ Hb2). apply Hb1.
  - rewrite (rb_writes _ _ _ _ _ _ _ Hb2). apply Hb1.
  - destruct Hc2 as [Hd|[Hd Hn]]; [left; by apply Hb1|right]. rewrite (rb_disk _ _ _ _ _ _ _ Hb1) in Hd.
    split; [done|]. intros d Hd'. apply (Hn d). by apply Hb1.
  - intros blk d. rewrite (rb_dirty _ _ _ _ _ _ _ Hb2). apply Hb1.
Qed.

(** Copy the held buffer [s] to the held buffer [t], write it and release both. *)
Definition copy_block (s t : nat) : K unit :=
  d ← get_data s; upd_data t (λ _, d) ;; bwrite t ;; brelse s ;; brelse t.

Lemma copy_block_ret k H s t bs bt :
  bio_env i c me pid k → bc_inv pid H k → (s < NBUF)%nat → (t < NBUF)%nat → s ≠ t →
  (∀ z, z ∈ H ↔ z = s ∨ z = t) → k_bcache k !! s = Some bs → k_bcache k !! t = Some bt →
  b_flags bs ≠ 0 → b_flags bt ≠ 0 → b_blockno bs ≠ b_blockno bt →
  (b_flags bs = 2 → k_disk k !! Z.to_nat (b_blockno bs) = Some (b_data bs)) →
  ∃ k', copy_block s t k = Ret tt k' ∧ bc_inv pid [] k' ∧ bio_step k k' ∧
    k_disk k' = <[Z.to_nat (b_blockno bt) := b_data bs]> (k_disk k) ∧
    k_writes k' = k_writes k ++ [(b_blockno bt, b_data bs)] ∧
    ∀ blk d, dirty k' blk d ↔ dirty k blk d ∧ blk ≠ b_blockno bt.
Proof.
  intros He Hi Hs Ht Hst HH Hbs Hbt Hfs Hft Hne Hcl. unfold copy_block.
  unfold get_data, get_buf at 1. unfold bind at 1 2 3, gets, get_or. rewrite Hbs. unfold ret.
  destruct (write_block i c me pid k H t bt (λ _, b_data bs) He Hi Ht) as (Hw & Hi1 & Hst1 & Hd1);
    [apply HH; by right|done|done|].
  rewrite (bind2_ret_eq _ _ _ _ _ _ Hw). clear Hw.
  set (bt' := bt <| b_data := b_data bs |> <| b_flags := 2 |>) in *.
  match type of Hi1 with bc_inv _ _ ?k1 => set (k1' := k1) in * end.
  assert (t < length (k_bcache k))%nat by by eapply lookup_lt_Some.
  destruct (bc_flags _ _ _ Hi s bs Hs Hbs) as [?|(_ & _ & Hrs)]; [done|].
  destruct (bc_flags _ _ _ Hi t bt Ht Hbt) as [?|(_ & _ & Hrt)]; [done|].
  destruct (brelse_ret i c me pid k1' H [t] s bs) as (k2 & Hr2 & Hi2 & Hl2).
  { by eapply bio_env_step. } { done. } { done. } { apply HH. by left. }
  { simpl. by rewrite list_lookup_insert_ne. }
  { intros Hf. simpl. rewrite list_lookup_insert_ne by lia. by apply Hcl. }
  { intros z. rewrite list_elem_of_singleton, HH. naive_solver. }
  rewrite (bind_ret_eq _ _ _ _ _ Hr2).
  destruct (rl_others _ _ _ Hl2 t bt') as (bt2 & Hbt2 & (Hf1 & Hf2 & Hf3 & Hf4 & Hf5)%body_inj);
    [done|simpl; by rewrite list_lookup_insert_eq|].
  destruct (brelse_ret i c me pid k2 [t] [] t bt2) as (k3 & Hr3 & Hi3 & Hl3).
  { eapply bio_env_step; [apply Hl2|]. by eapply bio_env_step. } { done. } { done. } { set_solver. } { done. }
  { intros _. rewrite (rl_disk _ _ _ Hl2), Hf3, Hf5. simpl. apply list_lookup_insert_eq. lia. }
  { intros z. rewrite list_elem_of_singleton. set_solver. }
  exists k3. split; [done|]. split; [done|]. split.
  { etrans; [exact Hst1|]. etrans; [apply Hl2|apply Hl3]. }
  rewrite (rl_disk _ _ _ Hl3), (rl_disk _ _ _ Hl2), (rl_writes _ _ _ Hl3), (rl_writes _ _ _ Hl2).
  split; [done|]. split; [done|]. intros blk d. by rewrite (rl_dirty _ _ _ Hl3), (rl_dirty _ _ _ Hl2), Hd1.
Qed.

Lemma copy_block_bind {A} s t (f : K A) k :
  (d ← get_data s; upd_data t (λ _, d) ;; bwrite t ;; brelse s ;; brelse t ;; f) k = (copy_block s t ;; f) k.
Proof.
  unfold copy_block, bind. destruct (get_data s k) as [d k1| | | |]; try done.
  destruct (upd_data t (λ _, d) k1) as [? k2| | | |]; try done. destruct (bwrite t k2) as [? k3| | | |]; try done.
  by destruct (brelse s k3).
Qed.
End log.

(** The header of a transaction of the blocks [bs], on a disk of [N] blocks. *)
Record log_ok (lg : logst) (bs : list Z) (N : nat) : Prop := {
  lo_dev : log_dev lg = 1;
  lo_n : lh_n lg = Z.of_nat (length bs);
  lo_blocks : take (length bs) (lh_block lg) = bs;
  lo_start : 0 ≤ log_start lg;
  lo_fit : log_start lg + Z.of_nat (length bs) < Z.of_nat N;
  lo_N : Z.of_nat N ≤ 2147483648;
  lo_home b : b ∈ bs → 0 ≤ b < Z.of_nat N ∧
    (b < log_start lg ∨ log_start lg + Z.of_nat (length bs) < b);
  lo_nodup : NoDup bs;
  lo_room : (length bs + 2 ≤ NBUF)%nat
}.

(** Writes of [ds] to consecutive blocks from [a] on. *)
Fixpoint log_writes (a : Z) (ds : list (list Z)) : list (Z * list Z) :=
  match ds with
  | [] => []
  | d :: ds' => (a, d) :: log_writes (a + 1) ds'
  end.

Lemma length_log_writes a ds : length (log_writes a ds) = length ds.
Proof. revert a. induction ds as [|d ds IH]; intros a; simpl; auto. Qed.
Lemma apply_writes_other disk ws b :
  0 ≤ b → (∀ a d, (a, d) ∈ ws → 0 ≤ a ∧ a ≠ b) → apply_writes disk ws !! Z.to_nat b = disk !! Z.to_nat b.
Proof.
  intros Hb. revert disk. induction ws as [|[a d] ws IH]; intros disk Hw; [done|]. simpl.
  rewrite IH by (intros a' d' ?; apply (Hw a' d'); by right).
  destruct (Hw a d) as [? ?]; [left|]. rewrite list_lookup_insert_ne by lia. done.
Qed.
Lemma elem_of_log_writes a ds b d :
  (b, d) ∈ log_writes a ds → ∃ j, b = a + Z.of_nat j ∧ ds !! j = Some d.
Proof.
  revert a. induction ds as [|d0 ds IH]; intros a; simpl; [by intros ?%not_elem_of_nil|].
  intros [[= -> ->]|(j & -> & Hj)%IH]%elem_of_cons; [exists 0%nat; split; [lia|done]|].
  exists (S j). split; [lia|done].
Qed.
Lemma lookup_log_writes disk a ds j d :
  0 ≤ a → a + Z.of_nat (length ds) ≤ Z.of_nat (length disk) → ds !! j = Some d →
  apply_writes disk (log_writes a ds) !! Z.to_nat (a + Z.of_nat j) = Some d.
Proof.
  revert disk a j. induction ds as [|d0 ds IH]; intros disk a j Ha Hl Hj; [done|]. simpl in *.
  destruct j as [|j]; simpl in Hj.
  - injection Hj as ->. rewrite apply_writes_other; [|lia|].
    + rewrite Z.add_0_r. apply list_lookup_insert_eq. lia.
    + intros b d' (j & -> & _)%elem_of_log_writes. lia.
  - replace (a + Z.of_nat (S j)) with (a + 1 + Z.of_nat j) by lia. apply IH; [lia|rewrite length_insert; lia|done].
Qed.

(** The header block with the log state [lg'] written over [hd]. *)
Section head.
Context (i : nat) (c : cpu) (me : nat) (pid : Z).

Lemma write_head_ret k lg' L :
  bio_env i c me pid k → bc_inv pid [] k → k_log k = lg' → log_dev lg' = 1 →
  0 ≤ log_start lg' < Z.of_nat (length (k_disk k)) → Z.of_nat (length (k_disk k)) ≤ 2147483648 →
  (∀ blk d, dirty k blk d → blk ∈ L) → (length L < NBUF)%nat → (∀ d, ~ dirty k (log_start lg') d) →
  ∃ hd k', k_disk k !! Z.to_nat (log_start lg') = Some hd ∧ write_head k = Ret tt k' ∧
    bio_step k k' ∧ bc_inv pid [] k' ∧ k_writes k' = k_writes k ++ [(log_start lg', encode_head lg' hd)] ∧
    k_disk k' = <[Z.to_nat (log_start lg') := encode_head lg' hd]> (k_disk k) ∧
    ∀ blk d, dirty k' blk d ↔ dirty k blk d.
Proof.
  intros He Hi Hlg Hdev Hs HN HL Hlt Hnd. unfold write_head, bind at 1, gets. rewrite Hlg, Hdev.
  rewrite u32_small by lia.
  destruct (bread_ret i c me pid k [] L (log_start lg')) as (x & b & k1 & Hr & Hb);
    [done|done|done|by intros ? ? ?%not_elem_of_nil|done|simpl; lia|].
  rewrite (bind_ret_eq _ _ _ _ _ Hr).
  destruct (read_block_facts _ _ _ _ _ _ _ Hb) as (Hc & Hf & _).
  destruct Hc as [Hd|[Hd _]]; [by destruct (Hnd (b_data b))|].
  assert (bio_env i c me pid k1) as He1 by (eapply bio_env_step; [apply Hb|done]).
  destruct (write_block i c me pid k1 [x] x b (encode_head lg') He1) as (Hw & Hi1 & Hst1 & Hd1);
    [apply Hb|apply Hb|set_solver|apply Hb|done|].
  rewrite (rb_blk _ _ _ _ _ _ _ Hb) in *.
  rewrite (bind2_ret_eq _ _ _ _ _ _ Hw). clear Hw.
  set (b' := b <| b_data := encode_head lg' (b_data b) |> <| b_flags := 2 |>) in *.
  match type of Hi1 with bc_inv _ _ ?k2 => set (k2' := k2) in * end.
  assert (x < length (k_bcache k1))%nat by (eapply lookup_lt_Some; apply Hb).
  destruct (brelse_ret i c me pid k2' [x] [] x b') as (k3 & Hr3 & Hi3 & Hl3).
  { by eapply bio_env_step. } { done. } { apply Hb. } { set_solver. }
  { simpl. by rewrite list_lookup_insert_eq. }
  { intros _. simpl. rewrite (rb_blk _ _ _ _ _ _ _ Hb). apply list_lookup_insert_eq. rewrite (rb_disk _ _ _ _ _ _ _ Hb). lia. }
  { intros z. rewrite list_elem_of_singleton. set_solver. }
  exists (b_data b), k3. split; [done|]. split; [done|]. split.
  { etrans; [apply Hb|]. etrans; [exact Hst1|apply Hl3]. }
  split; [done|]. rewrite (rl_writes _ _ _ Hl3), (rl_disk _ _ _ Hl3). simpl.
  rewrite (rb_writes _ _ _ _ _ _ _ Hb), (rb_disk _ _ _ _ _ _ _ Hb). split; [done|]. split; [done|].
  intros blk d. rewrite (rl_dirty _ _ _ Hl3), Hd1, (rb_dirty _ _ _ _ _ _ _ Hb). split; [by intros [? _]|].
  intros Hdd. split; [done|]. intros ->. by destruct (Hnd d).
Qed.
End head.

Section transaction.
Context (i : nat) (c : cpu) (me : nat) (pid : Z) (lg : logst) (bs : list Z) (N : nat).
Context (Hlog : log_ok lg bs N).
Implicit Types (k : kernel).

(** The state of the machine between two steps of the log. *)
Record log_state k : Prop := {
  ls_env : bio_env i c me pid k;
  ls_inv : bc_inv pid [] k;
  ls_log : k_log k = lg;
  ls_N : length (k_disk k) = N;
  ls_dirty blk d : dirty k blk d → blk ∈ bs
}.

Lemma log_block t b :
  bs !! t = Some b → aget (lh_block lg) (Z.of_nat t) = Some b ∧ b ∈ bs ∧
  u32 (log_start lg + Z.of_nat t + 1) = log_start lg + 1 + Z.of_nat t ∧
  0 ≤ log_start lg + 1 + Z.of_nat t < Z.of_nat N ∧ log_start lg + 1 + Z.of_nat t ≠ b ∧
  (log_start lg + 1 + Z.of_nat t ∉ bs).
Proof.
  intros Hb. pose proof (lookup_lt_Some _ _ _ Hb) as Hlt. pose proof Hlog as [_ _ Hbl Hs Hf HN Hh _ _].
  assert (b ∈ bs) as Hin by by eapply list_elem_of_lookup_2. destruct (Hh b Hin) as [Hr Hout].
  split_and!; [|done|unfold u32; rewrite Z.mod_small; lia|lia|lia|lia|].
  - rewrite aget_nat. rewrite <-Hbl in Hb. rewrite lookup_take_lt in Hb; done.
  - intros Hin'. destruct (Hh _ Hin') as [_ ?]. lia.
Qed.

(** One iteration of the loops: the two blocks are read and one is copied to
    the other. *)
Lemma log_iter k t b (to_log : bool) :
  log_state k → bs !! t = Some b →
  let a := log_start lg + 1 + Z.of_nat t in
  let src := if to_log then b else a in let dst := if to_log then a else b in
  ∃ x k1 y k2 k3 d, bread 1 a k = Ret x k1 ∧ k_log k1 = lg ∧ bread 1 b k1 = Ret y k2 ∧
    (if to_log then copy_block y x k2 else copy_block x y k2) = Ret tt k3 ∧
    contents k src d ∧ bio_step k k3 ∧ bc_inv pid [] k3 ∧
    k_disk k3 = <[Z.to_nat dst := d]> (k_disk k) ∧ k_writes k3 = k_writes k ++ [(dst, d)] ∧
    ∀ blk d, dirty k3 blk d ↔ dirty k blk d ∧ blk ≠ dst.
Proof.
  intros [He Hi Hlg HN Hd] Hb a src dst. destruct (log_block t b Hb) as (_ & Hin & _ & Hra & Hne & _). fold a in Hra, Hne.
  destruct (two_breads i c me pid k bs a b) as (x & bx & k1 & y & by' & k2 & Hr1 & Hr2 & Hst1 & Htb);
    [done|done|by rewrite HN|rewrite HN; by apply (lo_home _ _ _ Hlog)|done|done|pose proof (lo_room _ _ _ Hlog); lia|].
  assert (bio_env i c me pid k2) as He2 by (eapply bio_env_step; [apply Htb|done]).
  assert (k_log k1 = lg) as Hlg1 by by rewrite (bs_frame _ _ Hst1).
  assert (Hcx := tb_clx _ _ _ _ _ _ _ _ _ Htb). assert (Hcy := tb_cly _ _ _ _ _ _ _ _ _ Htb).
  pose proof (tb_blk1 _ _ _ _ _ _ _ _ _ Htb) as Hbx. pose proof (tb_blk2 _ _ _ _ _ _ _ _ _ Htb) as Hby.
  pose proof (tb_disk _ _ _ _ _ _ _ _ _ Htb) as Hdk. pose proof (tb_ne _ _ _ _ _ _ _ _ _ Htb) as Hxy.
  rewrite <-Hdk in Hcx, Hcy.
  destruct to_log; unfold src, dst.
  - destruct (copy_block_ret i c me pid k2 [y; x] y x by' bx) as (k3 & Hc & Hi3 & Hst3 & Hd3 & Hw3 & Hdi3);
      [done|apply Htb|apply Htb|apply Htb|done|set_solver|apply Htb|apply Htb|apply Htb|apply Htb|congruence|by rewrite Hby|].
    exists x, k1, y, k2, k3, (b_data by'). rewrite Hbx in Hd3, Hw3, Hdi3.
    split_and!; try done; [apply Htb|by etrans; [apply Htb|]|congruence|rewrite Hw3; f_equal; apply Htb|].
    intros blk d. by rewrite Hdi3, (tb_dirty _ _ _ _ _ _ _ _ _ Htb).
  - destruct (copy_block_ret i c me pid k2 [y; x] x y bx by') as (k3 & Hc & Hi3 & Hst3 & Hd3 & Hw3 & Hdi3);
      [done|apply Htb|apply Htb|apply Htb|done|set_solver|apply Htb|apply Htb|apply Htb|apply Htb|congruence|by rewrite Hbx|].
    exists x, k1, y, k2, k3, (b_data bx). rewrite Hby in Hd3, Hw3, Hdi3.
    split_and!; try done; [apply Htb|by etrans; [apply Htb|]|congruence|rewrite Hw3; f_equal; apply Htb|].
    intros blk d. by rewrite Hdi3, (tb_dirty _ _ _ _ _ _ _ _ _ Htb).
Qed.

(** What a phase of the commit leaves behind. *)
Record phase k k' (ws : list (Z * list Z)) : Prop := {
  ph_state : log_state k';
  ph_step : bio_step k k';
  ph_writes : k_writes k' = k_writes k ++ ws;
  ph_disk : k_disk k' = apply_writes (k_disk k) ws
}.

Lemma phase_trans k1 k2 k3 ws ws' : phase k1 k2 ws → phase k2 k3 ws' → phase k1 k3 (ws ++ ws').
Proof.
  intros [Hs1 Ht1 Hw1 Hd1] [Hs2 Ht2 Hw2 Hd2]. split; [done|by etrans|..].
  - by rewrite Hw2, Hw1, app_assoc.
  - by rewrite Hd2, Hd1, apply_writes_app.
Qed.
Lemma phase_nil k : log_state k → phase k k [].
Proof. intros Hs. split; [done|done|by rewrite app_nil_r|done]. Qed.

Lemma phase_one k k' blk d :
  log_state k → bio_step k k' → bc_inv pid [] k' → k_writes k' = k_writes k ++ [(blk, d)] →
  k_disk k' = <[Z.to_nat blk := d]> (k_disk k) → (∀ blk d, dirty k' blk d → dirty k blk d) →
  phase k k' [(blk, d)].
Proof.
  intros [He Hi Hlg HN Hd] Hst Hi' Hw Hdk Hdi. split; [|done|done|done]. split.
  - by eapply bio_env_step.
  - done.
  - by rewrite (bs_frame _ _ Hst).
  - rewrite Hdk. by rewrite length_insert.
  - intros b d' ?%Hdi. eauto.
Qed.

Lemma log_state_inv k : log_state k → bc_inv pid [] k. Proof. by intros []. Qed.

Lemma write_log_loop_ret bs2 : ∀ ds2 t k,
  log_state k → drop t bs = bs2 → length ds2 = length bs2 →
  (∀ j b d, bs2 !! j = Some b → ds2 !! j = Some d → dirty k b d) →
  ∃ k', write_log_loop (length bs2) (Z.of_nat t) k = Ret tt k' ∧
    phase k k' (log_writes (log_start lg + 1 + Z.of_nat t) ds2) ∧
    ∀ blk d, dirty k' blk d ↔ dirty k blk d.
Proof.
  induction bs2 as [|b bs2 IH]; intros ds2 t k Hs Hbs Hlen Hdirty.
  { destruct ds2; [|done]. exists k. split; [done|]. split; [by apply phase_nil|done]. }
  destruct ds2 as [|d0 ds2]; [done|]. cbn [length write_log_loop log_writes].
  assert (bs !! t = Some b) as Hb by (rewrite <-(Nat.add_0_r t), <-lookup_drop, Hbs; done).
  destruct (log_block t b Hb) as (Hget & _ & Hu & _ & _ & Hnlog).
  destruct (log_iter k t b true Hs Hb) as (x & k1 & y & k2 & k3 & d & Hr1 & Hlg1 & Hr2 & Hc & Hcont & Hst & Hi3 & Hd3 & Hw3 & Hdi3).
  assert (d = d0) as ->.
  { destruct Hcont as [Hdi|[_ Hn]]; [|by destruct (Hn d0); apply (Hdirty 0%nat)].
    eapply dirty_inj; [by apply log_state_inv|done|]. by apply (Hdirty 0%nat). }
  assert (∀ blk d, dirty k3 blk d ↔ dirty k blk d) as Hdi.
  { intros blk d. rewrite Hdi3. split; [by intros [? _]|]. intros Hdd. split; [done|]. intros ->.
    apply Hnlog. by eapply (ls_dirty _ Hs). }
  assert (phase k k3 [(log_start lg + 1 + Z.of_nat t, d0)]) as Hp1.
  { apply phase_one; try done. intros blk d. by rewrite Hdi. }
  destruct (IH ds2 (S t) k3) as (k' & Hrun & Hp2 & Hdi').
  { apply Hp1. } { by rewrite (drop_S _ _ _ Hb) in Hbs; simplify_eq. } { simpl in Hlen. lia. }
  { intros j b' d' Hj Hj'. apply Hdi. by apply (Hdirty (S j)). }
  exists k'. split; [|split].
  - unfold bind at 1, gets. rewrite (ls_log _ Hs), (lo_dev _ _ _ Hlog), Hu.
    rewrite (bind_ret_eq _ _ _ _ _ Hr1). rewrite Hget. cbn [get_or]. unfold bind at 1, ret.
    rewrite (bind_ret_eq _ _ _ _ _ Hr2). rewrite copy_block_bind.
    rewrite (bind_ret_eq _ _ _ _ _ Hc). by replace (Z.of_nat t + 1) with (Z.of_nat (S t)) by lia.
  - replace (log_start lg + 1 + Z.of_nat t + 1) with (log_start lg + 1 + Z.of_nat (S t)) by lia.
    by apply (phase_trans k k3 k' [_]).
  - intros blk d. by rewrite Hdi', Hdi.
Qed.

Lemma install_loop_ret bs2 : ∀ ds2 t k,
  log_state k → drop t bs = bs2 → length ds2 = length bs2 →
  (∀ j d, ds2 !! j = Some d → k_disk k !! Z.to_nat (log_start lg + 1 + Z.of_nat (t + j)) = Some d) →
  ∃ k', install_trans_loop (length bs2) (Z.of_nat t) k = Ret tt k' ∧
    phase k k' (zip bs2 ds2) ∧ ∀ blk d, dirty k' blk d ↔ dirty k blk d ∧ blk ∉ bs2.
Proof.
  induction bs2 as [|b bs2 IH]; intros ds2 t k Hs Hbs Hlen Hlogged.
  { destruct ds2; [|done]. exists k. split; [done|]. split; [by apply phase_nil|]. intros blk d. set_solver. }
  destruct ds2 as [|d0 ds2]; [done|]. cbn [length install_trans_loop zip zip_with].
  assert (bs !! t = Some b) as Hb by (rewrite <-(Nat.add_0_r t), <-lookup_drop, Hbs; done).
  destruct (log_block t b Hb) as (Hget & Hin & Hu & Hra & Hne & Hnlog).
  destruct (log_iter k t b false Hs Hb) as (x & k1 & y & k2 & k3 & d & Hr1 & Hlg1 & Hr2 & Hc & Hcont & Hst & Hi3 & Hd3 & Hw3 & Hdi3).
  assert (d = d0) as ->.
  { destruct Hcont as [Hdi|[Hdk _]]; [by destruct Hnlog; eapply (ls_dirty _ Hs)|].
    specialize (Hlogged 0%nat d0 eq_refl). rewrite Nat.add_0_r in Hlogged. congruence. }
  assert (phase k k3 [(b, d0)]) as Hp1.
  { apply phase_one; try done. intros blk d. rewrite Hdi3. by intros [? _]. }
  destruct (IH ds2 (S t) k3) as (k' & Hrun & Hp2 & Hdi').
  { apply Hp1. } { by rewrite (drop_S _ _ _ Hb) in Hbs; simplify_eq. } { simpl in Hlen. lia. }
  { intros j d Hj. rewrite Hd3. destruct (lo_home _ _ _ Hlog b Hin) as [Hrb Hout].
    assert (S t + j < length bs)%nat as Hlt.
    { apply lookup_lt_Some in Hj. assert (length bs2 = length bs - S t)%nat as Hl2.
      { rewrite (drop_S _ _ _ Hb) in Hbs. injection Hbs as <-. by rewrite length_drop. }
      simpl in Hlen. lia. }
    pose proof (lo_start _ _ _ Hlog). rewrite list_lookup_insert_ne by lia.
    replace (S t + j)%nat with (t + S j)%nat by lia. by apply Hlogged. }
  exists k'. split; [|split].
  - unfold bind at 1, gets. rewrite (ls_log _ Hs), (lo_dev _ _ _ Hlog), Hu.
    rewrite (bind_ret_eq _ _ _ _ _ Hr1). rewrite Hget. cbn [get_or]. unfold bind at 1, ret.
    rewrite (bind_ret_eq _ _ _ _ _ Hr2). rewrite copy_block_bind.
    rewrite (bind_ret_eq _ _ _ _ _ Hc). by replace (Z.of_nat t + 1) with (Z.of_nat (S t)) by lia.
  - by apply (phase_trans k k3 k' [_]).
  - intros blk d. rewrite Hdi', Hdi3. set_solver.
Qed.

Definition lg0 : logst := lg <| lh_n := 0 |>.

(** The writes of a commit, in the order they reach the disk; [hd] is the old
    header block. *)
Definition commit_writes (ds : list (list Z)) (hd : list Z) : list (Z * list Z) :=
  log_writes (log_start lg + 1) ds ++
  [(log_start lg, encode_head lg hd)] ++
  zip bs ds ++
  [(log_start lg, encode_head lg0 (encode_head lg hd))].

(** The header block is neither dirty nor written by the other phases. *)
Lemma head_clean k : log_state k → ∀ d, ~ dirty k (log_start lg) d.
Proof.
  intros Hs d Hd. apply (ls_dirty _ Hs) in Hd. destruct (lo_home _ _ _ Hlog _ Hd) as [_ ?]. lia.
Qed.
Lemma head_ready k : log_state k →
  0 ≤ log_start lg < Z.of_nat (length (k_disk k)) ∧ Z.of_nat (length (k_disk k)) ≤ 2147483648 ∧
  (length bs < NBUF)%nat.
Proof. intros Hs. rewrite (ls_N _ Hs). destruct Hlog. lia. Qed.

Lemma head_phase k :
  log_state k → ∃ hd k', k_disk k !! Z.to_nat (log_start lg) = Some hd ∧ write_head k = Ret tt k' ∧
    phase k k' [(log_start lg, encode_head lg hd)] ∧ ∀ blk d, dirty k' blk d ↔ dirty k blk d.
Proof.
  intros Hs. destruct (head_ready k Hs) as (Hr & HN & Hlt).
  destruct (write_head_ret i c me pid k lg bs) as (hd & k' & Hhd & Hret & Hst & Hi & Hw & Hd & Hdi);
    [apply Hs|apply Hs|apply Hs|apply Hlog|done|done|apply Hs|done|by apply head_clean|].
  exists hd, k'. split; [done|]. split; [done|]. split; [|done]. apply phase_one; try done.
  intros blk d. by rewrite Hdi.
Qed.

Lemma log_area_unwritten disk ds b :
  0 ≤ b → length ds = length bs → (b ∉ bs) →
  apply_writes disk (zip bs ds) !! Z.to_nat b = disk !! Z.to_nat b.
Proof.
  intros Hb Hlen Hn. apply apply_writes_other; [done|]. intros a d Hin. apply elem_of_zip_l in Hin.
  split; [by apply (lo_home _ _ _ Hlog)|]. intros ->. done.
Qed.

Lemma bio_step_log k k' lg' : bio_step k k' → bio_step (k <| k_log := lg' |>) (k' <| k_log := lg' |>).
Proof. intros [Hf Hp Hj]. split; [|done|done]. rewrite Hf. done. Qed.

(** The last step of a commit and of recovery: the header is cleared. *)
Lemma clear_head k :
  log_state k → (∀ blk d, ~ dirty k blk d) →
  ∃ hd k', k_disk k !! Z.to_nat (log_start lg) = Some hd ∧
    (upd_log (λ lg, lg <| lh_n := 0 |>) ;; write_head) k = Ret tt k' ∧
    bc_inv pid [] k' ∧ (∀ blk d, ~ dirty k' blk d) ∧ bio_step (k <| k_log := lg0 |>) k' ∧
    k_writes k' = k_writes k ++ [(log_start lg, encode_head lg0 hd)] ∧
    k_disk k' = apply_writes (k_disk k) [(log_start lg, encode_head lg0 hd)].
Proof.
  intros Hs Hcl. pose proof Hlog as [Hdev Hn Hbl Hst Hfit HN Hhome Hnd Hroom].
  set (k1 := k <| k_log := lg0 |>).
  destruct (write_head_ret i c me pid k1 lg0 []) as (hd & k2 & Hhd & Hr & Hst2 & Hi & Hw & Hd & Hdi).
  { destruct (ls_env _ Hs). split; try done. by eapply on_cpu_ext. } { by destruct (ls_inv _ Hs). }
  { done. } { done. } { simpl. rewrite (ls_N _ Hs). lia. } { simpl. rewrite (ls_N _ Hs). lia. }
  { by intros blk d ?%Hcl. } { simpl; lia. } { apply Hcl. }
  exists hd, k2. split; [done|]. split; [|split_and!].
  - unfold upd_log, bind, modify. rewrite (ls_log _ Hs). exact Hr.
  - done.
  - intros blk d. rewrite Hdi. apply Hcl.
  - exact Hst2.
  - done.
  - done.
Qed.

Lemma commit_ret k ds :
  log_state k → length ds = length bs → bs ≠ [] →
  (∀ j b d, bs !! j = Some b → ds !! j = Some d → dirty k b d) →
  ∃ hd k', k_disk k !! Z.to_nat (log_start lg) = Some hd ∧ commit k = Ret tt k' ∧
    bc_inv pid [] k' ∧ (∀ blk d, ~ dirty k' blk d) ∧ bio_step (k <| k_log := lg0 |>) k' ∧
    k_writes k' = k_writes k ++ commit_writes ds hd ∧
    k_disk k' = apply_writes (k_disk k) (commit_writes ds hd).
Proof.
  intros Hs Hlen Hne Hdirty. pose proof Hlog as [Hdev Hn Hbl Hst Hfit HN Hhome Hnd Hroom].
  destruct (write_log_loop_ret bs ds 0 k Hs) as (k1 & Hr1 & Hp1 & Hd1); [done|done|done|].
  rewrite Z.add_0_r in Hp1. pose proof (ph_state _ _ _ Hp1) as Hs1.
  assert (Hbefore : ∀ b d, (b, d) ∈ log_writes (log_start lg + 1) ds → 0 ≤ b ∧ b ≠ log_start lg)
    by (intros b d (j & -> & _)%elem_of_log_writes; lia).
  destruct (head_phase k1 Hs1) as (hd & k2 & Hhd & Hr2 & Hp2 & Hd2).
  pose proof (ph_state _ _ _ Hp2) as Hs2. pose proof (ls_N _ Hs) as HN0.
  destruct (install_loop_ret bs ds 0 k2 Hs2) as (k3 & Hr3 & Hp3 & Hd3); [done|done| |].
  { intros j d Hj. rewrite (ph_disk _ _ _ Hp2), (ph_disk _ _ _ Hp1). simpl.
    rewrite list_lookup_insert_ne by lia. apply lookup_log_writes; [lia|rewrite Hlen, HN0; lia|done]. }
  pose proof (ph_state _ _ _ Hp3) as Hs3.
  destruct (clear_head k3 Hs3) as (hd' & k4 & Hhd' & Hr4 & Hi4 & Hdi4 & Hlg4 & Hw4 & Hd4).
  { intros blk d [Hdd Hnb]%Hd3. apply Hnb. by eapply (ls_dirty _ Hs2). }
  assert (hd' = encode_head lg hd) as ->.
  { rewrite (ph_disk _ _ _ Hp3) in Hhd'. rewrite log_area_unwritten in Hhd'; [|done|done|].
    - rewrite (ph_disk _ _ _ Hp2) in Hhd'. simpl in Hhd'. rewrite list_lookup_insert_eq in Hhd'; [congruence|].
      rewrite (ls_N _ Hs1). lia.
    - intros Hin. destruct (Hhome _ Hin) as [_ ?]. lia. }
  exists hd, k4. split.
  { rewrite <-Hhd, (ph_disk _ _ _ Hp1). symmetry. by apply apply_writes_other. }
  split; [|split_and!; try done].
  - unfold commit, bind at 1, gets. rewrite (ls_log _ Hs), Hn.
    assert (write_log k = Ret tt k1) as Hwl.
    { unfold write_log, bind, gets. by rewrite (ls_log _ Hs), Hn, Nat2Z.id. }
    assert (install_trans k2 = Ret tt k3) as Hit.
    { unfold install_trans, bind, gets. by rewrite (ls_log _ Hs2), Hn, Nat2Z.id. }
    destruct (Z.ltb_spec 0 (Z.of_nat (length bs))); [|by destruct bs].
    cbn [when]. by rewrite (bind_ret_eq _ _ _ _ _ Hwl), (bind_ret_eq _ _ _ _ _ Hr2), (bind_ret_eq _ _ _ _ _ Hit).
  - etrans; [|exact Hlg4]. apply bio_step_log. etrans; [apply Hp1|]. etrans; [apply Hp2|apply Hp3].
  - rewrite Hw4, (ph_writes _ _ _ Hp3), (ph_writes _ _ _ Hp2), (ph_writes _ _ _ Hp1).
    unfold commit_writes. by rewrite <-!app_assoc.
  - rewrite Hd4, (ph_disk _ _ _ Hp3), (ph_disk _ _ _ Hp2), (ph_disk _ _ _ Hp1).
    unfold commit_writes. by rewrite !apply_writes_app.
Qed.
End transaction.
