(* ===== verification/Crash.v ===== *)
(** * Crash: recovery after a crash in the middle of a commit

    The disk after a crash holds the first writes of the commit only.  Recovery
    reads the header and copies the blocks it lists from the log to their homes.
    Whatever the number of writes that reached the disk, the blocks outside the
    log are those before the transaction or those after it. *)
From S2P Require Import Prelude.
From S2P Require Import Mem.
From S2P Require Import Str.
From S2P Require Import State.
From S2P Require Import Spin.
From S2P Require Import Cons.
From S2P Require Import Kalloc.
From S2P Require Import Vm.
From S2P Require Import Frame.
From S2P Require Import VmSpec.
From S2P Require Import Mlq.
From S2P Require Import Proc.
From S2P Require Import ProcSpec.
From S2P Require Import ProcWait.
From S2P Require Import Blk.
From S2P Require Import Bio.
From S2P Require Import BioSpec.
From S2P Require Import Cache.
From S2P Require Import Log.
From S2P Require Import LogSpec.

(** ** What recovery does to a disk *)

Definition head_n (hd : list Z) : nat := Z.to_nat (s32 (get32 hd 0)).
Definition head_blocks (hd : list Z) : list Z := get_words hd 4 (head_n hd).
Definition log_blocks (start : Z) (disk : list (list Z)) (n : nat) : list (list Z) :=
  (λ j, default [] (disk !! Z.to_nat (start + 1 + Z.of_nat j))) <$> seq 0 n.
Definition disk_head (start : Z) (disk : list (list Z)) : list Z := default [] (disk !! Z.to_nat start).

Definition recover_writes (start : Z) (disk : list (list Z)) : list (Z * list Z) :=
  let hd := disk_head start disk in
  zip (head_blocks hd) (log_blocks start disk (head_n hd)) ++ [(start, put32 hd 0 0)].
Definition recovered (start : Z) (disk : list (list Z)) : list (list Z) :=
  apply_writes disk (recover_writes start disk).

(** ** The header *)

Lemma head_count_encode lg hd :
  length hd = Z.to_nat BSIZE → 0 ≤ lh_n lg ≤ 126 → (Z.to_nat (lh_n lg) ≤ length (lh_block lg))%nat →
  s32 (get32 (encode_head lg hd) 0) = lh_n lg.
Proof.
  intros Hl Hn Hb. unfold encode_head. change (Z.to_nat BSIZE) with 512%nat in Hl.
  rewrite get32_put_words_before by (rewrite ?length_put32, ?length_take; lia).
  rewrite get32_put32_eq by lia. rewrite u32_small by lia. by rewrite s32_small by lia.
Qed.
Lemma head_n_encode lg hd :
  length hd = Z.to_nat BSIZE → 0 ≤ lh_n lg ≤ 126 → (Z.to_nat (lh_n lg) ≤ length (lh_block lg))%nat →
  head_n (encode_head lg hd) = Z.to_nat (lh_n lg).
Proof. intros. unfold head_n. by rewrite head_count_encode. Qed.

Lemma head_blocks_encode lg bs hd N :
  length hd = Z.to_nat BSIZE → log_ok lg bs N → head_blocks (encode_head lg hd) = bs.
Proof.
  intros Hl Hok. pose proof Hok as [_ Hn Hb _ _ HN Hh _ Hr]. change NBUF with 30%nat in Hr.
  assert (length bs ≤ length (lh_block lg))%nat as Hlen by (rewrite <-Hb, length_take; lia).
  unfold head_blocks. rewrite head_n_encode by (done || (rewrite Hn; lia)). rewrite Hn, Nat2Z.id.
  unfold encode_head, get_words. rewrite Hn, Nat2Z.id, Hb. change (Z.to_nat BSIZE) with 512%nat in Hl.
  apply list_eq. intros j. rewrite list_lookup_fmap. destruct (bs !! j) as [b|] eqn:Hj.
  - apply lookup_lt_Some in Hj as Hlt. rewrite lookup_seq_lt by done. cbn [fmap option_fmap option_map].
    rewrite Nat.add_0_l, (get32_put_words _ _ _ _ b) by (rewrite ?length_put32; lia || done).
    f_equal. apply u32_small. assert (b ∈ bs) as Hin by by eapply list_elem_of_lookup_2.
    destruct (Hh b Hin) as [? _]. lia.
  - apply lookup_ge_None in Hj. rewrite lookup_seq_ge by done. done.
Qed.

Lemma head_n_zero hd : get32 hd 0 = 0 → head_n hd = 0%nat.
Proof. intros H. unfold head_n. by rewrite H. Qed.
Lemma encode_head_zero lg hd : length hd = Z.to_nat BSIZE → lh_n lg = 0 → get32 (encode_head lg hd) 0 = 0.
Proof.
  intros Hl Hn. unfold encode_head. rewrite Hn. simpl. rewrite get32_put32_eq; [done|].
  rewrite Hl. change (Z.to_nat BSIZE) with 512%nat. lia.
Qed.
Lemma length_encode_head lg hd : length (encode_head lg hd) = length hd.
Proof. unfold encode_head. by rewrite length_put_words, length_put32. Qed.

(** ** Disks that differ inside the log only *)

Section crash.
Context (lg : logst) (bs : list Z) (N : nat) (Hlog : log_ok lg bs N).
Let start := log_start lg.

(** Block [b] is outside the header and the log blocks in use. *)
Definition outside (b : Z) : Prop := 0 ≤ b ∧ (b < start ∨ start + Z.of_nat (length bs) < b).
Definition agree_outside (d1 d2 : list (list Z)) : Prop :=
  ∀ b, outside b → d1 !! Z.to_nat b = d2 !! Z.to_nat b.

Lemma home_write disk ds j b d :
  length disk = N → bs !! j = Some b → ds !! j = Some d →
  apply_writes disk (zip bs ds) !! Z.to_nat b = Some d.
Proof.
  intros HN Hb Hd. pose proof (lo_nodup _ _ _ Hlog) as Hnd. pose proof (lo_home _ _ _ Hlog) as Hh.
  clear Hlog. revert disk ds j HN Hb Hd. induction bs as [|b0 l IH]; intros disk ds j HN Hb Hd; [done|].
  destruct ds as [|d0 ds]; [done|]. apply NoDup_cons in Hnd as [Hni Hnd].
  assert (∀ b, b ∈ l → 0 ≤ b < Z.of_nat N) as Hl by (intros b' Hb'; apply (Hh b'); by right).
  destruct (Hh b0) as [Hb0 _]; [left|].
  destruct j as [|j]; simpl in Hb, Hd; simplify_eq.
  - change (apply_writes disk (zip (b :: l) (d :: ds))) with (apply_writes (<[Z.to_nat b := d]> disk) (zip l ds)).
    rewrite apply_writes_other; [apply list_lookup_insert_eq; lia|lia|].
    intros a x Hin%elem_of_zip_l. split; [by apply Hl|]. by intros ->.
  - change (apply_writes disk (zip (b0 :: l) (d0 :: ds))) with (apply_writes (<[Z.to_nat b0 := d0]> disk) (zip l ds)).
    eapply IH; [done| |by rewrite length_insert|done|done]. 
    intros b' Hb'. split; [by apply Hl|]. destruct (Hh b') as [_ [?|?]]; [by right|by left|right; simpl in *; lia].
Qed.

Lemma outside_unwritten disk ws :
  (∀ b d, (b, d) ∈ ws → start ≤ b ≤ start + Z.of_nat (length bs)) → agree_outside (apply_writes disk ws) disk.
Proof.
  intros Hw b [Hb Ho]. apply apply_writes_other; [done|]. intros a d Hin. specialize (Hw a d Hin).
  pose proof (lo_start _ _ _ Hlog). fold start in H. split; lia.
Qed.

Lemma agree_apply d1 d2 ws :
  length d1 = length d2 → agree_outside d1 d2 → agree_outside (apply_writes d1 ws) (apply_writes d2 ws).
Proof.
  revert d1 d2. induction ws as [|[a d] ws IH]; intros d1 d2 Hl Ha; [done|]. simpl. apply IH.
  - by rewrite !length_insert.
  - intros b Hb. rewrite !list_lookup_insert, Hl. by rewrite (Ha b Hb).
Qed.

(** Replaying the transaction over a disk on which part of it has been
    installed. *)
Lemma agree_replay disk ds (ws : list (Z * list Z)) :
  length disk = N → length ds = length bs → ws `prefix_of` zip bs ds →
  agree_outside (apply_writes (apply_writes disk ws) (zip bs ds)) (apply_writes disk (zip bs ds)).
Proof.
  intros HN Hl Hpre b Hb. destruct (decide (b ∈ bs)) as [Hin|Hni].
  - apply list_elem_of_lookup in Hin as [j Hj]. destruct (lookup_lt_is_Some_2 ds j) as [d Hd].
    { rewrite Hl. by eapply lookup_lt_Some. }
    by rewrite !(home_write _ _ j b d) by (rewrite ?length_apply_writes; done).
  - rewrite !(log_area_unwritten lg bs N Hlog) by (done || apply Hb).
    apply apply_writes_other; [apply Hb|]. intros a d Hin. destruct Hpre as [ws' Hz].
    assert ((a, d) ∈ zip bs ds) as Hin' by (rewrite Hz; set_solver). apply elem_of_zip_l in Hin'.
    split; [by apply (lo_home _ _ _ Hlog)|]. by intros ->.
Qed.

Lemma agree_trans d1 d2 d3 : agree_outside d1 d2 → agree_outside d2 d3 → agree_outside d1 d3.
Proof. intros H1 H2 b Hb. by rewrite (H1 b Hb), (H2 b Hb). Qed.
Lemma agree_head disk d : agree_outside (<[Z.to_nat start := d]> disk) disk.
Proof.
  intros b [Hb Ho]. pose proof (lo_start _ _ _ Hlog). fold start in H. by rewrite list_lookup_insert_ne by lia.
Qed.

(** Recovery of a disk with an empty log changes the header only. *)
Lemma recover_empty disk : get32 (disk_head start disk) 0 = 0 → agree_outside (recovered start disk) disk.
Proof.
  intros Hz. unfold recovered, recover_writes, head_blocks. rewrite (head_n_zero _ Hz). apply agree_head.
Qed.

(** Recovery of a disk whose log holds [ds] installs them. *)
Lemma recover_full disk hd ds :
  length hd = Z.to_nat BSIZE → disk !! Z.to_nat start = Some (encode_head lg hd) → length ds = length bs →
  (∀ j d, ds !! j = Some d → disk !! Z.to_nat (start + 1 + Z.of_nat j) = Some d) →
  agree_outside (recovered start disk) (apply_writes disk (zip bs ds)).
Proof.
  intros Hl Hd Hlen Hds. unfold recovered, recover_writes, disk_head. rewrite Hd. simpl default.
  rewrite (head_blocks_encode lg bs hd N Hl Hlog).
  pose proof Hlog as [_ Hn Hb _ _ HN Hh _ Hr]. change NBUF with 30%nat in Hr.
  rewrite head_n_encode by (done || rewrite Hn, ?Nat2Z.id; lia || (rewrite <-Hb, length_take; lia)).
  rewrite Hn, Nat2Z.id. assert (log_blocks start disk (length bs) = ds) as ->.
  { apply list_eq. intros j. unfold log_blocks. rewrite list_lookup_fmap. destruct (ds !! j) as [d|] eqn:Hj.
    - rewrite lookup_seq_lt by (rewrite <-Hlen; by eapply lookup_lt_Some). simpl. by rewrite (Hds j d Hj).
    - apply lookup_ge_None in Hj. by rewrite lookup_seq_ge by lia. }
  rewrite apply_writes_app. apply agree_head.
Qed.

Lemma prefix_cases {A} (l l1 l2 : list A) :
  l `prefix_of` l1 ++ l2 → l `prefix_of` l1 ∨ ∃ l', l = l1 ++ l' ∧ l' `prefix_of` l2.
Proof.
  intros [x Hx]. apply app_eq_app in Hx as [y [[-> ->]|[-> ->]]].
  - left. by exists y.
  - right. exists y. split; [done|]. by exists x.
Qed.

Lemma home_not_log (ds : list (list Z)) (ws : list (Z * list Z)) a d :
  ws `prefix_of` zip bs ds → (a, d) ∈ ws → 0 ≤ a ∧ (a < start ∨ start + Z.of_nat (length bs) < a).
Proof.
  intros [ws' Hz] Hin. assert ((a, d) ∈ zip bs ds) as Hin' by (rewrite Hz; set_solver).
  apply elem_of_zip_l in Hin'. destruct (lo_home _ _ _ Hlog a Hin') as [? ?]. split; [lia|done].
Qed.

(** The disk when the header has been written and [ws] installed. *)
Lemma installed_disk disk hd ds (ws : list (Z * list Z)) :
  length disk = N → length ds = length bs → ws `prefix_of` zip bs ds →
  let disk' := apply_writes (<[Z.to_nat start := encode_head lg hd]>
    (apply_writes disk (log_writes (start + 1) ds))) ws in
  disk' !! Z.to_nat start = Some (encode_head lg hd) ∧
  (∀ j d, ds !! j = Some d → disk' !! Z.to_nat (start + 1 + Z.of_nat j) = Some d) ∧
  agree_outside disk' (apply_writes disk ws) ∧ length disk' = N.
Proof.
  intros HN Hlen Hpre disk'. pose proof (lo_start _ _ _ Hlog) as Hs. pose proof (lo_fit _ _ _ Hlog) as Hf.
  fold start in Hs, Hf. unfold disk'. rewrite length_apply_writes, length_insert, length_apply_writes.
  split_and!; [| | |done].
  - rewrite apply_writes_other; [|done|intros a d Hin; eapply home_not_log in Hin; [|done]; lia].
    apply list_lookup_insert_eq. rewrite length_apply_writes. lia.
  - intros j d Hj. pose proof (lookup_lt_Some _ _ _ Hj).
    rewrite apply_writes_other; [|lia|intros a d' Hin; eapply home_not_log in Hin; [|done]; lia].
    rewrite list_lookup_insert_ne by lia. apply lookup_log_writes; [lia|lia|done].
  - apply agree_apply; [by rewrite length_insert, length_apply_writes|].
    eapply agree_trans; [apply agree_head|]. apply outside_unwritten.
    intros b d (j & -> & Hj)%elem_of_log_writes. apply lookup_lt_Some in Hj. lia.
Qed.

(** A crash before the header is written loses the transaction. *)
Lemma crash_early disk hd ds (ws : list (Z * list Z)) :
  disk !! Z.to_nat start = Some hd → get32 hd 0 = 0 →
  length ds = length bs → ws `prefix_of` log_writes (start + 1) ds →
  agree_outside (recovered start (apply_writes disk ws)) disk.
Proof.
  intros Hhd Hz Hlen [ws' Hz']. pose proof (lo_start _ _ _ Hlog) as Hs. fold start in Hs.
  assert (∀ b d, (b, d) ∈ ws → start < b ≤ start + Z.of_nat (length bs)) as Hw.
  { intros b d Hin. assert ((b, d) ∈ log_writes (start + 1) ds) as Hin' by (rewrite Hz'; set_solver).
    apply elem_of_log_writes in Hin' as (j & -> & Hj). apply lookup_lt_Some in Hj. lia. }
  eapply agree_trans; [apply recover_empty|apply outside_unwritten; intros b d ?%Hw; lia].
  unfold disk_head. rewrite apply_writes_other; [by rewrite Hhd|done|intros b d ?%Hw; lia].
Qed.

(** A crash after the header is written and before it is cleared. *)
Lemma crash_installing disk hd ds (ws : list (Z * list Z)) :
  length disk = N → length hd = Z.to_nat BSIZE → length ds = length bs → ws `prefix_of` zip bs ds →
  agree_outside (recovered start (apply_writes disk
      (log_writes (start + 1) ds ++ [(start, encode_head lg hd)] ++ ws)))
    (apply_writes disk (zip bs ds)).
Proof.
  intros HN Hl Hlen Hpre. rewrite !apply_writes_app.
  destruct (installed_disk disk hd ds ws HN Hlen Hpre) as (Hh & Hd & Ha & HN').
  eapply agree_trans; [by eapply recover_full|].
  eapply agree_trans; [|by apply agree_replay]. apply agree_apply; [|done].
  etrans; [exact HN'|by rewrite length_apply_writes].
Qed.

(** The disk when the commit is complete: the blocks are home and the header is
    clear. *)
Lemma commit_disk disk hd ds :
  length disk = N → length hd = Z.to_nat BSIZE → length ds = length bs →
  let disk' := apply_writes disk (commit_writes lg bs ds hd) in
  agree_outside disk' (apply_writes disk (zip bs ds)) ∧
  ∃ hd', disk' !! Z.to_nat start = Some hd' ∧ length hd' = Z.to_nat BSIZE ∧ get32 hd' 0 = 0.
Proof.
  intros HN Hl Hlen disk'. unfold disk', commit_writes. fold start. rewrite !apply_writes_app.
  destruct (installed_disk disk hd ds (zip bs ds) HN Hlen (reflexivity _)) as (Hh & Hd & Ha & HN').
  simpl in HN', Ha |- *. split; [eapply agree_trans; [apply agree_head|done]|].
  eexists. split; [apply list_lookup_insert_eq; rewrite HN'; destruct Hlog; unfold start; lia|].
  split; [by rewrite !length_encode_head|]. apply encode_head_zero; [by rewrite length_encode_head|done].
Qed.

(** A crash when the commit is complete. *)
Lemma crash_late disk hd ds :
  length disk = N → length hd = Z.to_nat BSIZE → length ds = length bs →
  agree_outside (recovered start (apply_writes disk (commit_writes lg bs ds hd)))
    (apply_writes disk (zip bs ds)).
Proof.
  intros HN Hl Hlen. destruct (commit_disk disk hd ds HN Hl Hlen) as (Ha & hd' & Hh & _ & Hz).
  eapply agree_trans; [apply recover_empty|done]. unfold disk_head. by rewrite Hh.
Qed.

(** Where a crash can fall in the writes of a commit. *)
Lemma crash_cases hd ds (ws : list (Z * list Z)) :
  length ds = length bs → ws `prefix_of` commit_writes lg bs ds hd →
  ws `prefix_of` log_writes (start + 1) ds ∧ (length ws ≤ length bs)%nat ∨
  (∃ ws', ws = log_writes (start + 1) ds ++ [(start, encode_head lg hd)] ++ ws' ∧ ws' `prefix_of` zip bs ds) ∨
  ws = commit_writes lg bs ds hd.
Proof.
  intros Hlen Hpre. pose proof (length_log_writes (start + 1) ds) as Hll.
  apply prefix_cases in Hpre as [Hpre|(ws1 & -> & Hpre)].
  { left. split; [done|]. apply prefix_length in Hpre. fold start in Hpre. lia. }
  fold start in Hpre |- *. destruct ws1 as [|w ws1].
  { left. rewrite app_nil_r. split; [done|lia]. }
  right. pose proof (prefix_cons_inv_1 _ _ _ _ Hpre) as ->. apply prefix_cons_inv_2 in Hpre. simpl in Hpre.
  apply prefix_cases in Hpre as [Hpre|(ws2 & -> & Hpre)]; [left; by eexists|].
  destruct ws2 as [|w ws2]; [left; exists (zip bs ds); by rewrite app_nil_r|right].
  pose proof (prefix_cons_inv_1 _ _ _ _ Hpre) as ->. by apply prefix_cons_inv_2, prefix_nil_inv in Hpre as ->.
Qed.

(** The point of no return is the write of the header. *)
Lemma crash_recovers disk hd ds (ws : list (Z * list Z)) :
  length disk = N → disk !! Z.to_nat start = Some hd → length hd = Z.to_nat BSIZE → get32 hd 0 = 0 →
  length ds = length bs → ws `prefix_of` commit_writes lg bs ds hd →
  agree_outside (recovered start (apply_writes disk ws))
    (if decide (length ws ≤ length bs)%nat then disk else apply_writes disk (zip bs ds)).
Proof.
  intros HN Hhd Hl Hz Hlen Hpre. pose proof (length_log_writes (start + 1) ds) as Hll.
  apply crash_cases in Hpre as [[Hpre Hle]|[(ws' & -> & Hpre)| ->]]; [|..|done].
  - rewrite decide_True by done. by eapply crash_early.
  - rewrite decide_False by (rewrite length_app; simpl; lia). by apply crash_installing.
  - rewrite decide_False; [by apply crash_late|]. unfold commit_writes. fold start.
    rewrite !length_app. simpl. lia.
Qed.

(** The header such a disk has. *)
Lemma crash_header disk hd ds (ws : list (Z * list Z)) :
  length disk = N → disk !! Z.to_nat start = Some hd → length hd = Z.to_nat BSIZE → get32 hd 0 = 0 →
  length ds = length bs → ws `prefix_of` commit_writes lg bs ds hd →
  ∃ hd', apply_writes disk ws !! Z.to_nat start = Some hd' ∧ length hd' = Z.to_nat BSIZE ∧
    (get32 hd' 0 = 0 ∨ hd' = encode_head lg hd).
Proof.
  intros HN Hhd Hl Hz Hlen Hpre. pose proof (lo_start _ _ _ Hlog) as Hs. pose proof (lo_fit _ _ _ Hlog) as Hf.
  fold start in Hs, Hf.
  apply crash_cases in Hpre as [[[ws' Hz'] Hle]|[(ws' & -> & Hpre)| ->]]; [|..|done].
  - exists hd. split; [|by auto]. rewrite apply_writes_other; [done|done|]. intros b d Hin.
    assert ((b, d) ∈ log_writes (start + 1) ds) as Hin' by (rewrite Hz'; set_solver).
    apply elem_of_log_writes in Hin' as (j & -> & _). lia.
  - exists (encode_head lg hd). rewrite !apply_writes_app. rewrite length_encode_head.
    destruct (installed_disk disk hd ds ws' HN Hlen Hpre) as (Hh & _). auto.
  - exists (encode_head (lg0 lg) (encode_head lg hd)). unfold commit_writes. fold start.
    rewrite !apply_writes_app, !length_encode_head. split; [|split; [done|left]].
    + simpl. apply list_lookup_insert_eq. rewrite length_apply_writes, length_insert, length_apply_writes. lia.
    + apply encode_head_zero; [by rewrite length_encode_head|done].
Qed.
End crash.
