(* ===== verification/Recover.v ===== *)
(** * Recover: [recover_from_log] on a freshly booted machine

    The function performs the writes [recover_writes] computes from the disk,
    so that the results of [Crash] are about the code that runs at boot. *)
From S2P Require Import Prelude.
From S2P Require Import Mem.
From S2P Require Import Str.
From S2P Require Import State.
From S2P Require Import Spin.
From S2P Require Import Cons.
From S2P Require Import Kalloc.
From S2P Require Import Vm.
From S2P Require Import Frame.
From S2P Require Import VmSpec.
From S2P Require Import Mlq.
From S2P Require Import Proc.
From S2P Require Import ProcSpec.
From S2P Require Import ProcWait.
From S2P Require Import Blk.
From S2P Require Import Bio.
From S2P Require Import BioSpec.
From S2P Require Import Cache.
From S2P Require Import Log.
From S2P Require Import LogSpec.
From S2P Require Import Crash.

(** The in-memory header read from the block [hd]. *)
Definition read_log (lg : logst) (hd : list Z) : logst :=
  lg <| lh_n := s32 (get32 hd 0) |> <| lh_block := splice (lh_block lg) 0 (head_blocks hd) |>.

(** A machine that has booted: nothing is held or dirty in the cache. *)
Record rebooted (i : nat) (c : cpu) (me : nat) (pid : Z) (start : Z) (k : kernel) : Prop := {
  re_env : bio_env i c me pid k;
  re_cache : bc_inv pid [] k;
  re_clean blk d : ~ dirty k blk d;
  re_dev : log_dev (k_log k) = 1;
  re_start : log_start (k_log k) = start;
  re_array : length (lh_block (k_log k)) = Z.to_nat LOGSIZE
}.

Lemma splice_step l t w ws :
  (t < length l)%nat → splice (<[t := w]> l) (S t) ws = splice l t (w :: ws).
Proof.
  intros Ht. unfold splice. rewrite (take_S_r _ _ w) by by apply list_lookup_insert_eq.
  rewrite take_insert_ge by lia. rewrite <-app_assoc. simpl. do 3 f_equal.
  rewrite drop_insert_lt by lia. f_equal. lia.
Qed.
Lemma splice_nil l t : splice l t [] = l.
Proof. unfold splice. simpl. by rewrite Nat.add_0_r, take_drop. Qed.

Lemma kernel_log_eta k : k = k <| k_log := k_log k <| lh_block := lh_block (k_log k) |> |>.
Proof. destruct k. simpl. by destruct k_log. Qed.

Lemma read_blocks_ret (hd : list Z) n : ∀ t k,
  (t + n ≤ length (lh_block (k_log k)))%nat →
  for_each (seq t n) (λ i,
    lg ← gets k_log;
    blocks ← get_or "lh.block" (aset (lh_block lg) (Z.of_nat i) (get32 hd (4 + 4 * i)));
    upd_log (λ lg, lg <| lh_block := blocks |>)) k =
  Ret tt (k <| k_log := k_log k <| lh_block :=
    splice (lh_block (k_log k)) t ((λ i, get32 hd (4 + 4 * i)) <$> seq t n) |> |>).
Proof.
  induction n as [|n IH]; intros t k Hl.
  { cbn [seq for_each fmap list_fmap]. rewrite splice_nil. unfold ret. f_equal. apply kernel_log_eta. }
  cbn [seq for_each fmap list_fmap]. unfold bind at 1 2 3, gets. rewrite aset_nat by lia.
  cbn [get_or]. unfold ret, upd_log at 1, modify. rewrite IH by (simpl; rewrite length_insert; lia).
  simpl. f_equal. rewrite splice_step by lia. done.
Qed.

(** Only the log differs. *)
Lemma bio_env_log i c me pid k lg : bio_env i c me pid k → bio_env i c me pid (k <| k_log := lg |>).
Proof. intros []. split; try done. by eapply on_cpu_ext. Qed.
Lemma bc_inv_log pid H k lg : bc_inv pid H k → bc_inv pid H (k <| k_log := lg |>).
Proof. by intros []. Qed.

(** A header block that describes a transaction on a disk of [N] blocks. *)
Record head_ok (start : Z) (hd : list Z) (N : nat) : Prop := {
  ho_len : length hd = Z.to_nat BSIZE;
  ho_n : 0 ≤ s32 (get32 hd 0);
  ho_start : 0 ≤ start;
  ho_fit : start + Z.of_nat (head_n hd) < Z.of_nat N;
  ho_N : Z.of_nat N ≤ 2147483648;
  ho_home b : b ∈ head_blocks hd → 0 ≤ b < Z.of_nat N ∧ (b < start ∨ start + Z.of_nat (head_n hd) < b);
  ho_nodup : NoDup (head_blocks hd);
  ho_room : (head_n hd + 2 ≤ NBUF)%nat
}.

Lemma length_head_blocks hd : length (head_blocks hd) = head_n hd.
Proof. unfold head_blocks, get_words. by rewrite length_fmap, length_seq. Qed.

Lemma read_log_ok lg hd N :
  head_ok (log_start lg) hd N → log_dev lg = 1 → length (lh_block lg) = Z.to_nat LOGSIZE →
  log_ok (read_log lg hd) (head_blocks hd) N.
Proof.
  intros [Hl Hn Hs Hf HN Hh Hnd Hr] Hdev Har. split; try done; rewrite ?length_head_blocks; try done.
  - simpl. unfold head_n. lia.
  - unfold read_log. simpl. unfold splice. simpl. by rewrite <-length_head_blocks, take_app_length.
Qed.

Section recover.
Context (i : nat) (c : cpu) (me : nat) (pid : Z) (start : Z).
Implicit Types (k : kernel).

Lemma read_head_ret k hd :
  rebooted i c me pid start k → 0 ≤ start < Z.of_nat (length (k_disk k)) →
  Z.of_nat (length (k_disk k)) ≤ 2147483648 → k_disk k !! Z.to_nat start = Some hd →
  (head_n hd ≤ Z.to_nat LOGSIZE)%nat →
  ∃ k', read_head k = Ret tt k' ∧ k_log k' = read_log (k_log k) hd ∧
    bio_env i c me pid k' ∧ bc_inv pid [] k' ∧ (∀ blk d, ~ dirty k' blk d) ∧
    k_disk k' = k_disk k ∧ k_writes k' = k_writes k.
Proof.
  intros [He Hi Hcl Hdev Hst Har] Hs HN Hhd Hn. unfold read_head, bind at 1, gets at 1.
  rewrite Hdev, Hst, u32_small by lia.
  destruct (bread_ret i c me pid k [] [] start) as (x & b & k1 & Hr & Hb);
    [done|done|done|by intros ? ? ?%not_elem_of_nil|by intros ? ? ?%Hcl|unfold NBUF; simpl; lia|].
  rewrite (bind_ret_eq _ _ _ _ _ Hr).
  destruct (read_block_facts _ _ _ _ _ _ _ Hb) as (Hc & Hf & Hdk).
  destruct Hc as [Hd|[Hd _]]; [by apply Hcl in Hd|].
  assert (b_data b = hd) as Hdata by congruence. unfold get_data, get_buf at 1.
  unfold bind at 1 2 3, gets at 1, get_or at 1. rewrite (rb_buf _ _ _ _ _ _ _ Hb). unfold ret at 1 2. rewrite Hdata.
  unfold upd_log at 1, modify at 1, bind at 1.
  assert (k_log k1 = k_log k) as Hlg by by rewrite (bs_frame _ _ (rb_step _ _ _ _ _ _ _ Hb)).
  erewrite bind_ret_eq; [|apply read_blocks_ret; simpl; rewrite Hlg, Har; exact Hn].
  set (k2 := k1 <| k_log := read_log (k_log k) hd |>).
  destruct (brelse_ret i c me pid k2 [x] [] x b) as (k3 & Hr3 & Hi3 & Hl3).
  { apply bio_env_log. eapply bio_env_step; [apply Hb|done]. } { apply bc_inv_log, Hb. } { apply Hb. }
  { set_solver. } { apply Hb. }
  { intros Hfl. simpl. rewrite (rb_disk _ _ _ _ _ _ _ Hb), (rb_blk _ _ _ _ _ _ _ Hb). by apply Hdk. }
  { intros y. rewrite list_elem_of_singleton. set_solver. }
  assert (dirty k2 = dirty k1) as Hd2 by done.
  exists k3. split; [|split_and!].
  - etrans; [|exact Hr3]. f_equal. unfold k2, read_log. rewrite <-Hlg. done.
  - by rewrite (bs_frame _ _ (rl_step _ _ _ Hl3)).
  - eapply bio_env_step; [apply Hl3|]. apply bio_env_log. eapply bio_env_step; [apply Hb|done].
  - done.
  - intros blk d. rewrite (rl_dirty _ _ _ Hl3), Hd2, (rb_dirty _ _ _ _ _ _ _ Hb). apply Hcl.
  - rewrite (rl_disk _ _ _ Hl3). apply Hb.
  - rewrite (rl_writes _ _ _ Hl3). apply Hb.
Qed.

(** Recovery performs exactly the writes [recover_writes]. *)
Lemma recover_ret k hd :
  rebooted i c me pid start k → k_disk k !! Z.to_nat start = Some hd →
  head_ok start hd (length (k_disk k)) →
  ∃ k', recover_from_log k = Ret tt k' ∧ bc_inv pid [] k' ∧ (∀ blk d, ~ dirty k' blk d) ∧
    lh_n (k_log k') = 0 ∧ k_disk k' = recovered start (k_disk k) ∧
    k_writes k' = k_writes k ++ recover_writes start (k_disk k).
Proof.
  intros Hre Hhd Hok. pose proof Hre as [He Hi Hcl Hdev Hst Har].
  pose proof Hok as [Hl Hn Hs Hf HN Hh Hnd Hr]. change NBUF with 30%nat in Hr.
  destruct (read_head_ret k hd Hre) as (k1 & Hr1 & Hlg1 & He1 & Hi1 & Hcl1 & Hd1 & Hw1);
    [lia|done|done|change (Z.to_nat LOGSIZE) with 30%nat; lia|].
  rewrite <-Hst in Hok. pose proof (read_log_ok _ _ _ Hok Hdev Har) as Hlo.
  set (lg1 := read_log (k_log k) hd) in *. set (bs := head_blocks hd) in *.
  assert (log_state i c me pid lg1 bs (length (k_disk k)) k1) as Hs1.
  { split; [done|done|done|by rewrite Hd1|]. by intros blk d ?%Hcl1. }
  set (ds := log_blocks start (k_disk k) (head_n hd)).
  assert (length ds = length bs) as Hlds by (unfold ds, log_blocks, bs; by rewrite length_head_blocks, length_fmap, length_seq).
  destruct (install_loop_ret i c me pid lg1 bs _ Hlo bs ds 0 k1 Hs1) as (k2 & Hr2 & Hp2 & Hdi2); [done|done| |].
  { intros j d Hj. unfold ds, log_blocks in Hj. rewrite list_lookup_fmap in Hj.
    destruct (seq 0 (head_n hd) !! j) as [j'|] eqn:Hj'; [|done]. apply lookup_seq in Hj' as [-> Hlt]. simpl in Hj.
    injection Hj as <-. rewrite Hd1. change (log_start lg1) with (log_start (k_log k)). rewrite Hst.
    destruct (lookup_lt_is_Some_2 (k_disk k) (Z.to_nat (start + 1 + Z.of_nat j))) as [d Hd]; [lia|]. simpl. by rewrite Hd. }
  pose proof (ph_state _ _ _ _ _ _ _ _ _ _ Hp2) as Hs2.
  destruct (clear_head i c me pid lg1 bs _ Hlo k2 Hs2) as (hd' & k3 & Hhd' & Hr3 & Hi3 & Hcl3 & Hlg3 & Hw3 & Hd3).
  { by intros blk d [?%Hcl1 _]%Hdi2. }
  change (log_start lg1) with (log_start (k_log k)) in *. rewrite Hst in *.
  assert (hd' = hd) as ->.
  { rewrite (ph_disk _ _ _ _ _ _ _ _ _ _ Hp2), Hd1 in Hhd'.
    rewrite (log_area_unwritten lg1 bs _ Hlo) in Hhd'; [congruence|done|done|]. intros [_ ?]%Hh. lia. }
  assert (k_disk k3 = recovered start (k_disk k) ∧ k_writes k3 = k_writes k ++ recover_writes start (k_disk k)) as [Hfd Hfw].
  { unfold recovered, recover_writes, disk_head. rewrite Hhd. simpl default. fold bs ds.
    rewrite Hw3, Hd3, (ph_writes _ _ _ _ _ _ _ _ _ _ Hp2), (ph_disk _ _ _ _ _ _ _ _ _ _ Hp2), Hw1, Hd1.
    by rewrite apply_writes_app, app_assoc. }
  exists k3. split; [|split_and!]; try done; [|by rewrite (bs_frame _ _ Hlg3)].
  unfold recover_from_log. rewrite (bind_ret_eq _ _ _ _ _ Hr1).
  assert (install_trans k1 = Ret tt k2) as Hit.
  { unfold install_trans, bind, gets. rewrite Hlg1, (lo_n _ _ _ Hlo), Nat2Z.id. exact Hr2. }
  by rewrite (bind_ret_eq _ _ _ _ _ Hit).
Qed.
End recover.

(** ** A crash in the middle of a commit *)

Section commit.
Context (i : nat) (c : cpu) (me : nat) (pid : Z) (lg : logst) (bs : list Z) (N : nat).
Context (Hlog : log_ok lg bs N).

Lemma head_ok_zero hd : length hd = Z.to_nat BSIZE → get32 hd 0 = 0 → head_ok (log_start lg) hd N.
Proof.
  intros Hl Hz. pose proof Hlog as [_ _ _ Hs Hf HN _ _ _].
  split; unfold head_blocks; rewrite ?(head_n_zero _ Hz); simpl; try done; try lia.
  - by rewrite Hz.
  - by intros b ?%not_elem_of_nil.
  - apply NoDup_nil_2.
  - unfold NBUF. lia.
Qed.
Lemma head_ok_encode hd : length hd = Z.to_nat BSIZE → head_ok (log_start lg) (encode_head lg hd) N.
Proof.
  intros Hl. pose proof Hlog as [_ Hn Hb Hs Hf HN Hh Hnd Hr].
  assert (head_n (encode_head lg hd) = length bs) as Hhn
    by by rewrite <-length_head_blocks, (head_blocks_encode _ bs _ N).
  split; rewrite ?Hhn, ?(head_blocks_encode _ bs _ N), ?length_encode_head by done; try done.
  rewrite head_count_encode; rewrite ?Hn; unfold NBUF in Hr; try done; [lia|lia|].
  rewrite Nat2Z.id, <-Hb, length_take. lia.
Qed.

(** The machine crashes after the first [n] writes of a commit. *)
Lemma commit_crash k ds hd :
  log_state i c me pid lg bs N k → length ds = length bs → bs ≠ [] →
  (∀ j b d, bs !! j = Some b → ds !! j = Some d → dirty k b d) →
  k_disk k !! Z.to_nat (log_start lg) = Some hd → length hd = Z.to_nat BSIZE → get32 hd 0 = 0 →
  ∃ k' ws, commit k = Ret tt k' ∧ bc_inv pid [] k' ∧ (∀ blk d, ~ dirty k' blk d) ∧
    bio_step (k <| k_log := lg <| lh_n := 0 |> |>) k' ∧
    k_writes k' = k_writes k ++ ws ∧ k_disk k' = apply_writes (k_disk k) ws ∧
    agree_outside lg bs (k_disk k') (apply_writes (k_disk k) (zip bs ds)) ∧
    (∃ hd', k_disk k' !! Z.to_nat (log_start lg) = Some hd' ∧ length hd' = Z.to_nat BSIZE ∧ get32 hd' 0 = 0) ∧
    ∀ n i' c' me' pid' kb,
      rebooted i' c' me' pid' (log_start lg) kb → k_disk kb = apply_writes (k_disk k) (take n ws) →
      ∃ kr, recover_from_log kb = Ret tt kr ∧ lh_n (k_log kr) = 0 ∧
        agree_outside lg bs (k_disk kr)
          (if decide (n ≤ length bs)%nat then k_disk k else apply_writes (k_disk k) (zip bs ds)).
Proof.
  intros Hs Hlen Hne Hdirty Hhd Hl Hz. pose proof (ls_N _ _ _ _ _ _ _ _ Hs) as HN.
  destruct (commit_ret i c me pid lg bs N Hlog k ds Hs Hlen Hne Hdirty)
    as (hd' & k' & Hhd' & Hret & Hi' & Hcl' & Hst' & Hw & Hd). assert (hd' = hd) as -> by congruence.
  exists k', (commit_writes lg bs ds hd). destruct (commit_disk lg bs N Hlog (k_disk k) hd ds HN Hl Hlen) as [Hag0 Hhd0]. rewrite <-Hd in Hag0, Hhd0.
  split_and!; try done. intros n i' c' me' pid' kb Hre Hdk.
  set (ws := take n (commit_writes lg bs ds hd)) in *.
  assert (ws `prefix_of` commit_writes lg bs ds hd) as Hpre by apply prefix_take.
  destruct (crash_header lg bs N Hlog (k_disk k) hd ds ws) as (hh & Hhh & Hlh & Hor); try done.
  destruct (recover_ret i' c' me' pid' (log_start lg) kb hh) as (kr & Hrr & _ & _ & Hn0 & Hdr & _).
  { done. } { by rewrite Hdk. }
  { rewrite Hdk, length_apply_writes, HN. destruct Hor as [?| ->]; [by apply head_ok_zero|by apply head_ok_encode]. }
  exists kr. split_and!; [done|done|]. rewrite Hdr, Hdk.
  pose proof (crash_recovers lg bs N Hlog (k_disk k) hd ds ws HN Hhd Hl Hz Hlen Hpre) as Hag.
  destruct (decide (n ≤ length bs)%nat); case_decide as Hc; try done; exfalso; revert Hc; unfold ws;
    rewrite length_take; [lia|]. unfold commit_writes. rewrite !length_app, length_log_writes. simpl. lia.
Qed.
End commit.
