(* ===== verification/Txn.v ===== *)
(** * Txn: a file-system operation as a transaction

    An operation brackets its updates with [begin_op] and [end_op] and makes
    each of them the way [log.c] prescribes: read the block, modify it, call
    [log_write], release it.  The updates take effect together: when the
    operation returns they are all on the disk, and a crash at any moment leaves
    all of them or none. *)
From S2P Require Import Prelude.
From S2P Require Import Mem.
From S2P Require Import Str.
From S2P Require Import State.
From S2P Require Import Spin.
From S2P Require Import Boot.
From S2P Require Import Cons.
From S2P Require Import Kalloc.
From S2P Require Import Vm.
From S2P Require Import Frame.
From S2P Require Import VmSpec.
From S2P Require Import Mlq.
From S2P Require Import Proc.
From S2P Require Import ProcSpec.
From S2P Require Import ProcWait.
From S2P Require Import Blk.
From S2P Require Import Bio.
From S2P Require Import BioSpec.
From S2P Require Import Cache.
From S2P Require Import BioInit.
From S2P Require Import Log.
From S2P Require Import LogSpec.
From S2P Require Import Crash.
From S2P Require Import Recover.

Abbreviation update := (Z * (list Z → list Z))%type.

(** The typical use of [log_write], as its comment gives it. *)
Definition update_block (u : update) : K unit :=
  bp ← bread 1 u.1;
  upd_data bp u.2 ;;
  log_write bp ;;
  brelse bp.
Definition operation (us : list update) : K unit :=
  begin_op ;; for_each us update_block ;; end_op.

(** What the updates mean. *)
Definition apply_updates (us : list update) (disk : list (list Z)) : list (list Z) :=
  foldl (λ dk u, alter u.2 (Z.to_nat u.1) dk) disk us.

Lemma length_apply_updates us disk : length (apply_updates us disk) = length disk.
Proof. revert disk. induction us as [|u us IH]; intros disk; [done|]. simpl. by rewrite IH, length_alter. Qed.
Lemma apply_updates_app us us' disk : apply_updates (us ++ us') disk = apply_updates us' (apply_updates us disk).
Proof. apply foldl_app. Qed.

(** ** [log_write] *)

Definition logged (blk : Z) (lg : logst) : logst :=
  if bool_decide (blk ∈ take (Z.to_nat (lh_n lg)) (lh_block lg)) then lg
  else lg <| lh_block := <[Z.to_nat (lh_n lg) := blk]> (lh_block lg) |> <| lh_n := lh_n lg + 1 |>.

(** The index the loop of [log_write] ends with, and the header it leaves. *)
Lemma log_slot blk lg :
  0 ≤ lh_n lg < LOGSIZE → length (lh_block lg) = Z.to_nat LOGSIZE →
  ∃ j lb, match find_first (λ n, n =? blk) (take (Z.to_nat (lh_n lg)) (lh_block lg)) with
          | Some i => Z.of_nat i | None => lh_n lg end = j ∧
    aset (lh_block lg) j blk = Some lb ∧
    logged blk lg = if j =? lh_n lg then lg <| lh_block := lb |> <| lh_n := lh_n lg + 1 |> else lg <| lh_block := lb |>.
Proof.
  intros Hn Har. unfold LOGSIZE in *. unfold logged. destruct (find_first _ _) as [i|] eqn:Hf.
  - apply find_first_Some in Hf as (x & Hx & Hb & _). apply Z.eqb_eq in Hb as ->.
    rewrite bool_decide_true by by eapply list_elem_of_lookup_2.
    apply lookup_take_Some in Hx as [Hx Hi]. exists (Z.of_nat i), (lh_block lg). split; [done|].
    rewrite aset_nat, list_insert_id by (done || by eapply lookup_lt_Some). split; [done|].
    destruct (Z.eqb_spec (Z.of_nat i) (lh_n lg)); [lia|]. by destruct lg.
  - assert (blk ∉ take (Z.to_nat (lh_n lg)) (lh_block lg)) as Hni.
    { intros Hin. rewrite find_first_None in Hf. apply Hf in Hin. by rewrite Z.eqb_refl in Hin. }
    rewrite bool_decide_false by done. eexists _, _. split; [done|].
    rewrite <-(Z2Nat.id (lh_n lg)) at 1 by lia. rewrite aset_nat by (rewrite Har; lia). split; [done|].
    by rewrite Z.eqb_refl.
Qed.

Lemma log_write_ret k i c x b lg :
  on_cpu k i c → lock_free LLog k → k_log k = lg → 0 ≤ lh_n lg < LOGSIZE → lh_n lg < log_size lg - 1 →
  1 ≤ log_outstanding lg → length (lh_block lg) = Z.to_nat LOGSIZE → k_bcache k !! x = Some b →
  log_write x k = Ret tt (k <| k_log := logged (b_blockno b) lg |>
    <| k_bcache := <[x := b <| b_flags := Z.lor (b_flags b) B_DIRTY |>]> (k_bcache k) |>).
Proof.
  intros Hoc Hl Hlg Hn Hsz Ho Har Hb. unfold log_write, bind at 1, gets at 1. rewrite Hlg.
  destruct (Z.leb_spec LOGSIZE (lh_n lg)); [lia|]. destruct (Z.leb_spec (log_size lg - 1) (lh_n lg)); [lia|].
  cbn [orb]. destruct (Z.ltb_spec (log_outstanding lg) 1); [lia|].
  erewrite bind_ret_eq by by apply acquire_ret.
  unfold get_buf at 1, bind at 1 2, gets at 1, get_or at 1. simpl. rewrite Hb. unfold ret at 1.
  unfold bind at 1, gets at 1. simpl. rewrite Hlg.
  destruct (log_slot (b_blockno b) lg Hn Har) as (j & lb & -> & Hset & Hlogged).
  rewrite Hset. cbn [get_or]. unfold bind at 1, ret at 1.
  unfold bind at 1, upd_log at 1, modify at 1. simpl. rewrite Hlg.
  assert (∀ k', k_log k' = lg <| lh_block := lb |> →
    when (j =? lh_n lg) (upd_log (λ lg, lg <| lh_n := lh_n lg + 1 |>)) k' =
    Ret tt (k' <| k_log := logged (b_blockno b) lg |>)) as Hw.
  { intros k' Hk'. rewrite Hlogged. destruct (j =? lh_n lg); cbn [when]; unfold upd_log, modify, ret.
    - by rewrite Hk'.
    - rewrite <-Hk'. f_equal. by destruct k'. }
  erewrite bind_ret_eq by by apply Hw. unfold upd_buf, bind at 1, modify at 1. simpl.
  rewrite (alter_lookup _ _ _ _ Hb). by apply (release_ret LLog k i c).
Qed.

(** ** The state inside an operation *)

Section txn.
Context (i : nat) (c : cpu) (me : nat) (pid : Z) (k0 : kernel) (start size o : Z).
Let N := length (k_disk k0).
Let disk := k_disk k0.
Implicit Types (HB : list (nat * Z)) (D : list (list Z)) (bs : list Z) (k : kernel).

(** A block outside the log. *)
Definition home (b : Z) : Prop := 0 ≤ b < Z.of_nat N ∧ (b < start ∨ start + size ≤ b).

(** The log fits on the disk. *)
Definition layout_ok : Prop := 0 ≤ start ∧ 1 ≤ size ∧ start + size ≤ Z.of_nat N ∧ Z.of_nat N ≤ 2147483648.

(** The caller's buffer [x] has block [blk] of the disk [D]. *)
Definition holds_block D (k : kernel) (x : nat) (blk : Z) : Prop :=
  (x < NBUF)%nat ∧ home blk ∧ ∃ b, k_bcache k !! x = Some b ∧ b_blockno b = blk ∧ b_flags b ≠ 0 ∧
    D !! Z.to_nat blk = Some (b_data b).

(** In the middle of an operation: [HB] are the buffers the caller holds with
    their blocks, [D] is the disk as the operation has made it so far, of which
    the blocks [bs] differ from the real one and are in the log. *)
Record txn HB D bs k : Prop := {
  tx_env : bio_env i c me pid k;
  tx_inv : bc_inv pid HB.*1 k;
  tx_lock : lock_free LLog k;
  tx_log : k_log k = mkLog start size o 0 1 (Z.of_nat (length bs)) (lh_block (k_log k));
  tx_arr : length (lh_block (k_log k)) = Z.to_nat LOGSIZE;
  tx_take : take (length bs) (lh_block (k_log k)) = bs;
  tx_home b : b ∈ bs → home b;
  tx_nodup : NoDup bs;
  tx_disk : k_disk k = disk;
  tx_writes : k_writes k = k_writes k0;
  tx_len : length D = N;
  tx_dirty blk d : dirty k blk d ↔ blk ∈ bs ∧ D !! Z.to_nat blk = Some d;
  tx_clean blk : 0 ≤ blk → blk ∉ bs → D !! Z.to_nat blk = disk !! Z.to_nat blk;
  tx_hnodup : NoDup HB.*1;
  tx_held x blk : (x, blk) ∈ HB → holds_block D k x blk
}.

(** What the steps of an operation leave alone. *)
Definition tstep k k' : Prop := bio_step (k <| k_log := k_log k' |>) k'.

Lemma tstep_trans k1 k2 k3 : tstep k1 k2 → tstep k2 k3 → tstep k1 k3.
Proof.
  unfold tstep. intros H1 H2. apply (bio_step_log _ _ (k_log k3)) in H1. etrans; [exact H1|exact H2].
Qed.
Lemma bio_tstep k k' : bio_step k k' → tstep k k'.
Proof. intros H. unfold tstep. destruct H as [Hf Hp Hj]. split; [rewrite Hf; done|done|done]. Qed.

(** What a read returns is what the operation so far made of the block. *)
Lemma txn_contents HB D bs k blk d :
  txn HB D bs k → home blk → contents k blk d → D !! Z.to_nat blk = Some d.
Proof.
  intros Ht [Hr _] [Hd|[Hd Hn]]; [by apply (tx_dirty _ _ _ _ Ht) in Hd as [_ ?]|].
  destruct (decide (blk ∈ bs)) as [Hin|Hni].
  - destruct (lookup_lt_is_Some_2 D (Z.to_nat blk)) as [d' Hd']; [rewrite (tx_len _ _ _ _ Ht); lia|].
    destruct (Hn d'). by apply (tx_dirty _ _ _ _ Ht).
  - rewrite (tx_clean _ _ _ _ Ht) by (done || lia). by rewrite <-(tx_disk _ _ _ _ Ht).
Qed.

Lemma txn_bread HB D bs k blk :
  txn HB D bs k → home blk → blk ∉ HB.*2 → (length bs + length HB < NBUF)%nat →
  ∃ x k', bread 1 blk k = Ret x k' ∧ txn ((x, blk) :: HB) D bs k' ∧ tstep k k'.
Proof.
  intros Ht Hh Hni Hlt. pose proof Ht as [He Hi Hl Hlg Har Htk Hho Hnd Hd Hw Hlen Hdi Hcl Hhn Hhe].
  destruct (bread_ret i c me pid k HB.*1 bs blk) as (x & b & k1 & Hr & Hb);
    [done|done|rewrite Hd; apply Hh| |by intros ? ? [? _]%Hdi|by rewrite length_fmap|].
  { intros x b [[x' blk'] [-> Hin]]%list_elem_of_fmap Hb Hbb. destruct (Hhe _ _ Hin) as (_ & _ & b' & Hb' & Hbl & _).
    destruct Hni. apply list_elem_of_fmap. exists (x', blk'). split; [simpl in *; congruence|done]. }
  destruct (read_block_facts _ _ _ _ _ _ _ Hb) as (Hc & Hf & _).
  pose proof (rb_step _ _ _ _ _ _ _ Hb) as Hst. exists x, k1. split; [done|]. split; [|by apply bio_tstep].
  assert (k_log k1 = k_log k) as Hlg1 by by rewrite (bs_frame _ _ Hst).
  split; try done; rewrite ?Hlg1; try done.
  - by eapply bio_env_step.
  - apply Hb.
  - unfold lock_free. by rewrite (bs_frame _ _ Hst).
  - by rewrite (rb_disk _ _ _ _ _ _ _ Hb).
  - by rewrite (rb_writes _ _ _ _ _ _ _ Hb).
  - intros blk' d. by rewrite (rb_dirty _ _ _ _ _ _ _ Hb).
  - apply NoDup_cons. split; [apply Hb|done].
  - intros y blk' [[= -> ->]|Hin]%elem_of_cons.
    + split; [apply Hb|]. split; [done|]. exists b. split; [apply Hb|]. split; [apply Hb|]. split; [done|].
      by eapply txn_contents.
    + destruct (Hhe _ _ Hin) as (Hy & Hhy & by' & Hby & Hrest). split; [done|]. split; [done|]. exists by'.
      rewrite (rb_others _ _ _ _ _ _ _ Hb); [done|]. intros ->. apply (rb_new _ _ _ _ _ _ _ Hb).
      apply list_elem_of_fmap. by exists (x, blk').
Qed.

Lemma txn_get_data HB D bs k x blk :
  txn HB D bs k → (x, blk) ∈ HB → ∃ d, get_data x k = Ret d k ∧ D !! Z.to_nat blk = Some d.
Proof.
  intros Ht Hin. destruct (tx_held _ _ _ _ Ht _ _ Hin) as (_ & _ & b & Hb & _ & _ & Hd). exists (b_data b).
  split; [|done]. unfold get_data, get_buf, bind, gets. by rewrite Hb.
Qed.

Definition add_block (b : Z) (bs : list Z) : list Z := if decide (b ∈ bs) then bs else bs ++ [b].

Lemma elem_of_add_block b x bs : x ∈ add_block b bs ↔ x = b ∨ x ∈ bs.
Proof. unfold add_block. case_decide; set_solver. Qed.
Lemma NoDup_add_block b bs : NoDup bs → NoDup (add_block b bs).
Proof.
  intros Hn. unfold add_block. case_decide; [done|]. apply NoDup_app. split; [done|]. split; [set_solver|].
  apply NoDup_singleton.
Qed.

Lemma logged_add_block b bs lg :
  lh_n lg = Z.of_nat (length bs) → take (length bs) (lh_block lg) = bs → (length bs < length (lh_block lg))%nat →
  let lg' := logged b lg in
  lh_n lg' = Z.of_nat (length (add_block b bs)) ∧ take (length (add_block b bs)) (lh_block lg') = add_block b bs ∧
  length (lh_block lg') = length (lh_block lg) ∧
  lg' = mkLog (log_start lg) (log_size lg) (log_outstanding lg) (log_committing lg) (log_dev lg) (lh_n lg') (lh_block lg').
Proof.
  intros Hn Ht Hl. unfold logged, add_block. rewrite Hn, Nat2Z.id, Ht. destruct (decide (b ∈ bs)) as [Hin|Hni].
  - rewrite bool_decide_true by done. split_and!; try done. by destruct lg.
  - rewrite bool_decide_false by done. simpl. rewrite length_app, length_insert. simpl. split_and!; [lia| |done|done].
    rewrite Nat.add_1_r, (take_S_r _ _ b) by by apply list_lookup_insert_eq. by rewrite take_insert_ge, Ht.
Qed.

(** The buffer of [blk] with new contents, dirty. *)
Lemma dirty_update H k k' x b d :
  bc_inv pid H k → (x < NBUF)%nat → k_bcache k !! x = Some b → b_flags b ≠ 0 → b_flags d = 6 → b_blockno d = b_blockno b →
  k_bcache k' = <[x := d]> (k_bcache k) →
  ∀ blk v, dirty k' blk v ↔ if decide (blk = b_blockno b) then v = b_data d else dirty k blk v.
Proof.
  intros Hi Hx Hb Hf Hd Hbl Hk blk v. assert (x < length (k_bcache k))%nat by by eapply lookup_lt_Some.
  destruct (bc_flags _ _ _ Hi x b Hx Hb) as [?|(_ & Hdev & _)]; [done|].
  split.
  - intros (y & z & Hy & Hz & H6 & Hbz & Hv). rewrite Hk in Hz.
    apply list_lookup_insert_Some in Hz as [(<- & -> & _)|(Hne & Hz)].
    + rewrite decide_True by congruence. congruence.
    + destruct (decide (blk = b_blockno b)) as [He|]; [|by exists y, z].
      destruct Hne. eapply (bc_uniq _ _ _ Hi x y b z); try done; [|congruence].
      destruct (bc_flags _ _ _ Hi y z Hy Hz) as [?|(_ & ? & _)]; [congruence|done].
  - case_decide as He.
    + intros ->. exists x, d. rewrite Hk, list_lookup_insert_eq by done. split_and!; congruence.
    + intros (y & z & Hy & Hz & H6 & Hbz & Hv). exists y, z. rewrite Hk.
      rewrite list_lookup_insert_ne; [done|]. intros ->. congruence.
Qed.

(** The buffer after the modification and [log_write]. *)
Definition written (f : list Z → list Z) (b : buf) : buf :=
  b <| b_data := f (b_data b) |> <| b_flags := Z.lor (b_flags b) B_DIRTY |>.

Lemma bc_inv_written H k x b f lg :
  bc_inv pid H k → (x < NBUF)%nat → x ∈ H → k_bcache k !! x = Some b → b_flags b ≠ 0 →
  bc_inv pid H (k <| k_log := lg |> <| k_bcache := <[x := written f b]> (k_bcache k) |>) ∧ b_flags (written f b) = 6.
Proof.
  intros Hi Hx HxH Hb Hf. destruct (bc_flags _ _ _ Hi x b Hx Hb) as [?|(Hor & Hdev & Hr)]; [done|].
  assert (b_flags (written f b) = 6) as H6 by (simpl; by destruct Hor as [-> | ->]).
  split; [|done]. eapply (bc_inv_insert pid H H k _ x b (written f b)); try done.
  - apply (bc_ref _ _ _ Hi x b Hx Hb).
  - apply (bc_lock _ _ _ Hi x Hx).
  - intros y z Hne Hy Hz Hdz _ Heq. destruct Hne. by eapply (bc_uniq _ _ _ Hi y x z b).
  - right. split; [by right|]. done.
Qed.

Lemma txn_write_run HB D bs k x b f :
  txn HB D bs k → k_bcache k !! x = Some b → Z.of_nat (length bs) < Z.min LOGSIZE (size - 1) → 1 ≤ o →
  (upd_data x f ;; log_write x) k =
  Ret tt (k <| k_log := logged (b_blockno b) (k_log k) |> <| k_bcache := <[x := written f b]> (k_bcache k) |>).
Proof.
  intros [He Hi Hl Hlg Har Htk Hho Hnd Hd Hw Hlen Hdi Hcl Hhn Hhe] Hbx Hn Ho. unfold LOGSIZE in Hn.
  assert (x < length (k_bcache k))%nat by by eapply lookup_lt_Some.
  unfold upd_data, upd_buf, bind at 1, modify at 1. rewrite (alter_lookup _ _ _ _ Hbx).
  rewrite (log_write_ret _ i c x (b <| b_data := f (b_data b) |>) (k_log k)); simpl; try done.
  - by rewrite list_insert_insert_eq.
  - eapply on_cpu_ext; [apply He|done..].
  - rewrite Hlg. simpl. unfold LOGSIZE. lia.
  - rewrite Hlg. simpl. lia.
  - by rewrite Hlg.
  - by rewrite list_lookup_insert_eq.
Qed.

(** [upd_data] and [log_write] on a held buffer. *)
Lemma txn_write HB D bs k x blk f d :
  txn HB D bs k → (x, blk) ∈ HB → D !! Z.to_nat blk = Some d → Z.of_nat (length bs) < Z.min LOGSIZE (size - 1) → 1 ≤ o →
  ∃ k', (upd_data x f ;; log_write x) k = Ret tt k' ∧
    txn HB (<[Z.to_nat blk := f d]> D) (add_block blk bs) k' ∧ tstep k k'.
Proof.
  intros Ht Hin HDd Hn Ho. pose proof Ht as [He Hi Hl Hlg Har Htk Hho Hnd Hd Hw Hlen Hdi Hcl Hhn Hhe].
  unfold LOGSIZE in Hn. destruct (Hhe _ _ Hin) as (Hx & Hh & b & Hbx & Hblk & Hf & HDb). simplify_eq.
  assert (x < length (k_bcache k))%nat by by eapply lookup_lt_Some.
  assert (x ∈ HB.*1) as HxH by (apply list_elem_of_fmap; by exists (x, b_blockno b)).
  set (blk := b_blockno b) in *.
  destruct (bc_inv_written HB.*1 k x b f (logged blk (k_log k)) Hi Hx HxH Hbx Hf) as [Hi3 H6].
  set (k3 := k <| k_log := logged blk (k_log k) |> <| k_bcache := <[x := written f b]> (k_bcache k) |>) in *.
  pose proof (txn_write_run HB D bs k x b f Ht Hbx Hn Ho) as Hlw. fold k3 in Hlw.
  exists k3. split; [done|]. split; [|split; done].
  destruct (logged_add_block blk bs (k_log k)) as (Hn' & Ht' & Hl' & Heta).
  { by rewrite Hlg. } { done. } { rewrite Har. unfold LOGSIZE in *. lia. }
  assert (∀ b', 0 ≤ b' → <[Z.to_nat blk:=f (b_data b)]> D !! Z.to_nat b' =
    if decide (b' = blk) then Some (f (b_data b)) else D !! Z.to_nat b') as HD'.
  { intros b' Hb'. case_decide as Heq; [subst b'; apply list_lookup_insert_eq; by eapply lookup_lt_Some|].
    apply list_lookup_insert_ne. destruct Hh. lia. }
  assert (∀ b', b' ∈ add_block blk bs → home b') as Hhome by (intros b' [->|?]%elem_of_add_block; auto).
  split; try done.
  - eapply bio_env_step; [|by apply (bio_env_log _ _ _ _ k (logged blk (k_log k)))]. split; done.
  - change (k_log k3) with (logged blk (k_log k)). rewrite Heta, Hn'. simpl. rewrite Hlg. done.
  - simpl. by rewrite Hl'.
  - by apply NoDup_add_block.
  - by rewrite length_insert.
  - intros b' v. rewrite (dirty_update _ k k3 x b (written f b) Hi Hx Hbx Hf H6) by done. fold blk.
    rewrite elem_of_add_block. destruct (decide (b' = blk)) as [->|Hne].
    + rewrite HD', decide_True by (done || apply Hh). simpl. naive_solver.
    + rewrite Hdi. split; intros [Hi' Hv].
      * split; [by right|]. rewrite HD', decide_False by (done || apply (Hho _ Hi')). done.
      * destruct Hi' as [?|Hi']; [done|]. split; [done|]. by rewrite HD', decide_False in Hv by (done || apply (Hho _ Hi')).
  - intros b' Hb' Hni. rewrite elem_of_add_block in Hni. rewrite HD', decide_False by naive_solver. apply Hcl; naive_solver.
  - intros y blk' Hin'. destruct (Hhe _ _ Hin') as (Hy & Hhy & by' & Hby & Hbl' & Hf' & HDy).
    split; [done|]. split; [done|]. rewrite HD' by apply Hhy. simpl. destruct (decide (y = x)) as [->|Hne].
    + exists (written f b). rewrite list_lookup_insert_eq by done. split; [done|]. simplify_eq.
      split; [done|]. split; [by rewrite H6|]. by rewrite decide_True.
    + exists by'. rewrite list_lookup_insert_ne by done. split; [done|]. split; [done|]. split; [done|].
      rewrite decide_False; [done|]. intros Heq. destruct Hne. subst blk'.
      destruct (bc_flags _ _ _ Hi x b Hx Hbx) as [?|(_ & ? & _)]; [done|].
      destruct (bc_flags _ _ _ Hi y by' Hy Hby) as [?|(_ & ? & _)]; [done|].
      by eapply (bc_uniq _ _ _ Hi y x by' b).
Qed.

(** A held buffer that is not dirty is the disk's block. *)
Lemma txn_held_clean HB D bs k x blk b :
  txn HB D bs k → (x, blk) ∈ HB → k_bcache k !! x = Some b → b_flags b = 2 →
  k_disk k !! Z.to_nat (b_blockno b) = Some (b_data b).
Proof.
  intros Ht Hin Hb H2. destruct (tx_held _ _ _ _ Ht _ _ Hin) as (Hx & [Hr _] & b' & Hb' & Hbl & Hf & HD). simplify_eq.
  rewrite (tx_disk _ _ _ _ Ht), <-(tx_clean _ _ _ _ Ht); [done|lia|]. intros Hin'.
  assert (dirty k (b_blockno b) (b_data b)) as (y & z & Hy & Hz & H6 & Hbz & _) by by apply (tx_dirty _ _ _ _ Ht).
  pose proof (tx_inv _ _ _ _ Ht) as Hi. assert (y = x) as ->; [|congruence].
  destruct (bc_flags _ _ _ Hi x b Hx Hb) as [?|(_ & ? & _)]; [congruence|].
  destruct (bc_flags _ _ _ Hi y z Hy Hz) as [?|(_ & ? & _)]; [congruence|].
  by eapply (bc_uniq _ _ _ Hi y x z b).
Qed.

Lemma txn_brelse HB D bs k x blk :
  txn ((x, blk) :: HB) D bs k → ∃ k', brelse x k = Ret tt k' ∧ txn HB D bs k' ∧ tstep k k'.
Proof.
  intros Ht. pose proof Ht as [He Hi Hl Hlg Har Htk Hho Hnd Hd Hw Hlen Hdi Hcl Hhn Hhe].
  assert ((x, blk) ∈ (x, blk) :: HB) as Hin by left.
  destruct (Hhe _ _ Hin) as (Hx & _ & b & Hb & _). apply NoDup_cons in Hhn as [Hni Hhn].
  destruct (brelse_ret i c me pid k ((x, blk) :: HB).*1 HB.*1 x b) as (k1 & Hr & Hi1 & Hl1); try done.
  { left. } { by eapply txn_held_clean. }
  { intros y. simpl in *. rewrite elem_of_cons. split; [|naive_solver]. intros Hy. split; [by right|]. intros ->. done. }
  pose proof (rl_step _ _ _ Hl1) as Hst. exists k1. split; [done|]. split; [|by apply bio_tstep].
  assert (k_log k1 = k_log k) as Hlg1 by by rewrite (bs_frame _ _ Hst).
  split; try done; rewrite ?Hlg1; try done.
  - by eapply bio_env_step.
  - unfold lock_free. by rewrite (bs_frame _ _ Hst).
  - by rewrite (rl_disk _ _ _ Hl1).
  - by rewrite (rl_writes _ _ _ Hl1).
  - intros blk' d. by rewrite (rl_dirty _ _ _ Hl1).
  - intros y blk' Hin'. destruct (Hhe y blk') as (Hy & Hhy & by' & Hby & Hbl & Hf & HD); [by right|].
    split; [done|]. split; [done|].
    destruct (rl_others _ _ _ Hl1 y by') as (z & Hz & Hbody); [|done|].
    { intros ->. destruct Hni. apply list_elem_of_fmap. by exists (x, blk'). }
    destruct (body_inj _ _ Hbody) as (? & ? & ? & ? & ?). exists z. split_and!; congruence.
Qed.

Lemma update_block_ret k u bs D :
  txn [] D bs k → home u.1 → Z.of_nat (length bs) < Z.min LOGSIZE (size - 1) → 1 ≤ o →
  ∃ k', update_block u k = Ret tt k' ∧ txn [] (alter u.2 (Z.to_nat u.1) D) (add_block u.1 bs) k'.
Proof.
  intros Ht Hh Hn Ho. destruct (txn_bread [] D bs k u.1 Ht Hh) as (x & k1 & Hr1 & Ht1 & _);
    [set_solver|simpl; unfold LOGSIZE, NBUF in *; lia|].
  destruct (txn_get_data _ _ _ _ x u.1 Ht1) as (d & _ & HD); [left|].
  destruct (txn_write _ _ _ _ x u.1 u.2 d Ht1) as (k2 & Hr2 & Ht2 & _); [left|done|done|done|].
  destruct (txn_brelse _ _ _ _ _ _ Ht2) as (k3 & Hr3 & Ht3 & _).
  exists k3. rewrite (alter_lookup _ _ _ _ HD). split; [|done]. unfold update_block.
  by rewrite (bind_ret_eq _ _ _ _ _ Hr1), (bind2_ret_eq _ _ _ _ _ _ Hr2).
Qed.

(** All the updates; the distinct blocks fit in the log. *)
Lemma updates_ret us2 : ∀ us bs k,
  txn [] (apply_updates us disk) bs k → Forall (λ u, home u.1) us2 → 1 ≤ o →
  (∀ l, NoDup l → (∀ b, b ∈ l → b ∈ bs ∨ b ∈ us2.*1) → Z.of_nat (length l) < Z.min LOGSIZE (size - 1)) →
  ∃ bs' k', for_each us2 update_block k = Ret tt k' ∧ txn [] (apply_updates (us ++ us2) disk) bs' k' ∧ (∀ b, b ∈ bs' ↔ b ∈ bs ∨ b ∈ us2.*1).
Proof.
  induction us2 as [|u us2 IH]; intros us bs k Ht Hh Ho Hfit.
  { exists bs, k. rewrite app_nil_r. split; [done|]. split; [done|]. set_solver. }
  apply Forall_cons in Hh as [Hhu Hh].
  destruct (update_block_ret k u bs _ Ht Hhu) as (k1 & Hr & Ht1).
  { apply Hfit; [apply (tx_nodup _ _ _ _ Ht)|]. set_solver. } { done. }
  change (alter _ _ _) with (apply_updates [u] (apply_updates us disk)) in Ht1. rewrite <-apply_updates_app in Ht1.
  destruct (IH (us ++ [u]) (add_block u.1 bs) k1 Ht1 Hh Ho) as (bs' & k' & Hr' & Ht' & Hbs').
  { intros l Hl Hin. apply Hfit; [done|]. intros b Hb. specialize (Hin b Hb). rewrite elem_of_add_block in Hin.
    rewrite fmap_cons, elem_of_cons. naive_solver. }
  exists bs', k'. simpl. rewrite (bind_ret_eq _ _ _ _ _ Hr). split; [done|]. rewrite <-app_assoc in Ht'. split; [done|].
  intros b. rewrite Hbs', elem_of_add_block, elem_of_cons. naive_solver.
Qed.
End txn.

(** ** The whole operation *)

Section operation.
Context (i : nat) (c : cpu) (me : nat) (pid : Z) (start size : Z).
Implicit Types (k : kernel).

(** Between operations: nothing is outstanding, the cache is clean and the log
    on the disk is empty. *)
Record idle k : Prop := {
  id_env : bio_env i c me pid k;
  id_inv : bc_inv pid [] k;
  id_clean blk d : ~ dirty k blk d;
  id_lock : lock_free LLog k;
  id_log : k_log k = mkLog start size 0 0 1 0 (lh_block (k_log k));
  id_arr : length (lh_block (k_log k)) = Z.to_nat LOGSIZE;
  id_head : ∃ hd, k_disk k !! Z.to_nat start = Some hd ∧ length hd = Z.to_nat BSIZE ∧ get32 hd 0 = 0
}.

Lemma begin_op_ret k :
  idle k → ∃ k', begin_op k = Ret tt k' ∧ txn i c me pid k start size 1 [] (k_disk k) [] k' ∧ k' = k <| k_log := k_log k' |>.
Proof.
  intros [He Hi Hcl Hl Hlg Har Hhd]. exists (k <| k_log := mkLog start size 1 0 1 0 (lh_block (k_log k)) |>). split.
  - unfold begin_op. erewrite bind_ret_eq by (apply acquire_ret; [apply He|done]).
    unfold begin_op_loop, bind at 1, gets at 1. simpl. rewrite Hlg. simpl.
    unfold upd_log, bind, modify. rewrite (release_ret LLog k i c) by (done || apply He).
    simpl. rewrite Hlg. done.
  - split; [|done]. split; try done; simpl.
    + by apply bio_env_log.
    + by apply bc_inv_log.
    + by intros b ?%not_elem_of_nil.
    + apply NoDup_nil_2.
    + intros blk d. split; [by intros ?%Hcl|by intros [?%not_elem_of_nil _]].
    + apply NoDup_nil_2.
    + by intros x blk ?%not_elem_of_nil.
Qed.

(** [end_op] up to the call of [commit]. *)
Lemma end_op_commit k0 k D bs k' :
  txn i c me pid k0 start size 1 [] D bs k →
  let kc := k <| k_log := mkLog start size 0 1 1 (Z.of_nat (length bs)) (lh_block (k_log k)) |> in
  commit kc = Ret tt k' → bio_env i c me pid k' → lock_free LLog k' → log_committing (k_log k') = 1 →
  end_op k = Ret tt (k' <| k_log := k_log k' <| log_committing := 0 |> |>
    <| k_proc := wake (Some ChLog) (k_ticks k') <$> k_proc k' |>).
Proof.
  intros [He Hi Hl Hlg Har _ _ _ _ _ _ _ _ _ _] kc Hc He' Hl' Hcm. unfold end_op.
  erewrite bind_ret_eq by (apply acquire_ret; [apply He|done]).
  unfold upd_log at 1, bind at 1, modify at 1. unfold bind at 1, gets at 1. simpl. rewrite Hlg. simpl.
  unfold upd_log at 1, bind at 1, modify at 1. simpl. rewrite Hlg. simpl.
  erewrite bind_ret_eq by (apply (release_ret LLog k i c); [apply He|done..]).
  rewrite (bind_ret_eq _ _ _ _ _ Hc).
  erewrite bind_ret_eq by (apply acquire_ret; [apply He'|done]).
  unfold upd_log at 1, bind at 1, modify at 1.
  erewrite bind_ret_eq.
  2: { apply (wakeup_ret ChLog _ i (c <| c_ncli := c_ncli c + 1 |>)).
       destruct (table_ready_locked LLog k' i c) as [H1 H2 H3]; [by destruct He'|done|].
       split; [by eapply on_cpu_ext|exact H2|exact H3]. }
  by apply (release_ret LLog k' i c); [apply He'|..].
Qed.

Lemma wake_step ch t k : bio_step k (k <| k_proc := wake ch t <$> k_proc k |>).
Proof.
  split; [done| |done]. simpl. rewrite <-list_fmap_compose. apply list_fmap_ext. intros j p _. simpl.
  unfold wake. by destruct (_ && _).
Qed.
Lemma dirty_frame k k' : k_bcache k' = k_bcache k → ∀ blk d, dirty k' blk d ↔ dirty k blk d.
Proof. intros Hb blk d. unfold dirty. by rewrite Hb. Qed.

(** The state [end_op] leaves, from the state [k'] [commit] leaves. *)
Lemma end_op_idle kc k' lb n :
  bio_env i c me pid kc → lock_free LLog kc → length lb = Z.to_nat LOGSIZE →
  bio_step (kc <| k_log := mkLog start size 0 1 1 n lb <| lh_n := 0 |> |>) k' →
  bc_inv pid [] k' → (∀ blk d, ~ dirty k' blk d) →
  (∃ hd, k_disk k' !! Z.to_nat start = Some hd ∧ length hd = Z.to_nat BSIZE ∧ get32 hd 0 = 0) →
  let ke := k' <| k_log := k_log k' <| log_committing := 0 |> |> <| k_proc := wake (Some ChLog) (k_ticks k') <$> k_proc k' |> in
  bio_env i c me pid k' ∧ lock_free LLog k' ∧ log_committing (k_log k') = 1 ∧ idle ke ∧ tstep kc ke.
Proof.
  intros He Hl Hlb Hst Hi Hcl Hhd ke.
  assert (bio_env i c me pid k') as He' by (eapply bio_env_step; [exact Hst|by apply bio_env_log]).
  assert (k_log k' = mkLog start size 0 1 1 0 lb) as Hlg by by rewrite (bs_frame _ _ Hst).
  assert (lock_free LLog k') as Hl' by (unfold lock_free; by rewrite (bs_frame _ _ Hst)).
  split_and!; [done|done|by rewrite Hlg| |].
  2: { unfold tstep. apply (bio_step_log _ _ (k_log ke)) in Hst. etrans; [exact Hst|].
       exact (wake_step (Some ChLog) (k_ticks k') (k' <| k_log := k_log ke |>)). }
  unfold ke. rewrite Hlg. split; simpl; rewrite ?Hlg; try done.
  - eapply (bio_env_step _ _ _ _ (k' <| k_log := mkLog start size 0 0 1 0 lb |>)); [|by apply bio_env_log].
    exact (wake_step (Some ChLog) (k_ticks k') (k' <| k_log := mkLog start size 0 0 1 0 lb |>)).
  - by destruct Hi.
Qed.

(** The blocks the updates touch, without repetition. *)
Definition touched (us : list update) : nat := length (remove_dups us.*1).

Lemma touched_bound us (l : list Z) : NoDup l → (∀ b, b ∈ l → b ∈ us.*1) → (length l ≤ touched us)%nat.
Proof.
  intros Hn Hin. apply submseteq_length, NoDup_submseteq; [done|]. intros b Hb. apply elem_of_remove_dups. auto.
Qed.

Lemma txn_log_ok k0 D bs k :
  layout_ok k0 start size → txn i c me pid k0 start size 1 [] D bs k → (length bs ≤ 28)%nat → Z.of_nat (length bs) < size →
  let lg := mkLog start size 0 1 1 (Z.of_nat (length bs)) (lh_block (k_log k)) in
  log_ok lg bs (length (k_disk k0)) ∧
  log_state i c me pid lg bs (length (k_disk k0)) (k <| k_log := lg |>).
Proof.
  intros (Hs & Hsz & Hf & HN) [He Hi Hl Hlg Har Htk Hho Hnd Hdk Hw Hlen Hdi Hcl _ _] H28 Hlt lg.
  split; split; simpl; try done; try lia.
  - intros b [? ?]%Hho. lia.
  - unfold NBUF. lia.
  - by apply bio_env_log.
  - by apply bc_inv_log.
  - by rewrite Hdk.
  - by intros blk d [? _]%Hdi.
Qed.

(** What is dirty at the end of the operation, block by block. *)
Lemma txn_data k0 D bs k :
  txn i c me pid k0 start size 1 [] D bs k →
  ∃ ds, length ds = length bs ∧ (∀ j b d, bs !! j = Some b → ds !! j = Some d → dirty k b d) ∧
    ∀ j b d, bs !! j = Some b → ds !! j = Some d → D !! Z.to_nat b = Some d.
Proof.
  intros Ht. exists ((λ b, default [] (D !! Z.to_nat b)) <$> bs).
  assert (∀ j b d, bs !! j = Some b →
    ((λ b, default [] (D !! Z.to_nat b)) <$> bs) !! j = Some d →
    D !! Z.to_nat b = Some d) as Hd.
  { intros j b d Hb. rewrite list_lookup_fmap, Hb. simpl. intros [= <-].
    destruct (lookup_lt_is_Some_2 (D) (Z.to_nat b)) as [d Hd]; [|by rewrite Hd].
    rewrite (tx_len _ _ _ _ _ _ _ _ _ _ _ _ Ht). apply list_elem_of_lookup_2, (tx_home _ _ _ _ _ _ _ _ _ _ _ _ Ht) in Hb as [? _]. lia. }
  split; [by rewrite length_fmap|]. split; [|done]. intros j b d Hb Hj.
  apply (tx_dirty _ _ _ _ _ _ _ _ _ _ _ _ Ht). split; [by eapply list_elem_of_lookup_2|by eapply Hd].
Qed.

(** The writes of the commit are the updates. *)
Lemma txn_writes k0 D bs k ds b :
  layout_ok k0 start size → txn i c me pid k0 start size 1 [] D bs k → (length bs ≤ 28)%nat → Z.of_nat (length bs) < size →
  length ds = length bs →
  (∀ j b d, bs !! j = Some b → ds !! j = Some d → D !! Z.to_nat b = Some d) →
  home k0 start size b →
  apply_writes (k_disk k0) (zip bs ds) !! Z.to_nat b = D !! Z.to_nat b.
Proof.
  intros Hlay Ht H28 Hsz Hlen Hds [Hr Ho].
  destruct (txn_log_ok k0 D bs k Hlay Ht H28 Hsz) as [Hok _].
  destruct (decide (b ∈ bs)) as [Hin|Hni].
  - apply list_elem_of_lookup in Hin as [j Hj]. destruct (lookup_lt_is_Some_2 ds j) as [d Hd].
    { rewrite Hlen. by eapply lookup_lt_Some. }
    by rewrite (home_write _ _ _ Hok _ ds j b d), (Hds j b d).
  - rewrite (log_area_unwritten _ _ _ Hok) by (done || lia). symmetry. apply (tx_clean _ _ _ _ _ _ _ _ _ _ _ _ Ht); [lia|done].
Qed.

Lemma home_outside k0 lb bs b :
  Z.of_nat (length bs) < size → home k0 start size b →
  outside (mkLog start size 0 1 1 (Z.of_nat (length bs)) lb) bs b.
Proof. intros Hsz [Hr Ho]. split; [lia|]. simpl. lia. Qed.

(** An operation that updates nothing writes nothing. *)
Lemma commit_nothing k : lh_n (k_log k) = 0 → commit k = Ret tt k.
Proof. intros Hn. unfold commit, bind, gets. by rewrite Hn. Qed.

(** A disk whose header is clear survives recovery unchanged outside the log. *)
Lemma recover_idle k0 hd i' c' me' pid' kb :
  layout_ok k0 start size → k_disk k0 !! Z.to_nat start = Some hd → length hd = Z.to_nat BSIZE → get32 hd 0 = 0 →
  rebooted i' c' me' pid' start kb → k_disk kb = k_disk k0 →
  ∃ kr, recover_from_log kb = Ret tt kr ∧ ∀ b, home k0 start size b → k_disk kr !! Z.to_nat b = k_disk k0 !! Z.to_nat b.
Proof.
  intros (Hs & Hsz & Hf & HN) Hhd Hl Hz Hre Hdk.
  assert (log_ok (mkLog start size 0 1 1 0 []) [] (length (k_disk k0))) as Hok.
  { split; simpl; try done; [lia|by intros b ?%not_elem_of_nil|apply NoDup_nil_2|unfold NBUF; lia]. }
  destruct (recover_ret i' c' me' pid' start kb hd Hre) as (kr & Hr & _ & _ & _ & Hd & _).
  { by rewrite Hdk. } { rewrite Hdk. by apply (head_ok_zero _ _ _ Hok). }
  exists kr. split; [done|]. intros b [Hb Ho]. rewrite Hd, Hdk.
  apply (recover_empty _ _ _ Hok); [unfold disk_head; simpl; by rewrite Hhd|]. split; simpl; lia.
Qed.

(** After a crash in the first [n] writes [ws] of an operation on [k0]. *)
Definition survives k0 (D : list (list Z)) (ws : list (Z * list Z)) : Prop :=
  ∀ n i' c' me' pid' kb,
    rebooted i' c' me' pid' start kb → k_disk kb = apply_writes (k_disk k0) (take n ws) →
    ∃ kr, recover_from_log kb = Ret tt kr ∧
      ((∀ b, home k0 start size b → k_disk kr !! Z.to_nat b = k_disk k0 !! Z.to_nat b) ∨
       (∀ b, home k0 start size b → k_disk kr !! Z.to_nat b = D !! Z.to_nat b)).

(** What an operation that took [k0] to [k'] promises. *)
Definition done_atomically k0 (D : list (list Z)) k' : Prop :=
  ∃ ws, idle k' ∧ k_writes k' = k_writes k0 ++ ws ∧ k_disk k' = apply_writes (k_disk k0) ws ∧
    (∀ b, home k0 start size b → k_disk k' !! Z.to_nat b = D !! Z.to_nat b) ∧
    survives k0 D ws.

Lemma end_op_empty k0 k D :
  idle k0 → layout_ok k0 start size → txn i c me pid k0 start size 1 [] D [] k →
  ∃ k', end_op k = Ret tt k' ∧ done_atomically k0 D k' ∧ tstep k k'.
Proof.
  intros Hid Hlay Ht. destruct (id_head _ Hid) as (hd & Hhd & Hl & Hz). pose proof (tx_disk _ _ _ _ _ _ _ _ _ _ _ _ Ht) as Hdk.
  set (lg := mkLog start size 0 1 1 0 (lh_block (k_log k))).
  assert (commit (k <| k_log := lg |>) = Ret tt (k <| k_log := lg |>)) as Hc by by apply commit_nothing.
  destruct (end_op_idle k (k <| k_log := lg |>) (lh_block (k_log k)) 0) as (He' & Hl' & Hcm & Hidle & Hts).
  { apply Ht. } { apply Ht. } { apply Ht. } { reflexivity. } { apply bc_inv_log, Ht. }
  { by intros blk d [?%not_elem_of_nil _]%(tx_dirty _ _ _ _ _ _ _ _ _ _ _ _ Ht). }
  { exists hd. simpl. by rewrite Hdk. }
  eexists. split; [by eapply (end_op_commit k0 k D [])|]. split; [|exact Hts]. exists []. split; [exact Hidle|].
  rewrite app_nil_r. split; [apply Ht|]. split; [exact Hdk|]. split.
  - intros b [Hb _]. simpl. rewrite Hdk. symmetry. apply (tx_clean _ _ _ _ _ _ _ _ _ _ _ _ Ht); [lia|set_solver].
  - intros n i' c' me' pid' kb Hre Hkb. rewrite take_nil in Hkb.
    destruct (recover_idle k0 hd i' c' me' pid' kb) as (kr & Hr & Hb); try done. exists kr. split; [done|by left].
Qed.

Lemma end_op_full k0 k D bs :
  idle k0 → layout_ok k0 start size → txn i c me pid k0 start size 1 [] D bs k → bs ≠ [] →
  (length bs ≤ 28)%nat → Z.of_nat (length bs) < size →
  ∃ k', end_op k = Ret tt k' ∧ done_atomically k0 D k' ∧ tstep k k'.
Proof.
  intros Hid Hlay Ht Hne H28 Hsz. destruct (txn_log_ok k0 D bs k Hlay Ht H28 Hsz) as [Hok Hls].
  destruct (id_head _ Hid) as (hd & Hhd & Hl & Hz). pose proof (tx_disk _ _ _ _ _ _ _ _ _ _ _ _ Ht) as Hdk.
  set (lg := mkLog start size 0 1 1 (Z.of_nat (length bs)) (lh_block (k_log k))) in *.
  destruct (txn_data k0 D bs k Ht) as (ds & Hlen & Hdirty & Hds).
  destruct (commit_crash i c me pid lg bs (length (k_disk k0)) Hok (k <| k_log := lg |>) ds hd)
    as (k' & ws & Hc & Hi' & Hcl' & Hst & Hw & Hd & Hag & Hhd' & Hcrash); try done; [simpl; by rewrite Hdk|].
  destruct (end_op_idle k k' (lh_block (k_log k)) (Z.of_nat (length bs))) as (He' & Hl' & Hcm & Hidle & Hts); try done;
    [apply Ht..|].
  assert (∀ b, home k0 start size b → apply_writes (k_disk k0) (zip bs ds) !! Z.to_nat b =
    D !! Z.to_nat b) as Hwr by (intros b Hb; by eapply txn_writes).
  simpl in Hd, Hag, Hw. rewrite Hdk in Hd, Hag. rewrite (tx_writes _ _ _ _ _ _ _ _ _ _ _ _ Ht) in Hw.
  eexists. split; [by eapply end_op_commit|]. split; [|exact Hts]. exists ws. split; [exact Hidle|]. split; [exact Hw|]. split; [exact Hd|].
  split; [intros b Hb; simpl; rewrite (Hag b) by (by eapply home_outside); by apply Hwr|].
  intros n i' c' me' pid' kb Hre Hkb. destruct (Hcrash n i' c' me' pid' kb) as (kr & Hr & _ & Hagr);
    [done|simpl; by rewrite Hdk|]. simpl in Hagr. rewrite Hdk in Hagr. exists kr. split; [done|].
  destruct (decide (n ≤ length bs)%nat); [left|right]; intros b Hb; rewrite (Hagr b) by (by eapply home_outside);
    [done|by apply Hwr].
Qed.

Lemma end_op_ret k0 k D bs :
  idle k0 → layout_ok k0 start size → txn i c me pid k0 start size 1 [] D bs k →
  (length bs ≤ 28)%nat → Z.of_nat (length bs) < size →
  ∃ k', end_op k = Ret tt k' ∧ done_atomically k0 D k' ∧ tstep k k'.
Proof.
  intros Hid Hlay Ht H28 Hsz. destruct (decide (bs = [])) as [->|Hne]; [by apply end_op_empty|by eapply end_op_full].
Qed.

Lemma operation_ret k us :
  idle k → layout_ok k start size → Forall (λ u, home k start size u.1) us →
  (touched us ≤ 28)%nat → Z.of_nat (touched us) < size - 1 →
  ∃ k', operation us k = Ret tt k' ∧ done_atomically k (apply_updates us (k_disk k)) k'.
Proof.
  intros Hid Hlay Hh H28 Hsz. destruct (begin_op_ret k Hid) as (k1 & H1 & Ht1 & _).
  destruct (updates_ret i c me pid k start size 1 us [] [] k1 Ht1 Hh) as (bs & k2 & H2 & Ht2 & Hbs); [done|..].
  { intros l Hl Hin. assert (length l ≤ touched us)%nat by (apply touched_bound; set_solver). unfold LOGSIZE. lia. }
  assert (length bs ≤ touched us)%nat.
  { apply touched_bound; [apply (tx_nodup _ _ _ _ _ _ _ _ _ _ _ _ Ht2)|]. intros b. rewrite Hbs. set_solver. }
  assert (∃ k', end_op k2 = Ret tt k' ∧ done_atomically k (apply_updates us (k_disk k)) k') as (k' & H3 & Hd).
  { destruct (end_op_ret k k2 _ bs Hid Hlay Ht2) as (k' & ? & ? & _); [lia|lia|]. by exists k'. }
  exists k'. split; [|done]. unfold operation.
  by rewrite (bind_ret_eq _ _ _ _ _ H1), (bind_ret_eq _ _ _ _ _ H2).
Qed.
End operation.
