(* ===== verification/MainFs.v ===== *)
(** * MainFs: the buffer cache, the log and crashes *)
From S2P Require Import Prelude.
From S2P Require Import Mem.
From S2P Require Import Str.
From S2P Require Import State.
From S2P Require Import Spin.
From S2P Require Import Boot.
From S2P Require Import Cons.
From S2P Require Import Kalloc.
From S2P Require Import Vm.
From S2P Require Import Frame.
From S2P Require Import VmSpec.
From S2P Require Import Mlq.
From S2P Require Import Proc.
From S2P Require Import ProcSpec.
From S2P Require Import ProcWait.
From S2P Require Import Blk.
From S2P Require Import Bio.
From S2P Require Import BioSpec.
From S2P Require Import Cache.
From S2P Require Import BioInit.
From S2P Require Import Log.
From S2P Require Import LogSpec.
From S2P Require Import Crash.
From S2P Require Import Recover.
From S2P Require Import Txn.

(** ** The sample machine: process 0 runs, the cache is as [binit] leaves it *)

Definition fs_log : logst := mkLog 2 10 0 0 1 0 (replicate (Z.to_nat LOGSIZE) 0).
Definition fs_start : kernel := sample DEFAULT <| k_disk := replicate 40 zero_block |> <| k_log := fs_log |>.

(** The cache and the locks [binit] leaves. *)
Definition fs_cache : list buf * gmap lockid sleeplock * gmap lockid spinlock :=
  Eval vm_compute in
    match binit (sample DEFAULT) with
    | Ret _ k => (k_bcache k, k_slocks k, k_locks k) | _ => ([], ∅, ∅)
    end.
Definition fs_with (disk : list (list Z)) : kernel :=
  mkKernel DEFAULT 0x80116000 0x80108000 0x80106000 0x80104000
    [sample_cpu] 0 FL_IF 0 ∅ fs_cache.2 0 0 0
    sample_procs 4 (Some 0%nat)
    (mkMlq ([Some 0; Some 1; Some 2]%nat ++ replicate 61 None) 2 :: replicate 4 empty_queue) 100
    fs_cache.1.2 ∅ (replicate NFILE zero_file) (replicate NINODE zero_inode)
    fs_cache.1.1 (mkSuperblock 0 0 0 0 0 0 0) fs_log
    disk [] [] 0 (mkInput (replicate 128 0) 0 0 0).
Definition fs_disk : list (list Z) := replicate 40 zero_block.
Definition fs_sample : kernel := fs_with fs_disk.

Lemma fs_binit : binit fs_start = Ret tt fs_sample.
Proof. vm_compute. reflexivity. Qed.
Lemma fs_flags disk x b : k_bcache (fs_with disk) !! x = Some b → b_flags b = 0.
Proof.
  assert (Forall (λ b, b_flags b = 0) (k_bcache (fs_with disk))) as Hf by (repeat constructor).
  rewrite Forall_lookup in Hf. apply Hf.
Qed.
Lemma fs_clean disk blk d : ~ dirty (fs_with disk) blk d.
Proof. intros (x & b & _ & Hb%fs_flags & Hf & _). congruence. Qed.

Lemma fs_inv disk : bc_inv 1 [] (fs_with disk).
Proof.
  destruct (binit_ret 1 fs_start) as (k' & H & Hi & _); [reflexivity|apply Forall_replicate; split_and!; reflexivity|].
  rewrite fs_binit in H. injection H as <-. destruct Hi as [Hlen Hlru Href Hlock Huq Hfl Hcl].
  split; [exact Hlen|exact Hlru|exact Href|exact Hlock|exact Huq|..].
  - intros x b _ Hb. left. by eapply fs_flags.
  - intros x b _ Hb%fs_flags _ Hf. congruence.
Qed.
Lemma fs_env disk : bio_env 0 sample_cpu 0 1 (fs_with disk).
Proof.
  destruct (binit_ret 1 fs_start) as (k' & H & _ & _ & _ & _ & Hb & _);
    [reflexivity|apply Forall_replicate; split_and!; reflexivity|].
  rewrite fs_binit in H. injection H as <-.
  split; [|reflexivity|reflexivity|reflexivity|reflexivity|reflexivity|exact Hb].
  split; [reflexivity|reflexivity|discriminate|discriminate|reflexivity].
Qed.
Lemma fs_rebooted disk : rebooted 0 sample_cpu 0 1 2 (fs_with disk).
Proof. split; [apply fs_env|apply fs_inv|apply fs_clean|reflexivity..]. Qed.

(** ** Buffers *)

(** [binit] leaves a cache of 30 free buffers linked in one circle, and
    that cache satisfies the invariant the other operations keep. *)
Theorem binit_establishes pid k :
  length (k_bcache k) = S NBUF → Forall (λ b, b_flags b = 0 ∧ b_dev b = 0 ∧ b_refcnt b = 0) (k_bcache k) →
  ∃ k', binit k = Ret tt k' ∧ bc_inv pid [] k' ∧ lru (k_bcache k') (reverse (seq 0 NBUF)) ∧
    (∀ blk d, ~ dirty k' blk d) ∧ k_disk k' = k_disk k.
Proof. intros Hl Hz. destruct (binit_ret pid k Hl Hz) as (k' & ? & ? & ? & ? & _ & _ & ? & _). eauto 6. Qed.

Lemma binit_establishes_witness : ∃ k', binit (bss DEFAULT) = Ret tt k' ∧ bc_inv 1 [] k'.
Proof.
  destruct (binit_establishes 1 (bss DEFAULT)) as (k' & H & Hi & _); [reflexivity|by apply Forall_replicate|].
  exists k'. split; [exact H|exact Hi].
Defined.

(** [bread] of a block of the disk that the caller does not hold already
    returns a buffer the caller now holds, provided fewer than 30 buffers are
    dirty or held.  Its data is what was last written to the block: the dirty
    buffer's, or the disk's when there is none.  The disk and the set of dirty
    blocks do not change and the invariant holds. *)
Theorem bread_returns_contents i c me pid k H L blk :
  bio_env i c me pid k → bc_inv pid H k → 0 ≤ blk < Z.of_nat (length (k_disk k)) →
  (∀ x b, x ∈ H → k_bcache k !! x = Some b → b_blockno b ≠ blk) →
  (∀ blk d, dirty k blk d → blk ∈ L) → (length L + length H < NBUF)%nat →
  ∃ x b k', bread 1 blk k = Ret x k' ∧ bc_inv pid (x :: H) k' ∧ (x ∉ H) ∧
    k_bcache k' !! x = Some b ∧ b_blockno b = blk ∧ b_flags b ≠ 0 ∧ contents k blk (b_data b) ∧
    k_disk k' = k_disk k ∧ (∀ blk' d, dirty k' blk' d ↔ dirty k blk' d).
Proof.
  intros He Hi Hr HH HL Hlt. destruct (bread_ret i c me pid k H L blk He Hi Hr HH HL Hlt) as (x & b & k' & Hret & Hb).
  destruct (read_block_facts _ _ _ _ _ _ _ Hb) as (Hc & Hf & _). destruct Hb. eauto 15.
Qed.

Lemma bread_returns_contents_witness :
  ∃ x b k', bread 1 5 fs_sample = Ret x k' ∧ k_bcache k' !! x = Some b ∧ b_blockno b = 5.
Proof.
  destruct (bread_returns_contents 0 sample_cpu 0 1 fs_sample [] [] 5 (fs_env _) (fs_inv _))
    as (x & b & k' & H & _ & _ & Hb & Hn & _).
  - split; [discriminate|reflexivity].
  - intros x b []%not_elem_of_nil.
  - intros blk d []%fs_clean.
  - unfold NBUF. simpl. lia.
  - exists x, b, k'. split_and!; [exact H|exact Hb|exact Hn].
Defined.

(** The list of buffers is kept in the order of last use: releasing buffer
    [x] for the last time moves it to the front, keeps the order of the others
    and changes nothing but the links. *)
Theorem release_moves_to_front x k l1 l2 :
  length (k_bcache k) = S NBUF → lru (k_bcache k) (l1 ++ x :: l2) →
  ∃ bs', move_to_front x k = Ret tt (k <| k_bcache := bs' |>) ∧
    lru bs' (x :: l1 ++ l2) ∧ body <$> bs' = body <$> k_bcache k.
Proof. apply move_to_front_ret. Qed.

Lemma release_moves_to_front_witness :
  ∃ bs', move_to_front 0 fs_sample = Ret tt (fs_sample <| k_bcache := bs' |>) ∧
    lru bs' (0%nat :: reverse (seq 1 29)).
Proof.
  destruct (binit_ret 1 fs_start) as (k' & H & _ & Hl & _);
    [reflexivity|apply Forall_replicate; split_and!; reflexivity|].
  rewrite fs_binit in H. injection H as <-.
  destruct (release_moves_to_front 0 fs_sample (reverse (seq 1 29)) [] eq_refl Hl) as (bs' & Hm & Hlru & _).
  exists bs'. rewrite app_nil_r in Hlru. split; [exact Hm|exact Hlru].
Defined.

(** ** Transactions and crashes *)

(** C1: a file-system operation is atomic.  An operation that starts with an
    empty log and updates blocks outside the log area, as many as fit, returns;
    its updates are then on the disk and the log is empty again.  If the machine
    stops after any number of the disk writes the operation makes and boots
    again, [recover_from_log] returns and every block outside the log area is as
    before the operation, or every one is as after it. *)
Theorem operation_atomic i c me pid start size k us :
  idle i c me pid start size k → layout_ok k start size → Forall (λ u, home k start size u.1) us →
  (touched us ≤ 28)%nat → Z.of_nat (touched us) < size - 1 →
  ∃ k' ws, operation us k = Ret tt k' ∧ idle i c me pid start size k' ∧
    k_writes k' = k_writes k ++ ws ∧ k_disk k' = apply_writes (k_disk k) ws ∧
    (∀ b, home k start size b → k_disk k' !! Z.to_nat b = apply_updates us (k_disk k) !! Z.to_nat b) ∧
    ∀ n i' c' me' pid' kb,
      rebooted i' c' me' pid' start kb → k_disk kb = apply_writes (k_disk k) (take n ws) →
      ∃ kr, recover_from_log kb = Ret tt kr ∧
        ((∀ b, home k start size b → k_disk kr !! Z.to_nat b = k_disk k !! Z.to_nat b) ∨
         (∀ b, home k start size b → k_disk kr !! Z.to_nat b = apply_updates us (k_disk k) !! Z.to_nat b)).
Proof.
  intros Hid Hlay Hh H28 Hsz.
  destruct (operation_ret i c me pid start size k us Hid Hlay Hh H28 Hsz) as (k' & Hr & ws & ? & ? & ? & ? & Hs).
  exists k', ws. by split_and!.
Qed.

Lemma fs_idle : idle 0 sample_cpu 0 1 2 10 fs_sample.
Proof.
  split; [apply fs_env|apply fs_inv|apply fs_clean|reflexivity|reflexivity|reflexivity|].
  exists zero_block. split_and!; reflexivity.
Qed.

Definition two_updates : list update := [(20, λ _, replicate 512 7); (21, λ d, 1 :: tail d)].
Lemma operation_atomic_witness :
  ∃ k' ws, operation two_updates fs_sample = Ret tt k' ∧ k_writes k' = ws ∧
    k_disk k' !! 20%nat = Some (replicate 512 7).
Proof.
  destruct (operation_atomic 0 sample_cpu 0 1 2 10 fs_sample two_updates fs_idle)
    as (k' & ws & H & _ & Hw & _ & Hb & _).
  - split_and!; discriminate.
  - repeat constructor; simpl; lia.
  - vm_compute. lia.
  - reflexivity.
  - exists k', ws. split_and!; [exact H|exact Hw|].
    assert (home fs_sample 2 10 20) as Hh by (split; [split; [discriminate|reflexivity]|right; discriminate]).
    change 20%nat with (Z.to_nat 20). rewrite (Hb 20 Hh). reflexivity.
Defined.

(** C7: recovery on a freshly booted machine returns with an empty log and a
    clean cache, having written exactly the blocks the on-disk header lists,
    from the log to their homes and in order, and last the cleared header. *)
Theorem recovery_effect i c me pid start k hd :
  rebooted i c me pid start k → k_disk k !! Z.to_nat start = Some hd →
  head_ok start hd (length (k_disk k)) →
  ∃ k', recover_from_log k = Ret tt k' ∧ bc_inv pid [] k' ∧ (∀ blk d, ~ dirty k' blk d) ∧
    lh_n (k_log k') = 0 ∧
    k_writes k' = k_writes k ++ zip (head_blocks hd) (log_blocks start (k_disk k) (head_n hd)) ++ [(start, put32 hd 0 0)] ∧
    k_disk k' = apply_writes (k_disk k)
      (zip (head_blocks hd) (log_blocks start (k_disk k) (head_n hd)) ++ [(start, put32 hd 0 0)]).
Proof.
  intros Hre Hhd Hok. destruct (recover_ret i c me pid start k hd Hre Hhd Hok) as (k' & ? & ? & ? & ? & Hd & Hw).
  exists k'. unfold recovered, recover_writes, disk_head in Hd, Hw. rewrite Hhd in Hd, Hw. by split_and!.
Qed.

(** A header that lists block 20. *)
Definition one_block_head : list Z := put32 (put32 zero_block 0 1) 4 20.
Definition crashed_disk : list (list Z) := <[3%nat := replicate 512 7]> (<[2%nat := one_block_head]> fs_disk).
Lemma recovery_effect_witness :
  ∃ k', recover_from_log (fs_with crashed_disk) = Ret tt k' ∧ k_disk k' !! 20%nat = Some (replicate 512 7).
Proof.
  destruct (recovery_effect 0 sample_cpu 0 1 2 (fs_with crashed_disk) one_block_head (fs_rebooted _) eq_refl)
    as (k' & H & _ & _ & _ & _ & Hk).
  - split; try reflexivity; try discriminate.
    + intros b. change (head_blocks one_block_head) with [20]. intros ->%list_elem_of_singleton.
      split; [split; [discriminate|reflexivity]|right; reflexivity].
    + change (head_blocks one_block_head) with [20]. apply NoDup_singleton.
    + change (head_n one_block_head) with 1%nat. unfold NBUF. lia.
  - exists k'. split; [exact H|]. rewrite Hk. reflexivity.
Defined.
