(* ===== verification/FsLogic.v ===== *)
(** * FsLogic: reasoning about the code of a file-system operation

    Between [begin_op] and [end_op] the code of fs.c sees blocks, the in-memory
    inodes and the superblock, and not the buffer cache, the log or the locks
    that implement them.  A [view] is what it sees; [fsv v k] says that the kernel
    [k] implements the view [v], and [run v m Q] that [m], started in any kernel
    that implements [v], returns [a] in one that implements a view [v'] with
    [Q a v'].  The rules for [bread], [log_write], [brelse] and the sleep locks
    of inodes make the proofs about fs.c proofs about views. *)
From S2P Require Import Prelude.
From S2P Require Import Mem.
From S2P Require Import Str.
From S2P Require Import State.
From S2P Require Import Spin.
From S2P Require Import Boot.
From S2P Require Import Cons.
From S2P Require Import Kalloc.
From S2P Require Import Vm.
From S2P Require Import Frame.
From S2P Require Import Mlq.
From S2P Require Import Proc.
From S2P Require Import ProcSpec.
From S2P Require Import ProcWait.
From S2P Require Import Blk.
From S2P Require Import Bio.
From S2P Require Import BioSpec.
From S2P Require Import Cache.
From S2P Require Import Log.
From S2P Require Import LogSpec.
From S2P Require Import Txn.
From S2P Require Import Fs.

Record view := mkView {
  v_held : list (nat * Z);     (* the buffers held, with their blocks *)
  v_disk : list (list Z);      (* the disk as the operation has made it *)
  v_bs : list Z;               (* the blocks in the log *)
  v_ic : list inode;           (* icache.inode *)
  v_locked : gset nat;         (* the inodes locked by this process *)
  v_sb : superblock;
  v_ft : list file             (* ftable.file *)
}.
#[export] Instance eta_view : Eta view :=
  λ v, mkView (v_held v) (v_disk v) (v_bs v) (v_ic v) (v_locked v) (v_sb v) (v_ft v).

Definition set_disk (v : view) (blk : Z) (d : list Z) : view :=
  v <| v_disk := <[Z.to_nat blk := d]> (v_disk v) |> <| v_bs := add_block blk (v_bs v) |>.
Definition set_inode (v : view) (ip : nat) (i : inode) : view :=
  v <| v_ic := <[ip := i]> (v_ic v) |>.

(** The buffers that the operation keeps from being recycled. *)
Definition load (v : view) : nat := length (v_bs v) + length (v_held v).

Lemma length_add_block b bs : (length (add_block b bs) ≤ S (length bs))%nat.
Proof. unfold add_block. case_decide; [lia|]. rewrite length_app. simpl. lia. Qed.
Lemma load_set_disk v b d : (load (set_disk v b d) ≤ S (load v))%nat.
Proof. unfold load, set_disk. simpl. pose proof (length_add_block b (v_bs v)). lia. Qed.
Lemma load_set_disk_ge v b d : (load v ≤ load (set_disk v b d))%nat.
Proof. unfold load, set_disk, add_block. simpl. case_decide; rewrite ?length_app; lia. Qed.

Section logic.
Context (i : nat) (c : cpu) (me : nat) (pid : Z) (k0 : kernel) (start size o : Z).
Implicit Types (v : view) (k : kernel).

(** The inode sleep locks: [L] are those this process holds, the others are free. *)
Record inode_locks (L : gset nat) k : Prop := {
  il_icache : lock_free LIcache k;
  il_ftable : lock_free LFtable k;
  il_spin j : (j < NINODE)%nat → lock_free (LInode j) k;
  il_lock j : (j < NINODE)%nat → ∃ s, k_slocks k !! LInode j = Some s ∧
    if bool_decide (j ∈ L) then s = mkSleeplock 1 pid else sl_locked s = 0
}.

Record fsv v k : Prop := {
  fv_txn : txn i c me pid k0 start size o (v_held v) (v_disk v) (v_bs v) k;
  fv_ic : k_icache k = v_ic v;
  fv_sb : k_sb k = v_sb v;
  fv_ft : k_ftable k = v_ft v;
  fv_locks : inode_locks (v_locked v) k
}.

(** The most [load] can be for another block to be read or logged. *)
Definition cap : nat := Z.to_nat (Z.min LOGSIZE (size - 1)).

Definition run {A} v (m : K A) (Q : A → view → Prop) : Prop :=
  ∀ k, fsv v k → ∃ a v' k', m k = Ret a k' ∧ fsv v' k' ∧ Q a v'.

(** ** Structure *)

Lemma run_ret {A} v (a : A) (Q : A → view → Prop) : Q a v → run v (ret a) Q.
Proof. intros HQ k Hk. by exists a, v, k. Qed.
Lemma run_bind {A B} v (m : K A) (f : A → K B) Q :
  run v m (λ a v', run v' (f a) Q) → run v (bind m f) Q.
Proof.
  intros Hm k Hk. destruct (Hm k Hk) as (a & v1 & k1 & Hr & Hk1 & Hf).
  destruct (Hf k1 Hk1) as (b & v2 & k2 & Hr2 & Hk2 & HQ). exists b, v2, k2.
  split; [|done]. by rewrite (bind_ret_eq _ _ _ _ _ Hr).
Qed.
Lemma run_mono {A} v (m : K A) (Q R : A → view → Prop) :
  run v m Q → (∀ a v', Q a v' → R a v') → run v m R.
Proof. intros Hm HQR k Hk. destruct (Hm k Hk) as (a & v1 & k1 & ? & ? & ?). exists a, v1, k1. auto. Qed.
Lemma run_call {A B} v (m : K A) (f : A → K B) P Q :
  run v m P → (∀ a v', P a v' → run v' (f a) Q) → run v (bind m f) Q.
Proof. intros Hm Hf. apply run_bind. by eapply run_mono. Qed.
Lemma run_get_or {A} v e (x : option A) a Q : x = Some a → Q a v → run v (get_or e x) Q.
Proof. intros -> HQ. by apply run_ret. Qed.
Lemma run_when v (b : bool) m (Q : unit → view → Prop) :
  (b = true → run v m Q) → (b = false → Q tt v) → run v (when b m) Q.
Proof. destruct b; intros H1 H2; [by apply H1|by apply run_ret, H2]. Qed.
Lemma run_for_each {A} (I : list A → view → Prop) (l : list A) (f : A → K unit) v (Q : unit → view → Prop) :
  I l v → (∀ x l' v1, I (x :: l') v1 → run v1 (f x) (λ _, I l')) → (∀ v', I [] v' → Q tt v') →
  run v (for_each l f) Q.
Proof.
  intros HI Hf HQ. revert v HI. induction l as [|x l IH]; intros v HI; [by apply run_ret, HQ|].
  simpl. eapply run_call; [by apply Hf|]. intros [] v' HI'. by apply IH.
Qed.

(** ** The fields of the view *)

Lemma run_sb {B} v (f : superblock → K B) Q : run v (f (v_sb v)) Q → run v (bind (gets k_sb) f) Q.
Proof. intros H k Hk. unfold bind, gets. rewrite (fv_sb _ _ Hk). by apply H. Qed.

Lemma run_get_inode {B} v ip ino (f : inode → K B) Q :
  v_ic v !! ip = Some ino → run v (f ino) Q → run v (bind (get_inode ip) f) Q.
Proof.
  intros Hi H k Hk. unfold get_inode, bind, gets. rewrite (fv_ic _ _ Hk), Hi. by apply H.
Qed.

(** A change of the fields of the kernel that a view does not show. *)
Lemma txn_frame HB D bs k k' :
  txn i c me pid k0 start size o HB D bs k →
  k' = k <| k_icache := k_icache k' |> <| k_sb := k_sb k' |> <| k_ftable := k_ftable k' |>
         <| k_slocks := k_slocks k' |> <| k_proc := k_proc k' |> →
  p_pid <$> k_proc k' = p_pid <$> k_proc k →
  (∀ b, k_slocks k' !! LBuf b = k_slocks k !! LBuf b) →
  txn i c me pid k0 start size o HB D bs k'.
Proof.
  intros [He Hi Hl Hlg Har Htk Hho Hnd Hd Hw Hlen Hdi Hcl Hhn Hhe] Hk Hp Hs. rewrite Hk.
  split; try done.
  - destruct He as [Hcpu Hpr Hpid Hplen Hbc Hpt Hb]. split; try done; simpl.
    + by eapply on_cpu_ext.
    + by rewrite <-list_lookup_fmap, Hp, list_lookup_fmap.
    + by rewrite <-(length_fmap p_pid), Hp, length_fmap.
  - destruct Hi as [H1 H2 H3 H4 H5 H6 H7]. split; try done. intros x Hx. simpl. rewrite Hs. by apply H4.
Qed.

Lemma run_upd_inode v ip ino g (Q : unit → view → Prop) :
  v_ic v !! ip = Some ino → Q tt (set_inode v ip (g ino)) → run v (upd_inode ip g) Q.
Proof.
  intros Hi HQ k Hk. exists tt, (set_inode v ip (g ino)), (k <| k_icache := <[ip := g ino]> (k_icache k) |>).
  destruct Hk as [Ht Hic Hsb Hft Hl]. split_and!; [| |done].
  - unfold upd_inode, modify. by rewrite (alter_lookup _ _ _ ino) by by rewrite Hic.
  - split; try done; simpl; [|by rewrite Hic|by destruct Hl].
    by eapply txn_frame.
Qed.

(** ** Blocks *)

Lemma fsv_tstep v v' k k' :
  fsv v k → tstep k k' → txn i c me pid k0 start size o (v_held v') (v_disk v') (v_bs v') k' →
  v_ic v' = v_ic v → v_sb v' = v_sb v → v_ft v' = v_ft v → v_locked v' = v_locked v → fsv v' k'.
Proof.
  intros [_ Hic Hsb Hft [L1 L2 L3 L4]] [Hf _ Hj] Ht Hi Hs Hft' Hl. split; [done|..].
  - by rewrite Hi, Hf.
  - by rewrite Hs, Hf.
  - by rewrite Hft', Hf.
  - rewrite Hl. split; unfold lock_free; [rewrite Hf; try done..|].
    intros j Hjn. rewrite Hj. by apply L4.
Qed.

Lemma run_bread {B} v blk (f : nat → K B) Q :
  home k0 start size blk → blk ∉ (v_held v).*2 → (load v < cap)%nat →
  (∀ x, run (v <| v_held := (x, blk) :: v_held v |>) (f x) Q) → run v (bind (bread 1 blk) f) Q.
Proof.
  intros Hh Hni Hlt Hf k Hk.
  destruct (txn_bread i c me pid k0 start size o (v_held v) (v_disk v) (v_bs v) k blk (fv_txn _ _ Hk) Hh Hni)
    as (x & k1 & Hr & Ht & Hs); [unfold load, cap, LOGSIZE, NBUF in *; lia|].
  rewrite (bind_ret_eq _ _ _ _ _ Hr). apply Hf. by eapply fsv_tstep.
Qed.

Lemma run_get_data {B} v x blk d (f : list Z → K B) Q :
  (x, blk) ∈ v_held v → v_disk v !! Z.to_nat blk = Some d → run v (f d) Q → run v (bind (get_data x) f) Q.
Proof.
  intros Hin Hd H k Hk. destruct (txn_get_data i c me pid k0 start size o _ _ _ k x blk (fv_txn _ _ Hk) Hin) as (d' & Hr & Hd').
  rewrite (bind_ret_eq _ _ _ _ _ Hr). simplify_eq. by apply H.
Qed.

Lemma run_write {B} v x blk d g (m : K B) Q :
  (x, blk) ∈ v_held v → v_disk v !! Z.to_nat blk = Some d → (length (v_bs v) < cap)%nat → 1 ≤ o →
  run (set_disk v blk (g d)) m Q → run v (upd_data x g ;; log_write x ;; m) Q.
Proof.
  intros Hin Hd Hlt Ho H k Hk.
  destruct (txn_write i c me pid k0 start size o _ _ _ k x blk g d (fv_txn _ _ Hk) Hin Hd) as (k1 & Hr & Ht & Hs);
    [unfold cap in *; lia|done|].
  rewrite (bind2_ret_eq _ _ _ _ _ _ Hr). apply H. by eapply fsv_tstep.
Qed.

Lemma run_brelse v x blk HB (Q : unit → view → Prop) :
  v_held v = (x, blk) :: HB → Q tt (v <| v_held := HB |>) → run v (brelse x) Q.
Proof.
  intros Hh HQ k Hk. pose proof (fv_txn _ _ Hk) as Ht. rewrite Hh in Ht.
  destruct (txn_brelse i c me pid k0 start size o _ _ _ k x blk Ht) as (k1 & Hr & Ht1 & Hs).
  exists tt, (v <| v_held := HB |>), k1. split; [done|]. split; [|done]. by eapply fsv_tstep.
Qed.

(** A whole update of a block: read, modify, log, release. *)
Lemma run_update v blk d g (Q : unit → view → Prop) :
  home k0 start size blk → blk ∉ (v_held v).*2 → (load v < cap)%nat → v_disk v !! Z.to_nat blk = Some d → 1 ≤ o →
  Q tt (set_disk v blk (g d)) → run v (bp ← bread 1 blk; upd_data bp g ;; log_write bp ;; brelse bp) Q.
Proof.
  intros Hh Hni Hlt Hd Ho HQ. apply run_bread; [done..|]. intros x.
  apply (run_write _ x blk d); [left|done|unfold load in *; simpl; lia|done|].
  eapply run_brelse; [done|]. by destruct v.
Qed.

(** ** Locks of inodes *)

Lemma inode_locks_set L L' k j s :
  inode_locks L k → (j < NINODE)%nat → (∀ j', j' ≠ j → j' ∈ L' ↔ j' ∈ L) →
  (if bool_decide (j ∈ L') then s = mkSleeplock 1 pid else sl_locked s = 0) →
  ∀ ps, inode_locks L' (k <| k_slocks := <[LInode j := s]> (k_slocks k) |> <| k_proc := ps |>).
Proof.
  intros [L1 L2 L3 L4] Hj HL Hs ps. split; try done. intros j' Hj'. simpl. destruct (decide (j' = j)) as [->|Hne].
  - rewrite lookup_insert_eq. by exists s.
  - rewrite lookup_insert_ne by congruence. rewrite (bool_decide_ext _ _ (HL j' Hne)). by apply L4.
Qed.

Lemma run_acquiresleep v j (Q : unit → view → Prop) :
  (j < NINODE)%nat → j ∉ v_locked v → Q tt (v <| v_locked := {[j]} ∪ v_locked v |>) →
  run v (acquiresleep (LInode j)) Q.
Proof.
  intros Hj Hn HQ k [Ht Hic Hsb Hft Hl]. destruct (il_lock _ _ Hl j Hj) as (s & Hs & Hf).
  rewrite bool_decide_false in Hf by done.
  eexists tt, _, (k <| k_slocks := <[LInode j := mkSleeplock 1 pid]> (k_slocks k) |> <| k_proc := k_proc k |>).
  split; [|split; [|exact HQ]].
  - rewrite (acquiresleep_free i c me pid k (LInode j) (tx_env _ _ _ _ _ _ _ _ _ _ _ _ Ht) (il_spin _ _ Hl j Hj) s Hs Hf).
    by destruct k.
  - split; simpl; try done.
    + eapply txn_frame; [done|done|done|]. intros b. simpl. by rewrite lookup_insert_ne.
    + eapply inode_locks_set; [done|done|set_solver|]. by rewrite bool_decide_true by set_solver.
Qed.

Lemma run_holdingsleep {B} v j (f : bool → K B) Q :
  (j < NINODE)%nat → j ∈ v_locked v → run v (f true) Q → run v (bind (holdingsleep (LInode j)) f) Q.
Proof.
  intros Hj Hn HQ k Hk. pose proof Hk as [Ht _ _ _ Hl]. destruct (il_lock _ _ Hl j Hj) as (s & Hs & Hf).
  rewrite bool_decide_true in Hf by done. subst s.
  rewrite (bind_ret_eq _ _ _ _ _ (holdingsleep_held i c me pid k (LInode j) (tx_env _ _ _ _ _ _ _ _ _ _ _ _ Ht)
    (il_spin _ _ Hl j Hj) Hs)). by apply HQ.
Qed.

Lemma run_releasesleep v j (Q : unit → view → Prop) :
  (j < NINODE)%nat → Q tt (v <| v_locked := v_locked v ∖ {[j]} |>) → run v (releasesleep (LInode j)) Q.
Proof.
  intros Hj HQ k [Ht Hic Hsb Hft Hl].
  eexists tt, _, _. split; [|split; [|exact HQ]].
  - apply (releasesleep_held i c me pid k (LInode j) (tx_env _ _ _ _ _ _ _ _ _ _ _ _ Ht) (il_spin _ _ Hl j Hj)). done.
  - split; simpl; try done.
    + eapply txn_frame; [done|done| |].
      * simpl. apply (bs_pids k _ (wake_step _ _ k)).
      * intros b. simpl. by rewrite lookup_insert_ne.
    + eapply inode_locks_set; [done|done|set_solver|]. by rewrite bool_decide_false by set_solver.
Qed.

(** A critical section of [icache.lock] that changes the inodes only. *)
Lemma icache_section v k ics :
  fsv v k → ∃ kl, acquire LIcache k = Ret tt kl ∧ k_icache kl = v_ic v ∧
    release LIcache (kl <| k_icache := ics |>) = Ret tt (k <| k_icache := ics |>) ∧
    fsv (v <| v_ic := ics |>) (k <| k_icache := ics |>).
Proof.
  intros [Ht Hic Hsb Hft Hl]. pose proof (tx_env _ _ _ _ _ _ _ _ _ _ _ _ Ht) as He.
  exists (locked_by LIcache i c k). split_and!.
  - apply acquire_ret; [apply He|apply Hl].
  - done.
  - by apply (release_ret LIcache k i c); [apply He|apply Hl|..].
  - split; simpl; try done; [|by destruct Hl]. by eapply txn_frame.
Qed.
Lemma run_icache_upd {B} v ip ino g (rest : K B) Q :
  v_ic v !! ip = Some ino → run (set_inode v ip (g ino)) rest Q →
  run v (acquire LIcache ;; upd_inode ip g ;; release LIcache ;; rest) Q.
Proof.
  intros Hi Hr k Hk. destruct (icache_section v k (<[ip := g ino]> (v_ic v)) Hk) as (kl & Ha & Hic & Hrl & Hk').
  rewrite (bind_ret_eq _ _ _ _ _ Ha). unfold upd_inode, bind at 1, modify. rewrite Hic, (alter_lookup _ _ _ _ Hi).
  rewrite (bind_ret_eq _ _ _ _ _ Hrl). by apply Hr.
Qed.
Lemma run_icache_upd_end v ip ino g (Q : unit → view → Prop) :
  v_ic v !! ip = Some ino → Q tt (set_inode v ip (g ino)) →
  run v (acquire LIcache ;; upd_inode ip g ;; release LIcache) Q.
Proof.
  intros Hi Hr k Hk. destruct (icache_section v k (<[ip := g ino]> (v_ic v)) Hk) as (kl & Ha & Hic & Hrl & Hk').
  rewrite (bind_ret_eq _ _ _ _ _ Ha). unfold upd_inode, bind at 1, modify. rewrite Hic, (alter_lookup _ _ _ _ Hi).
  eexists _, _, _. split; [exact Hrl|]. by split.
Qed.
Lemma run_icache_get {B} v ip ino (rest : inode → K B) Q :
  v_ic v !! ip = Some ino → run v (rest ino) Q →
  run v (acquire LIcache ;; x ← get_inode ip; release LIcache ;; rest x) Q.
Proof.
  intros Hi Hr k Hk. destruct (icache_section v k (v_ic v) Hk) as (kl & Ha & Hic & Hrl & _).
  rewrite (bind_ret_eq _ _ _ _ _ Ha). unfold get_inode, bind at 1 2, gets. rewrite Hic, Hi. simpl.
  replace (kl <| k_icache := v_ic v |>) with kl in Hrl by (rewrite <-Hic; by destruct kl).
  rewrite (bind_ret_eq _ _ _ _ _ Hrl). replace (k <| k_icache := v_ic v |>) with k; [by apply Hr|].
  rewrite <-(fv_ic _ _ Hk). by destruct k.
Qed.
End logic.
