(* ===== verification/FsDisk.v ===== *)
(** * FsDisk: what the blocks of a disk mean

    The bitmap says which blocks are in use.  The 13 addresses of an inode name
    up to 12 data blocks and an indirect block with 128 more; as a whole they
    are 141 slots, each empty or with the number of a block of the data area
    that no other slot has.  The bytes of the file are read through the slots,
    zero where there is no block. *)
From S2P Require Import Prelude.
From S2P Require Import Mem.
From S2P Require Import State.
From S2P Require Import Blk.
From S2P Require Import Fs.

(** ** Blocks *)

Definition blk_at (D : list (list Z)) (b : Z) : list Z := default [] (D !! Z.to_nat b).
Definition set_blk (D : list (list Z)) (b : Z) (d : list Z) : list (list Z) := <[Z.to_nat b := d]> D.

Definition is_byte (x : Z) : Prop := 0 ≤ x < 256.
Definition block_ok (d : list Z) : Prop := length d = Z.to_nat BSIZE ∧ Forall is_byte d.

Lemma blk_at_lookup D b d : D !! Z.to_nat b = Some d → blk_at D b = d.
Proof. unfold blk_at. by intros ->. Qed.
Lemma lookup_blk_at D b : 0 ≤ b < Z.of_nat (length D) → D !! Z.to_nat b = Some (blk_at D b).
Proof.
  intros Hb. unfold blk_at. destruct (D !! Z.to_nat b) eqn:E; [done|]. apply lookup_ge_None in E. lia.
Qed.
Lemma blk_at_set D b d b' :
  0 ≤ b < Z.of_nat (length D) → 0 ≤ b' → blk_at (set_blk D b d) b' = if decide (b' = b) then d else blk_at D b'.
Proof.
  intros Hb Hb'. unfold blk_at, set_blk. case_decide as E.
  - subst. by rewrite list_lookup_insert_eq by lia.
  - by rewrite list_lookup_insert_ne by lia.
Qed.
Lemma length_set_blk D b d : length (set_blk D b d) = length D.
Proof. apply length_insert. Qed.

Lemma is_byte_u8 x : is_byte (u8 x).
Proof. unfold is_byte, u8. apply Z.mod_pos_bound. lia. Qed.
Lemma block_ok_zero : block_ok zero_block.
Proof. split; [apply length_replicate|]. apply Forall_replicate. unfold is_byte. lia. Qed.
Lemma block_ok_byte d o : block_ok d → is_byte (byte_at d o).
Proof.
  intros [_ Hf]. unfold byte_at. destruct (d !! o) eqn:E; simpl; [|unfold is_byte; lia].
  rewrite Forall_lookup in Hf. by apply (Hf o).
Qed.
Lemma Forall_byte_put16 d o x : Forall is_byte d → Forall is_byte (put16 d o x).
Proof. intros H. unfold put16. apply Forall_insert; [apply Forall_insert; [done|]|]; apply is_byte_u8. Qed.
Lemma Forall_byte_put32 d o x : Forall is_byte d → Forall is_byte (put32 d o x).
Proof. intros H. unfold put32. by do 2 apply Forall_byte_put16. Qed.
Lemma Forall_byte_put_words ws d o : Forall is_byte d → Forall is_byte (put_words d o ws).
Proof.
  revert d o. induction ws as [|w ws IH]; intros d o H; [done|]. simpl. by apply IH, Forall_byte_put32.
Qed.
Lemma block_ok_put32 d o x : block_ok d → block_ok (put32 d o x).
Proof. intros [Hl Hf]. split; [by rewrite length_put32|by apply Forall_byte_put32]. Qed.
Lemma block_ok_splice d o l :
  block_ok d → (o + length l ≤ 512)%nat → Forall is_byte l → block_ok (splice d o l).
Proof.
  intros [Hl Hf] Ho Hb. split; [rewrite length_splice; [done|]; rewrite Hl; unfold BSIZE; lia|].
  unfold splice. apply Forall_app. split; [by apply Forall_take|]. apply Forall_app. split; [done|by apply Forall_drop].
Qed.

Lemma get32_range d o : block_ok d → 0 ≤ get32 d o < 4294967296.
Proof.
  intros Hd. unfold get32, get16. pose proof (block_ok_byte d o Hd). pose proof (block_ok_byte d (o + 1) Hd).
  pose proof (block_ok_byte d (o + 2) Hd). pose proof (block_ok_byte d (o + 2 + 1) Hd). unfold is_byte in *. lia.
Qed.
Lemma get32_zero o : get32 zero_block o = 0.
Proof.
  assert (∀ j, byte_at zero_block j = 0) as H; [|unfold get32, get16; by rewrite !H].
  intros j. unfold byte_at, zero_block. destruct (replicate _ _ !! j) as [x|] eqn:E; [|done].
  by apply lookup_replicate in E as [-> _].
Qed.

(** ** Bits *)

Lemma land_mask x n : 0 ≤ n → truthy (Z.land x (Z.shiftl 1 n)) = Z.testbit x n.
Proof.
  intros Hn. rewrite Z.shiftl_1_l. destruct (Z.testbit x n) eqn:E; unfold truthy.
  - destruct (Z.eqb_spec (Z.land x (2 ^ n)) 0) as [H|H]; [|done]. exfalso.
    apply (f_equal (λ z, Z.testbit z n)) in H.
    rewrite Z.land_spec, E, Z.pow2_bits_true, Z.bits_0 in H by lia. done.
  - destruct (Z.eqb_spec (Z.land x (2 ^ n)) 0) as [H|H]; [done|]. exfalso. apply H. apply Z.bits_inj'. intros m Hm.
    rewrite Z.land_spec, Z.bits_0. destruct (decide (m = n)) as [->|Hne]; [by rewrite E|].
    by rewrite Z.pow2_bits_false, andb_false_r by lia.
Qed.

Lemma bit_set_testbit d bi : 0 ≤ bi → bit_set d bi = Z.testbit (byte_at d (Z.to_nat (bi / 8))) (bi mod 8).
Proof. intros H. apply land_mask. apply Z.mod_pos_bound. lia. Qed.

Lemma testbit_u8 x n : 0 ≤ n < 8 → Z.testbit (u8 x) n = Z.testbit x n.
Proof. intros H. unfold u8. change 256 with (2 ^ 8). by rewrite Z.mod_pow2_bits_low by lia. Qed.

(** A change of the byte of bit [bi] that is [f] on that bit alone. *)
Lemma bit_set_alter d bi bj g (v : bool) :
  0 ≤ bi < 4096 → 0 ≤ bj → length d = 512%nat →
  (∀ x n, 0 ≤ n < 8 → Z.testbit (g x) n = if n =? bi mod 8 then v else Z.testbit x n) →
  bit_set (alter g (Z.to_nat (bi / 8)) d) bj = if bj =? bi then v else bit_set d bj.
Proof.
  intros Hi Hj Hl Hg. rewrite !bit_set_testbit by lia.
  assert (bi / 8 < 512) by (apply Z.div_lt_upper_bound; lia). assert (0 ≤ bi / 8) by (apply Z.div_pos; lia).
  destruct (lookup_lt_is_Some_2 d (Z.to_nat (bi / 8))) as [x Hx]; [lia|].
  rewrite (alter_lookup _ _ _ _ Hx). rewrite byte_at_insert by (rewrite Hl; lia).
  pose proof (Z.mod_pos_bound bj 8 ltac:(lia)). pose proof (Z.div_mod bi 8 ltac:(lia)).
  pose proof (Z.div_mod bj 8 ltac:(lia)). assert (0 ≤ bj / 8) by (apply Z.div_pos; lia).
  case_decide as E.
  - rewrite Hg by lia. assert (bj / 8 = bi / 8) as E' by lia. rewrite E'. unfold byte_at at 1. rewrite Hx. simpl.
    destruct (Z.eqb_spec (bj mod 8) (bi mod 8)), (Z.eqb_spec bj bi); try done; lia.
  - destruct (Z.eqb_spec bj bi) as [->|]; [done|done].
Qed.

Lemma set_bit_spec d bi bj :
  0 ≤ bi < 4096 → 0 ≤ bj → length d = 512%nat → bit_set (set_bit d bi) bj = (bj =? bi) || bit_set d bj.
Proof.
  intros Hi Hj Hl. unfold set_bit. rewrite (bit_set_alter d bi bj _ true); try done.
  intros x n Hn. rewrite testbit_u8, Z.lor_spec by done. unfold bit_mask. rewrite Z.shiftl_1_l.
  destruct (Z.eqb_spec n (bi mod 8)) as [->|Hne]; [rewrite Z.pow2_bits_true by lia; apply orb_true_r|].
  by rewrite Z.pow2_bits_false, orb_false_r by lia.
Qed.
Lemma clear_bit_spec d bi bj :
  0 ≤ bi < 4096 → 0 ≤ bj → length d = 512%nat → bit_set (clear_bit d bi) bj = negb (bj =? bi) && bit_set d bj.
Proof.
  intros Hi Hj Hl. unfold clear_bit. rewrite (bit_set_alter d bi bj _ false); try done; [by destruct (_ =? _)|].
  intros x n Hn. rewrite testbit_u8, Z.ldiff_spec by done. unfold bit_mask. rewrite Z.shiftl_1_l.
  destruct (Z.eqb_spec n (bi mod 8)) as [->|Hne]; [rewrite Z.pow2_bits_true by lia; apply andb_false_r|].
  by rewrite Z.pow2_bits_false, andb_true_r by lia.
Qed.
Lemma block_ok_alter d o g : block_ok d → (∀ x, is_byte (g x)) → block_ok (alter g o d).
Proof.
  intros [Hl Hf] Hg. split; [by rewrite length_alter|]. apply Forall_lookup. intros j x Hx.
  rewrite list_lookup_alter in Hx. rewrite Forall_lookup in Hf. case_decide; [|by apply (Hf j)].
  apply fmap_Some in Hx as (y & _ & ->). apply Hg.
Qed.
Lemma block_ok_set_bit d bi : block_ok d → block_ok (set_bit d bi).
Proof. intros H. apply block_ok_alter; [done|]. intros x. apply is_byte_u8. Qed.
Lemma block_ok_clear_bit d bi : block_ok d → block_ok (clear_bit d bi).
Proof. intros H. apply block_ok_alter; [done|]. intros x. apply is_byte_u8. Qed.

(** ** The layout of the disk *)

Section layout.
Context (sb : superblock) (N : nat) (start size : Z).
Implicit Types (D : list (list Z)) (a : list Z).

(** The first block behind the bitmap. *)
Definition data_start : Z := sb_bmapstart sb + sb_size sb / BPB + 1.

(** boot block, superblock, log, inodes, bitmap, data, as fs.h draws it. *)
Record geometry : Prop := {
  g_log : 2 ≤ start ∧ 0 ≤ size ∧ start + size ≤ sb_inodestart sb;
  g_inodes : 0 ≤ sb_ninodes sb ∧ sb_inodestart sb + sb_ninodes sb / IPB + 1 ≤ sb_bmapstart sb;
  g_data : data_start ≤ sb_size sb;
  g_size : sb_size sb ≤ Z.of_nat N;
  g_max : Z.of_nat N ≤ 2147483648
}.

Definition bitmap_block (b : Z) : Prop := sb_bmapstart sb ≤ b < data_start.
Definition allocated D (b : Z) : bool := bit_set (blk_at D (BBLOCK b sb)) (b mod BPB).

(** The disk has blocks of bytes behind the log, and the blocks before the data
    are in use. *)
Record disk_ok D : Prop := {
  dk_len : length D = N;
  dk_blocks b : sb_inodestart sb ≤ b < Z.of_nat N → block_ok (blk_at D b);
  dk_meta b : 0 ≤ b < data_start → allocated D b = true
}.

(** The free blocks. *)
Definition free_blocks D : gset Z := filter (λ b, allocated D b = false) (list_to_set (seqZ 0 (sb_size sb))).
Definition nfree D : nat := base.size (free_blocks D).

(** [balloc] of block [b] and [bfree] of it. *)
Definition mark D (b : Z) : list (list Z) :=
  set_blk D (BBLOCK b sb) (set_bit (blk_at D (BBLOCK b sb)) (b mod BPB)).
Definition alloc_disk D (b : Z) : list (list Z) := set_blk (mark D b) b zero_block.
Definition free_disk D (b : Z) : list (list Z) :=
  set_blk D (BBLOCK b sb) (clear_bit (blk_at D (BBLOCK b sb)) (b mod BPB)).

Context (Hg : geometry).

Lemma size_pos : 0 < sb_size sb ∧ 0 ≤ sb_bmapstart sb ∧ 0 ≤ sb_inodestart sb ∧ 0 ≤ sb_size sb / BPB ∧
  0 ≤ sb_ninodes sb / IPB ∧ 0 ≤ data_start.
Proof.
  destruct Hg as [[? ?] [Hn Hi] Hd Hs Hm]. unfold data_start in *.
  assert (0 ≤ sb_ninodes sb / IPB) by (apply Z.div_pos; unfold IPB; lia).
  destruct (Z.le_gt_cases 0 (sb_size sb)) as [Hz|Hz].
  - assert (0 ≤ sb_size sb / BPB) by (apply Z.div_pos; unfold BPB; lia). lia.
  - assert (sb_size sb ≤ sb_size sb / BPB) by (apply Z.div_le_lower_bound; unfold BPB; lia). lia.
Qed.

Lemma BBLOCK_eq b : 0 ≤ b < sb_size sb → BBLOCK b sb = b / BPB + sb_bmapstart sb ∧ bitmap_block (BBLOCK b sb).
Proof.
  intros Hb. pose proof size_pos. destruct Hg as [? ? Hd Hs Hm]. unfold data_start, bitmap_block, BBLOCK in *.
  assert (0 ≤ b / BPB ≤ sb_size sb / BPB) by (split; [apply Z.div_pos|apply Z.div_le_mono]; unfold BPB; lia).
  unfold data_start in *. rewrite u32_small by lia. split; [done|lia].
Qed.
Lemma bitmap_range b : bitmap_block b → 0 ≤ b < Z.of_nat N ∧ b < data_start.
Proof. pose proof size_pos. destruct Hg. unfold bitmap_block. lia. Qed.
Lemma BBLOCK_range b : 0 ≤ b < sb_size sb → 0 ≤ BBLOCK b sb < Z.of_nat N.
Proof. intros Hb. by apply bitmap_range, BBLOCK_eq. Qed.
Lemma mod_BPB b : 0 ≤ b mod BPB < 4096.
Proof. apply Z.mod_pos_bound. done. Qed.

Lemma elem_of_free_blocks D b : b ∈ free_blocks D ↔ 0 ≤ b < sb_size sb ∧ allocated D b = false.
Proof. unfold free_blocks. rewrite elem_of_filter, elem_of_list_to_set, elem_of_seqZ. naive_solver lia. Qed.

Lemma bitmap_block_ok D b : disk_ok D → bitmap_block b → block_ok (blk_at D b).
Proof.
  intros Hd Hb. apply Hd. pose proof size_pos. destruct Hg. unfold bitmap_block in *. lia.
Qed.
Lemma data_block_ok D b : disk_ok D → data_start ≤ b < sb_size sb → block_ok (blk_at D b).
Proof. intros Hd Hb. apply Hd. pose proof size_pos. destruct Hg. unfold data_start in *. lia. Qed.
Lemma disk_lookup D b : disk_ok D → 0 ≤ b < Z.of_nat N → D !! Z.to_nat b = Some (blk_at D b).
Proof. intros Hd Hb. apply lookup_blk_at. by rewrite (dk_len _ Hd). Qed.

(** A write outside the bitmap changes no bit. *)
Lemma allocated_set D b d c :
  length D = N → 0 ≤ b < Z.of_nat N → ~ bitmap_block b → 0 ≤ c < sb_size sb →
  allocated (set_blk D b d) c = allocated D c.
Proof.
  intros Hl Hb Hn Hc. unfold allocated. destruct (BBLOCK_eq c Hc) as [_ Hbm].
  rewrite blk_at_set by (rewrite ?Hl; first [done|by apply bitmap_range]). rewrite decide_False; [done|]. by intros <-.
Qed.

Lemma nfree_ext D D' :
  (∀ c, 0 ≤ c < sb_size sb → allocated D' c = allocated D c) → nfree D' = nfree D.
Proof.
  intros H. unfold nfree. f_equal. apply set_eq. intros x. rewrite !elem_of_free_blocks.
  split; intros [Hx Ha]; (split; [done|]); by rewrite <-Ha, H.
Qed.

Lemma disk_ok_set D b d :
  disk_ok D → 0 ≤ b < Z.of_nat N → ~ bitmap_block b → block_ok d → disk_ok (set_blk D b d).
Proof.
  intros Hd Hb Hn Hok. split.
  - rewrite length_set_blk. apply Hd.
  - intros c Hc. pose proof size_pos. rewrite blk_at_set by (rewrite ?(dk_len _ Hd); lia). case_decide; [done|by apply Hd].
  - intros c Hc. destruct Hg. rewrite allocated_set by (done || apply Hd || lia). by apply Hd.
Qed.

(** The bits of a block of the bitmap after a change of one of them. *)
Lemma allocated_bit D b g (f : Z → bool → bool) c :
  disk_ok D → 0 ≤ b < sb_size sb → 0 ≤ c < sb_size sb →
  (∀ d bj, length d = 512%nat → 0 ≤ bj → bit_set (g d) bj = f bj (bit_set d bj)) →
  (∀ bj x, bj ≠ b mod BPB → f bj x = x) →
  allocated (set_blk D (BBLOCK b sb) (g (blk_at D (BBLOCK b sb)))) c =
  if c =? b then f (b mod BPB) (allocated D c) else allocated D c.
Proof.
  intros Hd Hb Hc Hgf Hf. pose proof (BBLOCK_range b Hb) as Hbb. unfold allocated.
  destruct (BBLOCK_eq c Hc) as [Ec Hbm]. destruct (BBLOCK_eq b Hb) as [Eb _].
  rewrite blk_at_set by (rewrite ?(dk_len _ Hd); first [done|by apply bitmap_range]).
  pose proof (Z.div_mod b BPB ltac:(done)). pose proof (Z.div_mod c BPB ltac:(done)).
  case_decide as E.
  - rewrite Hgf; [|by apply (bitmap_block_ok D); [|apply BBLOCK_eq]|apply mod_BPB]. rewrite E. destruct (Z.eqb_spec c b) as [->|Hne]; [done|].
    apply Hf. assert (c / BPB = b / BPB) as E2 by lia. rewrite E2 in *. lia.
  - destruct (Z.eqb_spec c b) as [->|Hne]; done.
Qed.

Lemma allocated_mark D b c :
  disk_ok D → 0 ≤ b < sb_size sb → 0 ≤ c < sb_size sb → allocated (mark D b) c = (c =? b) || allocated D c.
Proof.
  intros Hd Hb Hc. unfold mark.
  rewrite (allocated_bit D b (λ d, set_bit d (b mod BPB)) (λ bj x, (bj =? b mod BPB) || x)); try done.
  - rewrite Z.eqb_refl. by destruct (c =? b).
  - intros d bj Hl Hj. apply set_bit_spec; [apply mod_BPB|done|done].
  - intros bj x Hne. by destruct (Z.eqb_spec bj (b mod BPB)).
Qed.
Lemma allocated_free D b c :
  disk_ok D → 0 ≤ b < sb_size sb → 0 ≤ c < sb_size sb → allocated (free_disk D b) c = negb (c =? b) && allocated D c.
Proof.
  intros Hd Hb Hc. unfold free_disk.
  rewrite (allocated_bit D b (λ d, clear_bit d (b mod BPB)) (λ bj x, negb (bj =? b mod BPB) && x)); try done.
  - rewrite Z.eqb_refl. by destruct (c =? b).
  - intros d bj Hl Hj. apply clear_bit_spec; [apply mod_BPB|done|done].
  - intros bj x Hne. by destruct (Z.eqb_spec bj (b mod BPB)).
Qed.

(** A bitmap block with other bits. *)
Lemma disk_ok_bitmap D b d :
  disk_ok D → 0 ≤ b < sb_size sb → block_ok d →
  (∀ c, 0 ≤ c < data_start → allocated (set_blk D (BBLOCK b sb) d) c = true) → disk_ok (set_blk D (BBLOCK b sb) d).
Proof.
  intros Hd Hb Hok Hm. split; [rewrite length_set_blk; apply Hd| |done].
  intros c Hc. pose proof size_pos. pose proof (BBLOCK_range b Hb).
  rewrite blk_at_set by (rewrite ?(dk_len _ Hd); lia). case_decide; [done|by apply Hd].
Qed.
Lemma disk_ok_mark D b : disk_ok D → 0 ≤ b < sb_size sb → disk_ok (mark D b).
Proof.
  intros Hd Hb. apply disk_ok_bitmap; [done|done|by apply block_ok_set_bit, (bitmap_block_ok D), BBLOCK_eq|].
  intros c Hc. destruct Hg. fold (mark D b). rewrite allocated_mark by (done || lia). rewrite (dk_meta _ Hd) by done.
  apply orb_true_r.
Qed.

(** ** Allocation *)

Section alloc.
Context (D : list (list Z)) (b : Z) (Hd : disk_ok D) (Hb : 0 ≤ b < sb_size sb) (Hfree : allocated D b = false).

Lemma free_is_data : data_start ≤ b < Z.of_nat N ∧ ~ bitmap_block b.
Proof.
  destruct Hg. assert (data_start ≤ b).
  { destruct (Z.le_gt_cases data_start b); [done|]. rewrite (dk_meta _ Hd) in Hfree by lia. done. }
  unfold bitmap_block. lia.
Qed.

Lemma alloc_disk_ok : disk_ok (alloc_disk D b).
Proof.
  destruct free_is_data. apply disk_ok_set; [by apply disk_ok_mark|lia|done|apply block_ok_zero].
Qed.
Lemma allocated_alloc c : 0 ≤ c < sb_size sb → allocated (alloc_disk D b) c = (c =? b) || allocated D c.
Proof.
  intros Hc. destruct free_is_data. unfold alloc_disk. pose proof (disk_ok_mark D b Hd Hb) as Hm.
  rewrite allocated_set by (apply Hm || done || lia). by apply allocated_mark.
Qed.
Lemma blk_at_alloc c :
  0 ≤ c → ~ bitmap_block c → blk_at (alloc_disk D b) c = if decide (c = b) then zero_block else blk_at D c.
Proof.
  intros Hc Hn. destruct free_is_data. pose proof (BBLOCK_range b Hb). unfold alloc_disk, mark.
  rewrite blk_at_set by (rewrite ?length_set_blk, ?(dk_len _ Hd); lia). case_decide as E; [done|].
  rewrite blk_at_set by (rewrite ?(dk_len _ Hd); lia). rewrite decide_False; [done|].
  intros ->. destruct Hn. by apply BBLOCK_eq.
Qed.
Lemma nfree_alloc : nfree D = S (nfree (alloc_disk D b)).
Proof.
  assert (free_blocks (alloc_disk D b) = free_blocks D ∖ {[b]}) as E.
  { apply set_eq. intros c. rewrite elem_of_difference, !elem_of_free_blocks, elem_of_singleton.
    split.
    - intros [Hc Ha]. rewrite allocated_alloc in Ha by done. apply orb_false_iff in Ha as [Hne Ha].
      apply Z.eqb_neq in Hne. done.
    - intros [[Hc Ha] Hne]. split; [done|]. rewrite allocated_alloc, Ha by done. by apply orb_false_iff, conj, eq_refl; apply Z.eqb_neq. }
  assert (b ∈ free_blocks D) by by apply elem_of_free_blocks.
  unfold nfree. rewrite E, size_difference, size_singleton by set_solver.
  assert (base.size (free_blocks D) ≠ 0)%nat; [|lia]. apply size_non_empty_iff. set_solver.
Qed.
End alloc.
End layout.
