(* ===== verification/FsMap.v ===== *)
(** * FsMap: the block map of an inode

    The 13 addresses of an inode and the words of its indirect block are 141
    slots.  A file is well formed when its non-empty slots name distinct blocks
    of the data area that the bitmap has as allocated.  [grow] is what adding a
    block to a file may change: nothing anyone can read. *)
From S2P Require Import Prelude.
From S2P Require Import Mem.
From S2P Require Import State.
From S2P Require Import Blk.
From S2P Require Import Fs.
From S2P Require Import FsDisk.

Definition NSLOT : nat := 141.
(** The slot of the indirect block. *)
Definition IND : nat := 12.
(** The slot of block [bn] of the file. *)
Definition bn_slot (bn : nat) : nat := if decide (bn < 12)%nat then bn else S bn.

Definition slot (D : list (list Z)) (a : list Z) (s : nat) : Z :=
  if decide (s ≤ IND)%nat then default 0 (a !! s)
  else let r := default 0 (a !! IND) in
       if decide (r = 0) then 0 else get32 (blk_at D r) (4 * (s - 13)).

(** Byte [j] of the file; a block that is not there reads as zeros. *)
Definition fblk (D : list (list Z)) (a : list Z) (j : Z) : Z := slot D a (bn_slot (Z.to_nat (j / BSIZE))).
Definition fbyte (D : list (list Z)) (a : list Z) (j : Z) : Z :=
  if decide (fblk D a j = 0) then 0 else byte_at (blk_at D (fblk D a j)) (Z.to_nat (j mod BSIZE)).

Definition owns (D : list (list Z)) (a : list Z) (b : Z) : Prop := b ≠ 0 ∧ ∃ s, (s < NSLOT)%nat ∧ slot D a s = b.

Lemma bn_slot_range j : 0 ≤ j < MAXFILE * BSIZE →
  (bn_slot (Z.to_nat (j / BSIZE)) < NSLOT)%nat ∧ bn_slot (Z.to_nat (j / BSIZE)) ≠ IND.
Proof.
  intros Hj. assert (0 ≤ j / BSIZE < MAXFILE).
  { split; [apply Z.div_pos; [lia|done]|]. apply Z.div_lt_upper_bound; [done|]. lia. }
  unfold MAXFILE, NDIRECT, NINDIRECT, bn_slot, NSLOT, IND in *. case_decide; lia.
Qed.
Lemma bn_slot_inj n m : bn_slot n = bn_slot m → n = m.
Proof. unfold bn_slot. repeat case_decide; lia. Qed.

Section map.
Context (sb : superblock) (N : nat) (start size : Z) (Hg : geometry sb N start size).
Implicit Types (D : list (list Z)) (a : list Z).
Local Notation disk_ok := (disk_ok sb N).
Local Notation allocated := (allocated sb).
Local Notation bitmap_block := (bitmap_block sb).

Record file_ok D a : Prop := {
  fo_len : length a = 13%nat;
  fo_used s : (s < NSLOT)%nat → slot D a s ≠ 0 →
    data_start sb ≤ slot D a s < sb_size sb ∧ allocated D (slot D a s) = true;
  fo_inj s t : (s < NSLOT)%nat → (t < NSLOT)%nat → slot D a s ≠ 0 → slot D a s = slot D a t → s = t
}.

Lemma owns_used D a b :
  file_ok D a → owns D a b →
  data_start sb ≤ b < sb_size sb ∧ allocated D b = true ∧ 0 ≤ b < Z.of_nat N ∧ ~ bitmap_block b.
Proof.
  intros Hf [Hne (s & Hs & <-)]. destruct (fo_used _ _ Hf s Hs Hne) as [Hr Ha].
  pose proof (size_pos sb N start size Hg). destruct Hg. unfold FsDisk.bitmap_block. split_and!; try done; lia.
Qed.

Lemma slot_direct D a s : (s ≤ IND)%nat → slot D a s = default 0 (a !! s).
Proof. intros Hs. unfold slot. by rewrite decide_True. Qed.
Lemma slot_IND D D' a : slot D' a IND = slot D a IND.
Proof. by rewrite !slot_direct. Qed.
Lemma slot_indirect D a s : (IND < s)%nat →
  slot D a s = if decide (slot D a IND = 0) then 0 else get32 (blk_at D (slot D a IND)) (4 * (s - 13)).
Proof. intros Hs. rewrite (slot_direct D a IND) by done. unfold slot. by rewrite decide_False by lia. Qed.

(** The slots depend on the indirect block only. *)
Lemma slot_ext D D' a s :
  (slot D a IND ≠ 0 → blk_at D' (slot D a IND) = blk_at D (slot D a IND)) → slot D' a s = slot D a s.
Proof.
  intros H. destruct (decide (s ≤ IND)%nat); [by rewrite !slot_direct|].
  rewrite (slot_indirect D), (slot_indirect D') by lia. rewrite (slot_direct D' a IND), <-(slot_direct D a IND) by done.
  case_decide as E; [done|]. by rewrite H.
Qed.
Lemma owns_IND D a : slot D a IND ≠ 0 → owns D a (slot D a IND).
Proof. intros H. split; [done|]. exists IND. split; [unfold IND, NSLOT; lia|done]. Qed.

(** A disk on which none of the blocks of a file changed. *)
Lemma same_file D D' a :
  file_ok D a → (∀ b, owns D a b → blk_at D' b = blk_at D b ∧ allocated D' b = true) →
  file_ok D' a ∧ (∀ s, slot D' a s = slot D a s) ∧ (∀ j, 0 ≤ j < MAXFILE * BSIZE → fbyte D' a j = fbyte D a j).
Proof.
  intros Hf Hb.
  assert (∀ s, slot D' a s = slot D a s) as Hs by (intros s; apply slot_ext; intros H; by apply Hb, owns_IND).
  split_and!; [|done|].
  - split; [apply Hf|..].
    + intros s Hl Hne. rewrite Hs in Hne |- *. split; [by apply Hf|]. apply Hb. split; [done|]. by exists s.
    + intros s t Hls Hlt. rewrite !Hs. by apply Hf.
  - intros j Hj. unfold fbyte, fblk. rewrite Hs. case_decide as E; [done|].
    destruct (Hb (slot D a (bn_slot (Z.to_nat (j / BSIZE))))) as [H _]; [|by rewrite H].
    split; [done|]. eexists. split; [by apply bn_slot_range|done].
Qed.

(** Disks that differ in the log and before it only. *)
Definition agree D D' : Prop := ∀ b, sb_inodestart sb ≤ b < Z.of_nat N → blk_at D' b = blk_at D b.

Lemma agree_allocated D D' b : agree D D' → 0 ≤ b < sb_size sb → allocated D' b = allocated D b.
Proof.
  intros Ha Hb. unfold FsDisk.allocated. rewrite Ha; [done|]. destruct (BBLOCK_eq sb N start size Hg b Hb) as [_ Hbm].
  pose proof (size_pos sb N start size Hg). destruct Hg. unfold FsDisk.bitmap_block in *. lia.
Qed.
Lemma agree_disk_ok D D' : agree D D' → length D' = N → disk_ok D → disk_ok D'.
Proof.
  intros Ha Hl Hd. split; [done|..].
  - intros b Hb. rewrite Ha by done. by apply Hd.
  - intros b Hb. rewrite (agree_allocated D D' b Ha) by (destruct Hg; lia). by apply Hd.
Qed.
Lemma agree_file D D' a :
  agree D D' → file_ok D a →
  file_ok D' a ∧ (∀ s, slot D' a s = slot D a s) ∧ (∀ j, 0 ≤ j < MAXFILE * BSIZE → fbyte D' a j = fbyte D a j).
Proof.
  intros Ha Hf. apply same_file; [done|]. intros b Ho. destruct (owns_used D a b Hf Ho) as (Hb & Hba & HbN & _).
  pose proof (size_pos sb N start size Hg). split; [|rewrite <-Hba; apply agree_allocated; [done|lia]].
  apply Ha. destruct Hg. unfold data_start in *. lia.
Qed.

(** What a change of a file may change: byte [j] becomes [f j] of what it was,
    and nothing outside the file and the bitmap differs.  [grow] adds blocks
    only. *)
Record edit (f : Z → Z → Z) D a D' a' : Prop := {
  gr_disk : disk_ok D';
  gr_file : file_ok D' a';
  gr_mono s : (s < NSLOT)%nat → slot D a s ≠ 0 → slot D' a' s = slot D a s;
  gr_byte j : 0 ≤ j < MAXFILE * BSIZE → fbyte D' a' j = f j (fbyte D a j);
  gr_alloc b : 0 ≤ b < sb_size sb → allocated D' b = true ↔ allocated D b = true ∨ owns D' a' b;
  gr_fresh b : owns D' a' b → owns D a b ∨ allocated D b = false;
  gr_frame b : 0 ≤ b → ~ bitmap_block b → ~ owns D' a' b → blk_at D' b = blk_at D b
}.
Local Notation grow := (edit (λ _ x, x)).

Lemma grow_refl D a : disk_ok D → file_ok D a → grow D a D a.
Proof.
  intros Hd Hf. split; try done; [|by left]. intros b Hb. split; [by left|]. intros [?|Ho]; [done|]. by apply (owns_used D a b Hf) in Ho as (_ & ? & _).
Qed.
Lemma edit_owns f D a D' a' b : edit f D a D' a' → owns D a b → owns D' a' b.
Proof. intros Hgr [Hne (s & Hs & <-)]. split; [done|]. exists s. split; [done|by apply Hgr]. Qed.
Lemma edit_trans f g D1 a1 D2 a2 D3 a3 :
  edit f D1 a1 D2 a2 → edit g D2 a2 D3 a3 → edit (λ j x, g j (f j x)) D1 a1 D3 a3.
Proof.
  intros H1 H2. split.
  - apply H2.
  - apply H2.
  - intros s Hs Hne. pose proof (gr_mono _ _ _ _ _ H1 s Hs Hne) as E. rewrite (gr_mono _ _ _ _ _ H2) by (done || by rewrite E). done.
  - intros j Hj. by rewrite (gr_byte _ _ _ _ _ H2), (gr_byte _ _ _ _ _ H1).
  - intros b Hb. rewrite (gr_alloc _ _ _ _ _ H2), (gr_alloc _ _ _ _ _ H1) by done. pose proof (edit_owns _ _ _ _ _ b H2). tauto.
  - intros b Ho. pose proof (owns_used _ _ _ (gr_file _ _ _ _ _ H2) Ho) as (Hb & _). pose proof (size_pos sb N start size Hg).
    destruct (gr_fresh _ _ _ _ _ H2 b Ho) as [Ho2|Hf2]; [by apply H1|right].
    apply not_true_iff_false. intros Ha. assert (allocated D2 b = true) as Ha2; [|congruence].
    apply (gr_alloc _ _ _ _ _ H1); [lia|by left].
  - intros b Hb Hn Ho. rewrite (gr_frame _ _ _ _ _ H2) by done. apply (gr_frame _ _ _ _ _ H1); [done|done|].
    intros ?. by apply Ho, (edit_owns _ _ _ _ _ _ H2).
Qed.
Lemma edit_ext f g D a D' a' :
  (∀ j x, 0 ≤ j < MAXFILE * BSIZE → f j x = g j x) → edit f D a D' a' → edit g D a D' a'.
Proof. intros Hfg [H1 H2 H3 H4 H5 H6 H7]. split; try done. intros j Hj. by rewrite H4, Hfg. Qed.

(** A fresh zeroed block [b] in the empty slot [s]. *)
Lemma grow_slot D a D' a' s b :
  file_ok D a → disk_ok D' → length a' = 13%nat → (s < NSLOT)%nat → slot D a s = 0 →
  data_start sb ≤ b < sb_size sb → allocated D b = false →
  (∀ t, (t < NSLOT)%nat → slot D' a' t = if decide (t = s) then b else slot D a t) →
  (∀ c, 0 ≤ c < sb_size sb → allocated D' c = (c =? b) || allocated D c) →
  blk_at D' b = zero_block →
  (∀ c, 0 ≤ c → ~ bitmap_block c → c ≠ b → (slot D a IND ≠ 0 → c ≠ slot D a IND) → blk_at D' c = blk_at D c) →
  grow D a D' a'.
Proof.
  intros Hf Hd' Hl Hs Hs0 Hb Hfr Hsl Hal Hz Hbl. pose proof (size_pos sb N start size Hg) as (? & ? & ? & ? & ? & ?).
  assert (∀ t, (t < NSLOT)%nat → slot D a t ≠ b) as Hnb.
  { intros t Ht E. destruct (fo_used _ _ Hf t Ht) as [_ Ha]; [unfold data_start in *; lia|]. congruence. }
  assert (b ≠ 0) as Hb0 by (unfold data_start in *; lia).
  assert (owns D' a' b) as Hob by (split; [done|]; exists s; split; [done|]; by rewrite Hsl, decide_True).
  assert (file_ok D' a') as Hf'.
  { split; [done|..].
    - intros t Ht. rewrite Hsl by done. case_decide; intros Hne.
      + split; [done|]. rewrite Hal, Z.eqb_refl by lia. done.
      + destruct (fo_used _ _ Hf t Ht Hne) as [Hr Ha]. split; [done|]. rewrite Hal, Ha by lia. apply orb_true_r.
    - intros t u Ht Hu. rewrite !Hsl by done. case_decide; case_decide; subst; try done.
      + intros _ E. symmetry in E. by apply Hnb in E.
      + intros _ E. by apply Hnb in E.
      + by apply Hf. }
  split; try done.
  - intros t Ht Hne. rewrite Hsl by done. rewrite decide_False by congruence. done.
  - intros j Hj. unfold fbyte, fblk. destruct (bn_slot_range j Hj) as [Ht Hti]. set (t := bn_slot _) in *.
    rewrite Hsl by done. destruct (decide (t = s)) as [Ets|Hne].
    + rewrite Ets, Hs0. rewrite decide_False by done. rewrite decide_True by done. rewrite Hz.
      unfold byte_at, zero_block. destruct (replicate _ _ !! _) eqn:E; [|done]. by apply lookup_replicate in E as [-> _].
    + case_decide as E; [done|]. rewrite Hbl; [done|..].
      * destruct (fo_used _ _ Hf t Ht E). lia.
      * destruct (fo_used _ _ Hf t Ht E). unfold FsDisk.bitmap_block. lia.
      * by apply Hnb.
      * intros _ E'. apply Hti, (fo_inj _ _ Hf t IND); [done|unfold IND, NSLOT; lia|done|done].
  - intros c Hc. rewrite Hal by done. rewrite orb_true_iff, Z.eqb_eq. split.
    + intros [->|?]; [by right|by left].
    + intros [?|[Hc0 (t & Ht & Htc)]]; [by right|]. rewrite Hsl in Htc by done. case_decide; [by left|].
      right. rewrite <-Htc. apply (fo_used _ _ Hf t Ht). by rewrite Htc.
  - intros c [Hc0 (t & Ht & Htc)]. rewrite Hsl in Htc by done. case_decide; [right; congruence|left].
    split; [done|]. by exists t.
  - intros c Hc Hn Ho. apply Hbl; [done|done|by intros ->|]. intros Hi ->. destruct Ho. split; [done|]. exists IND.
    split; [unfold IND, NSLOT; lia|]. rewrite Hsl by (unfold IND, NSLOT; lia). rewrite decide_False; [done|]. intros E. by rewrite E in Hi.
Qed.

(** [ip->addrs[s] = balloc()] *)
Lemma grow_addr D a s b :
  disk_ok D → file_ok D a → (s ≤ IND)%nat → slot D a s = 0 → 0 ≤ b < sb_size sb → allocated D b = false →
  grow D a (alloc_disk sb D b) (<[s := b]> a) ∧ slot (alloc_disk sb D b) (<[s := b]> a) s = b.
Proof.
  intros Hd Hf Hs Hs0 Hb Hfr. destruct (free_is_data sb N start size Hg D b Hd Hb Hfr) as [Hdat Hnb].
  pose proof (size_pos sb N start size Hg) as (? & ? & ? & ? & ? & ?).
  assert (∀ t, (t < NSLOT)%nat → slot (alloc_disk sb D b) (<[s := b]> a) t = if decide (t = s) then b else slot D a t) as Hsl.
  { intros t Ht. destruct (decide (t ≤ IND)%nat) as [Hti|Hti].
    - rewrite !slot_direct by done. case_decide as E; [subst t; rewrite list_lookup_insert_eq; [done|]|by rewrite list_lookup_insert_ne].
      rewrite (fo_len _ _ Hf). unfold IND in *. lia.
    - rewrite decide_False by lia. rewrite (slot_indirect D), (slot_indirect (alloc_disk sb D b)) by lia. rewrite !slot_direct by done.
      destruct (decide (s = IND)) as [->|Hne].
      + rewrite slot_direct in Hs0 by done. rewrite Hs0.
        rewrite list_lookup_insert_eq by (rewrite (fo_len _ _ Hf); unfold IND; lia). change (default 0 (Some b)) with b.
        rewrite decide_False by (unfold data_start in *; lia).
        rewrite (blk_at_alloc sb N start size Hg D b) by (done || lia). rewrite decide_True by done.
        rewrite decide_True by done. apply get32_zero.
      + rewrite list_lookup_insert_ne by done. rewrite <-(slot_direct D a IND) by done.
        case_decide as E; [done|]. pose proof (owns_used _ _ _ Hf (owns_IND D a E)) as (? & Ha & ? & Hnbm).
        rewrite (blk_at_alloc sb N start size Hg D b) by (done || lia). rewrite decide_False; [done|]. intros E'. congruence. }
  split; [|rewrite Hsl by (unfold IND, NSLOT in *; lia); by rewrite decide_True].
  apply (grow_slot _ _ _ _ s b); try done.
  - by apply (alloc_disk_ok sb N start size Hg).
  - rewrite length_insert. apply Hf.
  - unfold IND, NSLOT in *. lia.
  - lia.
  - intros c Hc. by apply (allocated_alloc sb N start size Hg).
  - rewrite (blk_at_alloc sb N start size Hg D b) by (done || lia). by rewrite decide_True.
  - intros c Hc Hn Hcb _. rewrite (blk_at_alloc sb N start size Hg D b) by done. by rewrite decide_False.
Qed.

(** [a[s] = balloc()] in the indirect block. *)
Lemma grow_entry D a s b :
  disk_ok D → file_ok D a → (IND < s < NSLOT)%nat → slot D a IND ≠ 0 → slot D a s = 0 →
  0 ≤ b < sb_size sb → allocated D b = false →
  let r := slot D a IND in
  let D' := set_blk (alloc_disk sb D b) r (put32 (blk_at (alloc_disk sb D b) r) (4 * (s - 13)) b) in
  grow D a D' a ∧ slot D' a s = b.
Proof.
  intros Hd Hf Hs Hr Hs0 Hb Hfr r D'. destruct (free_is_data sb N start size Hg D b Hd Hb Hfr) as [Hdat Hnb].
  pose proof (size_pos sb N start size Hg) as (? & ? & ? & ? & ? & ?).
  pose proof (owns_used _ _ _ Hf (owns_IND D a Hr)) as (Hrd & Ha & HrN & Hnbm). fold r in Hrd, Ha, HrN, Hnbm.
  assert (r ≠ b) as Hrb by congruence. pose proof (alloc_disk_ok sb N start size Hg D b Hd Hb Hfr) as Hd1.
  assert (length (alloc_disk sb D b) = N) as Hl1 by apply Hd1.
  assert (blk_at (alloc_disk sb D b) r = blk_at D r) as Er.
  { rewrite (blk_at_alloc sb N start size Hg D b) by (done || lia). by rewrite decide_False. }
  assert (block_ok (blk_at D r)) as Hrok by by apply (data_block_ok sb N start size Hg).
  assert (∀ t, (t < NSLOT)%nat → slot D' a t = if decide (t = s) then b else slot D a t) as Hsl.
  { intros t Ht. destruct (decide (t ≤ IND)%nat) as [Hti|Hti].
    - rewrite !slot_direct by done. by rewrite decide_False by (unfold IND in *; lia).
    - rewrite (slot_indirect D), (slot_indirect D') by lia. rewrite (slot_direct D' a IND), <-(slot_direct D a IND) by done. fold r.
      rewrite !(decide_False (P := r = 0)) by done. unfold D'. rewrite blk_at_set, decide_True, Er by (done || rewrite ?Hl1; lia).
      destruct Hrok as [Hrl _]. unfold IND, NSLOT in *. case_decide as E.
      + subst t. rewrite get32_put32_eq by (rewrite Hrl; unfold BSIZE; lia). apply u32_small. destruct Hg. lia.
      + apply get32_put32_ne; [rewrite Hrl; unfold BSIZE; lia|lia]. }
  split; [|rewrite Hsl by lia; by rewrite decide_True].
  apply (grow_slot _ _ _ _ s b); try done.
  - apply (disk_ok_set sb N start size Hg); [done|done|done|]. rewrite Er. by apply block_ok_put32.
  - apply Hf.
  - lia.
  - lia.
  - intros c Hc. unfold D'. rewrite (allocated_set sb N start size Hg) by done. by apply (allocated_alloc sb N start size Hg).
  - unfold D'. rewrite blk_at_set by (rewrite ?Hl1; lia). rewrite decide_False by done.
    rewrite (blk_at_alloc sb N start size Hg D b) by (done || lia). by rewrite decide_True.
  - intros c Hc Hn Hcb Hci. unfold D'. rewrite blk_at_set by (rewrite ?Hl1; lia). rewrite decide_False by auto.
    rewrite (blk_at_alloc sb N start size Hg D b) by done. by rewrite decide_False.
Qed.

(** ** Writing bytes *)

(** The list [l] at position [off], over what was there. *)
Definition over (off : Z) (l : list Z) (j x : Z) : Z :=
  if decide (off ≤ j) then default x (l !! Z.to_nat (j - off)) else x.

Lemma over_app off l1 l2 j x :
  over (off + Z.of_nat (length l1)) l2 j (over off l1 j x) = over off (l1 ++ l2) j x.
Proof.
  unfold over. destruct (decide (off ≤ j)) as [H1|H1], (decide (off + Z.of_nat (length l1) ≤ j)) as [H2|H2]; try done; [..|lia].
  - rewrite lookup_app_r by lia. rewrite (lookup_ge_None_2 l1) by lia. simpl.
    by replace (Z.to_nat (j - (off + Z.of_nat (length l1)))) with (Z.to_nat (j - off) - length l1)%nat by lia.
  - by rewrite lookup_app_l by lia.
Qed.
Lemma over_nil off j x : over off [] j x = x.
Proof. unfold over. by case_decide. Qed.

Lemma byte_at_splice d o l n :
  (o + length l ≤ length d)%nat →
  byte_at (splice d o l) n = if decide (o ≤ n < o + length l)%nat then default 0 (l !! (n - o)%nat) else byte_at d n.
Proof.
  intros Hl. unfold byte_at, splice. case_decide as E.
  - rewrite lookup_app_r by (rewrite length_take; lia). rewrite length_take.
    rewrite lookup_app_l by lia. by replace (n - o `min` length d)%nat with (n - o)%nat by lia.
  - destruct (decide (n < o)%nat).
    + rewrite lookup_app_l by (rewrite length_take; lia). by rewrite lookup_take_lt by lia.
    + rewrite lookup_app_r by (rewrite length_take; lia). rewrite length_take, lookup_app_r by lia.
      rewrite lookup_drop. do 2 f_equal. lia.
Qed.

(** Bytes of a block that is written from byte [off] of the file on. *)
Lemma same_block off l j :
  0 ≤ off → (Z.to_nat (off mod BSIZE) + l ≤ 512)%nat → off ≤ j < off + Z.of_nat l → j / BSIZE = off / BSIZE.
Proof.
  intros Hoff Hl Hin. pose proof (Z.mod_pos_bound off BSIZE ltac:(done)). pose proof (Z.div_mod off BSIZE ltac:(done)).
  symmetry. apply (Z.div_unique _ _ _ (off mod BSIZE + (j - off))); unfold BSIZE in *; lia.
Qed.
Lemma byte_at_over d off l j :
  length d = Z.to_nat BSIZE → (Z.to_nat (off mod BSIZE) + length l ≤ 512)%nat → 0 ≤ off → 0 ≤ j → j / BSIZE = off / BSIZE →
  byte_at (splice d (Z.to_nat (off mod BSIZE)) l) (Z.to_nat (j mod BSIZE)) = over off l j (byte_at d (Z.to_nat (j mod BSIZE))).
Proof.
  intros Hlen Hl Hoff Hj Hdiv. change (Z.to_nat BSIZE) with 512%nat in Hlen. unfold over.
  pose proof (Z.mod_pos_bound off BSIZE ltac:(done)). pose proof (Z.mod_pos_bound j BSIZE ltac:(done)).
  pose proof (Z.div_mod off BSIZE ltac:(done)). pose proof (Z.div_mod j BSIZE ltac:(done)).
  rewrite byte_at_splice by lia. destruct (decide (off ≤ j)) as [Ej|Ej].
  - case_decide as Er; [|by rewrite (lookup_ge_None_2 l) by lia].
    replace (Z.to_nat (j mod BSIZE) - Z.to_nat (off mod BSIZE))%nat with (Z.to_nat (j - off)) by lia.
    destruct (lookup_lt_is_Some_2 l (Z.to_nat (j - off))) as [y Hy]; [lia|]. by rewrite Hy.
  - by rewrite decide_False by lia.
Qed.

(** [memmove] into the buffer of the block of byte [off]. *)
Lemma edit_write D a off l :
  disk_ok D → file_ok D a → 0 ≤ off < MAXFILE * BSIZE → fblk D a off ≠ 0 →
  (Z.to_nat (off mod BSIZE) + length l ≤ 512)%nat → Forall is_byte l →
  let b := fblk D a off in
  let D' := set_blk D b (splice (blk_at D b) (Z.to_nat (off mod BSIZE)) l) in
  edit (over off l) D a D' a.
Proof.
  intros Hd Hf Hoff Hb Hl Hby b D'. destruct (bn_slot_range off Hoff) as [Hs Hsi]. set (s := bn_slot _) in *.
  assert (owns D a b) as Ho by (split; [done|by exists s]).
  destruct (owns_used D a b Hf Ho) as (Hbd & Hba & HbN & Hnbm). assert (block_ok (blk_at D b)) as Hok by by apply (data_block_ok sb N start size Hg).
  assert (∀ c, 0 ≤ c → blk_at D' c = if decide (c = b) then splice (blk_at D b) (Z.to_nat (off mod BSIZE)) l else blk_at D c) as HD'.
  { intros c Hc. unfold D'. by rewrite blk_at_set by (rewrite ?(dk_len _ _ _ Hd); lia). }
  assert (slot D a IND ≠ b) as Hne.
  { intros E. apply Hsi. symmetry. apply (fo_inj _ _ Hf); [unfold IND, NSLOT; lia|done|by rewrite E|done]. }
  assert (∀ t, slot D' a t = slot D a t) as Hsl.
  { intros t. apply slot_ext. intros Hi. destruct (owns_used D a _ Hf (owns_IND D a Hi)) as (_ & _ & ? & _).
    rewrite HD' by lia. by rewrite decide_False. }
  assert (∀ c, 0 ≤ c < sb_size sb → allocated D' c = allocated D c) as Hal.
  { intros c Hc. apply (allocated_set sb N start size Hg); [apply Hd|done..]. }
  assert (∀ c, owns D' a c ↔ owns D a c) as How.
  { intros c. unfold owns. split; intros [? (t & ? & Ht)]; (split; [done|]); exists t; (split; [done|]); by rewrite <-Ht, Hsl. }
  split.
  - apply (disk_ok_set sb N start size Hg); try done. by apply block_ok_splice.
  - split; [apply Hf|..].
    + intros t Ht. rewrite Hsl. intros Hnz. destruct (fo_used _ _ Hf t Ht Hnz) as [Hr Ha]. split; [done|].
      rewrite Hal; [done|]. pose proof (size_pos sb N start size Hg). lia.
    + intros t u Ht Hu. rewrite !Hsl. by apply Hf.
  - intros t _ _. apply Hsl.
  - intros j Hj. unfold fbyte. assert (fblk D' a j = fblk D a j) as -> by apply Hsl.
    destruct (bn_slot_range j Hj) as [Hsj _]. pose proof (Z.mod_pos_bound off BSIZE ltac:(done)).
    pose proof (Z.mod_pos_bound j BSIZE ltac:(done)). pose proof (Z.div_mod off BSIZE ltac:(done)).
    pose proof (Z.div_mod j BSIZE ltac:(done)).
    assert (0 ≤ off / BSIZE) by (apply Z.div_pos; [lia|done]). assert (0 ≤ j / BSIZE) by (apply Z.div_pos; [lia|done]).
    assert (fblk D a j = b → j / BSIZE = off / BSIZE) as Hinj.
    { intros E. apply (fo_inj _ _ Hf) in E; [|done|done|change (fblk D a j ≠ 0); by rewrite E]. apply bn_slot_inj in E. lia. }
    assert (off ≤ j < off + Z.of_nat (length l) → j / BSIZE = off / BSIZE) as Hdiv by (apply same_block; [lia|done]).
    unfold over. destruct (decide (fblk D a j = 0)) as [E0|E0].
    + case_decide as Ej; [|done]. rewrite lookup_ge_None_2; [done|]. apply Nat.nlt_ge. intros Hlt.
      assert (j / BSIZE = off / BSIZE) as E by (apply Hdiv; lia). apply Hb. unfold fblk in *. by rewrite <-E.
    + assert (0 ≤ fblk D a j) by (destruct (fo_used _ _ Hf _ Hsj E0); pose proof (size_pos sb N start size Hg); unfold fblk; lia).
      rewrite HD' by done. destruct (decide (fblk D a j = b)) as [Eb|Eb].
      * rewrite Eb. apply byte_at_over; [apply Hok|done|lia|lia|by apply Hinj].
      * case_decide as Ej; [|done]. rewrite lookup_ge_None_2; [done|]. apply Nat.nlt_ge. intros Hlt.
        assert (j / BSIZE = off / BSIZE) as E by (apply Hdiv; lia). apply Eb. unfold fblk, b in *. by rewrite E.
  - intros c Hc. rewrite Hal, How by done. split; [by left|]. intros [?|Hoc]; [done|]. by apply (owns_used D a c Hf) in Hoc as (_ & ? & _).
  - intros c Hoc. left. by apply How.
  - intros c Hc _ Hoc. rewrite HD' by done. rewrite decide_False; [done|]. intros ->. apply Hoc. by rewrite How.
Qed.

(** The bytes of one block of the file. *)
Lemma slice_fbyte D a off m :
  block_ok (blk_at D (fblk D a off)) → fblk D a off ≠ 0 → 0 ≤ off → 0 ≤ m ≤ BSIZE - off mod BSIZE →
  slice (blk_at D (fblk D a off)) (Z.to_nat (off mod BSIZE)) (Z.to_nat m) = fbyte D a <$> seqZ off m.
Proof.
  intros [Hlen _] Hb Hoff Hm. pose proof (Z.mod_pos_bound off BSIZE ltac:(done)). pose proof (Z.div_mod off BSIZE ltac:(done)).
  apply list_eq. intros n. unfold slice. rewrite list_lookup_fmap.
  destruct (decide (n < Z.to_nat m)%nat) as [Hn|Hn].
  - rewrite lookup_take_lt by done. rewrite lookup_drop. rewrite lookup_seqZ_lt by lia. simpl.
    assert ((off + Z.of_nat n) / BSIZE = off / BSIZE) as Ed
      by (symmetry; apply (Z.div_unique _ _ _ (off mod BSIZE + Z.of_nat n)); unfold BSIZE in *; lia).
    assert ((off + Z.of_nat n) mod BSIZE = off mod BSIZE + Z.of_nat n) as Em
      by (symmetry; apply (Z.mod_unique _ _ (off / BSIZE)); unfold BSIZE in *; lia).
    unfold fbyte, fblk in *. rewrite Ed, Em. rewrite decide_False by done. unfold byte_at.
    replace (Z.to_nat (off mod BSIZE + Z.of_nat n)) with (Z.to_nat (off mod BSIZE) + n)%nat by lia.
    destruct (_ !! _) eqn:E; [done|]. apply lookup_ge_None in E. unfold BSIZE in *. lia.
  - rewrite lookup_take_ge by lia. by rewrite lookup_seqZ_ge by lia.
Qed.
End map.

Abbreviation grow sb N := (edit sb N (λ _ x, x)).
