(* ===== verification/FsAlloc.v ===== *)
(** * FsAlloc: block allocation ([bzero], [balloc], [bfree], [bmap])

    [balloc] finds a clear bit of the bitmap if there is one, sets it and zeroes
    the block; [bfree] clears the bit; [bmap] returns the block of a slot and
    fills empty slots on the way. *)
From S2P Require Import Prelude.
From S2P Require Import Mem.
From S2P Require Import State.
From S2P Require Import Spin.
From S2P Require Import Cons.
From S2P Require Import Kalloc.
From S2P Require Import Vm.
From S2P Require Import Mlq.
From S2P Require Import Proc.
From S2P Require Import Blk.
From S2P Require Import Bio.
From S2P Require Import Log.
From S2P Require Import Txn.
From S2P Require Import Fs.
From S2P Require Import FsLogic.
From S2P Require Import FsDisk.
From S2P Require Import FsMap.

Section alloc.
Context (i : nat) (c : cpu) (me : nat) (pid : Z) (k0 : kernel) (start size o : Z) (sb : superblock).
Let N := length (k_disk k0).
Context (Hg : geometry sb N start size).
Implicit Types (v : view).
Local Notation run := (run i c me pid k0 start size o).
Local Notation cap := (cap size).

Lemma home_of b : sb_inodestart sb ≤ b < Z.of_nat N → home k0 start size b.
Proof. pose proof (size_pos sb N start size Hg). destruct Hg as [? ? ? ? ?]. unfold home. lia. Qed.

(** The view fits the superblock [sb]. *)
Record view_ok v : Prop := {
  vo_sb : v_sb v = sb;
  vo_disk : disk_ok sb N (v_disk v);
  vo_nodup : NoDup (v_bs v);
  vo_held x b : (x, b) ∈ v_held v → ~ bitmap_block sb b ∧ (0 ≤ b < sb_size sb → allocated sb (v_disk v) b = true)
}.

Lemma bitmap_home b : bitmap_block sb b → home k0 start size b.
Proof.
  intros Hb. apply home_of. pose proof (size_pos sb N start size Hg). destruct Hg. unfold bitmap_block in *. lia.
Qed.
Lemma not_held v b : (∀ x, (x, b) ∉ v_held v) → b ∉ (v_held v).*2.
Proof. intros H [[x b'] [-> Hin]]%list_elem_of_fmap. by apply (H x). Qed.
Lemma bitmap_not_held v b : view_ok v → bitmap_block sb b → b ∉ (v_held v).*2.
Proof. intros Hv Hb. apply not_held. intros x Hin. by apply (vo_held _ Hv) in Hin as [? _]. Qed.

Lemma run_bzero v b (Q : unit → view → Prop) :
  view_ok v → sb_inodestart sb ≤ b < Z.of_nat N → b ∉ (v_held v).*2 → (load v < cap)%nat → 1 ≤ o →
  Q tt (set_disk v b zero_block) → run v (bzero 1 b) Q.
Proof.
  intros Hv Hb Hn Hl Ho HQ. pose proof (size_pos sb N start size Hg).
  eapply run_update; [by apply home_of|done|done| |done|exact HQ].
  apply (disk_lookup sb N); [apply Hv|lia].
Qed.

(** ** [balloc] *)

Definition v_mark v (b : Z) : view :=
  set_disk v (BBLOCK b sb) (set_bit (blk_at (v_disk v) (BBLOCK b sb)) (b mod BPB)).
Definition v_alloc v (b : Z) : view := set_disk (v_mark v b) b zero_block.

Lemma v_mark_ok v b : view_ok v → 0 ≤ b < sb_size sb → view_ok (v_mark v b).
Proof.
  intros Hv Hb. split; [apply Hv|by apply (disk_ok_mark sb N start size Hg); [apply Hv|]|apply NoDup_add_block, Hv|].
  intros x b' Hin. destruct (vo_held _ Hv x b' Hin) as [Hn Ha]. split; [done|]. intros Hb'.
  change (v_disk _) with (mark sb (v_disk v) b).
  rewrite (allocated_mark sb N start size Hg) by (done || apply Hv). rewrite Ha by done. apply orb_true_r.
Qed.
(** A write outside the bitmap. *)
Lemma set_disk_ok v b d :
  view_ok v → 0 ≤ b < Z.of_nat N → ~ bitmap_block sb b → block_ok d → view_ok (set_disk v b d).
Proof.
  intros Hv Hb Hn Hd. split; [apply Hv|by apply (disk_ok_set sb N start size Hg); [apply Hv|..]|apply NoDup_add_block, Hv|].
  intros x b' Hin. destruct (vo_held _ Hv x b' Hin) as [Hn' Ha]. split; [done|]. intros Hb'.
  change (v_disk _) with (set_blk (v_disk v) b d). rewrite (allocated_set sb N start size Hg) by (done || apply Hv). auto.
Qed.
Lemma v_alloc_ok v b :
  view_ok v → 0 ≤ b < sb_size sb → allocated sb (v_disk v) b = false →
  view_ok (v_alloc v b) ∧ v_disk (v_alloc v b) = alloc_disk sb (v_disk v) b ∧ (load (v_alloc v b) ≤ load v + 2)%nat.
Proof.
  intros Hv Hb Hf. destruct (free_is_data sb N start size Hg _ _ (vo_disk _ Hv) Hb Hf) as [Hdat Hnb].
  pose proof (size_pos sb N start size Hg). split_and!; [|done|].
  - apply set_disk_ok; [by apply v_mark_ok|lia|done|apply block_ok_zero].
  - unfold v_alloc, v_mark. etrans; [apply load_set_disk|]. etrans; [apply le_n_S, load_set_disk|]. lia.
Qed.

(** A clear bit below the size of the file system. *)
Lemma free_bit_Some D m bi :
  0 ≤ m → free_bit (blk_at D (BBLOCK (BPB * m) sb)) (BPB * m) (sb_size sb) = Some bi →
  let b := BPB * m + bi in
  0 ≤ b < sb_size sb ∧ BBLOCK b sb = BBLOCK (BPB * m) sb ∧ b mod BPB = bi ∧ allocated sb D b = false.
Proof.
  intros Hm Hf b. unfold free_bit in Hf. destruct (find_first _ _) as [n|] eqn:E; simplify_eq/=.
  apply find_first_Some in E as (x & Hx & Hbit & _). apply lookup_seq in Hx as [-> Hn]. simpl in Hbit.
  unfold BPB in *. assert (b / 4096 = m ∧ b mod 4096 = Z.of_nat n) as [Ed Em].
  { unfold b. rewrite (Z.mul_comm 4096 m). split.
    - rewrite Z.div_add_l by lia. rewrite Z.div_small by lia. lia.
    - rewrite Z.add_comm, Z_mod_plus_full. apply Z.mod_small. lia. }
  assert (BBLOCK b sb = BBLOCK (4096 * m) sb) as EB.
  { unfold BBLOCK, BPB. rewrite Ed. rewrite (Z.mul_comm 4096 m), Z.div_mul by lia. done. }
  split_and!; [lia|lia|done|done|]. unfold allocated, BPB. rewrite EB, Em. by apply negb_true_iff.
Qed.
Lemma free_bit_None D m b :
  0 ≤ m → free_bit (blk_at D (BBLOCK (BPB * m) sb)) (BPB * m) (sb_size sb) = None →
  BPB * m ≤ b < BPB * m + BPB → b < sb_size sb → allocated sb D b = true.
Proof.
  unfold free_bit. intros Hm Hf Hb Hs. destruct (find_first _ _) as [n|] eqn:E; [done|].
  rewrite find_first_None in E. unfold BPB in *.
  assert (b / 4096 = m) as Ed by (symmetry; apply (Z.div_unique _ _ _ (b - 4096 * m)); lia).
  assert (b mod 4096 = b - 4096 * m) as Em by (symmetry; apply (Z.mod_unique _ _ m); lia).
  specialize (E (Z.to_nat (b - 4096 * m))). rewrite Z2Nat.id in E by lia.
  unfold allocated, BBLOCK, BPB. rewrite Ed, Em. unfold BBLOCK, BPB in E. rewrite (Z.mul_comm 4096 m), Z.div_mul in E by lia.
  apply negb_false_iff. rewrite (Z.mul_comm m 4096) in E. apply E. apply elem_of_seq. lia.
Qed.

Lemma run_balloc_loop fuel : ∀ m v (Q : Z → view → Prop),
  view_ok v → (load v + 2 ≤ cap)%nat → 1 ≤ o → 0 ≤ m → sb_size sb - BPB * m < BPB * Z.of_nat fuel →
  (∃ b, BPB * m ≤ b < sb_size sb ∧ allocated sb (v_disk v) b = false) →
  (∀ b, 0 ≤ b < sb_size sb → allocated sb (v_disk v) b = false → Q b (v_alloc v b)) →
  run v (balloc_loop fuel 1 (BPB * m)) Q.
Proof.
  induction fuel as [|fuel IH]; intros m v Q Hv Hl Ho Hm Hf (b & Hb & Hbf) HQ; [lia|].
  pose proof (size_pos sb N start size Hg). simpl. apply run_sb. rewrite (vo_sb _ Hv).
  destruct (Z.ltb_spec (BPB * m) (sb_size sb)); [|lia].
  assert (0 ≤ BPB * m < sb_size sb) as Hr by (unfold BPB in *; lia).
  destruct (BBLOCK_eq sb N start size Hg _ Hr) as [_ Hbm]. pose proof (bitmap_range sb N start size Hg _ Hbm) as [HbN _].
  apply run_bread; [by apply bitmap_home|by apply bitmap_not_held|lia|]. intros x.
  pose proof (disk_lookup sb N (v_disk v) (BBLOCK (BPB * m) sb) (vo_disk _ Hv) HbN) as HD.
  eapply run_get_data; [left|exact HD|].
  destruct (free_bit _ _ _) as [bi|] eqn:E.
  - apply free_bit_Some in E as (Hb1 & EB & Em & Ha); [|done].
    destruct (free_is_data sb N start size Hg _ _ (vo_disk _ Hv) Hb1 Ha) as [Hdat Hnb].
    set (b1 := BPB * m + bi) in *.
    eapply run_write; [left|exact HD|unfold load in *; simpl; lia|done|].
    apply run_bind. eapply run_brelse; [done|]. apply run_bind.
    match goal with |- FsLogic.run _ _ _ _ _ _ _ _ ?w _ _ => assert (w = v_mark v b1) as -> end.
    { unfold v_mark. rewrite EB, Em. by destruct v. }
    apply run_bzero; [by apply v_mark_ok| | | |done|by apply run_ret, HQ].
    + destruct Hg. unfold data_start in *. lia.
    + apply not_held. intros y Hin. apply (vo_held _ Hv) in Hin as [_ Hal]. rewrite Hal in Ha; done.
    + pose proof (load_set_disk v (BBLOCK b1 sb) (set_bit (blk_at (v_disk v) (BBLOCK b1 sb)) (b1 mod BPB))).
      unfold v_mark. lia.
  - apply run_bind. eapply run_brelse; [done|].
    match goal with |- FsLogic.run _ _ _ _ _ _ _ _ ?w _ _ => assert (w = v) as -> by by destruct v end.
    replace (BPB * m + BPB) with (BPB * (m + 1)) by lia. apply IH; try done; [lia|unfold BPB in *; lia|].
    exists b. split; [|done]. destruct (Z.le_gt_cases (BPB * (m + 1)) b); [lia|].
    rewrite (free_bit_None _ m b) in Hbf; [done|done|done|lia|lia].
Qed.

Lemma run_balloc v (Q : Z → view → Prop) :
  view_ok v → (load v + 2 ≤ cap)%nat → 1 ≤ o → (0 < nfree sb (v_disk v))%nat →
  (∀ b, 0 ≤ b < sb_size sb → allocated sb (v_disk v) b = false → Q b (v_alloc v b)) →
  run v (balloc 1) Q.
Proof.
  intros Hv Hl Ho Hf HQ. pose proof (size_pos sb N start size Hg). unfold balloc. apply run_sb. rewrite (vo_sb _ Hv).
  apply (run_balloc_loop _ 0); [done|done|done|done| | |done].
  - pose proof (Z.div_mod (sb_size sb) BPB ltac:(done)). pose proof (mod_BPB (sb_size sb)). unfold BPB in *. lia.
  - assert (free_blocks sb (v_disk v) ≠ ∅) as [b Hb]%set_choose_L.
    { intros E. unfold nfree in Hf. rewrite E, size_empty in Hf. lia. }
    apply elem_of_free_blocks in Hb as [? ?]. exists b. split; [lia|done].
Qed.

(** ** [bfree] *)

Definition v_free v (b : Z) : view :=
  set_disk v (BBLOCK b sb) (clear_bit (blk_at (v_disk v) (BBLOCK b sb)) (b mod BPB)).

Lemma run_bfree v b (Q : unit → view → Prop) :
  view_ok v → (load v < cap)%nat → 1 ≤ o → 0 ≤ b < sb_size sb → allocated sb (v_disk v) b = true →
  Q tt (v_free v b) → run v (bfree 1 b) Q.
Proof.
  intros Hv Hl Ho Hb Ha HQ. unfold bfree. apply run_sb. rewrite (vo_sb _ Hv).
  destruct (BBLOCK_eq sb N start size Hg _ Hb) as [_ Hbm]. pose proof (bitmap_range sb N start size Hg _ Hbm) as [HbN _].
  apply run_bread; [by apply bitmap_home|by apply bitmap_not_held|done|]. intros x.
  pose proof (disk_lookup sb N (v_disk v) (BBLOCK b sb) (vo_disk _ Hv) HbN) as HD.
  eapply run_get_data; [left|exact HD|]. unfold allocated in Ha. rewrite Ha. cbn [negb].
  eapply run_write; [left|exact HD|unfold load in *; simpl; lia|done|].
  eapply run_brelse; [done|]. by destruct v.
Qed.

(** ** [bmap] *)

(** The free blocks, an indirect block that is there counted as one. *)
Definition credit D a : nat := nfree sb D + (if decide (slot D a IND = 0) then 0 else 1).

Definition set_map v (ip : nat) (ino : inode) D bs a : view :=
  v <| v_disk := D |> <| v_bs := bs |> <| v_ic := <[ip := ino <| i_addrs := a |>]> (v_ic v) |>.

(** [bmap] left slot [s] of inode [ip] with the block [b]. *)
Record mapped v (ip : nat) (ino : inode) (s : nat) (b : Z) v' a' : Prop := {
  mp_view : v' = set_map v ip ino (v_disk v') (v_bs v') a';
  mp_ok : view_ok v';
  mp_grow : grow sb N (v_disk v) (i_addrs ino) (v_disk v') a';
  mp_slot : slot (v_disk v') a' s = b;
  mp_ne : b ≠ 0;
  mp_bs x : x ∈ v_bs v' → x ∈ v_bs v ∨ bitmap_block sb x ∨ (x = slot (v_disk v') a' IND ∧ x ≠ 0) ∨ x = b;
  mp_load : (load v' ≤ load v + 5)%nat;
  mp_credit : (credit (v_disk v) (i_addrs ino) ≤ credit (v_disk v') a' + 1)%nat;
  mp_hit : slot (v_disk v) (i_addrs ino) s ≠ 0 → v' = v ∧ a' = i_addrs ino
}.

Lemma set_map_id v ip ino : v_ic v !! ip = Some ino → v = set_map v ip ino (v_disk v) (v_bs v) (i_addrs ino).
Proof.
  intros Hi. unfold set_map. replace (ino <| i_addrs := i_addrs ino |>) with ino by by destruct ino.
  destruct v. simpl in *. by rewrite list_insert_id.
Qed.

Lemma mapped_hit v ip ino s :
  view_ok v → v_ic v !! ip = Some ino → file_ok sb (v_disk v) (i_addrs ino) → slot (v_disk v) (i_addrs ino) s ≠ 0 →
  mapped v ip ino s (slot (v_disk v) (i_addrs ino) s) v (i_addrs ino).
Proof.
  intros Hv Hi Hf Hne. split; try done.
  - by apply set_map_id.
  - apply (grow_refl sb N start size Hg); [apply Hv|done].
  - by left.
  - lia.
  - lia.
Qed.

(** An allocation for one of the addresses of the inode. *)
Lemma mapped_addr v ip ino s b :
  view_ok v → v_ic v !! ip = Some ino → file_ok sb (v_disk v) (i_addrs ino) → (s ≤ IND)%nat →
  slot (v_disk v) (i_addrs ino) s = 0 → 0 ≤ b < sb_size sb → allocated sb (v_disk v) b = false →
  let v' := set_inode (v_alloc v b) ip (ino <| i_addrs := <[s := b]> (i_addrs ino) |>) in
  mapped v ip ino s b v' (<[s := b]> (i_addrs ino)) ∧ (load v' ≤ load v + 2)%nat.
Proof.
  intros Hv Hi Hf Hs Hs0 Hb Hfr v'. destruct (v_alloc_ok v b Hv Hb Hfr) as (Hok & HD & Hl).
  destruct (grow_addr sb N start size Hg (v_disk v) (i_addrs ino) s b (vo_disk _ Hv) Hf Hs Hs0 Hb Hfr) as [Hgr Hsl].
  destruct (free_is_data sb N start size Hg _ _ (vo_disk _ Hv) Hb Hfr) as [Hdat Hnb].
  pose proof (size_pos sb N start size Hg). assert (b ≠ 0) as Hb0 by (unfold data_start in *; lia).
  assert (v_disk v' = alloc_disk sb (v_disk v) b) as HDv by done.
  split; [|exact Hl]. split; rewrite ?HDv; try done.
  - destruct Hok. by split.
  - intros x. simpl. rewrite !elem_of_add_block. intros [->|[->|?]]; [by right; right; right| |by left].
    right. left. by apply (BBLOCK_eq sb N start size Hg).
  - unfold load in *. simpl in *. lia.
  - unfold credit. rewrite (nfree_alloc sb N start size Hg _ b) by (done || apply Hv).
    destruct (decide (slot (v_disk v) (i_addrs ino) IND = 0)); [lia|].
    rewrite (gr_mono _ _ _ _ _ _ _ Hgr) by (done || unfold IND, NSLOT; lia). rewrite decide_False by done. lia.
Qed.

(** An allocation for an entry of the indirect block [r]. *)
Lemma mapped_entry v ip ino s b :
  view_ok v → v_ic v !! ip = Some ino → file_ok sb (v_disk v) (i_addrs ino) → (IND < s < NSLOT)%nat →
  slot (v_disk v) (i_addrs ino) IND ≠ 0 → slot (v_disk v) (i_addrs ino) s = 0 →
  0 ≤ b < sb_size sb → allocated sb (v_disk v) b = false →
  let r := slot (v_disk v) (i_addrs ino) IND in
  let v' := set_disk (v_alloc v b) r (put32 (blk_at (v_disk (v_alloc v b)) r) (4 * (s - 13)) b) in
  mapped v ip ino s b v' (i_addrs ino) ∧ (load v' ≤ load v + 3)%nat.
Proof.
  intros Hv Hi Hf Hs Hr Hs0 Hb Hfr r v'. destruct (v_alloc_ok v b Hv Hb Hfr) as (Hok & HD & Hl).
  destruct (grow_entry sb N start size Hg (v_disk v) (i_addrs ino) s b (vo_disk _ Hv) Hf Hs Hr Hs0 Hb Hfr) as [Hgr Hsl].
  destruct (free_is_data sb N start size Hg _ _ (vo_disk _ Hv) Hb Hfr) as [Hdat Hnb].
  pose proof (owns_used sb N start size Hg _ _ _ Hf (owns_IND _ _ Hr)) as (Hrd & Ha & HrN & Hnbm). fold r in Hrd, Ha, HrN, Hnbm.
  pose proof (size_pos sb N start size Hg). assert (b ≠ 0) as Hb0 by (unfold data_start in *; lia).
  assert (load v' ≤ load v + 3)%nat as Hl'.
  { unfold v'. etrans; [apply load_set_disk|]. lia. }
  split; [|exact Hl']. split; try done.
  - unfold v' at 1. rewrite (set_map_id v ip ino Hi) at 1. done.
  - apply set_disk_ok; [done|done|done|]. apply block_ok_put32. apply (data_block_ok sb N start size Hg); [apply Hok|done].
  - intros x. simpl. rewrite !elem_of_add_block. intros [->|[->|[->|?]]]; [|by right; right; right| |by left].
    + right. right. left. split; [|done]. symmetry. apply slot_IND.
    + right. left. by apply (BBLOCK_eq sb N start size Hg).
  - lia.
  - unfold credit. rewrite (nfree_alloc sb N start size Hg _ b) by (done || apply Hv).
    rewrite (slot_IND (v_disk v) (v_disk v')), !decide_False by done.
    assert (nfree sb (v_disk v') = nfree sb (alloc_disk sb (v_disk v) b)) as ->; [|lia].
    apply nfree_ext. intros x Hx. apply (allocated_set sb N start size Hg); [apply Hok|done..].
Qed.

(** First the indirect block, then the entry. *)
Lemma mapped_both v ip ino s r v1 a1 b v' a' :
  mapped v ip ino IND r v1 a1 → (load v1 ≤ load v + 2)%nat → slot (v_disk v) (i_addrs ino) IND = 0 →
  nfree sb (v_disk v) = S (nfree sb (v_disk v1)) → slot (v_disk v) (i_addrs ino) s = 0 →
  mapped v1 ip (ino <| i_addrs := a1 |>) s b v' a' → (load v' ≤ load v1 + 3)%nat → mapped v ip ino s b v' a'.
Proof.
  intros H1 Hl1 Hi0 Hn1 Hs0 H2 Hl2. destruct H1 as [V1 O1 G1 S1 N1 B1 L1 C1 _], H2 as [V2 O2 G2 S2 N2 B2 L2 C2 _].
  split; try done.
  - rewrite V2, V1 at 1. unfold set_map. simpl. by rewrite list_insert_insert_eq.
  - by eapply (edit_trans sb N start size Hg (λ _ x, x) (λ _ x, x)).
  - assert (slot (v_disk v') a' IND = r) as Er.
    { rewrite <-S1. apply G2; [unfold IND, NSLOT; lia|]. simpl. by rewrite S1. }
    intros x Hx. apply B2 in Hx as [Hx|[?|[[? ?]|?]]]; [|by right; left|by right; right; left|by right; right; right].
    apply B1 in Hx as [?|[?|[[? ?]| ->]]]; [by left|by right; left|right; right; left; split; [congruence|done]..].
  - lia.
  - unfold credit in *. simpl in *. rewrite (decide_True (P := slot (v_disk v) _ IND = 0)) by done.
    rewrite S1 in C2. rewrite (decide_False (P := r = 0)) in C2 by done. lia.
Qed.

(** [bmap] for a block whose address is in the inode. *)
Lemma run_bmap_direct v ip ino bn (Q : Z → view → Prop) :
  view_ok v → v_ic v !! ip = Some ino → i_dev ino = 1 → file_ok sb (v_disk v) (i_addrs ino) →
  0 ≤ bn < NDIRECT → (load v + 2 ≤ cap)%nat →
  (slot (v_disk v) (i_addrs ino) (Z.to_nat bn) = 0 → (0 < nfree sb (v_disk v))%nat ∧ 1 ≤ o) →
  (∀ b v' a', mapped v ip ino (Z.to_nat bn) b v' a' → Q b v') → run v (bmap ip bn) Q.
Proof.
  intros Hv Hi Hdev Hf Hbn Hl Hfree HQ. unfold bmap. eapply run_get_inode; [done|].
  destruct (Z.ltb_spec bn NDIRECT); [|lia]. unfold NDIRECT in *.
  assert (Z.to_nat bn ≤ IND)%nat as Hs by (unfold IND; lia).
  pose proof (slot_direct (v_disk v) (i_addrs ino) _ Hs) as Hsl.
  destruct (lookup_lt_is_Some_2 (i_addrs ino) (Z.to_nat bn)) as [x Hx].
  { rewrite (fo_len _ _ _ Hf). unfold IND in *. lia. }
  rewrite Hx in Hsl. simpl in Hsl. apply run_bind.
  eapply run_get_or; [rewrite <-(Z2Nat.id bn) by lia; rewrite aget_nat; exact Hx|].
  destruct (Z.eqb_spec x 0) as [->|Hne].
  - rewrite Hdev. apply run_bind. destruct (Hfree Hsl) as [Hnf Ho]. apply run_balloc; [done..|]. intros b Hb Ha.
    apply run_bind. eapply run_upd_inode; [done|]. apply run_ret. eapply HQ. by apply mapped_addr.
  - apply run_ret. eapply HQ. rewrite <-Hsl. apply mapped_hit; try done. by rewrite Hsl.
Qed.

(** The part of [bmap] that reads the entry of the indirect block. *)
Definition bmap_entry (dev addr bn : Z) : K Z :=
  bp ← bread dev addr;
  d ← get_data bp;
  let addr := get32 d (Z.to_nat (4 * bn)) in
  if addr =? 0 then
    addr ← balloc dev;
    upd_data bp (λ d, put32 d (Z.to_nat (4 * bn)) addr) ;;
    log_write bp ;;
    brelse bp ;;
    ret addr
  else brelse bp ;; ret addr.

Lemma run_bmap_entry v ip ino bn (Q : Z → view → Prop) :
  view_ok v → v_ic v !! ip = Some ino → file_ok sb (v_disk v) (i_addrs ino) →
  0 ≤ bn < NINDIRECT → (load v + 3 ≤ cap)%nat →
  let r := slot (v_disk v) (i_addrs ino) IND in
  let s := Z.to_nat (bn + 13) in
  r ≠ 0 → r ∉ (v_held v).*2 → (slot (v_disk v) (i_addrs ino) s = 0 → (0 < nfree sb (v_disk v))%nat ∧ 1 ≤ o) →
  (∀ b v' a', mapped v ip ino s b v' a' → (load v' ≤ load v + 3)%nat → Q b v') → run v (bmap_entry 1 r bn) Q.
Proof.
  intros Hv Hi Hf Hbn Hl r s Hr Hnh Hfree HQ. unfold NINDIRECT in *.
  pose proof (size_pos sb N start size Hg).
  pose proof (owns_used sb N start size Hg _ _ _ Hf (owns_IND _ _ Hr)) as (Hrd & Ha & HrN & Hnbm). fold r in Hrd, Ha, HrN, Hnbm.
  assert (IND < s < NSLOT)%nat as Hs by (unfold IND, NSLOT, s; lia).
  assert (slot (v_disk v) (i_addrs ino) s = get32 (blk_at (v_disk v) r) (4 * (s - 13))) as Hsl.
  { rewrite slot_indirect by lia. by rewrite decide_False. }
  assert (Z.to_nat (4 * bn) = 4 * (s - 13))%nat as Eo by (unfold s; lia).
  unfold bmap_entry. apply run_bread; [apply home_of; destruct Hg; unfold data_start in *; lia|done|lia|]. intros x.
  set (v1 := v <| v_held := _ |>).
  assert (view_ok v1) as Hv1.
  { split; [apply Hv|apply Hv|apply Hv|]. intros y b [[= -> ->]|Hin]%elem_of_cons; [done|by apply (vo_held _ Hv) in Hin]. }
  eapply run_get_data; [left|apply (disk_lookup sb N); [apply Hv1|done]|]. cbn zeta.
  change (v_disk v1) with (v_disk v). rewrite Eo, <-Hsl. destruct (Z.eqb_spec (slot (v_disk v) (i_addrs ino) s) 0) as [E0|Hne].
  - apply run_bind. destruct (Hfree E0) as [Hnf Ho]. apply run_balloc; [done|unfold load in *; simpl; lia|done|done|]. intros b Hb Hba.
    destruct (v_alloc_ok v1 b Hv1 Hb Hba) as (Hok & HD & _).
    eapply run_write; [left|apply (disk_lookup sb N); [apply Hok|done]| |done|].
    { simpl. pose proof (length_add_block b (add_block (BBLOCK b sb) (v_bs v))).
      pose proof (length_add_block (BBLOCK b sb) (v_bs v)). unfold load in *. lia. }
    apply run_bind. eapply run_brelse; [done|]. apply run_ret.
    destruct (mapped_entry v ip ino s b) as [Hm Hlm]; try done.
    match goal with |- Q _ ?w => enough (w = set_disk (v_alloc v b) r (put32 (blk_at (v_disk (v_alloc v b)) r) (4 * (s - 13)) b)) as -> end.
    + by eapply HQ.
    + by destruct v.
  - apply run_bind. eapply run_brelse; [done|]. apply run_ret.
    replace (v1 <| v_held := v_held v |>) with v by by destruct v.
    eapply HQ; [by apply mapped_hit|lia].
Qed.

Lemma run_bmap v ip ino bn (Q : Z → view → Prop) :
  view_ok v → v_ic v !! ip = Some ino → i_dev ino = 1 → file_ok sb (v_disk v) (i_addrs ino) →
  0 ≤ bn < MAXFILE → (load v + 5 ≤ cap)%nat →
  (slot (v_disk v) (i_addrs ino) IND ≠ 0 → slot (v_disk v) (i_addrs ino) IND ∉ (v_held v).*2) →
  (slot (v_disk v) (i_addrs ino) (bn_slot (Z.to_nat bn)) = 0 → (2 ≤ credit (v_disk v) (i_addrs ino))%nat ∧ 1 ≤ o) →
  (∀ b v' a', mapped v ip ino (bn_slot (Z.to_nat bn)) b v' a' → Q b v') → run v (bmap ip bn) Q.
Proof.
  intros Hv Hi Hdev Hf Hbn Hl Hnh Hcr HQ. unfold MAXFILE, NDIRECT, NINDIRECT, bn_slot in *. unfold credit in Hcr.
  destruct (decide (Z.to_nat bn < 12)%nat) as [Hd|Hd].
  { eapply run_bmap_direct; try done; [unfold NDIRECT; lia|lia|]. intros E. destruct (Hcr E) as [Hc Ho]. split; [case_decide; lia|done]. }
  unfold bmap. eapply run_get_inode; [done|]. unfold NDIRECT, NINDIRECT.
  destruct (Z.ltb_spec bn 12); [lia|]. destruct (Z.ltb_spec (bn - 12) 128); [|lia].
  assert (S (Z.to_nat bn) = Z.to_nat (bn - 12 + 13)) as Es by lia. rewrite Es in *.
  pose proof (slot_direct (v_disk v) (i_addrs ino) IND ltac:(done)) as Hsl.
  destruct (lookup_lt_is_Some_2 (i_addrs ino) IND) as [r Hr]; [rewrite (fo_len _ _ _ Hf); unfold IND; lia|].
  rewrite Hr in Hsl. simpl in Hsl. apply run_bind. eapply run_get_or; [by change 12 with (Z.of_nat 12); rewrite aget_nat|].
  apply run_bind. destruct (Z.eqb_spec r 0) as [->|Hne].
  - assert (slot (v_disk v) (i_addrs ino) (Z.to_nat (bn - 12 + 13)) = 0) as Hs0.
    { rewrite slot_indirect by (unfold IND; lia). by rewrite decide_True. }
    rewrite decide_True in Hcr by done. destruct (Hcr Hs0) as [Hc Ho].
    rewrite Hdev. apply run_bind. apply run_balloc; [done|lia|done|lia|]. intros b Hb Ha.
    destruct (mapped_addr v ip ino IND b Hv Hi Hf (le_n _) Hsl Hb Ha) as [Hm Hlm].
    apply run_bind. eapply run_upd_inode; [done|]. apply run_ret.
    set (v1 := set_inode _ _ _) in *. change (Z.to_nat 12) with IND in v1. pose proof (mp_slot _ _ _ _ _ _ _ Hm) as Es1.
    pose proof (mp_ne _ _ _ _ _ _ _ Hm) as Hbne.
    assert (nfree sb (v_disk v) = S (nfree sb (v_disk v1))) as Hn1 by (apply (nfree_alloc sb N start size Hg); [apply Hv|done..]).
    change (FsLogic.run i c me pid k0 start size o v1 (bmap_entry 1 b (bn - 12)) Q).
    rewrite <-Es1. change (<[IND := b]> (i_addrs ino)) with (i_addrs (ino <| i_addrs := <[IND := b]> (i_addrs ino) |>)).
    eapply (run_bmap_entry v1 ip (ino <| i_addrs := <[IND := b]> (i_addrs ino) |>)).
    + apply Hm.
    + simpl. apply list_lookup_insert_eq. by eapply lookup_lt_Some.
    + apply (mp_grow _ _ _ _ _ _ _ Hm).
    + unfold NINDIRECT. lia.
    + lia.
    + simpl in *. by rewrite Es1.
    + simpl in *. rewrite Es1. apply not_held. intros y Hin. apply (vo_held _ Hv) in Hin as [_ Hal]. rewrite Hal in Ha; done.
    + intros _. simpl in *. split; [lia|done].
    + intros b2 v2 a2 Hm2 Hl2. eapply HQ. by eapply mapped_both.
  - apply run_ret. rewrite Hdev. change (FsLogic.run i c me pid k0 start size o v (bmap_entry 1 r (bn - 12)) Q).
    rewrite <-Hsl. eapply (run_bmap_entry v ip ino); try done; [unfold NINDIRECT; lia|lia|congruence|apply Hnh; congruence| |].
    + intros E. destruct (Hcr E) as [Hc Ho]. rewrite decide_False in Hc by congruence. split; [lia|done].
    + intros b v' a' Hm _. by eapply HQ.
Qed.
End alloc.
