(* ===== verification/FsInode.v ===== *)
(** * FsInode: inodes on the disk

    [struct dinode] is 64 bytes of a block; what [iupdate] stores is what [ilock]
    loads, and the other inodes of the block are not touched. *)
From S2P Require Import Prelude.
From S2P Require Import Mem.
From S2P Require Import State.
From S2P Require Import Spin.
From S2P Require Import Cons.
From S2P Require Import Kalloc.
From S2P Require Import Vm.
From S2P Require Import Mlq.
From S2P Require Import Proc.
From S2P Require Import Blk.
From S2P Require Import Bio.
From S2P Require Import Log.
From S2P Require Import Txn.
From S2P Require Import Fs.
From S2P Require Import FsLogic.
From S2P Require Import FsDisk.
From S2P Require Import FsMap.
From S2P Require Import FsAlloc.

(** ** Half words *)

Lemma byte_at_put16 l o v j :
  (o + 2 ≤ length l)%nat →
  byte_at (put16 l o v) j = if decide (o ≤ j < o + 2)%nat then u8 (v / 256 ^ Z.of_nat (j - o)) else byte_at l j.
Proof.
  intros H. unfold put16. rewrite !byte_at_insert by (rewrite ?length_insert; lia).
  destruct (decide (o ≤ j < o + 2)%nat) as [Hr|Hr]; [|repeat case_decide; lia || done].
  assert (j = o ∨ j = o + 1)%nat as [-> | ->] by lia.
  - rewrite decide_True by done. rewrite Nat.sub_diag. by rewrite Z.div_1_r.
  - rewrite decide_False, decide_True by lia. by replace (o + 1 - o)%nat with 1%nat by lia.
Qed.
Lemma get16_ext l1 l2 o : (∀ j, (o ≤ j < o + 2)%nat → byte_at l1 j = byte_at l2 j) → get16 l1 o = get16 l2 o.
Proof. intros H. unfold get16. by rewrite !H by lia. Qed.
Lemma get16_put16_eq l o v : (o + 2 ≤ length l)%nat → get16 (put16 l o v) o = u16 v.
Proof.
  intros H. unfold get16. rewrite !byte_at_put16 by done. rewrite !decide_True by lia.
  rewrite Nat.sub_diag. replace (o + 1 - o)%nat with 1%nat by lia.
  change (256 ^ Z.of_nat 0) with 1. change (256 ^ Z.of_nat 1) with 256. unfold u8, u16. Z.div_mod_to_equations. lia.
Qed.
Lemma byte_at_put_words ws : ∀ l o j,
  (o + 4 * length ws ≤ length l)%nat → (j < o ∨ o + 4 * length ws ≤ j)%nat → byte_at (put_words l o ws) j = byte_at l j.
Proof.
  induction ws as [|w ws IH]; intros l o j Hl Hj; [done|]. cbn [length put_words] in *.
  rewrite IH by (rewrite ?length_put32; lia). rewrite byte_at_put32 by lia. by rewrite decide_False by lia.
Qed.
Lemma get_put_words l o ws :
  (o + 4 * length ws ≤ length l)%nat → get_words (put_words l o ws) o (length ws) = u32 <$> ws.
Proof.
  intros Hl. apply list_eq. intros n. unfold get_words. rewrite !list_lookup_fmap.
  destruct (ws !! n) as [w|] eqn:E.
  - rewrite lookup_seq_lt by by eapply lookup_lt_Some. simpl. f_equal.
    replace (n + (n + (n + (n + 0))))%nat with (4 * n)%nat by lia. by apply get32_put_words.
  - apply lookup_ge_None in E. by rewrite lookup_seq_ge.
Qed.

Lemma s16_u16 z : -32768 ≤ z < 32768 → s16 (u16 z) = z.
Proof. intros H. unfold s16, u16. Z.div_mod_to_equations. lia. Qed.

(** ** The inode's fields within their C types *)

Definition is_short (z : Z) : Prop := -32768 ≤ z < 32768.
Definition is_uint (z : Z) : Prop := 0 ≤ z < 4294967296.
Record inode_typed (x : inode) : Prop := {
  it_type : is_short (i_type x);
  it_major : is_short (i_major x);
  it_minor : is_short (i_minor x);
  it_nlink : is_short (i_nlink x);
  it_size : is_uint (i_size x);
  it_len : length (i_addrs x) = 13%nat;
  it_addrs : Forall is_uint (i_addrs x)
}.

Lemma is_short_s16 z : is_short (s16 z).
Proof. unfold is_short, s16. pose proof (Z.mod_pos_bound (z + 32768) 65536). lia. Qed.

(** Whatever a block holds, the inode read from it is well typed. *)
Lemma decode_typed d x : block_ok d → inode_typed (decode_dinode d x).
Proof.
  intros Hd. split; simpl; try apply is_short_s16.
  - by apply get32_range.
  - done.
  - apply Forall_fmap, Forall_forall. intros n _. simpl. by apply get32_range.
Qed.

Lemma dinode_off_bound inum : (dinode_off inum + 64 ≤ 512)%nat.
Proof.
  unfold dinode_off, DINODE_SIZE, IPB. pose proof (Z.mod_pos_bound inum 8 ltac:(lia)). lia.
Qed.

Lemma length_encode x d : length (encode_dinode x d) = length d.
Proof. unfold encode_dinode. by rewrite length_put_words, length_put32, !length_put16. Qed.
Lemma block_ok_encode x d : block_ok d → block_ok (encode_dinode x d).
Proof.
  intros [Hl Hf]. split; [by rewrite length_encode|].
  unfold encode_dinode. by apply Forall_byte_put_words, Forall_byte_put32, Forall_byte_put16, Forall_byte_put16, Forall_byte_put16, Forall_byte_put16.
Qed.

(** Reads through the stores of [encode_dinode]. *)
Ltac skip_stores :=
  repeat first
    [ rewrite byte_at_put_words by (rewrite ?length_put32, ?length_put16; lia)
    | rewrite byte_at_put32 by (rewrite ?length_put16; lia); rewrite decide_False by lia
    | rewrite byte_at_put16 by (rewrite ?length_put16; lia); rewrite decide_False by lia ].

Lemma encode_outside x d j :
  length d = 512%nat → length (i_addrs x) = 13%nat →
  (j < dinode_off (i_inum x) ∨ dinode_off (i_inum x) + 64 ≤ j)%nat → byte_at (encode_dinode x d) j = byte_at d j.
Proof.
  intros Hd Hl Hj. pose proof (dinode_off_bound (i_inum x)). unfold encode_dinode. by skip_stores.
Qed.

(** [ilock] after [iupdate]. *)
Lemma decode_encode x d :
  block_ok d → inode_typed x → decode_dinode (encode_dinode x d) x = x.
Proof.
  intros [Hd _] [H1 H2 H3 H4 H5 Hl H6]. change (Z.to_nat BSIZE) with 512%nat in Hd.
  pose proof (dinode_off_bound (i_inum x)) as Ho. unfold decode_dinode, encode_dinode.
  set (o := dinode_off (i_inum x)) in *.
  set (d1 := put16 d o (i_type x)). set (d2 := put16 d1 (o + 2) (i_major x)).
  set (d3 := put16 d2 (o + 4) (i_minor x)). set (d4 := put16 d3 (o + 6) (i_nlink x)).
  set (d5 := put32 d4 (o + 8) (i_size x)). set (d6 := put_words d5 (o + 12) (i_addrs x)).
  assert (length d1 = 512 ∧ length d2 = 512 ∧ length d3 = 512 ∧ length d4 = 512 ∧ length d5 = 512)%nat
    as (E1 & E2 & E3 & E4 & E5) by (unfold d5, d4, d3, d2, d1; by rewrite length_put32, !length_put16).
  assert (get16 d6 o = u16 (i_type x)) as ->.
  { rewrite (get16_ext _ d1); [by apply get16_put16_eq; lia|]. intros j Hj. unfold d6, d5, d4, d3, d2. by skip_stores. }
  assert (get16 d6 (o + 2) = u16 (i_major x)) as ->.
  { rewrite (get16_ext _ d2); [by apply get16_put16_eq; lia|]. intros j Hj. unfold d6, d5, d4, d3. by skip_stores. }
  assert (get16 d6 (o + 4) = u16 (i_minor x)) as ->.
  { rewrite (get16_ext _ d3); [by apply get16_put16_eq; lia|]. intros j Hj. unfold d6, d5, d4. by skip_stores. }
  assert (get16 d6 (o + 6) = u16 (i_nlink x)) as ->.
  { rewrite (get16_ext _ d4); [by apply get16_put16_eq; lia|]. intros j Hj. unfold d6, d5. by skip_stores. }
  assert (get32 d6 (o + 8) = u32 (i_size x)) as ->.
  { rewrite (get32_ext _ d5); [by apply get32_put32_eq; lia|]. intros j Hj. unfold d6. by skip_stores. }
  assert (get_words d6 (o + 12) (length (i_addrs x)) = u32 <$> i_addrs x) as Hw by (apply get_put_words; lia).
  rewrite Hl in Hw. rewrite Hw.
  rewrite !s16_u16, u32_small by done.
  assert (u32 <$> i_addrs x = i_addrs x) as ->; [|by destruct x].
  apply list_eq. intros n. rewrite list_lookup_fmap. destruct (i_addrs x !! n) as [w|] eqn:E; [|done]. simpl. f_equal.
  apply u32_small. rewrite Forall_lookup in H6. by apply (H6 n).
Qed.

Lemma decode_ext d d' x :
  (∀ j, (dinode_off (i_inum x) ≤ j < dinode_off (i_inum x) + 64)%nat → byte_at d' j = byte_at d j) →
  decode_dinode d' x = decode_dinode d x.
Proof.
  intros H. unfold decode_dinode. rewrite !(get16_ext d' d) by (intros; apply H; lia).
  rewrite (get32_ext d' d) by (intros; apply H; lia).
  assert (get_words d' (dinode_off (i_inum x) + 12) 13 = get_words d (dinode_off (i_inum x) + 12) 13) as ->; [|done].
  unfold get_words. apply list_fmap_ext. intros n m Hm. apply lookup_seq in Hm as [-> Hn]. apply get32_ext. intros; apply H; lia.
Qed.

(** The other inodes of the block. *)
Lemma decode_encode_other x y d :
  block_ok d → length (i_addrs x) = 13%nat → i_inum x mod IPB ≠ i_inum y mod IPB →
  decode_dinode (encode_dinode x d) y = decode_dinode d y.
Proof.
  intros [Hd _] Hl Hne. apply decode_ext. intros j Hj. apply encode_outside; [done|done|].
  unfold dinode_off, DINODE_SIZE, IPB in *. pose proof (Z.mod_pos_bound (i_inum x) 8 ltac:(lia)).
  pose proof (Z.mod_pos_bound (i_inum y) 8 ltac:(lia)). lia.
Qed.
