(* ===== verification/FsFile.v ===== *)
(** * FsFile: reading and writing files ([iupdate], [readi], [writei])

    [readi] returns the bytes of the file; [writei] replaces the bytes it is
    given, adds the blocks it needs and leaves the rest of the disk alone. *)
From S2P Require Import Prelude.
From S2P Require Import Mem.
From S2P Require Import State.
From S2P Require Import Spin.
From S2P Require Import Cons.
From S2P Require Import Kalloc.
From S2P Require Import Vm.
From S2P Require Import Mlq.
From S2P Require Import Proc.
From S2P Require Import Blk.
From S2P Require Import Bio.
From S2P Require Import Log.
From S2P Require Import Txn.
From S2P Require Import Fs.
From S2P Require Import FsLogic.
From S2P Require Import FsDisk.
From S2P Require Import FsMap.
From S2P Require Import FsAlloc.
From S2P Require Import FsInode.

Section file.
Context (i : nat) (c : cpu) (me : nat) (pid : Z) (k0 : kernel) (start size o : Z) (sb : superblock).
Let N := length (k_disk k0).
Context (Hg : geometry sb N start size).
Context `{DS : !DevSw}.
Implicit Types (v : view).
Local Notation run := (run i c me pid k0 start size o).
Local Notation cap := (cap size).
Local Notation view_ok := (view_ok k0 sb).

(** An inode in use that is locked and loaded. *)
Record inode_ok v (ip : nat) (ino : inode) : Prop := {
  io_lookup : v_ic v !! ip = Some ino;
  io_dev : i_dev ino = 1;
  io_inum : 0 ≤ i_inum ino < sb_ninodes sb;
  io_typed : inode_typed ino;
  io_file : file_ok sb (v_disk v) (i_addrs ino);
  io_size : i_size ino ≤ MAXFILE * BSIZE;
  io_full j : 0 ≤ j < i_size ino → fblk (v_disk v) (i_addrs ino) j ≠ 0
}.

(** ** [iupdate] *)

Lemma IBLOCK_range inum :
  0 ≤ inum < sb_ninodes sb →
  IBLOCK inum sb = inum / IPB + sb_inodestart sb ∧ sb_inodestart sb ≤ IBLOCK inum sb < sb_bmapstart sb.
Proof.
  intros Hi. pose proof (size_pos sb N start size Hg). destruct Hg as [? ? Hd Hs Hm]. unfold IBLOCK, data_start in *.
  assert (0 ≤ inum / IPB ≤ sb_ninodes sb / IPB) by (split; [apply Z.div_pos|apply Z.div_le_mono]; unfold IPB; lia).
  rewrite u32_small by lia. lia.
Qed.
Lemma IBLOCK_meta inum :
  0 ≤ inum < sb_ninodes sb → 0 ≤ IBLOCK inum sb < Z.of_nat N ∧ IBLOCK inum sb < data_start sb ∧
  ~ bitmap_block sb (IBLOCK inum sb) ∧ home k0 start size (IBLOCK inum sb).
Proof.
  intros Hi. destruct (IBLOCK_range inum Hi) as [_ Hr]. pose proof (size_pos sb N start size Hg).
  assert (IBLOCK inum sb < Z.of_nat N) by (destruct Hg; unfold data_start in *; lia).
  split_and!; [lia|lia|unfold data_start; lia|unfold bitmap_block; lia|]. apply (home_of k0 start size sb Hg). fold N. lia.
Qed.

Definition v_iupdate v (ino : inode) : view :=
  set_disk v (IBLOCK (i_inum ino) sb) (encode_dinode ino (blk_at (v_disk v) (IBLOCK (i_inum ino) sb))).

Lemma run_iupdate v ip ino (Q : unit → view → Prop) :
  view_ok v → v_ic v !! ip = Some ino → i_dev ino = 1 → 0 ≤ i_inum ino < sb_ninodes sb →
  v_held v = [] → (load v < cap)%nat → 1 ≤ o → Q tt (v_iupdate v ino) → run v (iupdate ip) Q.
Proof.
  intros Hv Hi Hd Hn Hh Hl Ho HQ. destruct (IBLOCK_meta _ Hn) as (Hr & _ & _ & Hho).
  unfold iupdate. eapply run_get_inode; [done|]. apply run_sb. rewrite (vo_sb _ _ _ Hv), Hd.
  eapply run_update; [done|rewrite Hh; apply not_elem_of_nil|done| |done|exact HQ].
  by apply (disk_lookup sb N); [apply Hv|].
Qed.

(** The inode in memory is the one on the disk. *)
Definition synced D (ino : inode) : Prop := decode_dinode (blk_at D (IBLOCK (i_inum ino) sb)) ino = ino.

(** What [iupdate] leaves: the inode on the disk is the one in memory, and
    neither the bitmap nor a file nor another inode has changed. *)
Lemma v_iupdate_ok v ino :
  view_ok v → inode_typed ino → 0 ≤ i_inum ino < sb_ninodes sb →
  let D' := v_disk (v_iupdate v ino) in
  view_ok (v_iupdate v ino) ∧ synced D' ino ∧
  (∀ b, 0 ≤ b → b ≠ IBLOCK (i_inum ino) sb → blk_at D' b = blk_at (v_disk v) b) ∧
  (∀ b, 0 ≤ b < sb_size sb → allocated sb D' b = allocated sb (v_disk v) b) ∧
  (∀ y, 0 ≤ i_inum y < sb_ninodes sb → i_inum y ≠ i_inum ino →
     decode_dinode (blk_at D' (IBLOCK (i_inum y) sb)) y = decode_dinode (blk_at (v_disk v) (IBLOCK (i_inum y) sb)) y).
Proof.
  intros Hv Ht Hn D'. destruct (IBLOCK_meta _ Hn) as (Hr & _ & Hnb & _). set (ib := IBLOCK (i_inum ino) sb) in *.
  assert (block_ok (blk_at (v_disk v) ib)) as Hok by (apply (vo_disk _ _ _ Hv); fold N; apply IBLOCK_range in Hn; lia).
  assert (∀ b, 0 ≤ b → blk_at D' b = if decide (b = ib) then encode_dinode ino (blk_at (v_disk v) ib) else blk_at (v_disk v) b) as HD.
  { intros b Hb. apply blk_at_set; [|done]. rewrite (dk_len _ _ _ (vo_disk _ _ _ Hv)). done. }
  split_and!.
  - apply (set_disk_ok k0 start size sb Hg); try done. by apply block_ok_encode.
  - unfold synced. fold ib. rewrite HD by lia. rewrite decide_True by done. by apply decode_encode.
  - intros b Hb Hne. rewrite HD by done. by rewrite decide_False.
  - intros b Hb. apply (allocated_set sb N start size Hg); [apply Hv|done..].
  - intros y Hy Hne. destruct (IBLOCK_range _ Hy) as [Ey Hyr]. destruct (IBLOCK_range _ Hn) as [Ei _].
    pose proof (size_pos sb N start size Hg). rewrite HD by lia. case_decide as E; [|done]. rewrite E.
    apply decode_encode_other; [done|apply Ht|]. unfold ib in E. intros Em.
    apply Hne. rewrite (Z.div_mod (i_inum y) IPB), (Z.div_mod (i_inum ino) IPB) by done. lia.
Qed.

(** ** [readi] *)

(** The first bytes of the file from [off] on. *)
Definition fbytes D (a : list Z) (off n : Z) : list Z := fbyte D a <$> seqZ off n.

Lemma off_div off : 0 ≤ off < MAXFILE * BSIZE → 0 ≤ off / BSIZE < MAXFILE.
Proof. intros Ho. split; [apply Z.div_pos; [lia|done]|apply Z.div_lt_upper_bound; [done|lia]]. Qed.

Lemma run_readi_loop fuel v ip ino : ∀ tot off n (Q : list Z → view → Prop),
  view_ok v → inode_ok v ip ino → v_held v = [] → (load v + 5 ≤ cap)%nat →
  0 ≤ off → tot ≤ n → n - tot < Z.of_nat fuel → off + (n - tot) ≤ i_size ino →
  Q (fbytes (v_disk v) (i_addrs ino) off (n - tot)) v → run v (readi_loop fuel ip tot off n) Q.
Proof.
  induction fuel as [|fuel IH]; intros tot off n Q Hv Hi Hh Hl Hoff Htot Hf Hsz HQ; [lia|]. cbn [readi_loop].
  destruct (Z.ltb_spec tot n) as [Hlt|Hge].
  2: { apply run_ret. replace (n - tot) with 0 in HQ by lia. exact HQ. }
  pose proof (io_size _ _ _ Hi) as Hmax. eapply run_get_inode; [apply Hi|].
  assert (fblk (v_disk v) (i_addrs ino) off ≠ 0) as Hfull by (apply (io_full _ _ _ Hi); lia).
  assert (0 ≤ off < MAXFILE * BSIZE) as Hor by lia.
  apply run_bind. eapply (run_bmap i c me pid k0 start size o sb Hg v ip ino);
    [done|apply Hi|apply Hi|apply Hi|by apply off_div|done|by intros _; rewrite Hh; apply not_elem_of_nil| |].
  { intros E. by destruct Hfull. }
  intros b v' a' Hm. destruct (mp_hit _ _ _ _ _ _ _ _ _ Hm Hfull) as [-> ->].
  pose proof (mp_slot _ _ _ _ _ _ _ _ _ Hm) as Eb. change (slot _ _ _) with (fblk (v_disk v) (i_addrs ino) off) in Eb.
  destruct (bn_slot_range off Hor) as [Hsr _].
  destruct (owns_used sb N start size Hg _ _ b (io_file _ _ _ Hi)) as (Hbd & _ & HbN & _).
  { rewrite <-Eb. split; [done|]. eexists. split; [exact Hsr|done]. }
  pose proof (size_pos sb N start size Hg). rewrite (io_dev _ _ _ Hi).
  apply run_bread; [apply (home_of k0 start size sb Hg); destruct Hg; unfold data_start in *; fold N; lia|
    rewrite Hh; apply not_elem_of_nil|lia|]. intros x.
  eapply run_get_data; [left|apply (disk_lookup sb N); [apply Hv|done]|].
  apply run_bind. eapply run_brelse; [done|].
  match goal with |- FsLogic.run _ _ _ _ _ _ _ _ ?w _ _ => replace w with v by by destruct v end.
  pose proof (Z.mod_pos_bound off BSIZE ltac:(done)). set (m := Z.min (n - tot) (BSIZE - off mod BSIZE)).
  assert (0 < m ≤ n - tot ∧ m ≤ BSIZE - off mod BSIZE) as Hm' by lia. clearbody m.
  apply run_bind. apply IH; try done; [lia..|]. apply run_ret.
  change (v_disk (v <| v_held := _ |>)) with (v_disk v).
  rewrite <-Eb, (slice_fbyte (v_disk v) (i_addrs ino) off m); [|rewrite Eb; apply (data_block_ok sb N start size Hg); [apply Hv|done]|done|done|lia].
  unfold fbytes in *. rewrite <-fmap_app, <-seqZ_app by lia. by replace (m + (n - (tot + m))) with (n - tot) by lia.
Qed.

Lemma run_readi v ip ino off n (Q : Z * list Z → view → Prop) :
  view_ok v → inode_ok v ip ino → v_held v = [] → (load v + 5 ≤ cap)%nat → i_type ino ≠ T_DEV →
  0 ≤ off ≤ i_size ino → 0 ≤ n → off + n < 4294967296 →
  (let m := Z.min n (i_size ino - off) in Q (m, fbytes (v_disk v) (i_addrs ino) off m) v) → run v (readi ip off n) Q.
Proof.
  intros Hv Hi Hh Hl Ht Hoff Hn Hov HQ. unfold readi. eapply run_get_inode; [apply Hi|].
  destruct (Z.eqb_spec (i_type ino) T_DEV); [done|]. rewrite u32_small by lia.
  destruct (Z.ltb_spec (i_size ino) off); [lia|]. destruct (Z.ltb_spec (off + n) off); [lia|]. cbn [orb].
  assert ((if i_size ino <? off + n then i_size ino - off else n) = Z.min n (i_size ino - off)) as ->
    by (destruct (Z.ltb_spec (i_size ino) (off + n)); lia).
  set (m := Z.min n (i_size ino - off)) in *. apply run_bind.
  eapply run_readi_loop; try done; [lia..|]. rewrite Z.sub_0_r. by apply run_ret.
Qed.

(** Positions behind the end and sums that wrap around are refused. *)
Lemma run_readi_error v ip ino off n (Q : Z * list Z → view → Prop) :
  v_ic v !! ip = Some ino → i_type ino ≠ T_DEV → i_size ino < off ∨ u32 (off + n) < off →
  Q (-1, []) v → run v (readi ip off n) Q.
Proof.
  intros Hi Ht Hc HQ. unfold readi. eapply run_get_inode; [exact Hi|].
  destruct (Z.eqb_spec (i_type ino) T_DEV); [done|].
  assert ((i_size ino <? off) || (u32 (off + n) <? off) = true) as ->; [|by apply run_ret].
  apply orb_true_iff. rewrite !Z.ltb_lt. done.
Qed.

(** ** [writei] *)

(** The blocks that [n] bytes from [off] on touch, and those of the bitmap. *)
Definition span (off n : Z) : nat := if decide (n ≤ 0) then 0 else Z.to_nat ((off mod BSIZE + n + 511) / BSIZE).
Definition nbitmap : nat := Z.to_nat (sb_size sb / BPB + 1).

(** The bytes [l] have been written at [off] of inode [ip], from the view [v0] on. *)
Record wrote v0 (ip : nat) (ino : inode) (off : Z) (l : list Z) v a : Prop := {
  wr_view : v = set_map v0 ip ino (v_disk v) (v_bs v) a;
  wr_ok : view_ok v;
  wr_edit : edit sb N (over off l) (v_disk v0) (i_addrs ino) (v_disk v) a;
  wr_bs x : x ∈ v_bs v → x ∈ v_bs v0 ∨ bitmap_block sb x ∨ (x = slot (v_disk v) a IND ∧ x ≠ 0) ∨
    ∃ j, off ≤ j < off + Z.of_nat (length l) ∧ x = fblk (v_disk v) a j;
  wr_full j : off ≤ j < off + Z.of_nat (length l) → fblk (v_disk v) a j ≠ 0;
  wr_same : (∀ j, off ≤ j < off + Z.of_nat (length l) → fblk (v_disk v0) (i_addrs ino) j ≠ 0) → a = i_addrs ino
}.

Lemma wrote_nil v ip ino off :
  view_ok v → v_ic v !! ip = Some ino → file_ok sb (v_disk v) (i_addrs ino) → wrote v ip ino off [] v (i_addrs ino).
Proof.
  intros Hv Hi Hf. split; try done.
  - by apply set_map_id.
  - eapply edit_ext; [|apply (grow_refl sb N start size Hg); [apply Hv|done]]. intros j x _. symmetry. apply over_nil.
  - by left.
  - simpl. lia.
Qed.

Lemma div_near off len j : 0 ≤ off → off ≤ j < off + len → off / BSIZE ≤ j / BSIZE < off / BSIZE + Z.of_nat (span off len).
Proof.
  intros Hoff Hj. unfold span. rewrite decide_False by lia.
  assert (0 ≤ (off mod BSIZE + len + 511) / BSIZE) by (apply Z.div_pos; [|done]; pose proof (Z.mod_pos_bound off BSIZE ltac:(done)); lia).
  rewrite Z2Nat.id by done. unfold BSIZE in *. Z.div_mod_to_equations. lia.
Qed.

Lemma wrote_load v0 ip ino off l v a :
  wrote v0 ip ino off l v a → 0 ≤ off →
  (load v ≤ load v0 + nbitmap + 1 + span off (Z.of_nat (length l)))%nat.
Proof.
  intros Hw Hoff. assert (v_held v = v_held v0) as Hh by by rewrite (wr_view _ _ _ _ _ _ _ Hw).
  unfold load. rewrite Hh. pose proof (size_pos sb N start size Hg).
  set (L := v_bs v0 ++ seqZ (sb_bmapstart sb) (sb_size sb / BPB + 1) ++ [slot (v_disk v) a IND] ++
    ((λ bn, slot (v_disk v) a (bn_slot (Z.to_nat bn))) <$> seqZ (off / BSIZE) (Z.of_nat (span off (Z.of_nat (length l)))))).
  assert (length (v_bs v) ≤ length L)%nat as Hlen.
  { apply submseteq_length, NoDup_submseteq; [apply (wr_ok _ _ _ _ _ _ _ Hw)|]. intros x Hx. unfold L.
    rewrite !elem_of_app, list_elem_of_singleton, elem_of_seqZ, list_elem_of_fmap.
    apply (wr_bs _ _ _ _ _ _ _ Hw) in Hx as [?|[Hb|[[? _]|(j & Hj & ->)]]]; [by left|right; left| by right; right; left|].
    - unfold bitmap_block, data_start in Hb. lia.
    - right. right. right. exists (j / BSIZE). split; [done|]. apply elem_of_seqZ. by apply div_near. }
  unfold L in Hlen. rewrite !length_app, length_fmap, !length_seqZ in Hlen. unfold nbitmap. simpl in Hlen. lia.
Qed.

(** One round of the loop. *)
Lemma wrote_step v0 ip ino off l v a b v1 a1 l2 :
  wrote v0 ip ino off l v a → 0 ≤ off →
  let p := off + Z.of_nat (length l) in
  p < MAXFILE * BSIZE → mapped k0 sb v ip (ino <| i_addrs := a |>) (bn_slot (Z.to_nat (p / BSIZE))) b v1 a1 →
  l2 ≠ [] → (Z.to_nat (p mod BSIZE) + length l2 ≤ 512)%nat → Forall is_byte l2 →
  wrote v0 ip ino off (l ++ l2) (set_disk v1 b (splice (blk_at (v_disk v1) b) (Z.to_nat (p mod BSIZE)) l2)) a1.
Proof.
  intros Hw Hoff p Hp Hm Hne Hfit Hby. pose proof (mp_grow _ _ _ _ _ _ _ _ _ Hm) as Hgr. simpl in Hgr.
  pose proof (mp_slot _ _ _ _ _ _ _ _ _ Hm) as Eb. change (slot _ _ _) with (fblk (v_disk v1) a1 p) in Eb.
  assert (0 ≤ p < MAXFILE * BSIZE) as Hpr by lia. pose proof (gr_file _ _ _ _ _ _ _ Hgr) as Hf1.
  pose proof (mp_ok _ _ _ _ _ _ _ _ _ Hm) as Hv1. pose proof (mp_ne _ _ _ _ _ _ _ _ _ Hm) as Hb0.
  assert (edit sb N (over p l2) (v_disk v1) a1 (set_blk (v_disk v1) b (splice (blk_at (v_disk v1) b) (Z.to_nat (p mod BSIZE)) l2)) a1) as Hwr.
  { rewrite <-Eb. apply (edit_write sb N start size Hg); [apply Hv1|done|done|by rewrite Eb|done|done]. }
  set (v2 := set_disk v1 b _). change (set_blk _ _ _) with (v_disk v2) in Hwr.
  destruct (bn_slot_range p Hpr) as [Hsr Hsi].
  assert (owns (v_disk v1) a1 b) as Ho by (split; [done|eexists; split; [exact Hsr|exact Eb]]).
  destruct (owns_used sb N start size Hg _ _ b Hf1 Ho) as (Hbd & _ & HbN & Hnbm).
  assert (∀ s, (s < NSLOT)%nat → slot (v_disk v1) a1 s ≠ 0 → slot (v_disk v2) a1 s = slot (v_disk v1) a1 s) as Hs2 by apply Hwr.
  assert (∀ j, off ≤ j < p + Z.of_nat (length l2) → fblk (v_disk v2) a1 j = if decide (j < p) then fblk (v_disk v) a j else b) as Hfb.
  { intros j Hj. pose proof (Z.mod_pos_bound p BSIZE ltac:(done)). pose proof (Z.div_mod p BSIZE ltac:(done)). case_decide as E.
    - assert (0 ≤ j < MAXFILE * BSIZE) as Hjr by lia. destruct (bn_slot_range j Hjr) as [Hsj _].
      assert (fblk (v_disk v) a j ≠ 0) as Hjn by (apply (wr_full _ _ _ _ _ _ _ Hw); lia).
      pose proof (gr_mono _ _ _ _ _ _ _ Hgr _ Hsj Hjn) as E1. unfold fblk in *. rewrite Hs2; [done|done|by rewrite E1].
    - assert (j / BSIZE = p / BSIZE) as Ed
        by (symmetry; apply (Z.div_unique _ _ _ (p mod BSIZE + (j - p))); unfold BSIZE in *; lia).
      unfold fblk in *. rewrite Ed, Hs2; [done|done|by rewrite Eb]. }
  assert (0 < length l2)%nat as Hl2 by (destruct l2; [done|simpl; lia]).
  split.
  - unfold v2, set_disk. rewrite (mp_view _ _ _ _ _ _ _ _ _ Hm), (wr_view _ _ _ _ _ _ _ Hw) at 1. unfold set_map. simpl.
    by rewrite list_insert_insert_eq.
  - apply (set_disk_ok k0 start size sb Hg); [done|done|done|]. apply block_ok_splice; [|done|done].
    by apply (data_block_ok sb N start size Hg); [apply Hv1|].
  - eapply edit_ext; [|eapply (edit_trans sb N start size Hg); [apply Hw|eapply (edit_trans sb N start size Hg); [exact Hgr|exact Hwr]]].
    intros j x _. simpl. apply over_app.
  - intros x. change (v_bs v2) with (add_block b (v_bs v1)). rewrite elem_of_add_block, length_app.
    rewrite (slot_IND (v_disk v1) (v_disk v2)).
    assert (∃ j, off ≤ j < off + Z.of_nat (length l + length l2) ∧ b = fblk (v_disk v2) a1 j) as Hbj.
    { exists p. split; [lia|]. rewrite Hfb by lia. by rewrite decide_False by lia. }
    intros [->|Hx]; [by right; right; right|].
    apply (mp_bs _ _ _ _ _ _ _ _ _ Hm) in Hx as [Hx|[?|[?| ->]]]; [|by right; left|by right; right; left|by right; right; right].
    apply (wr_bs _ _ _ _ _ _ _ Hw) in Hx as [?|[?|[[-> Hn]|(j & Hj & ->)]]]; [by left|by right; left|..].
    + right. right. left. split; [|done]. symmetry. apply (gr_mono _ _ _ _ _ _ _ Hgr); [unfold IND, NSLOT; lia|done].
    + right. right. right. exists j. split; [lia|]. rewrite Hfb by lia. by rewrite decide_True by lia.
  - rewrite length_app. intros j Hj. rewrite Hfb by lia. case_decide; [|done]. apply (wr_full _ _ _ _ _ _ _ Hw). lia.
  - rewrite length_app. intros Hall. pose proof (wr_same _ _ _ _ _ _ _ Hw ltac:(intros j Hj; apply Hall; lia)) as Ea.
    rewrite <-Ea. apply (mp_hit _ _ _ _ _ _ _ _ _ Hm). simpl.
    assert (fblk (v_disk v0) (i_addrs ino) p ≠ 0) as Hp0 by (apply Hall; lia).
    rewrite (gr_mono _ _ _ _ _ _ _ (wr_edit _ _ _ _ _ _ _ Hw) _ Hsr Hp0). done.
Qed.

Lemma span_step off n m :
  0 < n → 0 ≤ off → m = Z.min n (BSIZE - off mod BSIZE) → (S (span (off + m) (n - m)) ≤ span off n)%nat.
Proof.
  intros Hn Hoff ->. pose proof (Z.mod_pos_bound off BSIZE ltac:(done)). pose proof (Z.div_mod off BSIZE ltac:(done)).
  unfold span. rewrite (decide_False (P := n ≤ 0)) by lia.
  destruct (Z.min_spec n (BSIZE - off mod BSIZE)) as [[Hlt ->]|[Hge ->]].
  - rewrite decide_True by lia. unfold BSIZE in *. Z.div_mod_to_equations. lia.
  - replace (off + (BSIZE - off mod BSIZE)) with (BSIZE * (off / BSIZE + 1)) by lia.
    rewrite Z.mul_comm, Z_mod_mult. case_decide; unfold BSIZE in *; Z.div_mod_to_equations; lia.
Qed.

Lemma span_mono off n m : 0 ≤ n ≤ m → (span off n ≤ span off m)%nat.
Proof.
  intros Hnm. unfold span. pose proof (Z.mod_pos_bound off BSIZE ltac:(done)). repeat case_decide; try lia.
  apply Z2Nat.inj_le; [apply Z.div_pos; [lia|done]..|]. apply Z.div_le_mono; [done|lia].
Qed.

(** A call of [writei] that passes its checks: [src] at [off] of inode [ip], in
    a view with enough room in the log and enough free blocks. *)
Section writei.
Context (v0 : view) (ip : nat) (ino : inode) (off : Z) (src : list Z).
Let n := Z.of_nat (length src).
Record writable : Prop := {
  wa_view : view_ok v0;
  wa_inode : inode_ok v0 ip ino;
  wa_held : v_held v0 = [];
  wa_trans : 1 ≤ o;
  wa_bytes : Forall is_byte src;
  wa_off : 0 ≤ off;
  wa_end : off ≤ i_size ino;
  wa_max : off + n ≤ MAXFILE * BSIZE;
  wa_room : (load v0 + nbitmap + span off n + 6 ≤ cap)%nat;
  wa_free : (S (span off n) ≤ credit sb (v_disk v0) (i_addrs ino))%nat ∨
    (∀ j, off ≤ j < off + n → fblk (v_disk v0) (i_addrs ino) j ≠ 0)
}.
Context (Hwa : writable).

(** [tot] bytes are written and there are blocks for the rest. *)
Record progress (tot : Z) v a : Prop := {
  pg_tot : 0 ≤ tot ≤ n;
  pg_wrote : wrote v0 ip ino off (take (Z.to_nat tot) src) v a;
  pg_free : (S (span (off + tot) (n - tot)) ≤ credit sb (v_disk v) a)%nat ∨
    (∀ j, off ≤ j < off + n → fblk (v_disk v0) (i_addrs ino) j ≠ 0);
  pg_credit : (credit sb (v_disk v0) (i_addrs ino) + span (off + tot) (n - tot) ≤ credit sb (v_disk v) a + span off n)%nat
}.

Lemma progress_facts tot v a :
  progress tot v a → length (take (Z.to_nat tot) src) = Z.to_nat tot ∧
  v_ic v !! ip = Some (ino <| i_addrs := a |>) ∧ v_held v = [] ∧ (load v + 5 ≤ cap)%nat.
Proof.
  intros [Htot Hw _ _]. assert (length (take (Z.to_nat tot) src) = Z.to_nat tot) as Hl by (rewrite length_take; lia).
  split; [done|]. pose proof (wr_view _ _ _ _ _ _ _ Hw) as Hv. split_and!.
  - rewrite Hv. simpl. apply list_lookup_insert_eq. eapply lookup_lt_Some, Hwa.
  - rewrite Hv. apply Hwa.
  - pose proof (wrote_load _ _ _ _ _ _ _ Hw (wa_off Hwa)) as Hld. rewrite Hl, Z2Nat.id in Hld by lia.
    pose proof (span_mono off tot n Htot). pose proof (wa_room Hwa). lia.
Qed.

Lemma run_write_bmap tot v a (Q : Z → view → Prop) :
  progress tot v a → tot < n →
  (∀ b v1 a1, mapped k0 sb v ip (ino <| i_addrs := a |>) (bn_slot (Z.to_nat ((off + tot) / BSIZE))) b v1 a1 → Q b v1) →
  run v (bmap ip ((off + tot) / BSIZE)) Q.
Proof.
  intros Hp Hlt HQ. destruct (progress_facts _ _ _ Hp) as (Hl & Hiv & Hhv & Hcap). destruct Hp as [Htot Hw Hfree Hcrd].
  pose proof (wa_off Hwa). pose proof (wa_max Hwa). assert (0 ≤ off + tot < MAXFILE * BSIZE) as Hpr by lia.
  destruct (bn_slot_range _ Hpr) as [Hsr _].
  eapply (run_bmap i c me pid k0 start size o sb Hg v ip (ino <| i_addrs := a |>));
    [apply Hw|exact Hiv|apply (wa_inode Hwa)|apply (wr_edit _ _ _ _ _ _ _ Hw)|by apply off_div|done| | |done].
  - intros _. rewrite Hhv. apply not_elem_of_nil.
  - intros E. split; [|apply Hwa]. simpl in E |- *. destruct Hfree as [Hcr|Hfull].
    + pose proof (span_step (off + tot) (n - tot) _ ltac:(lia) ltac:(lia) eq_refl). lia.
    + exfalso. pose proof (Hfull (off + tot) ltac:(lia)) as Hnz.
      pose proof (gr_mono _ _ _ _ _ _ _ (wr_edit _ _ _ _ _ _ _ Hw) _ Hsr Hnz) as E'. apply Hnz. unfold fblk in *. congruence.
Qed.

(** The rest of a round. *)
Lemma progress_step tot v a b v1 a1 :
  let p := off + tot in
  let m := Z.min (n - tot) (BSIZE - p mod BSIZE) in
  let l2 := slice src (Z.to_nat tot) (Z.to_nat m) in
  progress tot v a → tot < n →
  mapped k0 sb v ip (ino <| i_addrs := a |>) (bn_slot (Z.to_nat (p / BSIZE))) b v1 a1 →
  progress (tot + m) (set_disk v1 b (splice (blk_at (v_disk v1) b) (Z.to_nat (p mod BSIZE)) l2)) a1.
Proof.
  intros p m l2 Hp Hlt Hm. destruct (progress_facts _ _ _ Hp) as (Hl & Hiv & Hhv & Hcap). destruct Hp as [Htot Hw Hfree Hcrd].
  pose proof (wa_off Hwa). pose proof (wa_max Hwa). pose proof (Z.mod_pos_bound p BSIZE ltac:(done)).
  assert (0 < m ≤ n - tot ∧ m ≤ BSIZE - p mod BSIZE) as Hmr by lia.
  assert (length l2 = Z.to_nat m) as Hl2 by (unfold l2, slice; rewrite length_take, length_drop; lia).
  assert (take (Z.to_nat (tot + m)) src = take (Z.to_nat tot) src ++ l2) as Et.
  { rewrite Z2Nat.inj_add by lia. unfold l2, slice. by rewrite take_take_drop. }
  assert (wrote v0 ip ino off (take (Z.to_nat tot) src ++ l2)
    (set_disk v1 b (splice (blk_at (v_disk v1) b) (Z.to_nat (p mod BSIZE)) l2)) a1) as Hw2.
  { assert (p = off + Z.of_nat (length (take (Z.to_nat tot) src))) as Ep by lia. rewrite Ep in Hm |- *.
    eapply wrote_step; [exact Hw|done|lia|exact Hm|..].
    - intros E. rewrite E in Hl2. simpl in Hl2. lia.
    - rewrite <-Ep, Hl2. unfold BSIZE in *. lia.
    - unfold l2, slice. apply Forall_take, Forall_drop, Hwa. }
  pose proof (span_step p (n - tot) m ltac:(lia) ltac:(lia) eq_refl) as Hst.
  pose proof (mp_credit _ _ _ _ _ _ _ _ _ Hm) as Hc. simpl in Hc. fold p in Hcrd.
  assert (credit sb (set_blk (v_disk v1) b (splice (blk_at (v_disk v1) b) (Z.to_nat (p mod BSIZE)) l2)) a1 = credit sb (v_disk v1) a1) as E.
  { unfold credit. rewrite (slot_IND (v_disk v1)). f_equal. apply nfree_ext. intros x Hx.
    assert (0 ≤ p < MAXFILE * BSIZE) as Hpr by lia. destruct (bn_slot_range _ Hpr) as [Hsr _].
    destruct (owns_used sb N start size Hg _ _ b (gr_file _ _ _ _ _ _ _ (mp_grow _ _ _ _ _ _ _ _ _ Hm))) as (_ & _ & HbN & Hnbm).
    { split; [apply Hm|]. eexists. split; [exact Hsr|apply Hm]. }
    apply (allocated_set sb N start size Hg); [apply (mp_ok _ _ _ _ _ _ _ _ _ Hm)|done..]. }
  split; [lia|by rewrite Et|..]; change (v_disk (set_disk v1 b ?d)) with (set_blk (v_disk v1) b d); rewrite ?E;
    replace (off + (tot + m)) with (p + m) by lia; replace (n - (tot + m)) with (n - tot - m) by lia; [|lia].
  destruct Hfree as [Hcr|?]; [left|by right]. fold p in Hcr. lia.
Qed.

Lemma run_writei_loop fuel : ∀ tot v a (Q : Z → view → Prop),
  progress tot v a → n - tot < Z.of_nat fuel →
  (∀ v' a', wrote v0 ip ino off src v' a' →
     (credit sb (v_disk v0) (i_addrs ino) ≤ credit sb (v_disk v') a' + span off n)%nat → Q (off + n) v') →
  run v (writei_loop fuel ip src tot (off + tot) n) Q.
Proof.
  induction fuel as [|fuel IH]; intros tot v a Q Hp Hf HQ; [destruct Hp; lia|].
  cbn [writei_loop]. destruct (Z.ltb_spec tot n) as [Hlt|Hge].
  2: { apply run_ret. destruct Hp as [Htot Hw _ Hcrd]. assert (tot = n) as -> by lia. apply (HQ v a); [|lia].
       unfold n in Hw. by rewrite Nat2Z.id, firstn_all in Hw. }
  destruct (progress_facts _ _ _ Hp) as (Hl & Hiv & Hhv & Hcap).
  eapply run_get_inode; [exact Hiv|]. change (i_dev (ino <| i_addrs := a |>)) with (i_dev ino).
  apply run_bind. apply (run_write_bmap tot v a); [done|done|].
  intros b v1 a1 Hm. pose proof (progress_step _ _ _ _ _ _ Hp Hlt Hm) as Hp2.
  pose proof (wa_off Hwa). pose proof (wa_max Hwa). pose proof (pg_tot _ _ _ Hp).
  assert (0 ≤ off + tot < MAXFILE * BSIZE) as Hpr by lia. destruct (bn_slot_range _ Hpr) as [Hsr _].
  destruct (owns_used sb N start size Hg _ _ b (gr_file _ _ _ _ _ _ _ (mp_grow _ _ _ _ _ _ _ _ _ Hm))) as (Hbd & _ & HbN & Hnbm).
  { split; [apply Hm|]. eexists. split; [exact Hsr|apply Hm]. }
  assert (v_held v1 = []) as Hh1 by by rewrite (mp_view _ _ _ _ _ _ _ _ _ Hm).
  pose proof (wa_inode Hwa) as Hino. rewrite (io_dev _ _ _ Hino). pose proof (size_pos sb N start size Hg).
  destruct (progress_facts _ _ _ Hp2) as (_ & _ & _ & Hcap2).
  match type of Hcap2 with (load (set_disk _ _ ?d) + 5 ≤ _)%nat => pose proof (load_set_disk_ge v1 b d) end.
  apply run_bread; [|rewrite Hh1; apply not_elem_of_nil|lia|].
  { apply (home_of k0 start size sb Hg). destruct Hg. unfold data_start in *. fold N. lia. }
  intros x. eapply run_write; [left|apply (disk_lookup sb N); [apply (mp_ok _ _ _ _ _ _ _ _ _ Hm)|done]|unfold load in *; simpl; lia|apply Hwa|].
  apply run_bind. eapply run_brelse; [done|]. rewrite <-Z.add_assoc.
  match goal with |- FsLogic.run _ _ _ _ _ _ _ _ ?w _ _ => 
    replace w with (set_disk v1 b (splice (blk_at (v_disk v1) b) (Z.to_nat ((off + tot) mod BSIZE))
      (slice src (Z.to_nat tot) (Z.to_nat (Z.min (n - tot) (BSIZE - (off + tot) mod BSIZE)))))) by by destruct v1 end.
  pose proof (Z.mod_pos_bound (off + tot) BSIZE ltac:(done)). eapply IH; [exact Hp2|lia|done].
Qed.

(** The inode after the write. *)
Definition grown a : inode := ino <| i_addrs := a |> <| i_size := Z.max (i_size ino) (off + n) |>.

(** What a successful [writei] leaves. *)
Record written v a : Prop := {
  fw_view : v = v0 <| v_disk := v_disk v |> <| v_bs := v_bs v |> <| v_ic := <[ip := grown a]> (v_ic v0) |>;
  fw_ok : view_ok v;
  fw_inode : inode_ok v ip (grown a);
  fw_byte j : 0 ≤ j < MAXFILE * BSIZE → fbyte (v_disk v) a j = over off src j (fbyte (v_disk v0) (i_addrs ino) j);
  fw_alloc b : 0 ≤ b < sb_size sb → allocated sb (v_disk v) b = true ↔ allocated sb (v_disk v0) b = true ∨ owns (v_disk v) a b;
  fw_frame b : 0 ≤ b → ~ bitmap_block sb b → ~ owns (v_disk v) a b → b ≠ IBLOCK (i_inum ino) sb →
    blk_at (v_disk v) b = blk_at (v_disk v0) b;
  fw_synced : synced (v_disk v0) ino → synced (v_disk v) (grown a);
  fw_others y : 0 ≤ i_inum y < sb_ninodes sb → i_inum y ≠ i_inum ino →
    decode_dinode (blk_at (v_disk v) (IBLOCK (i_inum y) sb)) y =
    decode_dinode (blk_at (v_disk v0) (IBLOCK (i_inum y) sb)) y;
  fw_owns b : owns (v_disk v0) (i_addrs ino) b → owns (v_disk v) a b;
  fw_fresh b : owns (v_disk v) a b → owns (v_disk v0) (i_addrs ino) b ∨ allocated sb (v_disk v0) b = false;
  fw_credit : (credit sb (v_disk v0) (i_addrs ino) ≤ credit sb (v_disk v) a + span off n)%nat;
  fw_load : (load v ≤ load v0 + nbitmap + span off n + 2)%nat
}.

(** The blocks of a file are not those of the inodes. *)
Lemma IBLOCK_not_owned D a inum : file_ok sb D a → 0 ≤ inum < sb_ninodes sb → ~ owns D a (IBLOCK inum sb).
Proof.
  intros Hf Hn Ho. destruct (owns_used sb N start size Hg _ _ _ Hf Ho) as (Hd & _).
  destruct (IBLOCK_meta _ Hn) as (_ & ? & _). lia.
Qed.
Lemma inode_block_same v a inum :
  wrote v0 ip ino off src v a → 0 ≤ inum < sb_ninodes sb → blk_at (v_disk v) (IBLOCK inum sb) = blk_at (v_disk v0) (IBLOCK inum sb).
Proof.
  intros Hw Hn. destruct (IBLOCK_meta _ Hn) as (Hr & _ & Hnb & _). pose proof (wr_edit _ _ _ _ _ _ _ Hw) as He.
  apply (gr_frame _ _ _ _ _ _ _ He); [lia|done|]. apply IBLOCK_not_owned; [apply He|done].
Qed.

(** The inode in memory after the loop, with its new size. *)
Lemma grown_ok v a :
  wrote v0 ip ino off src v a → inode_typed (grown a) ∧ file_ok sb (v_disk v) a ∧
  ∀ j, 0 ≤ j < i_size (grown a) → fblk (v_disk v) a j ≠ 0.
Proof.
  intros Hw. pose proof (wa_inode Hwa) as Hi. pose proof (wr_edit _ _ _ _ _ _ _ Hw) as He.
  pose proof (gr_file _ _ _ _ _ _ _ He) as Hf. pose proof (io_typed _ _ _ Hi) as Ht. pose proof (wa_off Hwa).
  pose proof (wa_max Hwa). pose proof (io_size _ _ _ Hi). pose proof (wa_end Hwa). split_and!; [|done|].
  - destruct Ht as [H1' H2' H3' H4' H5' _ _]. split; try done; simpl.
    + unfold is_uint, MAXFILE, NDIRECT, NINDIRECT, BSIZE in *. lia.
    + apply Hf.
    + apply Forall_lookup. intros s x Hx. assert (s < 13)%nat by (rewrite <-(fo_len _ _ _ Hf); by eapply lookup_lt_Some).
      assert (slot (v_disk v) a s = x) as Es by (rewrite slot_direct by (unfold IND; lia); by rewrite Hx).
      pose proof (size_pos sb N start size Hg). destruct (decide (x = 0)) as [->|Hne]; [unfold is_uint; lia|].
      destruct (fo_used _ _ _ Hf s) as [Hr _]; [unfold NSLOT; lia|by rewrite Es|]. rewrite Es in Hr.
      destruct Hg. unfold is_uint. lia.
  - simpl. intros j Hj. destruct (decide (off ≤ j < off + n)); [by apply (wr_full _ _ _ _ _ _ _ Hw)|].
    assert (0 ≤ j < MAXFILE * BSIZE) as Hjr by lia. destruct (bn_slot_range j Hjr) as [Hsr _].
    assert (fblk (v_disk v0) (i_addrs ino) j ≠ 0) as Hnz by (apply (io_full _ _ _ Hi); lia).
    unfold fblk. rewrite (gr_mono _ _ _ _ _ _ _ He _ Hsr Hnz). done.
Qed.

(** The size does not change: the inode is not written. *)
Lemma written_inside v a :
  wrote v0 ip ino off src v a → off + n ≤ i_size ino →
  (credit sb (v_disk v0) (i_addrs ino) ≤ credit sb (v_disk v) a + span off n)%nat → written v a.
Proof.
  intros Hw Hle Hcrd. destruct (grown_ok v a Hw) as (Ht & Hf & Hfull). pose proof (wa_inode Hwa) as Hi.
  pose proof (wr_edit _ _ _ _ _ _ _ Hw) as He. pose proof (wa_off Hwa).
  assert (a = i_addrs ino) as Ea by (apply (wr_same _ _ _ _ _ _ _ Hw); intros j Hj; apply (io_full _ _ _ Hi); lia).
  assert (grown a = ino <| i_addrs := a |>) as Eg by (unfold grown; rewrite Z.max_l by lia; by destruct ino).
  assert (grown a = ino) as Eg' by (rewrite Eg, Ea; by destruct ino).
  split; try apply He; try done.
  - rewrite Eg. apply (wr_view _ _ _ _ _ _ _ Hw).
  - apply Hw.
  - split; try done; [|apply Hi|apply Hi|].
    + rewrite (wr_view _ _ _ _ _ _ _ Hw), Eg. simpl. apply list_lookup_insert_eq. eapply lookup_lt_Some, Hi.
    + rewrite Eg'. apply Hi.
  - intros b Hb Hnb Ho _. by apply (gr_frame _ _ _ _ _ _ _ He).
  - rewrite Eg'. unfold synced. by rewrite (inode_block_same v a) by (done || apply Hi).
  - intros y Hy _. by rewrite (inode_block_same v a).
  - intros b. by apply (edit_owns _ _ _ _ _ _ _ _ He).
  - pose proof (wrote_load _ _ _ _ _ _ _ Hw (wa_off Hwa)) as Hld. fold n in Hld. lia.
Qed.

(** The size grows: [iupdate] stores the inode. *)
Lemma written_grown v a :
  wrote v0 ip ino off src v a → i_size ino < off + n →
  (credit sb (v_disk v0) (i_addrs ino) ≤ credit sb (v_disk v) a + span off n)%nat →
  written (v_iupdate (set_inode v ip (grown a)) (grown a)) a.
Proof.
  intros Hw Hlt Hcrd. destruct (grown_ok v a Hw) as (Ht & Hf & Hfull). pose proof (wa_inode Hwa) as Hi.
  pose proof (wr_edit _ _ _ _ _ _ _ Hw) as He. pose proof (wa_off Hwa). set (v1 := set_inode v ip (grown a)).
  assert (view_ok v1) as Hv1 by (destruct (wr_ok _ _ _ _ _ _ _ Hw); by split).
  destruct (v_iupdate_ok v1 (grown a) Hv1 Ht (io_inum _ _ _ Hi)) as (Hok & Hsy & Hbl & Hal & Hoth).
  set (v2 := v_iupdate v1 (grown a)) in *. change (v_disk v1) with (v_disk v) in *. change (i_inum (grown a)) with (i_inum ino) in *.
  assert (∀ b, owns (v_disk v) a b → blk_at (v_disk v2) b = blk_at (v_disk v) b ∧ allocated sb (v_disk v2) b = true) as Hsame.
  { intros b Ho. destruct (owns_used sb N start size Hg _ _ _ Hf Ho) as (Hd & Ha & Hr & _).
    pose proof (size_pos sb N start size Hg). rewrite Hal, Hbl; [done|lia| |lia]. intros ->.
    by apply (IBLOCK_not_owned _ _ _ Hf (io_inum _ _ _ Hi)). }
  destruct (same_file sb (v_disk v) (v_disk v2) a Hf Hsame) as (Hf2 & Hsl & Hby).
  assert (∀ b, owns (v_disk v2) a b ↔ owns (v_disk v) a b) as How.
  { intros b. unfold owns. split; intros [? (s & ? & Hs)]; (split; [done|]); exists s; (split; [done|]); by rewrite <-Hs, Hsl. }
  split; try done.
  - unfold v2, v_iupdate, v1. rewrite (wr_view _ _ _ _ _ _ _ Hw) at 1. unfold set_map, set_inode, set_disk. simpl.
    by rewrite list_insert_insert_eq.
  - split; try done; [|apply Hi|apply Hi| |].
    + simpl. apply list_lookup_insert_eq. rewrite (wr_view _ _ _ _ _ _ _ Hw). simpl. rewrite length_insert. eapply lookup_lt_Some, Hi.
    + simpl. pose proof (io_size _ _ _ Hi). pose proof (wa_max Hwa). lia.
    + intros j Hj. unfold fblk. rewrite Hsl. by apply Hfull.
  - intros j Hj. rewrite Hby by done. by apply He.
  - intros b Hb. rewrite Hal, How by done. by apply He.
  - intros b Hb Hnb Ho Hne. rewrite Hbl by done. apply (gr_frame _ _ _ _ _ _ _ He); [done|done|]. by rewrite <-How.
  - intros y Hy Hne. rewrite Hoth by done. by rewrite (inode_block_same v a).
  - intros b Ho. apply How. by apply (edit_owns _ _ _ _ _ _ _ _ He).
  - intros b Ho. apply (gr_fresh _ _ _ _ _ _ _ He). by apply How.
  - unfold credit in *. rewrite (nfree_ext sb (v_disk v) (v_disk v2)) by done. by rewrite (slot_IND (v_disk v)).
  - pose proof (wrote_load _ _ _ _ _ _ _ Hw (wa_off Hwa)) as Hld. fold n in Hld.
    etrans; [apply load_set_disk|]. change (load v1) with (load v). lia.
Qed.

Lemma run_writei (Q : Z → view → Prop) :
  i_type ino ≠ T_DEV → (∀ v a, written v a → Q n v) → run v0 (writei ip src off) Q.
Proof.
  intros Hty HQ. pose proof (wa_end Hwa) as Hos. pose proof (wa_inode Hwa) as Hi. pose proof (wa_off Hwa) as Hoff. pose proof (wa_max Hwa) as Hmax.
  unfold writei. eapply run_get_inode; [apply Hi|]. destruct (Z.eqb_spec (i_type ino) T_DEV); [done|]. fold n.
  rewrite u32_small by (unfold MAXFILE, NDIRECT, NINDIRECT, BSIZE in *; lia).
  destruct (Z.ltb_spec (i_size ino) off); [lia|]. destruct (Z.ltb_spec (off + n) off); [lia|]. cbn [orb].
  destruct (Z.ltb_spec (MAXFILE * BSIZE) (off + n)); [lia|].
  apply run_bind. rewrite <-(Z.add_0_r off) at 1.
  apply (run_writei_loop _ 0 v0 (i_addrs ino)); [|lia|].
  { split; [lia|by apply wrote_nil; [apply Hwa|apply Hi..]|..]; rewrite Z.add_0_r, Z.sub_0_r; [apply Hwa|lia]. }
  intros v a Hw Hcrd. assert (v_ic v !! ip = Some (ino <| i_addrs := a |>)) as Hiv.
  { rewrite (wr_view _ _ _ _ _ _ _ Hw). simpl. apply list_lookup_insert_eq. eapply lookup_lt_Some, Hi. }
  eapply run_get_inode; [exact Hiv|]. change (i_size (ino <| i_addrs := a |>)) with (i_size ino).
  apply run_bind. apply run_when; intros Hc.
  - apply andb_true_iff in Hc as [_ Hlt%Z.ltb_lt]. apply run_bind. eapply run_upd_inode; [exact Hiv|].
    assert (ino <| i_addrs := a |> <| i_size := off + n |> = grown a) as -> by (unfold grown; by rewrite Z.max_r by lia).
    destruct (grown_ok v a Hw) as (Ht & _). set (v1 := set_inode v ip (grown a)).
    eapply run_iupdate.
    + destruct (wr_ok _ _ _ _ _ _ _ Hw). by split.
    + simpl. apply list_lookup_insert_eq. by eapply lookup_lt_Some.
    + apply Hi.
    + apply Hi.
    + simpl. rewrite (wr_view _ _ _ _ _ _ _ Hw). apply Hwa.
    + change (load v1) with (load v). pose proof (wrote_load _ _ _ _ _ _ _ Hw Hoff) as Hld. pose proof (wa_room Hwa). fold n in Hld. lia.
    + apply Hwa.
    + apply run_ret. eapply HQ. by apply written_grown.
  - apply run_ret. eapply HQ. apply written_inside; [done| |done]. apply andb_false_iff in Hc as [Hc%Z.ltb_ge|Hc%Z.ltb_ge]; lia.
Qed.
End writei.
End file.
