(* ===== verification/FsTrunc.v ===== *)
(** * FsTrunc: discarding the contents of an inode ([itrunc], [iput])

    [itrunc] frees the blocks of the file and nothing else; [iput] drops a
    reference and truncates an inode that has neither links nor references. *)
From S2P Require Import Prelude.
From S2P Require Import Mem.
From S2P Require Import State.
From S2P Require Import Spin.
From S2P Require Import Cons.
From S2P Require Import Kalloc.
From S2P Require Import Vm.
From S2P Require Import Mlq.
From S2P Require Import Proc.
From S2P Require Import Blk.
From S2P Require Import Bio.
From S2P Require Import Log.
From S2P Require Import Txn.
From S2P Require Import Fs.
From S2P Require Import FsLogic.
From S2P Require Import FsDisk.
From S2P Require Import FsMap.
From S2P Require Import FsAlloc.
From S2P Require Import FsInode.
From S2P Require Import FsFile.

Section trunc.
Context (i : nat) (c : cpu) (me : nat) (pid : Z) (k0 : kernel) (start size o : Z) (sb : superblock).
Let N := length (k_disk k0).
Context (Hg : geometry sb N start size).
Implicit Types (v : view) (L : list Z).
Local Notation run := (run i c me pid k0 start size o).
Local Notation cap := (cap size).
Local Notation view_ok := (view_ok k0 sb).

(** From the view [v0] on, the blocks [L] have been freed and nothing else of
    the disk has changed. *)
Record freed v0 L v : Prop := {
  fr_ok : view_ok v;
  fr_alloc b : 0 ≤ b < sb_size sb → allocated sb (v_disk v) b = allocated sb (v_disk v0) b && negb (bool_decide (b ∈ L));
  fr_frame b : 0 ≤ b → ~ bitmap_block sb b → blk_at (v_disk v) b = blk_at (v_disk v0) b;
  fr_bs x : x ∈ v_bs v → x ∈ v_bs v0 ∨ bitmap_block sb x
}.

Lemma freed_nil v : view_ok v → freed v [] v.
Proof. intros Hv. split; [done| |done|by left]. intros b Hb. by rewrite andb_true_r. Qed.

(** A change of the view that keeps the disk. *)
Lemma freed_frame v0 L v v' :
  freed v0 L v → view_ok v' → v_disk v' = v_disk v → v_bs v' = v_bs v → freed v0 L v'.
Proof. intros [Hok Ha Hf Hb] Hok' E1 E2. split; rewrite ?E1, ?E2; done. Qed.

Lemma bs_bitmap (bs0 bs : list Z) :
  NoDup bs → (∀ x, x ∈ bs → x ∈ bs0 ∨ bitmap_block sb x) → (length bs ≤ length bs0 + nbitmap sb)%nat.
Proof.
  intros Hn Hin. pose proof (size_pos sb N start size Hg).
  assert (length bs ≤ length (bs0 ++ seqZ (sb_bmapstart sb) (sb_size sb / BPB + 1)))%nat as Hl.
  { apply submseteq_length, NoDup_submseteq; [done|]. intros x Hx. rewrite elem_of_app, elem_of_seqZ.
    apply Hin in Hx as [?|Hb]; [by left|right]. unfold bitmap_block, data_start in Hb. lia. }
  rewrite length_app, length_seqZ in Hl. unfold nbitmap. lia.
Qed.
Lemma freed_load v0 L v : freed v0 L v → (length (v_bs v) ≤ length (v_bs v0) + nbitmap sb)%nat.
Proof. intros Hf. apply bs_bitmap; apply Hf. Qed.

Lemma run_bfree_freed v0 L v b (Q : unit → view → Prop) :
  freed v0 L v → (load v < cap)%nat → 1 ≤ o → data_start sb ≤ b < sb_size sb → allocated sb (v_disk v0) b = true → b ∉ L →
  (∀ x, (x, b) ∉ v_held v) →
  (∀ v', freed v0 (b :: L) v' → v' = v <| v_disk := v_disk v' |> <| v_bs := v_bs v' |> → Q tt v') → run v (bfree 1 b) Q.
Proof.
  intros Hf Hl Ho Hb Ha Hni Hnh HQ. pose proof (size_pos sb N start size Hg). pose proof (fr_ok _ _ _ Hf) as Hv.
  assert (0 ≤ b < sb_size sb) as Hbr by lia.
  assert (allocated sb (v_disk v) b = true) as Hav.
  { rewrite (fr_alloc _ _ _ Hf) by done. rewrite Ha, bool_decide_false by done. done. }
  destruct (BBLOCK_eq sb N start size Hg b Hbr) as [_ Hbm]. pose proof (bitmap_range sb N start size Hg _ Hbm) as [HbN _].
  eapply (run_bfree i c me pid k0 start size o sb Hg); [done|done|done|done|done|]. apply HQ; [|done].
  change (v_disk (v_free sb v b)) with (free_disk sb (v_disk v) b).
  assert (∀ x, 0 ≤ x < sb_size sb → allocated sb (free_disk sb (v_disk v) b) x =
    allocated sb (v_disk v0) x && negb (bool_decide (x ∈ b :: L))) as Hal.
  { intros x Hx. rewrite (allocated_free sb N start size Hg) by (done || apply Hv). rewrite (fr_alloc _ _ _ Hf) by done.
    rewrite (bool_decide_ext (x ∈ b :: L) (x = b ∨ x ∈ L)) by by rewrite elem_of_cons.
    destruct (Z.eqb_spec x b) as [->|Hne]; simpl.
    - rewrite bool_decide_true by by left. by rewrite andb_false_r.
    - f_equal. f_equal. apply bool_decide_ext. naive_solver. }
  split.
  - split; [apply Hv| |apply NoDup_add_block, Hv|].
    + apply (disk_ok_bitmap sb N start size Hg); [apply Hv|done|..].
      * apply block_ok_clear_bit, (bitmap_block_ok sb N start size Hg); [apply Hv|done].
      * intros x Hx. assert (0 ≤ x < sb_size sb) by (destruct Hg; lia).
        fold (free_disk sb (v_disk v) b). rewrite (allocated_free sb N start size Hg) by (done || apply Hv).
        rewrite (dk_meta _ _ _ (vo_disk _ _ _ Hv)) by done. destruct (Z.eqb_spec x b); [lia|done].
    + intros y x Hin. destruct (vo_held _ _ _ Hv y x Hin) as [Hn Hax]. split; [done|]. intros Hx.
      change (v_disk _) with (free_disk sb (v_disk v) b).
      rewrite (allocated_free sb N start size Hg), Hax by (done || apply Hv).
      destruct (Z.eqb_spec x b) as [->|]; [|done]. by destruct (Hnh y).
  - exact Hal.
  - intros x Hx Hn. rewrite <-(fr_frame _ _ _ Hf x Hx Hn). unfold free_disk.
    change (blk_at (free_disk sb (v_disk v) b) x = blk_at (v_disk v) x). unfold free_disk.
    rewrite blk_at_set by (rewrite ?(dk_len _ _ _ (vo_disk _ _ _ Hv)); done). rewrite decide_False; [done|]. by intros ->.
  - intros x. simpl. rewrite elem_of_add_block. intros [->|Hx]; [by right|]. by apply Hf.
Qed.
Lemma freed_ext v0 L L' v : (∀ b, b ∈ L' ↔ b ∈ L) → freed v0 L v → freed v0 L' v.
Proof.
  intros HL [Hok Ha Hf Hb]. split; try done. intros b Hbr. rewrite Ha by done. f_equal. f_equal. by apply bool_decide_ext.
Qed.

(** ** [itrunc] *)

Section itrunc.
Context (v0 : view) (ip : nat) (ino : inode).
Let a := i_addrs ino.
Let D0 := v_disk v0.
Context (Hv0 : view_ok v0) (Hi : v_ic v0 !! ip = Some ino) (Hdev : i_dev ino = 1) (Hn : 0 ≤ i_inum ino < sb_ninodes sb).
Context (Ht : inode_typed ino) (Hf : file_ok sb D0 a) (Hh : v_held v0 = []).
Context (Hroom : (length (v_bs v0) + nbitmap sb + 2 ≤ cap)%nat) (Htr : 1 ≤ o).

(** The blocks of the slots below [n]. *)
Definition below (n : nat) : list Z := filter (λ b, b ≠ 0) (slot D0 a <$> seq 0 n).
Lemma elem_of_below n b : b ∈ below n ↔ b ≠ 0 ∧ ∃ s, (s < n)%nat ∧ slot D0 a s = b.
Proof.
  unfold below. rewrite list_elem_of_filter, list_elem_of_fmap. split; intros [Hb (s & H1 & H2)]; (split; [done|]); exists s.
  - apply elem_of_seq in H2. split; [lia|done].
  - split; [done|]. apply elem_of_seq. lia.
Qed.

(** A block of a slot not yet visited. *)
Lemma slot_fresh s L : (s < NSLOT)%nat → slot D0 a s ≠ 0 → (∀ b, b ∈ L → ∃ t, (t < NSLOT)%nat ∧ t ≠ s ∧ slot D0 a t = b) →
  data_start sb ≤ slot D0 a s < sb_size sb ∧ allocated sb D0 (slot D0 a s) = true ∧ slot D0 a s ∉ L.
Proof.
  intros Hs Hne HL. destruct (fo_used _ _ _ Hf s Hs Hne) as [Hr Ha]. split_and!; try done; try lia.
  intros (t & Htl & Hts & E)%HL. apply Hts. symmetry. apply (fo_inj _ _ _ Hf); congruence || done.
Qed.

(** The first [j] addresses have been handled. *)
Definition direct_done (j : nat) v : Prop :=
  freed v0 (below j) v ∧
  v = v0 <| v_disk := v_disk v |> <| v_bs := v_bs v |>
         <| v_ic := <[ip := ino <| i_addrs := replicate j 0 ++ drop j a |>]> (v_ic v0) |>.

Lemma direct_load j v : direct_done j v → (load v + 2 ≤ cap)%nat.
Proof.
  intros [Hfr Hv]. pose proof (freed_load _ _ _ Hfr). unfold load. rewrite Hv at 2. simpl. rewrite Hh. simpl. lia.
Qed.

Lemma addr_step j : (j < 13)%nat → <[j := 0]> (replicate j 0 ++ drop j a) = replicate (S j) 0 ++ drop (S j) a.
Proof.
  intros Hj. assert (j < length a)%nat by (rewrite (fo_len _ _ _ Hf); lia).
  destruct (lookup_lt_is_Some_2 a j) as [x Hx]; [done|]. rewrite (drop_S a x j Hx).
  rewrite <-(Nat.add_0_r j) at 1. rewrite insert_app_r_alt by (rewrite length_replicate; lia).
  rewrite length_replicate. replace (j + 0 - j)%nat with 0%nat by lia.
  by rewrite replicate_S_end, <-app_assoc.
Qed.

Lemma run_direct_step j v (Q : unit → view → Prop) :
  (j < 12)%nat → direct_done j v → (∀ v', direct_done (S j) v' → Q tt v') →
  run v (i ← get_inode ip;
         a ← get_or "addrs" (i_addrs i !! j);
         when (truthy a)
           (bfree (i_dev i) a ;;
            upd_inode ip (λ i, i <| i_addrs := <[j := 0]> (i_addrs i) |>))) Q.
Proof.
  intros Hj Hdd HQ. pose proof (direct_load _ _ Hdd) as Hl. destruct Hdd as [Hfr Hv].
  assert (v_ic v !! ip = Some (ino <| i_addrs := replicate j 0 ++ drop j a |>)) as Hiv.
  { rewrite Hv. simpl. apply list_lookup_insert_eq. by eapply lookup_lt_Some. }
  assert (j < length a)%nat by (rewrite (fo_len _ _ _ Hf); lia).
  destruct (lookup_lt_is_Some_2 a j) as [x Hx]; [done|].
  assert (slot D0 a j = x) as Es by (rewrite slot_direct by (unfold IND; lia); by rewrite Hx).
  eapply run_get_inode; [exact Hiv|]. apply run_bind.
  eapply run_get_or.
  { simpl. rewrite lookup_app_r by (rewrite length_replicate; lia). rewrite length_replicate, Nat.sub_diag, lookup_drop, Nat.add_0_r.
    exact Hx. }
  assert (∀ b, b ∈ below (S j) ↔ b ∈ (if truthy x then x :: below j else below j)) as HL.
  { intros b. rewrite elem_of_below. destruct (truthy x) eqn:E; [apply truthy_true in E; rewrite elem_of_cons|apply truthy_false in E]; rewrite elem_of_below.
    - split.
      + intros [Hb (s & Hs & Hsb)]. destruct (decide (s = j)) as [->|]; [left; congruence|right; split; [done|]].
        exists s. split; [lia|done].
      + intros [->|[Hb (s & Hs & Hsb)]]; [split; [done|]; exists j; split; [lia|done]|split; [done|]]. exists s. split; [lia|done].
    - split; intros [Hb (s & Hs & Hsb)]; (split; [done|]); exists s; (split; [|done]); [|lia].
      destruct (decide (s = j)) as [->|]; [congruence|lia]. }
  apply run_when; intros E.
  - rewrite E in HL. apply truthy_true in E. destruct (slot_fresh j (below j)) as (Hr & Ha & Hni).
    { unfold NSLOT. lia. } { by rewrite Es. }
    { intros b [_ (s & Hs & Hsb)]%elem_of_below. exists s. split_and!; [unfold NSLOT; lia|lia|done]. }
    rewrite Es in Hr, Ha, Hni. apply run_bind. change (i_dev (ino <| i_addrs := replicate j 0 ++ drop j a |>)) with (i_dev ino). rewrite Hdev.
    eapply run_bfree_freed; [exact Hfr|lia|done|done|done|done|by rewrite Hv; simpl; rewrite Hh; intros ? ?%not_elem_of_nil|].
    intros v' Hfr' Hv'. eapply run_upd_inode; [rewrite Hv'; exact Hiv|]. apply HQ. split.
    + eapply freed_ext; [exact HL|]. eapply freed_frame; [exact Hfr'| |done|done]. destruct (fr_ok _ _ _ Hfr'). by split.
    + rewrite Hv', Hv at 1. unfold set_inode. simpl. rewrite list_insert_insert_eq. by rewrite addr_step by lia.
  - rewrite E in HL. apply truthy_false in E. apply HQ. split; [by eapply freed_ext|].
    assert (replicate (S j) 0 ++ drop (S j) a = replicate j 0 ++ drop j a) as ->; [|done].
    rewrite <-addr_step by lia. apply list_insert_id. rewrite lookup_app_r by (rewrite length_replicate; lia).
    rewrite length_replicate, Nat.sub_diag, lookup_drop, Nat.add_0_r. congruence.
Qed.

(** ... and the first [j] entries of the indirect block. *)
Definition with_entries (j : nat) : list Z := below 12 ++ filter (λ b, b ≠ 0) (slot D0 a <$> seq 13 j).
Lemma elem_of_with_entries j b :
  b ∈ with_entries j ↔ b ≠ 0 ∧ ∃ s, (s < 12 ∨ 13 ≤ s < 13 + j)%nat ∧ slot D0 a s = b.
Proof.
  unfold with_entries. rewrite elem_of_app, elem_of_below, list_elem_of_filter, list_elem_of_fmap. split.
  - intros [[Hb (s & Hs & Hsb)]|[Hb (s & Hsb & Hs%elem_of_seq)]]; (split; [done|]); exists s; (split; [lia|done]).
  - intros [Hb (s & [Hs|Hs] & Hsb)]; [left|right]; (split; [done|]); exists s; [done|]. split; [done|]. apply elem_of_seq. lia.
Qed.

Definition entries_done (x : nat) (r : Z) (j : nat) v : Prop :=
  freed v0 (with_entries j) v ∧
  v = v0 <| v_held := [(x, r)] |> <| v_disk := v_disk v |> <| v_bs := v_bs v |>
         <| v_ic := <[ip := ino <| i_addrs := replicate 12 0 ++ drop 12 a |>]> (v_ic v0) |>.

Lemma run_entry_step x j v (Q : unit → view → Prop) :
  let r := slot D0 a IND in
  r ≠ 0 → (j < 128)%nat → entries_done x r j v → (∀ v', entries_done x r (S j) v' → Q tt v') →
  run v (when (truthy (get32 (blk_at D0 r) (4 * j))) (bfree 1 (get32 (blk_at D0 r) (4 * j)))) Q.
Proof.
  intros r Hr Hj [Hfr Hv] HQ.
  assert (slot D0 a (13 + j) = get32 (blk_at D0 r) (4 * j)) as Es.
  { rewrite slot_indirect by (unfold IND; lia). fold r. rewrite decide_False by done. by replace (13 + j - 13)%nat with j by lia. }
  rewrite <-Es. set (b := slot D0 a (13 + j)) in *.
  assert (∀ b', b' ∈ with_entries (S j) ↔ b' ∈ (if truthy b then b :: with_entries j else with_entries j)) as HL.
  { intros b'. rewrite elem_of_with_entries. destruct (truthy b) eqn:E;
      [apply truthy_true in E; rewrite elem_of_cons|apply truthy_false in E]; rewrite elem_of_with_entries.
    - split.
      + intros [Hb (s & Hs & Hsb)]. destruct (decide (s = 13 + j)%nat) as [->|]; [left; unfold b; congruence|right; split; [done|]].
        exists s. split; [lia|done].
      + intros [->|[Hb (s & Hs & Hsb)]]; [split; [done|]; exists (13 + j)%nat; split; [lia|done]|split; [done|]]. exists s. split; [lia|done].
    - split; intros [Hb (s & Hs & Hsb)]; (split; [done|]); exists s; (split; [|done]); [|lia].
      destruct (decide (s = 13 + j)%nat) as [->|]; [|lia]. unfold b in E. congruence. }
  apply run_when; intros E; rewrite E in HL.
  - apply truthy_true in E. destruct (slot_fresh (13 + j) (with_entries j)) as (Hrg & Ha & Hni); [unfold NSLOT; lia|done| |].
    { intros b' [_ (s & Hs & Hsb)]%elem_of_with_entries. exists s. split_and!; [unfold NSLOT; lia|lia|done]. }
    fold b in Hrg, Ha, Hni. eapply run_bfree_freed; [exact Hfr| |done|done|done|done| |].
    + pose proof (freed_load _ _ _ Hfr). unfold load. rewrite Hv at 2. simpl. lia.
    + rewrite Hv. simpl. intros y [= _ Eb]%list_elem_of_singleton. unfold b in Eb.
      apply (fo_inj _ _ _ Hf) in Eb; [unfold IND in Eb; lia|unfold NSLOT; lia|unfold IND, NSLOT; lia|done].
    + intros v' Hfr' Hv'. apply HQ. split; [by eapply freed_ext|]. rewrite Hv', Hv at 1. done.
  - apply HQ. split; [by eapply freed_ext|done].
Qed.

(** The inode after [itrunc]. *)
Definition emptied : inode := ino <| i_addrs := replicate 13 0 |> <| i_size := 0 |>.

Record truncated v : Prop := {
  tr_view : v = v0 <| v_disk := v_disk v |> <| v_bs := v_bs v |> <| v_ic := <[ip := emptied]> (v_ic v0) |>;
  tr_ok : view_ok v;
  tr_alloc b : 0 ≤ b < sb_size sb → allocated sb (v_disk v) b = true ↔ allocated sb D0 b = true ∧ ~ owns D0 a b;
  tr_frame b : 0 ≤ b → ~ bitmap_block sb b → b ≠ IBLOCK (i_inum ino) sb → blk_at (v_disk v) b = blk_at D0 b;
  tr_synced : synced sb (v_disk v) emptied;
  tr_others y : 0 ≤ i_inum y < sb_ninodes sb → i_inum y ≠ i_inum ino →
    decode_dinode (blk_at (v_disk v) (IBLOCK (i_inum y) sb)) y = decode_dinode (blk_at D0 (IBLOCK (i_inum y) sb)) y;
  tr_bs x : x ∈ v_bs v → x ∈ v_bs v0 ∨ bitmap_block sb x ∨ x = IBLOCK (i_inum ino) sb
}.

(** All slots are free: the inode is stored. *)
Lemma run_trunc_end L v (Q : unit → view → Prop) :
  freed v0 L v → (∀ b, b ∈ L ↔ owns D0 a b) →
  v = v0 <| v_disk := v_disk v |> <| v_bs := v_bs v |>
         <| v_ic := <[ip := ino <| i_addrs := replicate 13 0 |>]> (v_ic v0) |> →
  (∀ v', truncated v' → Q tt v') →
  run v (upd_inode ip (λ i, i <| i_size := 0 |>) ;; iupdate ip) Q.
Proof.
  intros Hfr HL Hv HQ.
  assert (v_ic v !! ip = Some (ino <| i_addrs := replicate 13 0 |>)) as Hiv.
  { rewrite Hv. simpl. apply list_lookup_insert_eq. by eapply lookup_lt_Some. }
  apply run_bind. eapply run_upd_inode; [exact Hiv|]. fold emptied. set (v1 := set_inode v ip emptied).
  assert (view_ok v1) as Hv1 by (destruct (fr_ok _ _ _ Hfr); by split).
  assert (inode_typed emptied) as Hte.
  { destruct Ht. split; try done. apply (Forall_replicate _ 13 0). unfold is_uint. lia. }
  destruct (v_iupdate_ok k0 start size sb Hg v1 emptied Hv1 Hte Hn) as (Hok & Hsy & Hbl & Hal & Hoth).
  eapply (run_iupdate i c me pid k0 start size o sb Hg _ ip emptied); [done| |done|done| | |done|].
  - simpl. apply list_lookup_insert_eq. by eapply lookup_lt_Some.
  - simpl. rewrite Hv. done.
  - pose proof (freed_load _ _ _ Hfr). unfold load. simpl. rewrite Hv at 2. simpl. rewrite Hh. simpl. lia.
  - apply HQ. change (i_inum emptied) with (i_inum ino) in *. change (v_disk v1) with (v_disk v) in *. split; try done.
    + unfold v_iupdate, v1. rewrite Hv at 1. unfold set_inode, set_disk. simpl. by rewrite list_insert_insert_eq.
    + intros b Hb. rewrite Hal, (fr_alloc _ _ _ Hfr) by done. rewrite andb_true_iff, negb_true_iff, bool_decide_eq_false, HL. done.
    + intros b Hb Hnb Hne. rewrite Hbl by done. by apply Hfr.
    + intros y Hy Hne. rewrite Hoth by done. rewrite (fr_frame _ _ _ Hfr); [done|..].
      * destruct (IBLOCK_meta k0 start size sb Hg _ Hy) as (? & _). lia.
      * by apply (IBLOCK_meta k0 start size sb Hg).
    + intros x. simpl. rewrite elem_of_add_block. intros [->|Hx]; [by right; right|].
      apply (fr_bs _ _ _ Hfr) in Hx as [?|?]; [by left|by right; left].
Qed.

(** The buffer of the indirect block [r] is held. *)
Lemma entries_start x v :
  let r := slot D0 a IND in
  r ≠ 0 → direct_done 12 v → entries_done x r 0 (v <| v_held := (x, r) :: v_held v |>).
Proof.
  intros r Hr [Hfr Hv]. pose proof (fr_ok _ _ _ Hfr) as Hvo.
  pose proof (owns_used sb N start size Hg _ _ _ Hf (owns_IND D0 a Hr)) as (Hrd & Hra & HrN & Hnbm). fold r in Hrd, Hra, HrN, Hnbm.
  pose proof (size_pos sb N start size Hg). split.
  - assert (with_entries 0 = below 12) as -> by (unfold with_entries; simpl; apply app_nil_r).
    eapply freed_frame; [exact Hfr| |done|done]. split; [apply Hvo..|].
    intros y b. simpl. rewrite elem_of_cons. intros [[= -> ->]|Hin]; [|by apply (vo_held _ _ _ Hvo) in Hin].
    split; [done|]. intros _. rewrite (fr_alloc _ _ _ Hfr) by lia. unfold D0 in Hra. rewrite Hra, bool_decide_false; [done|].
    intros [_ (s & Hs & Hsb)]%elem_of_below. apply (fo_inj _ _ _ Hf) in Hsb; [unfold IND in Hsb; lia|..].
    { unfold NSLOT. lia. } { unfold IND, NSLOT. lia. } { by rewrite Hsb. }
  - assert (v_held v = []) as Hhv by (rewrite Hv; exact Hh). rewrite Hhv. rewrite Hv at 1. done.
Qed.

(** The loop over the entries. *)
Lemma run_entries x v (Q : unit → view → Prop) :
  let r := slot D0 a IND in
  r ≠ 0 → entries_done x r 0 v → (∀ v', entries_done x r 128 v' → Q tt v') →
  run v (for_each (seq 0 (Z.to_nat NINDIRECT)) (λ j,
    let a := get32 (blk_at D0 r) (4 * j) in when (truthy a) (bfree 1 a))) Q.
Proof.
  intros r Hr Hst HQ.
  eapply (run_for_each i c me pid k0 start size o (λ l v', ∃ j, l = seq j (128 - j) ∧ (j ≤ 128)%nat ∧ entries_done x r j v')).
  - exists 0%nat. split; [done|]. split; [lia|done].
  - intros j l' v1 (j' & El & Hj' & Hed). assert (128 - j' = S (127 - j'))%nat as Ej.
    { destruct (decide (j' = 128)%nat) as [->|]; [done|lia]. }
    rewrite Ej in El. injection El as -> ->. eapply run_entry_step; [done|lia|exact Hed|].
    intros v2 Hed2. exists (S j'). split; [f_equal; lia|]. split; [lia|done].
  - intros v1 (j & El & Hj & Hed). assert (j = 128)%nat as ->; [|by apply HQ].
    destruct (decide (j = 128)%nat); [done|]. destruct (128 - j)%nat eqn:Ej; [lia|done].
Qed.

(** The indirect block itself, after its entries. *)
Lemma run_trunc_indirect v (rest : K unit) (Q : unit → view → Prop) :
  direct_done 12 v →
  (∀ v' L, freed v0 L v' → (∀ b, b ∈ L ↔ owns D0 a b) →
     v' = v0 <| v_disk := v_disk v' |> <| v_bs := v_bs v' |>
            <| v_ic := <[ip := ino <| i_addrs := replicate 13 0 |>]> (v_ic v0) |> → run v' rest Q) →
  run v (i ← get_inode ip;
         a ← get_or "addrs" (aget (i_addrs i) NDIRECT);
         when (truthy a)
           (bp ← bread (i_dev i) a;
            d ← get_data bp;
            for_each (seq 0 (Z.to_nat NINDIRECT)) (λ j,
              let a := get32 d (4 * j) in
              when (truthy a) (bfree (i_dev i) a)) ;;
            brelse bp ;;
            bfree (i_dev i) a ;;
            upd_inode ip (λ i, i <| i_addrs := <[Z.to_nat NDIRECT := 0]> (i_addrs i) |>)) ;;
         rest) Q.
Proof.
  intros Hdd HQ. pose proof (direct_load _ _ Hdd) as Hl. pose proof Hdd as [Hfr Hv].
  assert (v_ic v !! ip = Some (ino <| i_addrs := replicate 12 0 ++ drop 12 a |>)) as Hiv.
  { rewrite Hv. simpl. apply list_lookup_insert_eq. by eapply lookup_lt_Some. }
  assert (v_held v = []) as Hhv by (rewrite Hv; exact Hh).
  destruct (lookup_lt_is_Some_2 a 12) as [r Hr]; [rewrite (fo_len _ _ _ Hf); lia|].
  assert (slot D0 a IND = r) as Es by (rewrite slot_direct by done; unfold IND; by rewrite Hr).
  assert (drop 12 a = [r]) as Ed.
  { rewrite (drop_S a r 12 Hr). rewrite drop_ge; [done|]. rewrite (fo_len _ _ _ Hf). lia. }
  eapply run_get_inode; [exact Hiv|]. apply run_bind. rewrite Ed in Hv |- *.
  eapply run_get_or; [reflexivity|]. change (i_dev (ino <| i_addrs := ?l |>)) with (i_dev ino). rewrite Hdev.
  apply run_bind. apply run_when; intros E; [apply truthy_true in E|apply truthy_false in E].
  2: { eapply HQ; [exact Hfr| |rewrite Hv at 1; by rewrite E].
       intros b. rewrite elem_of_below. split; intros [Hb (s & Hs & Hsb)]; (split; [done|]); exists s; (split; [|done]).
       - unfold NSLOT. lia.
       - destruct (decide (s < 12)%nat); [done|]. destruct Hb. rewrite <-Hsb. destruct (decide (s = IND)) as [->|]; [congruence|].
         rewrite slot_indirect by (unfold IND in *; lia). by rewrite decide_True by congruence. }
  pose proof (owns_used sb N start size Hg _ _ _ Hf (owns_IND D0 a ltac:(by rewrite Es))) as (Hrd & Hra & HrN & Hnbm).
  rewrite Es in Hrd, Hra, HrN, Hnbm. pose proof (size_pos sb N start size Hg). pose proof (fr_ok _ _ _ Hfr) as Hvo.
  apply run_bread; [apply (home_of k0 start size sb Hg); destruct Hg; unfold data_start in *; fold N; lia| |lia|].
  { rewrite Hhv. apply not_elem_of_nil. }
  intros x. eapply run_get_data; [left|apply (disk_lookup sb N); [apply Hvo|done]|].
  change (v_disk (v <| v_held := _ |>)) with (v_disk v). rewrite (fr_frame _ _ _ Hfr) by (done || lia).
  apply run_bind. rewrite <-Es in E |- *. eapply run_entries; [done|by apply entries_start|].
  intros v1 [Hfr1 Hv1]. apply run_bind. eapply run_brelse; [by rewrite Hv1|]. set (v2 := v1 <| v_held := [] |>).
  assert (freed v0 (with_entries 128) v2) as Hfr2.
  { eapply freed_frame; [exact Hfr1| |done|done]. split; [apply (fr_ok _ _ _ Hfr1)..|]. by intros ? ? ?%not_elem_of_nil. }
  apply run_bind. eapply run_bfree_freed; [exact Hfr2| |done|by rewrite Es|by rewrite Es| |by intros ? ?%not_elem_of_nil|].
  { pose proof (freed_load _ _ _ Hfr2) as Hlb. change (v_bs v2) with (v_bs v1) in Hlb. unfold load. simpl. lia. }
  { intros [_ (s & Hs & Hsb)]%elem_of_with_entries. symmetry in Hsb. apply (fo_inj _ _ _ Hf) in Hsb; [unfold IND in Hsb; lia|..].
    { unfold IND, NSLOT. lia. } { unfold NSLOT. lia. } { done. } }
  intros v3 Hfr3 Hv3.
  assert (v_ic v3 !! ip = Some (ino <| i_addrs := replicate 12 0 ++ [r] |>)) as Hi3.
  { rewrite Hv3. simpl. rewrite Hv1. simpl. rewrite Ed. apply list_lookup_insert_eq. by eapply lookup_lt_Some. }
  eapply run_upd_inode; [exact Hi3|]. eapply HQ.
  - eapply freed_frame; [exact Hfr3| |done|done]. destruct (fr_ok _ _ _ Hfr3). by split.
  - intros b. rewrite elem_of_cons, elem_of_with_entries. split.
    + intros [->|[Hb (s & Hs & Hsb)]]; [by apply owns_IND|split; [done|]]. exists s. split; [unfold NSLOT; lia|done].
    + intros [Hb (s & Hs & Hsb)]. destruct (decide (s = IND)) as [->|]; [by left|right; split; [done|]]. exists s.
      unfold NSLOT, IND in *. split; [lia|done].
  - unfold v2 in Hv3. rewrite Hv3 at 1. rewrite Hv1 at 1. unfold set_inode. simpl. by rewrite list_insert_insert_eq, <-Hh.
Qed.

Lemma run_itrunc (Q : unit → view → Prop) : (∀ v, truncated v → Q tt v) → run v0 (itrunc ip) Q.
Proof.
  intros HQ. unfold itrunc. apply run_bind.
  eapply (run_for_each i c me pid k0 start size o (λ l v', ∃ j, l = seq j (12 - j) ∧ (j ≤ 12)%nat ∧ direct_done j v')).
  - exists 0%nat. split; [done|]. split; [lia|]. split; [by apply freed_nil|]. simpl. unfold a. rewrite drop_0.
    by apply set_map_id.
  - intros j l' v1 (j' & El & Hj' & Hed). assert (12 - j' = S (11 - j'))%nat as Ej.
    { destruct (decide (j' = 12)%nat) as [->|]; [done|lia]. }
    rewrite Ej in El. injection El as -> ->. eapply run_direct_step; [lia|exact Hed|].
    intros v2 Hed2. exists (S j'). split; [f_equal; lia|]. split; [lia|done].
  - intros v1 (j & El & Hj & Hed). assert (j = 12)%nat as ->.
    { destruct (decide (j = 12)%nat); [done|]. destruct (12 - j)%nat eqn:Ej; [lia|done]. }
    eapply run_trunc_indirect; [exact Hed|]. intros v2 L Hfr HL Hv2. by eapply run_trunc_end.
Qed.
End itrunc.

(** ** [iput] *)

(** The inode has links or other references: only the count changes. *)
Lemma run_iput_keep v ip ino (Q : unit → view → Prop) :
  v_ic v !! ip = Some ino → (ip < NINODE)%nat → ip ∉ v_locked v →
  i_valid ino = 0 ∨ i_nlink ino ≠ 0 ∨ i_ref ino ≠ 1 →
  Q tt (set_inode v ip (ino <| i_ref := i_ref ino - 1 |>)) → run v (iput ip) Q.
Proof.
  intros Hi Hip Hnl Hc HQ. unfold iput. apply run_bind. apply run_acquiresleep; [done|done|].
  set (v1 := v <| v_locked := _ |>). eapply run_get_inode; [exact Hi|]. apply run_bind.
  assert (∀ (Q' : unit → view → Prop), Q' tt v1 → run v1 (when (truthy (i_valid ino) && (i_nlink ino =? 0))
     (acquire LIcache ;; x ← get_inode ip; let r := i_ref x in release LIcache ;;
      when (r =? 1) (itrunc ip ;; upd_inode ip (λ i, i <| i_type := 0 |>) ;; iupdate ip ;;
        upd_inode ip (λ i, i <| i_valid := 0 |>)))) Q') as Hw.
  { intros Q' HQ'. apply run_when; intros E; [|done]. apply andb_true_iff in E as [Ev%truthy_true En%Z.eqb_eq].
    eapply run_icache_get; [exact Hi|]. apply run_when; intros Er%Z.eqb_eq || intros _; [|done]. naive_solver. }
  apply Hw. apply run_bind. apply run_releasesleep; [done|].
  eapply run_icache_upd_end; [exact Hi|].
  replace (set_inode _ ip _) with (set_inode v ip (ino <| i_ref := i_ref ino - 1 |>)); [done|].
  unfold set_inode, v1. simpl. assert (({[ip]} ∪ v_locked v) ∖ {[ip]} = v_locked v) as -> by set_solver. by destruct v.
Qed.

(** The last reference to an inode without links: its blocks are free and the
    inode on the disk is free ([type] 0). *)
Record put_away v0 (ip : nat) (ino : inode) v : Prop := {
  pa_view : v = v0 <| v_disk := v_disk v |> <| v_bs := v_bs v |>
    <| v_ic := <[ip := emptied ino <| i_type := 0 |> <| i_valid := 0 |> <| i_ref := 0 |>]> (v_ic v0) |>;
  pa_ok : view_ok v;
  pa_alloc b : 0 ≤ b < sb_size sb →
    allocated sb (v_disk v) b = true ↔ allocated sb (v_disk v0) b = true ∧ ~ owns (v_disk v0) (i_addrs ino) b;
  pa_frame b : 0 ≤ b → ~ bitmap_block sb b → b ≠ IBLOCK (i_inum ino) sb → blk_at (v_disk v) b = blk_at (v_disk v0) b;
  pa_type : i_type (decode_dinode (blk_at (v_disk v) (IBLOCK (i_inum ino) sb)) ino) = 0;
  pa_others y : 0 ≤ i_inum y < sb_ninodes sb → i_inum y ≠ i_inum ino →
    decode_dinode (blk_at (v_disk v) (IBLOCK (i_inum y) sb)) y =
    decode_dinode (blk_at (v_disk v0) (IBLOCK (i_inum y) sb)) y
}.

Lemma run_iput_free v0 ip ino (Q : unit → view → Prop) :
  view_ok v0 → v_ic v0 !! ip = Some ino → i_dev ino = 1 → 0 ≤ i_inum ino < sb_ninodes sb → inode_typed ino →
  file_ok sb (v_disk v0) (i_addrs ino) → v_held v0 = [] → (length (v_bs v0) + nbitmap sb + 2 ≤ cap)%nat → 1 ≤ o →
  (ip < NINODE)%nat → ip ∉ v_locked v0 → i_valid ino ≠ 0 → i_nlink ino = 0 → i_ref ino = 1 →
  (∀ v, put_away v0 ip ino v → Q tt v) → run v0 (iput ip) Q.
Proof.
  intros Hv0 Hi Hdev Hn Ht Hf Hh Hroom Htr Hip Hnl Hvl Hlk Href HQ. unfold iput. apply run_bind. apply run_acquiresleep; [done|done|].
  set (v1 := v0 <| v_locked := _ |>). assert (view_ok v1) as Hv1 by (destruct Hv0; by split).
  eapply run_get_inode; [exact Hi|]. apply run_bind. rewrite Hlk.
  assert (truthy (i_valid ino) && (0 =? 0) = true) as -> by by rewrite (proj2 (truthy_true _) Hvl). cbn [when].
  eapply run_icache_get; [exact Hi|]. rewrite Href. cbn [when Z.eqb Pos.eqb].
  apply run_bind. eapply (run_itrunc v1 ip ino); try done. intros v2 Htc.
  pose proof (tr_view _ _ _ _ Htc) as E2.
  assert (v_ic v2 !! ip = Some (emptied ino)) as Hi2 by (rewrite E2; apply list_lookup_insert_eq; by eapply lookup_lt_Some).
  apply run_bind. eapply run_upd_inode; [exact Hi2|]. set (e := emptied ino <| i_type := 0 |>). set (v3 := set_inode v2 ip e).
  assert (view_ok v3) as Hv3 by (destruct (tr_ok _ _ _ _ Htc); by split).
  assert (inode_typed e) as Hte.
  { destruct Ht. split; try done. apply (Forall_replicate _ 13 0). unfold is_uint. lia. }
  destruct (v_iupdate_ok k0 start size sb Hg v3 e Hv3 Hte Hn) as (Hok & Hsy & Hbl & Hal & Hoth).
  change (i_inum e) with (i_inum ino) in *. change (v_disk v3) with (v_disk v2) in *.
  assert (v_ic v3 !! ip = Some e) as Hi3 by (apply list_lookup_insert_eq; by eapply lookup_lt_Some).
  apply run_bind. eapply (run_iupdate i c me pid k0 start size o sb Hg _ ip e); [done|exact Hi3|done|done| | |done|].
  { simpl. rewrite E2. exact Hh. }
  { assert (length (v_bs v2) ≤ length (v_bs v0 ++ [IBLOCK (i_inum ino) sb]) + nbitmap sb)%nat as Hl.
    { apply bs_bitmap; [apply (tr_ok _ _ _ _ Htc)|]. intros x Hx. rewrite elem_of_app, list_elem_of_singleton.
      apply (tr_bs _ _ _ _ Htc) in Hx as [?|[?|?]]; tauto. }
    rewrite length_app in Hl. unfold load. simpl in *. rewrite E2 at 2. simpl. rewrite Hh. simpl. lia. }
  eapply run_upd_inode; [exact Hi3|]. apply run_bind. apply run_releasesleep; [done|].
  eapply run_icache_upd_end; [apply list_lookup_insert_eq; by eapply lookup_lt_Some|]. apply HQ.
  set (v4 := v_iupdate sb v3 e) in *.
  split.
  - unfold v4, v_iupdate, v3. rewrite E2. unfold set_inode, set_disk, v1, e. simpl. rewrite !list_insert_insert_eq, Href.
    assert (({[ip]} ∪ v_locked v0) ∖ {[ip]} = v_locked v0) as -> by set_solver. by destruct v0.
  - destruct Hok as [O1 O2 O3 O4]. by split.
  - intros b Hb. etrans; [|apply (tr_alloc _ _ _ _ Htc b Hb)]. by rewrite <-(Hal b Hb).
  - intros b Hb Hnb Hne. etrans; [by apply (Hbl b Hb Hne)|]. by apply (tr_frame _ _ _ _ Htc).
  - change (i_type (decode_dinode (blk_at (v_disk v4) (IBLOCK (i_inum ino) sb)) e) = 0).
    exact (f_equal i_type Hsy).
  - intros y Hy Hne. etrans; [by apply Hoth|]. by apply (tr_others _ _ _ _ Htc).
Qed.
End trunc.
