(* ===== verification/FsPath.v ===== *)
(** * FsPath: what a path name means

    The elements of a path, the entries of a directory, and the inode that a path
    leads to on a disk: the contract of [skipelem], [dirlookup] and [namex]. *)
From S2P Require Import Prelude.
From S2P Require Import Mem.
From S2P Require Import Str.
From S2P Require Import State.
From S2P Require Import Spin.
From S2P Require Import Boot.
From S2P Require Import Cons.
From S2P Require Import Kalloc.
From S2P Require Import Vm.
From S2P Require Import Mlq.
From S2P Require Import Proc.
From S2P Require Import Blk.
From S2P Require Import Bio.
From S2P Require Import Log.
From S2P Require Import Txn.
From S2P Require Import Fs.
From S2P Require Import FsLogic.
From S2P Require Import FsDisk.
From S2P Require Import FsMap.
From S2P Require Import FsAlloc.
From S2P Require Import FsInode.
From S2P Require Import FsFile.

(** ** Elements *)

(** The parts of a path between its slashes. *)
Fixpoint fields (p : list Z) : list (list Z) :=
  match p with
  | [] => [[]]
  | c :: p' =>
      if c =? SLASH then [] :: fields p'
      else match fields p' with f :: fs => (c :: f) :: fs | [] => [[c]] end
  end.
Definition names (fs : list (list Z)) : list (list Z) := take DIRSIZ <$> filter (λ f, f ≠ []) fs.
Definition elems (p : list Z) : list (list Z) := names (fields p).

Lemma elems_slash p : elems (SLASH :: p) = elems p.
Proof. done. Qed.
Lemma elems_skip p : elems (skip_slashes p) = elems p.
Proof.
  induction p as [|c p IH]; [done|]. simpl. destruct (Z.eqb_spec c SLASH) as [->|]; [|done].
  by rewrite elems_slash.
Qed.
Lemma length_skip p : (length (skip_slashes p) ≤ length p)%nat.
Proof. induction p as [|c p IH]; [done|]. simpl. case_match; simpl; lia. Qed.
Lemma skip_head c p q : skip_slashes p = c :: q → c ≠ SLASH.
Proof. induction p as [|d p IH]; [done|]. simpl. destruct (Z.eqb_spec d SLASH); naive_solver. Qed.
Lemma skip_incl p x : x ∈ skip_slashes p → x ∈ p.
Proof. induction p as [|c p IH]; [done|]. simpl. case_match; [|done]. intros Hx. right. by apply IH. Qed.

Lemma take_elem_fields p e rest :
  take_elem p = (e, rest) → p = e ++ rest ∧ ∃ fs, fields p = e :: fs ∧ elems rest = names fs.
Proof.
  revert e rest. induction p as [|c p IH]; intros e rest; simpl; [intros [= <- <-]; split; [done|by exists []]|].
  destruct (Z.eqb_spec c SLASH) as [->|Hc].
  - intros [= <- <-]. split; [done|]. by exists (fields p).
  - destruct (take_elem p) as [e' r'] eqn:E. intros [= <- <-]. destruct (IH _ _ eq_refl) as (-> & fs & -> & Hr).
    split; [done|]. by exists fs.
Qed.
Lemma take_elem_elems c p e rest :
  c ≠ SLASH → take_elem (c :: p) = (e, rest) → e ≠ [] ∧ elems (c :: p) = take DIRSIZ e :: elems rest.
Proof.
  intros Hc H. assert (e ≠ []) as He.
  { simpl in H. destruct (Z.eqb_spec c SLASH); [done|]. by destruct (take_elem p); simplify_eq. }
  split; [done|]. apply take_elem_fields in H as (_ & fs & Hf & ->). unfold elems, names. rewrite Hf.
  by rewrite filter_cons_True.
Qed.

(** [skipelem] splits off the first element. *)
Lemma skipelem_elems p :
  match skipelem p with
  | None => elems p = []
  | Some (n, rest) => elems p = n :: elems rest ∧ (length rest < length p)%nat ∧ (rest = [] ↔ elems rest = []) ∧
      (∀ x, x ∈ n → x ∈ p) ∧ (∀ x, x ∈ rest → x ∈ p)
  end.
Proof.
  unfold skipelem. destruct (skip_slashes p) as [|c q] eqn:E.
  { by rewrite <-elems_skip, E. }
  pose proof (skip_head _ _ _ E) as Hc. destruct (take_elem (c :: q)) as [e rest] eqn:Et.
  destruct (take_elem_elems _ _ _ _ Hc Et) as [He Hel]. destruct (take_elem_fields _ _ _ Et) as [Happ _].
  assert (∀ x, x ∈ e ++ rest → x ∈ p) as Hin by (intros x; rewrite <-Happ, <-E; apply skip_incl).
  split_and!.
  - by rewrite elems_skip, <-Hel, <-E, elems_skip.
  - pose proof (length_skip p) as Hl. rewrite E, Happ, length_app in Hl. pose proof (length_skip rest).
    destruct e; [done|]. simpl in Hl. lia.
  - split; [by intros ->|]. destruct (skip_slashes rest) as [|d r] eqn:Er; [done|]. intros H.
    destruct (take_elem (d :: r)) as [e' r'] eqn:Et'. apply skip_head in Er.
    destruct (take_elem_elems _ _ _ _ Er Et') as [_ Hx]. by rewrite Hx in H.
  - intros x Hx. apply Hin, elem_of_app. left. by eapply subseteq_take.
  - intros x Hx%skip_incl. apply Hin, elem_of_app. by right.
Qed.

(** ** Directories *)

Definition same_name (name : list Z) (de : list Z) : bool :=
  bool_decide (Str.cut DIRSIZ (name ++ [0]) = Str.cut DIRSIZ (de_name de)).
(** The first entry in use with the name: its offset and its inode. *)
Fixpoint find_entry (name : list Z) (off : Z) (es : list (list Z)) : option (Z * Z) :=
  match es with
  | [] => None
  | e :: es =>
      if negb (de_inum e =? 0) && same_name name e then Some (off, de_inum e)
      else find_entry name (off + DIRENT_SIZE) es
  end.

Section dir.
Context (sb : superblock).
Implicit Types D : list (list Z).

(** Inode [n] of the disk. *)
Definition dinode D (n : Z) : inode := decode_dinode (blk_at D (IBLOCK n sb)) (zero_inode <| i_inum := n |>).
Definition is_dir D (n : Z) : bool := i_type (dinode D n) =? T_DIR.

Definition entries D (a : list Z) (size : Z) : list (list Z) :=
  (λ j, fbytes D a (DIRENT_SIZE * j) DIRENT_SIZE) <$> seqZ 0 (size / DIRENT_SIZE).
Definition dir_entries D (n : Z) : list (list Z) := entries D (i_addrs (dinode D n)) (i_size (dinode D n)).
Definition dir_lookup D (n : Z) (name : list Z) : option Z := snd <$> find_entry name 0 (dir_entries D n).

(** The inode that a list of names leads to from inode [n]. *)
Fixpoint resolve D (n : Z) (ns : list (list Z)) : option Z :=
  match ns with
  | [] => Some n
  | x :: ns => if is_dir D n then match dir_lookup D n x with Some m => resolve D m ns | None => None end else None
  end.
(** The directory that the last name is in, or is to be put in. *)
Definition resolve_parent D (n : Z) (ns : list (list Z)) : option Z :=
  match ns with
  | [] => None
  | _ => resolve D n (removelast ns) ≫= λ m, if is_dir D m then Some m else None
  end.
Definition found (parent : bool) D (n : Z) (ns : list (list Z)) : option Z :=
  if parent then resolve_parent D n ns else resolve D n ns.

Lemma found_cons parent D n x ns :
  found parent D n (x :: ns) =
    if is_dir D n then
      if parent && bool_decide (ns = []) then Some n else dir_lookup D n x ≫= λ m, found parent D m ns
    else None.
Proof.
  destruct parent, ns as [|y ns]; simpl; destruct (is_dir D n) eqn:E; simpl; rewrite ?E; try done;
    by destruct (dir_lookup D n x).
Qed.

(** Directories whose entries name inodes that are in use. *)
Record dir_ok D (n : Z) : Prop := {
  do_file : file_ok sb D (i_addrs (dinode D n));
  do_size : i_size (dinode D n) ≤ MAXFILE * BSIZE;
  do_full j : 0 ≤ j < i_size (dinode D n) → fblk D (i_addrs (dinode D n)) j ≠ 0;
  do_entries : i_size (dinode D n) mod DIRENT_SIZE = 0;
  do_named e : e ∈ dir_entries D n → de_inum e ≠ 0 →
    0 ≤ de_inum e < sb_ninodes sb ∧ i_type (dinode D (de_inum e)) ≠ 0 ∧ i_nlink (dinode D (de_inum e)) ≠ 0
}.
Definition tree_ok D : Prop := ∀ n, 0 ≤ n < sb_ninodes sb → is_dir D n = true → dir_ok D n.

Lemma find_entry_in name off es o m :
  find_entry name off es = Some (o, m) → ∃ e, e ∈ es ∧ de_inum e = m ∧ m ≠ 0.
Proof.
  revert off. induction es as [|e es IH]; intros off; simpl; [done|].
  destruct (Z.eqb_spec (de_inum e) 0); simpl.
  - intros (x & Hx & ?)%IH. exists x. split; [by right|done].
  - case_match; [intros [= <- <-]; exists e; split; [left|done]|].
    intros (x & Hx & ?)%IH. exists x. split; [by right|done].
Qed.
Lemma dir_lookup_ok D n name m :
  dir_ok D n → dir_lookup D n name = Some m →
  0 ≤ m < sb_ninodes sb ∧ i_type (dinode D m) ≠ 0 ∧ i_nlink (dinode D m) ≠ 0.
Proof.
  intros Hd ([o m'] & Hf & ->)%fmap_Some. simpl.
  apply find_entry_in in Hf as (e & He & <- & Hne). by apply (do_named _ _ Hd).
Qed.
End dir.

Lemma entries_from D a s off :
  0 ≤ off → s mod DIRENT_SIZE = 0 → off mod DIRENT_SIZE = 0 → off < s →
  drop (Z.to_nat (off / DIRENT_SIZE)) (entries D a s) =
    fbytes D a off DIRENT_SIZE :: drop (Z.to_nat ((off + DIRENT_SIZE) / DIRENT_SIZE)) (entries D a s).
Proof.
  intros H0 Hs Hof Hlt. unfold entries, DIRENT_SIZE in *.
  assert (off = 16 * (off / 16)) as E by (Z.div_mod_to_equations; lia).
  replace (Z.to_nat ((off + 16) / 16)) with (S (Z.to_nat (off / 16))) by (Z.div_mod_to_equations; lia).
  assert (seqZ 0 (s / 16) !! Z.to_nat (off / 16) = Some (off / 16)) as Hl.
  { rewrite lookup_seqZ_lt by (Z.div_mod_to_equations; lia). f_equal. Z.div_mod_to_equations; lia. }
  rewrite (drop_S _ (fbytes D a off 16) (Z.to_nat (off / 16))); [done|].
  rewrite list_lookup_fmap, Hl. simpl. by rewrite <-E.
Qed.
