(* ===== verification/FsOp.v ===== *)
(** * FsOp: whole operations on files ([ilock], [iunlock], [filewrite], [fileread])

    An operation starts and ends with no transaction open and no inode locked.
    [filewrite] writes in pieces, each a transaction of its own; [fileread] needs
    no transaction. *)
From S2P Require Import Prelude.
From S2P Require Import Mem.
From S2P Require Import State.
From S2P Require Import Spin.
From S2P Require Import Cons.
From S2P Require Import Kalloc.
From S2P Require Import Vm.
From S2P Require Import Mlq.
From S2P Require Import Proc.
From S2P Require Import Pipe.
From S2P Require Import Blk.
From S2P Require Import Bio.
From S2P Require Import BioSpec.
From S2P Require Import Cache.
From S2P Require Import Log.
From S2P Require Import LogSpec.
From S2P Require Import Txn.
From S2P Require Import Fs.
From S2P Require Import File.
From S2P Require Import FsLogic.
From S2P Require Import FsDisk.
From S2P Require Import FsMap.
From S2P Require Import FsAlloc.
From S2P Require Import FsInode.
From S2P Require Import FsFile.

(** ** Locking an inode *)

Section locking.
Context (i : nat) (c : cpu) (me : nat) (pid : Z) (k0 : kernel) (start size o : Z) (sb : superblock).
Let N := length (k_disk k0).
Context (Hg : geometry sb N start size).
Implicit Types (v : view).
Local Notation run := (run i c me pid k0 start size o).
Local Notation cap := (cap size).
Local Notation view_ok := (view_ok k0 sb).

(** The inode [ilock] leaves in memory. *)
Definition loaded D (ino : inode) : inode :=
  if i_valid ino =? 0 then decode_dinode (blk_at D (IBLOCK (i_inum ino) sb)) ino <| i_valid := 1 |> else ino.

Lemma run_ilock v ip ino (Q : unit → view → Prop) :
  view_ok v → v_ic v !! ip = Some ino → (ip < NINODE)%nat → ip ∉ v_locked v → 1 ≤ i_ref ino →
  i_dev ino = 1 → 0 ≤ i_inum ino < sb_ninodes sb → v_held v = [] → (load v < cap)%nat →
  (i_valid ino = 0 → i_type (loaded (v_disk v) ino) ≠ 0) →
  Q tt (set_inode (v <| v_locked := {[ip]} ∪ v_locked v |>) ip (loaded (v_disk v) ino)) → run v (ilock ip) Q.
Proof.
  intros Hv Hi Hn Hnl Hr Hd Hin Hh Hl Hty HQ. unfold ilock. eapply run_get_inode; [done|].
  destruct (Z.ltb_spec (i_ref ino) 1); [lia|]. apply run_bind. eapply run_acquiresleep; [done|done|].
  set (v1 := v <| v_locked := _ |>) in *. unfold ilock_load. eapply run_get_inode; [done|].
  unfold loaded in *. destruct (Z.eqb_spec (i_valid ino) 0) as [E0|E0]; cbn [when].
  - apply run_sb. change (v_sb v1) with (v_sb v). rewrite (vo_sb _ _ _ Hv), Hd.
    destruct (IBLOCK_meta k0 start size sb Hg _ Hin) as (Hrg & _ & _ & Hho).
    apply run_bread; [done|change (v_held v1) with (v_held v); rewrite Hh; apply not_elem_of_nil|done|]. intros x.
    eapply run_get_data; [left|apply (disk_lookup sb N); [apply Hv|done]|].
    apply run_bind. eapply run_upd_inode; [done|]. apply run_bind. eapply run_brelse; [done|].
    apply run_bind. eapply run_upd_inode; [simpl; apply list_lookup_insert_eq; by eapply lookup_lt_Some|].
    set (i1 := decode_dinode _ _).
    match goal with |- FsLogic.run _ _ _ _ _ _ _ _ ?w _ _ => assert (w = set_inode v1 ip (i1 <| i_valid := 1 |>)) as -> end.
    { unfold set_inode. destruct v. simpl. by rewrite list_insert_insert_eq. }
    eapply run_get_inode; [simpl; apply list_lookup_insert_eq; by eapply lookup_lt_Some|].
    apply run_when; intros Hc; [|exact HQ]. apply Z.eqb_eq in Hc. by destruct (Hty E0).
  - apply run_ret. unfold set_inode in HQ. by rewrite list_insert_id in HQ.
Qed.

Lemma run_iunlock v ip ino (Q : unit → view → Prop) :
  v_ic v !! ip = Some ino → (ip < NINODE)%nat → ip ∈ v_locked v → 1 ≤ i_ref ino →
  Q tt (v <| v_locked := v_locked v ∖ {[ip]} |>) → run v (iunlock ip) Q.
Proof.
  intros Hi Hn Hl Hr HQ. unfold iunlock. apply run_holdingsleep; [done|done|]. eapply run_get_inode; [done|].
  destruct (Z.ltb_spec (i_ref ino) 1); [lia|]. cbn [negb orb]. by apply run_releasesleep.
Qed.

(** The file table. *)
Lemma run_get_file {B} v f x (g : file → K B) Q :
  v_ft v !! f = Some x → run v (g x) Q → run v (bind (get_file f) g) Q.
Proof. intros Hf Hr k Hk. unfold get_file, bind, gets. rewrite (fv_ft _ _ _ _ _ _ _ _ _ _ Hk), Hf. by apply Hr. Qed.
Lemma run_upd_file v f x g (Q : unit → view → Prop) :
  v_ft v !! f = Some x → Q tt (v <| v_ft := <[f := g x]> (v_ft v) |>) → run v (upd_file f g) Q.
Proof.
  intros Hf HQ k Hk. eexists tt, _, (k <| k_ftable := <[f := g x]> (k_ftable k) |>).
  destruct Hk as [Ht Hic Hsb Hft Hl]. split; [|split; [|exact HQ]].
  - unfold upd_file, modify. by rewrite (alter_lookup _ _ _ x) by by rewrite Hft.
  - split; try done; simpl; [|by rewrite Hft|by destruct Hl]. by eapply txn_frame.
Qed.
End locking.

(** ** From and to the state between operations *)

Section operation.
Context (i : nat) (c : cpu) (me : nat) (pid start size : Z).
Implicit Types (k : kernel) (v : view).

Definition view0 k : view := mkView [] (k_disk k) [] (k_icache k) ∅ (k_sb k) (k_ftable k).

(** No operation is in progress and the disk is in order. *)
Record fs_idle k : Prop := {
  fi_idle : idle i c me pid start size k;
  fi_locks : inode_locks pid ∅ k;
  fi_layout : layout_ok k start size;
  fi_geo : geometry (k_sb k) (length (k_disk k)) start size;
  fi_disk : disk_ok (k_sb k) (length (k_disk k)) (k_disk k)
}.

Lemma view0_ok k : fs_idle k → view_ok k (k_sb k) (view0 k).
Proof. intros Hk. split; [done|apply Hk|apply NoDup_nil_2|]. by intros x b ?%not_elem_of_nil. Qed.

Lemma begin_view k : fs_idle k → ∃ k1, begin_op k = Ret tt k1 ∧ fsv i c me pid k start size 1 (view0 k) k1.
Proof.
  intros Hk. destruct (begin_op_ret i c me pid start size k (fi_idle _ Hk)) as (k1 & Hr & Ht & He). exists k1.
  split; [done|]. split; [done|by rewrite He..|]. destruct (fi_locks _ Hk). rewrite He. by split.
Qed.
(** Reading needs no transaction. *)
Lemma idle_view k : fs_idle k → fsv i c me pid k start size 0 (view0 k) k.
Proof.
  intros Hk. destruct (fi_idle _ Hk) as [He Hi Hcl Hl Hlg Har Hhd]. split; [|done|done|done|apply Hk].
  split; try done; simpl.
  - by intros b ?%not_elem_of_nil.
  - apply NoDup_nil_2.
  - intros blk d. split; [by intros ?%Hcl|by intros [?%not_elem_of_nil _]].
  - apply NoDup_nil_2.
  - by intros x blk ?%not_elem_of_nil.
Qed.
Lemma view_idle k v k' :
  fs_idle k → fsv i c me pid k start size 0 v k' → v_held v = [] → v_bs v = [] → v_locked v = ∅ → v_sb v = k_sb k →
  fs_idle k' ∧ k_disk k' = k_disk k ∧ k_writes k' = k_writes k ∧ k_sb k' = k_sb k.
Proof.
  intros Hk [Ht Hic Hsb Hft Hl] Hh Hb Hlk Hvs. pose proof Ht as [He Hi Hlo Hlg Har Htk Hho Hnd Hd Hw Hlen Hdi Hcl Hhn Hhe].
  rewrite Hh in Hi. rewrite Hb in Hlg, Hdi. rewrite Hsb, Hvs, Hd.
  split; [|done]. split; rewrite ?Hsb, ?Hvs, ?Hd; try apply Hk; [|by rewrite Hlk in Hl|].
  - split; try done.
    + intros blk d. rewrite Hdi. by intros [?%not_elem_of_nil _].
    + rewrite Hd. apply (fi_idle _ Hk).
  - unfold layout_ok. rewrite Hd. apply Hk.
Qed.

Lemma home_fs k b :
  fs_idle k → sb_inodestart (k_sb k) ≤ b < Z.of_nat (length (k_disk k)) → home k start size b.
Proof. intros Hk Hb. apply (home_of k start size (k_sb k)); [apply Hk|done]. Qed.

(** [end_op] makes the disk of the view the real one. *)
Lemma end_view k v k1 :
  fs_idle k → fsv i c me pid k start size 1 v k1 → view_ok k (k_sb k) v → v_held v = [] → v_locked v = ∅ →
  (length (v_bs v) ≤ 28)%nat → Z.of_nat (length (v_bs v)) < size →
  ∃ k', end_op k1 = Ret tt k' ∧ done_atomically i c me pid start size k (v_disk v) k' ∧ fs_idle k' ∧
    k_sb k' = k_sb k ∧ length (k_disk k') = length (k_disk k) ∧ k_icache k' = v_ic v ∧ k_ftable k' = v_ft v ∧
    agree (k_sb k) (length (k_disk k)) (v_disk v) (k_disk k').
Proof.
  intros Hk Hf Hv Hh Hlk H28 Hsz. pose proof Hf as [Ht Hic Hsb Hft Hl]. rewrite Hh in Ht.
  destruct (end_op_ret i c me pid start size k k1 _ _ (fi_idle _ Hk) (fi_layout _ Hk) Ht H28 Hsz) as (k' & Hr & Hd & Hts).
  exists k'. split; [done|]. split; [done|]. destruct Hd as (ws & Hid & Hw & Hdk & Hb & _).
  assert (length (k_disk k') = length (k_disk k)) as Hlen by (rewrite Hdk; apply length_apply_writes).
  assert (agree (k_sb k) (length (k_disk k)) (v_disk v) (k_disk k')) as Hag.
  { intros b Hbr. unfold blk_at. by rewrite Hb by by apply home_fs. }
  pose proof Hts as [Hfr _ Hj]. assert (k_sb k' = k_sb k) as Esb by by rewrite Hfr, <-(vo_sb _ _ _ Hv), <-Hsb.
  split_and!; try done; [|by rewrite Hfr|by rewrite Hfr].
  split; rewrite ?Esb, ?Hlen; try apply Hk; [done| | |].
  - rewrite Hlk in Hl. destruct Hl as [L1 L2 L3 L4].
    split; unfold lock_free; [rewrite Hfr; try done..|]. intros j Hjn. rewrite Hj. by apply L4.
  - unfold layout_ok. rewrite Hlen. apply Hk.
  - eapply agree_disk_ok; [apply Hk|exact Hag|done|apply Hv].
Qed.

(** The rest of the code behind a step. *)
Lemma run_then {A B} (P : outcome kernel B → Prop) o k0 v (m : K A) (f : A → K B) k Q :
  run i c me pid k0 start size o v m Q → fsv i c me pid k0 start size o v k →
  (∀ a v' k', Q a v' → fsv i c me pid k0 start size o v' k' → P (f a k')) → P (bind m f k).
Proof.
  intros Hm Hk Hf. destruct (Hm k Hk) as (a & v' & k' & Hr & Hk' & HQ). rewrite (bind_ret_eq _ _ _ _ _ Hr). by eapply Hf.
Qed.

(** ** [filewrite] *)

Context `{DS : !DevSw}.

(** The open file [f] is the inode [ip], which is in memory. *)
Record open_file k (f ip : nat) (fl : file) (ino : inode) : Prop := {
  of_file : k_ftable k !! f = Some fl;
  of_type : f_type fl = FD_INODE;
  of_ip : f_ip fl = Some ip;
  of_inode : inode_ok (k_sb k) (view0 k) ip ino;
  of_kind : i_type ino ≠ T_DEV;
  of_valid : i_valid ino ≠ 0;
  of_ref : 1 ≤ i_ref ino;
  of_lt : (ip < NINODE)%nat;
  of_off : 0 ≤ f_off fl ≤ i_size ino
}.

Definition advanced (fl : file) (l : list Z) : file := fl <| f_off := f_off fl + Z.of_nat (length l) |>.

(** The bytes [l] are in the file, at its offset, and the rest of the disk means
    what it meant. *)
Record put k (f ip : nat) (fl : file) (ino : inode) (l : list Z) k' a : Prop := {
  pt_idle : fs_idle k';
  pt_sb : k_sb k' = k_sb k;
  pt_len : length (k_disk k') = length (k_disk k);
  pt_ic : k_icache k' = <[ip := grown ino (f_off fl) l a]> (k_icache k);
  pt_ft : k_ftable k' = <[f := advanced fl l]> (k_ftable k);
  pt_inode : inode_ok (k_sb k) (view0 k') ip (grown ino (f_off fl) l a);
  pt_byte j : 0 ≤ j < MAXFILE * BSIZE →
    fbyte (k_disk k') a j = over (f_off fl) l j (fbyte (k_disk k) (i_addrs ino) j);
  pt_keep b : data_start (k_sb k) ≤ b < sb_size (k_sb k) → allocated (k_sb k) (k_disk k) b = true →
    ~ owns (k_disk k) (i_addrs ino) b →
    blk_at (k_disk k') b = blk_at (k_disk k) b ∧ allocated (k_sb k) (k_disk k') b = true ∧ ~ owns (k_disk k') a b;
  pt_owns b : owns (k_disk k) (i_addrs ino) b → owns (k_disk k') a b;
  pt_used b : 0 ≤ b < sb_size (k_sb k) → allocated (k_sb k) (k_disk k') b = true →
    allocated (k_sb k) (k_disk k) b = true ∨ owns (k_disk k') a b;
  pt_synced : synced (k_sb k) (k_disk k) ino → synced (k_sb k) (k_disk k') (grown ino (f_off fl) l a);
  pt_others y : 0 ≤ i_inum y < sb_ninodes (k_sb k) → i_inum y ≠ i_inum ino →
    decode_dinode (blk_at (k_disk k') (IBLOCK (i_inum y) (k_sb k))) y =
    decode_dinode (blk_at (k_disk k) (IBLOCK (i_inum y) (k_sb k))) y
}.

(** The disk of the view after [writei], made the real one. *)
Lemma put_written k f ip fl ino l v a k' :
  fs_idle k → open_file k f ip fl ino →
  written k (k_sb k) (view0 k <| v_locked := {[ip]} |>) ip ino (f_off fl) l v a →
  fs_idle k' → k_sb k' = k_sb k → length (k_disk k') = length (k_disk k) → k_icache k' = v_ic v → k_ftable k' = <[f := advanced fl l]> (k_ftable k) →
  agree (k_sb k) (length (k_disk k)) (v_disk v) (k_disk k') →
  put k f ip fl ino l k' a ∧ credit (k_sb k) (k_disk k') a = credit (k_sb k) (v_disk v) a.
Proof.
  intros Hk Ho Hw Hk' Hsb Hdl Hic Hft Hag. pose proof (fi_geo _ Hk) as Hg. pose proof (fw_inode _ _ _ _ _ _ _ _ _ Hw) as Hi.
  pose proof (io_file _ _ _ _ Hi) as Hf. destruct (agree_file _ _ _ _ Hg _ _ _ Hag Hf) as (Hf' & Hsl & Hby).
  simpl in Hsl, Hby, Hf'. pose proof (size_pos _ _ _ _ Hg) as (? & ? & ? & ? & ? & ?).
  assert (∀ b, owns (k_disk k') a b ↔ owns (v_disk v) a b) as How.
  { intros b. unfold owns. split; intros [? (s & ? & Hs)]; (split; [done|]); exists s; (split; [done|]); by rewrite <-Hs, Hsl. }
  assert (∀ b, 0 ≤ b < sb_size (k_sb k) → allocated (k_sb k) (k_disk k') b = allocated (k_sb k) (v_disk v) b) as Hal
    by (intros b Hb; by apply (agree_allocated _ _ _ _ Hg)).
  assert (∀ inum, 0 ≤ inum < sb_ninodes (k_sb k) → blk_at (k_disk k') (IBLOCK inum (k_sb k)) = blk_at (v_disk v) (IBLOCK inum (k_sb k))) as Hib.
  { intros inum Hn. destruct (IBLOCK_range k start size (k_sb k) Hg _ Hn) as [_ Hr].
    destruct (IBLOCK_meta k start size (k_sb k) Hg _ Hn) as (? & _). apply Hag. lia. }
  split; [|unfold credit; rewrite (slot_IND (v_disk v)); f_equal; by apply nfree_ext].
  split; try done.
  - by rewrite Hic, (fw_view _ _ _ _ _ _ _ _ _ Hw).
  - destruct Hi as [H1' H2' H3' H4' H5' H6' H7']. split; try done; simpl.
    + by rewrite Hic.
    + intros j Hj. unfold fblk. rewrite Hsl. by apply H7'.
  - intros j Hj. rewrite Hby by done. by apply (fw_byte _ _ _ _ _ _ _ _ _ Hw).
  - intros b Hb Ha Hn.
    assert (~ owns (v_disk v) a b) as Hn'.
    { intros Hob. destruct (fw_fresh _ _ _ _ _ _ _ _ _ Hw b Hob) as [?|Hfr]; [done|]. simpl in Hfr. congruence. }
    split_and!; [| |by rewrite How].
    + rewrite Hag by (destruct Hg; unfold data_start in *; lia).
      apply (fw_frame _ _ _ _ _ _ _ _ _ Hw); [lia|unfold bitmap_block; lia|done|].
      destruct (IBLOCK_meta k start size (k_sb k) Hg _ (io_inum _ _ _ _ (of_inode _ _ _ _ _ Ho))) as (_ & ? & _). lia.
    + rewrite Hal by lia. apply (fw_alloc _ _ _ _ _ _ _ _ _ Hw); [lia|by left].
  - intros b Hb. rewrite How. by apply (fw_owns _ _ _ _ _ _ _ _ _ Hw).
  - intros b Hb Ha. rewrite How. rewrite Hal in Ha by done. by apply (fw_alloc _ _ _ _ _ _ _ _ _ Hw).
  - intros Hs. unfold synced. simpl. rewrite Hib by apply (of_inode _ _ _ _ _ Ho). by apply (fw_synced _ _ _ _ _ _ _ _ _ Hw).
  - intros y Hy Hne. rewrite Hib by done. by apply (fw_others _ _ _ _ _ _ _ _ _ Hw).
Qed.

(** A piece of at most three blocks' length touches at most four. *)
Lemma span_piece off n : n ≤ filewrite_max → (span off n ≤ 4)%nat.
Proof.
  intros Hn. unfold span, filewrite_max in *. case_decide; [lia|]. change (MAXOPBLOCKS - 1 - 1 - 2) with 6 in Hn.
  change (6 / 2 * 512) with 1536 in Hn. pose proof (Z.mod_pos_bound off BSIZE ltac:(done)).
  assert ((off mod BSIZE + n + 511) / BSIZE < 5); [|lia]. apply Z.div_lt_upper_bound; unfold BSIZE in *; lia.
Qed.

(** The log has room for a piece. *)
Definition log_fits k : Prop := (nbitmap (k_sb k) + 10 ≤ cap size)%nat.

(** One round of the loop of [filewrite]: a transaction. *)
Lemma write_piece {B} k f ip fl ino l (rest : Z → K B) :
  fs_idle k → open_file k f ip fl ino → log_fits k → Forall is_byte l → l ≠ [] → Z.of_nat (length l) ≤ filewrite_max →
  f_off fl + Z.of_nat (length l) ≤ MAXFILE * BSIZE →
  (S (span (f_off fl) (Z.of_nat (length l))) ≤ credit (k_sb k) (k_disk k) (i_addrs ino))%nat →
  ∃ k' a D,
    (begin_op ;; ilock ip ;; x ← get_file f; r ← writei ip l (f_off x);
     when (0 <? r) (upd_file f (λ x, x <| f_off := u32 (f_off x + r) |>)) ;; iunlock ip ;; end_op ;; rest r) k =
      rest (Z.of_nat (length l)) k' ∧
    put k f ip fl ino l k' a ∧ done_atomically i c me pid start size k D k' ∧
    agree (k_sb k) (length (k_disk k)) D (k_disk k') ∧
    (credit (k_sb k) (k_disk k) (i_addrs ino) ≤ credit (k_sb k) (k_disk k') a + span (f_off fl) (Z.of_nat (length l)))%nat.
Proof.
  intros Hk Ho Hfit Hby Hne Hmax Hend Hcr. pose proof (span_piece (f_off fl) _ Hmax) as Hsp. unfold log_fits in Hfit.
  pose proof (fi_geo _ Hk) as Hg. pose proof Ho as [Hf Hty Hip Hi Hkd Hvl Hrf Hlt [Hoff Hoe]].
  destruct (begin_view k Hk) as (k1 & Hb & Hf1). rewrite (bind_ret_eq _ _ _ _ _ Hb).
  pose proof (view0_ok k Hk) as Hv0.
  eapply (run_then (λ r, ∃ k' a D, r = _ ∧ _) _ _ _ _ _ _
    (λ _ v, v = view0 k <| v_locked := {[ip]} |>)); [|exact Hf1|].
  { eapply (run_ilock _ _ _ _ _ _ _ _ _ Hg); [done|apply Hi|done|set_solver|done|apply Hi|apply Hi|done|unfold load; simpl; lia|done|].
    unfold loaded. destruct (Z.eqb_spec (i_valid ino) 0); [done|]. unfold set_inode, view0. simpl.
    rewrite list_insert_id by apply Hi. by rewrite union_empty_r_L. }
  intros [] v2 k2 -> Hf2. unfold get_file at 1. unfold bind at 1 2, gets at 1.
  rewrite (fv_ft _ _ _ _ _ _ _ _ _ _ Hf2). cbn [v_ft]. simpl. rewrite Hf. simpl.
  set (v2 := view0 k <| v_locked := _ |>) in *.
  assert (writable k size 1 (k_sb k) v2 ip ino (f_off fl) l) as Hwa.
  { split; try done.
    - destruct Hv0. by split.
    - destruct Hi. by split.
    - unfold load. simpl. lia.
    - by left. }
  eapply (run_then (λ r, ∃ k' a D, r = _ ∧ _) _ _ _ _ _ _
    (λ r v, r = Z.of_nat (length l) ∧ ∃ a, written k (k_sb k) v2 ip ino (f_off fl) l v a)); [|exact Hf2|].
  { eapply (run_writei _ _ _ _ _ _ _ _ _ Hg); [exact Hwa|done|]. intros v a Hw. split; [done|by exists a]. }
  intros r v3 k3 [-> (a & Hw)] Hf3. pose proof (fw_view _ _ _ _ _ _ _ _ _ Hw) as Hv3.
  assert (0 < length l)%nat by (destruct l; [done|simpl; lia]).
  destruct (Z.ltb_spec 0 (Z.of_nat (length l))); [|lia]. cbn [when].
  eapply (run_then (λ r, ∃ k' a D, r = _ ∧ _) _ _ _ _ _ _
    (λ _ v, v = v3 <| v_ft := <[f := advanced fl l]> (k_ftable k) |>)); [|exact Hf3|].
  { assert (v_ft v3 = k_ftable k) as Eft by by rewrite Hv3. eapply run_upd_file; [rewrite Eft; exact Hf|].
    rewrite Eft. unfold advanced. rewrite u32_small; [done|]. unfold MAXFILE, NDIRECT, NINDIRECT, BSIZE in *. lia. }
  intros [] v4 k4 -> Hf4. pose proof (fw_inode _ _ _ _ _ _ _ _ _ Hw) as Hi3.
  eapply (run_then (λ r, ∃ k' a D, r = _ ∧ _) _ _ _ _ _ _
    (λ _ v, v = v3 <| v_ft := <[f := advanced fl l]> (k_ftable k) |> <| v_locked := ∅ |>)); [|exact Hf4|].
  { eapply run_iunlock; [apply Hi3|done| |done|].
    - rewrite Hv3. simpl. set_solver.
    - rewrite Hv3. simpl. by rewrite difference_diag_L. }
  intros [] v5 k5 -> Hf5. pose proof (fw_load _ _ _ _ _ _ _ _ _ Hw) as Hld. unfold load in Hld. simpl in Hld.
  assert (length (v_bs v3) ≤ nbitmap (k_sb k) + 6)%nat as Hbs by lia. unfold cap, LOGSIZE in Hfit.
  destruct (end_view k _ k5 Hk Hf5) as (k6 & He & Hat & Hk6 & Hsb & Hdl & Hic & Hft & Hag).
  { destruct (fw_ok _ _ _ _ _ _ _ _ _ Hw). by split. }
  { simpl. by rewrite Hv3. } { done. } { simpl. lia. } { simpl. lia. }
  rewrite (bind_ret_eq _ _ _ _ _ He).
  destruct (put_written k f ip fl ino l v3 a k6) as [Hput Hcd]; try done.
  exists k6, a, (v_disk v3). split_and!; try done. rewrite Hcd. apply (fw_credit _ _ _ _ _ _ _ _ _ Hw).
Qed.

Lemma put_refl k f ip fl ino : fs_idle k → open_file k f ip fl ino → put k f ip fl ino [] k (i_addrs ino).
Proof.
  intros Hk [Hf Hty Hip Hi Hkd Hvl Hrf Hlt [Hoff Hoe]].
  assert (grown ino (f_off fl) [] (i_addrs ino) = ino) as Eg.
  { unfold grown. simpl. rewrite Z.max_l by lia. by destruct ino. }
  assert (advanced fl [] = fl) as Ef by (unfold advanced; simpl; rewrite Z.add_0_r; by destruct fl).
  split; rewrite ?Eg, ?Ef; try done.
  - by rewrite list_insert_id by apply Hi.
  - by rewrite list_insert_id.
  - intros j Hj. symmetry. apply over_nil.
  - by left.
Qed.

Lemma put_trans k f ip fl ino l1 k1 a1 l2 k2 a2 :
  put k f ip fl ino l1 k1 a1 → put k1 f ip (advanced fl l1) (grown ino (f_off fl) l1 a1) l2 k2 a2 →
  put k f ip fl ino (l1 ++ l2) k2 a2.
Proof.
  intros P1 P2. pose proof (pt_sb _ _ _ _ _ _ _ _ P1) as Hsb.
  assert (grown (grown ino (f_off fl) l1 a1) (f_off (advanced fl l1)) l2 a2 = grown ino (f_off fl) (l1 ++ l2) a2) as Eg.
  { unfold grown, advanced. simpl. rewrite length_app.
    by replace (Z.max (Z.max (i_size ino) (f_off fl + Z.of_nat (length l1))) (f_off fl + Z.of_nat (length l1) + Z.of_nat (length l2)))
      with (Z.max (i_size ino) (f_off fl + Z.of_nat (length l1 + length l2))) by lia. }
  assert (advanced (advanced fl l1) l2 = advanced fl (l1 ++ l2)) as Ef.
  { unfold advanced. simpl. rewrite length_app, Nat2Z.inj_add. by rewrite Z.add_assoc. }
  destruct P1 as [_ _ N1 C1 F1 I1 B1 K1 W1 U1 S1 O1], P2 as [D2 E2 N2 C2 F2 I2 B2 K2 W2 U2 S2 O2].
  rewrite Eg, ?Ef, ?Hsb in *.
  split; try done.
  - by rewrite N2.
  - by rewrite C2, C1, list_insert_insert_eq.
  - by rewrite F2, F1, list_insert_insert_eq.
  - intros j Hj. rewrite B2, B1 by done. unfold advanced. simpl. apply over_app.
  - intros b Hb Ha Hn. destruct (K1 b Hb Ha Hn) as (E1 & A1 & O1'). destruct (K2 b Hb A1 O1') as (E2' & A2 & O2').
    split_and!; [congruence|done|done].
  - intros b Ho. by apply W2, W1.
  - intros b Hb Ha. destruct (U2 b Hb Ha) as [Ha1|?]; [|by right].
    destruct (U1 b Hb Ha1) as [?|Ho1]; [by left|right; by apply W2].
  - intros Hs. apply S2, S1, Hs.
  - intros y Hy Hne. rewrite O2, O1 by done. done.
Qed.

Lemma put_open k f ip fl ino l k' a :
  open_file k f ip fl ino → put k f ip fl ino l k' a →
  open_file k' f ip (advanced fl l) (grown ino (f_off fl) l a).
Proof.
  intros [Hf Hty Hip Hi Hkd Hvl Hrf Hlt [Hoff Hoe]] P. split; try done.
  - rewrite (pt_ft _ _ _ _ _ _ _ _ P). apply list_lookup_insert_eq. by eapply lookup_lt_Some.
  - rewrite (pt_sb _ _ _ _ _ _ _ _ P). apply P.
  - simpl. lia.
Qed.

(** The blocks a write of any length asks for: those it touches, one for each
    transaction and the indirect block. *)
Definition pieces (n : Z) : nat := Z.to_nat ((n + filewrite_max - 1) / filewrite_max).

Lemma pieces_step n m : 0 < n → m = Z.min filewrite_max n → pieces n = S (pieces (n - m)).
Proof.
  intros Hn ->. unfold pieces. change filewrite_max with 1536. destruct (Z.min_spec 1536 n) as [[? ->]|[? ->]].
  - replace (n + 1536 - 1) with (n - 1536 + 1536 - 1 + 1 * 1536) by lia. rewrite Z.div_add by lia.
    assert (0 ≤ (n - 1536 + 1536 - 1) / 1536) by (apply Z.div_pos; lia). lia.
  - rewrite Z.sub_diag. change ((0 + 1536 - 1) / 1536) with 0.
    assert ((n + 1536 - 1) / 1536 = 1) as ->; [|done]. symmetry. apply (Z.div_unique _ _ _ (n - 1)); lia.
Qed.
Lemma span_split off n m : 0 ≤ off → 0 ≤ m ≤ n → (span off m + span (off + m) (n - m) ≤ S (span off n))%nat.
Proof.
  intros Hoff Hm. unfold span. repeat case_decide; try lia.
  - replace m with 0 by lia. rewrite Z.add_0_r, Z.sub_0_r. lia.
  - assert (n = m) as -> by lia. lia.
  - assert ((off + m) mod BSIZE + (n - m) + 511 ≤ (off mod BSIZE + m) + (n - m) + 511 - ((off + m) / BSIZE - off / BSIZE) * BSIZE).
    { pose proof (Z.div_mod (off + m) BSIZE ltac:(done)). pose proof (Z.div_mod off BSIZE ltac:(done)). lia. }
    unfold BSIZE in *. Z.div_mod_to_equations. lia.
Qed.

(** [tot] of the bytes are in the file. *)
Record writing k f ip fl ino (bs : list Z) (tot : Z) k1 a : Prop := {
  wt_tot : 0 ≤ tot ≤ Z.of_nat (length bs);
  wt_put : put k f ip fl ino (take (Z.to_nat tot) bs) k1 a;
  wt_free : (S (span (f_off fl + tot) (Z.of_nat (length bs) - tot) + pieces (Z.of_nat (length bs) - tot)) ≤
    credit (k_sb k) (k_disk k1) a)%nat
}.

Lemma filewrite_loop_ret k f ip fl ino bs fuel : ∀ tot k1 a,
  open_file k f ip fl ino → log_fits k → Forall is_byte bs → f_off fl + Z.of_nat (length bs) ≤ MAXFILE * BSIZE →
  writing k f ip fl ino bs tot k1 a → Z.of_nat (length bs) - tot < Z.of_nat fuel →
  ∃ k' a', filewrite_loop fuel f ip bs tot (Z.of_nat (length bs)) k1 = Ret (Z.of_nat (length bs)) k' ∧
    put k f ip fl ino bs k' a'.
Proof.
  induction fuel as [|fuel IH]; intros tot k1 a Ho Hfit Hby Hend [Htot P Hfree] Hfuel; [lia|].
  set (n := Z.of_nat (length bs)) in *. cbn [filewrite_loop]. destruct (Z.ltb_spec tot n) as [Hlt|Hge].
  2: { exists k1, a. assert (tot = n) as -> by lia. split; [done|]. unfold n in P. by rewrite Nat2Z.id, firstn_all in P. }
  set (m := if filewrite_max <? n - tot then filewrite_max else n - tot).
  assert (m = Z.min filewrite_max (n - tot)) as Em by (unfold m; destruct (Z.ltb_spec filewrite_max (n - tot)); lia).
  assert (0 < m ≤ filewrite_max ∧ m ≤ n - tot) as Hm by (rewrite Em; change filewrite_max with 1536; lia).
  set (l := slice bs (Z.to_nat tot) (Z.to_nat m)). clearbody m.
  assert (length l = Z.to_nat m) as Hl by (unfold l, slice; rewrite length_take, length_drop; lia).
  assert (length (take (Z.to_nat tot) bs) = Z.to_nat tot) as Hlt1 by (rewrite length_take; lia).
  pose proof (put_open _ _ _ _ _ _ _ _ Ho P) as Ho1. pose proof (pt_sb _ _ _ _ _ _ _ _ P) as Hsb.
  assert (f_off (advanced fl (take (Z.to_nat tot) bs)) = f_off fl + tot) as Eo by (unfold advanced; simpl; lia).
  pose proof (of_off _ _ _ _ _ Ho) as [Hoff _].
  pose proof (pieces_step (n - tot) m ltac:(lia) Em) as Hpc.
  pose proof (span_split (f_off fl + tot) (n - tot) m ltac:(lia) ltac:(lia)) as Hss.
  destruct (write_piece k1 f ip _ _ l (λ r, if r <? 0 then ret tot else if negb (r =? m) then panic "short filewrite"
    else filewrite_loop fuel f ip bs (tot + r) n) (pt_idle _ _ _ _ _ _ _ _ P) Ho1) as (k2 & a2 & D & Hr & P2 & _ & _ & Hcr);
    rewrite ?Eo, ?Hl, ?Z2Nat.id, ?Hsb by lia.
  - unfold log_fits. by rewrite Hsb.
  - apply Forall_take, Forall_drop, Hby.
  - intros E. rewrite E in Hl. simpl in Hl. lia.
  - lia.
  - lia.
  - simpl. lia.
  - setoid_rewrite Hr. cbv beta. rewrite Hl, Z2Nat.id by lia.
    destruct (Z.ltb_spec m 0); [lia|]. rewrite Z.eqb_refl. cbn [negb]. apply (IH _ k2 a2); [done..| |lia].
    assert (take (Z.to_nat (tot + m)) bs = take (Z.to_nat tot) bs ++ l) as Et.
    { rewrite Z2Nat.inj_add by lia. unfold l, slice. by rewrite take_take_drop. }
    split; [lia| |].
    + rewrite Et. by eapply put_trans.
    + rewrite Eo, Hl, Z2Nat.id, ?Hsb in Hcr by lia. fold n. simpl in Hcr.
      replace (f_off fl + (tot + m)) with (f_off fl + tot + m) by lia. replace (n - (tot + m)) with (n - tot - m) by lia. lia.
Qed.

Lemma filewrite_ret k f ip fl ino bs :
  fs_idle k → open_file k f ip fl ino → f_writable fl ≠ 0 → log_fits k → Forall is_byte bs →
  f_off fl + Z.of_nat (length bs) ≤ MAXFILE * BSIZE →
  (S (span (f_off fl) (Z.of_nat (length bs)) + pieces (Z.of_nat (length bs))) ≤
    credit (k_sb k) (k_disk k) (i_addrs ino))%nat →
  ∃ k' a, filewrite f bs k = Ret (Z.of_nat (length bs)) k' ∧ put k f ip fl ino bs k' a.
Proof.
  intros Hk Ho Hwr Hfit Hby Hend Hcr.
  destruct (filewrite_loop_ret k f ip fl ino bs (S (length bs)) 0 k (i_addrs ino)) as (k' & a & Hr & P); try done.
  { split; [lia|by apply put_refl|]. by rewrite Z.add_0_r, Z.sub_0_r. }
  { lia. }
  exists k', a. split; [|done]. unfold filewrite, get_file, bind at 1 2, gets at 1. rewrite (of_file _ _ _ _ _ Ho). simpl.
  destruct (Z.eqb_spec (f_writable fl) 0); [done|]. rewrite (of_type _ _ _ _ _ Ho), (of_ip _ _ _ _ _ Ho).
  unfold get_or, bind at 1, ret at 1. rewrite (bind_ret_eq _ _ _ _ _ Hr). by rewrite Z.eqb_refl.
Qed.

(** A write of one piece is one transaction. *)
Lemma filewrite_piece_ret k f ip fl ino bs :
  fs_idle k → open_file k f ip fl ino → f_writable fl ≠ 0 → log_fits k → Forall is_byte bs →
  bs ≠ [] → Z.of_nat (length bs) ≤ filewrite_max → f_off fl + Z.of_nat (length bs) ≤ MAXFILE * BSIZE →
  (S (span (f_off fl) (Z.of_nat (length bs))) ≤ credit (k_sb k) (k_disk k) (i_addrs ino))%nat →
  ∃ k' a D, filewrite f bs k = Ret (Z.of_nat (length bs)) k' ∧ put k f ip fl ino bs k' a ∧
    done_atomically i c me pid start size k D k' ∧ agree (k_sb k) (length (k_disk k)) D (k_disk k').
Proof.
  intros Hk Ho Hwr Hfit Hby Hne Hmax Hend Hcr. set (n := Z.of_nat (length bs)) in *.
  assert (0 < length bs)%nat by (destruct bs; [done|simpl; lia]).
  destruct (write_piece k f ip fl ino bs (λ r, if r <? 0 then ret 0 else if negb (r =? n) then panic "short filewrite"
    else filewrite_loop (length bs) f ip bs (0 + r) n)) as (k' & a & D & Hr & P & Hat & Hag & _); try done.
  exists k', a, D. split_and!; try done. unfold filewrite, get_file, bind at 1 2, gets at 1. rewrite (of_file _ _ _ _ _ Ho). simpl.
  destruct (Z.eqb_spec (f_writable fl) 0); [done|]. rewrite (of_type _ _ _ _ _ Ho), (of_ip _ _ _ _ _ Ho).
  unfold get_or, bind at 1, ret at 1. fold n. erewrite bind_ret_eq; [by rewrite Z.eqb_refl|].
  destruct (Z.ltb_spec 0 n); [|lia]. destruct (Z.ltb_spec filewrite_max (n - 0)); [lia|].
  assert (slice bs (Z.to_nat 0) (Z.to_nat (n - 0)) = bs) as ->.
  { unfold slice. rewrite drop_0, Z.sub_0_r. unfold n. by rewrite Nat2Z.id, firstn_all. }
  rewrite Z.sub_0_r. setoid_rewrite Hr. fold n. destruct (Z.ltb_spec n 0); [lia|]. rewrite Z.eqb_refl. cbn [negb].
  destruct (length bs) eqn:E; [lia|]. cbn [filewrite_loop]. rewrite Z.add_0_l.
  destruct (Z.ltb_spec n n); [lia|done].
Qed.

(** Files with other blocks do not change. *)
Lemma put_other k f ip fl ino l k' a a2 :
  fs_idle k → put k f ip fl ino l k' a → file_ok (k_sb k) (k_disk k) a2 →
  (∀ b, owns (k_disk k) a2 b → ~ owns (k_disk k) (i_addrs ino) b) →
  file_ok (k_sb k) (k_disk k') a2 ∧
  (∀ j, 0 ≤ j < MAXFILE * BSIZE → fbyte (k_disk k') a2 j = fbyte (k_disk k) a2 j) ∧
  (∀ b, owns (k_disk k') a2 b → ~ owns (k_disk k') a b).
Proof.
  intros Hk P Hf Hn.
  assert (∀ b, owns (k_disk k) a2 b → blk_at (k_disk k') b = blk_at (k_disk k) b ∧ allocated (k_sb k) (k_disk k') b = true ∧ ~ owns (k_disk k') a b) as Hk'.
  { intros b Hb. destruct (owns_used _ _ _ _ (fi_geo _ Hk) _ _ _ Hf Hb) as (Hr & Ha & _). apply (pt_keep _ _ _ _ _ _ _ _ P); auto. }
  destruct (same_file (k_sb k) (k_disk k) (k_disk k') a2 Hf) as (Hf' & Hsl & Hby).
  { intros b Hb. destruct (Hk' b Hb) as (? & ? & _). done. }
  split_and!; [done|done|]. intros b [Hne (s & Hs & Hsb)]. rewrite Hsl in Hsb. apply Hk'. split; [done|]. by exists s.
Qed.

(** ** [fileread] *)

Lemma fileread_ret k f ip fl ino n :
  fs_idle k → open_file k f ip fl ino → f_readable fl ≠ 0 → (5 ≤ cap size)%nat → 0 ≤ n < 2147483648 →
  let m := Z.min n (i_size ino - f_off fl) in
  ∃ k', fileread f n k = Ret (m, fbytes (k_disk k) (i_addrs ino) (f_off fl) m) k' ∧ fs_idle k' ∧
    k_disk k' = k_disk k ∧ k_writes k' = k_writes k ∧ k_sb k' = k_sb k ∧ k_icache k' = k_icache k ∧
    k_ftable k' = <[f := fl <| f_off := f_off fl + m |>]> (k_ftable k).
Proof.
  intros Hk Ho Hrd Hcap Hn m. set (fl' := fl <| f_off := f_off fl + m |>). pose proof (fi_geo _ Hk) as Hg. pose proof Ho as [Hf Hty Hip Hi Hkd Hvl Hrf Hlt [Hoff Hoe]].
  pose proof (io_size _ _ _ _ Hi) as Hmax. pose proof (view0_ok k Hk) as Hv0. pose proof (idle_view k Hk) as Hf1.
  unfold fileread, get_file, bind at 1 2, gets at 1. rewrite Hf. simpl. destruct (Z.eqb_spec (f_readable fl) 0); [done|].
  rewrite Hty, Hip. unfold get_or, bind at 1, ret at 1.
  eapply (run_then (λ r, ∃ k', r = _ ∧ _) _ _ _ _ _ _ (λ _ v, v = view0 k <| v_locked := {[ip]} |>)); [|exact Hf1|].
  { eapply (run_ilock _ _ _ _ _ _ _ _ _ Hg); [done|apply Hi|done|set_solver|done|apply Hi|apply Hi|done|unfold load; simpl; lia|done|].
    unfold loaded. destruct (Z.eqb_spec (i_valid ino) 0); [done|]. unfold set_inode, view0. simpl.
    rewrite list_insert_id by apply Hi. by rewrite union_empty_r_L. }
  intros [] v2 k2 -> Hf2. set (v2 := view0 k <| v_locked := _ |>) in *.
  eapply (run_then (λ r, ∃ k', r = _ ∧ _) _ _ _ _ _ _
    (λ r v, r = (m, fbytes (k_disk k) (i_addrs ino) (f_off fl) m) ∧ v = v2)); [|exact Hf2|].
  { rewrite u32_small by lia. eapply (run_readi _ _ _ _ _ _ _ _ _ Hg).
    - destruct Hv0. by split.
    - destruct Hi. by split.
    - done.
    - done.
    - done.
    - lia.
    - lia.
    - unfold MAXFILE, NDIRECT, NINDIRECT, BSIZE in *. lia.
    - done. }
  intros r v3 k3 [-> ->] Hf3. 
  eapply (run_then (λ r, ∃ k', r = _ ∧ _) _ _ _ _ _ _
    (λ _ v, v = v2 <| v_ft := <[f := fl']> (k_ftable k) |>)); [|exact Hf3|].
  { apply run_when; intros Hc.
    - eapply run_upd_file; [exact Hf|]. rewrite u32_small; [done|].
      unfold MAXFILE, NDIRECT, NINDIRECT, BSIZE in *. lia.
    - apply Z.ltb_ge in Hc. assert (fl' = fl) as ->.
      { unfold fl'. assert (m = 0) as -> by lia. rewrite Z.add_0_r. by destruct fl. }
      by rewrite list_insert_id. }
  intros [] v4 k4 -> Hf4.
  eapply (run_then (λ r, ∃ k', r = _ ∧ _) _ _ _ _ _ _
    (λ _ v, v = v2 <| v_ft := <[f := fl']> (k_ftable k) |> <| v_locked := ∅ |>)); [|exact Hf4|].
  { eapply run_iunlock; [apply Hi|done| |done|]; simpl; [set_solver|]. by rewrite difference_diag_L. }
  intros [] v5 k5 -> Hf5. exists k5. split; [done|].
  destruct (view_idle k _ k5 Hk Hf5) as (Hk5 & Hd & Hw & Hsb); try done.
  split_and!; try done; [apply (fv_ic _ _ _ _ _ _ _ _ _ _ Hf5)|apply (fv_ft _ _ _ _ _ _ _ _ _ _ Hf5)].
Qed.

(** The bytes just written are those that are read. *)
Lemma over_read off l (g : Z → Z) :
  0 ≤ off → (λ j, over off l j (g j)) <$> seqZ off (Z.of_nat (length l)) = l.
Proof.
  intros Hoff. apply list_eq. intros n. rewrite list_lookup_fmap. destruct (l !! n) as [x|] eqn:E.
  - rewrite lookup_seqZ_lt by (apply lookup_lt_Some in E; lia). simpl. unfold over. rewrite decide_True by lia.
    replace (Z.to_nat (off + Z.of_nat n - off)) with n by lia. by rewrite E.
  - rewrite lookup_seqZ_ge; [done|]. apply lookup_ge_None in E. lia.
Qed.
Lemma put_read k f ip fl ino l k' a :
  put k f ip fl ino l k' a → 0 ≤ f_off fl → f_off fl + Z.of_nat (length l) ≤ MAXFILE * BSIZE →
  fbytes (k_disk k') a (f_off fl) (Z.of_nat (length l)) = l.
Proof.
  intros P Hoff Hmax. rewrite <-(over_read (f_off fl) l (fbyte (k_disk k) (i_addrs ino)) Hoff) at 2.
  apply list_fmap_ext. intros n j Hj. apply lookup_seqZ in Hj as [-> Hn]. apply (pt_byte _ _ _ _ _ _ _ _ P). lia.
Qed.
End operation.
