(* ===== verification/FsDir.v ===== *)
(** * FsDir: the inode cache and path lookup ([iget], [dirlookup], [namex])

    [refs] counts, for every inode, the references that the cache holds.  [iget]
    adds one reference, [dirlookup] finds the entry that the directory has on the
    disk, and [namex] ends at the inode that the path leads to: it keeps one
    reference to that inode and has given back all others. *)
From stdpp Require Import gmultiset.
From S2P Require Import Prelude.
From S2P Require Import Mem.
From S2P Require Import Str.
From S2P Require Import State.
From S2P Require Import Spin.
From S2P Require Import Boot.
From S2P Require Import Cons.
From S2P Require Import Kalloc.
From S2P Require Import Vm.
From S2P Require Import Mlq.
From S2P Require Import Proc.
From S2P Require Import ProcSpec.
From S2P Require Import Blk.
From S2P Require Import Bio.
From S2P Require Import BioSpec.
From S2P Require Import Log.
From S2P Require Import Txn.
From S2P Require Import Fs.
From S2P Require Import FsLogic.
From S2P Require Import FsDisk.
From S2P Require Import FsMap.
From S2P Require Import FsAlloc.
From S2P Require Import FsInode.
From S2P Require Import FsFile.
From S2P Require Import FsTrunc.
From S2P Require Import FsOp.
From S2P Require Import FsPath.

(** ** References *)

Definition refs_of (x : inode) : gmultiset Z := Z.to_nat (i_ref x) *: {[+ i_inum x +]}.
Definition refs (ics : list inode) : gmultiset Z := foldr (λ x s, refs_of x ⊎ s) ∅ ics.

(** The number of inodes with references. *)
Definition distinct (R : gmultiset Z) : nat := size (dom R).
Definition in_use (ics : list inode) : nat := distinct (refs ics).

Lemma distinct_add R n : (distinct (R ⊎ {[+ n +]}) ≤ S (distinct R))%nat.
Proof.
  unfold distinct. assert (dom (R ⊎ {[+ n +]}) = {[n]} ∪ dom R) as ->.
  { apply set_eq. intros m. rewrite elem_of_union, !gmultiset_elem_of_dom. multiset_solver. }
  rewrite size_union_alt, size_singleton. pose proof (subseteq_size (dom R ∖ {[n]}) (dom R) ltac:(set_solver)). lia.
Qed.

Lemma refs_swap (R : gmultiset Z) m n : R ⊎ {[+ n +]} ⊎ {[+ m +]} = R ⊎ {[+ m +]} ⊎ {[+ n +]}.
Proof. multiset_solver. Qed.
Lemma refs_insert ics ip x y :
  ics !! ip = Some x → refs (<[ip := y]> ics) ⊎ refs_of x = refs ics ⊎ refs_of y.
Proof.
  revert ip. induction ics as [|z ics IH]; intros [|ip] Hx; simplify_eq/=; [multiset_solver|].
  specialize (IH ip Hx). multiset_solver.
Qed.
Lemma refs_same ics ip x y :
  ics !! ip = Some x → i_inum y = i_inum x → i_ref y = i_ref x → refs (<[ip := y]> ics) = refs ics.
Proof. intros Hx Hn Hr. pose proof (refs_insert ics ip x y Hx) as H. unfold refs_of in H. rewrite Hn, Hr in H. multiset_solver. Qed.
Lemma refs_add ics ip x y :
  ics !! ip = Some x → i_inum y = i_inum x → i_ref y = i_ref x + 1 → 0 ≤ i_ref x →
  refs (<[ip := y]> ics) = refs ics ⊎ {[+ i_inum x +]}.
Proof.
  intros Hx Hn Hr H0. pose proof (refs_insert ics ip x y Hx) as H. unfold refs_of in H. rewrite Hn, Hr in H.
  replace (Z.to_nat (i_ref x + 1)) with (S (Z.to_nat (i_ref x))) in H by lia. rewrite gmultiset_scalar_mul_S_r in H. multiset_solver.
Qed.
Lemma refs_new ics ip x y :
  ics !! ip = Some x → i_ref x = 0 → i_ref y = 1 → refs (<[ip := y]> ics) = refs ics ⊎ {[+ i_inum y +]}.
Proof.
  intros Hx H0 H1. pose proof (refs_insert ics ip x y Hx) as H. unfold refs_of in H. rewrite H0, H1 in H.
  multiset_solver.
Qed.
Lemma refs_drop ics ip x y :
  ics !! ip = Some x → i_inum y = i_inum x → i_ref y = i_ref x - 1 → 1 ≤ i_ref x →
  refs (<[ip := y]> ics) ⊎ {[+ i_inum x +]} = refs ics.
Proof.
  intros Hx Hn Hr H0. pose proof (refs_insert ics ip x y Hx) as H. unfold refs_of in H. rewrite Hn, Hr in H.
  replace (Z.to_nat (i_ref x)) with (S (Z.to_nat (i_ref x - 1))) in H by lia. rewrite gmultiset_scalar_mul_S_r in H. multiset_solver.
Qed.
Lemma refs_in ics ip x : ics !! ip = Some x → 0 < i_ref x → i_inum x ∈ refs ics.
Proof.
  revert ip. induction ics as [|z ics IH]; intros [|ip] Hx Hr; simplify_eq/=.
  - unfold refs_of. replace (Z.to_nat (i_ref x)) with (S (Z.to_nat (i_ref x - 1))) by lia.
    rewrite gmultiset_scalar_mul_S_r. multiset_solver.
  - specialize (IH ip Hx Hr). multiset_solver.
Qed.

(** Inodes that are referenced, each in one slot, with what the disk holds
    once they are valid. *)
Section cache.
Context (sb : superblock).
Record ic_entry (D : list (list Z)) (x : inode) : Prop := {
  ie_dev : i_dev x = 1;
  ie_inum : 0 ≤ i_inum x < sb_ninodes sb;
  ie_synced : i_valid x ≠ 0 → synced sb D x
}.
Record ic_ok (D : list (list Z)) (ics : list inode) : Prop := {
  ic_len : length ics = NINODE;
  ic_ref ip x : ics !! ip = Some x → 0 ≤ i_ref x;
  ic_used ip x : ics !! ip = Some x → 0 < i_ref x → ic_entry D x;
  ic_inj ip jp x y : ics !! ip = Some x → ics !! jp = Some y → 0 < i_ref x → 0 < i_ref y →
    i_inum x = i_inum y → ip = jp
}.

Lemma synced_ref D x r : synced sb D x → synced sb D (x <| i_ref := r |>).
Proof. intros H. exact (f_equal (λ y, y <| i_ref := r |>) H). Qed.
Lemma ic_entry_ref D x r : ic_entry D x → ic_entry D (x <| i_ref := r |>).
Proof. intros [H1 H2 H3]. split; [done|done|]. intros Hv. apply synced_ref, H3, Hv. Qed.

Lemma ic_free D ics : ic_ok D ics → (in_use ics < NINODE)%nat → ∃ ip x, ics !! ip = Some x ∧ i_ref x = 0.
Proof.
  intros Hic Hs. destruct (find_first (λ x, i_ref x =? 0) ics) as [ip|] eqn:E.
  { apply find_first_Some in E as (x & Hx & H0%Z.eqb_eq & _). by exists ip, x. }
  exfalso. rewrite find_first_None in E.
  assert (∀ ip x, ics !! ip = Some x → 0 < i_ref x) as Hp.
  { intros ip x Hx. pose proof (ic_ref _ _ Hic _ _ Hx). specialize (E x ltac:(by eapply list_elem_of_lookup_2)).
    apply Z.eqb_neq in E. lia. }
  assert (NoDup (i_inum <$> ics)) as Hnd.
  { apply NoDup_alt. intros ip jp n. rewrite !list_lookup_fmap. intros (x & Hx & Ex)%fmap_Some (y & Hy & Ey)%fmap_Some.
    eapply (ic_inj _ _ Hic); [done|done|by eapply Hp|by eapply Hp|congruence]. }
  assert (list_to_set (i_inum <$> ics) ⊆ dom (refs ics)) as Hsub%subseteq_size.
  { intros n. rewrite elem_of_list_to_set, list_elem_of_fmap. intros (x & -> & [ip Hx]%list_elem_of_lookup).
    apply gmultiset_elem_of_dom. by eapply refs_in, Hp. }
  unfold in_use, distinct in Hs. rewrite size_list_to_set in Hsub by done. rewrite length_fmap, (ic_len _ _ Hic) in Hsub. lia.
Qed.

(** The cache after the entry [ip] has been replaced. *)
Lemma ic_set D ics ip x y :
  ic_ok D ics → ics !! ip = Some x → 0 ≤ i_ref y → (0 < i_ref y → ic_entry D y) →
  (0 < i_ref y → ∀ jp z, jp ≠ ip → ics !! jp = Some z → 0 < i_ref z → i_inum z ≠ i_inum y) →
  ic_ok D (<[ip := y]> ics).
Proof.
  intros [Hl Hr Hu Hi] Hx H0 He Hn.
  assert (∀ jp z, <[ip := y]> ics !! jp = Some z → jp = ip ∧ z = y ∨ jp ≠ ip ∧ ics !! jp = Some z) as Hc.
  { intros jp z. rewrite list_lookup_insert_Some. naive_solver. }
  split; [by rewrite length_insert|..].
  - intros jp z [[-> ->]|[_ Hz]]%Hc; [done|by eapply Hr].
  - intros jp z [[-> ->]|[_ Hz]]%Hc; [done|by eapply Hu].
  - intros jp jp' z z' [[-> ->]|[H1 Hz]]%Hc [[-> ->]|[H2 Hz']]%Hc Hp Hp' E; [done|..].
    + by destruct (Hn Hp jp' z' H2 Hz' Hp').
    + by destruct (Hn Hp' jp z H1 Hz Hp).
    + by eapply Hi.
Qed.
Lemma ic_set_same D ics ip x y :
  ic_ok D ics → ics !! ip = Some x → 0 < i_ref x → 0 ≤ i_ref y → i_inum y = i_inum x → (0 < i_ref y → ic_entry D y) →
  ic_ok D (<[ip := y]> ics).
Proof.
  intros Hic Hx Hrx Hry Hn He. eapply ic_set; try done. intros _ jp z Hne Hz Hp E. apply Hne.
  eapply (ic_inj _ _ Hic); try done. congruence.
Qed.
End cache.

(** ** [iget] *)

Section lookup.
Context (i : nat) (c : cpu) (me : nat) (pid : Z) (k0 : kernel) (start size o : Z) (sb : superblock).
Let N := length (k_disk k0).
Context (Hg : geometry sb N start size).
Context `{DS : !DevSw}.
Implicit Types (v : view) (D : list (list Z)) (ics : list inode).
Local Notation run := (run i c me pid k0 start size o).
Local Notation cap := (cap size).
Local Notation view_ok := (view_ok k0 sb).
Local Notation ic_ok := (ic_ok sb).
Local Notation dinode := (dinode sb).

(** The cache with one more reference to inode [n], held in slot [ip]. *)
Record got D ics (n : Z) (ip : nat) ics' : Prop := {
  gt_slot : ∃ x, ics' !! ip = Some x ∧ i_inum x = n ∧ 0 < i_ref x;
  gt_ok : ic_ok D ics';
  gt_refs : refs ics' = refs ics ⊎ {[+ n +]};
  gt_keep jp y : ics !! jp = Some y → 0 < i_ref y →
    ∃ r, i_ref y ≤ r ∧ (jp = ip → r = i_ref y + 1) ∧ ics' !! jp = Some (y <| i_ref := r |>)
}.

Lemma got_hit D ics ip x :
  ic_ok D ics → ics !! ip = Some x → 0 < i_ref x →
  got D ics (i_inum x) ip (<[ip := x <| i_ref := i_ref x + 1 |>]> ics).
Proof.
  intros Hic Hx Hr. pose proof (lookup_lt_Some _ _ _ Hx). split.
  - eexists. split; [by apply list_lookup_insert_eq|]. split; [done|]. simpl. lia.
  - eapply ic_set_same; try done; simpl; [lia|]. intros _. by eapply ic_entry_ref, ic_used.
  - eapply refs_add; try done. lia.
  - intros jp y Hy Hry. destruct (decide (jp = ip)) as [->|Hne].
    + exists (i_ref x + 1). simplify_eq. rewrite list_lookup_insert_eq by done. split; [lia|done].
    + exists (i_ref y). rewrite list_lookup_insert_ne by done. split_and!; [done|done|]. rewrite Hy. by destruct y.
Qed.
Lemma got_new D ics ip x n :
  ic_ok D ics → ics !! ip = Some x → i_ref x = 0 → 0 ≤ n < sb_ninodes sb →
  (∀ jp y, ics !! jp = Some y → 0 < i_ref y → i_inum y ≠ n) →
  got D ics n ip (<[ip := x <| i_dev := 1 |> <| i_inum := n |> <| i_ref := 1 |> <| i_valid := 0 |>]> ics).
Proof.
  intros Hic Hx Hr Hn Hno. pose proof (lookup_lt_Some _ _ _ Hx). split.
  - eexists. split; [by apply list_lookup_insert_eq|]. done.
  - eapply ic_set; try done; simpl. intros _ jp z _. apply Hno.
  - by eapply refs_new.
  - intros jp y Hy Hry. exists (i_ref y). rewrite list_lookup_insert_ne by (intros ->; simplify_eq; lia).
    split_and!; [done|intros ->; simplify_eq; lia|]. rewrite Hy. by destruct y.
Qed.

Lemma iget_choice D ics n :
  ic_ok D ics → 0 ≤ n < sb_ninodes sb → (in_use ics < NINODE)%nat →
  ∃ ip g x, ics !! ip = Some x ∧ got D ics n ip (<[ip := g x]> ics) ∧
    ∀ k, k_icache k = ics → ∀ (rest : K unit),
      match find_first (λ i, (0 <? i_ref i) && (i_dev i =? 1) && (i_inum i =? n)) ics with
      | Some ip => upd_inode ip (λ i, i <| i_ref := i_ref i + 1 |>) ;; rest ;; ret ip
      | None =>
          match find_first (λ i, i_ref i =? 0) ics with
          | None => panic "iget: no inodes"
          | Some ip =>
              upd_inode ip (λ i, i <| i_dev := 1 |> <| i_inum := n |> <| i_ref := 1 |> <| i_valid := 0 |>) ;;
              rest ;; ret ip
          end
      end k = (upd_inode ip g ;; rest ;; ret ip) k.
Proof.
  intros Hic Hn Hs. destruct (find_first _ ics) as [ip|] eqn:E.
  - apply find_first_Some in E as (x & Hx & Hf & _).
    apply andb_true_iff in Hf as [[Hr%Z.ltb_lt _]%andb_true_iff Hi%Z.eqb_eq]. rewrite <-Hi.
    exists ip, (λ i, i <| i_ref := i_ref i + 1 |>), x. split; [done|]. split; [by apply got_hit|done].
  - rewrite find_first_None in E. destruct (ic_free sb D ics Hic Hs) as (jp & z & Hz & Hz0).
    destruct (find_first (λ i, i_ref i =? 0) ics) as [ip|] eqn:E2.
    + apply find_first_Some in E2 as (x & Hx & H0%Z.eqb_eq & _).
      exists ip, (λ i, i <| i_dev := 1 |> <| i_inum := n |> <| i_ref := 1 |> <| i_valid := 0 |>), x. split; [done|].
      split; [|done]. eapply got_new; try done. intros kp y Hy Hry Hin.
      specialize (E y ltac:(by eapply list_elem_of_lookup_2)).
      rewrite (ie_dev _ _ _ (ic_used _ _ _ Hic _ _ Hy Hry)), Hin, !Z.eqb_refl in E.
      apply Z.ltb_lt in Hry. by rewrite Hry in E.
    + rewrite find_first_None in E2. specialize (E2 z ltac:(by eapply list_elem_of_lookup_2)).
      by rewrite Hz0 in E2.
Qed.

Lemma run_iget v n (Q : nat → view → Prop) :
  ic_ok (v_disk v) (v_ic v) → 0 ≤ n < sb_ninodes sb → (in_use (v_ic v) < NINODE)%nat →
  (∀ ip ics', got (v_disk v) (v_ic v) n ip ics' → Q ip (v <| v_ic := ics' |>)) → run v (iget 1 n) Q.
Proof.
  intros Hic Hn Hs HQ k Hk. destruct (iget_choice _ _ _ Hic Hn Hs) as (ip & g & x & Hx & Hgot & Hm).
  destruct (icache_section i c me pid k0 start size o v k (<[ip := g x]> (v_ic v)) Hk) as (kl & Ha & Hkl & Hrl & Hk').
  exists ip, (v <| v_ic := <[ip := g x]> (v_ic v) |>), (k <| k_icache := <[ip := g x]> (v_ic v) |>).
  split; [|split; [done|by apply HQ]].
  unfold iget. rewrite (bind_ret_eq _ _ _ _ _ Ha). unfold bind at 1, gets. rewrite Hkl, (Hm kl Hkl (release LIcache)).
  unfold upd_inode, bind at 1, modify. rewrite Hkl, (alter_lookup _ _ _ _ Hx).
  by rewrite (bind_ret_eq _ _ _ _ _ Hrl).
Qed.

(** ** [dirlookup] *)

Lemma fbyte_ok D a j :
  disk_ok sb N D → file_ok sb D a → 0 ≤ j < MAXFILE * BSIZE → FsDisk.is_byte (fbyte D a j).
Proof.
  intros Hd Hf Hj. unfold fbyte. case_decide as E; [unfold FsDisk.is_byte; lia|].
  assert (owns D a (fblk D a j)) as Ho by (split; [done|]; eexists; split; [by apply bn_slot_range|done]).
  destruct (owns_used sb N start size Hg D a _ Hf Ho) as (Hr & _ & HN & _).
  assert (block_ok (blk_at D (fblk D a j))) as [_ Hb].
  { apply (dk_blocks _ _ _ Hd). pose proof (size_pos sb N start size Hg). destruct Hg. unfold data_start in *. lia. }
  unfold byte_at. destruct (blk_at D (fblk D a j) !! Z.to_nat (j mod BSIZE)) as [x|] eqn:Ex; simpl; [|unfold FsDisk.is_byte; lia].
  by eapply Forall_lookup_1.
Qed.
Lemma dirent_bytes D a off :
  disk_ok sb N D → file_ok sb D a → 0 ≤ off → off + DIRENT_SIZE ≤ MAXFILE * BSIZE →
  length (de_name (fbytes D a off DIRENT_SIZE)) = DIRSIZ ∧ Forall Str.is_byte (de_name (fbytes D a off DIRENT_SIZE)).
Proof.
  intros Hd Hf Ho Hm. assert (Forall Str.is_byte (fbytes D a off DIRENT_SIZE)) as Hb.
  { unfold fbytes. apply Forall_fmap, Forall_forall. intros j Hj%elem_of_seqZ. simpl. apply (fbyte_ok D a j Hd Hf). unfold DIRENT_SIZE in *. lia. }
  unfold de_name, slice. split; [|by apply Forall_take, Forall_drop].
  unfold fbytes. rewrite length_take, length_drop, length_fmap, length_seqZ. done.
Qed.

Lemma run_namecmp {B} v name de (f : Z → K B) Q :
  Forall Str.is_byte name → Forall Str.is_byte (de_name de) → length (de_name de) = DIRSIZ →
  (∀ r, (r =? 0) = same_name name de → run v (f r) Q) → run v (bind (get_or "namecmp" (namecmp name (de_name de))) f) Q.
Proof.
  intros Hn Hd Hl HQ. unfold namecmp.
  destruct (Str.strncmp_spec (name ++ [0]) (de_name de) DIRSIZ) as (r & Hr & Heq).
  - apply Forall_app. split; [done|]. apply Forall_singleton. unfold Str.is_byte. lia.
  - done.
  - right. apply elem_of_app. right. apply list_elem_of_singleton. done.
  - left. lia.
  - apply run_bind. eapply run_get_or; [exact Hr|]. apply HQ. unfold same_name.
    destruct (Z.eqb_spec r 0); case_bool_decide; naive_solver.
Qed.

Lemma run_dirlookup_loop fuel : ∀ v dp d name off (Q : option (nat * Z) → view → Prop),
  view_ok v → inode_ok sb v dp d → v_held v = [] → (load v + 5 ≤ cap)%nat → i_type d = T_DIR →
  ic_ok (v_disk v) (v_ic v) → (in_use (v_ic v) < NINODE)%nat → Forall Str.is_byte name →
  i_size d mod DIRENT_SIZE = 0 → off mod DIRENT_SIZE = 0 → 0 ≤ off ≤ i_size d → i_size d - off < DIRENT_SIZE * Z.of_nat fuel →
  (∀ e, e ∈ entries (v_disk v) (i_addrs d) (i_size d) → de_inum e ≠ 0 → 0 ≤ de_inum e < sb_ninodes sb) →
  (match find_entry name off (drop (Z.to_nat (off / DIRENT_SIZE)) (entries (v_disk v) (i_addrs d) (i_size d))) with
   | None => Q None v
   | Some (o, n) => ∀ ip ics', got (v_disk v) (v_ic v) n ip ics' → Q (Some (ip, o)) (v <| v_ic := ics' |>)
   end) → run v (dirlookup_loop fuel dp name off) Q.
Proof.
  induction fuel as [|fuel IH]; intros v dp d name off Q Hv Hi Hh Hl Ht Hic Hu Hn Hsz Hof H0 Hf He HQ.
  { lia. }
  cbn [dirlookup_loop]. eapply run_get_inode; [apply Hi|]. pose proof (io_size _ _ _ _ Hi) as Hmax.
  destruct (Z.ltb_spec off (i_size d)) as [Hlt|Hge].
  - rewrite entries_from in HQ by (done || lia). cbn [find_entry] in HQ.
    assert (off + DIRENT_SIZE ≤ i_size d) as Hfit by (unfold DIRENT_SIZE in *; Z.div_mod_to_equations; lia).
    set (de := fbytes (v_disk v) (i_addrs d) off DIRENT_SIZE) in *.
    apply run_bind. eapply (run_readi i c me pid k0 start size o sb Hg _ _ _ _ _ _ Hv Hi Hh Hl); [by rewrite Ht|lia|done| |].
    { unfold MAXFILE, BSIZE, NDIRECT, NINDIRECT, DIRENT_SIZE in *. lia. }
    rewrite Z.min_l by lia. cbv beta iota zeta. rewrite Z.eqb_refl. cbn [negb]. fold de.
    destruct (dirent_bytes (v_disk v) (i_addrs d) off) as [Hlen Hby]; [apply Hv|apply Hi|lia|lia|]. fold de in Hlen, Hby.
    assert (∀ Q', match find_entry name (off + DIRENT_SIZE)
        (drop (Z.to_nat ((off + DIRENT_SIZE) / DIRENT_SIZE)) (entries (v_disk v) (i_addrs d) (i_size d))) with
      | None => Q' None v
      | Some (o, n) => ∀ ip ics', got (v_disk v) (v_ic v) n ip ics' → Q' (Some (ip, o)) (v <| v_ic := ics' |>)
      end → run v (dirlookup_loop fuel dp name (off + DIRENT_SIZE)) Q') as Hnext.
    { intros Q' HQ'. eapply IH; try done; unfold DIRENT_SIZE in *; [Z.div_mod_to_equations; lia|lia|lia]. }
    destruct (Z.eqb_spec (de_inum de) 0) as [E0|E0]; cbn [negb andb] in HQ; [by apply Hnext|].
    apply run_namecmp; [done..|]. intros r Hr. rewrite Hr. destruct (same_name name de); [|by apply Hnext].
    rewrite (io_dev _ _ _ _ Hi). apply run_bind. apply run_iget; [done| |done|].
    + apply He; [|done]. unfold entries. apply list_elem_of_fmap. exists (off / DIRENT_SIZE). unfold de, DIRENT_SIZE in *. split.
      * f_equal. Z.div_mod_to_equations; lia.
      * apply elem_of_seqZ. Z.div_mod_to_equations; lia.
    + intros ip ics' Hgot. by apply run_ret, HQ.
  - apply run_ret. rewrite drop_ge in HQ; [done|]. unfold entries. rewrite length_fmap, length_seqZ.
    apply Z2Nat.inj_le; [apply Z.div_pos; unfold DIRENT_SIZE; lia..|]. apply Z.div_le_mono; [done|lia].
Qed.

Lemma dinode_fields D x :
  synced sb D x → i_type x = i_type (dinode D (i_inum x)) ∧ i_nlink x = i_nlink (dinode D (i_inum x)) ∧
    i_size x = i_size (dinode D (i_inum x)) ∧ i_addrs x = i_addrs (dinode D (i_inum x)).
Proof.
  intros H. split_and!; [exact (f_equal i_type (eq_sym H))|exact (f_equal i_nlink (eq_sym H))
    |exact (f_equal i_size (eq_sym H))|exact (f_equal i_addrs (eq_sym H))].
Qed.

Lemma synced_typed v x : view_ok v → 0 ≤ i_inum x < sb_ninodes sb → synced sb (v_disk v) x → inode_typed x.
Proof.
  intros Hv Hn <-. apply decode_typed. apply (dk_blocks _ _ _ (vo_disk _ _ _ Hv)).
  destruct (IBLOCK_range k0 start size sb Hg _ Hn) as [_ ?]. destruct (IBLOCK_meta k0 start size sb Hg _ Hn) as (? & _). lia.
Qed.

(** [dirlookup] finds what the directory has on the disk. *)
Lemma run_dirlookup v dp d name (Q : option (nat * Z) → view → Prop) :
  view_ok v → v_ic v !! dp = Some d → 0 < i_ref d → i_valid d ≠ 0 → v_held v = [] → (load v + 5 ≤ cap)%nat →
  is_dir sb (v_disk v) (i_inum d) = true → dir_ok sb (v_disk v) (i_inum d) → ic_ok (v_disk v) (v_ic v) →
  (in_use (v_ic v) < NINODE)%nat → Forall Str.is_byte name →
  (match find_entry name 0 (dir_entries sb (v_disk v) (i_inum d)) with
   | None => Q None v
   | Some (o, n) => ∀ ip ics', got (v_disk v) (v_ic v) n ip ics' → Q (Some (ip, o)) (v <| v_ic := ics' |>)
   end) → run v (dirlookup dp name) Q.
Proof.
  intros Hv Hd Hr Hvl Hh Hl Hdir Hok Hic Hu Hn HQ. pose proof (ic_used _ _ _ Hic _ _ Hd Hr) as [E1 E2 E3].
  pose proof (E3 Hvl) as Hs. destruct (dinode_fields _ _ Hs) as (Ft & Fn & Fs & Fa). unfold is_dir in Hdir. rewrite <-Ft in Hdir.
  destruct Hok as [O1 O2 O3 O4 O5]. unfold dir_entries in *. rewrite <-Fa, <-Fs in *.
  pose proof (synced_typed _ _ Hv E2 Hs) as Hty.
  assert (inode_ok sb v dp d) as Hi by by split.
  unfold dirlookup. eapply run_get_inode; [done|]. apply Z.eqb_eq in Hdir. rewrite Hdir. cbn [negb].
  pose proof (it_size _ Hty) as Hsz. unfold is_uint in Hsz.
  eapply run_dirlookup_loop; try done.
  - lia.
  - unfold DIRENT_SIZE. Z.div_mod_to_equations; lia.
  - intros e He Hne. apply (O5 e He Hne).
Qed.

(** ** [namex] *)

(** Releasing and giving back a locked inode that stays in the file system. *)
Lemma run_iunlockput v ip x (Q : unit → view → Prop) :
  v_ic v !! ip = Some x → (ip < NINODE)%nat → v_locked v = {[ip]} → 1 ≤ i_ref x → i_nlink x ≠ 0 ∨ i_ref x ≠ 1 →
  Q tt (v <| v_locked := ∅ |> <| v_ic := <[ip := x <| i_ref := i_ref x - 1 |>]> (v_ic v) |>) → run v (iunlockput ip) Q.
Proof.
  intros Hx Hip Hl Hr Hk HQ. unfold iunlockput. apply run_bind. eapply run_iunlock; [done|done|set_solver|done|].
  rewrite Hl, difference_diag_L. eapply run_iput_keep; [exact Hg|done|done|set_solver|by right|]. exact HQ.
Qed.
Lemma give_back D ics ip x R :
  ic_ok D ics → ics !! ip = Some x → 1 ≤ i_ref x → refs ics = R ⊎ {[+ i_inum x +]} →
  ic_ok D (<[ip := x <| i_ref := i_ref x - 1 |>]> ics) ∧ refs (<[ip := x <| i_ref := i_ref x - 1 |>]> ics) = R.
Proof.
  intros Hic Hx Hr HR. split.
  - eapply ic_set_same; try done; simpl; [lia|lia|]. intros _. eapply ic_entry_ref, ic_used; try done. lia.
  - assert (refs (<[ip := x <| i_ref := i_ref x - 1 |>]> ics) ⊎ {[+ i_inum x +]} = refs ics) as H
      by by eapply refs_drop. multiset_solver.
Qed.
Lemma loaded_entry D x :
  ic_entry sb D x → let x' := loaded sb D x in
  ic_entry sb D x' ∧ i_valid x' ≠ 0 ∧ i_inum x' = i_inum x ∧ i_ref x' = i_ref x ∧ synced sb D x'.
Proof.
  intros [H1 H2 H3]. unfold loaded. destruct (Z.eqb_spec (i_valid x) 0) as [E|E].
  - split_and!; try done.
  - split_and!; try done. by apply H3.
Qed.

(** A view in which slot [ip] holds one reference beyond [R]. *)
Record at_inode v (ip : nat) (x : inode) (R : gmultiset Z) : Prop := {
  ai_view : view_ok v;
  ai_held : v_held v = [];
  ai_load : (load v + 5 ≤ cap)%nat;
  ai_tree : tree_ok sb (v_disk v);
  ai_ok : ic_ok (v_disk v) (v_ic v);
  ai_slot : v_ic v !! ip = Some x;
  ai_ref : 0 < i_ref x;
  ai_type : i_type (dinode (v_disk v) (i_inum x)) ≠ 0;
  ai_link : i_nlink (dinode (v_disk v) (i_inum x)) ≠ 0 ∨ i_ref x ≠ 1;
  ai_refs : refs (v_ic v) = R ⊎ {[+ i_inum x +]}
}.
(** The same with the inode locked and loaded. *)
Definition entered v (ip : nat) (x : inode) (R : gmultiset Z) : Prop :=
  at_inode v ip x R ∧ v_locked v = {[ip]} ∧ i_valid x ≠ 0 ∧ synced sb (v_disk v) x.

Lemma at_inode_slot v ip x R : at_inode v ip x R → (ip < NINODE)%nat.
Proof. intros Ha. rewrite <-(ic_len _ _ _ (ai_ok _ _ _ _ Ha)). eapply lookup_lt_Some, Ha. Qed.

Lemma run_enter v ip x R (Q : unit → view → Prop) :
  at_inode v ip x R → v_locked v = ∅ →
  (∀ ics x', entered (v <| v_locked := {[ip]} |> <| v_ic := ics |>) ip x' R → i_inum x' = i_inum x →
     Q tt (v <| v_locked := {[ip]} |> <| v_ic := ics |>)) → run v (ilock ip) Q.
Proof.
  intros Ha Hlk HQ. pose proof Ha as [A1 A2 A3 A4 A5 A6 A7 A8 A9 A10]. pose proof (at_inode_slot _ _ _ _ Ha) as Hip.
  pose proof (ic_used _ _ _ A5 _ _ A6 A7) as Hent.
  destruct (loaded_entry _ _ Hent) as (Hent1 & Hv1 & Hn1 & Hr1 & Hs1). set (x1 := loaded sb (v_disk v) x) in *.
  destruct (dinode_fields _ _ Hs1) as (Ft & Fn & _). rewrite Hn1 in Ft, Fn.
  eapply (run_ilock i c me pid k0 start size o sb Hg); [done|done|done|set_solver|lia|apply Hent|apply Hent|done|lia| |].
  { intros Hz. change (i_type x1 ≠ 0). by rewrite Ft. }
  fold x1. rewrite Hlk, union_empty_r_L. apply (HQ (<[ip := x1]> (v_ic v)) x1); [|done].
  split; [|done]. rewrite <-Hr1 in A7, A9. split; rewrite ?Hn1; try done; simpl.
  - destruct A1. by split.
  - eapply ic_set_same; try done; lia.
  - apply list_lookup_insert_eq. by rewrite (ic_len _ _ _ A5).
  - rewrite <-A10. by eapply refs_same.
Qed.

(** Giving the inode back. *)
Lemma run_leave v ip x R (Q : unit → view → Prop) :
  entered v ip x R →
  (∀ ics, ic_ok (v_disk v) ics → refs ics = R → ics = <[ip := x <| i_ref := i_ref x - 1 |>]> (v_ic v) →
     Q tt (v <| v_locked := ∅ |> <| v_ic := ics |>)) → run v (iunlockput ip) Q.
Proof.
  intros (Ha & Hl & Hvl & Hs) HQ. pose proof Ha as [A1 A2 A3 A4 A5 A6 A7 A8 A9 A10].
  destruct (dinode_fields _ _ Hs) as (_ & Fn & _). rewrite <-Fn in A9.
  eapply run_iunlockput; [done|by eapply at_inode_slot|done|lia|done|].
  destruct (give_back _ _ _ _ R A5 A6 ltac:(lia) A10) as [Hic HR]. by apply HQ.
Qed.
Lemma run_put v ip x R (Q : unit → view → Prop) :
  at_inode v ip x R → v_locked v = ∅ → (∀ ics, ic_ok (v_disk v) ics → refs ics = R → Q tt (v <| v_ic := ics |>)) →
  run v (iput ip) Q.
Proof.
  intros Ha Hl HQ. pose proof Ha as [A1 A2 A3 A4 A5 A6 A7 A8 A9 A10].
  eapply run_iput_keep; [exact Hg|done|by eapply at_inode_slot|set_solver| |].
  - destruct (decide (i_valid x = 0)) as [|Hvl]; [by left|right].
    by destruct (dinode_fields _ _ (ie_synced _ _ _ (ic_used _ _ _ A5 _ _ A6 A7) Hvl)) as (_ & -> & _).
  - destruct (give_back _ _ _ _ R A5 A6 ltac:(lia) A10). by apply HQ.
Qed.

(** One step of the walk: from a directory to the inode of one of its entries. *)
Lemma run_descend {B} v ip x R name (f : nat → K B) (e : K B) Q :
  entered v ip x R → is_dir sb (v_disk v) (i_inum x) = true → Forall Str.is_byte name → (distinct R + 2 ≤ NINODE)%nat →
  (dir_lookup sb (v_disk v) (i_inum x) name = None → ∀ ics, ic_ok (v_disk v) ics → refs ics = R →
     run (v <| v_locked := ∅ |> <| v_ic := ics |>) e Q) →
  (∀ ics jp y, dir_lookup sb (v_disk v) (i_inum x) name = Some (i_inum y) →
     at_inode (v <| v_locked := ∅ |> <| v_ic := ics |>) jp y R → run (v <| v_locked := ∅ |> <| v_ic := ics |>) (f jp) Q) →
  run v (next ← dirlookup ip name; match next with None => iunlockput ip ;; e | Some (next, _) => iunlockput ip ;; f next end) Q.
Proof.
  intros He Hdir Hn Hroom Hnone Hsome. pose proof He as ([A1 A2 A3 A4 A5 A6 A7 A8 A9 A10] & Hl & Hvl & Hs).
  pose proof (ic_used _ _ _ A5 _ _ A6 A7) as Hent. assert (dir_ok sb (v_disk v) (i_inum x)) as Hdo by (apply A4; [apply Hent|done]).
  apply run_bind. eapply run_dirlookup; try done.
  { unfold in_use. rewrite A10. pose proof (distinct_add R (i_inum x)). lia. }
  unfold dir_lookup in *. destruct (find_entry name 0 _) as [[off m]|] eqn:Ef; simpl in *.
  2: { apply run_bind. eapply run_leave; [exact He|]. intros ics Hic HR _. by apply Hnone. }
  intros jp ics2 [(y & Hy & Hyn & Hyr) Go Gr Gk]. destruct (Gk _ _ A6 A7) as (r2 & Hr2 & Hrj & Hx2).
  set (v2 := v <| v_ic := ics2 |>). set (x2 := x <| i_ref := r2 |>) in *.
  assert (entered v2 ip x2 (R ⊎ {[+ m +]})) as He2.
  { split; [|split_and!; [done|done|by apply synced_ref]].
    split; try done; simpl; [by destruct A1; split|lia|lia|]. rewrite Gr, A10. apply refs_swap. }
  apply run_bind. eapply run_leave; [exact He2|]. intros ics3 Hic3 HR3 E3.
  destruct (dir_lookup_ok sb (v_disk v) (i_inum x) name m Hdo) as (Hm1 & Hm2 & Hm3); [unfold dir_lookup; by rewrite Ef|].
  assert (∃ z, ics3 !! jp = Some z ∧ i_inum z = m ∧ 0 < i_ref z) as (z & Hz & Hzn & Hzr).
  { rewrite E3. destruct (decide (jp = ip)) as [->|Hne].
    - simplify_eq. eexists. simpl. rewrite list_lookup_insert_eq by by eapply lookup_lt_Some. split; [done|]. simpl in *. lia.
    - exists y. by rewrite list_lookup_insert_ne. }
  apply (Hsome ics3 jp z); [by rewrite Hzn|]. split; rewrite ?Hzn; try done; [by destruct A1; split|by left].
Qed.

(** Where the walk of [ns] from inode [n] ends: [r] is the slot of the inode,
    with the one reference that the cache has beyond [R]. *)
Definition walked D (R : gmultiset Z) (parent : bool) (n : Z) (ns : list (list Z)) (r : option nat * list Z) ics : Prop :=
  ic_ok D ics ∧
  match found sb parent D n ns with
  | Some m => ∃ ip x, r.1 = Some ip ∧ ics !! ip = Some x ∧ i_inum x = m ∧ 0 < i_ref x ∧ refs ics = R ⊎ {[+ m +]} ∧
      (parent = true → last ns = Some r.2)
  | None => r.1 = None ∧ refs ics = R
  end.

Lemma run_namex_loop fuel : ∀ v ip x path parent name R (Q : option nat * list Z → view → Prop),
  at_inode v ip x R → v_locked v = ∅ → (distinct R + 2 ≤ NINODE)%nat → Forall Str.is_byte path → (length path < fuel)%nat →
  (∀ r ics, walked (v_disk v) R parent (i_inum x) (elems path) r ics → Q r (v <| v_ic := ics |>)) →
  run v (namex_loop fuel ip path parent name) Q.
Proof.
  induction fuel as [|fuel IH]; intros v ip x path parent name R Q Ha Hlk Hroom Hp Hf HQ; [lia|].
  cbn [namex_loop]. pose proof (skipelem_elems path) as Hse. unfold walked in HQ. destruct (skipelem path) as [[nm rest]|].
  2: { rewrite Hse in HQ. destruct parent; cbn [found resolve resolve_parent] in HQ.
    - apply run_bind. eapply run_put; [exact Ha|done|]. intros ics Hic HR. by apply run_ret, HQ.
    - apply run_ret. assert (v = v <| v_ic := v_ic v |>) as E by by destruct v. rewrite E. apply HQ.
      split; [apply Ha|]. exists ip, x. split_and!; try done; apply Ha. }
  destruct Hse as (Hel & Hlen & Hrest & Hin1 & Hin2). rewrite Hel, found_cons, <-(bool_decide_ext _ _ Hrest) in HQ.
  rewrite Forall_forall in Hp. apply run_bind. eapply run_enter; [exact Ha|done|]. intros ics1 x1 He Hn1.
  set (v1 := v <| v_locked := _ |> <| v_ic := ics1 |>) in *.
  assert (∀ ics, v1 <| v_locked := ∅ |> <| v_ic := ics |> = v <| v_ic := ics |>) as Hback
    by (intros ics; rewrite <-Hlk; by destruct v).
  destruct He as (Ha1 & Hl1 & Hv1 & Hs1). eapply run_get_inode; [apply Ha1|].
  destruct (dinode_fields _ _ Hs1) as (Ft & _). change (v_disk v1) with (v_disk v) in Ft. rewrite Hn1 in Ft.
  rewrite Ft. change (i_type (dinode (v_disk v) (i_inum x)) =? T_DIR) with (is_dir sb (v_disk v) (i_inum x)).
  destruct (is_dir sb (v_disk v) (i_inum x)) eqn:Ed; cbn [negb].
  2: { apply run_bind. eapply run_leave; [by split|]. intros ics Hic HR _. apply run_ret. rewrite Hback. by apply HQ. }
  destruct (parent && bool_decide (rest = [])) eqn:Ep.
  { apply run_bind. eapply run_iunlock; [apply Ha1|by eapply at_inode_slot|rewrite Hl1; set_solver|pose proof (ai_ref _ _ _ _ Ha1); lia|].
    apply run_ret. rewrite Hl1, difference_diag_L. change (Q (Some ip, nm) (v1 <| v_locked := ∅ |> <| v_ic := ics1 |>)).
    rewrite Hback. apply HQ. split; [apply Ha1|]. exists ip, x1. rewrite <-Hn1. split_and!; try done; try apply Ha1.
    intros _. apply andb_true_iff in Ep as [_ ->%bool_decide_eq_true]. done. }
  eapply run_descend; [by split|by rewrite Hn1|apply Forall_forall; auto|done|..]; change (v_disk v1) with (v_disk v); rewrite Hn1.
  - intros Hno ics Hic HR. apply run_ret. rewrite Hback. apply HQ. by rewrite Hno.
  - intros ics jp y Hl Hj. rewrite Hback in Hj |- *. eapply IH; [exact Hj|done|done|apply Forall_forall; auto|lia|].
    intros r ics4 [W1 W2]. change (v_disk _) with (v_disk v) in W1, W2. apply (HQ r ics4). split; [done|]. rewrite Hl. simpl.
    destruct (found sb parent (v_disk v) (i_inum y) (elems rest)) as [q|]; [|done].
    destruct W2 as (kp & w & W3 & W4 & W5 & W6 & W7 & W8). exists kp, w. split_and!; try done. intros Hpt.
    by rewrite last_cons, (W8 Hpt).
Qed.

(** The inode a path starts from: the root, or the current directory of the process. *)
Definition starts_at (k : kernel) v (path : list Z) (n : Z) : Prop :=
  if bool_decide (head path = Some SLASH) then n = ROOTINO ∧ 0 ≤ n < sb_ninodes sb ∧ i_nlink (dinode (v_disk v) n) ≠ 0
  else ∃ p cwd x, k_proc k !! me = Some p ∧ p_cwd p = Some cwd ∧ v_ic v !! cwd = Some x ∧ 0 < i_ref x ∧ i_inum x = n.

(** A view in which paths can be looked up. *)
Record can_walk v : Prop := {
  cw_view : view_ok v;
  cw_held : v_held v = [];
  cw_locked : v_locked v = ∅;
  cw_load : (load v + 5 ≤ cap)%nat;
  cw_tree : tree_ok sb (v_disk v);
  cw_cache : ic_ok (v_disk v) (v_ic v);
  cw_room : (in_use (v_ic v) + 2 ≤ NINODE)%nat
}.

Lemma got_at v n ip ics :
  can_walk v → got (v_disk v) (v_ic v) n ip ics → i_type (dinode (v_disk v) n) ≠ 0 →
  (i_nlink (dinode (v_disk v) n) ≠ 0 ∨ ∀ x, ics !! ip = Some x → i_ref x ≠ 1) →
  ∃ x, i_inum x = n ∧ at_inode (v <| v_ic := ics |>) ip x (refs (v_ic v)).
Proof.
  intros [C1 C2 C3 C4 C5 C6 C7] [(x & Hx & <- & Hr) Go Gr Gk] Hty Hl. exists x. split; [done|].
  split; try done; [by destruct C1; split|]. destruct Hl as [?|Hl]; [by left|right; by apply Hl].
Qed.

Lemma namex_ret k v path parent n :
  fsv i c me pid k0 start size o v k → can_walk v → Forall Str.is_byte path → starts_at k v path n →
  i_type (dinode (v_disk v) n) ≠ 0 →
  ∃ r ics k', namex path parent k = Ret r k' ∧ fsv i c me pid k0 start size o (v <| v_ic := ics |>) k' ∧
    walked (v_disk v) (refs (v_ic v)) parent n (elems path) r ics.
Proof.
  intros Hk Hw Hp Hst Hty. pose proof (fv_txn _ _ _ _ _ _ _ _ _ _ Hk) as Ht. pose proof (tx_env _ _ _ _ _ _ _ _ _ _ _ _ Ht) as He.
  set (P := λ res : outcome kernel (option nat * list Z), ∃ r ics k', res = Ret r k' ∧
    fsv i c me pid k0 start size o (v <| v_ic := ics |>) k' ∧ walked (v_disk v) (refs (v_ic v)) parent n (elems path) r ics).
  assert (∀ ip ics k1, fsv i c me pid k0 start size o (v <| v_ic := ics |>) k1 → got (v_disk v) (v_ic v) n ip ics →
    (i_nlink (dinode (v_disk v) n) ≠ 0 ∨ ∀ x, ics !! ip = Some x → i_ref x ≠ 1) →
    P (namex_loop (S (length path)) ip path parent [] k1)) as Hloop.
  { intros ip ics k1 Hk1 Hgot Hl. destruct (got_at v n ip ics Hw Hgot Hty Hl) as (x & Hn & Ha).
    destruct (run_namex_loop (S (length path)) _ ip x path parent [] _ (λ r v', ∃ ics', v' = v <| v_ic := ics' |> ∧
      walked (v_disk v) (refs (v_ic v)) parent n (elems path) r ics') Ha) with (k := k1) as (r & v' & k' & Hr & Hk' & ics' & -> & Hwk); try done.
    - apply Hw.
    - apply Hw.
    - lia.
    - intros r ics' Hwk. exists ics'. split; [done|]. by rewrite <-Hn.
    - by exists r, ics', k'. }
  unfold namex. unfold starts_at in Hst. case_bool_decide.
  - destruct Hst as (-> & Hr & Hnl). apply (run_then i c me pid start size P o k0 v _ _ _ (λ ip v', ∃ ics, v' = v <| v_ic := ics |> ∧ got (v_disk v) (v_ic v) ROOTINO ip ics)).
    + apply run_iget; [apply Hw|done| |by eauto]. pose proof (cw_room _ Hw). lia.
    + done.
    + intros ip v' k1 (ics & -> & Hgot) Hk1. apply (Hloop ip ics); auto.
  - destruct Hst as (p & cwd & x & Hpr & Hcwd & Hx & Hr & <-).
    assert (∀ f : nat → K (option nat * list Z), bind (me ← curproc; p ← get_proc me; cwd ← get_or "cwd" (p_cwd p); idup cwd) f k
      = bind (idup cwd) f k) as E.
    { intros f. unfold bind at 1. rewrite (bind_ret_eq _ _ _ _ _ (curproc_ret k i c me (be_cpu _ _ _ _ _ He) (be_proc _ _ _ _ _ He))).
      unfold get_proc, bind at 1 2, gets at 1. rewrite Hpr. simpl. unfold bind at 1. by rewrite Hcwd. }
    rewrite E. apply (run_then i c me pid start size P o k0 v _ _ _ (λ ip v', ∃ ics, v' = v <| v_ic := ics |> ∧
      got (v_disk v) (v_ic v) (i_inum x) ip ics ∧ ics !! ip = Some (x <| i_ref := i_ref x + 1 |>))); [|done|].
    + unfold idup. eapply run_icache_upd; [exact Hx|]. apply run_ret. eexists. split; [done|].
      split; [apply got_hit; [apply Hw|done..]|]. apply list_lookup_insert_eq. by eapply lookup_lt_Some.
    + intros ip v' k1 (ics & -> & Hgot & Hi) Hk1. apply (Hloop ip ics); [done|done|right].
      rewrite Hi. intros y [= <-]. simpl. lia.
Qed.
End lookup.
