(* ===== verification/FsLink.v ===== *)
(** * FsLink: adding directory entries ([dirlink])

    [dirlink] puts the new entry where the first free one is, or at the end; a
    later [dirlookup] of the name finds it, and other names are found as before. *)
From stdpp Require Import gmultiset.
From S2P Require Import Prelude.
From S2P Require Import Mem.
From S2P Require Import Str.
From S2P Require Import State.
From S2P Require Import Spin.
From S2P Require Import Boot.
From S2P Require Import Cons.
From S2P Require Import Kalloc.
From S2P Require Import Vm.
From S2P Require Import Mlq.
From S2P Require Import Proc.
From S2P Require Import ProcSpec.
From S2P Require Import Blk.
From S2P Require Import Bio.
From S2P Require Import BioSpec.
From S2P Require Import Log.
From S2P Require Import Txn.
From S2P Require Import Fs.
From S2P Require Import FsLogic.
From S2P Require Import FsDisk.
From S2P Require Import FsMap.
From S2P Require Import FsAlloc.
From S2P Require Import FsInode.
From S2P Require Import FsFile.
From S2P Require Import FsTrunc.
From S2P Require Import FsOp.
From S2P Require Import FsPath.
From S2P Require Import FsDir.

(** ** Lists of entries *)

(** Entry [idx] replaced, or added when [idx] is the length. *)
Definition put_entry (es : list (list Z)) (idx : nat) (e : list Z) : list (list Z) :=
  take idx es ++ e :: drop (S idx) es.

Lemma put_entry_S x es idx e : put_entry (x :: es) (S idx) e = x :: put_entry es idx e.
Proof. done. Qed.

Lemma find_put_same name es e idx off :
  find_entry name off es = None → (idx ≤ length es)%nat → de_inum e ≠ 0 → same_name name e = true →
  find_entry name off (put_entry es idx e) = Some (off + DIRENT_SIZE * Z.of_nat idx, de_inum e).
Proof.
  intros Hf Hi Hn Hs. revert off es Hf Hi. induction idx as [|idx IH]; intros off es Hf Hi.
  - simpl. apply Z.eqb_neq in Hn. rewrite Hn, Hs. simpl. do 2 f_equal. unfold DIRENT_SIZE. lia.
  - destruct es as [|x es]; [simpl in Hi; lia|]. rewrite put_entry_S. simpl in *. case_match; [done|].
    rewrite IH by (done || lia). do 2 f_equal. unfold DIRENT_SIZE. lia.
Qed.
Lemma find_put_other name es e idx off :
  (idx ≤ length es)%nat → (∀ x, es !! idx = Some x → de_inum x = 0) → same_name name e = false →
  find_entry name off (put_entry es idx e) = find_entry name off es.
Proof.
  intros Hi Hz Hs. revert off es Hi Hz. induction idx as [|idx IH]; intros off es Hi Hz.
  - simpl. rewrite Hs, andb_false_r. destruct es as [|x es]; [done|]. simpl. rewrite (Hz x) by done. simpl. by rewrite drop_0.
  - destruct es as [|x es]; [simpl in Hi; lia|]. rewrite put_entry_S. simpl. case_match; [done|].
    apply IH; [simpl in Hi; lia|]. intros y Hy. by apply Hz.
Qed.

(** The entries of a directory in which 16 bytes have been written. *)
Lemma entries_write D D' a a' s off e :
  (∀ j, 0 ≤ j < MAXFILE * BSIZE → fbyte D' a' j = over off e j (fbyte D a j)) → length e = 16%nat →
  0 ≤ off ≤ s → s mod DIRENT_SIZE = 0 → off mod DIRENT_SIZE = 0 → off + 16 ≤ MAXFILE * BSIZE → s ≤ MAXFILE * BSIZE →
  entries D' a' (Z.max s (off + 16)) = put_entry (entries D a s) (Z.to_nat (off / DIRENT_SIZE)) e.
Proof.
  intros Hb Hl Hoff Hs Ho Hm Hsm. unfold DIRENT_SIZE in *. set (idx := Z.to_nat (off / 16)).
  assert (off = 16 * Z.of_nat idx) as Eo by (unfold idx; Z.div_mod_to_equations; lia).
  assert (∀ j, 0 ≤ j → 16 * j + 16 ≤ MAXFILE * BSIZE →
    fbytes D' a' (16 * j) 16 = if decide (j = Z.of_nat idx) then e else fbytes D a (16 * j) 16) as Hj.
  { intros j H0 Hjm. unfold fbytes.
    rewrite (list_fmap_ext (fbyte D' a') (λ x, over off e x (fbyte D a x))).
    2: { intros n x Hx. rewrite Hb; [done|]. apply lookup_seqZ in Hx as [-> ?]. lia. }
    case_decide as E.
    - subst j. rewrite <-Eo. replace 16 with (Z.of_nat (length e)) by lia. apply over_read. lia.
    - apply list_fmap_ext. intros n x Hx. apply lookup_seqZ in Hx as [-> ?]. unfold over. case_decide; [|done].
      rewrite lookup_ge_None_2; [done|]. lia. }
  apply list_eq. intros n. unfold entries, put_entry, DIRENT_SIZE.
  rewrite list_lookup_fmap.
  assert (length (take idx ((λ j, fbytes D a (16 * j) 16) <$> seqZ 0 (s / 16))) = idx) as Ht.
  { rewrite length_take, length_fmap, length_seqZ. unfold idx. Z.div_mod_to_equations; lia. }
  destruct (decide (n < Z.to_nat (Z.max s (off + 16) / 16))%nat) as [Hn|Hn].
  - rewrite lookup_seqZ_lt by lia. simpl. rewrite Hj by (Z.div_mod_to_equations; lia).
    destruct (lt_eq_lt_dec n idx) as [[Hlt|Heq]|Hgt].
    + rewrite decide_False by lia. rewrite lookup_app_l by lia. rewrite lookup_take_lt by done. rewrite list_lookup_fmap, lookup_seqZ_lt; [done|].
      unfold idx in Hlt. Z.div_mod_to_equations; lia.
    + rewrite decide_True by lia. rewrite lookup_app_r by lia. subst n. by rewrite Ht, Nat.sub_diag.
    + rewrite decide_False by lia. rewrite lookup_app_r by lia. rewrite Ht. destruct (n - idx)%nat as [|q] eqn:Eq; [lia|].
      simpl. rewrite lookup_drop, list_lookup_fmap. replace (S idx + q)%nat with n by lia.
      rewrite lookup_seqZ_lt; [done|]. unfold idx in *. Z.div_mod_to_equations; lia.
  - rewrite lookup_seqZ_ge by lia. symmetry. apply lookup_ge_None_2. rewrite length_app, Ht. simpl.
    rewrite length_drop, length_fmap, length_seqZ. unfold idx in *. Z.div_mod_to_equations; lia.
Qed.

(** ** The new entry *)

Definition str_of (name : list Z) : list Z := Str.cut DIRSIZ (name ++ [0]).

Lemma slice_put16 l v o n : (2 ≤ o)%nat → slice (put16 l 0 v) o n = slice l o n.
Proof.
  intros Ho. unfold slice, put16. f_equal. apply list_eq. intros j. rewrite !lookup_drop.
  rewrite !list_lookup_insert_ne by lia. done.
Qed.
Lemma cut_bytes (P : Z → Prop) n s : Forall P s → Forall P (Str.cut n s).
Proof.
  revert s. induction n as [|n IH]; intros [|x s] Hs; simpl; try constructor. apply Forall_cons in Hs as [Hx Hs].
  case_match; constructor; auto.
Qed.
Lemma link_entry de name inum :
  length de = 16%nat → Forall FsDisk.is_byte de → Forall Str.is_byte name → 0 ≤ inum < 65536 →
  ∃ nm, Str.strncpy (de_name de) (name ++ [0]) DIRSIZ = Some nm ∧
    let e := put16 (splice de 2 nm) 0 inum in
    length e = 16%nat ∧ Forall FsDisk.is_byte e ∧ de_inum e = inum ∧ Str.cut DIRSIZ (de_name e) = str_of name.
Proof.
  intros Hl Hb Hn Hi. assert (length (de_name de) = DIRSIZ) as Hd.
  { unfold de_name, slice. rewrite length_take, length_drop, Hl. done. }
  assert (Str.scannable DIRSIZ (name ++ [0])) as Hsc by (right; apply elem_of_app; right; by apply list_elem_of_singleton).
  pose proof (Str.strncpy_spec (de_name de) (name ++ [0]) DIRSIZ ltac:(lia) Hsc) as Hs.
  pose proof (Str.length_cut DIRSIZ (name ++ [0])) as Hcl. rewrite (drop_ge (de_name de)) in Hs by lia. rewrite app_nil_r in Hs.
  set (nm := Str.cut _ _ ++ replicate _ 0) in Hs. exists nm. split; [done|]. intros e.
  assert (length nm = 14%nat) as Hnm by (unfold nm; rewrite length_app, length_replicate; unfold DIRSIZ in *; lia).
  assert (length (splice de 2 nm) = 16%nat) as Hsp by (rewrite length_splice; lia).
  assert (Forall FsDisk.is_byte nm) as Hnb.
  { apply Forall_app. split; [|apply Forall_replicate; unfold FsDisk.is_byte; lia]. apply cut_bytes.
    apply Forall_app. split; [done|]. apply Forall_singleton. unfold FsDisk.is_byte. lia. }
  split_and!.
  - unfold e, put16. by rewrite !length_insert.
  - unfold e, put16. apply Forall_insert; [apply Forall_insert|]; [|apply is_byte_u8..].
    unfold splice. apply Forall_app; split; [by apply Forall_take|]. apply Forall_app; split; [done|by apply Forall_drop].
  - unfold e, de_inum. rewrite get16_put16_eq by lia. unfold u16. rewrite Z.mod_small by lia. done.
  - unfold e, de_name. rewrite slice_put16 by lia. change DIRSIZ with 14%nat at 2. rewrite <-Hnm, slice_splice by lia.
    by eapply (Str.strncpy_cut (de_name de) (name ++ [0])); [lia|done|].
Qed.

Section link.
Context (i : nat) (c : cpu) (me : nat) (pid : Z) (k0 : kernel) (start size o : Z) (sb : superblock).
Let N := length (k_disk k0).
Context (Hg : geometry sb N start size).
Context `{DS : !DevSw}.
Implicit Types (v : view) (D : list (list Z)) (ics : list inode).
Local Notation run := (run i c me pid k0 start size o).
Local Notation cap := (cap size).
Local Notation view_ok := (view_ok k0 sb).

(** Where the first free entry is. *)
Definition free_slot (es : list (list Z)) (off : Z) (de : list Z) : Prop :=
  off mod DIRENT_SIZE = 0 ∧ 0 ≤ off ≤ DIRENT_SIZE * Z.of_nat (length es) ∧ length de = 16%nat ∧ Forall FsDisk.is_byte de ∧
  ∀ x, es !! Z.to_nat (off / DIRENT_SIZE) = Some x → de_inum x = 0.

Lemma run_empty_dirent fuel : ∀ v dp d off (Q : Z * list Z → view → Prop),
  view_ok v → inode_ok sb v dp d → v_held v = [] → (load v + 5 ≤ cap)%nat → i_type d = T_DIR →
  i_size d mod DIRENT_SIZE = 0 → off mod DIRENT_SIZE = 0 → 0 ≤ off ≤ i_size d → i_size d - off < DIRENT_SIZE * Z.of_nat fuel →
  (∀ off' de, free_slot (entries (v_disk v) (i_addrs d) (i_size d)) off' de → Q (off', de) v) →
  run v (empty_dirent fuel dp off) Q.
Proof.
  induction fuel as [|fuel IH]; intros v dp d off Q Hv Hi Hh Hl Ht Hsz Hof H0 Hf HQ; [lia|].
  cbn [empty_dirent]. eapply run_get_inode; [apply Hi|]. pose proof (io_size _ _ _ _ Hi) as Hmax.
  assert (length (entries (v_disk v) (i_addrs d) (i_size d)) = Z.to_nat (i_size d / DIRENT_SIZE)) as Hle
    by (unfold entries; by rewrite length_fmap, length_seqZ).
  destruct (Z.ltb_spec off (i_size d)) as [Hlt|Hge].
  - set (de := fbytes (v_disk v) (i_addrs d) off DIRENT_SIZE).
    assert (off + DIRENT_SIZE ≤ i_size d) as Hfit by (unfold DIRENT_SIZE in *; Z.div_mod_to_equations; lia).
    apply run_bind. eapply (run_readi i c me pid k0 start size o sb Hg _ _ _ _ _ _ Hv Hi Hh Hl); [by rewrite Ht|lia|done| |].
    { unfold MAXFILE, BSIZE, NDIRECT, NINDIRECT, DIRENT_SIZE in *. lia. }
    rewrite Z.min_l by lia. cbv beta iota zeta. rewrite Z.eqb_refl. cbn [negb]. fold de.
    destruct (Z.eqb_spec (de_inum de) 0) as [E0|E0].
    + apply run_ret. apply HQ. split_and!; [done|lia| | | |].
      * rewrite Hle. unfold DIRENT_SIZE in *. Z.div_mod_to_equations; lia.
      * unfold de, fbytes. by rewrite length_fmap, length_seqZ.
      * unfold de, fbytes. apply Forall_fmap, Forall_forall. intros j Hj%elem_of_seqZ. simpl.
        apply (fbyte_ok k0 start size sb Hg); [apply Hv|apply Hi|]. unfold DIRENT_SIZE in *. lia.
      * intros x Hx. pose proof (entries_from (v_disk v) (i_addrs d) (i_size d) off ltac:(lia) Hsz Hof Hlt) as He.
        pose proof (f_equal (λ l, l !! 0%nat) He) as He0. simpl in He0. rewrite lookup_drop, Nat.add_0_r, Hx in He0. simplify_eq. done.
    + eapply IH; try done; unfold DIRENT_SIZE in *; [Z.div_mod_to_equations; lia|lia|lia].
  - apply run_ret. apply HQ. split_and!; [done|lia| |done| |].
    + rewrite Hle. unfold DIRENT_SIZE in *. Z.div_mod_to_equations; lia.
    + apply (Forall_replicate _ 16). unfold FsDisk.is_byte. lia.
    + intros x Hx%lookup_lt_Some. rewrite Hle in Hx. unfold DIRENT_SIZE in *. Z.div_mod_to_equations; lia.
Qed.

(** A directory that is locked and loaded, with room for an entry. *)
Record can_link v (dp : nat) (d : inode) : Prop := {
  cl_view : view_ok v;
  cl_held : v_held v = [];
  cl_inode : v_ic v !! dp = Some d;
  cl_ref : 0 < i_ref d;
  cl_valid : i_valid d ≠ 0;
  cl_dir : is_dir sb (v_disk v) (i_inum d) = true;
  cl_ok : dir_ok sb (v_disk v) (i_inum d);
  cl_cache : ic_ok sb (v_disk v) (v_ic v);
  cl_room : (in_use (v_ic v) < NINODE)%nat;
  cl_trans : 1 ≤ o;
  cl_load : (load v + nbitmap sb + 7 ≤ cap)%nat;
  cl_size : i_size d + 16 ≤ MAXFILE * BSIZE;
  cl_free : (2 ≤ credit sb (v_disk v) (i_addrs d))%nat
}.

(** What [dirlink] leaves: the name leads to the inode, all others where they did. *)
Record linked v (d : inode) (name : list Z) (inum : Z) v' : Prop := {
  ln_ok : view_ok v';
  ln_new : dir_lookup sb (v_disk v') (i_inum d) name = Some inum;
  ln_others nm : str_of nm ≠ str_of name →
    dir_lookup sb (v_disk v') (i_inum d) nm = dir_lookup sb (v_disk v) (i_inum d) nm;
  ln_inodes n : 0 ≤ n < sb_ninodes sb → n ≠ i_inum d → dinode sb (v_disk v') n = dinode sb (v_disk v) n;
  ln_alloc b : 0 ≤ b < sb_size sb → allocated sb (v_disk v) b = true → allocated sb (v_disk v') b = true;
  ln_frame b : 0 ≤ b → ~ bitmap_block sb b → allocated sb (v_disk v) b = true →
    ~ owns (v_disk v) (i_addrs d) b → b ≠ IBLOCK (i_inum d) sb → blk_at (v_disk v') b = blk_at (v_disk v) b;
  ln_view : ∃ x, v' = v <| v_disk := v_disk v' |> <| v_bs := v_bs v' |> <| v_ic := x |>
}.

Lemma written_linked v dp d name inum off de e v' a :
  can_link v dp d → synced sb (v_disk v) d → find_entry name 0 (dir_entries sb (v_disk v) (i_inum d)) = None →
  free_slot (dir_entries sb (v_disk v) (i_inum d)) off de → inum ≠ 0 →
  length e = 16%nat → de_inum e = inum → Str.cut DIRSIZ (de_name e) = str_of name →
  written k0 sb v dp d off e v' a → linked v d name inum v'.
Proof.
  intros Hc Hs Hno (Hof & Hor & _ & _ & Hz) Hn Hl Hi Hnm Hw. pose proof (ic_used _ _ _ (cl_cache _ _ _ Hc) _ _ (cl_inode _ _ _ Hc) (cl_ref _ _ _ Hc)) as Hent.
  destruct (dinode_fields sb _ _ Hs) as (Ft & Fn & Fs & Fa). pose proof (cl_ok _ _ _ Hc) as [O1 O2 O3 O4 O5].
  destruct (dinode_fields sb _ _ (fw_synced _ _ _ _ _ _ _ _ _ Hw Hs)) as (_ & _ & Gs & Ga).
  change (a = i_addrs (dinode sb (v_disk v') (i_inum d))) in Ga.
  change (Z.max (i_size d) (off + Z.of_nat (length e)) = i_size (dinode sb (v_disk v') (i_inum d))) in Gs.
  rewrite Hl in Gs. change (Z.of_nat 16) with 16 in Gs. unfold dir_entries in *. rewrite <-Fs, <-Fa in *. pose proof (cl_size _ _ _ Hc).
  pose proof (it_size _ (synced_typed k0 start size sb Hg v d (cl_view _ _ _ Hc) (ie_inum _ _ _ Hent) Hs)) as Hu. unfold is_uint in Hu.
  assert (length (entries (v_disk v) (i_addrs d) (i_size d)) = Z.to_nat (i_size d / DIRENT_SIZE)) as Hle
    by (unfold entries; by rewrite length_fmap, length_seqZ).
  assert (Z.to_nat (off / DIRENT_SIZE) ≤ length (entries (v_disk v) (i_addrs d) (i_size d)))%nat as Hidx
    by (unfold DIRENT_SIZE in *; Z.div_mod_to_equations; lia).
  assert (dir_entries sb (v_disk v') (i_inum d) = put_entry (entries (v_disk v) (i_addrs d) (i_size d)) (Z.to_nat (off / DIRENT_SIZE)) e) as He.
  { unfold dir_entries. rewrite <-Gs, <-Ga. apply entries_write; try done; [apply (fw_byte _ _ _ _ _ _ _ _ _ Hw)| |].
    - rewrite Hle in Hor. unfold DIRENT_SIZE in *. Z.div_mod_to_equations; lia.
    - rewrite Hle in Hor. unfold DIRENT_SIZE in *. Z.div_mod_to_equations; lia. }
  split.
  - apply Hw.
  - unfold dir_lookup. rewrite He. rewrite (find_put_same name); [by rewrite Hi|done|done|by rewrite Hi|].
    unfold same_name. by rewrite Hnm, bool_decide_true.
  - intros nm Hne. unfold dir_lookup. rewrite He. unfold dir_entries. rewrite <-Fs, <-Fa. f_equal. apply find_put_other; [done|done|].
    unfold same_name. rewrite Hnm. by apply bool_decide_false.
  - intros n Hnr Hne. exact (fw_others _ _ _ _ _ _ _ _ _ Hw (zero_inode <| i_inum := n |>) Hnr Hne).
  - intros b Hb Ha. apply (fw_alloc _ _ _ _ _ _ _ _ _ Hw b Hb). by left.
  - intros b Hb Hnb Ha Ho Hne. apply (fw_frame _ _ _ _ _ _ _ _ _ Hw); try done.
    intros Ho'. apply (fw_fresh _ _ _ _ _ _ _ _ _ Hw) in Ho' as [?|?]; congruence.
  - eexists. apply (fw_view _ _ _ _ _ _ _ _ _ Hw).
Qed.

Lemma run_dirlink v dp d name inum (Q : Z → view → Prop) :
  can_link v dp d → Forall Str.is_byte name → 0 < inum < 65536 →
  dir_lookup sb (v_disk v) (i_inum d) name = None → (∀ v', linked v d name inum v' → Q 0 v') → run v (dirlink dp name inum) Q.
Proof.
  intros Hc Hn Hi Hno HQ. pose proof Hc as [C1 C2 C3 C4 C5 C6 C7 C8 C9 C10 C11 C12 C13].
  pose proof (ic_used _ _ _ C8 _ _ C3 C4) as Hent. pose proof (ie_synced _ _ _ Hent C5) as Hs.
  pose proof (synced_typed k0 start size sb Hg v d C1 (ie_inum _ _ _ Hent) Hs) as Hty.
  destruct (dinode_fields sb _ _ Hs) as (Ft & _ & Fs & Fa). pose proof C7 as [O1 O2 O3 O4 O5]. rewrite <-Fs, <-Fa in *.
  assert (find_entry name 0 (dir_entries sb (v_disk v) (i_inum d)) = None) as Hf
    by (unfold dir_lookup in Hno; by destruct (find_entry _ _ _)).
  unfold dirlink. apply run_bind. eapply (run_dirlookup i c me pid k0 start size o sb Hg); try done; [lia|]. rewrite Hf.
  eapply run_get_inode; [done|]. pose proof (it_size _ Hty) as Hu. unfold is_uint in Hu.
  assert (inode_ok sb v dp d) as Hio by (split; try done; apply Hent).
  assert (i_type d = T_DIR) as Htd by (apply Z.eqb_eq; by rewrite Ft).
  apply run_bind. eapply run_empty_dirent; try done; [lia|lia| |].
  { unfold DIRENT_SIZE. Z.div_mod_to_equations; lia. }
  intros off de Hfs. pose proof Hfs as (Hof & Hor & Hdl & Hdb & Hz).
  destruct (link_entry de name inum Hdl Hdb Hn ltac:(lia)) as (nm & Hnm & Hel & Heb & Hei & Hec). set (e := put16 _ 0 inum) in *.
  apply run_bind. eapply run_get_or; [exact Hnm|].
  assert (off ≤ i_size d) as Hos.
  { unfold entries in Hor. rewrite length_fmap, length_seqZ in Hor. unfold DIRENT_SIZE in *. Z.div_mod_to_equations; lia. }
  assert (span off 16 ≤ 1)%nat as Hsp.
  { unfold span. rewrite decide_False by lia. assert ((off mod BSIZE + 16 + 511) / BSIZE < 2); [|lia].
    apply Z.div_lt_upper_bound; [done|]. unfold DIRENT_SIZE, BSIZE in *. Z.div_mod_to_equations; lia. }
  apply run_bind. eapply (run_writei i c me pid k0 start size o sb Hg v dp d off e).
  { split; try done; rewrite ?Hel; change (Z.of_nat 16) with 16; [lia|lia|lia|left; lia]. }
  { by rewrite Htd. }
  intros v' a Hw. rewrite Hel. cbn [negb]. apply run_ret. apply HQ.
  eapply (written_linked v dp d name inum off de e v' a); try done; [|lia]. unfold dir_entries. by rewrite <-Fs, <-Fa.
Qed.

(** A name that is there already. *)
Section taken.
Context v (dp : nat) (d : inode) (name : list Z) (inum m : Z).
Context (Hc : can_link v dp d) (Hn : Forall Str.is_byte name) (Hl : v_locked v = {[dp]}).
Context (Hm : dir_lookup sb (v_disk v) (i_inum d) name = Some m).

Lemma run_dirlookup_found :
  run v (dirlookup dp name) (λ r v', ∃ jp off ics, r = Some (jp, off) ∧ got sb (v_disk v) (v_ic v) m jp ics ∧ v' = v <| v_ic := ics |>).
Proof.
  pose proof Hc as [C1 C2 C3 C4 C5 C6 C7 C8 C9 C10 C11 C12 C13].
  eapply (run_dirlookup i c me pid k0 start size o sb Hg); try done; [lia|]. unfold dir_lookup in Hm.
  destruct (find_entry _ _ _) as [[off n]|]; simplify_eq/=. intros ip ics Hgot. by exists ip, off, ics.
Qed.

(** It is refused: the disk is as it was and the references are given back. *)
Lemma run_dirlink_exists (Q : Z → view → Prop) :
  m ≠ i_inum d →
  (∀ ics, ic_ok sb (v_disk v) ics → refs ics = refs (v_ic v) → Q (-1) (v <| v_ic := ics |>)) → run v (dirlink dp name inum) Q.
Proof.
  intros Hne HQ. unfold dirlink. eapply run_call; [apply run_dirlookup_found|].
  intros ? ? (jp & off & ics & -> & [(x & Hx & <- & Hr) Go Gr Gk] & ->).
  destruct (Gk _ _ (cl_inode _ _ _ Hc) (cl_ref _ _ _ Hc)) as (r & _ & _ & Hd).
  destruct (dir_lookup_ok sb _ _ _ _ (cl_ok _ _ _ Hc) Hm) as (_ & _ & Hnl).
  apply run_bind. eapply run_iput_keep; [exact Hg|exact Hx| | | |].
  - rewrite <-(ic_len _ _ _ Go). by eapply lookup_lt_Some.
  - simpl. rewrite Hl, elem_of_singleton. intros ->. by simplify_eq.
  - destruct (decide (i_valid x = 0)) as [|Hv]; [by left|right; left].
    by destruct (dinode_fields sb _ _ (ie_synced _ _ _ (ic_used _ _ _ Go _ _ Hx Hr) Hv)) as (_ & -> & _).
  - destruct (give_back k0 start size sb Hg _ _ _ _ (refs (v_ic v)) Go Hx ltac:(lia) Gr) as [H1 H2]. by apply run_ret, HQ.
Qed.

(** Unless the name leads to the directory itself: [iput] then waits for the lock
    that the process holds. *)
Lemma dirlink_self k :
  m = i_inum d → c_ncli c = 0 → fsv i c me pid k0 start size o v k →
  ∃ k', dirlink dp name inum k = Switch k' ∧ k_slocks k' !! LInode dp = Some (mkSleeplock 1 pid) ∧
    ∃ p, k_proc k' !! me = Some p ∧ p_state p = SLEEPING ∧ p_chan p = Some (ChSleepLock (LInode dp)).
Proof.
  intros Hself Hcli Hk. unfold dirlink.
  apply (run_then i c me pid start size (λ r, ∃ k', r = Switch k' ∧ k_slocks k' !! LInode dp = Some (mkSleeplock 1 pid) ∧
    ∃ p, k_proc k' !! me = Some p ∧ p_state p = SLEEPING ∧ p_chan p = Some (ChSleepLock (LInode dp)))
    o k0 v _ _ _ _ run_dirlookup_found Hk).
  intros ? ? k1 (jp & off & ics & -> & [(x & Hx & Hxn & Hr) Go Gr Gk] & ->) Hk1.
  destruct (Gk _ _ (cl_inode _ _ _ Hc) (cl_ref _ _ _ Hc)) as (r & Hrd & _ & Hd). pose proof (cl_ref _ _ _ Hc).
  assert (jp = dp) as -> by (eapply (ic_inj _ _ _ Go); [exact Hx|exact Hd|done|simpl; lia|simpl; congruence]).
  pose proof (tx_env _ _ _ _ _ _ _ _ _ _ _ _ (fv_txn _ _ _ _ _ _ _ _ _ _ Hk1)) as He.
  assert (dp < NINODE)%nat as Hdp by (rewrite <-(ic_len _ _ _ Go); by eapply lookup_lt_Some).
  pose proof (fv_locks _ _ _ _ _ _ _ _ _ _ Hk1) as Hlk. destruct (il_lock _ _ _ Hlk dp Hdp) as (s & Hs & Hsl).
  simpl in Hsl. rewrite Hl, bool_decide_true in Hsl by set_solver. subst s.
  destruct (k_proc k1 !! me) as [p|] eqn:Ep; [|pose proof (be_pid _ _ _ _ _ He) as Hp; by rewrite Ep in Hp].
  destruct (acquiresleep_busy i c me pid k1 (LInode dp) He (il_spin _ _ _ Hlk dp Hdp) ltac:(done) _ p Hcli Hs ltac:(done) Ep)
    as (k' & Hsw & Hsl & Hpr).
  exists k'. split; [|split; [by rewrite Hsl|]].
  - unfold iput, bind. by rewrite Hsw.
  - exists (asleep (ChSleepLock (LInode dp)) p). rewrite Hpr. split; [|done]. apply list_lookup_insert_eq. by eapply lookup_lt_Some.
Qed.
End taken.
End link.
