(* ===== verification/FsCheck.v ===== *)
(** * FsCheck: deciding whether a disk is in order

    Boolean versions of [disk_ok], [file_ok], [tree_ok] and [ic_ok]: a file system
    check. *)
From S2P Require Import Prelude.
From S2P Require Import Mem.
From S2P Require Import State.
From S2P Require Import Blk.
From S2P Require Import Fs.
From S2P Require Import FsDisk.
From S2P Require Import FsMap.
From S2P Require Import FsAlloc.
From S2P Require Import FsInode.
From S2P Require Import FsFile.
From S2P Require Import FsPath.
From S2P Require Import FsDir.

Definition block_okb (d : list Z) : bool :=
  (length d =? Z.to_nat BSIZE)%nat && forallb (λ x, (0 <=? x) && (x <? 256)) d.

Lemma block_okb_ok d : block_okb d = true → block_ok d.
Proof.
  unfold block_okb. intros [Hl Hf]%andb_true_iff. split; [by apply Nat.eqb_eq|].
  rewrite forallb_forall in Hf. apply Forall_forall. intros x Hx. apply list_elem_of_In, Hf in Hx.
  apply andb_true_iff in Hx as [?%Z.leb_le ?%Z.ltb_lt]. done.
Qed.

Section check.
Context (sb : superblock) (N : nat).

Definition disk_okb (D : list (list Z)) : bool :=
  (length D =? N)%nat && forallb block_okb (drop (Z.to_nat (sb_inodestart sb)) D) &&
  forallb (allocated sb D) (seqZ 0 (data_start sb)).

Lemma disk_okb_ok D : 0 ≤ sb_inodestart sb → disk_okb D = true → disk_ok sb N D.
Proof.
  unfold disk_okb. intros Hi [[Hl Hb]%andb_true_iff Hm]%andb_true_iff. apply Nat.eqb_eq in Hl.
  rewrite forallb_forall in Hb, Hm. split; [done|..].
  - intros b Hr. apply block_okb_ok, Hb. apply list_elem_of_In, list_elem_of_lookup.
    exists (Z.to_nat b - Z.to_nat (sb_inodestart sb))%nat. rewrite lookup_drop.
    replace (Z.to_nat (sb_inodestart sb) + (Z.to_nat b - Z.to_nat (sb_inodestart sb)))%nat with (Z.to_nat b) by lia.
    apply lookup_blk_at. lia.
  - intros b Hr. apply Hm. apply list_elem_of_In, elem_of_seqZ. lia.
Qed.

Definition slots (D : list (list Z)) (a : list Z) : list Z := slot D a <$> seq 0 NSLOT.
Definition file_okb (D : list (list Z)) (a : list Z) : bool :=
  (length a =? 13)%nat &&
  forallb (λ b, (b =? 0) || (data_start sb <=? b) && (b <? sb_size sb) && allocated sb D b) (slots D a) &&
  bool_decide (NoDup (filter (λ b, b ≠ 0) (slots D a))).

Lemma NoDup_filter_inj {A B} (f : A → B) (P : A → Prop) `{!∀ x, Decision (P x)} (l : list A) i j x y :
  NoDup (f <$> filter P l) → l !! i = Some x → l !! j = Some y → P x → P y → f x = f y → i = j.
Proof.
  revert i j. induction l as [|z l IH]; intros i j Hn Hi Hj HP HP' E; [done|]. rewrite filter_cons in Hn.
  assert (∀ w n, l !! n = Some w → P w → P z → f z = f w → False) as Hno.
  { intros w n Hw HPw HPz Ezw. rewrite decide_True in Hn by done. apply NoDup_cons in Hn as [Hn _]. destruct Hn.
    rewrite Ezw. apply list_elem_of_fmap. exists w. split; [done|]. apply list_elem_of_filter. split; [done|].
    by eapply list_elem_of_lookup_2. }
  destruct i as [|i], j as [|j]; simplify_eq/=; [done|by destruct (Hno y j)|by destruct (Hno x i)|].
  f_equal. apply (IH i j); try done. case_decide; [by apply NoDup_cons in Hn as [_ ?]|done].
Qed.

Lemma file_okb_ok D a : file_okb D a = true → file_ok sb D a.
Proof.
  unfold file_okb. intros [[Hl Hf]%andb_true_iff Hn%bool_decide_eq_true]%andb_true_iff. rewrite forallb_forall in Hf.
  assert (∀ s, (s < NSLOT)%nat → slots D a !! s = Some (slot D a s)) as Hs.
  { intros s Hs. unfold slots. rewrite list_lookup_fmap, lookup_seq_lt by done. done. }
  split.
  - by apply Nat.eqb_eq.
  - intros s Hsl Hne. specialize (Hf (slot D a s)). destruct (Z.eqb_spec (slot D a s) 0) as [|_]; [done|].
    rewrite orb_false_l in Hf.
    assert ((data_start sb <=? slot D a s) && (slot D a s <? sb_size sb) && allocated sb D (slot D a s) = true) as Hc.
    { apply Hf. apply list_elem_of_In. eapply list_elem_of_lookup_2, Hs, Hsl. }
    apply andb_true_iff in Hc as [[?%Z.leb_le ?%Z.ltb_lt]%andb_true_iff ?]. done.
  - intros s t Hsl Htl Hne E. eapply (NoDup_filter_inj id (λ b, b ≠ 0) (slots D a)); [by rewrite list_fmap_id|by apply Hs|by apply Hs|done|by rewrite <-E|done].
Qed.

Definition dir_okb (D : list (list Z)) (n : Z) : bool :=
  let x := dinode sb D n in
  file_okb D (i_addrs x) && (i_size x <=? MAXFILE * BSIZE) &&
  forallb (λ j, negb (fblk D (i_addrs x) j =? 0)) (seqZ 0 (i_size x)) && (i_size x mod DIRENT_SIZE =? 0) &&
  forallb (λ e, (de_inum e =? 0) ||
    (0 <=? de_inum e) && (de_inum e <? sb_ninodes sb) && negb (i_type (dinode sb D (de_inum e)) =? 0) &&
    negb (i_nlink (dinode sb D (de_inum e)) =? 0)) (dir_entries sb D n).
Definition tree_okb (D : list (list Z)) : bool :=
  forallb (λ n, negb (is_dir sb D n) || dir_okb D n) (seqZ 0 (sb_ninodes sb)).

Lemma dir_okb_ok D n : dir_okb D n = true → dir_ok sb D n.
Proof.
  unfold dir_okb. intros H. repeat rewrite andb_true_iff in H. destruct H as [[[[H1 H2%Z.leb_le] H3] H4%Z.eqb_eq] H5].
  rewrite forallb_forall in H3, H5. split; [by apply file_okb_ok|done| |done|].
  - intros j Hj. specialize (H3 j). rewrite <-list_elem_of_In, elem_of_seqZ in H3.
    apply Z.eqb_neq. apply negb_true_iff, H3. lia.
  - intros e He Hne. specialize (H5 e). rewrite <-list_elem_of_In in H5. specialize (H5 He).
    destruct (Z.eqb_spec (de_inum e) 0); [done|]. rewrite orb_false_l in H5. repeat rewrite andb_true_iff in H5.
    destruct H5 as [[[?%Z.leb_le ?%Z.ltb_lt] ?%negb_true_iff%Z.eqb_neq] ?%negb_true_iff%Z.eqb_neq]. done.
Qed.
Lemma tree_okb_ok D : tree_okb D = true → tree_ok sb D.
Proof.
  unfold tree_okb. rewrite forallb_forall. intros H n Hn Hd. apply dir_okb_ok. specialize (H n).
  rewrite <-list_elem_of_In, elem_of_seqZ, Hd in H. cbn [negb] in H. rewrite orb_false_l in H. apply H. lia.
Qed.

Definition syncedb (D : list (list Z)) (x : inode) : bool :=
  let y := decode_dinode (blk_at D (IBLOCK (i_inum x) sb)) x in
  (i_type y =? i_type x) && (i_major y =? i_major x) && (i_minor y =? i_minor x) && (i_nlink y =? i_nlink x) &&
  (i_size y =? i_size x) && bool_decide (i_addrs y = i_addrs x).
Lemma syncedb_ok D x : syncedb D x = true → synced sb D x.
Proof.
  unfold syncedb, synced. set (y := decode_dinode _ x). intros H. repeat rewrite andb_true_iff in H.
  destruct H as [[[[[H1%Z.eqb_eq H2%Z.eqb_eq] H3%Z.eqb_eq] H4%Z.eqb_eq] H5%Z.eqb_eq] H6%bool_decide_eq_true].
  destruct x. unfold y, decode_dinode in *. simpl in *. congruence.
Qed.

Definition entry_okb (D : list (list Z)) (x : inode) : bool :=
  (i_ref x =? 0) || (0 <? i_ref x) && (i_dev x =? 1) && (0 <=? i_inum x) && (i_inum x <? sb_ninodes sb) &&
  ((i_valid x =? 0) || syncedb D x).
Definition ic_okb (D : list (list Z)) (ics : list inode) : bool :=
  (length ics =? NINODE)%nat && forallb (entry_okb D) ics &&
  bool_decide (NoDup (i_inum <$> filter (λ x, 0 < i_ref x) ics)).
Lemma ic_okb_ok D ics : ic_okb D ics = true → ic_ok sb D ics.
Proof.
  unfold ic_okb. intros [[Hl%Nat.eqb_eq Hf]%andb_true_iff Hn%bool_decide_eq_true]%andb_true_iff.
  rewrite forallb_forall in Hf.
  assert (∀ ip x, ics !! ip = Some x → entry_okb D x = true) as He.
  { intros ip x Hx. apply Hf, list_elem_of_In. by eapply list_elem_of_lookup_2. }
  split; [done|..].
  - intros ip x Hx%He. unfold entry_okb in Hx. destruct (Z.eqb_spec (i_ref x) 0); [lia|]. rewrite orb_false_l in Hx.
    repeat rewrite andb_true_iff in Hx. destruct Hx as [[[[?%Z.ltb_lt _] _] _] _]. lia.
  - intros ip x Hx%He Hr. unfold entry_okb in Hx. destruct (Z.eqb_spec (i_ref x) 0); [lia|]. rewrite orb_false_l in Hx.
    repeat rewrite andb_true_iff in Hx. destruct Hx as [[[[_ ?%Z.eqb_eq] ?%Z.leb_le] ?%Z.ltb_lt] Hv].
    split; [done|done|]. intros Hne. apply Z.eqb_neq in Hne. rewrite Hne, orb_false_l in Hv. exact (syncedb_ok _ _ Hv).
  - intros ip jp x y Hx Hy Hrx Hry E. by eapply (NoDup_filter_inj i_inum (λ x, 0 < i_ref x)).
Qed.
End check.
