(* ===== verification/MainFile.v ===== *)
(** * MainFile: files, from the bitmap to [filewrite] and [fileread] *)
From S2P Require Import Prelude.
From S2P Require Import Mem.
From S2P Require Import Str.
From S2P Require Import State.
From S2P Require Import Spin.
From S2P Require Import Boot.
From S2P Require Import Cons.
From S2P Require Import Kalloc.
From S2P Require Import Vm.
From S2P Require Import Mlq.
From S2P Require Import Proc.
From S2P Require Import Blk.
From S2P Require Import Bio.
From S2P Require Import BioSpec.
From S2P Require Import Cache.
From S2P Require Import BioInit.
From S2P Require Import Log.
From S2P Require Import LogSpec.
From S2P Require Import Crash.
From S2P Require Import Recover.
From S2P Require Import Txn.
From S2P Require Import MainFs.
From S2P Require Import Fs.
From S2P Require Import File.
From S2P Require Import FsLogic.
From S2P Require Import FsDisk.
From S2P Require Import FsMap.
From S2P Require Import FsAlloc.
From S2P Require Import FsInode.
From S2P Require Import FsFile.
From S2P Require Import FsOp.
From S2P Require Import FsCheck.

(** ** A sample: a disk of 40 blocks with one file, open twice *)

Definition small_sb : superblock := mkSuperblock 40 23 8 12 2 14 16.
Definition small_inode : inode := mkInode 1 2 2 1 2 0 0 1 5 (17 :: replicate 12 0).
Definition small_disk : list (list Z) :=
  <[17%nat := splice zero_block 0 (chars "hello")]>
    (<[16%nat := splice zero_block 0 [255; 255; 3]]>
      (<[14%nat := encode_dinode small_inode zero_block]> (replicate 40 zero_block))).
Definition small_log : logst := mkLog 2 12 0 0 1 0 (replicate (Z.to_nat LOGSIZE) 0).
Definition small_file (off : Z) : file := mkFile FD_INODE 1 1 1 0 (Some 0%nat) off.

(** The locks of the inodes, as [iinit] leaves them. *)
Definition inode_slocks (ls : gmap lockid sleeplock) : gmap lockid sleeplock :=
  foldr (λ j, insert (LInode j) (mkSleeplock 0 0)) ls (seq 0 NINODE).
Definition inode_spins (ls : gmap lockid spinlock) : gmap lockid spinlock :=
  foldr (λ j, insert (LInode j) unlocked) ls (seq 0 NINODE).
Definition small_locks : gmap lockid spinlock := inode_spins fs_cache.2.
Definition small_slocks : gmap lockid sleeplock := inode_slocks fs_cache.1.2.

Definition small_ics : list inode := small_inode :: replicate 49 zero_inode.
Definition small_with (ics : list inode) (disk : list (list Z)) : kernel :=
  mkKernel DEFAULT 0x80116000 0x80108000 0x80106000 0x80104000
    [sample_cpu] 0 FL_IF 0 ∅ small_locks 0 0 0
    sample_procs 4 (Some 0%nat)
    (mkMlq ([Some 0; Some 1; Some 2]%nat ++ replicate 61 None) 2 :: replicate 4 empty_queue) 100
    small_slocks ∅ (small_file 5 :: small_file 0 :: small_file 0 :: replicate 97 zero_file) ics
    fs_cache.1.1 small_sb small_log
    disk [] [] 0 (mkInput (replicate 128 0) 0 0 0).
Definition small : kernel := small_with small_ics small_disk.

#[export] Instance no_devices : DevSw := {| devsw_read _ := None; devsw_write _ := None |}.

(** The entries of the lock tables. *)
Definition spin_free (l : lockid) : bool :=
  match small_locks !! l with Some (mkSpinlock 0 None) => true | _ => false end.
Definition sleep_free (l : lockid) : bool :=
  match small_slocks !! l with Some s => sl_locked s =? 0 | None => false end.

Lemma spin_free_ok l ics disk : spin_free l = true → lock_free l (small_with ics disk).
Proof.
  unfold spin_free, lock_free. change (k_locks (small_with ics disk)) with small_locks.
  destruct (small_locks !! l) as [[[] []]|]; done.
Qed.
Lemma spin_free_all (f : nat → lockid) n ics disk :
  forallb (λ j, spin_free (f j)) (seq 0 n) = true → ∀ j, (j < n)%nat → lock_free (f j) (small_with ics disk).
Proof. intros H j Hj. rewrite forallb_forall in H. apply spin_free_ok, H, in_seq. lia. Qed.
Lemma sleep_free_all (f : nat → lockid) n ics disk :
  forallb (λ j, sleep_free (f j)) (seq 0 n) = true →
  ∀ j, (j < n)%nat → ∃ s, k_slocks (small_with ics disk) !! f j = Some s ∧ sl_locked s = 0.
Proof.
  intros H j Hj. rewrite forallb_forall in H. specialize (H j ltac:(apply in_seq; lia)). unfold sleep_free in H.
  change (k_slocks (small_with ics disk)) with small_slocks. destruct (small_slocks !! f j) as [s|]; [|done].
  exists s. by apply Z.eqb_eq in H.
Qed.

Lemma small_inv ics disk : bc_inv 1 [] (small_with ics disk).
Proof.
  destruct (fs_inv disk) as [H1 H2 H3 H4 H5 H6 H7]. split; try done.
  intros x Hx. apply (sleep_free_all LBuf NBUF); [vm_compute; reflexivity|done].
Qed.
Lemma small_env ics disk : bio_env 0 sample_cpu 0 1 (small_with ics disk).
Proof.
  split; [split; (reflexivity || discriminate)|reflexivity|reflexivity|reflexivity|..].
  - apply spin_free_ok. vm_compute. reflexivity.
  - apply spin_free_ok. vm_compute. reflexivity.
  - apply (spin_free_all LBuf NBUF). vm_compute. reflexivity.
Qed.
Lemma small_inode_locks ics disk : inode_locks 1 ∅ (small_with ics disk).
Proof.
  split.
  - apply spin_free_ok. vm_compute. reflexivity.
  - apply spin_free_ok. vm_compute. reflexivity.
  - apply (spin_free_all LInode NINODE). vm_compute. reflexivity.
  - intros j Hj. apply (sleep_free_all LInode NINODE); [vm_compute; reflexivity|done].
Qed.
Lemma small_idle ics disk : disk !! 2%nat = Some zero_block → idle 0 sample_cpu 0 1 2 12 (small_with ics disk).
Proof.
  intros Hd. split; [apply small_env|apply small_inv|exact (fs_clean disk)|apply spin_free_ok; vm_compute; reflexivity|reflexivity|reflexivity|].
  exists zero_block. split_and!; [exact Hd|reflexivity..].
Qed.
Lemma small_geometry : geometry small_sb 40 2 12.
Proof. split; vm_compute; try split; done. Qed.
Lemma small_fs_with ics disk :
  disk !! 2%nat = Some zero_block → disk_okb small_sb 40 disk = true → fs_idle 0 sample_cpu 0 1 2 12 (small_with ics disk).
Proof.
  intros Hd Hok. apply disk_okb_ok in Hok; [|discriminate]. assert (length disk = 40%nat) as Hl by apply Hok.
  split; [by apply small_idle|apply small_inode_locks| | |].
  - unfold layout_ok. change (k_disk (small_with ics disk)) with disk. rewrite Hl. split_and!; discriminate.
  - change (k_disk (small_with ics disk)) with disk. rewrite Hl. apply small_geometry.
  - change (k_disk (small_with ics disk)) with disk. rewrite Hl. exact Hok.
Qed.
Lemma small_fs : fs_idle 0 sample_cpu 0 1 2 12 small.
Proof. apply small_fs_with; vm_compute; reflexivity. Qed.
Lemma small_typed : inode_typed small_inode.
Proof.
  split; try (split; [discriminate|reflexivity]); [reflexivity|].
  apply Forall_cons; split; [split; [discriminate|reflexivity]|]. apply Forall_replicate. split; [discriminate|reflexivity].
Qed.
Lemma small_open f off :
  k_ftable small !! f = Some (small_file off) → 0 ≤ off ≤ 5 → open_file small f 0 (small_file off) small_inode.
Proof.
  intros Hf Hoff. split; try done.
  - split; [reflexivity|reflexivity|split; [discriminate|reflexivity]|apply small_typed| |discriminate|].
    + apply file_okb_ok. vm_compute. reflexivity.
    + intros j Hj. change (i_size small_inode) with 5 in Hj.
      assert (j / BSIZE = 0) as E by (apply Z.div_small; unfold BSIZE; lia). unfold fblk. rewrite E. vm_compute. discriminate.
  - unfold NINODE. lia.
Qed.

(** ** Writing and reading open files *)

(** C2: [filewrite] of any number of bytes that fit returns that number.  The
    bytes are then in the file from its offset on and no other byte of it has
    changed, the size is the larger of the old size and the end of the write,
    the offset is behind the bytes, no block is lost, and a file with other
    blocks is untouched.  On the disk the file's inode is up to date, if it was
    before, and every other inode is as it was. *)
Theorem filewrite_effect i c me pid start size k f ip fl ino bs :
  fs_idle i c me pid start size k → open_file k f ip fl ino → f_writable fl ≠ 0 → log_fits size k →
  Forall is_byte bs → f_off fl + Z.of_nat (length bs) ≤ MAXFILE * BSIZE →
  (S (span (f_off fl) (Z.of_nat (length bs)) + pieces (Z.of_nat (length bs))) ≤
    credit (k_sb k) (k_disk k) (i_addrs ino))%nat →
  ∃ k' a, filewrite f bs k = Ret (Z.of_nat (length bs)) k' ∧ fs_idle i c me pid start size k' ∧
    k_icache k' = <[ip := ino <| i_addrs := a |> <| i_size := Z.max (i_size ino) (f_off fl + Z.of_nat (length bs)) |>]> (k_icache k) ∧
    k_ftable k' = <[f := fl <| f_off := f_off fl + Z.of_nat (length bs) |>]> (k_ftable k) ∧
    file_ok (k_sb k) (k_disk k') a ∧
    (∀ j, 0 ≤ j < MAXFILE * BSIZE → fbyte (k_disk k') a j = over (f_off fl) bs j (fbyte (k_disk k) (i_addrs ino) j)) ∧
    (∀ b, 0 ≤ b < sb_size (k_sb k) → allocated (k_sb k) (k_disk k') b = true →
       allocated (k_sb k) (k_disk k) b = true ∨ owns (k_disk k') a b) ∧
    (synced (k_sb k) (k_disk k) ino → synced (k_sb k) (k_disk k')
       (ino <| i_addrs := a |> <| i_size := Z.max (i_size ino) (f_off fl + Z.of_nat (length bs)) |>)) ∧
    (∀ y, 0 ≤ i_inum y < sb_ninodes (k_sb k) → i_inum y ≠ i_inum ino →
       decode_dinode (blk_at (k_disk k') (IBLOCK (i_inum y) (k_sb k))) y =
       decode_dinode (blk_at (k_disk k) (IBLOCK (i_inum y) (k_sb k))) y) ∧
    ∀ a2, file_ok (k_sb k) (k_disk k) a2 → (∀ b, owns (k_disk k) a2 b → ~ owns (k_disk k) (i_addrs ino) b) →
      file_ok (k_sb k) (k_disk k') a2 ∧
      ∀ j, 0 ≤ j < MAXFILE * BSIZE → fbyte (k_disk k') a2 j = fbyte (k_disk k) a2 j.
Proof.
  intros Hk Ho Hwr Hfit Hby Hend Hcr.
  destruct (filewrite_ret i c me pid start size k f ip fl ino bs Hk Ho Hwr Hfit Hby Hend Hcr) as (k' & a & Hr & P).
  exists k', a. split_and!; try done; try apply P.
  intros a2 Hf Hn. destruct (put_other i c me pid start size k f ip fl ino bs k' a a2 Hk P Hf Hn) as (? & ? & _). done.
Qed.

Definition greeting : list Z := chars " world".
Lemma greeting_bytes : Forall is_byte greeting.
Proof. repeat constructor; discriminate. Qed.

Lemma filewrite_effect_witness :
  ∃ k' a, filewrite 0 greeting small = Ret 6 k' ∧ fbyte (k_disk k') a 0 = 104 ∧ fbyte (k_disk k') a 6 = 119.
Proof.
  destruct (filewrite_effect 0 sample_cpu 0 1 2 12 small 0 0 (small_file 5) small_inode greeting small_fs)
    as (k' & a & Hr & _ & _ & _ & _ & Hb & _).
  - apply small_open; [reflexivity|lia].
  - discriminate.
  - unfold log_fits. vm_compute. lia.
  - apply greeting_bytes.
  - vm_compute. discriminate.
  - vm_compute. lia.
  - exists k', a. split; [exact Hr|].
    split; rewrite Hb by (split; [discriminate|reflexivity]); vm_compute; reflexivity.
Defined.

(** C3: a [filewrite] of at most three blocks' length is atomic.  If the machine
    stops after any number of the disk writes it makes and boots again, recovery
    leaves a disk on which the file has either its old inode and all its old
    bytes, or the new inode and the new bytes. *)
Theorem filewrite_atomic i c me pid start size k f ip fl ino bs :
  fs_idle i c me pid start size k → open_file k f ip fl ino → f_writable fl ≠ 0 → log_fits size k →
  synced (k_sb k) (k_disk k) ino →
  Forall is_byte bs → bs ≠ [] → Z.of_nat (length bs) ≤ filewrite_max →
  f_off fl + Z.of_nat (length bs) ≤ MAXFILE * BSIZE →
  (S (span (f_off fl) (Z.of_nat (length bs))) ≤ credit (k_sb k) (k_disk k) (i_addrs ino))%nat →
  ∃ k' ws, filewrite f bs k = Ret (Z.of_nat (length bs)) k' ∧ k_writes k' = k_writes k ++ ws ∧
    k_disk k' = apply_writes (k_disk k) ws ∧
    ∀ n i' c' me' pid' kb,
      rebooted i' c' me' pid' start kb → k_disk kb = apply_writes (k_disk k) (take n ws) →
      ∃ kr ino', recover_from_log kb = Ret tt kr ∧
        decode_dinode (blk_at (k_disk kr) (IBLOCK (i_inum ino) (k_sb k))) ino = ino' ∧
        ((ino' = ino ∧ ∀ j, 0 ≤ j < MAXFILE * BSIZE →
            fbyte (k_disk kr) (i_addrs ino') j = fbyte (k_disk k) (i_addrs ino) j) ∨
         (i_size ino' = Z.max (i_size ino) (f_off fl + Z.of_nat (length bs)) ∧ ∀ j, 0 ≤ j < MAXFILE * BSIZE →
            fbyte (k_disk kr) (i_addrs ino') j = over (f_off fl) bs j (fbyte (k_disk k) (i_addrs ino) j))).
Proof.
  intros Hk Ho Hwr Hfit Hsy Hby Hne Hmax Hend Hcr.
  destruct (filewrite_piece_ret i c me pid start size k f ip fl ino bs Hk Ho Hwr Hfit Hby Hne Hmax Hend Hcr)
    as (k' & a & D & Hr & P & (ws & _ & Hw & Hd & _ & Hs) & Hag).
  exists k', ws. split_and!; try done. intros n i' c' me' pid' kb Hre Hkb.
  destruct (Hs n i' c' me' pid' kb Hre Hkb) as (kr & Hrr & Hcase).
  pose proof (fi_geo _ _ _ _ _ _ _ Hk) as Hg. pose proof (of_inode _ _ _ _ _ Ho) as Hi.
  assert (∀ X, (∀ b, home k start size b → k_disk kr !! Z.to_nat b = X !! Z.to_nat b) →
    agree (k_sb k) (length (k_disk k)) X (k_disk kr)) as Hagr.
  { intros X HX b Hb. unfold blk_at. by rewrite HX by by eapply home_fs. }
  assert (∀ X, agree (k_sb k) (length (k_disk k)) X (k_disk kr) →
    blk_at (k_disk kr) (IBLOCK (i_inum ino) (k_sb k)) = blk_at X (IBLOCK (i_inum ino) (k_sb k))) as Hib.
  { intros X HX. destruct (IBLOCK_range k start size (k_sb k) Hg _ (io_inum _ _ _ _ Hi)) as [_ Hrg].
    destruct (IBLOCK_meta k start size (k_sb k) Hg _ (io_inum _ _ _ _ Hi)) as (? & _). apply HX. lia. }
  destruct Hcase as [Hold|Hnew].
  - exists kr, ino. split; [done|]. apply Hagr in Hold. rewrite (Hib _ Hold). split; [exact Hsy|left].
    split; [done|]. apply (agree_file _ _ _ _ Hg _ _ _ Hold). apply Hi.
  - apply Hagr in Hnew.
    assert (agree (k_sb k) (length (k_disk k)) (k_disk k') (k_disk kr)) as Hkr by (intros b Hb; rewrite Hnew, Hag; done).
    exists kr, (grown ino (f_off fl) bs a). split; [done|]. rewrite (Hib _ Hkr). split; [|right; split; [done|]].
    + exact (pt_synced _ _ _ _ _ _ _ _ _ _ _ _ _ _ P Hsy).
    + intros j Hj. destruct (agree_file _ _ _ _ Hg _ _ a Hkr) as (_ & _ & Hbj).
      { apply (pt_inode _ _ _ _ _ _ _ _ _ _ _ _ _ _ P). }
      simpl. rewrite Hbj by done. by apply P.
Qed.

Lemma small_synced : synced small_sb small_disk small_inode.
Proof. vm_compute. reflexivity. Qed.

Lemma filewrite_atomic_witness :
  ∃ k' ws, filewrite 0 greeting small = Ret 6 k' ∧ k_writes k' = ws ∧
    ∃ kr ino', recover_from_log (small_with small_ics (apply_writes small_disk (take 0 ws))) = Ret tt kr ∧
      decode_dinode (blk_at (k_disk kr) 14) small_inode = ino'.
Proof.
  destruct (filewrite_atomic 0 sample_cpu 0 1 2 12 small 0 0 (small_file 5) small_inode greeting small_fs)
    as (k' & ws & Hr & Hw & _ & Hc).
  - apply small_open; [reflexivity|lia].
  - discriminate.
  - unfold log_fits. vm_compute. lia.
  - apply small_synced.
  - apply greeting_bytes.
  - discriminate.
  - discriminate.
  - vm_compute. discriminate.
  - vm_compute. lia.
  - exists k', ws. split; [exact Hr|]. split; [exact Hw|].
    destruct (Hc 0%nat 0%nat sample_cpu 0%nat 1 (small_with small_ics (apply_writes small_disk (take 0 ws)))) as (kr & ino' & H1 & H2 & _).
    + split; [apply small_env|apply small_inv|exact (fs_clean small_disk)|reflexivity..].
    + reflexivity.
    + exists kr, ino'. split; [exact H1|exact H2].
Defined.

(** C27: [fileread] returns the bytes of the file from its offset on, as many as
    there are up to the number asked for, and moves the offset behind them;
    nothing is written to the disk. *)
Theorem fileread_returns i c me pid start size k f ip fl ino n :
  fs_idle i c me pid start size k → open_file k f ip fl ino → f_readable fl ≠ 0 → (5 ≤ cap size)%nat →
  0 ≤ n < 2147483648 →
  let m := Z.min n (i_size ino - f_off fl) in
  ∃ k', fileread f n k = Ret (m, fbyte (k_disk k) (i_addrs ino) <$> seqZ (f_off fl) m) k' ∧
    fs_idle i c me pid start size k' ∧ k_disk k' = k_disk k ∧ k_writes k' = k_writes k ∧ k_icache k' = k_icache k ∧
    k_ftable k' = <[f := fl <| f_off := f_off fl + m |>]> (k_ftable k).
Proof.
  intros Hk Ho Hrd Hcap Hn m.
  destruct (fileread_ret i c me pid start size k f ip fl ino n Hk Ho Hrd Hcap Hn) as (k' & ? & ? & ? & ? & _ & ? & ?).
  exists k'. by split_and!.
Qed.

Lemma fileread_returns_witness : ∃ k', fileread 1 100 small = Ret (5, chars "hello") k'.
Proof.
  destruct (fileread_returns 0 sample_cpu 0 1 2 12 small 1 0 (small_file 0) small_inode 100 small_fs) as (k' & Hr & _).
  - apply small_open; [reflexivity|lia].
  - discriminate.
  - vm_compute. lia.
  - lia.
  - exists k'. etrans; [exact Hr|]. vm_compute. reflexivity.
Defined.

(** C14: what is written is read back: after a [filewrite] through one open file,
    a [fileread] through another one at the same offset returns the bytes. *)
Theorem write_read_back i c me pid start size k f g ip fl gl ino bs :
  fs_idle i c me pid start size k → open_file k f ip fl ino → open_file k g ip gl ino → f ≠ g →
  f_writable fl ≠ 0 → f_readable gl ≠ 0 → f_off gl = f_off fl → log_fits size k →
  Forall is_byte bs → f_off fl + Z.of_nat (length bs) ≤ MAXFILE * BSIZE →
  (S (span (f_off fl) (Z.of_nat (length bs)) + pieces (Z.of_nat (length bs))) ≤
    credit (k_sb k) (k_disk k) (i_addrs ino))%nat →
  ∃ k1 k2, filewrite f bs k = Ret (Z.of_nat (length bs)) k1 ∧
    fileread g (Z.of_nat (length bs)) k1 = Ret (Z.of_nat (length bs), bs) k2.
Proof.
  intros Hk Ho Hog Hne Hwr Hrd Hoff Hfit Hby Hend Hcr.
  destruct (filewrite_ret i c me pid start size k f ip fl ino bs Hk Ho Hwr Hfit Hby Hend Hcr) as (k1 & a & Hr & P).
  pose proof (put_open i c me pid start size _ _ _ _ _ _ _ _ Ho P) as Ho1. pose proof (of_off _ _ _ _ _ Ho) as [H0 Hle].
  assert (open_file k1 g ip gl (grown ino (f_off fl) bs a)) as Hg1.
  { destruct Ho1 as [_ _ _ Hi Hkd Hvl Hrf Hlt _], Hog as [Gf Gt Gi _ _ _ _ _ _]. split; try done.
    - rewrite (pt_ft _ _ _ _ _ _ _ _ _ _ _ _ _ _ P). by rewrite list_lookup_insert_ne.
    - simpl. lia. }
  assert (Z.of_nat (length bs) < 2147483648) by (unfold MAXFILE, NDIRECT, NINDIRECT, BSIZE in *; lia).
  destruct (fileread_ret i c me pid start size k1 g ip gl _ (Z.of_nat (length bs)) (pt_idle _ _ _ _ _ _ _ _ _ _ _ _ _ _ P) Hg1 Hrd)
    as (k2 & Hr2 & _); [unfold log_fits in Hfit; lia|lia|].
  exists k1, k2. split; [done|]. rewrite Hr2. f_equal. simpl. rewrite Hoff.
  replace (Z.min _ _) with (Z.of_nat (length bs)) by lia.
  f_equal. by apply (put_read i c me pid start size k f ip fl ino bs k1 a P).
Qed.

Lemma write_read_back_witness :
  ∃ k1 k2, filewrite 1 greeting small = Ret 6 k1 ∧ fileread 2 6 k1 = Ret (6, greeting) k2.
Proof.
  apply (write_read_back 0 sample_cpu 0 1 2 12 small 1 2 0 (small_file 0) (small_file 0) small_inode greeting small_fs).
  - apply small_open; [reflexivity|lia].
  - apply small_open; [reflexivity|lia].
  - discriminate.
  - discriminate.
  - discriminate.
  - reflexivity.
  - unfold log_fits. vm_compute. lia.
  - apply greeting_bytes.
  - vm_compute. discriminate.
  - vm_compute. lia.
Defined.
