(* ===== verification/MainDir.v ===== *)
(** * MainDir: inodes, directories and path names *)
From stdpp Require Import gmultiset.
From S2P Require Import Prelude.
From S2P Require Import Mem.
From S2P Require Import Str.
From S2P Require Import State.
From S2P Require Import Spin.
From S2P Require Import Boot.
From S2P Require Import Cons.
From S2P Require Import Kalloc.
From S2P Require Import Vm.
From S2P Require Import Mlq.
From S2P Require Import Proc.
From S2P Require Import Blk.
From S2P Require Import Bio.
From S2P Require Import BioSpec.
From S2P Require Import Cache.
From S2P Require Import BioInit.
From S2P Require Import Log.
From S2P Require Import LogSpec.
From S2P Require Import Crash.
From S2P Require Import Recover.
From S2P Require Import Txn.
From S2P Require Import MainFs.
From S2P Require Import Fs.
From S2P Require Import File.
From S2P Require Import FsLogic.
From S2P Require Import FsDisk.
From S2P Require Import FsMap.
From S2P Require Import FsAlloc.
From S2P Require Import FsInode.
From S2P Require Import FsFile.
From S2P Require Import FsOp.
From S2P Require Import FsTrunc.
From S2P Require Import FsPath.
From S2P Require Import FsDir.
From S2P Require Import FsLink.
From S2P Require Import FsCheck.
From S2P Require Import MainFile.

(** ** A sample: the root directory with one file in it *)

Definition dirent (inum : Z) (name : string) : list Z := put16 (splice (replicate 16 0) 2 (chars name)) 0 inum.
Definition root_inode : inode := mkInode 1 1 1 1 T_DIR 0 0 1 48 (18 :: replicate 12 0).
Definition tree_disk : list (list Z) :=
  <[18%nat := splice zero_block 0 (dirent 1 "." ++ dirent 1 ".." ++ dirent 2 "hello")]>
    (<[17%nat := splice zero_block 0 (chars "hello")]>
      (<[16%nat := splice zero_block 0 [255; 255; 7]]>
        (<[14%nat := encode_dinode root_inode (encode_dinode small_inode zero_block)]> (replicate 40 zero_block)))).
Definition tree_ics : list inode := root_inode :: small_inode :: replicate 48 zero_inode.
Definition tree : kernel := small_with tree_ics tree_disk.

Lemma tree_fs : fs_idle 0 sample_cpu 0 1 2 12 tree.
Proof. apply small_fs_with; vm_compute; reflexivity. Qed.
Lemma tree_tree : tree_ok small_sb tree_disk.
Proof. apply tree_okb_ok. vm_compute. reflexivity. Qed.
Lemma tree_cache : ic_ok small_sb tree_disk tree_ics.
Proof. apply ic_okb_ok. vm_compute. reflexivity. Qed.
Lemma tree_can_walk : can_walk tree 12 small_sb (view0 tree).
Proof.
  split; [apply (view0_ok 0 sample_cpu 0 1 2 12 tree tree_fs)|reflexivity|reflexivity| |apply tree_tree|apply tree_cache|].
  - vm_compute. lia.
  - apply Nat.leb_le. vm_compute. reflexivity.
Qed.

(** ** Path names *)

(** C10: looking up a path ends where the path leads on the disk.  [namex] (that
    is [namei], and [nameiparent] with [parent]) returns the slot of exactly the
    inode that the elements of the path lead to from the root or the current
    directory, or nothing when they lead nowhere; of the references it took on
    the way only the one to that inode is left, and no inode is left locked. *)
Theorem namex_resolves `{!DevSw} i c me pid k0 start size o sb v k path parent n :
  geometry sb (length (k_disk k0)) start size → fsv i c me pid k0 start size o v k → can_walk k0 size sb v →
  Forall Str.is_byte path → starts_at me sb k v path n → i_type (dinode sb (v_disk v) n) ≠ 0 →
  ∃ r ics k', namex path parent k = Ret r k' ∧ fsv i c me pid k0 start size o (v <| v_ic := ics |>) k' ∧
    ic_ok sb (v_disk v) ics ∧
    match (if parent then resolve_parent sb (v_disk v) n (elems path) else resolve sb (v_disk v) n (elems path)) with
    | Some m => ∃ ip x, r.1 = Some ip ∧ ics !! ip = Some x ∧ i_inum x = m ∧ refs ics = refs (v_ic v) ⊎ {[+ m +]} ∧
        (parent = true → last (elems path) = Some r.2)
    | None => r.1 = None ∧ refs ics = refs (v_ic v)
    end.
Proof.
  intros Hg Hk Hw Hp Hs Ht. destruct (namex_ret i c me pid k0 start size o sb Hg k v path parent n Hk Hw Hp Hs Ht)
    as (r & ics & k' & Hr & Hk' & Hic & Hwk).
  exists r, ics, k'. split_and!; [done|done|done|]. unfold found in Hwk.
  destruct (if parent then _ else _); [|done]. destruct Hwk as (ip & x & ? & ? & ? & _ & ? & ?). by exists ip, x.
Qed.

Lemma namex_resolves_witness :
  ∃ ip r k', namex (chars "//hello") false tree = Ret (Some ip, r) k' ∧ i_inum <$> k_icache k' !! ip = Some 2.
Proof.
  destruct (namex_resolves 0 sample_cpu 0 1 tree 2 12 0 small_sb (view0 tree) tree (chars "//hello") false 1)
    as ([r1 r2] & ics & k' & Hr & Hk & _ & Hm).
  - apply small_geometry.
  - exact (idle_view 0 sample_cpu 0 1 2 12 tree tree_fs).
  - apply tree_can_walk.
  - repeat constructor; discriminate.
  - vm_compute. repeat split; discriminate.
  - vm_compute. discriminate.
  - assert (resolve small_sb tree_disk 1 (elems (chars "//hello")) = Some 2) as E by (vm_compute; reflexivity).
    cbv iota in Hm. change (v_disk (view0 tree)) with tree_disk in Hm. rewrite E in Hm.
    destruct Hm as (ip & x & Hip & Hx & Hn & _). simpl in Hip. subst r1. exists ip, r2, k'. split; [exact Hr|].
    rewrite (fv_ic _ _ _ _ _ _ _ _ _ _ Hk). cbn [v_ic]. simpl. rewrite Hx. simpl. by rewrite Hn.
Defined.

(** ** Directory entries *)


Lemma tree_can_link v : v_held v = [] → v_bs v = [] → v_disk v = tree_disk → v_ic v = tree_ics → v_sb v = small_sb →
  can_link tree 12 1 small_sb v 0 root_inode.
Proof.
  intros H1 H2 H3 H4 H5. split; rewrite ?H1, ?H3, ?H4; [|reflexivity|reflexivity|reflexivity|discriminate
    |vm_compute; reflexivity| | | |discriminate| |discriminate|].
  - split; [done|rewrite H3; apply tree_fs|rewrite H2; apply NoDup_nil_2|]. rewrite H1. by intros x b ?%not_elem_of_nil.
  - apply tree_tree; [split; [discriminate|reflexivity]|vm_compute; reflexivity].
  - apply tree_cache.
  - apply Nat.ltb_lt. vm_compute. reflexivity.
  - unfold load. rewrite H1, H2. apply Nat.leb_le. vm_compute. reflexivity.
  - apply Nat.leb_le. vm_compute. reflexivity.
Qed.


(** C28: linking a name that leads to the directory itself, as dot does, never
    returns.  [dirlink] gives the inode it found back with [iput], which waits
    for the lock of that inode; the process holds this lock, so it sleeps on a
    lock that only it could release. *)
Theorem dirlink_dot_deadlocks `{!DevSw} i c me pid k0 start size o sb v k dp d name inum :
  geometry sb (length (k_disk k0)) start size → fsv i c me pid k0 start size o v k → can_link k0 size o sb v dp d →
  v_locked v = {[dp]} → Forall Str.is_byte name → c_ncli c = 0 →
  dir_lookup sb (v_disk v) (i_inum d) name = Some (i_inum d) →
  ∃ k' p, dirlink dp name inum k = Switch k' ∧ k_slocks k' !! LInode dp = Some (mkSleeplock 1 pid) ∧
    k_proc k' !! me = Some p ∧ p_state p = SLEEPING ∧ p_chan p = Some (ChSleepLock (LInode dp)).
Proof.
  intros Hg Hk Hc Hl Hn Hcli Hd.
  destruct (dirlink_self i c me pid k0 start size o sb Hg v dp d name inum _ Hc Hn Hl Hd k eq_refl Hcli Hk)
    as (k' & H1 & H2 & p & H3 & H4 & H5). by exists k', p.
Qed.

Lemma tree_ilock k : fsv 0 sample_cpu 0 1 tree 2 12 1 (view0 tree) k →
  ∃ k', ilock 0 k = Ret tt k' ∧ fsv 0 sample_cpu 0 1 tree 2 12 1 (view0 tree <| v_locked := {[0%nat]} |>) k'.
Proof.
  intros Hk. destruct (run_ilock 0 sample_cpu 0 1 tree 2 12 1 small_sb small_geometry (view0 tree) 0 root_inode
    (λ _ v, v = view0 tree <| v_locked := {[0%nat]} |>)) with (k := k) as (u & v & k' & Hr & Hk' & ->); try done.
  - apply (view0_ok 0 sample_cpu 0 1 2 12 tree tree_fs).
  - unfold NINODE. lia.
  - unfold load, cap. vm_compute. lia.
  - destruct u. by exists k'.
Qed.
Lemma dirlink_dot_deadlocks_witness :
  ∃ k1 k2 k3, begin_op tree = Ret tt k1 ∧ ilock 0 k1 = Ret tt k2 ∧ dirlink 0 (chars ".") 2 k2 = Switch k3.
Proof.
  destruct (begin_view 0 sample_cpu 0 1 2 12 tree tree_fs) as (k1 & Hb & Hk1). destruct (tree_ilock k1 Hk1) as (k2 & Hi & Hk2).
  destruct (dirlink_dot_deadlocks 0 sample_cpu 0 1 tree 2 12 1 small_sb (view0 tree <| v_locked := {[0%nat]} |>) k2 0 root_inode (chars ".") 2)
    as (k3 & p & Hr & _).
  - apply small_geometry.
  - exact Hk2.
  - apply tree_can_link; reflexivity.
  - reflexivity.
  - repeat constructor; discriminate.
  - reflexivity.
  - vm_compute. reflexivity.
  - exists k1, k2, k3. split_and!; [exact Hb|exact Hi|exact Hr].
Defined.

(** ** Inodes *)

(** C15: the last reference to a file without links gives everything back.  [iput]
    frees exactly the blocks of the file, marks the inode on the disk free, and
    leaves the other inodes and every block outside the bitmap as they were. *)
Theorem iput_frees i c me pid k0 start size o sb v k ip ino :
  geometry sb (length (k_disk k0)) start size → fsv i c me pid k0 start size o v k → view_ok k0 sb v →
  v_ic v !! ip = Some ino → (ip < NINODE)%nat → i_dev ino = 1 → 0 ≤ i_inum ino < sb_ninodes sb → inode_typed ino →
  file_ok sb (v_disk v) (i_addrs ino) → v_held v = [] → ip ∉ v_locked v → 1 ≤ o →
  (length (v_bs v) + nbitmap sb + 2 ≤ cap size)%nat →
  i_valid ino ≠ 0 → i_nlink ino = 0 → i_ref ino = 1 →
  ∃ v' k', iput ip k = Ret tt k' ∧ fsv i c me pid k0 start size o v' k' ∧
    i_ref <$> v_ic v' !! ip = Some 0 ∧
    (∀ b, 0 ≤ b < sb_size sb → allocated sb (v_disk v') b = true ↔
       allocated sb (v_disk v) b = true ∧ ~ owns (v_disk v) (i_addrs ino) b) ∧
    i_type (dinode sb (v_disk v') (i_inum ino)) = 0 ∧
    (∀ n, 0 ≤ n < sb_ninodes sb → n ≠ i_inum ino → dinode sb (v_disk v') n = dinode sb (v_disk v) n) ∧
    (∀ b, 0 ≤ b → ~ bitmap_block sb b → b ≠ IBLOCK (i_inum ino) sb → blk_at (v_disk v') b = blk_at (v_disk v) b).
Proof.
  intros Hg Hk Hv Hi Hip Hd Hn Ht Hf Hh Hl Ho Hroom Hvl Hnl Hr.
  destruct (run_iput_free i c me pid k0 start size o sb Hg v ip ino (λ _ v', put_away k0 sb v ip ino v')
    Hv Hi Hd Hn Ht Hf Hh Hroom Ho Hip Hl Hvl Hnl Hr (λ v' H, H) k Hk) as ([] & v' & k' & Hrt & Hk' & [P1 P2 P3 P4 P5 P6]).
  exists v', k'. split_and!; [done|done| |done|exact P5| |done].
  - rewrite P1. simpl. rewrite list_lookup_insert_eq by by eapply lookup_lt_Some. done.
  - intros n Hnr Hne. exact (P6 (zero_inode <| i_inum := n |>) Hnr Hne).
Qed.

Definition gone_inode : inode := mkInode 1 2 1 1 2 0 0 0 5 (17 :: replicate 12 0).
Definition gone : kernel := small_with (gone_inode :: replicate 49 zero_inode) small_disk.
Lemma gone_fs : fs_idle 0 sample_cpu 0 1 2 12 gone.
Proof. apply small_fs_with; vm_compute; reflexivity. Qed.
Lemma iput_frees_witness :
  ∃ k1 k2 v, begin_op gone = Ret tt k1 ∧ iput 0 k1 = Ret tt k2 ∧ i_type (dinode small_sb (v_disk v) 2) = 0 ∧
    ~ allocated small_sb (v_disk v) 17 = true.
Proof.
  destruct (begin_view 0 sample_cpu 0 1 2 12 gone gone_fs) as (k1 & Hb & Hk1).
  destruct (iput_frees 0 sample_cpu 0 1 gone 2 12 1 small_sb (view0 gone) k1 0 gone_inode) as (v' & k2 & Hr & _ & _ & Ha & Ht & _).
  - apply small_geometry.
  - exact Hk1.
  - apply (view0_ok 0 sample_cpu 0 1 2 12 gone gone_fs).
  - reflexivity.
  - unfold NINODE. lia.
  - reflexivity.
  - split; [discriminate|reflexivity].
  - destruct small_typed. split; done.
  - apply file_okb_ok. vm_compute. reflexivity.
  - reflexivity.
  - apply not_elem_of_empty.
  - discriminate.
  - apply Nat.leb_le. vm_compute. reflexivity.
  - discriminate.
  - reflexivity.
  - reflexivity.
  - exists k1, k2, v'. split_and!; [exact Hb|exact Hr|exact Ht|]. rewrite Ha by (split; [discriminate|reflexivity]).
    intros [_ Hno]. apply Hno. split; [discriminate|]. exists 0%nat. split; [unfold NSLOT; lia|vm_compute; reflexivity].
Defined.

(** Whatever bytes the disk holds, the inode that [ilock] loads is within its
    C types: 16-bit signed type, device numbers and link count, 32-bit unsigned
    size, and thirteen 32-bit addresses. *)
Theorem ilock_well_typed i c me pid k0 start size o sb v k ip ino :
  geometry sb (length (k_disk k0)) start size → fsv i c me pid k0 start size o v k → view_ok k0 sb v →
  v_ic v !! ip = Some ino → (ip < NINODE)%nat → ip ∉ v_locked v → 1 ≤ i_ref ino → i_valid ino = 0 → i_dev ino = 1 →
  0 ≤ i_inum ino < sb_ninodes sb → v_held v = [] → (load v < cap size)%nat → i_type (dinode sb (v_disk v) (i_inum ino)) ≠ 0 →
  ∃ x k', ilock ip k = Ret tt k' ∧ k_icache k' = <[ip := x]> (k_icache k) ∧ i_valid x = 1 ∧ inode_typed x ∧
    k_slocks k' !! LInode ip = Some (mkSleeplock 1 pid).
Proof.
  intros Hg Hk Hv Hi Hip Hnl Hr Hvl Hd Hn Hh Hl Ht. set (x := loaded sb (v_disk v) ino).
  assert (x = decode_dinode (blk_at (v_disk v) (IBLOCK (i_inum ino) sb)) ino <| i_valid := 1 |>) as Ex
    by (unfold x, loaded; by rewrite Hvl).
  assert (inode_typed (decode_dinode (blk_at (v_disk v) (IBLOCK (i_inum ino) sb)) ino)) as Hty.
  { apply decode_typed. apply (dk_blocks _ _ _ (vo_disk _ _ _ Hv)).
    destruct (IBLOCK_range k0 start size sb Hg _ Hn) as [_ ?]. destruct (IBLOCK_meta k0 start size sb Hg _ Hn) as (? & _). lia. }
  destruct (run_ilock i c me pid k0 start size o sb Hg v ip ino
    (λ _ v', v' = set_inode (v <| v_locked := {[ip]} ∪ v_locked v |>) ip x)) with (k := k)
    as ([] & v' & k' & Hrt & Hk' & ->); try done.
  { intros _. fold x. rewrite Ex. exact Ht. }
  exists x, k'. split; [done|]. rewrite (fv_ic _ _ _ _ _ _ _ _ _ _ Hk'), (fv_ic _ _ _ _ _ _ _ _ _ _ Hk). split; [done|].
  split; [by rewrite Ex|]. split; [rewrite Ex; destruct Hty; by split|].
  destruct (il_lock _ _ _ (fv_locks _ _ _ _ _ _ _ _ _ _ Hk') ip Hip) as (s & Hs & Hsl). simpl in Hsl.
  rewrite bool_decide_true in Hsl by set_solver. by subst s.
Qed.

Definition fresh_ics : list inode := mkInode 1 1 1 0 0 0 0 0 0 [] :: replicate 49 zero_inode.
Definition fresh : kernel := small_with fresh_ics tree_disk.
Lemma fresh_fs : fs_idle 0 sample_cpu 0 1 2 12 fresh.
Proof. apply small_fs_with; vm_compute; reflexivity. Qed.
Lemma ilock_well_typed_witness : ∃ x k', ilock 0 fresh = Ret tt k' ∧ k_icache k' = <[0%nat := x]> fresh_ics ∧ inode_typed x.
Proof.
  destruct (ilock_well_typed 0 sample_cpu 0 1 fresh 2 12 0 small_sb (view0 fresh) fresh 0 (mkInode 1 1 1 0 0 0 0 0 0 []))
    as (x & k' & Hr & Hic & _ & Ht & _).
  - apply small_geometry.
  - exact (idle_view 0 sample_cpu 0 1 2 12 fresh fresh_fs).
  - apply (view0_ok 0 sample_cpu 0 1 2 12 fresh fresh_fs).
  - reflexivity.
  - unfold NINODE. lia.
  - apply not_elem_of_empty.
  - discriminate.
  - reflexivity.
  - reflexivity.
  - split; [discriminate|reflexivity].
  - reflexivity.
  - apply Nat.ltb_lt. vm_compute. reflexivity.
  - vm_compute. discriminate.
  - exists x, k'. split_and!; [exact Hr|exact Hic|exact Ht].
Defined.

(** What [iupdate] stores is what [ilock] loads: an inode that is written, thrown
    out of memory and locked again has the same type, device numbers, link count,
    size and addresses. *)
Theorem iupdate_ilock i c me pid k0 start size o sb v k ip ino :
  geometry sb (length (k_disk k0)) start size → fsv i c me pid k0 start size o v k → view_ok k0 sb v →
  v_ic v !! ip = Some ino → (ip < NINODE)%nat → ip ∉ v_locked v → 1 ≤ i_ref ino → i_dev ino = 1 →
  0 ≤ i_inum ino < sb_ninodes sb → inode_typed ino → i_type ino ≠ 0 → v_held v = [] → (load v + 1 < cap size)%nat → 1 ≤ o →
  ∃ k', (iupdate ip ;; upd_inode ip (λ i, i <| i_valid := 0 |> <| i_size := 0 |> <| i_addrs := [] |>) ;; ilock ip) k = Ret tt k' ∧
    k_icache k' !! ip = Some (ino <| i_valid := 1 |>).
Proof.
  intros Hg Hk Hv Hi Hip Hnl Hr Hd Hn Hty Ht Hh Hl Ho.
  destruct (v_iupdate_ok k0 start size sb Hg v ino Hv Hty Hn) as (Hok & Hsy & _). set (v1 := v_iupdate sb v ino) in *.
  set (y := ino <| i_valid := 0 |> <| i_size := 0 |> <| i_addrs := [] |>).
  assert (loaded sb (v_disk v1) y = ino <| i_valid := 1 |>) as El.
  { transitivity (decode_dinode (blk_at (v_disk v1) (IBLOCK (i_inum ino) sb)) ino <| i_valid := 1 |>); [done|].
    exact (f_equal (λ z, z <| i_valid := 1 |>) Hsy). }
  pose proof (load_set_disk v (IBLOCK (i_inum ino) sb) (encode_dinode ino (blk_at (v_disk v) (IBLOCK (i_inum ino) sb)))) as Hld.
  change (set_disk _ _ _) with v1 in Hld.
  assert (run i c me pid k0 start size o v (iupdate ip ;; upd_inode ip (λ i, i <| i_valid := 0 |> <| i_size := 0 |> <| i_addrs := [] |>) ;; ilock ip)
    (λ _ v', v_ic v' !! ip = Some (ino <| i_valid := 1 |>))) as Hrun.
  { apply run_bind. eapply (run_iupdate i c me pid k0 start size o sb Hg); try done; [lia|].
    apply run_bind. eapply run_upd_inode; [exact Hi|]. fold y. set (v2 := set_inode v1 ip y).
    assert (v_ic v2 !! ip = Some y) as Hy by (apply list_lookup_insert_eq; by eapply lookup_lt_Some).
    eapply (run_ilock i c me pid k0 start size o sb Hg v2 ip y); try done.
    - by destruct Hok.
    - change (load v2) with (load v1). lia.
    - intros _. change (v_disk v2) with (v_disk v1). by rewrite El.
    - change (v_disk v2) with (v_disk v1). rewrite El. apply list_lookup_insert_eq. by eapply lookup_lt_Some. }
  destruct (Hrun k Hk) as ([] & v' & k' & Hrt & Hk' & HQ). exists k'. split; [done|].
  by rewrite (fv_ic _ _ _ _ _ _ _ _ _ _ Hk').
Qed.

Lemma iupdate_ilock_witness :
  ∃ k1 k2, begin_op small = Ret tt k1 ∧
    (iupdate 0 ;; upd_inode 0 (λ i, i <| i_valid := 0 |> <| i_size := 0 |> <| i_addrs := [] |>) ;; ilock 0) k1 = Ret tt k2 ∧
    k_icache k2 !! 0%nat = Some small_inode.
Proof.
  destruct (begin_view 0 sample_cpu 0 1 2 12 small small_fs) as (k1 & Hb & Hk1).
  destruct (iupdate_ilock 0 sample_cpu 0 1 small 2 12 1 small_sb (view0 small) k1 0 small_inode) as (k2 & Hr & Hi).
  - apply small_geometry.
  - exact Hk1.
  - apply (view0_ok 0 sample_cpu 0 1 2 12 small small_fs).
  - reflexivity.
  - unfold NINODE. lia.
  - apply not_elem_of_empty.
  - discriminate.
  - reflexivity.
  - split; [discriminate|reflexivity].
  - apply small_typed.
  - discriminate.
  - reflexivity.
  - apply Nat.ltb_lt. vm_compute. reflexivity.
  - discriminate.
  - exists k1, k2. split_and!; [exact Hb|exact Hr|exact Hi].
Defined.

(** One piece of [filewrite] stays within the space that [begin_op] reserved:
    on a disk with one bitmap block a [writei] of at most that length, wherever it
    starts, logs at most seven blocks, fewer than MAXOPBLOCKS. *)
Theorem writei_log_bound `{!DevSw} i c me pid k0 start size sb v k ip ino off src :
  geometry sb (length (k_disk k0)) start size → fsv i c me pid k0 start size 1 v k →
  writable k0 size 1 sb v ip ino off src → i_type ino ≠ T_DEV → v_bs v = [] → sb_size sb < BPB →
  Z.of_nat (length src) ≤ filewrite_max →
  ∃ k', writei ip src off k = Ret (Z.of_nat (length src)) k' ∧ lh_n (k_log k') ≤ 7 < MAXOPBLOCKS.
Proof.
  intros Hg Hk Hw Ht Hb Hs Hl.
  destruct (run_writei i c me pid k0 start size 1 sb Hg v ip ino off src Hw
    (λ r v', r = Z.of_nat (length src) ∧ ∃ a, written k0 sb v ip ino off src v' a) Ht) with (k := k)
    as (r & v' & k' & Hr & Hk' & -> & a & Hwr); [by eauto|done|].
  exists k'. split; [done|]. pose proof (fv_txn _ _ _ _ _ _ _ _ _ _ Hk') as Htx. rewrite (tx_log _ _ _ _ _ _ _ _ _ _ _ _ Htx). simpl.
  pose proof (fw_load _ _ _ _ _ _ _ _ _ Hwr) as Hld. unfold load in Hld. rewrite Hb, (wa_held _ _ _ _ _ _ _ _ _ Hw) in Hld. simpl in Hld.
  pose proof (span_piece off _ Hl). assert (nbitmap sb = 1%nat) as E.
  { unfold nbitmap. rewrite Z.div_small; [done|]. pose proof (size_pos sb _ start size Hg). lia. }
  unfold MAXOPBLOCKS. lia.
Qed.

Lemma writei_log_bound_witness :
  ∃ k1 k2, begin_op small = Ret tt k1 ∧ writei 0 greeting 5 k1 = Ret 6 k2 ∧ lh_n (k_log k2) ≤ 7.
Proof.
  destruct (begin_view 0 sample_cpu 0 1 2 12 small small_fs) as (k1 & Hb & Hk1).
  destruct (writei_log_bound 0 sample_cpu 0 1 small 2 12 small_sb (view0 small) k1 0 small_inode 5 greeting) as (k2 & Hr & Hl & _).
  - apply small_geometry.
  - exact Hk1.
  - split.
    + apply (view0_ok 0 sample_cpu 0 1 2 12 small small_fs).
    + apply (of_inode small 0 0 (small_file 5)). apply small_open; [reflexivity|lia].
    + reflexivity.
    + discriminate.
    + apply greeting_bytes.
    + discriminate.
    + discriminate.
    + vm_compute. discriminate.
    + apply Nat.leb_le. vm_compute. reflexivity.
    + left. apply Nat.leb_le. vm_compute. reflexivity.
  - discriminate.
  - reflexivity.
  - reflexivity.
  - discriminate.
  - exists k1, k2. split_and!; [exact Hb|exact Hr|exact Hl].
Defined.

(** Positions outside a file are refused.  An offset behind the end, an end that
    wraps around 32 bits, and for writing an end beyond the largest file: the
    result is -1 and the kernel is as it was. *)
Theorem out_of_range_refused `{!DevSw} k ip ino off n src :
  k_icache k !! ip = Some ino → i_type ino ≠ T_DEV →
  (i_size ino < off ∨ u32 (off + n) < off → readi ip off n k = Ret (-1, []) k) ∧
  (i_size ino < off ∨ u32 (off + Z.of_nat (length src)) < off ∨ MAXFILE * BSIZE < u32 (off + Z.of_nat (length src)) →
     writei ip src off k = Ret (-1) k).
Proof.
  intros Hi Ht. apply Z.eqb_neq in Ht. unfold readi, writei, get_inode, bind, gets. rewrite Hi. simpl. rewrite Ht.
  split; intros Hc.
  - assert ((i_size ino <? off) || (u32 (off + n) <? off) = true) as ->; [|done]. rewrite orb_true_iff, !Z.ltb_lt. done.
  - destruct ((i_size ino <? off) || _) eqn:E; [done|]. rewrite orb_false_iff, !Z.ltb_ge in E.
    assert (MAXFILE * BSIZE <? u32 (off + Z.of_nat (length src)) = true) as ->; [|done]. apply Z.ltb_lt. lia.
Qed.

Lemma out_of_range_refused_witness : readi 0 6 1 small = Ret (-1, []) small ∧ writei 0 greeting 6 small = Ret (-1) small.
Proof.
  destruct (out_of_range_refused small 0 small_inode 6 1 greeting) as [H1 H2]; [reflexivity|discriminate|].
  split; [apply H1|apply H2]; left; reflexivity.
Defined.
