(* ===== verification/Mkfs.v ===== *)
(** * Mkfs: the host tool [mkfs.c] that builds the disk image

    The image is the list of its 512-byte sectors.  A file of the argument list is
    its name and what the successive calls of [read] return, or nothing when it
    cannot be opened.  A failed assertion and [exit(1)] are the outcome [Panic].
    The tool converts every number to little-endian order, so a structure is
    modelled by its fields and stored with the kernel's byte layout. *)
From S2P Require Import Prelude.
From S2P Require Import Mem.
From S2P Require Import Str.
From S2P Require Import State.
From S2P Require Import Boot.
From S2P Require Import Blk.
From S2P Require Import Log.
From S2P Require Import Fs.

Module Mkfs.

Definition FSSIZE : Z := 1000.
Abbreviation NINODES := 200 (only parsing).
Definition nbitmap : Z := FSSIZE / (BSIZE * 8) + 1.
Definition ninodeblocks : Z := NINODES / IPB + 1.
Abbreviation nlog := LOGSIZE (only parsing).
Definition nmeta : Z := 2 + nlog + ninodeblocks + nbitmap.
Definition nblocks : Z := FSSIZE - nmeta.

(** The globals. *)
Record mkst := mkMk { mk_img : list (list Z); mk_freeinode : Z; mk_freeblock : Z }.
#[export] Instance eta_mkst : Eta mkst := λ r, mkMk (mk_img r) (mk_freeinode r) (mk_freeblock r).

Definition sb : superblock :=
  mkSuperblock FSSIZE nblocks NINODES nlog 2 (2 + nlog) (2 + nlog + ninodeblocks).

(** The bytes in memory of a number in Intel order. *)
Definition xshort (x : Z) : list Z := [u8 x; u8 (x / 256)].
Definition xint (x : Z) : list Z := [u8 x; u8 (x / 256); u8 (x / 65536); u8 (x / 16777216)].

Definition assert (b : bool) : M mkst unit := if b then ret tt else panic "assertion failed".

(** [lseek] and [write]: behind the end the file grows, with zeros in between. *)
Definition wsect (sec : Z) (buf : list Z) : M mkst unit :=
  modify (λ s, s <| mk_img :=
    if Z.to_nat sec <? length (mk_img s) then <[Z.to_nat sec := buf]> (mk_img s)
    else mk_img s ++ replicate (Z.to_nat sec - length (mk_img s)) zero_block ++ [buf] |>)%nat.
Definition rsect (sec : Z) : M mkst (list Z) :=
  img ← gets mk_img;
  match img !! Z.to_nat sec with Some d => ret d | None => panic "read" end.

Definition winode (inum : Z) (ip : inode) : M mkst unit :=
  buf ← rsect (IBLOCK inum sb);
  wsect (IBLOCK inum sb) (encode_dinode (ip <| i_inum := inum |>) buf).
Definition rinode (inum : Z) : M mkst inode :=
  buf ← rsect (IBLOCK inum sb);
  ret (decode_dinode buf (zero_inode <| i_inum := inum |>)).

Definition ialloc (type : Z) : M mkst Z :=
  inum ← gets mk_freeinode;
  modify (λ s, s <| mk_freeinode := u32 (mk_freeinode s + 1) |>) ;;
  winode inum (zero_inode <| i_type := type |> <| i_nlink := 1 |>) ;;
  ret inum.

(** [for(i = 0; i < used; i++) buf[i/8] = buf[i/8] | (0x1 << (i%8));] *)
Definition used_bits (used : Z) : list Z := foldl set_bit zero_block (seqZ 0 used).
Definition balloc (used : Z) : M mkst unit :=
  assert (used <? BSIZE * 8) ;;
  wsect (sb_bmapstart sb) (used_bits used).

(** [freeblock++] *)
Definition next_block : M mkst Z :=
  b ← gets mk_freeblock;
  modify (λ s, s <| mk_freeblock := u32 (mk_freeblock s + 1) |>) ;;
  ret b.

(** The sector of block [fbn] of a file, allocated if there is none. *)
Definition block_of (din : inode) (fbn : Z) : M mkst (inode * Z) :=
  if fbn <? NDIRECT then
    x ← get_or "addrs" (i_addrs din !! Z.to_nat fbn);
    if x =? 0 then
      x ← next_block;
      ret (din <| i_addrs := <[Z.to_nat fbn := x]> (i_addrs din) |>, x)
    else ret (din, x)
  else
    r ← get_or "addrs" (i_addrs din !! Z.to_nat NDIRECT);
    ' (din, r) ← (if r =? 0 then
        r ← next_block;
        ret (din <| i_addrs := <[Z.to_nat NDIRECT := r]> (i_addrs din) |>, r)
      else ret (din, r));
    indirect ← rsect r;
    let x := get32 indirect (Z.to_nat (4 * (fbn - NDIRECT))) in
    if x =? 0 then
      x ← next_block;
      wsect r (put32 indirect (Z.to_nat (4 * (fbn - NDIRECT))) x) ;;
      ret (din, x)
    else ret (din, x).

Fixpoint iappend_loop (fuel : nat) (din : inode) (p : list Z) (off : Z) : M mkst (inode * Z) :=
  match fuel with
  | O => spin
  | S fuel' =>
      let n := Z.of_nat (length p) in
      if 0 <? n then
        let fbn := off / BSIZE in
        assert (fbn <? MAXFILE) ;;
        ' (din, x) ← block_of din fbn;
        let n1 := Z.min n ((fbn + 1) * BSIZE - off) in
        buf ← rsect x;
        wsect x (splice buf (Z.to_nat (off - fbn * BSIZE)) (take (Z.to_nat n1) p)) ;;
        iappend_loop fuel' din (drop (Z.to_nat n1) p) (u32 (off + n1))
      else ret (din, off)
  end.
Definition iappend (inum : Z) (p : list Z) : M mkst unit :=
  din ← rinode inum;
  ' (din, off) ← iappend_loop (S (length p)) din p (i_size din);
  winode inum (din <| i_size := off |>).

(** A [struct dirent] with the bytes [name] of its name. *)
Definition dirent (inum : Z) (name : list Z) : list Z :=
  xshort inum ++ name ++ replicate (DIRSIZ - length name) 0.

(** Skip leading _ in name when writing to file system. *)
Definition skip_underscore (name : list Z) : list Z :=
  match name with c :: name' => if c =? ch "_" then name' else name | [] => [] end.

(** One file of the command line. *)
Definition add_file (rootino : Z) (f : list Z * option (list (list Z))) : M mkst unit :=
  let '(arg, content) := f in
  assert (negb (bool_decide (ch "/" ∈ arg))) ;;
  match content with
  | None => panic "open"
  | Some reads =>
      inum ← ialloc T_FILE;
      iappend rootino (dirent inum (Str.cut DIRSIZ (skip_underscore arg))) ;;
      for_each reads (iappend inum)
  end.

(** fix size of root inode dir *)
Definition fix_root (rootino : Z) : M mkst unit :=
  din ← rinode rootino;
  winode rootino (din <| i_size := u32 ((i_size din / BSIZE + 1) * BSIZE) |>).

Definition sb_bytes : list Z :=
  xint (sb_size sb) ++ xint (sb_nblocks sb) ++ xint (sb_ninodes sb) ++ xint (sb_nlog sb) ++
  xint (sb_logstart sb) ++ xint (sb_inodestart sb) ++ xint (sb_bmapstart sb).

(** [main], for the files behind the name of the image. *)
Definition main (files : list (list Z * option (list (list Z)))) : M mkst unit :=
  for_each (seqZ 0 FSSIZE) (λ i, wsect i zero_block) ;;
  wsect 1 (splice zero_block 0 sb_bytes) ;;
  rootino ← ialloc T_DIR;
  assert (rootino =? ROOTINO) ;;
  iappend rootino (dirent rootino (chars ".")) ;;
  iappend rootino (dirent rootino (chars "..")) ;;
  for_each files (add_file rootino) ;;
  fix_root rootino ;;
  used ← gets mk_freeblock;
  balloc used.

(** [open] with [O_TRUNC], and the initial values of the globals. *)
Definition mk_start : mkst := mkMk [] 1 nmeta.
Definition mkfs (files : list (list Z * option (list (list Z)))) : outcome mkst unit := main files mk_start.

End Mkfs.
