(* ===== verification/MkfsSpec.v ===== *)
(** * MkfsSpec: the image that [mkfs] builds is a file system of the kernel

    [sealed s] is the image with the bitmap that [balloc] will write at the end.
    On it the steps of [mkfs] are those of the kernel: taking the next block is
    [balloc], and appending to a file edits its blocks as [writei] does, so the
    lemmas about the kernel's disk carry the proof. *)
From S2P Require Import Prelude.
From S2P Require Import Mem.
From S2P Require Import Str.
From S2P Require Import State.
From S2P Require Import Boot.
From S2P Require Import Blk.
From S2P Require Import Bio.
From S2P Require Import Log.
From S2P Require Import Fs.
From S2P Require Import FsLogic.
From S2P Require Import FsDisk.
From S2P Require Import FsMap.
From S2P Require Import FsAlloc.
From S2P Require Import FsInode.
From S2P Require Import FsFile.
From S2P Require Import FsTrunc.
From S2P Require Import FsOp.
From S2P Require Import FsPath.
From S2P Require Import FsDir.
From S2P Require Import FsLink.
From S2P Require Import Mkfs.
Import Mkfs.

(** ** The layout *)

Lemma mk_geometry : geometry sb 1000 2 30.
Proof. split; vm_compute; try split; done. Qed.

Lemma bmap_is_58 : sb_bmapstart sb = 58. Proof. reflexivity. Qed.
Lemma data_is_59 : data_start sb = 59. Proof. reflexivity. Qed.
Lemma size_is_1000 : sb_size sb = 1000. Proof. reflexivity. Qed.
Lemma mk_BBLOCK b : 0 ≤ b < 1000 → BBLOCK b sb = 58 ∧ b mod BPB = b.
Proof.
  intros Hb. destruct (BBLOCK_eq sb 1000 2 30 mk_geometry b Hb) as [-> _].
  rewrite Z.div_small, Z.mod_small by (unfold BPB; lia). done.
Qed.

(** ** The bitmap *)

Lemma used_bits_S u : 0 ≤ u → used_bits (u + 1) = set_bit (used_bits u) u.
Proof. intros Hu. unfold used_bits. rewrite seqZ_app by lia. rewrite foldl_app. done. Qed.
Lemma used_bits_ok u : block_ok (used_bits (Z.of_nat u)).
Proof.
  induction u as [|u IH]; [apply block_ok_zero|]. rewrite Nat2Z.inj_succ, <-Z.add_1_r, used_bits_S by lia.
  by apply block_ok_set_bit.
Qed.
Lemma used_bits_spec u j : Z.of_nat u ≤ 4096 → 0 ≤ j → bit_set (used_bits (Z.of_nat u)) j = (j <? Z.of_nat u).
Proof.
  intros Hu Hj. induction u as [|u IH].
  - rewrite bit_set_testbit by done. unfold used_bits. simpl. unfold byte_at, zero_block.
    change (Z.of_nat 0) with 0. destruct (Z.ltb_spec j 0); [lia|]. destruct (replicate _ 0 !! _) as [x|] eqn:E; simpl; [|apply Z.bits_0].
    apply lookup_replicate in E as [-> _]. apply Z.bits_0.
  - rewrite Nat2Z.inj_succ, <-Z.add_1_r, used_bits_S by lia. destruct (used_bits_ok u) as [Hl _].
    rewrite set_bit_spec by (done || lia). rewrite IH by lia.
    destruct (Z.eqb_spec j (Z.of_nat u)), (Z.ltb_spec j (Z.of_nat u)), (Z.ltb_spec j (Z.of_nat u + 1)); simpl; lia || done.
Qed.

(** ** The state *)

Definition sb_block : list Z := splice zero_block 0 sb_bytes.

Record mk_ok (s : mkst) : Prop := {
  mo_len : length (mk_img s) = 1000%nat;
  mo_blocks b : 0 ≤ b < 1000 → block_ok (blk_at (mk_img s) b);
  mo_free : 59 ≤ mk_freeblock s ≤ 1000;
  mo_zero b : mk_freeblock s ≤ b < 1000 → blk_at (mk_img s) b = zero_block;
  mo_head b : 0 ≤ b < 32 → blk_at (mk_img s) b = if decide (b = 1) then sb_block else zero_block
}.
Definition sealed (s : mkst) : list (list Z) := set_blk (mk_img s) 58 (used_bits (mk_freeblock s)).

Section state.
Context (s : mkst) (Hs : mk_ok s).

Lemma sealed_at b : 0 ≤ b → blk_at (sealed s) b = if decide (b = 58) then used_bits (mk_freeblock s) else blk_at (mk_img s) b.
Proof. intros Hb. apply blk_at_set; [rewrite (mo_len _ Hs); lia|done]. Qed.
Lemma sealed_len : length (sealed s) = 1000%nat.
Proof. unfold sealed. rewrite length_set_blk. apply Hs. Qed.
Lemma sealed_alloc b : 0 ≤ b < 1000 → allocated sb (sealed s) b = (b <? mk_freeblock s).
Proof.
  intros Hb. unfold allocated. destruct (mk_BBLOCK b Hb) as [-> ->]. rewrite sealed_at, decide_True by done.
  pose proof (mo_free _ Hs). rewrite <-(Z2Nat.id (mk_freeblock s)) by lia. apply used_bits_spec; lia.
Qed.
Lemma sealed_block b : 0 ≤ b < 1000 → block_ok (blk_at (sealed s) b).
Proof.
  intros Hb. rewrite sealed_at by lia. case_decide; [|by apply Hs]. pose proof (mo_free _ Hs).
  rewrite <-(Z2Nat.id (mk_freeblock s)) by lia. apply used_bits_ok.
Qed.
Lemma sealed_ok : disk_ok sb 1000 (sealed s).
Proof.
  split; [apply sealed_len| |].
  - intros b Hb. apply sealed_block. change (sb_inodestart sb) with 32 in Hb. lia.
  - intros b Hb. rewrite data_is_59 in Hb. rewrite sealed_alloc by lia. apply Z.ltb_lt. pose proof (mo_free _ Hs). lia.
Qed.

Lemma rsect_ret x : 0 ≤ x < 1000 → x ≠ 58 → rsect x s = Ret (blk_at (sealed s) x) s.
Proof.
  intros Hx Hne. unfold rsect, bind, gets. rewrite sealed_at, decide_False by (done || lia).
  rewrite lookup_blk_at by (rewrite (mo_len _ Hs); lia). done.
Qed.

(** A write of a block in use. *)
Lemma wsect_ret x d :
  32 ≤ x < mk_freeblock s → x ≠ 58 → block_ok d →
  ∃ s', wsect x d s = Ret tt s' ∧ mk_ok s' ∧ sealed s' = set_blk (sealed s) x d ∧
    mk_freeblock s' = mk_freeblock s ∧ mk_freeinode s' = mk_freeinode s.
Proof.
  intros Hx Hne Hd. pose proof (mo_free _ Hs). pose proof (mo_len _ Hs) as Hl. unfold wsect, modify. eexists. split; [done|].
  destruct (Nat.ltb_spec (Z.to_nat x) (length (mk_img s))) as [_|]; [|lia].
  split_and!; try done.
  - split; simpl; try done.
    + by rewrite length_insert.
    + intros b Hb. change (<[_:=d]> _) with (set_blk (mk_img s) x d). rewrite blk_at_set by lia. case_decide; [done|by apply Hs].
    + intros b Hb. change (<[_:=d]> _) with (set_blk (mk_img s) x d). rewrite blk_at_set by lia. rewrite decide_False by lia. by apply Hs.
    + intros b Hb. change (<[_:=d]> _) with (set_blk (mk_img s) x d). rewrite blk_at_set by lia. rewrite decide_False by lia. by apply Hs.
  - unfold sealed, set_blk. simpl. apply list_insert_insert_ne. lia.
Qed.

(** The next block is what the kernel's [balloc] takes. *)
Lemma next_block_ret :
  mk_freeblock s < 1000 →
  ∃ s', next_block s = Ret (mk_freeblock s) s' ∧ mk_ok s' ∧ sealed s' = alloc_disk sb (sealed s) (mk_freeblock s) ∧
    mk_freeblock s' = mk_freeblock s + 1 ∧ mk_freeinode s' = mk_freeinode s.
Proof.
  intros Hlt. pose proof (mo_free _ Hs) as Hf. pose proof (mo_len _ Hs) as Hl. unfold next_block, bind, gets, modify, ret. eexists. split; [done|].
  rewrite u32_small by lia. split_and!; try done.
  - split; simpl; try apply Hs; [lia|]. intros b Hb. apply (mo_zero _ Hs). lia.
  - unfold alloc_disk, mark. destruct (mk_BBLOCK (mk_freeblock s)) as [-> ->]; [lia|]. rewrite sealed_at, decide_True by done.
    rewrite <-used_bits_S by lia. unfold sealed, set_blk. simpl. rewrite list_insert_insert_eq.
    symmetry. apply list_insert_id. rewrite list_lookup_insert_ne by lia.
    rewrite lookup_blk_at by lia. f_equal. apply Hs. lia.
Qed.
End state.

(** ** Blocks of a file *)

(** The blocks that a file of [n] bytes takes. *)
Definition need (n : Z) : Z := (n + 511) / 512 + (if 6144 <? n then 1 else 0).

Lemma need_mono m n : m ≤ n → need m ≤ need n.
Proof.
  intros H. unfold need. assert ((m + 511) / 512 ≤ (n + 511) / 512) by (apply Z.div_le_mono; lia).
  destruct (Z.ltb_spec 6144 m), (Z.ltb_spec 6144 n); lia.
Qed.
Lemma need_within off m : 0 ≤ off → 0 < m ≤ 512 - off mod 512 → need (off + m) = need (off + 1).
Proof.
  intros H Hm. unfold need. assert ((off + m + 511) / 512 = (off + 1 + 511) / 512) as -> by (Z.div_mod_to_equations; lia).
  f_equal. destruct (Z.ltb_spec 6144 (off + m)), (Z.ltb_spec 6144 (off + 1)); try done; Z.div_mod_to_equations; lia.
Qed.
Lemma need_step off : 0 ≤ off → off mod 512 = 0 → need (off + 1) = need off + (if off =? 6144 then 2 else 1).
Proof.
  intros H Hm. unfold need. assert ((off + 1 + 511) / 512 = (off + 511) / 512 + 1) as -> by (Z.div_mod_to_equations; lia).
  destruct (Z.eqb_spec off 6144), (Z.ltb_spec 6144 off), (Z.ltb_spec 6144 (off + 1)); lia.
Qed.

(** All blocks below [off] are there. *)
Definition full (D : list (list Z)) (a : list Z) (off : Z) : Prop := ∀ j, 0 ≤ j < off → fblk D a j ≠ 0.

Lemma full_aligned D a off : full D a off → 0 ≤ off → fblk D a off = 0 → off mod 512 = 0.
Proof.
  intros Hf H0 Hz. destruct (Z.eq_dec (off mod 512) 0) as [|Hne]; [done|]. exfalso.
  apply (Hf (off - 1)); [Z.div_mod_to_equations; lia|]. rewrite <-Hz. unfold fblk, BSIZE.
  assert ((off - 1) / 512 = off / 512) as -> by (Z.div_mod_to_equations; lia). done.
Qed.
Lemma full_indirect D a off : full D a off → 6144 < off → slot D a IND ≠ 0.
Proof.
  intros Hf Ho Hz. apply (Hf 6144); [lia|]. unfold fblk. change (bn_slot (Z.to_nat (6144 / BSIZE))) with 13%nat.
  rewrite slot_indirect by (unfold IND; lia). by rewrite decide_True.
Qed.

Local Notation edit := (edit sb 1000).
Local Notation file_ok := (file_ok sb).

(** What taking a block for the file leaves. *)
Record took s (a : list Z) s' (a' : list Z) : Prop := {
  tk_ok : mk_ok s';
  tk_edit : edit (λ _ x, x) (sealed s) a (sealed s') a';
  tk_ino : mk_freeinode s' = mk_freeinode s
}.
Lemma took_refl s a : mk_ok s → file_ok (sealed s) a → took s a s a.
Proof. intros Hs Hf. split; [done| |done]. apply (grow_refl sb 1000 2 30 mk_geometry); [by apply sealed_ok|done]. Qed.
Lemma took_trans s a s1 a1 s2 a2 : took s a s1 a1 → took s1 a1 s2 a2 → took s a s2 a2.
Proof.
  intros [H1 H2 H3] [H4 H5 H6]. split; [done| |congruence].
  exact (edit_trans sb 1000 2 30 mk_geometry _ _ _ _ _ _ _ _ H2 H5).
Qed.

(** [din.addrs[t] = xint(freeblock++)] *)
Lemma take_addr s a t :
  mk_ok s → file_ok (sealed s) a → (t ≤ IND)%nat → slot (sealed s) a t = 0 → mk_freeblock s < 1000 →
  ∃ s', next_block s = Ret (mk_freeblock s) s' ∧ took s a s' (<[t := mk_freeblock s]> a) ∧
    mk_freeblock s' = mk_freeblock s + 1 ∧ slot (sealed s') (<[t := mk_freeblock s]> a) t = mk_freeblock s.
Proof.
  intros Hs Hf Ht Hz Hlt. destruct (next_block_ret s Hs Hlt) as (s' & Hr & Hs' & Hse & Hfb & Hfi). pose proof (mo_free _ Hs).
  destruct (grow_addr sb 1000 2 30 mk_geometry (sealed s) a t (mk_freeblock s)) as [Hg Hsl]; try done.
  - by apply sealed_ok.
  - rewrite size_is_1000. lia.
  - rewrite sealed_alloc by (done || lia). apply Z.ltb_irrefl.
  - exists s'. rewrite <-Hse in Hg, Hsl. done.
Qed.

(** The blocks of a file are in use. *)
Lemma slot_used s a t :
  mk_ok s → file_ok (sealed s) a → (t < NSLOT)%nat → slot (sealed s) a t ≠ 0 → 59 ≤ slot (sealed s) a t < mk_freeblock s.
Proof.
  intros Hs Hf Ht Hne. destruct (fo_used _ _ _ Hf t Ht Hne) as [Hr Ha]. rewrite data_is_59, size_is_1000 in Hr.
  rewrite sealed_alloc in Ha by (done || lia). apply Z.ltb_lt in Ha. lia.
Qed.

(** [indirect[t] = xint(freeblock++)] *)
Lemma take_entry s a t :
  mk_ok s → file_ok (sealed s) a → (IND < t < NSLOT)%nat → slot (sealed s) a IND ≠ 0 → slot (sealed s) a t = 0 →
  mk_freeblock s < 1000 →
  let r := slot (sealed s) a IND in
  ∃ s1 s', next_block s = Ret (mk_freeblock s) s1 ∧
    wsect r (put32 (blk_at (sealed s) r) (4 * (t - 13)) (mk_freeblock s)) s1 = Ret tt s' ∧
    took s a s' a ∧ mk_freeblock s' = mk_freeblock s + 1 ∧ slot (sealed s') a t = mk_freeblock s.
Proof.
  intros Hs Hf Ht Hr Hz Hlt r. destruct (next_block_ret s Hs Hlt) as (s1 & H1 & Hs1 & Hse & Hfb & Hfi). pose proof (mo_free _ Hs).
  assert (59 ≤ r < mk_freeblock s) as Hrr by (apply slot_used; [done|done|unfold IND, NSLOT; lia|done]).
  assert (allocated sb (sealed s) (mk_freeblock s) = false) as Hna by (rewrite sealed_alloc by (done || lia); apply Z.ltb_irrefl).
  destruct (wsect_ret s1 Hs1 r (put32 (blk_at (sealed s) r) (4 * (t - 13)) (mk_freeblock s))) as (s' & H2 & Hs' & Hse' & Hfb' & Hfi');
    [lia|lia|apply block_ok_put32, sealed_block; [done|lia]|].
  destruct (grow_entry sb 1000 2 30 mk_geometry (sealed s) a t (mk_freeblock s)) as [Hg Hsl]; try done.
  { by apply sealed_ok. } { rewrite size_is_1000. lia. }
  assert (blk_at (alloc_disk sb (sealed s) (mk_freeblock s)) r = blk_at (sealed s) r) as Er.
  { rewrite (blk_at_alloc sb 1000 2 30 mk_geometry); [by rewrite decide_False by lia|by apply sealed_ok|rewrite size_is_1000; lia|done|lia|].
    unfold bitmap_block. rewrite data_is_59, bmap_is_58. lia. }
  fold r in Hg, Hsl. rewrite Er, <-Hse, <-Hse' in Hg, Hsl.
  exists s1, s'. split_and!; try done; [|lia]. split; [done|done|congruence].
Qed.

(** The second half of [block_of]: the entry of the indirect block. *)
Lemma indirect_ret s (din : inode) r fbn :
  mk_ok s → file_ok (sealed s) (i_addrs din) → NDIRECT ≤ fbn < MAXFILE → r = slot (sealed s) (i_addrs din) IND → r ≠ 0 →
  mk_freeblock s < 1000 ∨ slot (sealed s) (i_addrs din) (bn_slot (Z.to_nat fbn)) ≠ 0 →
  ∃ x s', (indirect ← rsect r;
     let x := get32 indirect (Z.to_nat (4 * (fbn - NDIRECT))) in
     if x =? 0 then
       x ← next_block; wsect r (put32 indirect (Z.to_nat (4 * (fbn - NDIRECT))) x) ;; ret (din, x)
     else ret (din, x)) s = Ret (din, x) s' ∧
    took s (i_addrs din) s' (i_addrs din) ∧
    mk_freeblock s' ≤ mk_freeblock s + (if decide (slot (sealed s) (i_addrs din) (bn_slot (Z.to_nat fbn)) = 0) then 1 else 0) ∧
    slot (sealed s') (i_addrs din) (bn_slot (Z.to_nat fbn)) = x ∧ x ≠ 0.
Proof.
  intros Hs Hf Hb Hr Hr0 Hroom. unfold MAXFILE, NDIRECT, NINDIRECT in *. set (a := i_addrs din) in *.
  assert (bn_slot (Z.to_nat fbn) = S (Z.to_nat fbn)) as Et by (unfold bn_slot; rewrite decide_False by lia; done).
  rewrite Et in *. set (t := S (Z.to_nat fbn)) in *.
  assert (IND < t < NSLOT)%nat as Ht by (unfold t, IND, NSLOT; lia). assert (Z.to_nat (4 * (fbn - 12)) = 4 * (t - 13))%nat as -> by lia.
  pose proof (mo_free _ Hs). subst r. destruct (slot_used s a IND Hs Hf) as [Hr1 Hr2]; [unfold IND, NSLOT; lia|done|].
  rewrite (bind_ret_eq _ _ _ _ _ (rsect_ret s Hs (slot (sealed s) a IND) ltac:(lia) ltac:(lia))). cbv zeta.
  assert (get32 (blk_at (sealed s) (slot (sealed s) a IND)) (4 * (t - 13)) = slot (sealed s) a t) as Eg.
  { rewrite (slot_indirect (sealed s) a t) by lia. by rewrite decide_False. }
  rewrite Eg. destruct (Z.eqb_spec (slot (sealed s) a t) 0) as [E0|E0].
  - destruct Hroom as [Hlt|?]; [|done].
    destruct (take_entry s a t Hs Hf Ht Hr0 E0 Hlt) as (s1 & s' & H1 & H2 & Htk & Hfb & Hsl).
    exists (mk_freeblock s), s'. rewrite (bind_ret_eq _ _ _ _ _ H1), (bind_ret_eq _ _ _ _ _ H2). rewrite decide_True by done.
    split_and!; try done; lia.
  - exists (slot (sealed s) a t), s. rewrite decide_False by done. split_and!; try done; [by apply took_refl|lia].
Qed.

Lemma took_file s a s' a' : took s a s' a' → file_ok (sealed s') a'.
Proof. intros [_ He _]. apply He. Qed.

Lemma block_of_ret s (din : inode) off :
  mk_ok s → file_ok (sealed s) (i_addrs din) → full (sealed s) (i_addrs din) off → 0 ≤ off < MAXFILE * BSIZE →
  mk_freeblock s + need (off + 1) - need off ≤ 1000 →
  ∃ a x s', block_of din (off / BSIZE) s = Ret (din <| i_addrs := a |>, x) s' ∧ took s (i_addrs din) s' a ∧
    mk_freeblock s' ≤ mk_freeblock s + need (off + 1) - need off ∧ fblk (sealed s') a off = x ∧ x ≠ 0.
Proof.
  intros Hs Hf Hfull Hoff Hroom. unfold block_of. pose proof (need_mono off (off + 1) ltac:(lia)) as Hmono.
  assert (0 ≤ off / BSIZE < MAXFILE) as Hbn by (unfold MAXFILE, NDIRECT, NINDIRECT, BSIZE in *; Z.div_mod_to_equations; lia).
  assert (din <| i_addrs := i_addrs din |> = din) as Edin by by destruct din. set (a := i_addrs din) in *.
  assert (∀ t, (t ≤ IND)%nat → a !! t = Some (slot (sealed s) a t)) as Hlk.
  { intros t Ht. rewrite slot_direct by done. destruct (lookup_lt_is_Some_2 a t) as [x Hx]; [rewrite (fo_len _ _ _ Hf); unfold IND in *; lia|].
    by rewrite Hx. }
  assert (fblk (sealed s) a off = 0 → off mod 512 = 0) as Hal by (apply full_aligned; [done|lia]).
  destruct (Z.ltb_spec (off / BSIZE) NDIRECT) as [Hd|Hd].
  - assert (bn_slot (Z.to_nat (off / BSIZE)) = Z.to_nat (off / BSIZE)) as Eb by (unfold bn_slot, NDIRECT in *; rewrite decide_True by lia; done).
    set (t := Z.to_nat (off / BSIZE)) in *. assert (t ≤ IND)%nat as Ht by (unfold t, NDIRECT, IND in *; lia).
    assert (∀ D' a', fblk D' a' off = slot D' a' t) as Efb by (intros D' a'; unfold fblk; fold t; by rewrite Eb).
    rewrite (Hlk t Ht). cbn [get_or]. unfold bind at 1, ret at 1.
    destruct (Z.eqb_spec (slot (sealed s) a t) 0) as [E0|E0].
    + pose proof (need_step off ltac:(lia) ltac:(apply Hal; by rewrite Efb)) as Hst.
      destruct (take_addr s a t Hs Hf Ht E0) as (s' & H1 & Htk & Hfb & Hsl); [destruct (off =? 6144); lia|].
      rewrite (bind_ret_eq _ _ _ _ _ H1). exists (<[t := mk_freeblock s]> a), (mk_freeblock s), s'. pose proof (mo_free _ Hs).
      split_and!; try done; [destruct (off =? 6144); lia|by rewrite Efb|lia].
    + exists a, (slot (sealed s) a t), s. split_and!; [by rewrite Edin|by apply took_refl|lia|by rewrite Efb|done].
  - rewrite (Hlk (Z.to_nat NDIRECT)) by (unfold NDIRECT, IND; lia). cbn [get_or]. unfold bind at 1, ret at 1.
    change (Z.to_nat NDIRECT) with IND. destruct (Z.eqb_spec (slot (sealed s) a IND) 0) as [E0|E0].
    + assert (off = 6144) as Eo.
      { destruct (Z.le_gt_cases off 6144); [unfold NDIRECT, BSIZE in *; Z.div_mod_to_equations; lia|]. by destruct (full_indirect _ _ _ Hfull H). }
      pose proof (need_step off ltac:(lia) ltac:(by subst off)) as Hst. rewrite (proj2 (Z.eqb_eq _ _) Eo) in Hst.
      destruct (take_addr s a IND Hs Hf ltac:(done) E0 ltac:(lia)) as (s1 & H1 & Htk & Hfb & Hsl).
      rewrite (bind_ret_eq _ _ _ (din <| i_addrs := <[IND := mk_freeblock s]> a |>, mk_freeblock s) s1)
        by by rewrite (bind_ret_eq _ _ _ _ _ H1).
      pose proof (mo_free _ Hs).
      destruct (indirect_ret s1 (din <| i_addrs := <[IND := mk_freeblock s]> a |>) (mk_freeblock s) (off / BSIZE)) as (x & s' & H2 & Htk2 & Hfb2 & Hsl2 & Hx).
      { apply Htk. } { by eapply took_file. } { lia. } { done. } { lia. } { left. lia. }
      exists (<[IND := mk_freeblock s]> a), x, s'. split_and!; try done; [by eapply took_trans|case_decide; lia].
    + unfold bind at 1, ret at 1.
      destruct (indirect_ret s din (slot (sealed s) a IND) (off / BSIZE)) as (x & s' & H2 & Htk2 & Hfb2 & Hsl2 & Hx); try done.
      { lia. }
      { destruct (decide (fblk (sealed s) a off = 0)) as [Ez|Ez]; [left|by right].
        pose proof (need_step off ltac:(lia) (Hal Ez)). destruct (off =? 6144); lia. }
      exists a, x, s'. split_and!; try done; [by rewrite Edin|]. case_decide as Ez; [|lia].
      pose proof (need_step off ltac:(lia) (Hal Ez)). destruct (off =? 6144); lia.
Qed.

(** ** Appending *)

(** The bytes [l] have been appended at [off], from the state [s0] on. *)
Record appended s0 a0 (off : Z) (l : list Z) s a : Prop := {
  ap_ok : mk_ok s;
  ap_edit : edit (over off l) (sealed s0) a0 (sealed s) a;
  ap_full : full (sealed s) a (off + Z.of_nat (length l));
  ap_count : mk_freeblock s ≤ mk_freeblock s0 + need (off + Z.of_nat (length l)) - need off;
  ap_ino : mk_freeinode s = mk_freeinode s0
}.

Lemma edit_full f D a D' a' off :
  edit f D a D' a' → full D a off → off ≤ MAXFILE * BSIZE → full D' a' off.
Proof.
  intros He Hf Hm j Hj. destruct (bn_slot_range j ltac:(lia)) as [Hs _]. unfold fblk.
  rewrite (gr_mono _ _ _ _ _ _ _ He _ Hs); by apply Hf.
Qed.

Lemma appended_step s0 a0 off l s a s1 a1 x l2 :
  appended s0 a0 off l s a → 0 ≤ off →
  let p := off + Z.of_nat (length l) in
  p < MAXFILE * BSIZE → took s a s1 a1 → mk_freeblock s1 ≤ mk_freeblock s + need (p + 1) - need p →
  fblk (sealed s1) a1 p = x → x ≠ 0 → l2 ≠ [] → (Z.to_nat (p mod BSIZE) + length l2 ≤ 512)%nat → Forall is_byte l2 →
  ∃ s2, wsect x (splice (blk_at (sealed s1) x) (Z.to_nat (p mod BSIZE)) l2) s1 = Ret tt s2 ∧ appended s0 a0 off (l ++ l2) s2 a1.
Proof.
  intros [A1 A2 A3 A4 A5] Hoff p Hp Htk Hfb Hx Hx0 Hne Hfit Hby. assert (0 ≤ p < MAXFILE * BSIZE) as Hpr by lia.
  pose proof (took_file _ _ _ _ Htk) as Hf1. destruct Htk as [T1 T2 T3]. destruct (bn_slot_range p Hpr) as [Hsr _].
  assert (59 ≤ x < mk_freeblock s1) as Hxr by (rewrite <-Hx; apply slot_used; [done|done|done|]; rewrite <-Hx in Hx0; done).
  pose proof (mo_free _ T1). assert (block_ok (blk_at (sealed s1) x)) as Hbx by (apply sealed_block; [done|lia]).
  destruct (wsect_ret s1 T1 x (splice (blk_at (sealed s1) x) (Z.to_nat (p mod BSIZE)) l2)) as (s2 & H2 & Hs2 & Hse & Hfb2 & Hfi2);
    [lia|lia|by apply block_ok_splice|].
  exists s2. split; [done|]. pose proof (edit_write sb 1000 2 30 mk_geometry (sealed s1) a1 p l2 (sealed_ok s1 T1) Hf1 Hpr) as Hw.
  cbv zeta in Hw. rewrite Hx, <-Hse in Hw. specialize (Hw Hx0 Hfit Hby).
  assert (0 < length l2)%nat as Hl2 by (destruct l2; [done|simpl; lia]). pose proof (Z.mod_pos_bound p BSIZE ltac:(done)).
  split; [done|..].
  - eapply edit_ext; [|exact (edit_trans sb 1000 2 30 mk_geometry _ _ _ _ _ _ _ _ A2 (edit_trans sb 1000 2 30 mk_geometry _ _ _ _ _ _ _ _ T2 Hw))].
    intros j y _. simpl. apply over_app.
  - rewrite length_app. intros j Hj. destruct (decide (j < p)) as [Hjp|Hjp].
    + apply (edit_full _ _ _ _ _ p Hw); [|lia|lia]. apply (edit_full _ _ _ _ _ p T2); [done|lia].
    + assert (j / BSIZE = p / BSIZE) as Ed by (unfold BSIZE in *; Z.div_mod_to_equations; lia).
      unfold fblk in *. rewrite Ed. rewrite (gr_mono _ _ _ _ _ _ _ Hw _ Hsr) by by rewrite Hx. by rewrite Hx.
  - rewrite length_app. pose proof (need_within p (Z.of_nat (length l2)) ltac:(lia)) as Hn. unfold BSIZE in *.
    rewrite <-Hn in Hfb by lia. rewrite Hfb2. change (off + Z.of_nat (length l)) with p in A4. replace (off + Z.of_nat (length l + length l2)) with (p + Z.of_nat (length l2)) by lia. lia.
  - congruence.
Qed.

Lemma iappend_loop_ret s0 a0 off fuel : ∀ (din : inode) p l s,
  appended s0 a0 off l s (i_addrs din) → 0 ≤ off → off + Z.of_nat (length l) + Z.of_nat (length p) ≤ MAXFILE * BSIZE →
  mk_freeblock s0 + need (off + Z.of_nat (length l) + Z.of_nat (length p)) - need off ≤ 1000 →
  Forall is_byte p → (length p < fuel)%nat →
  ∃ s' a, iappend_loop fuel din p (off + Z.of_nat (length l)) s =
    Ret (din <| i_addrs := a |>, off + Z.of_nat (length l) + Z.of_nat (length p)) s' ∧ appended s0 a0 off (l ++ p) s' a.
Proof.
  induction fuel as [|fuel IH]; intros din p l s Hap Hoff Hmax Hroom Hby Hf; [lia|]. cbn [iappend_loop].
  destruct (Z.ltb_spec 0 (Z.of_nat (length p))) as [Hlt|Hge].
  2: { destruct p; [|simpl in Hge; lia]. exists s, (i_addrs din). rewrite app_nil_r. split; [|done]. simpl. rewrite Z.add_0_r. by destruct din. }
  set (q := off + Z.of_nat (length l)) in *. pose proof Hap as [A1 A2 A3 A4 A5]. fold q in A3, A4.
  assert (0 ≤ q < MAXFILE * BSIZE) as Hq by lia. pose proof (Z.mod_pos_bound q BSIZE ltac:(done)). pose proof (Z.div_mod q BSIZE ltac:(done)).
  assert (q / BSIZE <? MAXFILE = true) as -> by (apply Z.ltb_lt, Z.div_lt_upper_bound; [done|lia]).
  unfold assert. unfold bind at 1, ret at 1. pose proof (need_mono (q + 1) (q + Z.of_nat (length p)) ltac:(lia)).
  destruct (block_of_ret s din q A1) as (a & x & s1 & Hb1 & Htk & Hfb & Hx & Hx0); [apply A2|done|done|lia|].
  rewrite (bind_ret_eq _ _ _ _ _ Hb1). set (m := Z.min (Z.of_nat (length p)) ((q / BSIZE + 1) * BSIZE - q)).
  assert (0 < m ≤ Z.of_nat (length p) ∧ m ≤ BSIZE - q mod BSIZE) as Hm by lia.
  pose proof (took_file _ _ _ _ Htk) as Hf1. destruct (bn_slot_range q Hq) as [Hsr _]. pose proof (mo_free _ (tk_ok _ _ _ _ Htk)).
  assert (59 ≤ x < mk_freeblock s1) as Hxr by (rewrite <-Hx; apply slot_used; [apply Htk|done|done|]; by rewrite <-Hx in Hx0).
  rewrite (bind_ret_eq _ _ _ _ _ (rsect_ret s1 (tk_ok _ _ _ _ Htk) x ltac:(lia) ltac:(lia))).
  replace (q - q / BSIZE * BSIZE) with (q mod BSIZE) by lia.
  assert (length (take (Z.to_nat m) p) = Z.to_nat m) as Hlt' by (rewrite length_take; lia).
  destruct (appended_step s0 a0 off l s (i_addrs din) s1 a x (take (Z.to_nat m) p) Hap Hoff) as (s2 & Hw2 & Hap2); try done.
  { fold q. lia. } { intros E. rewrite E in Hlt'. simpl in Hlt'. lia. } { fold q. unfold BSIZE in *. lia. } { by apply Forall_take. }
  fold q in Hw2. rewrite (bind_ret_eq _ _ _ _ _ Hw2). rewrite u32_small by (unfold MAXFILE, NDIRECT, NINDIRECT, BSIZE in *; lia).
  assert (q + m = off + Z.of_nat (length (l ++ take (Z.to_nat m) p))) as Eq by (rewrite length_app, Hlt'; lia).
  destruct (IH (din <| i_addrs := a |>) (drop (Z.to_nat m) p) (l ++ take (Z.to_nat m) p) s2) as (s' & a' & Hr3 & Hap3).
  { exact Hap2. } { done. } { rewrite <-Eq, length_drop. lia. }
  { rewrite <-Eq, length_drop. replace (q + m + Z.of_nat (length p - Z.to_nat m)) with (q + Z.of_nat (length p)) by lia. done. }
  { by apply Forall_drop. } { rewrite length_drop. lia. }
  exists s', a'. rewrite Eq, Hr3. rewrite <-app_assoc, take_drop in Hap3. split; [|done]. do 2 f_equal. rewrite <-Eq, length_drop. lia.
Qed.

(** ** Inodes *)

Local Notation ino s n := (dinode sb (sealed s) n).

Lemma mk_IBLOCK n : 0 ≤ n < 200 → IBLOCK n sb = n / IPB + 32 ∧ 32 ≤ IBLOCK n sb < 58.
Proof.
  intros Hn. unfold IBLOCK. change (sb_inodestart sb) with 32. assert (0 ≤ n / IPB < 26) by (unfold IPB; Z.div_mod_to_equations; lia).
  rewrite u32_small by lia. lia.
Qed.
Lemma rinode_ret s n : mk_ok s → 0 ≤ n < 200 → rinode n s = Ret (ino s n) s.
Proof.
  intros Hs Hn. destruct (mk_IBLOCK n Hn) as [_ Hr]. unfold rinode.
  rewrite (bind_ret_eq _ _ _ _ _ (rsect_ret s Hs (IBLOCK n sb) ltac:(lia) ltac:(lia))). done.
Qed.
Lemma ino_typed s n : mk_ok s → 0 ≤ n < 200 → inode_typed (ino s n).
Proof. intros Hs Hn. destruct (mk_IBLOCK n Hn) as [_ Hr]. apply decode_typed, sealed_block; [done|lia]. Qed.
Lemma ino_same s s' n : 0 ≤ n < 200 → blk_at (sealed s') (IBLOCK n sb) = blk_at (sealed s) (IBLOCK n sb) → ino s' n = ino s n.
Proof. intros Hn E. unfold dinode. by rewrite E. Qed.

(** The fields of an inode that are on the disk. *)
Definition same_inode (x y : inode) : Prop :=
  i_type x = i_type y ∧ i_nlink x = i_nlink y ∧ i_size x = i_size y ∧ i_addrs x = i_addrs y.

Lemma winode_ret s n (x : inode) :
  mk_ok s → 0 ≤ n < 200 → inode_typed x →
  ∃ s', winode n x s = Ret tt s' ∧ mk_ok s' ∧ mk_freeblock s' = mk_freeblock s ∧ mk_freeinode s' = mk_freeinode s ∧
    same_inode (ino s' n) x ∧ (∀ m, 0 ≤ m < 200 → m ≠ n → ino s' m = ino s m) ∧
    ∀ b, 59 ≤ b → blk_at (sealed s') b = blk_at (sealed s) b.
Proof.
  intros Hs Hn Ht. destruct (mk_IBLOCK n Hn) as [Ei Hr]. pose proof (mo_free _ Hs). unfold winode.
  rewrite (bind_ret_eq _ _ _ _ _ (rsect_ret s Hs (IBLOCK n sb) ltac:(lia) ltac:(lia))).
  assert (block_ok (blk_at (sealed s) (IBLOCK n sb))) as Hb by (apply sealed_block; [done|lia]).
  assert (inode_typed (x <| i_inum := n |>)) as Ht' by (destruct Ht; by split).
  destruct (wsect_ret s Hs (IBLOCK n sb) (encode_dinode (x <| i_inum := n |>) (blk_at (sealed s) (IBLOCK n sb))))
    as (s' & H1 & Hs' & Hse & Hfb & Hfi); [lia|lia|by apply block_ok_encode|].
  pose proof (sealed_len s Hs) as Hl. exists s'. split_and!; try done.
  - pose proof (decode_encode (x <| i_inum := n |>) (blk_at (sealed s) (IBLOCK n sb)) Hb Ht') as Hd.
    unfold same_inode, dinode. rewrite Hse, blk_at_set, decide_True by (done || lia).
    split_and!; [exact (f_equal i_type Hd)|exact (f_equal i_nlink Hd)|exact (f_equal i_size Hd)|exact (f_equal i_addrs Hd)].
  - intros m Hm Hne. destruct (mk_IBLOCK m Hm) as [Em Hmr]. unfold dinode. rewrite Hse, blk_at_set by lia. case_decide as E; [|done].
    rewrite E. apply decode_encode_other; [done|apply Ht|]. simpl. intros Emod. apply Hne.
    rewrite (Z.div_mod m IPB), (Z.div_mod n IPB) by done. lia.
  - intros b Hb59. rewrite Hse, blk_at_set by lia. by rewrite decide_False by lia.
Qed.

(** ** The files of the image *)

(** Inode [n] is a file of type [t] with the bytes [c]; the rest of its last
    block is zeros. *)
Record node s (n t : Z) (c : list Z) : Prop := {
  nd_type : i_type (ino s n) = t;
  nd_nlink : i_nlink (ino s n) = 1;
  nd_size : i_size (ino s n) = Z.of_nat (length c);
  nd_max : Z.of_nat (length c) ≤ MAXFILE * BSIZE;
  nd_file : file_ok (sealed s) (i_addrs (ino s n));
  nd_full : full (sealed s) (i_addrs (ino s n)) (Z.of_nat (length c));
  nd_byte j : 0 ≤ j < MAXFILE * BSIZE → fbyte (sealed s) (i_addrs (ino s n)) j = default 0 (c !! Z.to_nat j)
}.

Fixpoint blocks (fs : list (Z * list Z)) : Z :=
  match fs with [] => 0 | f :: fs' => need (Z.of_nat (length f.2)) + blocks fs' end.

(** The inodes from 1 on are the files [fs]. *)
Record holds s (fs : list (Z * list Z)) : Prop := {
  ho_ok : mk_ok s;
  ho_next : mk_freeinode s = 1 + Z.of_nat (length fs);
  ho_few : (length fs < 200)%nat;
  ho_node i t c : fs !! i = Some (t, c) → node s (1 + Z.of_nat i) t c;
  ho_apart i j b : i ≠ j → (i < length fs)%nat → (j < length fs)%nat →
    owns (sealed s) (i_addrs (ino s (1 + Z.of_nat i))) b → ~ owns (sealed s) (i_addrs (ino s (1 + Z.of_nat j))) b;
  ho_free n : n = 0 ∨ 1 + Z.of_nat (length fs) ≤ n < 200 → i_type (ino s n) = 0;
  ho_count : mk_freeblock s ≤ 59 + blocks fs;
  ho_used b : 59 ≤ b < mk_freeblock s →
    ∃ i, (i < length fs)%nat ∧ owns (sealed s) (i_addrs (ino s (1 + Z.of_nat i))) b
}.

Lemma need_pos n : 0 ≤ n → 0 ≤ need n.
Proof. intros H. unfold need. assert (0 ≤ (n + 511) / 512) by (apply Z.div_pos; lia). destruct (6144 <? n); lia. Qed.
Lemma blocks_app fs gs : blocks (fs ++ gs) = blocks fs + blocks gs.
Proof. induction fs as [|f fs IH]; simpl; [done|]. rewrite IH. lia. Qed.
Lemma blocks_insert fs i t c t' c' :
  fs !! i = Some (t, c) →
  blocks (<[i := (t', c')]> fs) = blocks fs + need (Z.of_nat (length c')) - need (Z.of_nat (length c)).
Proof.
  revert i. induction fs as [|f fs IH]; intros [|i] Hi; simpl in *; [done..| |].
  - injection Hi as ->. simpl. lia.
  - rewrite (IH _ Hi). lia.
Qed.

(** A file none of whose blocks are touched. *)
Lemma node_keep s s' n t c :
  node s n t c → ino s' n = ino s n →
  (∀ b, owns (sealed s) (i_addrs (ino s n)) b → blk_at (sealed s') b = blk_at (sealed s) b ∧ allocated sb (sealed s') b = true) →
  node s' n t c ∧ ∀ b, owns (sealed s') (i_addrs (ino s' n)) b ↔ owns (sealed s) (i_addrs (ino s n)) b.
Proof.
  intros [H1 H2 H3 H4 H5 H6 H7] Ei Hb. destruct (same_file sb _ _ _ H5 Hb) as (F1 & F2 & F3). rewrite Ei. split.
  - split; rewrite ?Ei; try done.
    + intros j Hj. unfold fblk. rewrite F2. by apply H6.
    + intros j Hj. rewrite F3 by done. by apply H7.
  - intros b. unfold owns. by setoid_rewrite F2.
Qed.

(** What a change of inode [n] alone leaves of the other files. *)
Record kept (s s' : mkst) (n : Z) : Prop := {
  kp_ino m : 0 ≤ m < 200 → m ≠ n → ino s' m = ino s m;
  kp_blk b : 59 ≤ b < mk_freeblock s → ~ owns (sealed s) (i_addrs (ino s n)) b → blk_at (sealed s') b = blk_at (sealed s) b;
  kp_used : mk_freeblock s ≤ mk_freeblock s';
  kp_next b : owns (sealed s') (i_addrs (ino s' n)) b → owns (sealed s) (i_addrs (ino s n)) b ∨ mk_freeblock s ≤ b;
  kp_mono b : owns (sealed s) (i_addrs (ino s n)) b → owns (sealed s') (i_addrs (ino s' n)) b;
  kp_new b : mk_freeblock s ≤ b < mk_freeblock s' → owns (sealed s') (i_addrs (ino s' n)) b
}.

Lemma owns_range s n t c b : mk_ok s → node s n t c → owns (sealed s) (i_addrs (ino s n)) b → 59 ≤ b < mk_freeblock s.
Proof. intros Hs Hn [Hb (j & Hj & <-)]. apply slot_used; [done|apply Hn|done|done]. Qed.

Lemma kept_node s s' n m t c :
  mk_ok s → mk_ok s' → kept s s' n → node s m t c → 0 ≤ m < 200 → m ≠ n →
  (∀ b, owns (sealed s) (i_addrs (ino s m)) b → ~ owns (sealed s) (i_addrs (ino s n)) b) →
  node s' m t c ∧ (∀ b, owns (sealed s') (i_addrs (ino s' m)) b ↔ owns (sealed s) (i_addrs (ino s m)) b).
Proof.
  intros Hs Hs' [K1 K2 K3 K4 _ _] Hn Hm Hne Hap. apply node_keep; [done|by apply K1|]. intros b Hb.
  pose proof (owns_range _ _ _ _ _ Hs Hn Hb). pose proof (mo_free _ Hs). pose proof (mo_free _ Hs'). split; [apply K2; auto; lia|].
  rewrite sealed_alloc by (done || lia). apply Z.ltb_lt. lia.
Qed.

Lemma holds_change s s' fs i t c t' c' :
  holds s fs → fs !! i = Some (t, c) → mk_ok s' → kept s s' (1 + Z.of_nat i) → mk_freeinode s' = mk_freeinode s →
  node s' (1 + Z.of_nat i) t' c' →
  mk_freeblock s' ≤ mk_freeblock s + need (Z.of_nat (length c')) - need (Z.of_nat (length c)) →
  holds s' (<[i := (t', c')]> fs).
Proof.
  intros [H1 H2 H3 H4 H5 H6 H7 H8] Hi Hs' K Hfi Hn' Hfb. pose proof (lookup_lt_Some _ _ _ Hi) as Hil.
  assert (∀ j, j ≠ i → (j < length fs)%nat →
    (∀ tc, fs !! j = Some tc → node s' (1 + Z.of_nat j) tc.1 tc.2) ∧
    ∀ b, owns (sealed s') (i_addrs (ino s' (1 + Z.of_nat j))) b ↔ owns (sealed s) (i_addrs (ino s (1 + Z.of_nat j))) b) as Hother.
  { intros j Hj Hjl. destruct (lookup_lt_is_Some_2 _ _ Hjl) as [[tj cj] Ej].
    destruct (kept_node s s' (1 + Z.of_nat i) (1 + Z.of_nat j) tj cj H1 Hs' K (H4 _ _ _ Ej)) as [Hk1 Hk2]; [lia|lia|intros b Hb; by apply (H5 j i b)|].
    split; [|done]. intros tc E. by simplify_eq. }
  assert (∀ j b, j ≠ i → (j < length fs)%nat → owns (sealed s') (i_addrs (ino s' (1 + Z.of_nat i))) b →
    ~ owns (sealed s') (i_addrs (ino s' (1 + Z.of_nat j))) b) as Hi'.
  { intros j b Hj Hjl Hb Hbj. apply (proj2 (Hother j Hj Hjl) b) in Hbj. destruct (lookup_lt_is_Some_2 _ _ Hjl) as [[tj cj] Ej].
    pose proof (owns_range _ _ _ _ _ H1 (H4 _ _ _ Ej) Hbj). destruct (kp_next _ _ _ K b Hb) as [Ho|]; [|lia].
    by apply (H5 i j b ltac:(done) Hil Hjl Ho). }
  split; rewrite ?length_insert; try done.
  - by rewrite Hfi.
  - intros j tj cj Hj. destruct (decide (i = j)) as [<-|Hne].
    + rewrite list_lookup_insert_eq in Hj by done. by simplify_eq.
    + rewrite list_lookup_insert_ne in Hj by done. exact (proj1 (Hother j ltac:(done) (lookup_lt_Some _ _ _ Hj)) (tj, cj) Hj).
  - intros j k b Hjk Hj Hk. destruct (decide (j = i)) as [->|Hji]; [by apply Hi'|].
    destruct (decide (k = i)) as [->|Hki]; [intros Hb1 Hb2; by apply (Hi' j b)|].
    intros Hb1 Hb2. apply (proj2 (Hother j Hji Hj) b) in Hb1. apply (proj2 (Hother k Hki Hk) b) in Hb2. by apply (H5 j k b Hjk Hj Hk Hb1).
  - intros n Hn. rewrite (kp_ino _ _ _ K) by lia. by apply H6.
  - rewrite (blocks_insert _ _ _ _ _ _ Hi). lia.
  - intros b Hb. destruct (decide (b < mk_freeblock s)) as [Hlt|Hge].
    + destruct (H8 b ltac:(lia)) as (j & Hj & Ho). exists j. split; [done|].
      destruct (decide (j = i)) as [->|Hne]; [by apply (kp_mono _ _ _ K)|by apply (Hother j Hne Hj)].
    + exists i. split; [done|]. apply (kp_new _ _ _ K). lia.
Qed.

Lemma addrs_uint s a : mk_ok s → file_ok (sealed s) a → Forall is_uint a.
Proof.
  intros Hs Hf. apply Forall_lookup. intros j x Hx. assert (j < 13)%nat by (rewrite <-(fo_len _ _ _ Hf); by eapply lookup_lt_Some).
  destruct (decide (x = 0)) as [->|Hne]; [unfold is_uint; lia|]. pose proof (mo_free _ Hs).
  assert (slot (sealed s) a j = x) as Es by (rewrite slot_direct by (unfold IND; lia); by rewrite Hx).
  pose proof (slot_used s a j Hs Hf ltac:(unfold NSLOT; lia) ltac:(by rewrite Es)). unfold is_uint. lia.
Qed.
Lemma edit_ino f s a s' a' n : 0 ≤ n < 200 → mk_ok s' → edit f (sealed s) a (sealed s') a' → ino s' n = ino s n.
Proof.
  intros Hn Hs' He. destruct (mk_IBLOCK n Hn) as [_ Hr]. apply ino_same; [done|]. apply (gr_frame _ _ _ _ _ _ _ He); [lia|..].
  - unfold bitmap_block. rewrite bmap_is_58. lia.
  - intros [H0 (j & Hj & Ej)]. pose proof (slot_used s' a' j Hs' (gr_file _ _ _ _ _ _ _ He) Hj ltac:(by rewrite Ej)). lia.
Qed.

(** [winode] of a file whose blocks and bytes are in place. *)
Lemma winode_appended s0 s1 n t c l a :
  mk_ok s0 → 0 ≤ n < 200 → node s0 n t c →
  appended s0 (i_addrs (ino s0 n)) (Z.of_nat (length c)) l s1 a → Z.of_nat (length c) + Z.of_nat (length l) ≤ MAXFILE * BSIZE →
  ∃ s', winode n (ino s0 n <| i_addrs := a |> <| i_size := Z.of_nat (length c) + Z.of_nat (length l) |>) s1 = Ret tt s' ∧
    mk_ok s' ∧ kept s0 s' n ∧ mk_freeinode s' = mk_freeinode s0 ∧ node s' n t (c ++ l) ∧
    mk_freeblock s' ≤ mk_freeblock s0 + need (Z.of_nat (length (c ++ l))) - need (Z.of_nat (length c)).
Proof.
  intros Hs0 Hn [N1 N2 N3 N4 N5 N6 N7] [A1 A2 A3 A4 A5] Hmax. set (x := ino s0 n <| i_addrs := a |> <| i_size := _ |>).
  pose proof (gr_file _ _ _ _ _ _ _ A2) as Hf1. rewrite length_app, Nat2Z.inj_add.
  assert (inode_typed x) as Htx.
  { destruct (ino_typed s0 n Hs0 Hn). split; try done; [unfold x, is_uint, MAXFILE, NDIRECT, NINDIRECT, BSIZE in *; simpl; lia|apply Hf1|].
    exact (addrs_uint s1 a A1 Hf1). }
  destruct (winode_ret s1 n x A1 Hn Htx) as (s' & Hw & Hs' & Hfb & Hfi & (X1 & X2 & X3 & X4) & Hoth & Hblk).
  pose proof (mo_free _ Hs0). pose proof (mo_free _ A1). change (i_addrs x) with a in X4.
  assert (∀ b, owns (sealed s1) a b → 59 ≤ b < mk_freeblock s1) as Hrange.
  { intros b [Hb0 (j & Hj & <-)]. by apply slot_used. }
  destruct (same_file sb (sealed s1) (sealed s') a Hf1) as (F1 & F2 & F3).
  { intros b Hb. specialize (Hrange b Hb). split; [apply Hblk; lia|]. rewrite sealed_alloc by (done || lia). apply Z.ltb_lt. lia. }
  assert (∀ b, owns (sealed s') a b ↔ owns (sealed s1) a b) as Hown by (intros b; unfold owns; by setoid_rewrite F2).
  assert (mk_freeblock s0 ≤ mk_freeblock s1) as Hle.
  { destruct (Z.le_gt_cases (mk_freeblock s0) (mk_freeblock s1)) as [|Hlt]; [done|]. exfalso.
    assert (allocated sb (sealed s1) (mk_freeblock s1) = true) as Ha.
    { apply (gr_alloc _ _ _ _ _ _ _ A2); [rewrite size_is_1000; lia|]. left. rewrite sealed_alloc by (done || lia). by apply Z.ltb_lt. }
    rewrite sealed_alloc in Ha by (done || lia). apply Z.ltb_lt in Ha. lia. }
  exists s'. split_and!; [done|done| |congruence| |lia].
  - split.
    + intros m Hm Hne. rewrite Hoth by done. by eapply edit_ino.
    + intros b Hb Hno. rewrite Hblk by lia. apply (gr_frame _ _ _ _ _ _ _ A2); [lia|unfold bitmap_block; rewrite data_is_59, bmap_is_58; lia|].
      intros Ho. destruct (gr_fresh _ _ _ _ _ _ _ A2 b Ho) as [|Ha]; [done|]. rewrite sealed_alloc in Ha by (done || lia).
      apply Z.ltb_ge in Ha. lia.
    + lia.
    + intros b Hb. rewrite X4 in Hb. apply Hown in Hb. pose proof (Hrange b Hb). destruct (gr_fresh _ _ _ _ _ _ _ A2 b Hb) as [|Ha]; [by left|right].
      rewrite sealed_alloc in Ha by (done || lia). by apply Z.ltb_ge in Ha.
    + intros b [Hb0 (j & Hj & Ej)]. rewrite X4. apply Hown. split; [done|]. exists j. split; [done|].
      rewrite (gr_mono _ _ _ _ _ _ _ A2) by (try done; by rewrite Ej). done.
    + intros b Hb. rewrite X4. apply Hown. rewrite Hfb in Hb.
      destruct (proj1 (gr_alloc _ _ _ _ _ _ _ A2 b ltac:(rewrite size_is_1000; lia))) as [Ha|]; [| |done].
      * rewrite sealed_alloc by (done || lia). apply Z.ltb_lt. lia.
      * rewrite sealed_alloc in Ha by (done || lia). apply Z.ltb_lt in Ha. lia.
  - split; rewrite ?X1, ?X2, ?X3, ?X4; try done; rewrite ?length_app, ?Nat2Z.inj_add; try done.
    + intros j Hj. unfold fblk. rewrite F2. by apply A3.
    + intros j Hj. rewrite F3, (gr_byte _ _ _ _ _ _ _ A2), N7 by done. unfold over. case_decide.
      * rewrite lookup_app_r by lia. rewrite (lookup_ge_None_2 c) by lia.
        by replace (Z.to_nat (j - Z.of_nat (length c))) with (Z.to_nat j - length c)%nat by lia.
      * by rewrite lookup_app_l by lia.
Qed.

Lemma iappend_ret s fs i t c p :
  holds s fs → fs !! i = Some (t, c) → Forall is_byte p → Z.of_nat (length c + length p) ≤ MAXFILE * BSIZE →
  blocks (<[i := (t, c ++ p)]> fs) ≤ 941 →
  ∃ s', iappend (1 + Z.of_nat i) p s = Ret tt s' ∧ holds s' (<[i := (t, c ++ p)]> fs).
Proof.
  intros Hh Hi Hby Hmax Hroom. pose proof (lookup_lt_Some _ _ _ Hi) as Hil. pose proof (ho_few _ _ Hh). pose proof (ho_ok _ _ Hh) as Hs.
  set (n := 1 + Z.of_nat i). assert (0 ≤ n < 200) as Hn by lia. pose proof (ho_node _ _ Hh _ _ _ Hi) as Hnd. fold n in Hnd.
  rewrite (blocks_insert _ _ _ _ _ _ Hi), length_app in Hroom. pose proof (ho_count _ _ Hh).
  unfold iappend. rewrite (bind_ret_eq _ _ _ _ _ (rinode_ret s n Hs Hn)). rewrite (nd_size _ _ _ _ Hnd).
  destruct (iappend_loop_ret s (i_addrs (ino s n)) (Z.of_nat (length c)) (S (length p)) (ino s n) p [] s) as (s1 & a & H1 & Hap); simpl; try lia; try done.
  { split; simpl; rewrite ?Z.add_0_r; [done| |apply Hnd|lia|done]. eapply edit_ext; [|apply (grow_refl sb 1000 2 30 mk_geometry); [by apply sealed_ok|apply Hnd]].
    intros j y _. simpl. by rewrite over_nil. }
  { rewrite Z.add_0_r. rewrite Nat2Z.inj_add in Hroom. lia. }
  simpl in H1. rewrite Z.add_0_r in H1. rewrite (bind_ret_eq _ _ _ _ _ H1).
  destruct (winode_appended s s1 n t c p a Hs Hn Hnd Hap ltac:(lia)) as (s' & H2 & Hs' & Hk & Hfi & Hnd' & Hfb).
  exists s'. split; [exact H2|]. by eapply holds_change.
Qed.

(** ** New files *)

Lemma zero_addrs_slot D j : slot D (replicate 13 0) j = 0.
Proof. unfold slot. case_decide; [|done]. destruct (replicate 13 0 !! j) as [x|] eqn:E; [|done]. by apply lookup_replicate in E as [-> _]. Qed.
Lemma zero_addrs_file D : file_ok D (replicate 13 0) ∧ ∀ b, ~ owns D (replicate 13 0) b.
Proof.
  split; [split|].
  - done.
  - intros j _ H. by rewrite zero_addrs_slot in H.
  - intros j k _ _ H. by rewrite zero_addrs_slot in H.
  - intros b [Hb (j & _ & Hj)]. rewrite zero_addrs_slot in Hj. done.
Qed.

Lemma ialloc_ret s fs t :
  holds s fs → (length fs < 199)%nat → is_short t →
  ∃ s', ialloc t s = Ret (1 + Z.of_nat (length fs)) s' ∧ holds s' (fs ++ [(t, [])]).
Proof.
  intros Hh Hl Ht. pose proof Hh as [H1 H2 H3 H4 H5 H6 H7 H8]. set (n := 1 + Z.of_nat (length fs)).
  assert (0 ≤ n < 200) as Hn by lia. unfold ialloc, bind at 1, gets. rewrite H2. fold n. unfold bind at 1, modify. cbn beta.
  set (s1 := s <| mk_freeinode := u32 (mk_freeinode s + 1) |>). set (x := zero_inode <| i_type := t |> <| i_nlink := 1 |>).
  assert (mk_ok s1) as Hs1 by (destruct H1; by split). assert (sealed s1 = sealed s) as Es1 by done.
  destruct (winode_ret s1 n x Hs1 Hn) as (s' & Hw & Hs' & Hfb & Hfi & (X1 & X2 & X3 & X4) & Hoth & Hblk).
  { split; try done; by apply Forall_replicate. }
  rewrite Es1 in Hoth, Hblk. change (mk_freeblock s1) with (mk_freeblock s) in Hfb.
  assert (mk_freeinode s' = n + 1) as Hfi' by (rewrite Hfi; simpl; rewrite H2, u32_small by lia; done).
  change (i_addrs x) with (replicate 13 0) in X4. destruct (zero_addrs_file (sealed s')) as [Hf0 Hno].
  assert (∀ i tc, fs !! i = Some tc → node s' (1 + Z.of_nat i) tc.1 tc.2 ∧
    ∀ b, owns (sealed s') (i_addrs (ino s' (1 + Z.of_nat i))) b ↔ owns (sealed s) (i_addrs (ino s (1 + Z.of_nat i))) b) as Hold.
  { intros i [ti ci] Hi. pose proof (lookup_lt_Some _ _ _ Hi). apply (node_keep s s'); [by apply H4|apply Hoth; lia|].
    intros b Hb. pose proof (owns_range _ _ _ _ _ H1 (H4 _ _ _ Hi) Hb). pose proof (mo_free _ H1).
    split; [apply Hblk; lia|]. rewrite sealed_alloc by (done || lia). apply Z.ltb_lt. lia. }
  exists s'. split; [by rewrite (bind_ret_eq _ _ _ _ _ Hw)|].
  assert (length (fs ++ [(t, [] : list Z)]) = S (length fs)) as El by (rewrite length_app; simpl; lia).
  split; rewrite ?El; try done; try lia.
  - intros i ti ci Hi. apply lookup_app_Some in Hi as [Hi|[Hge Hi]]; [exact (proj1 (Hold _ _ Hi))|].
    apply list_lookup_singleton_Some in Hi as [Hi [= <- <-]]. replace (1 + Z.of_nat i) with n by lia.
    split; rewrite ?X1, ?X2, ?X3, ?X4; try done.
    + intros j Hj. simpl in Hj. lia.
    + intros j _. unfold fbyte, fblk. by rewrite decide_True by apply zero_addrs_slot.
  - intros i j b Hij Hi Hj Hb1 Hb2.
    assert (∀ k, owns (sealed s') (i_addrs (ino s' (1 + Z.of_nat k))) b → (k < S (length fs))%nat →
      (k < length fs)%nat ∧ owns (sealed s) (i_addrs (ino s (1 + Z.of_nat k))) b) as Hk.
    { intros k Hb Hk. destruct (decide (k = length fs)) as [->|]; [fold n in Hb; rewrite X4 in Hb; by destruct (Hno b)|].
      destruct (lookup_lt_is_Some_2 fs k ltac:(lia)) as [tc Etc]. split; [lia|]. by apply (Hold _ _ Etc). }
    destruct (Hk i Hb1 Hi), (Hk j Hb2 Hj). by apply (H5 i j b).
  - intros m Hm. rewrite Hoth by lia. apply H6. lia.
  - rewrite blocks_app, Hfb. change (blocks [(t, [])]) with 0. lia.
  - intros b Hb. rewrite Hfb in Hb. destruct (H8 b Hb) as (j & Hj & Ho). exists j. split; [lia|].
    destruct (lookup_lt_is_Some_2 fs j Hj) as [tc Etc]. by apply (Hold _ _ Etc).
Qed.

(** ** The files of the command line *)

Lemma need_0 : need 0 = 0. Proof. reflexivity. Qed.

Lemma appends_ret i t l : ∀ s fs c,
  holds s fs → fs !! i = Some (t, c) → Forall (Forall is_byte) l →
  Z.of_nat (length (c ++ concat l)) ≤ MAXFILE * BSIZE → blocks (<[i := (t, c ++ concat l)]> fs) ≤ 941 →
  ∃ s', for_each l (iappend (1 + Z.of_nat i)) s = Ret tt s' ∧ holds s' (<[i := (t, c ++ concat l)]> fs).
Proof.
  induction l as [|p l IH]; intros s fs c Hh Hi Hby Hmax Hroom; simpl in *.
  - exists s. rewrite app_nil_r. by rewrite list_insert_id.
  - apply Forall_cons in Hby as [Hp Hby]. rewrite app_assoc in Hmax, Hroom |- *. pose proof (lookup_lt_Some _ _ _ Hi).
    rewrite (blocks_insert _ _ _ _ _ _ Hi), length_app in Hroom. rewrite length_app in Hmax.
    pose proof (need_mono (Z.of_nat (length (c ++ p))) (Z.of_nat (length (c ++ p) + length (concat l))) ltac:(lia)).
    destruct (iappend_ret s fs i t c p Hh Hi Hp) as (s1 & H1 & Hh1).
    { rewrite <-length_app. lia. } { rewrite (blocks_insert _ _ _ _ _ _ Hi). lia. }
    rewrite (bind_ret_eq _ _ _ _ _ H1). destruct (IH s1 _ (c ++ p) Hh1) as (s' & H2 & Hh2); try done.
    { by rewrite list_lookup_insert_eq. } { rewrite length_app. lia. }
    { rewrite list_insert_insert_eq, (blocks_insert _ _ _ _ _ _ Hi), length_app. lia. }
    exists s'. split; [exact H2|]. by rewrite list_insert_insert_eq in Hh2.
Qed.

(** The name of an entry, and a file of the command line that can be stored. *)
Definition mk_name (arg : list Z) : list Z := Str.cut DIRSIZ (skip_underscore arg).
Definition storable (f : list Z * list (list Z)) : Prop :=
  ch "/" ∉ f.1 ∧ Forall is_byte f.1 ∧ Forall (Forall is_byte) f.2 ∧ Z.of_nat (length (concat f.2)) ≤ MAXFILE * BSIZE.

Lemma mk_dirent_length n name : (length name ≤ DIRSIZ)%nat → length (dirent n name) = 16%nat.
Proof. intros H. unfold dirent. rewrite !length_app, length_replicate. unfold DIRSIZ in *. simpl. lia. Qed.
Lemma mk_dirent_bytes n name : Forall is_byte name → Forall is_byte (dirent n name).
Proof.
  intros H. unfold dirent, xshort. rewrite !Forall_app. split_and!; [|done|by apply Forall_replicate].
  repeat constructor; apply u8_range.
Qed.
Lemma mk_name_ok arg : Forall is_byte arg → (length (mk_name arg) ≤ DIRSIZ)%nat ∧ Forall is_byte (mk_name arg).
Proof.
  intros H. split; [apply Str.length_cut|]. apply cut_bytes. destruct arg as [|c arg]; simpl; [done|]. apply Forall_cons in H as [H1 H2].
  case_match; [done|by constructor].
Qed.

Lemma add_file_ret s r fs arg reads :
  holds s ((T_DIR, r) :: fs) → storable (arg, reads) → (length fs < 198)%nat → (length r + 16 ≤ 4096)%nat →
  need (Z.of_nat (length r + 16)) + blocks fs + need (Z.of_nat (length (concat reads))) ≤ 941 →
  ∃ s', add_file 1 (arg, Some reads) s = Ret tt s' ∧
    holds s' ((T_DIR, r ++ dirent (2 + Z.of_nat (length fs)) (mk_name arg)) :: fs ++ [(T_FILE, concat reads)]).
Proof.
  intros Hh (Hsl & Hba & Hbr & Hmax) Hl Hr Hroom. simpl in *. unfold add_file. rewrite bool_decide_false by done. simpl.
  unfold bind at 1, ret at 1. destruct (mk_name_ok arg Hba) as [Hnl Hnb].
  destruct (ialloc_ret s _ T_FILE Hh) as (s1 & H1 & Hh1); [simpl; lia|done|]. rewrite (bind_ret_eq _ _ _ _ _ H1).
  change (length ((T_DIR, r) :: fs)) with (S (length fs)). replace (1 + Z.of_nat (S (length fs))) with (2 + Z.of_nat (length fs)) by lia.
  set (d := dirent (2 + Z.of_nat (length fs)) (mk_name arg)). assert (length d = 16%nat) as Hd by by apply mk_dirent_length.
  pose proof (need_pos (Z.of_nat (length (concat reads))) ltac:(lia)).
  destruct (iappend_ret s1 _ 0 T_DIR r d Hh1) as (s2 & H2 & Hh2).
  { done. } { by apply mk_dirent_bytes. } { rewrite Hd. unfold MAXFILE, NDIRECT, NINDIRECT, BSIZE. lia. }
  { simpl. rewrite blocks_app, length_app, Hd. change (blocks [(T_FILE, [])]) with 0. lia. }
  change (1 + Z.of_nat 0) with 1 in H2. rewrite (bind_ret_eq _ _ _ _ _ H2). simpl in Hh2.
  assert (((T_DIR, r ++ d) :: fs ++ [(T_FILE, [])]) !! S (length fs) = Some (T_FILE, [])) as Hlast by (simpl; by apply list_lookup_middle).
  destruct (appends_ret (S (length fs)) T_FILE reads s2 _ [] Hh2 Hlast Hbr) as (s3 & H3 & Hh3); [done|..].
  { rewrite (blocks_insert _ _ _ _ _ _ Hlast). simpl. rewrite blocks_app, length_app, Hd. change (blocks [(T_FILE, [])]) with 0. change (need (Z.of_nat 0)) with 0. lia. }
  exists s3. replace (1 + Z.of_nat (S (length fs))) with (2 + Z.of_nat (length fs)) in H3 by lia. split; [exact H3|].
  simpl in Hh3. rewrite insert_app_r_alt, Nat.sub_diag in Hh3 by done. exact Hh3.
Qed.

(** What the directory and the files become. *)
Definition listing (n : Z) (args : list (list Z * list (list Z))) : list Z :=
  concat (imap (λ i f, dirent (n + Z.of_nat i) (mk_name f.1)) args).
Definition stored (args : list (list Z * list (list Z))) : list (Z * list Z) := (λ f, (T_FILE, concat f.2)) <$> args.

Lemma listing_cons n f args : listing n (f :: args) = dirent n (mk_name f.1) ++ listing (n + 1) args.
Proof.
  unfold listing. cbn [imap concat]. rewrite Z.add_0_r. f_equal. f_equal. apply imap_ext. intros i g _. unfold compose. f_equal. lia.
Qed.

Lemma add_files_ret args : ∀ s r fs,
  holds s ((T_DIR, r) :: fs) → Forall storable args → (length fs + length args ≤ 198)%nat → (length r + 16 * length args ≤ 4096)%nat →
  need (Z.of_nat (length r + 16 * length args)) + blocks fs + blocks (stored args) ≤ 941 →
  ∃ s', for_each (prod_map id Some <$> args) (add_file 1) s = Ret tt s' ∧
    holds s' ((T_DIR, r ++ listing (2 + Z.of_nat (length fs)) args) :: fs ++ stored args).
Proof.
  induction args as [|[arg reads] args IH]; intros s r fs Hh Hst Hl Hr Hroom.
  - exists s. cbn. rewrite !app_nil_r. done.
  - apply Forall_cons in Hst as [Hf Hst]. cbn [length] in *. cbn [fmap list_fmap for_each prod_map id fst snd].
    change (blocks (stored ((arg, reads) :: args))) with (need (Z.of_nat (length (concat reads))) + blocks (stored args)) in Hroom.
    assert (0 ≤ blocks (stored args)).
    { clear. induction args as [|f args IH]; simpl; [done|]. pose proof (need_pos (Z.of_nat (length (concat f.2))) ltac:(lia)).
      change (list_fmap _ _ _ args) with (stored args). lia. }
    pose proof (need_mono (Z.of_nat (length r + 16)) (Z.of_nat (length r + 16 * S (length args))) ltac:(lia)).
    destruct (add_file_ret s r fs arg reads Hh Hf) as (s1 & H1 & Hh1); [lia|lia|lia|].
    rewrite (bind_ret_eq _ _ _ _ _ H1). set (d := dirent (2 + Z.of_nat (length fs)) (mk_name arg)) in *.
    assert (length d = 16%nat) as Hd by (apply mk_dirent_length, mk_name_ok, Hf).
    destruct (IH s1 (r ++ d) (fs ++ [(T_FILE, concat reads)]) Hh1 Hst) as (s' & H2 & Hh2); rewrite ?length_app, ?Hd; cbn [length]; try lia.
    { rewrite blocks_app. cbn [blocks snd]. replace (length r + 16 + 16 * length args)%nat with (length r + 16 * S (length args))%nat by lia. lia. }
    exists s'. split; [exact H2|]. rewrite <-!app_assoc in Hh2. simpl in Hh2.
    rewrite listing_cons. cbn [fst]. fold d. rewrite length_app in Hh2. cbn [length] in Hh2.
    replace (2 + Z.of_nat (length fs) + 1) with (2 + Z.of_nat (length fs + 1)) by lia. exact Hh2.
Qed.

(** ** The empty image *)

Lemma zero_sectors_ret n : ∀ k i b,
  (k + n = 1000)%nat →
  for_each (seqZ (Z.of_nat k) (Z.of_nat n)) (λ i, wsect i zero_block) (mkMk (replicate k zero_block) i b) =
  Ret tt (mkMk (replicate 1000 zero_block) i b).
Proof.
  induction n as [|n IH]; intros k i b Hk.
  - replace k with 1000%nat by lia. done.
  - rewrite seqZ_cons by lia. cbn [for_each]. unfold bind, wsect, modify. simpl mk_img.
    rewrite length_replicate, Nat2Z.id, (proj2 (Nat.ltb_ge k k)), Nat.sub_diag by lia.
    replace (Z.succ (Z.of_nat k)) with (Z.of_nat (S k)) by lia. replace (Z.pred (Z.of_nat (S n))) with (Z.of_nat n) by lia.
    change (replicate 0 zero_block ++ [zero_block]) with [zero_block]. rewrite <-replicate_cons_app. exact (IH (S k) i b ltac:(lia)).
Qed.

Lemma zero_byte j : byte_at zero_block j = 0.
Proof. unfold byte_at, zero_block. destruct (replicate _ _ !! j) as [x|] eqn:E; [|done]. by apply lookup_replicate in E as [-> _]. Qed.

Definition mk_empty : mkst := mkMk (set_blk (replicate 1000 zero_block) 1 sb_block) 1 59.

Lemma sb_block_ok : block_ok sb_block.
Proof. apply block_ok_splice; [apply block_ok_zero|vm_compute; lia|]. repeat constructor; vm_compute; done. Qed.
Lemma sb_block_decodes : decode_sb sb_block = sb.
Proof. vm_compute. reflexivity. Qed.

Lemma mk_empty_at b : 0 ≤ b < 1000 → blk_at (mk_img mk_empty) b = if decide (b = 1) then sb_block else zero_block.
Proof.
  intros Hb. change (mk_img mk_empty) with (set_blk (replicate 1000 zero_block) 1 sb_block). rewrite blk_at_set by (rewrite ?length_replicate; lia). case_decide; [done|].
  unfold blk_at. rewrite lookup_replicate_2 by lia. done.
Qed.
Lemma mk_empty_holds : holds mk_empty [].
Proof.
  assert (mk_ok mk_empty) as Hs.
  { split.
    - cbn [mk_img mk_empty]. by rewrite length_set_blk, length_replicate.
    - intros b Hb. rewrite mk_empty_at by done. case_decide; [apply sb_block_ok|apply block_ok_zero].
    - cbn [mk_freeblock mk_empty]. lia.
    - intros b Hb. cbn [mk_freeblock mk_empty] in Hb. rewrite mk_empty_at by lia. by rewrite decide_False by lia.
    - intros b Hb. apply mk_empty_at. lia. }
  split; [done|done|cbn; lia|done|intros i j b _ Hi; by apply Nat.nlt_0_r in Hi| |done|cbn [mk_freeblock mk_empty]; lia].
  intros n Hn. cbn [length] in Hn. destruct (mk_IBLOCK n ltac:(lia)) as [_ Hr]. unfold dinode.
  rewrite sealed_at, decide_False, mk_empty_at, decide_False by (done || lia).
  unfold decode_dinode. cbn [i_type]. unfold get16. rewrite !zero_byte. done.
Qed.

Lemma start_ret {A} (k : M mkst A) :
  (for_each (seqZ 0 FSSIZE) (λ i, wsect i zero_block) ;; wsect 1 sb_block ;; k) mk_start = k mk_empty.
Proof.
  rewrite (bind_ret_eq _ _ _ _ _ (zero_sectors_ret 1000 0 1 59 eq_refl)).
  unfold wsect, modify, bind. rewrite (proj2 (Nat.ltb_lt _ _)) by (cbn [mk_img]; rewrite length_replicate; lia). done.
Qed.

(** ** The whole run *)

Definition root_bytes (args : list (list Z * list (list Z))) : list Z :=
  dirent 1 (chars ".") ++ dirent 1 (chars "..") ++ listing 2 args.

(** The files fit: there are inodes and blocks for them and for the directory. *)
Record fits (args : list (list Z * list (list Z))) : Prop := {
  fi_files : Forall storable args;
  fi_inodes : (length args ≤ 198)%nat;
  fi_blocks : need (Z.of_nat (16 * (2 + length args))) + blocks (stored args) ≤ 941
}.

Lemma root_ret args :
  fits args →
  ∃ s', (∀ k : Z → M mkst unit, (rootino ← ialloc T_DIR;
    assert (rootino =? ROOTINO) ;;
    iappend rootino (dirent rootino (chars ".")) ;;
    iappend rootino (dirent rootino (chars "..")) ;;
    for_each (prod_map id Some <$> args) (add_file rootino) ;;
    k rootino) mk_empty = k 1 s') ∧
    holds s' ((T_DIR, root_bytes args) :: stored args).
Proof.
  intros [F1 F2 F3]. destruct (ialloc_ret mk_empty [] T_DIR mk_empty_holds) as (s1 & H1 & Hh1); [cbn; lia|done|].
  assert (0 ≤ blocks (stored args)) as Hb0.
  { clear. induction args as [|f args IH]; [done|]. pose proof (need_pos (Z.of_nat (length (concat f.2))) ltac:(lia)). cbn. fold (stored args). lia. }
  pose proof (need_mono 32 (Z.of_nat (16 * (2 + length args))) ltac:(lia)). change (need 32) with 1 in *.
  destruct (iappend_ret s1 _ 0 T_DIR [] (dirent 1 (chars ".")) Hh1) as (s2 & H2 & Hh2); [done|by apply mk_dirent_bytes; repeat constructor|done|done|].
  change (1 + Z.of_nat 0) with 1 in H2. cbn [app insert list_insert] in Hh2.
  destruct (iappend_ret s2 _ 0 T_DIR (dirent 1 (chars ".")) (dirent 1 (chars "..")) Hh2) as (s3 & H3 & Hh3); [done|by apply mk_dirent_bytes; repeat constructor|done|done|].
  change (1 + Z.of_nat 0) with 1 in H3. cbn [insert list_insert] in Hh3.
  destruct (add_files_ret args s3 (dirent 1 (chars ".") ++ dirent 1 (chars "..")) [] Hh3 F1) as (s4 & H4 & Hh4); [done|..].
  { rewrite length_app, !mk_dirent_length by (vm_compute; lia). lia. }
  { rewrite length_app, !mk_dirent_length by (vm_compute; lia). replace (16 + 16 + 16 * length args)%nat with (16 * (2 + length args))%nat by lia. cbn [blocks]. lia. }
  exists s4. split; [|rewrite <-app_assoc in Hh4; exact Hh4]. intros k. rewrite (bind_ret_eq _ _ _ _ _ H1).
  change (1 + Z.of_nat (length [])) with 1. change (1 =? ROOTINO) with true. cbn [assert]. unfold bind at 1, ret at 1.
  by rewrite (bind_ret_eq _ _ _ _ _ H2), (bind_ret_eq _ _ _ _ _ H3), (bind_ret_eq _ _ _ _ _ H4).
Qed.

Definition padded (c : list Z) : list Z := c ++ replicate (512 - length c mod 512) 0.

Lemma length_padded c : Z.of_nat (length (padded c)) = (Z.of_nat (length c) / 512 + 1) * 512.
Proof.
  unfold padded. rewrite length_app, length_replicate. pose proof (Nat.mod_upper_bound (length c) 512 ltac:(lia)).
  rewrite Nat2Z.inj_add, Nat2Z.inj_sub, Nat2Z.inj_mod by lia. change (Z.of_nat 512) with 512. Z.div_mod_to_equations; lia.
Qed.

(** [fix_root] rounds the size of the directory up; its last block has room left. *)
Lemma fix_root_ret s r fs :
  holds s ((T_DIR, r) :: fs) → Z.of_nat (length r) mod 512 ≠ 0 → (length r ≤ 4096)%nat →
  ∃ s', fix_root 1 s = Ret tt s' ∧ holds s' ((T_DIR, padded r) :: fs).
Proof.
  intros Hh Hmod Hmax. pose proof (ho_ok _ _ Hh) as Hs. pose proof (ho_node _ _ Hh 0 T_DIR r eq_refl) as Hnd. change (1 + Z.of_nat 0) with 1 in Hnd.
  pose proof Hnd as [N1 N2 N3 N4 N5 N6 N7]. unfold fix_root. rewrite (bind_ret_eq _ _ _ _ _ (rinode_ret s 1 Hs ltac:(lia))).
  pose proof (length_padded r) as Hp. change BSIZE with 512. rewrite N3, <-Hp, u32_small by (Z.div_mod_to_equations; lia).
  set (x := ino s 1 <| i_size := Z.of_nat (length (padded r)) |>).
  destruct (winode_ret s 1 x Hs ltac:(lia)) as (s' & Hw & Hs' & Hfb & Hfi & (X1 & X2 & X3 & X4) & Hoth & Hblk).
  { destruct (ino_typed s 1 Hs ltac:(lia)). split; try done. unfold x, is_uint. simpl. Z.div_mod_to_equations; lia. }
  exists s'. split; [exact Hw|]. change (i_addrs x) with (i_addrs (ino s 1)) in X4. pose proof (mo_free _ Hs).
  destruct (same_file sb (sealed s) (sealed s') (i_addrs (ino s 1)) N5) as (F1 & F2 & F3).
  { intros b Hb. pose proof (owns_range _ _ _ _ _ Hs Hnd Hb). split; [apply Hblk; lia|]. rewrite sealed_alloc by (done || lia). apply Z.ltb_lt. lia. }
  assert (∀ b, owns (sealed s') (i_addrs (ino s 1)) b ↔ owns (sealed s) (i_addrs (ino s 1)) b) as Hown by (intros b; unfold owns; by setoid_rewrite F2).
  apply (holds_change s s' ((T_DIR, r) :: fs) 0 T_DIR r T_DIR (padded r)); try done.
  - change (1 + Z.of_nat 0) with 1. split; [intros m Hm Hne; by apply Hoth|intros b Hb _; apply Hblk; lia|lia| | |lia].
    + intros b Hb. left. rewrite X4 in Hb. by apply Hown.
    + intros b Hb. rewrite X4. by apply Hown.
  - change (1 + Z.of_nat 0) with 1. split; rewrite ?X1, ?X2, ?X3, ?X4; try done.
    + rewrite Hp. unfold MAXFILE, NDIRECT, NINDIRECT, BSIZE. Z.div_mod_to_equations; lia.
    + intros j Hj. rewrite Hp in Hj. unfold fblk. rewrite F2.
      destruct (decide (j < Z.of_nat (length r))) as [|Hge]; [apply N6; lia|].
      replace (j / BSIZE) with ((Z.of_nat (length r) - 1) / BSIZE) by (unfold BSIZE; Z.div_mod_to_equations; lia).
      apply N6. Z.div_mod_to_equations; lia.
    + intros j Hj. rewrite F3, N7 by done. unfold padded. destruct (decide (j < Z.of_nat (length r))).
      * by rewrite lookup_app_l by lia.
      * rewrite lookup_app_r, (lookup_ge_None_2 r) by lia. destruct (replicate _ _ !! _) as [y|] eqn:E; [|done].
        by apply lookup_replicate in E as [-> _].
  - assert (need (Z.of_nat (length (padded r))) = need (Z.of_nat (length r))); [|lia]. rewrite Hp. unfold need.
    f_equal; [Z.div_mod_to_equations; lia|].
    destruct (Z.ltb_spec 6144 ((Z.of_nat (length r) / 512 + 1) * 512)), (Z.ltb_spec 6144 (Z.of_nat (length r))); try done; Z.div_mod_to_equations; lia.
Qed.

Lemma mkfs_ret args :
  fits args → Z.of_nat (length (root_bytes args)) mod 512 ≠ 0 →
  ∃ s s', mkfs (prod_map id Some <$> args) = Ret tt s' ∧ mk_img s' = sealed s ∧
    holds s ((T_DIR, padded (root_bytes args)) :: stored args).
Proof.
  intros Hf Hmod. destruct (root_ret args Hf) as (s1 & H1 & Hh1).
  assert (length (root_bytes args) = 16 * (2 + length args))%nat as Hl.
  { unfold root_bytes, listing. rewrite !length_app, !mk_dirent_length by (vm_compute; lia). destruct Hf as [F1 _ _]. clear -F1. revert F1.
    generalize 2. induction args as [|f args IH]; intros n F1; [done|]. apply Forall_cons in F1 as [F F1].
    fold (listing n (f :: args)). rewrite listing_cons, length_app, mk_dirent_length by apply mk_name_ok, F.
    unfold listing. specialize (IH (n + 1) F1). cbn [length]. lia. }
  destruct (fix_root_ret s1 _ _ Hh1 Hmod) as (s2 & H2 & Hh2); [pose proof (fi_inodes _ Hf); lia|].
  pose proof (mo_free _ (ho_ok _ _ Hh2)). pose proof (mo_len _ (ho_ok _ _ Hh2)).
  exists s2, (s2 <| mk_img := sealed s2 |>). split_and!; [|done|done].
  unfold mkfs, main. fold sb_block. rewrite start_ret, H1, (bind_ret_eq _ _ _ _ _ H2).
  unfold gets, balloc. unfold bind at 1. rewrite (proj2 (Z.ltb_lt _ _)) by (unfold BSIZE; lia). cbn [assert]. unfold bind, ret, wsect, modify.
  rewrite bmap_is_58, (proj2 (Nat.ltb_lt _ _)) by lia. done.
Qed.

(** ** What the kernel finds *)

Section image.
Context (s : mkst) (r : list Z) (fs : list (Z * list Z)) (Hh : holds s ((T_DIR, r) :: fs)).
Context (Htypes : ∀ i t c, ((T_DIR, r) :: fs) !! i = Some (t, c) → t ≠ 0).

Lemma node_bytes n t c : node s n t c → fbytes (sealed s) (i_addrs (ino s n)) 0 (i_size (ino s n)) = c.
Proof.
  intros [N1 N2 N3 N4 N5 N6 N7]. rewrite N3. apply list_eq. intros i. unfold fbytes. rewrite list_lookup_fmap.
  destruct (decide (i < length c)%nat) as [Hi|Hi].
  - rewrite lookup_seqZ_lt by lia. cbn [fmap option_fmap option_map]. rewrite N7 by lia. rewrite Z.add_0_l, Nat2Z.id.
    destruct (lookup_lt_is_Some_2 c i Hi) as [x ->]. done.
  - rewrite lookup_seqZ_ge by lia. by rewrite lookup_ge_None_2 by lia.
Qed.

(** The bitmap marks the blocks in front of the data and the blocks that a file
    owns, and a block belongs to one file. *)
Lemma image_bitmap b :
  0 ≤ b < 1000 →
  allocated sb (sealed s) b = true ↔
  b < 59 ∨ ∃ n, 0 ≤ n < 200 ∧ i_type (ino s n) ≠ 0 ∧ owns (sealed s) (i_addrs (ino s n)) b.
Proof.
  intros Hb. pose proof (mo_free _ (ho_ok _ _ Hh)) as Hf. pose proof (ho_few _ _ Hh) as Hfew.
  rewrite sealed_alloc by (apply Hh || done). rewrite Z.ltb_lt. split.
  - intros Hlt. destruct (decide (b < 59)) as [|Hge]; [by left|right].
    destruct (ho_used _ _ Hh b ltac:(lia)) as (i & Hi & Ho). exists (1 + Z.of_nat i). split; [lia|]. split; [|done].
    destruct (lookup_lt_is_Some_2 _ _ Hi) as [[t c] Hi']. rewrite (nd_type _ _ _ _ (ho_node _ _ Hh _ _ _ Hi')). by apply (Htypes i t c).
  - intros [|(n & Hn & Ht & Ho)]; [lia|].
    destruct (decide (1 ≤ n < 1 + Z.of_nat (length ((T_DIR, r) :: fs)))) as [Hr|Hr].
    + destruct (lookup_lt_is_Some_2 ((T_DIR, r) :: fs) (Z.to_nat (n - 1)) ltac:(lia)) as [[t c] Hi'].
      pose proof (ho_node _ _ Hh _ _ _ Hi') as Hnd. replace (1 + Z.of_nat (Z.to_nat (n - 1))) with n in Hnd by lia.
      apply (owns_range _ _ _ _ _ (ho_ok _ _ Hh) Hnd Ho).
    + rewrite (ho_free _ _ Hh) in Ht by lia. done.
Qed.
Lemma image_apart n m b :
  0 ≤ n < 200 → 0 ≤ m < 200 → n ≠ m → i_type (ino s n) ≠ 0 → i_type (ino s m) ≠ 0 →
  owns (sealed s) (i_addrs (ino s n)) b → ~ owns (sealed s) (i_addrs (ino s m)) b.
Proof.
  intros Hn Hm Hne Tn Tm. assert (∀ x, 0 ≤ x < 200 → i_type (ino s x) ≠ 0 → 1 ≤ x < 1 + Z.of_nat (length ((T_DIR, r) :: fs))) as Hx.
  { intros x Hx Tx. destruct (decide (1 ≤ x < 1 + Z.of_nat (length ((T_DIR, r) :: fs)))) as [|Hr]; [done|].
    rewrite (ho_free _ _ Hh) in Tx by lia. done. }
  specialize (Hx n Hn Tn) as Rn. specialize (Hx m Hm Tm) as Rm.
  pose proof (ho_apart _ _ Hh (Z.to_nat (n - 1)) (Z.to_nat (m - 1)) b ltac:(lia) ltac:(lia) ltac:(lia)) as Ha.
  by replace (1 + Z.of_nat (Z.to_nat (n - 1))) with n in Ha by lia; replace (1 + Z.of_nat (Z.to_nat (m - 1))) with m in Ha by lia.
Qed.

Lemma image_log b : 2 ≤ b < 32 → blk_at (sealed s) b = zero_block.
Proof. intros Hb. rewrite sealed_at, decide_False by (apply Hh || lia). rewrite (mo_head _ (ho_ok _ _ Hh)) by lia. by rewrite decide_False by lia. Qed.
Lemma image_sb : decode_sb (blk_at (sealed s) 1) = sb.
Proof.
  rewrite sealed_at, decide_False by (apply Hh || lia). rewrite (mo_head _ (ho_ok _ _ Hh)) by lia. rewrite decide_True by done.
  apply sb_block_decodes.
Qed.
End image.

(** ** The entries of the directory *)

Definition free_entry : list Z := replicate 16 0.
Definition file_entries (n : Z) (args : list (list Z * list (list Z))) : list (list Z) :=
  imap (λ i f, dirent (n + Z.of_nat i) (mk_name f.1)) args.
Definition root_entries (args : list (list Z * list (list Z))) : list (list Z) :=
  dirent 1 (chars ".") :: dirent 1 (chars "..") :: file_entries 2 args ++ replicate (32 - (2 + length args) mod 32) free_entry.

Lemma file_entries_cons n f args : file_entries n (f :: args) = dirent n (mk_name f.1) :: file_entries (n + 1) args.
Proof. unfold file_entries. cbn [imap]. rewrite Z.add_0_r. f_equal. apply imap_ext. intros i g _. unfold compose. f_equal. lia. Qed.
Lemma file_entries_length n args : Forall storable args → Forall (λ e, length e = 16%nat) (file_entries n args).
Proof.
  revert n. induction args as [|f args IH]; intros n H; [done|]. apply Forall_cons in H as [Hf H]. rewrite file_entries_cons.
  constructor; [apply mk_dirent_length, mk_name_ok, Hf|by apply IH].
Qed.
Lemma length_concat_16 (es : list (list Z)) : Forall (λ e, length e = 16%nat) es → length (concat es) = (16 * length es)%nat.
Proof. induction 1 as [|e es He _ IH]; [done|]. cbn [concat length]. rewrite length_app, He, IH. lia. Qed.
Lemma concat_replicate_zero k : concat (replicate k free_entry) = replicate (16 * k) 0.
Proof. induction k as [|k IH]; [done|]. cbn [replicate concat]. rewrite IH. unfold free_entry. rewrite <-replicate_add. f_equal. lia. Qed.

Lemma root_entries_length args : Forall storable args → Forall (λ e, length e = 16%nat) (root_entries args).
Proof.
  intros H. constructor; [done|]. constructor; [done|]. apply Forall_app. split; [by apply file_entries_length|]. by apply Forall_replicate.
Qed.
Lemma root_entries_bytes args : Forall storable args → concat (root_entries args) = padded (root_bytes args).
Proof.
  intros H. unfold root_entries, padded, root_bytes. cbn [concat]. rewrite concat_app, concat_replicate_zero, <-!app_assoc. do 2 f_equal.
  unfold listing. fold (file_entries 2 args). f_equal. f_equal.
  assert (length (dirent 1 (chars ".") ++ dirent 1 (chars "..") ++ concat (file_entries 2 args)) = 16 * (2 + length args))%nat as ->.
  { rewrite !length_app, length_concat_16 by by apply file_entries_length. unfold file_entries. rewrite length_imap.
    rewrite !mk_dirent_length by (vm_compute; lia). lia. }
  change 512%nat with (16 * 32)%nat. rewrite Nat.Div0.mul_mod_distr_l. lia.
Qed.

(** The entries that the kernel reads, from the bytes of the file. *)
Lemma entries_concat D a es :
  fbytes D a 0 (16 * Z.of_nat (length es)) = concat es → Forall (λ e, length e = 16%nat) es →
  entries D a (16 * Z.of_nat (length es)) = es.
Proof.
  intros Hb Hl. unfold entries, DIRENT_SIZE. rewrite Z.mul_comm, Z.div_mul by done. apply list_eq. intros i. rewrite list_lookup_fmap.
  destruct (decide (i < length es)%nat) as [Hi|Hi]; [|by rewrite lookup_seqZ_ge, lookup_ge_None_2 by lia].
  rewrite lookup_seqZ_lt by lia. cbn [fmap option_fmap option_map]. destruct (lookup_lt_is_Some_2 es i Hi) as [e He]. rewrite He. f_equal.
  assert (e = take 16 (drop (16 * i) (concat es))) as ->.
  { clear Hb Hi. revert i He. induction Hl as [|e' es He' _ IH]; intros [|i] He; cbn [concat]; try done.
    - injection He as ->. rewrite Nat.mul_0_r, drop_0, take_app_le, take_ge by lia. done.
    - rewrite drop_app_ge by lia. replace (16 * S i - length e')%nat with (16 * i)%nat by lia. by apply IH. }
  rewrite <-Hb. unfold fbytes. apply list_eq. intros j. rewrite list_lookup_fmap. destruct (decide (j < 16)%nat).
  - rewrite lookup_take_lt, lookup_drop, list_lookup_fmap, !lookup_seqZ_lt by lia. cbn. do 2 f_equal. lia.
  - rewrite lookup_seqZ_ge, lookup_take_ge by lia. done.
Qed.

Lemma cut_cut n s t : Str.cut n (Str.cut n s ++ 0 :: t) = Str.cut n s.
Proof.
  revert s. induction n as [|n IH]; intros [|c s]; cbn [Str.cut app]; try done. destruct (truthy c) eqn:E; cbn [app Str.cut]; [|done].
  by rewrite E, IH.
Qed.
Lemma de_inum_dirent n name : 0 ≤ n < 65536 → de_inum (dirent n name) = n.
Proof. intros H. unfold de_inum, get16, byte_at. cbn. unfold u8. Z.div_mod_to_equations; lia. Qed.
Lemma same_name_dirent name n arg :
  same_name (mk_name name) (dirent n (mk_name arg)) = bool_decide (mk_name name = mk_name arg).
Proof.
  assert (Str.cut DIRSIZ (de_name (dirent n (mk_name arg))) = mk_name arg) as E.
  { unfold de_name, slice. change (drop 2 (dirent n (mk_name arg))) with (mk_name arg ++ replicate (DIRSIZ - length (mk_name arg)) 0).
    pose proof (Str.length_cut DIRSIZ (skip_underscore arg)). unfold mk_name in *.
    rewrite take_ge by (rewrite length_app, length_replicate; lia). apply Str.cut_pad. lia. }
  assert (Str.cut DIRSIZ (mk_name name ++ [0]) = mk_name name) as E2 by apply (cut_cut DIRSIZ (skip_underscore name) []).
  unfold same_name. apply bool_decide_ext. by rewrite E, E2.
Qed.

(** The first file of the command line with a name is the one that is found. *)
Lemma find_file_entries args rest : ∀ n off i f,
  args !! i = Some f → (∀ j g, (j < i)%nat → args !! j = Some g → mk_name g.1 ≠ mk_name f.1) →
  0 < n → n + Z.of_nat (length args) < 65536 →
  find_entry (mk_name f.1) off (file_entries n args ++ rest) = Some (off + 16 * Z.of_nat i, n + Z.of_nat i).
Proof.
  induction args as [|g args IH]; intros n off i f Hi Hne Hn Hmax; [done|]. rewrite file_entries_cons. cbn [app find_entry length] in *.
  rewrite de_inum_dirent by lia. rewrite (proj2 (Z.eqb_neq n 0)) by lia. cbn [negb andb]. rewrite same_name_dirent.
  destruct i as [|i].
  - injection Hi as ->. rewrite bool_decide_true by done. do 2 f_equal; lia.
  - rewrite bool_decide_false; [|intros E; by apply (Hne 0%nat g); [lia|done|]].
    rewrite (IH (n + 1) _ i f); [unfold DIRENT_SIZE; do 2 f_equal; lia|done| |lia|lia]. intros j h Hj Hh. apply (Hne (S j)); [lia|done].
Qed.

Lemma root_entries_inum args e :
  (length args ≤ 198)%nat → e ∈ root_entries args → de_inum e ≠ 0 → 1 ≤ de_inum e < 2 + Z.of_nat (length args).
Proof.
  intros Hl He Hne. unfold root_entries in He. rewrite !elem_of_cons, elem_of_app in He. destruct He as [->|[->|[He|He]]].
  - rewrite de_inum_dirent by lia. lia.
  - rewrite de_inum_dirent by lia. lia.
  - unfold file_entries in He. apply elem_of_lookup_imap in He as (i & f & -> & Hi). apply lookup_lt_Some in Hi.
    rewrite de_inum_dirent by lia. lia.
  - apply elem_of_replicate in He as [-> _]. done.
Qed.

Section directory.
Context (s : mkst) (args : list (list Z * list (list Z))) (Hf : fits args)
  (Hh : holds s ((T_DIR, padded (root_bytes args)) :: stored args)).

Lemma image_entries : dir_entries sb (sealed s) 1 = root_entries args.
Proof.
  pose proof (ho_node _ _ Hh 0 T_DIR _ eq_refl) as Hn. change (1 + Z.of_nat 0) with 1 in Hn. pose proof (node_bytes s _ _ _ Hn) as Hb.
  pose proof (nd_size _ _ _ _ Hn) as Hs. pose proof (root_entries_length args (fi_files _ Hf)) as Hl.
  assert (i_size (ino s 1) = 16 * Z.of_nat (length (root_entries args))) as E.
  { rewrite Hs, <-root_entries_bytes, length_concat_16 by (done || apply Hf). lia. }
  unfold dir_entries. rewrite E. apply entries_concat; [|done]. rewrite <-E, Hb. symmetry. apply root_entries_bytes, Hf.
Qed.

Lemma image_file i arg reads :
  args !! i = Some (arg, reads) → node s (2 + Z.of_nat i) T_FILE (concat reads).
Proof.
  intros Hi. replace (2 + Z.of_nat i) with (1 + Z.of_nat (S i)) by lia. apply (ho_node _ _ Hh).
  change (stored args !! i = Some (T_FILE, concat reads)). unfold stored. by rewrite list_lookup_fmap, Hi.
Qed.

Lemma image_inode n : 1 ≤ n < 2 + Z.of_nat (length args) → i_type (ino s n) = (if n =? 1 then T_DIR else T_FILE) ∧ i_nlink (ino s n) = 1.
Proof.
  intros Hn. destruct (Z.eqb_spec n 1) as [->|Hne].
  - pose proof (ho_node _ _ Hh 0 T_DIR _ eq_refl) as Hd. change (1 + Z.of_nat 0) with 1 in Hd. split; apply Hd.
  - destruct (lookup_lt_is_Some_2 args (Z.to_nat (n - 2)) ltac:(lia)) as [[arg reads] Hi]. apply image_file in Hi.
    replace (2 + Z.of_nat (Z.to_nat (n - 2))) with n in Hi by lia. split; apply Hi.
Qed.

Lemma image_tree : tree_ok sb (sealed s).
Proof.
  pose proof (fi_inodes _ Hf). intros n Hn Hd. change (sb_ninodes sb) with 200 in Hn. unfold is_dir in Hd. apply Z.eqb_eq in Hd.
  assert (n = 1) as ->.
  { destruct (decide (1 ≤ n < 2 + Z.of_nat (length args))) as [Hr|Hr].
    - destruct (image_inode n Hr) as [Ht _]. rewrite Hd in Ht. destruct (Z.eqb_spec n 1); [done|discriminate].
    - rewrite (ho_free _ _ Hh) in Hd; [discriminate|]. cbn [length]. unfold stored. rewrite length_fmap. lia. }
  pose proof (ho_node _ _ Hh 0 T_DIR _ eq_refl) as Hnd. change (1 + Z.of_nat 0) with 1 in Hnd. pose proof Hnd as [N1 N2 N3 N4 N5 N6 N7]. split.
  - done.
  - by rewrite N3.
  - intros j Hj. rewrite N3 in Hj. by apply N6.
  - rewrite N3, length_padded. unfold DIRENT_SIZE. Z.div_mod_to_equations; lia.
  - intros e He Hne. rewrite image_entries in He. pose proof (root_entries_inum args e ltac:(lia) He Hne) as Hr.
    destruct (image_inode _ Hr) as [-> ->]. change (sb_ninodes sb) with 200. split_and!; [lia|lia|by destruct (de_inum e =? 1)|done].
Qed.

Lemma image_lookup i arg reads :
  args !! i = Some (arg, reads) → mk_name arg ≠ chars "." → mk_name arg ≠ chars ".." →
  (∀ j g, (j < i)%nat → args !! j = Some g → mk_name g.1 ≠ mk_name arg) →
  resolve sb (sealed s) ROOTINO [mk_name arg] = Some (2 + Z.of_nat i).
Proof.
  intros Hi H1 H2 Hne. pose proof (fi_inodes _ Hf). cbn [resolve]. unfold is_dir. change ROOTINO with 1.
  destruct (image_inode 1 ltac:(lia)) as [-> _]. cbn [Z.eqb Pos.eqb]. change (T_DIR =? T_DIR) with true. unfold dir_lookup. rewrite image_entries.
  unfold root_entries. cbn [find_entry]. rewrite !de_inum_dirent by lia. cbn [negb andb Z.eqb].
  change (dirent 1 (chars ".")) with (dirent 1 (mk_name (chars "."))). change (dirent 1 (chars "..")) with (dirent 1 (mk_name (chars ".."))).
  rewrite !same_name_dirent, !bool_decide_false by done.
  rewrite (find_file_entries args _ 2 _ i (arg, reads)); [done|done|done|lia|lia].
Qed.
End directory.
