(* ===== verification/MainMkfs.v ===== *)
(** * MainMkfs: the properties of the disk image that [mkfs] builds *)
From S2P Require Import Prelude.
From S2P Require Import Mem.
From S2P Require Import Str.
From S2P Require Import State.
From S2P Require Import Boot.
From S2P Require Import ProcSpec.
From S2P Require Import Blk.
From S2P Require Import Bio.
From S2P Require Import Log.
From S2P Require Import Fs.
From S2P Require Import MainFs.
From S2P Require Import FsLogic.
From S2P Require Import FsDisk.
From S2P Require Import FsMap.
From S2P Require Import FsInode.
From S2P Require Import FsFile.
From S2P Require Import FsOp.
From S2P Require Import FsPath.
From S2P Require Import FsDir.
From S2P Require Import LogSpec.
From S2P Require Import Txn.
From S2P Require Import BioSpec.
From S2P Require Import Cache.
From S2P Require Import Mkfs.
From S2P Require Import MkfsSpec.
From S2P Require Import File.
From S2P Require Import MainFile.
Import Mkfs.

(** Two files for the witnesses: one that is read in two pieces, and a program. *)
Definition mk_sample : list (list Z * list (list Z)) :=
  [(chars "README", [chars "hello "; chars "world"]); (chars "_cat", [replicate 512 7; replicate 88 7])].

Lemma mk_sample_fits : fits mk_sample.
Proof.
  split; [|vm_compute; lia|vm_compute; discriminate].
  assert (∀ f, (bool_decide (ch "/" ∉ f.1) && forallb (λ c, (0 <=? c) && (c <? 256)) (f.1 ++ concat f.2) &&
    (Z.of_nat (length (concat f.2)) <=? MAXFILE * BSIZE))%Z = true → storable f) as Hok.
  { intros f Hf. rewrite !andb_true_iff, bool_decide_eq_true, forallb_app, andb_true_iff, Z.leb_le in Hf. destruct Hf as [[H1 [H2 H3]] H4].
    assert (∀ l, forallb (λ c, (0 <=? c) && (c <? 256)) l = true → Forall Str.is_byte l) as Hb.
    { intros l Hl. apply Forall_forall. intros x Hx. rewrite forallb_forall in Hl. specialize (Hl x). rewrite <-list_elem_of_In in Hl.
      specialize (Hl Hx). unfold Str.is_byte. lia. }
    split_and!; [done|by apply Hb|apply Forall_concat, Hb, H3|done]. }
  do 2 (constructor; [apply Hok; vm_compute; reflexivity|]). constructor.
Qed.

Lemma mk_types args i t c : ((T_DIR, padded (root_bytes args)) :: stored args) !! i = Some (t, c) → t ≠ 0.
Proof.
  destruct i as [|i]; [by intros [= <- _]|]. change ((_ :: stored args) !! S i) with (stored args !! i). unfold stored.
  rewrite list_lookup_fmap. destruct (args !! i); [|done]. by intros [= <- _].
Qed.

(** C11: [mkfs] ends without an error for files that fit, if the entries of the root
    directory do not fill its last block, and the image is a file system that the
    kernel can use: the super block describes the layout, the log is empty, the bitmap
    marks exactly the blocks in front of the data and the blocks of the files in use,
    no block belongs to two files, and the directories are in order. *)
Theorem mkfs_image args :
  fits args → Z.of_nat (length (root_bytes args)) mod 512 ≠ 0 →
  ∃ s, mkfs (prod_map id Some <$> args) = Ret tt s ∧
    let D := mk_img s in
    decode_sb (blk_at D 1) = sb ∧ geometry sb 1000 2 30 ∧ disk_ok sb 1000 D ∧
    (∀ b, 2 ≤ b < 32 → blk_at D b = zero_block) ∧
    (∀ b, 0 ≤ b < 1000 → allocated sb D b = true ↔
       b < data_start sb ∨ ∃ n, 0 ≤ n < 200 ∧ i_type (dinode sb D n) ≠ 0 ∧ owns D (i_addrs (dinode sb D n)) b) ∧
    (∀ n m b, 0 ≤ n < 200 → 0 ≤ m < 200 → n ≠ m → i_type (dinode sb D n) ≠ 0 → i_type (dinode sb D m) ≠ 0 →
       owns D (i_addrs (dinode sb D n)) b → ~ owns D (i_addrs (dinode sb D m)) b) ∧
    tree_ok sb D.
Proof.
  intros Hf Hm. destruct (mkfs_ret args Hf Hm) as (s & s' & Hr & Hi & Hh). exists s'. split; [done|]. cbv zeta. rewrite Hi, data_is_59.
  split_and!; [by eapply image_sb|apply mk_geometry|apply sealed_ok, Hh|by eapply image_log
    |eapply image_bitmap; [done|apply mk_types]|by eapply image_apart|by eapply image_tree].
Qed.
Lemma mkfs_image_witness :
  ∃ s, mkfs (prod_map id Some <$> mk_sample) = Ret tt s ∧
    decode_sb (blk_at (mk_img s) 1) = sb ∧ disk_ok sb 1000 (mk_img s) ∧ tree_ok sb (mk_img s).
Proof.
  destruct (mkfs_image mk_sample mk_sample_fits) as (s & Hr & H1 & _ & H2 & _ & _ & _ & H3); [vm_compute; discriminate|].
  exists s. split_and!; [exact Hr|exact H1|exact H2|exact H3].
Defined.

(** ** The files *)

(** The path of a file in the root directory. *)
Lemma fields_plain name : SLASH ∉ name → fields name = [name].
Proof.
  induction name as [|c name IH]; intros Hn; [done|]. apply not_elem_of_cons in Hn as [Hc Hn]. simpl. rewrite IH by done.
  destruct (Z.eqb_spec c SLASH); [congruence|done].
Qed.
Lemma elems_root name : SLASH ∉ name → name ≠ [] → (length name ≤ DIRSIZ)%nat → elems (SLASH :: name) = [name].
Proof.
  intros Hs Hn Hl. rewrite elems_slash. unfold elems, names. rewrite fields_plain by done.
  rewrite filter_cons_True, filter_nil by done. simpl. by rewrite take_ge.
Qed.
Lemma mk_name_plain arg : SLASH ∉ arg → SLASH ∉ mk_name arg.
Proof.
  intros Ha. assert (∀ n l, SLASH ∉ l → SLASH ∉ Str.cut n l) as Hcut.
  { induction n as [|n IH]; intros [|c l] Hl; try done; simpl; try apply not_elem_of_nil. apply not_elem_of_cons in Hl as [Hc Hl].
    destruct (truthy c); [|apply not_elem_of_nil]. apply not_elem_of_cons. split; [done|by apply IH]. }
  apply Hcut. destruct arg as [|c arg]; [done|]. unfold skip_underscore. destruct (c =? ch "_"); [|done].
  by apply not_elem_of_cons in Ha as [_ Ha].
Qed.

(** C9: every file of the command line is on the image, if the files fit and the
    entries of the root directory do not fill its last block.  Its inode is a file
    with one link and with exactly the bytes that were read; and in a kernel that has
    the image as its disk, with no operation under way and room in the inode cache,
    [namex] finds that inode under the name (without a leading underscore and cut to 14
    characters) in the root directory, provided the name is neither empty nor [.] nor
    [..] and no earlier file of the command line has it. *)
Theorem mkfs_files `{!DevSw} args i arg reads :
  fits args → Z.of_nat (length (root_bytes args)) mod 512 ≠ 0 →
  args !! i = Some (arg, reads) → mk_name arg ≠ [] → mk_name arg ≠ chars "." → mk_name arg ≠ chars ".." →
  (∀ j g, (j < i)%nat → args !! j = Some g → mk_name g.1 ≠ mk_name arg) →
  ∃ s n, mkfs (prod_map id Some <$> args) = Ret tt s ∧
    let D := mk_img s in
    let x := dinode sb D n in
    i_type x = T_FILE ∧ i_nlink x = 1 ∧ file_ok sb D (i_addrs x) ∧ fbytes D (i_addrs x) 0 (i_size x) = concat reads ∧
    ∀ ci c me pid k, fs_idle ci c me pid 2 30 k → k_disk k = D → k_sb k = sb → ic_ok sb D (k_icache k) →
      (in_use (k_icache k) + 2 ≤ NINODE)%nat →
      ∃ ip nm k', namex (SLASH :: mk_name arg) false k = Ret (Some ip, nm) k' ∧ i_inum <$> k_icache k' !! ip = Some n.
Proof.
  intros Hf Hm Hi H0 H1 H2 Hne. destruct (mkfs_ret args Hf Hm) as (s & s' & Hr & Hs & Hh). exists s', (2 + Z.of_nat i).
  pose proof (image_file s args Hh i arg reads Hi) as Hn. split; [exact Hr|]. clear Hr. cbv zeta. rewrite Hs.
  split_and!; [apply Hn|apply Hn|apply Hn|by eapply node_bytes|].
  intros ci c me pid k Hk Hd Hsb Hic Hroom.
  destruct (proj1 (Forall_lookup _ _) (fi_files _ Hf) i _ Hi) as (Hsl & Hby & _). destruct (mk_name_ok arg Hby) as [Hlen Hnb].
  destruct (image_inode s args Hh 1) as [Ht1 Hl1]; [lia|]. change (1 =? 1) with true in Ht1. cbv iota in Ht1.
  destruct (namex_ret ci c me pid k 2 30 0 sb ltac:(rewrite Hd; rewrite sealed_len by apply Hh; apply mk_geometry) k (view0 k)
    (SLASH :: mk_name arg) false ROOTINO) as (r & ics & k' & Hx & Hk' & Hic' & Hw).
  - by apply idle_view.
  - assert (v_disk (view0 k) = sealed s) as Ev by exact Hd.
    split; rewrite ?Ev; [rewrite <-Hsb; by apply (view0_ok ci c me pid 2 30)|reflexivity|reflexivity|change (load (view0 k)) with 0%nat; vm_compute; lia
      |by eapply image_tree|done|done].
  - constructor; [done|exact Hnb].
  - unfold starts_at. rewrite bool_decide_true by done. change (v_disk (view0 k)) with (k_disk k). rewrite Hd. change ROOTINO with 1.
    split; [done|]. split; [split; [lia|reflexivity]|]. by rewrite Hl1.
  - change (v_disk (view0 k)) with (k_disk k). rewrite Hd. change ROOTINO with 1. by rewrite Ht1.
  - simpl in Hw. rewrite Hd, elems_root in Hw; [|by apply mk_name_plain|done|done].
    unfold found in Hw. rewrite (image_lookup s args Hf Hh i arg reads Hi H1 H2 Hne) in Hw.
    destruct Hw as (ip & x & Hip & Hx1 & Hx2 & _). destruct r as [r nm]. simpl in Hip. subst r. exists ip, nm, k'. split; [done|].
    rewrite (fv_ic _ _ _ _ _ _ _ _ _ _ Hk'). simpl. by rewrite Hx1, <-Hx2.
Qed.

(** A kernel with the image as its disk, the root directory in the inode cache and
    open at [off]. *)
Definition mounted (img : list (list Z)) (off : Z) : kernel :=
  small_with (zero_inode <| i_dev := 1 |> <| i_inum := ROOTINO |> <| i_ref := 1 |> :: replicate 49 zero_inode) img
    <| k_sb := sb |> <| k_log := mkLog 2 30 0 0 1 0 (replicate (Z.to_nat LOGSIZE) 0) |>
    <| k_ftable := small_file off :: replicate 99 zero_file |>.

Lemma mounted_idle img off :
  disk_ok sb 1000 img → blk_at img 2 = zero_block → fs_idle 0 sample_cpu 0 1 2 30 (mounted img off).
Proof.
  intros Hd Hz. assert (length img = 1000%nat) as Hl by apply Hd.
  set (ics := zero_inode <| i_dev := 1 |> <| i_inum := ROOTINO |> <| i_ref := 1 |> :: replicate 49 zero_inode).
  split.
  - split; [|by destruct (small_inv ics img); split|exact (fs_clean img)|apply (spin_free_ok LLog ics img); vm_compute; reflexivity|done|done|].
    + destruct (small_env ics img) as [E1 E2 E3 E4 E5 E6 E7]. split; [by eapply on_cpu_ext|exact E2|exact E3|exact E4|exact E5|exact E6|exact E7].
    + exists zero_block. split; [|done]. change (k_disk (mounted img off)) with img. change (Z.to_nat 2) with (Z.to_nat 2).
      rewrite lookup_blk_at by (rewrite Hl; lia). by rewrite Hz.
  - by destruct (small_inode_locks ics img); split.
  - unfold layout_ok. change (k_disk (mounted img off)) with img. rewrite Hl. split_and!; discriminate.
  - change (k_disk (mounted img off)) with img. rewrite Hl. apply mk_geometry.
  - change (k_disk (mounted img off)) with img. rewrite Hl. exact Hd.
Qed.
Lemma mounted_cache img off : ic_ok sb img (k_icache (mounted img off)).
Proof.
  set (r := zero_inode <| i_dev := 1 |> <| i_inum := ROOTINO |> <| i_ref := 1 |>).
  change (k_icache (mounted img off)) with (r :: replicate 49 zero_inode).
  assert (∀ ip x, (r :: replicate 49 zero_inode) !! ip = Some x → ip = 0%nat ∧ x = r ∨ x = zero_inode) as Hx.
  { intros [|ip] x; [intros [= <-]; by left|]. change ((r :: replicate 49 zero_inode) !! S ip) with (replicate 49 zero_inode !! ip).
    intros [-> _]%lookup_replicate. by right. }
  split; [reflexivity|..].
  - by intros ip x [[_ ->]| ->]%Hx.
  - intros ip x [[_ ->]| ->]%Hx Hr; [|done]. split; [reflexivity|split; [discriminate|reflexivity]|]. by intros [].
  - by intros ip jp x y [[-> ->]| ->]%Hx [[-> ->]| ->]%Hx.
Qed.

Lemma mkfs_files_witness :
  ∃ s n ip nm k', mkfs (prod_map id Some <$> mk_sample) = Ret tt s ∧
    fbytes (mk_img s) (i_addrs (dinode sb (mk_img s) n)) 0 (i_size (dinode sb (mk_img s) n)) = concat [replicate 512 7; replicate 88 7] ∧
    namex (chars "/cat") false (mounted (mk_img s) 0) = Ret (Some ip, nm) k' ∧ i_inum <$> k_icache k' !! ip = Some n.
Proof.
  destruct (mkfs_files mk_sample 1 (chars "_cat") [replicate 512 7; replicate 88 7] mk_sample_fits) as (s & n & Hr & _ & _ & _ & Hb & Hx);
    [vm_compute; discriminate|reflexivity|discriminate|discriminate|discriminate| |].
  { intros [|j] g Hj Hg; [|lia]. injection Hg as <-. discriminate. }
  destruct (mkfs_ret mk_sample mk_sample_fits ltac:(vm_compute; discriminate)) as (s1 & s2 & Hr2 & Hs & Hh).
  rewrite Hr in Hr2. injection Hr2 as <-.
  destruct (Hx 0%nat sample_cpu 0%nat 1 (mounted (mk_img s) 0)) as (ip & nm & k' & Hn & Hi).
  - apply mounted_idle; rewrite Hs; [apply sealed_ok, Hh|eapply image_log; [exact Hh|lia]].
  - reflexivity.
  - reflexivity.
  - apply mounted_cache.
  - apply Nat.leb_le. reflexivity.
  - exists s, n, ip, nm, k'. split_and!; [exact Hr|exact Hb|exact Hn|exact Hi].
Defined.

(** When the entries of the root directory fill their blocks exactly, as they do
    with 30 files, its size is rounded up to a block that it does not have: reading
    the directory up to its end, as [ls] does, makes [bmap] allocate a block outside
    of a transaction, and the kernel panics. *)
Example mkfs_full_directory :
  match mkfs (replicate 30 (chars "f", Some [])) with
  | Ret _ s =>
      i_size (dinode sb (mk_img s) ROOTINO) = 1024 ∧
      fblk (mk_img s) (i_addrs (dinode sb (mk_img s) ROOTINO)) 512 = 0 ∧
      fileread 0 16 (mounted (mk_img s) 512) = Panic "log_write outside of trans"
  | _ => False
  end.
Proof. vm_compute. auto. Qed.
