(* ===== verification/Hw.v ===== *)
(** * Hw: the machine around the kernel ([x86.h]: [inb], [outb], [insl], [outsl])

    The drivers talk to devices through I/O ports and memory-mapped registers.
    The devices are not part of the program: they are the class [Hw], any state
    with what it answers to an access.  A driver runs on [mach], the kernel's
    globals with the static variables of the drivers and the state of the
    devices. *)
From S2P Require Import Prelude.
From S2P Require Import Mem.
From S2P Require Import State.
From S2P Require Import Spin.
From S2P Require Import Blk.

(** An access reads and may change the state of the devices. *)
Class Hw := {
  hw : Type;
  port_in : Z → hw → Z * hw;        (* in: one byte *)
  port_out : Z → Z → hw → hw;       (* out: one byte *)
  port_inl : Z → hw → Z * hw;       (* insl: one word *)
  port_outl : Z → Z → hw → hw;      (* outsl: one word *)
  mmio_in : Z → hw → Z * hw;        (* a load from a device register *)
  mmio_out : Z → Z → hw → hw        (* a store to a device register *)
}.

Record mach `{!Hw} := mkMach {
  m_k : kernel;
  m_hw : hw;
  m_shift : Z;                      (* kbd.c: shift *)
  m_uart : Z;                       (* uart.c: uart *)
  m_lapic : Z;                      (* lapic.c: lapic *)
  m_ioapic : Z;                     (* ioapic.c: ioapic *)
  m_ioapicid : Z;                   (* mp.c: ioapicid *)
  m_havedisk1 : Z;                  (* ide.c: havedisk1 *)
  m_idequeue : option nat;          (* ide.c: idequeue, a buffer *)
  m_qnext : list (option nat)       (* b->qnext, by buffer *)
}.
Arguments mkMach {_}.
#[export] Instance eta_mach `{!Hw} : Eta mach :=
  λ r, mkMach (m_k r) (m_hw r) (m_shift r) (m_uart r) (m_lapic r) (m_ioapic r) (m_ioapicid r)
         (m_havedisk1 r) (m_idequeue r) (m_qnext r).

Module Hw.
Section hw.
Context `{HW : !Hw}.

Local Notation D := (M mach).

(** A function of the kernel. *)
Definition kern {A} (m : K A) : D A := λ s,
  match m (m_k s) with
  | Ret a k => Ret a (s <| m_k := k |>)
  | Switch k => Switch (s <| m_k := k |>)
  | Spin k => Spin (s <| m_k := k |>)
  | Panic e => Panic e
  | Fault e => Fault e
  end.

(** An access that answers. *)
Definition ask (f : hw → Z * hw) : D Z := λ s, let '(v, h) := f (m_hw s) in Ret v (s <| m_hw := h |>).
Definition tell (f : hw → hw) : D unit := modify (λ s, s <| m_hw := f (m_hw s) |>).

Definition inb (port : Z) : D Z := ask (port_in port).
Definition outb (port data : Z) : D unit := tell (port_out port (u8 data)).

(** The bytes of a word in memory. *)
Definition word_bytes (w : Z) : list Z := [u8 w; u8 (w / 256); u8 (w / 65536); u8 (w / 16777216)].

(** [insl(port, addr, cnt)]: the bytes stored from [addr] on. *)
Fixpoint insl (port : Z) (cnt : nat) : D (list Z) :=
  match cnt with
  | O => ret []
  | S cnt' => w ← ask (port_inl port); bs ← insl port cnt'; ret (word_bytes w ++ bs)
  end.
(** [outsl(port, addr, cnt)], with the bytes at [addr]. *)
Definition outsl (port : Z) (bs : list Z) (cnt : nat) : D unit :=
  for_each (get_words bs 0 cnt) (λ w, tell (port_outl port w)).

(** A load from and a store to a device register. *)
Definition mmio_load (a : Z) : D Z := ask (mmio_in a).
Definition mmio_store (a v : Z) : D unit := tell (mmio_out a (u32 v)).

(** ** Rules *)

Lemma kern_ret {A} (m : K A) s k0 a k : m_k s = k0 → m k0 = Ret a k → kern m s = Ret a (s <| m_k := k |>).
Proof. intros <- H. unfold kern. by rewrite H. Qed.
Lemma kern_switch {A} (m : K A) s k0 k : m_k s = k0 → m k0 = Switch k → kern m s = Switch (s <| m_k := k |>).
Proof. intros <- H. unfold kern. by rewrite H. Qed.

(** Running a block of kernel code is running its statements. *)
Lemma kern_bind {A B} (m : K A) (f : A → K B) s : kern (bind m f) s = bind (kern m) (λ a, kern (f a)) s.
Proof. unfold kern, bind. by destruct (m (m_k s)). Qed.

Lemma wp_kern {A} (m : K A) (Q : A → mach → Prop) s :
  wp m (λ a k, Q a (s <| m_k := k |>)) (m_k s) → wp (kern m) Q s.
Proof. unfold wp, kern. by destruct (m (m_k s)). Qed.
Lemma wp_ask f (Q : Z → mach → Prop) s :
  Q (f (m_hw s)).1 (s <| m_hw := (f (m_hw s)).2 |>) → wp (ask f) Q s.
Proof. unfold wp, ask. by destruct (f (m_hw s)). Qed.
End hw.
End Hw.
Export Hw.
Notation D := (M mach).

(** ** Programs that only use the devices *)

Section hwp.
Context `{HW : !Hw}.

(** [m] returns with a change of the devices alone. *)
Definition hwp {A} (m : D A) (s : mach) (Q : A → hw → Prop) : Prop := ∃ a h, m s = Ret a (s <| m_hw := h |>) ∧ Q a h.

Lemma hwp_ret {A} (a : A) s Q : Q a (m_hw s) → hwp (ret a) s Q.
Proof. intros H. exists a, (m_hw s). split; [by destruct s|done]. Qed.
Lemma hwp_bind {A B} (m : D A) (f : A → D B) s Q :
  hwp m s (λ a h, hwp (f a) (s <| m_hw := h |>) Q) → hwp (bind m f) s Q.
Proof. intros (a & h & H1 & b & h' & H2 & HQ). exists b, h'. split; [|done]. by rewrite (bind_ret_eq _ _ _ _ _ H1), H2. Qed.
Lemma hwp_mono {A} (m : D A) s (Q R : A → hw → Prop) : hwp m s Q → (∀ a h, Q a h → R a h) → hwp m s R.
Proof. intros (a & h & H & HQ) HR. exists a, h. auto. Qed.
Lemma hwp_tell f s Q : Q tt (f (m_hw s)) → hwp (tell f) s Q.
Proof. intros H. by exists tt, (f (m_hw s)). Qed.
Lemma hwp_ask f s Q : Q (f (m_hw s)).1 (f (m_hw s)).2 → hwp (ask f) s Q.
Proof. intros H. exists (f (m_hw s)).1, (f (m_hw s)).2. split; [|done]. unfold ask. by destruct (f (m_hw s)). Qed.
Lemma wp_hwp {A} (m : D A) (Q : A → mach → Prop) s : hwp m s (λ a h, Q a (s <| m_hw := h |>)) → wp m Q s.
Proof. intros (a & h & H & HQ). by eapply wp_of_eq. Qed.

(** The state with another memory and other devices. *)
Definition upd (m : mem) (h : hw) (s : mach) : mach := s <| m_k := m_k s <| k_mem := m |> |> <| m_hw := h |>.
Lemma upd_upd m1 h1 m2 h2 s : upd m2 h2 (upd m1 h1 s) = upd m2 h2 s.
Proof. done. Qed.
Lemma upd_same s : upd (k_mem (m_k s)) (m_hw s) s = s.
Proof. destruct s as [k]; by destruct k. Qed.
Lemma mem_upd m h s : k_mem (m_k (upd m h s)) = m.
Proof. done. Qed.
Lemma hw_upd m h s : m_hw (upd m h s) = h.
Proof. done. Qed.
(** Code that changes memory alone. *)
Lemma wp_mem (f : mem → mem) (Q : unit → mach → Prop) s :
  Q tt (upd (f (k_mem (m_k s))) (m_hw s) s) → wp (kern (modify (λ k, k <| k_mem := f (k_mem k) |>))) Q s.
Proof. done. Qed.
End hwp.
