(* ===== verification/Chips.v ===== *)
(** * Chips: interrupt controllers, serial port, clock and screen ([ioapic.c],
    [picirq.c], [uart.c], [lapic.c], [cgaputc] and [consputc] of [console.c])

    Each function is the sequence of its accesses to the device.  A loop that
    waits for a device has fuel [polls]; when the device does not answer within
    it, the outcome is [Spin]. *)
From S2P Require Import Prelude.
From S2P Require Import Mem.
From S2P Require Import Str.
From S2P Require Import State.
From S2P Require Import Spin.
From S2P Require Import Cons.
From S2P Require Import Kalloc.
From S2P Require Import Vm.
From S2P Require Import Blk.
From S2P Require Import Life.
From S2P Require Import ConsDev.
From S2P Require Import Trap.
From S2P Require Import Hw.

Module Chips.

(** ** picirq.c *)

Abbreviation IO_PIC1 := (0x20)%Z (only parsing).
Abbreviation IO_PIC2 := (0xA0)%Z (only parsing).

(** ** ioapic.c *)

Abbreviation IOAPIC := (0xFEC00000)%Z (only parsing).
Abbreviation REG_ID := (0x00)%Z (only parsing).
Abbreviation REG_VER := (0x01)%Z (only parsing).
Abbreviation REG_TABLE := (0x10)%Z (only parsing).
Abbreviation INT_DISABLED := (0x00010000)%Z (only parsing).

(** ** uart.c *)

Abbreviation COM1 := (0x3f8)%Z (only parsing).

(** ** lapic.c: the registers, as indices of words *)

Abbreviation ID := (0x0020 / 4)%Z (only parsing).
Abbreviation VER := (0x0030 / 4)%Z (only parsing).
Abbreviation TPR := (0x0080 / 4)%Z (only parsing).
Abbreviation EOI := (0x00B0 / 4)%Z (only parsing).
Abbreviation SVR := (0x00F0 / 4)%Z (only parsing).
Abbreviation ENABLE := (0x00000100)%Z (only parsing).
Abbreviation ESR := (0x0280 / 4)%Z (only parsing).
Abbreviation ICRLO := (0x0300 / 4)%Z (only parsing).
Abbreviation INIT := (0x00000500)%Z (only parsing).
Abbreviation STARTUP := (0x00000600)%Z (only parsing).
Abbreviation DELIVS := (0x00001000)%Z (only parsing).
Abbreviation ASSERT := (0x00004000)%Z (only parsing).
Abbreviation LEVEL := (0x00008000)%Z (only parsing).
Abbreviation BCAST := (0x00080000)%Z (only parsing).
Abbreviation ICRHI := (0x0310 / 4)%Z (only parsing).
Abbreviation TIMER := (0x0320 / 4)%Z (only parsing).
Abbreviation X1 := (0x0000000B)%Z (only parsing).
Abbreviation PERIODIC := (0x00020000)%Z (only parsing).
Abbreviation PCINT := (0x0340 / 4)%Z (only parsing).
Abbreviation LINT0 := (0x0350 / 4)%Z (only parsing).
Abbreviation LINT1 := (0x0360 / 4)%Z (only parsing).
Abbreviation ERROR := (0x0370 / 4)%Z (only parsing).
Abbreviation MASKED := (0x00010000)%Z (only parsing).
Abbreviation TICR := (0x0380 / 4)%Z (only parsing).
Abbreviation TDCR := (0x03E0 / 4)%Z (only parsing).
Abbreviation IRQ_ERROR := (19)%Z (only parsing).

Abbreviation CMOS_PORT := (0x70)%Z (only parsing).
Abbreviation CMOS_RETURN := (0x71)%Z (only parsing).
Abbreviation CMOS_STATA := (0x0a)%Z (only parsing).
Abbreviation CMOS_STATB := (0x0b)%Z (only parsing).
Abbreviation CMOS_UIP := (Z.shiftl 1 7)%Z (only parsing).
Abbreviation SECS := (0x00)%Z (only parsing).
Abbreviation MINS := (0x02)%Z (only parsing).
Abbreviation HOURS := (0x04)%Z (only parsing).
Abbreviation DAY := (0x07)%Z (only parsing).
Abbreviation MONTH := (0x08)%Z (only parsing).
Abbreviation YEAR := (0x09)%Z (only parsing).

(** ** console.c: the screen *)

Abbreviation CRTPORT := (0x3d4)%Z (only parsing).
Definition crt : Z := P2V 0xb8000.

(** date.h *)
Record rtcdate := mkDate { r_second : Z; r_minute : Z; r_hour : Z; r_day : Z; r_month : Z; r_year : Z }.
#[export] Instance eta_rtcdate : Eta rtcdate :=
  λ r, mkDate (r_second r) (r_minute r) (r_hour r) (r_day r) (r_month r) (r_year r).
#[export] Instance rtcdate_eq_dec : EqDecision rtcdate.
Proof. solve_decision. Defined.

(** The macro [CONV]: two decimal digits in the halves of a byte. *)
Definition conv (x : Z) : Z := u32 (Z.shiftr x 4 * 10 + Z.land x 0xf).
Definition conv_date (t : rtcdate) : rtcdate :=
  mkDate (conv (r_second t)) (conv (r_minute t)) (conv (r_hour t)) (conv (r_day t)) (conv (r_month t)) (conv (r_year t)).

Section chips.
Context `{HW : !Hw} (polls : nat).

Definition picinit : D unit :=
  outb (IO_PIC1 + 1) 0xFF ;;
  outb (IO_PIC2 + 1) 0xFF.

(** [struct ioapic] has [reg] at offset 0 and [data] at offset 16. *)
Definition ioapicread (reg : Z) : D Z :=
  p ← gets m_ioapic;
  mmio_store p reg ;;
  mmio_load (p + 16).
Definition ioapicwrite (reg data : Z) : D unit :=
  p ← gets m_ioapic;
  mmio_store p reg ;;
  mmio_store (p + 16) data.

Definition ioapicinit : D unit :=
  modify (λ s, s <| m_ioapic := IOAPIC |>) ;;
  v ← ioapicread REG_VER;
  let maxintr := Z.land (Z.shiftr v 16) 0xFF in
  v ← ioapicread REG_ID;
  let id := Z.shiftr v 24 in
  ioapicid ← gets m_ioapicid;
  when (negb (id =? ioapicid))
    (kern (cprintf ("ioapicinit: id isn't equal to ioapicid; not a MP" +:+ NL) [])) ;;
  for_each (seqZ 0 (maxintr + 1)) (λ i,
    ioapicwrite (REG_TABLE + 2 * i) (Z.lor INT_DISABLED (T_IRQ0 + i)) ;;
    ioapicwrite (REG_TABLE + 2 * i + 1) 0).

Definition ioapicenable (irq cpunum : Z) : D unit :=
  ioapicwrite (REG_TABLE + 2 * irq) (T_IRQ0 + irq) ;;
  ioapicwrite (REG_TABLE + 2 * irq + 1) (Z.shiftl cpunum 24).

(** [for(i = 0; i < n && !(inb(COM1+5) & 0x20); i++)] *)
Fixpoint uart_wait (n : nat) : D unit :=
  match n with
  | O => ret tt
  | S n' => st ← inb (COM1 + 5); if truthy (Z.land st 0x20) then ret tt else uart_wait n'
  end.
Definition uartputc (c : Z) : D unit :=
  u ← gets m_uart;
  if negb (truthy u) then ret tt
  else uart_wait 128 ;; outb (COM1 + 0) c.
Definition uartgetc : D Z :=
  u ← gets m_uart;
  if negb (truthy u) then ret (-1)
  else
    st ← inb (COM1 + 5);
    if negb (truthy (Z.land st 0x01)) then ret (-1)
    else inb (COM1 + 0).

Definition uartinit : D unit :=
  outb (COM1 + 2) 0 ;;
  outb (COM1 + 3) 0x80 ;;
  outb (COM1 + 0) (115200 / 9600) ;;
  outb (COM1 + 1) 0 ;;
  outb (COM1 + 3) 0x03 ;;
  outb (COM1 + 4) 0 ;;
  outb (COM1 + 1) 0x01 ;;
  st ← inb (COM1 + 5);
  if st =? 0xFF then ret tt
  else
    modify (λ s, s <| m_uart := 1 |>) ;;
    inb (COM1 + 2) ;;
    inb (COM1 + 0) ;;
    ioapicenable IRQ_COM1 0 ;;
    for_each (chars ("xv6..." +:+ NL)) uartputc.

Definition lapicr (index : Z) : D Z := p ← gets m_lapic; mmio_load (p + 4 * index).
Definition lapicw (index value : Z) : D unit :=
  p ← gets m_lapic;
  mmio_store (p + 4 * index) value ;;
  lapicr ID ;;
  ret tt.

(** [while(lapic[ICRLO] & DELIVS) ;] *)
Fixpoint icr_wait (fuel : nat) : D unit :=
  match fuel with
  | O => spin
  | S fuel' => v ← lapicr ICRLO; if truthy (Z.land v DELIVS) then icr_wait fuel' else ret tt
  end.

Definition lapicinit : D unit :=
  p ← gets m_lapic;
  if negb (truthy p) then ret tt
  else
    lapicw SVR (Z.lor ENABLE (T_IRQ0 + IRQ_SPURIOUS)) ;;
    lapicw TDCR X1 ;;
    lapicw TIMER (Z.lor PERIODIC (T_IRQ0 + IRQ_TIMER)) ;;
    lapicw TICR 10000000 ;;
    lapicw LINT0 MASKED ;;
    lapicw LINT1 MASKED ;;
    v ← lapicr VER;
    when (4 <=? Z.land (Z.shiftr v 16) 0xFF) (lapicw PCINT MASKED) ;;
    lapicw ERROR (T_IRQ0 + IRQ_ERROR) ;;
    lapicw ESR 0 ;;
    lapicw ESR 0 ;;
    lapicw EOI 0 ;;
    lapicw ICRHI 0 ;;
    lapicw ICRLO (Z.lor (Z.lor BCAST INIT) LEVEL) ;;
    icr_wait polls ;;
    lapicw TPR 0.

Definition lapicid : D Z :=
  p ← gets m_lapic;
  if negb (truthy p) then ret 0
  else v ← lapicr ID; ret (Z.shiftr v 24).
Definition lapiceoi : D unit :=
  p ← gets m_lapic;
  when (truthy p) (lapicw EOI 0).

(** [microdelay] has an empty body and is left out. *)
Definition lapicstartap (apicid addr : Z) : D unit :=
  outb CMOS_PORT 0xF ;;
  outb (CMOS_PORT + 1) 0x0A ;;
  let wrv := P2V (Z.lor (Z.shiftl 0x40 4) 0x67) in
  kern (store16 wrv 0) ;;
  kern (store16 (wrv + 2) (Z.shiftr addr 4)) ;;
  lapicw ICRHI (Z.shiftl apicid 24) ;;
  lapicw ICRLO (Z.lor (Z.lor INIT LEVEL) ASSERT) ;;
  lapicw ICRLO (Z.lor INIT LEVEL) ;;
  for_each [0; 1] (λ i,
    lapicw ICRHI (Z.shiftl apicid 24) ;;
    lapicw ICRLO (Z.lor STARTUP (Z.shiftr addr 12))).

Definition cmos_read (reg : Z) : D Z :=
  outb CMOS_PORT reg ;;
  inb CMOS_RETURN.
Definition fill_rtcdate : D rtcdate :=
  second ← cmos_read SECS;
  minute ← cmos_read MINS;
  hour ← cmos_read HOURS;
  day ← cmos_read DAY;
  month ← cmos_read MONTH;
  year ← cmos_read YEAR;
  ret (mkDate second minute hour day month year).

(** make sure CMOS doesn't modify time while we read it *)
Fixpoint cmos_loop (fuel : nat) : D rtcdate :=
  match fuel with
  | O => spin
  | S fuel' =>
      t1 ← fill_rtcdate;
      a ← cmos_read CMOS_STATA;
      if truthy (Z.land a CMOS_UIP) then cmos_loop fuel'
      else
        t2 ← fill_rtcdate;
        if bool_decide (t1 = t2) then ret t1 else cmos_loop fuel'
  end.
Definition cmostime : D rtcdate :=
  sb ← cmos_read CMOS_STATB;
  let bcd := Z.land sb (Z.shiftl 1 2) =? 0 in
  t1 ← cmos_loop polls;
  let r := if bcd then conv_date t1 else t1 in
  ret (r <| r_year := u32 (r_year r + 2000) |>).

(** Cursor position: col + 80*row. *)
Definition cursor : D Z :=
  outb CRTPORT 14 ;;
  hi ← inb (CRTPORT + 1);
  outb CRTPORT 15 ;;
  lo ← inb (CRTPORT + 1);
  ret (Z.lor (Z.shiftl hi 8) lo).

(** Scroll up. *)
Definition scroll (pos : Z) : D Z :=
  if 24 <=? pos / 80 then
    kern (kmemmove crt (crt + 2 * 80) (2 * 23 * 80)) ;;
    let pos := pos - 80 in
    kern (kmemset (crt + 2 * pos) 0 (2 * (24 * 80 - pos))) ;;
    ret pos
  else ret pos.
Definition set_cursor (pos : Z) : D unit :=
  outb CRTPORT 14 ;;
  outb (CRTPORT + 1) (Z.shiftr pos 8) ;;
  outb CRTPORT 15 ;;
  outb (CRTPORT + 1) pos.

Definition cgaputc (c : Z) : D unit :=
  pos ← cursor;
  pos ← (if c =? NEWLINE then ret (pos + (80 - pos mod 80))
         else if c =? BACKSPACE then ret (if 0 <? pos then pos - 1 else pos)
         else kern (store16 (crt + 2 * pos) (Z.lor (Z.land c 0xff) 0x0700)) ;; ret (pos + 1));
  if (pos <? 0) || (25 * 80 <? pos) then panic "pos under/overflow"
  else
    pos ← scroll pos;
    set_cursor pos ;;
    kern (store16 (crt + 2 * pos) (Z.lor 32 0x0700)).

(** [panicked] is set by [panic] alone, after which the model does not go on. *)
Definition consputc (c : Z) : D unit :=
  (if c =? BACKSPACE then uartputc 8 ;; uartputc 32 ;; uartputc 8
   else uartputc c) ;;
  cgaputc c.
End chips.

End Chips.
Import Chips.

(** ** The screen

    [Crt] is what [cgaputc] relies on of the display controller: an index register
    and the two halves of the cursor's position, which only its own ports reach. *)
Class Crt `{HW : !Hw} := {
  crt_index : hw → Z; crt_high : hw → Z; crt_low : hw → Z;
  crt_out p v h :
    crt_index (port_out p v h) = (if p =? 0x3d4 then v else crt_index h) ∧
    crt_high (port_out p v h) = (if (p =? 0x3d5) && (crt_index h =? 14) then v else crt_high h) ∧
    crt_low (port_out p v h) = (if (p =? 0x3d5) && (crt_index h =? 15) then v else crt_low h);
  crt_in p h :
    let '(r, h') := port_in p h in
    crt_index h' = crt_index h ∧ crt_high h' = crt_high h ∧ crt_low h' = crt_low h ∧
    (p = 0x3d5 → crt_index h = 14 → r = crt_high h) ∧ (p = 0x3d5 → crt_index h = 15 → r = crt_low h)
}.

(** A terminal of 24 lines of 80 cells, with the cell of a line and column. *)
Record term := mkTerm { t_row : Z; t_col : Z; t_at : Z → Z → Z }.

Definition put_cell (r c v : Z) (f : Z → Z → Z) : Z → Z → Z := λ r' c', if (r' =? r) && (c' =? c) then v else f r' c'.
Definition glyph (c : Z) : Z := c mod 256 + 0x0700.
(** The next line; on the last one the lines move up and an empty one follows. *)
Definition next_line (r : Z) (f : Z → Z → Z) : term :=
  if r =? 23 then mkTerm 23 0 (λ r' c', if r' <? 23 then f (r' + 1) c' else 0) else mkTerm (r + 1) 0 f.
Definition move (c : Z) (t : term) : term :=
  let '(mkTerm row col f) := t in
  if c =? NEWLINE then next_line row f
  else if c =? BACKSPACE then
    if 0 <? col then mkTerm row (col - 1) f else if 0 <? row then mkTerm (row - 1) 79 f else t
  else
    let f := put_cell row col (glyph c) f in
    if col =? 79 then next_line row f else mkTerm row (col + 1) f.
(** A character is shown, and the cell of the cursor is blank. *)
Definition term_putc (t : term) (c : Z) : term :=
  let '(mkTerm row col f) := move c t in mkTerm row col (put_cell row col (glyph 32) f).

Section screen.
Context `{HW : !Hw} `{CR : !Crt}.
Implicit Types (s : mach) (h : hw) (m : mem).

Definition cell m (i : Z) : Z := ld8 m (crt + 2 * i) + 256 * ld8 m (crt + 2 * i + 1).

Definition at_pos h (pos : Z) : Prop := crt_high h = pos / 256 ∧ crt_low h = pos mod 256.

(** Screen memory and cursor are those of the terminal. *)
Record shows (s : mach) (t : term) : Prop := {
  sh_mem : mem_ok (k_mem (m_k s));
  sh_row : 0 ≤ t_row t < 24;
  sh_col : 0 ≤ t_col t < 80;
  sh_pos : at_pos (m_hw s) (80 * t_row t + t_col t);
  sh_cell r c : 0 ≤ r < 24 → 0 ≤ c < 80 → cell (k_mem (m_k s)) (80 * r + c) = t_at t r c
}.
(** Nothing but the screen changes in memory. *)
Definition spares m m' : Prop := ∀ b, b < crt ∨ crt + 2 * 2000 ≤ b → ld8 m' b = ld8 m b.

Definition same_crt h h' : Prop := crt_index h' = crt_index h ∧ crt_high h' = crt_high h ∧ crt_low h' = crt_low h.

Lemma hwp_uart_wait n : ∀ s (Q : unit → hw → Prop),
  (∀ h, same_crt (m_hw s) h → Q tt h) → hwp (uart_wait n) s Q.
Proof.
  induction n as [|n IH]; intros s Q HQ; cbn [uart_wait]; [by apply hwp_ret, HQ|].
  apply hwp_bind, hwp_ask. pose proof (crt_in (COM1 + 5) (m_hw s)) as Hi. destruct (port_in (COM1 + 5) (m_hw s)) as [r h].
  destruct Hi as (H1 & H2 & H3 & _). simpl. destruct (truthy _); [apply hwp_ret; by apply HQ|]. apply IH. intros h' (E1 & E2 & E3).
  apply HQ. simpl in *. split_and!; congruence.
Qed.
Lemma hwp_uartputc c s (Q : unit → hw → Prop) : (∀ h, same_crt (m_hw s) h → Q tt h) → hwp (uartputc c) s Q.
Proof.
  intros HQ. unfold uartputc. apply hwp_bind. exists (m_uart s), (m_hw s). split; [by destruct s|].
  destruct (negb (truthy (m_uart s))); [by apply hwp_ret, HQ|]. apply hwp_bind, hwp_uart_wait. intros h (E1 & E2 & E3).
  apply hwp_tell. destruct (crt_out (COM1 + 0) (u8 c) h) as (O1 & O2 & O3). apply HQ. simpl in *. split_and!; congruence.
Qed.

Lemma lor_halves a b : 0 ≤ b < 256 → Z.lor (Z.shiftl a 8) b = 256 * a + b.
Proof.
  intros Hb. rewrite Z.shiftl_mul_pow2 by lia. change (2 ^ 8) with 256. rewrite (Z.mul_comm a 256).
  apply Z.bits_inj'. intros n Hn. rewrite Z.lor_spec. change 256 with (2 ^ 8). rewrite Z.mul_comm, Z.mul_pow2_bits by lia.
  destruct (Z.ltb_spec n 8) as [H|H].
  - rewrite (Z.testbit_neg_r a) by lia. simpl. rewrite <-(Z.mod_pow2_bits_low (a * 2 ^ 8 + b) 8 n) by lia.
    rewrite Z.add_comm, Z_mod_plus_full, Z.mod_small by (change (2 ^ 8) with 256; lia). done.
  - replace (Z.testbit b n) with false.
    + rewrite orb_false_r. replace n with (n - 8 + 8) at 2 by lia. rewrite <-Z.div_pow2_bits by lia.
      rewrite Z.div_add_l by lia. rewrite (Z.div_small b) by (change (2 ^ 8) with 256; lia). by rewrite Z.add_0_r.
    + symmetry. rewrite <-(Z.mod_small b (2 ^ 8)) by (change (2 ^ 8) with 256; lia). by apply Z.mod_pow2_bits_high.
Qed.
Lemma lor_glyph c : Z.lor (Z.land c 0xff) 0x0700 = glyph c.
Proof.
  rewrite Z.lor_comm. change 0x0700 with (Z.shiftl 7 8) at 1. change 0xff with (Z.ones 8). rewrite Z.land_ones by lia.
  change (2 ^ 8) with 256. rewrite lor_halves by (apply Z.mod_pos_bound; lia). unfold glyph. lia.
Qed.

Lemma hwp_outb_crt p v s (Q : unit → hw → Prop) :
  (∀ h, crt_index h = (if p =? 0x3d4 then u8 v else crt_index (m_hw s)) →
    crt_high h = (if (p =? 0x3d5) && (crt_index (m_hw s) =? 14) then u8 v else crt_high (m_hw s)) →
    crt_low h = (if (p =? 0x3d5) && (crt_index (m_hw s) =? 15) then u8 v else crt_low (m_hw s)) → Q tt h) → hwp (outb p v) s Q.
Proof. intros HQ. apply hwp_tell. destruct (crt_out p (u8 v) (m_hw s)) as (O1 & O2 & O3). by apply HQ. Qed.

Lemma hwp_cursor pos s (Q : Z → hw → Prop) :
  at_pos (m_hw s) pos → (∀ h, at_pos h pos → Q pos h) → hwp cursor s Q.
Proof.
  intros [Hh Hl] HQ. unfold cursor. change (CRTPORT + 1) with 0x3d5. apply hwp_bind, hwp_outb_crt. simpl. intros h1 I1 H1 L1.
  apply hwp_bind, hwp_ask. simpl. pose proof (crt_in 0x3d5 h1) as X1. destruct (port_in 0x3d5 h1) as [r1 h2]. destruct X1 as (A1 & A2 & A3 & A4 & _).
  apply hwp_bind, hwp_outb_crt. simpl. intros h3 I3 H3 L3.
  apply hwp_bind, hwp_ask. simpl. pose proof (crt_in 0x3d5 h3) as X3. destruct (port_in 0x3d5 h3) as [r3 h4]. destruct X3 as (B1 & B2 & B3 & _ & B5).
  apply hwp_ret. simpl. rewrite A4, B5 by done. rewrite L3, A3, L1, Hl, H1, Hh. rewrite lor_halves by (apply Z.mod_pos_bound; lia).
  rewrite <-Z.div_mod by lia. apply HQ. split; congruence.
Qed.
Lemma hwp_set_cursor pos s (Q : unit → hw → Prop) :
  0 ≤ pos < 65536 → (∀ h, at_pos h pos → Q tt h) → hwp (set_cursor pos) s Q.
Proof.
  intros Hp HQ. unfold set_cursor. change (CRTPORT + 1) with 0x3d5.
  apply hwp_bind, hwp_outb_crt. simpl. intros h1 I1 _ _. apply hwp_bind, hwp_outb_crt. simpl. intros h2 I2 H2 _.
  apply hwp_bind, hwp_outb_crt. simpl. intros h3 I3 H3 _. apply hwp_outb_crt. simpl. intros h4 _ H4 L4.
  rewrite I1 in H2. rewrite I3 in H4, L4. apply HQ. split; [rewrite H4, H3, H2|rewrite L4]; cbn; unfold u8; [|done].
  rewrite Z.shiftr_div_pow2 by lia. change (2 ^ 8) with 256. apply Z.mod_small. Z.div_mod_to_equations; lia.
Qed.

(** ** Cells *)

Lemma cell_store m i v j :
  0 ≤ v < 65536 → cell (st8 (st8 m (crt + 2 * i) v) (crt + 2 * i + 1) (v / 256)) j = if decide (i = j) then v else cell m j.
Proof.
  intros Hv. unfold cell. rewrite !ld8_st8. repeat case_decide; try lia; try done. unfold u8. Z.div_mod_to_equations; lia.
Qed.
Lemma cell_up m j : mem_ok m → cell (memmove m crt (crt + 2 * 80) (2 * 23 * 80)) j = if decide (0 ≤ j < 1840) then cell m (j + 80) else cell m j.
Proof.
  intros Hm. unfold cell. rewrite !ld8_memmove by (done || lia). repeat case_decide; try lia; try done.
  replace (crt + 2 * (j + 80)) with (crt + 2 * 80 + (crt + 2 * j - crt)) by lia. f_equal. f_equal. f_equal. lia.
Qed.
Lemma cell_clear m p j : 0 ≤ p ≤ 1920 → cell (memset m (crt + 2 * p) 0 (2 * (24 * 80 - p))) j = if decide (p ≤ j < 1920) then 0 else cell m j.
Proof. intros Hp. unfold cell. rewrite !ld8_memset by lia. repeat case_decide; try lia; done. Qed.

(** The lines moved up. *)
Lemma scrolled m :
  mem_ok m →
  let m' := memset (memmove m crt (crt + 2 * 80) (2 * 23 * 80)) (crt + 2 * (1920 - 80)) 0 (2 * (24 * 80 - (1920 - 80))) in
  mem_ok m' ∧ spares m m' ∧ ∀ i, 0 ≤ i < 1920 → cell m' i = if decide (i < 1840) then cell m (i + 80) else 0.
Proof.
  intros Hm m'. unfold m'. split_and!.
  - intros b. rewrite ld8_memset, ld8_memmove by (exact Hm || lia). repeat case_decide; [apply u8_range|apply Hm..].
  - intros b Hb. rewrite ld8_memset, ld8_memmove by (exact Hm || lia). by rewrite !decide_False by lia.
  - intros i Hi. rewrite cell_clear by lia. rewrite cell_up by exact Hm. repeat case_decide; done || lia.
Qed.

Lemma wp_scroll pos s (Q : Z → mach → Prop) :
  0 ≤ pos ≤ 1920 → mem_ok (k_mem (m_k s)) →
  (∀ m, mem_ok m → spares (k_mem (m_k s)) m →
    (∀ i, 0 ≤ i < 1920 → cell m i = if decide (pos < 1920) then cell (k_mem (m_k s)) i
       else if decide (i < 1840) then cell (k_mem (m_k s)) (i + 80) else 0) →
    Q (if decide (pos < 1920) then pos else 1840) (upd m (m_hw s) s)) → wp (scroll pos) Q s.
Proof.
  intros Hp Hm. unfold scroll. destruct (decide (pos < 1920)) as [Hlt|Hge]; intros HQ.
  - rewrite (proj2 (Z.leb_gt _ _)) by (Z.div_mod_to_equations; lia). apply wp_ret. rewrite <-(upd_same s). apply HQ; [done|by intros b|done].
  - assert (pos = 1920) as -> by lia. change (24 <=? 1920 / 80) with true. cbv iota.
    destruct (scrolled (k_mem (m_k s)) Hm) as (H1 & H2 & H3).
    apply wp_bind, (wp_mem (λ m, memmove m crt (crt + 2 * 80) (2 * 23 * 80))), wp_bind,
      (wp_mem (λ m, memset m (crt + 2 * (1920 - 80)) 0 (2 * (24 * 80 - (1920 - 80))))).
    rewrite mem_upd, hw_upd, upd_upd. apply wp_ret. exact (HQ _ H1 H2 H3).
Qed.

(** The last part of [cgaputc]. *)
Lemma wp_show pos s (Q : unit → mach → Prop) :
  0 ≤ pos ≤ 1920 → mem_ok (k_mem (m_k s)) →
  (∀ m h, let pos' := if decide (pos < 1920) then pos else 1840 in
    mem_ok m → spares (k_mem (m_k s)) m → at_pos h pos' →
    (∀ i, 0 ≤ i < 1920 → cell m i = if decide (i = pos') then glyph 32
       else if decide (pos < 1920) then cell (k_mem (m_k s)) i
       else if decide (i < 1840) then cell (k_mem (m_k s)) (i + 80) else 0) → Q tt (upd m h s)) →
  wp (if (pos <? 0) || (25 * 80 <? pos) then panic "pos under/overflow"
      else pos ← scroll pos; set_cursor pos ;; kern (store16 (crt + 2 * pos) (Z.lor 32 0x0700))) Q s.
Proof.
  intros Hp Hm HQ. rewrite (proj2 (Z.ltb_ge _ _)), (proj2 (Z.ltb_ge _ _)) by lia. cbn [orb].
  apply wp_bind, wp_scroll; [done|done|]. intros m Hm1 Hsp Hc. set (pos' := if decide (pos < 1920) then pos else 1840) in *.
  assert (0 ≤ pos' < 1920) as Hp' by (unfold pos'; case_decide; lia).
  apply wp_bind, wp_hwp, hwp_set_cursor; [lia|]. intros h Hh. apply wp_kern, wp_modify. simpl k_mem.
  apply (HQ (st8 (st8 m (crt + 2 * pos') (Z.lor 32 0x0700)) (crt + 2 * pos' + 1) (Z.lor 32 0x0700 / 256)) h).
  - auto with xv6.
  - intros b Hb. rewrite !ld8_st8. rewrite !decide_False by lia. by apply Hsp.
  - done.
  - intros i Hi. change (Z.lor 32 0x0700) with (glyph 32). rewrite cell_store by by vm_compute.
    rewrite (decide_ext (pos' = i) (i = pos')) by done. destruct (decide (i = pos')); [done|]. by apply Hc.
Qed.

(** Positions on the screen. *)
Lemma pos_eqb r c row col : 0 ≤ c < 80 → 0 ≤ col < 80 → (r =? row) && (c =? col) = bool_decide (80 * r + c = 80 * row + col).
Proof. intros Hc Hcol. destruct (Z.eqb_spec r row), (Z.eqb_spec c col); case_bool_decide; simpl; done || lia. Qed.

(** Showing the terminal [u] whose cursor may have left the last line. *)
Definition wrapped (pos : Z) (f : Z → Z → Z) : term :=
  if decide (pos < 1920) then mkTerm (pos / 80) (pos mod 80) f else mkTerm 23 0 (λ r c, if r <? 23 then f (r + 1) c else 0).

Lemma wp_show_term pos f s (Q : unit → mach → Prop) :
  0 ≤ pos ≤ 1920 → mem_ok (k_mem (m_k s)) →
  (∀ r c, 0 ≤ r < 24 → 0 ≤ c < 80 → cell (k_mem (m_k s)) (80 * r + c) = f r c) →
  (∀ m h, let '(mkTerm row col g) := wrapped pos f in
     spares (k_mem (m_k s)) m → shows (upd m h s) (mkTerm row col (put_cell row col (glyph 32) g)) → Q tt (upd m h s)) →
  wp (if (pos <? 0) || (25 * 80 <? pos) then panic "pos under/overflow"
      else pos ← scroll pos; set_cursor pos ;; kern (store16 (crt + 2 * pos) (Z.lor 32 0x0700))) Q s.
Proof.
  intros Hp Hm Hf HQ. apply wp_show; [done|done|]. intros m h pos' Hm' Hsp Hh Hc. specialize (HQ m h). unfold wrapped in HQ.
  destruct (decide (pos < 1920)) as [Hlt|Hge]; cbn in HQ; apply HQ; [done| |done|].
  - unfold pos' in *. clear pos'. split; simpl; [done|Z.div_mod_to_equations; lia..| |].
    + rewrite <-Z.div_mod by lia. done.
    + intros r c Hr Hcc. rewrite Hc by lia. unfold put_cell. rewrite pos_eqb by (Z.div_mod_to_equations; lia). rewrite <-Z.div_mod by lia.
      rewrite bool_decide_decide. case_decide; [done|by apply Hf].
  - unfold pos' in *. clear pos'. split; simpl; [done|lia|lia|done|].
    intros r c Hr Hcc. rewrite Hc by lia. unfold put_cell. rewrite pos_eqb by lia. change (80 * 23 + 0) with 1840. rewrite bool_decide_decide.
    case_decide; [done|]. destruct (Z.ltb_spec r 23).
    + rewrite decide_True by lia. rewrite <-Hf by lia. f_equal. lia.
    + by rewrite decide_False by lia.
Qed.

Lemma wrapped_move row col f pos c :
  0 ≤ row < 24 → 0 ≤ col < 80 → pos = 80 * row + col →
  move c (mkTerm row col f) =
    if c =? NEWLINE then wrapped (pos + (80 - pos mod 80)) f
    else if c =? BACKSPACE then wrapped (if 0 <? pos then pos - 1 else pos) f
    else wrapped (pos + 1) (put_cell row col (glyph c) f).
Proof.
  intros Hr Hc ->. assert ((80 * row + col) mod 80 = col) as -> by (Z.div_mod_to_equations; lia). unfold move, next_line, wrapped.
  destruct (c =? NEWLINE); [|destruct (c =? BACKSPACE)].
  - destruct (Z.eqb_spec row 23); [by rewrite decide_False by lia|]. rewrite decide_True by lia. f_equal; Z.div_mod_to_equations; lia.
  - destruct (Z.ltb_spec 0 (80 * row + col)); rewrite decide_True by lia;
      repeat (match goal with |- context [?a <? ?b] => destruct (Z.ltb_spec a b); [|] end); try lia; f_equal; Z.div_mod_to_equations; lia.
  - destruct (Z.eqb_spec col 79).
    + destruct (Z.eqb_spec row 23); [by rewrite decide_False by lia|]. rewrite decide_True by lia. f_equal; Z.div_mod_to_equations; lia.
    + rewrite decide_True by lia. f_equal; Z.div_mod_to_equations; lia.
Qed.

Lemma wp_cgaputc c t s (Q : unit → mach → Prop) :
  shows s t →
  (∀ m h, spares (k_mem (m_k s)) m → shows (upd m h s) (term_putc t c) → Q tt (upd m h s)) → wp (cgaputc c) Q s.
Proof.
  destruct t as [row col f]. intros [Hm Hr Hc Hp Hf] HQ. simpl in *. unfold term_putc in HQ.
  rewrite (wrapped_move row col f (80 * row + col) c) in HQ by done. set (pos := 80 * row + col) in *.
  unfold cgaputc. apply wp_bind, wp_hwp, (hwp_cursor pos); [done|]. intros h0 Hh0.
  assert (0 ≤ pos mod 80 < 80) as Hmod by (apply Z.mod_pos_bound; lia).
  destruct (c =? NEWLINE); [|destruct (c =? BACKSPACE)].
  - apply wp_bind, wp_ret, wp_show_term with (f := f); [unfold pos in *; Z.div_mod_to_equations; lia|done|done|].
    intros m h. destruct (wrapped _ f) as [row' col' g]. apply HQ.
  - apply wp_bind, wp_ret, wp_show_term with (f := f); [destruct (Z.ltb_spec 0 pos); lia|done|done|].
    intros m h. destruct (wrapped _ f) as [row' col' g]. apply HQ.
  - rewrite lor_glyph. assert (0 ≤ glyph c < 65536) as Hg by (unfold glyph; pose proof (Z.mod_pos_bound c 256); lia).
    apply wp_bind, wp_bind, (wp_mem (λ m, st8 (st8 m (crt + 2 * pos) (glyph c)) (crt + 2 * pos + 1) (glyph c / 256))), wp_ret.
    apply wp_show_term with (f := put_cell row col (glyph c) f); [lia|rewrite mem_upd; simpl; auto with xv6| |].
    + intros r' c' Hr' Hc'. rewrite mem_upd, cell_store by done. unfold put_cell. rewrite pos_eqb by lia. fold pos. rewrite bool_decide_decide.
      rewrite (decide_ext (pos = 80 * r' + c') (80 * r' + c' = pos)) by done. case_decide; [done|]. by apply Hf.
    + intros m h. destruct (wrapped _ _) as [row' col' g]. rewrite mem_upd, upd_upd. intros Hsp. apply HQ. intros b Hb.
      rewrite Hsp, !ld8_st8 by done. by rewrite !decide_False by lia.
Qed.

(** Characters on the console are shown on the screen. *)
Lemma wp_consputc c t s (Q : unit → mach → Prop) :
  shows s t →
  (∀ m h, spares (k_mem (m_k s)) m → shows (upd m h s) (term_putc t c) → Q tt (upd m h s)) → wp (consputc c) Q s.
Proof.
  intros Hs HQ. unfold consputc. apply wp_bind.
  assert (∀ h, same_crt (m_hw s) h → wp (cgaputc c) Q (s <| m_hw := h |>)) as Hcga.
  { intros h (_ & E2 & E3). apply wp_cgaputc with (t := t); [|intros m h'; apply HQ]. destruct Hs as [S1 S2 S3 [S4 S5] S6].
    split; try done. split; simpl; congruence. }
  destruct (c =? BACKSPACE); [|apply wp_hwp, hwp_uartputc; exact Hcga].
  apply wp_bind, wp_hwp, hwp_uartputc. intros h1 (A1 & A2 & A3). apply wp_bind, wp_hwp, hwp_uartputc. intros h2 (B1 & B2 & B3).
  apply wp_hwp, hwp_uartputc. intros h3 (C1 & C2 & C3). apply Hcga. simpl in *. split_and!; congruence.
Qed.
Lemma wp_consputs text : ∀ t s (Q : unit → mach → Prop),
  shows s t →
  (∀ m h, spares (k_mem (m_k s)) m → shows (upd m h s) (foldl term_putc t text) → Q tt (upd m h s)) → wp (for_each text consputc) Q s.
Proof.
  induction text as [|c text IH]; intros t s Q Hs HQ; simpl.
  - apply wp_ret. rewrite <-(upd_same s). apply HQ; [by intros b|by rewrite upd_same].
  - apply wp_bind, (wp_consputc _ t); [done|]. intros m h Hsp Hs1. apply (IH (term_putc t c)); [done|]. intros m' h' Hsp' Hs'.
    rewrite upd_upd in *. apply HQ; [|done]. intros b Hb. rewrite Hsp', mem_upd by done. by apply Hsp.
Qed.
End screen.

(** A character that is neither a newline nor a backspace. *)
Definition plain (c : Z) : Prop := c ≠ NEWLINE ∧ c ≠ BACKSPACE.
Lemma term_putc_plain c row col f :
  plain c → col < 79 → term_putc (mkTerm row col f) c = mkTerm row (col + 1) (put_cell row (col + 1) (glyph 32) (put_cell row col (glyph c) f)).
Proof.
  intros [H1 H2] Hc. unfold term_putc, move. rewrite (proj2 (Z.eqb_neq _ _) H1), (proj2 (Z.eqb_neq _ _) H2), (proj2 (Z.eqb_neq col 79)) by lia. done.
Qed.
(** Text that fits on the line stands there. *)
Lemma term_line text : ∀ row col f,
  Forall plain text → col + Z.of_nat (length text) < 80 →
  let t := foldl term_putc (mkTerm row col f) text in
  t_row t = row ∧ t_col t = col + Z.of_nat (length text) ∧ (∀ x, x < col → t_at t row x = f row x) ∧
  ∀ i c, text !! i = Some c → t_at t row (col + Z.of_nat i) = glyph c.
Proof.
  induction text as [|c text IH]; intros row col f Hp Hl; cbv zeta; cbn [foldl length] in *.
  - simpl. split_and!; [done|lia|done|done].
  - apply Forall_cons in Hp as [Hc Hp]. rewrite term_putc_plain by (done || lia).
    match goal with |- context [foldl term_putc (mkTerm _ _ ?g) text] => destruct (IH row (col + 1) g Hp ltac:(lia)) as (H1 & H2 & H3 & H4) end.
    split_and!; [done|lia| |].
    + intros x Hx. rewrite H3 by lia. unfold put_cell. rewrite (proj2 (Z.eqb_neq x (col + 1))), (proj2 (Z.eqb_neq x col)) by lia. by rewrite !andb_false_r.
    + intros [|i] c' Hi; simpl in Hi.
      * injection Hi as <-. rewrite Z.add_0_r, H3 by lia. unfold put_cell. rewrite (proj2 (Z.eqb_neq col (col + 1))), !Z.eqb_refl by lia. by rewrite andb_false_r.
      * rewrite <-(H4 i c' Hi). f_equal. lia.
Qed.
