(* ===== verification/Kbd.v ===== *)
(** * Kbd: the keyboard ([kbd.c], [kbd.h]) and its way to the console

    [kbdgetc] turns scan codes into characters, with the state of the modifier
    keys in the bits of [shift].  [consoleintr] here is the one of [console.c]
    with its argument [getc], which calls the driver until there is no more
    input; [ConsDev] has it for the characters that [getc] returns. *)
From S2P Require Import Prelude.
From S2P Require Import Mem.
From S2P Require Import Str.
From S2P Require Import State.
From S2P Require Import Spin.
From S2P Require Import Cons.
From S2P Require Import ConsDev.
From S2P Require Import Hw.
From S2P Require Import Chips.

Module Kbd.

Abbreviation KBSTATP := (0x64)%Z (only parsing).
Abbreviation KBS_DIB := (0x01)%Z (only parsing).
Abbreviation KBDATAP := (0x60)%Z (only parsing).
Abbreviation NO := (0)%Z (only parsing).
Abbreviation SHIFT := (Z.shiftl 1 0)%Z (only parsing).
Abbreviation CTL := (Z.shiftl 1 1)%Z (only parsing).
Abbreviation ALT := (Z.shiftl 1 2)%Z (only parsing).
Abbreviation CAPSLOCK := (Z.shiftl 1 3)%Z (only parsing).
Abbreviation NUMLOCK := (Z.shiftl 1 4)%Z (only parsing).
Abbreviation SCROLLLOCK := (Z.shiftl 1 5)%Z (only parsing).
Abbreviation E0ESC := (Z.shiftl 1 6)%Z (only parsing).

Abbreviation KEY_HOME := (0xE0)%Z (only parsing).
Abbreviation KEY_END := (0xE1)%Z (only parsing).
Abbreviation KEY_UP := (0xE2)%Z (only parsing).
Abbreviation KEY_DN := (0xE3)%Z (only parsing).
Abbreviation KEY_LF := (0xE4)%Z (only parsing).
Abbreviation KEY_RT := (0xE5)%Z (only parsing).
Abbreviation KEY_PGUP := (0xE6)%Z (only parsing).
Abbreviation KEY_PGDN := (0xE7)%Z (only parsing).
Abbreviation KEY_INS := (0xE8)%Z (only parsing).
Abbreviation KEY_DEL := (0xE9)%Z (only parsing).

(** An array of 256 bytes with an initialiser: values from the start on, and
    values with their index. *)
Definition table (l : list Z) (ds : list (Z * Z)) : list Z :=
  foldl (λ t d, <[Z.to_nat d.1 := d.2]> t) (l ++ replicate (256 - length l) 0) ds.

Definition C (x : string) : Z := ch x - ch "@".

Definition shiftcode : list Z := Eval vm_compute in
  table [] [(0x1D, CTL); (0x2A, SHIFT); (0x36, SHIFT); (0x38, ALT); (0x9D, CTL); (0xB8, ALT)].
Definition togglecode : list Z := Eval vm_compute in
  table [] [(0x3A, CAPSLOCK); (0x45, NUMLOCK); (0x46, SCROLLLOCK)].

(** [\b], [\t], [\n], [\r] and the quotes. *)
Abbreviation BS := (8)%Z (only parsing).
Abbreviation TAB := (9)%Z (only parsing).
Abbreviation CR := (13)%Z (only parsing).
Abbreviation ESC := (27)%Z (only parsing).
Abbreviation DQUOTE := (34)%Z (only parsing).

Definition extended (enter div : Z) : list (Z * Z) :=
  [(0x9C, enter); (0xB5, div); (0xC8, KEY_UP); (0xD0, KEY_DN); (0xC9, KEY_PGUP); (0xD1, KEY_PGDN);
   (0xCB, KEY_LF); (0xCD, KEY_RT); (0x97, KEY_HOME); (0xCF, KEY_END); (0xD2, KEY_INS); (0xD3, KEY_DEL)].

Definition normalmap : list Z := Eval vm_compute in
  table
   ([NO; 0x1B] ++ chars "1234567890-=" ++ [BS; TAB] ++
    chars "qwertyuiop[]" ++ [NEWLINE; NO] ++ chars "asdfghjkl;'`" ++ [NO] ++ chars "\zxcvbnm,./" ++ [NO; ch "*"] ++
    [NO; ch " "; NO; NO; NO; NO; NO; NO] ++
    [NO; NO; NO; NO; NO; NO; NO; ch "7"] ++ chars "89-456+1230." ++ [NO; NO; NO; NO])
   (extended NEWLINE (ch "/")).
Definition shiftmap : list Z := Eval vm_compute in
  table
   ([NO; ESC] ++ chars "!@#$%^&*()_+" ++ [BS; TAB] ++
    chars "QWERTYUIOP{}" ++ [NEWLINE; NO] ++ chars "ASDFGHJKL:" ++ [DQUOTE] ++ chars "~" ++ [NO] ++ chars "|ZXCVBNM<>?" ++ [NO; ch "*"] ++
    [NO; ch " "; NO; NO; NO; NO; NO; NO] ++
    [NO; NO; NO; NO; NO; NO; NO; ch "7"] ++ chars "89-456+1230." ++ [NO; NO; NO; NO])
   (extended NEWLINE (ch "/")).
Definition ctlmap : list Z := Eval vm_compute in
  table
   (replicate 16 NO ++
    [C "Q"; C "W"; C "E"; C "R"; C "T"; C "Y"; C "U"; C "I"; C "O"; C "P"; NO; NO; CR; NO; C "A"; C "S";
     C "D"; C "F"; C "G"; C "H"; C "J"; C "K"; C "L"; NO; NO; NO; NO; C "\"; C "Z"; C "X"; C "C"; C "V";
     C "B"; C "N"; C "M"; NO; NO; u8 (C "/"); NO; NO])
   (extended CR (u8 (C "/"))).

Definition charcode : list (list Z) := [normalmap; shiftmap; ctlmap; ctlmap].

(** [if(shift & CAPSLOCK)]: letters change their case. *)
Definition caps (c : Z) : Z :=
  if (ch "a" <=? c) && (c <=? ch "z") then c + (ch "A" - ch "a")
  else if (ch "A" <=? c) && (c <=? ch "Z") then c + (ch "a" - ch "A")
  else c.

(** The scan code [data] in the state [shift]: the new state and the character;
    [None] for an index outside of the arrays. *)
Definition kbd_code (shift data : Z) : option (Z * Z) :=
  if data =? 0xE0 then Some (Z.lor shift E0ESC, 0)
  else if truthy (Z.land data 0x80) then
    let data := if truthy (Z.land shift E0ESC) then data else Z.land data 0x7F in
    sc ←? shiftcode !! Z.to_nat data;
    Some (Z.ldiff shift (Z.lor sc E0ESC), 0)
  else
    let '(data, shift) :=
      if truthy (Z.land shift E0ESC) then (Z.lor data 0x80, Z.ldiff shift E0ESC) else (data, shift) in
    sc ←? shiftcode !! Z.to_nat data;
    tc ←? togglecode !! Z.to_nat data;
    let shift := Z.lxor (Z.lor shift sc) tc in
    map ←? charcode !! Z.to_nat (Z.land shift (Z.lor CTL SHIFT));
    c ←? map !! Z.to_nat data;
    Some (shift, if truthy (Z.land shift CAPSLOCK) then caps c else c).

Section kbd.
Context `{HW : !Hw} (polls : nat).

Definition kbdgetc : D Z :=
  st ← inb KBSTATP;
  if Z.land st KBS_DIB =? 0 then ret (-1)
  else
    data ← inb KBDATAP;
    shift ← gets m_shift;
    ' (shift, c) ← get_or "charcode" (kbd_code shift data);
    modify (λ s, s <| m_shift := shift |>) ;;
    ret c.

(** [while((c = getc()) >= 0)] *)
Fixpoint consoleintr_loop (fuel : nat) (getc : D Z) (doprocdump : bool) : D bool :=
  match fuel with
  | O => spin
  | S fuel' =>
      c ← getc;
      if c <? 0 then ret doprocdump
      else d ← kern (input_char c); consoleintr_loop fuel' getc (doprocdump || d)
  end.
Definition consoleintr (getc : D Z) : D unit :=
  kern (acquire LCons) ;;
  d ← consoleintr_loop polls getc false;
  kern (release LCons) ;;
  when d (kern procdump).

Definition kbdintr : D unit := consoleintr kbdgetc.
Definition uartintr : D unit := consoleintr Chips.uartgetc.
End kbd.

End Kbd.

(** ** What the keyboard types

    [kbd_code] is compared with a keyboard whose state is a record of flags, and
    with the text a typist means: pressing and releasing the keys of a text
    yields the text.  [consoleintr] with a driver's [getc] is the [consoleintr] of
    [ConsDev] on the characters that the driver returns. *)
Import Kbd.

(** ** The modifier keys *)

Record modifiers := mkModifiers {
  md_shift : bool; md_ctl : bool; md_alt : bool;
  md_caps : bool; md_num : bool; md_scroll : bool;
  md_esc : bool                    (* the last code was the prefix E0 *)
}.
#[export] Instance eta_modifiers : Eta modifiers :=
  λ r, mkModifiers (md_shift r) (md_ctl r) (md_alt r) (md_caps r) (md_num r) (md_scroll r) (md_esc r).

Definition encode (m : modifiers) : Z :=
  b2z (md_shift m) + 2 * b2z (md_ctl m) + 4 * b2z (md_alt m) + 8 * b2z (md_caps m) +
  16 * b2z (md_num m) + 32 * b2z (md_scroll m) + 64 * b2z (md_esc m).

(** A key going down or up; [k] is its code with the prefix as bit 7. *)
Definition hold (v : bool) (k : Z) (m : modifiers) : modifiers :=
  if (k =? 0x2A) || (k =? 0x36) then m <| md_shift := v |>
  else if (k =? 0x1D) || (k =? 0x9D) then m <| md_ctl := v |>
  else if (k =? 0x38) || (k =? 0xB8) then m <| md_alt := v |>
  else m.
Definition toggle (k : Z) (m : modifiers) : modifiers :=
  if k =? 0x3A then m <| md_caps := negb (md_caps m) |>
  else if k =? 0x45 then m <| md_num := negb (md_num m) |>
  else if k =? 0x46 then m <| md_scroll := negb (md_scroll m) |>
  else m.

(** What is printed on key [k]. *)
Definition keycap (m : modifiers) (k : Z) : Z :=
  let map := if md_ctl m then ctlmap else if md_shift m then shiftmap else normalmap in
  let c := default 0 (map !! Z.to_nat k) in
  if md_caps m then caps c else c.

Definition key_code (m : modifiers) (data : Z) : modifiers * Z :=
  if data =? 0xE0 then (m <| md_esc := true |>, 0)
  else if 0x80 <=? data then
    (hold false (if md_esc m then data else data - 0x80) m <| md_esc := false |>, 0)
  else
    let k := if md_esc m then data + 0x80 else data in
    let m := toggle k (hold true k (m <| md_esc := false |>)) in
    (m, keycap m k).

(** The bits of [shift] are the flags, and no array is read out of range. *)
Lemma kbd_code_flags m data :
  0 ≤ data < 256 → kbd_code (encode m) data = Some (encode (key_code m data).1, (key_code m data).2).
Proof.
  intros Hd.
  assert (∀ m, forallb (λ d, bool_decide (kbd_code (encode m) d = Some (encode (key_code m d).1, (key_code m d).2))) (seqZ 0 256) = true) as H.
  { intros [[] [] [] [] [] [] []]; vm_compute; reflexivity. }
  specialize (H m). rewrite forallb_forall in H. eapply bool_decide_eq_true_1, H, list_elem_of_In, elem_of_seqZ. lia.
Qed.

(** ** Typing a text *)

(** The US keyboard in scan-code set 1: for each row of keys the code of its
    first key, what its keys are labelled, and what they give with shift. *)
Definition us_rows : list (Z * list Z * list Z) :=
  [(0x02, chars "1234567890-=", chars "!@#$%^&*()_+");
   (0x10, chars "qwertyuiop[]", chars "QWERTYUIOP{}");
   (0x1E, chars "asdfghjkl;'`", chars "ASDFGHJKL:" ++ 34 :: chars "~");
   (0x2B, chars "\zxcvbnm,./", chars "|ZXCVBNM<>?");
   (0x39, chars " ", []);          (* the space bar *)
   (0x0E, [8], []);                (* backspace *)
   (0x0F, [9], []);                (* tab *)
   (0x1C, [10], [])].              (* enter *)

(** The key of a row that is labelled [c]. *)
Definition key_at (first : Z) (labels : list Z) (c : Z) : option Z :=
  (λ i, first + Z.of_nat i) <$> find_first (λ x, x =? c) labels.
Fixpoint find_key (f : Z * list Z * list Z → option Z) (rows : list (Z * list Z * list Z)) : option Z :=
  match rows with
  | [] => None
  | r :: rows' => match f r with Some k => Some k | None => find_key f rows' end
  end.

(** What a typist does for a character: its key is pressed and released, with the
    left shift key (0x2A) held if the character needs it; a key is released with
    the code of the key plus 0x80. *)
Definition keys (c : Z) : option (list Z) :=
  match find_key (λ '(first, plain, _), key_at first plain c) us_rows with
  | Some k => Some [k; k + 0x80]
  | None => (λ k, [0x2A; k; k + 0x80; 0x2A + 0x80]) <$> find_key (λ '(first, _, shifted), key_at first shifted c) us_rows
  end.

Fixpoint kbd_codes (shift : Z) (ds : list Z) : option (Z * list Z) :=
  match ds with
  | [] => Some (shift, [])
  | d :: ds' =>
      r ←? kbd_code shift d;
      r' ←? kbd_codes r.1 ds';
      Some (r'.1, r.2 :: r'.2)
  end.

(** Printable characters, tab, newline and backspace. *)
Definition typable (c : Z) : bool := (32 <=? c) && (c <=? 126) || (c =? 8) || (c =? 9) || (c =? 10).
Definition sounds (c : Z) : bool := negb (c =? 0).

Lemma keys_type c :
  typable c = true →
  ∃ ks out, keys c = Some ks ∧ kbd_codes 0 ks = Some (0, out) ∧ filter sounds out = [c] ∧
    Forall (λ d, 0 ≤ d < 256) ks ∧ Forall (λ x, 0 ≤ x) out.
Proof.
  intros Hc.
  assert (forallb (λ c, negb (typable c) ||
    match keys c with
    | Some ks => match kbd_codes 0 ks with
                 | Some (0, out) => bool_decide (filter sounds out = [c]) && forallb (λ d, (0 <=? d) && (d <? 256)) ks && forallb (λ x, 0 <=? x) out
                 | _ => false
                 end
    | None => false
    end) (seqZ 0 127) = true) as H by (vm_compute; reflexivity).
  rewrite forallb_forall in H. specialize (H c). rewrite <-list_elem_of_In, elem_of_seqZ in H. rewrite Hc in H. simpl in H.
  assert (0 ≤ c < 127) as Hr by (unfold typable in Hc; lia).
  specialize (H ltac:(lia)). destruct (keys c) as [ks|]; [|done]. destruct (kbd_codes 0 ks) as [[[] out]|] eqn:E; try done.
  rewrite !andb_true_iff, bool_decide_eq_true, !forallb_forall in H. destruct H as [[H1 H2] H3].
  exists ks, out. split_and!; try done; apply Forall_forall; intros x Hx; rewrite list_elem_of_In in Hx.
  - specialize (H2 x Hx). lia.
  - specialize (H3 x Hx). lia.
Qed.

Lemma kbd_codes_app s ds1 ds2 s1 o1 s2 o2 :
  kbd_codes s ds1 = Some (s1, o1) → kbd_codes s1 ds2 = Some (s2, o2) → kbd_codes s (ds1 ++ ds2) = Some (s2, o1 ++ o2).
Proof.
  revert s o1. induction ds1 as [|d ds1 IH]; intros s o1 H1 H2; simpl in *; [by simplify_eq|].
  destruct (kbd_code s d) as [[s' c]|]; [|done]. simpl in *. destruct (kbd_codes s' ds1) as [[s1' o1']|] eqn:E; [|done].
  simplify_eq/=. by rewrite (IH _ _ E H2).
Qed.

Lemma kbd_codes_length s ds s' out : kbd_codes s ds = Some (s', out) → length ds = length out.
Proof.
  revert s out. induction ds as [|d ds IH]; intros s out H; simpl in *; [by simplify_eq|].
  destruct (kbd_code s d) as [[s1 c]|]; [|done]. simpl in H. destruct (kbd_codes s1 ds) as [[s2 o]|] eqn:E; [|done].
  simplify_eq/=. f_equal. by eapply IH.
Qed.

Definition text_keys (l : list Z) : list Z := concat ((λ c, default [] (keys c)) <$> l).

Lemma text_keys_type l :
  Forall (λ c, typable c = true) l →
  ∃ out, kbd_codes 0 (text_keys l) = Some (0, out) ∧ filter sounds out = l ∧
    Forall (λ d, 0 ≤ d < 256) (text_keys l) ∧ Forall (λ x, 0 ≤ x) out.
Proof.
  induction 1 as [|c l Hc _ (out & H1 & H2 & H3 & H4)]; [by exists []|].
  destruct (keys_type c Hc) as (ks & o & K1 & K2 & K3 & K4 & K5). exists (o ++ out).
  unfold text_keys. cbn [fmap list_fmap concat]. rewrite K1. simpl. fold (text_keys l).
  split_and!; [by eapply kbd_codes_app|by rewrite filter_app, K3, H2|by apply Forall_app|by apply Forall_app].
Qed.

(** ** The driver and the console *)

Section driver.
Context `{HW : !Hw}.
Implicit Types (s : mach) (getc : D Z).

(** Calling [getc] until it returns a negative value gives [cs]. *)
Inductive yields getc : mach → list Z → mach → Prop :=
| yields_end s c s' : getc s = Ret c s' → c < 0 → yields getc s [] s'
| yields_char s c s1 cs s' : getc s = Ret c s1 → 0 ≤ c → yields getc s1 cs s' → yields getc s (c :: cs) s'.

(** A driver that does not look at the kernel's globals. *)
Definition apart getc : Prop :=
  ∀ s c s' k, getc s = Ret c s' → m_k s' = m_k s ∧ getc (s <| m_k := k |>) = Ret c (s' <| m_k := k |>).

Lemma yields_apart getc s cs s' k :
  apart getc → yields getc s cs s' → yields getc (s <| m_k := k |>) cs (s' <| m_k := k |>).
Proof.
  intros Ha. induction 1 as [s c s' H Hc|s c s1 cs s' H Hc Hy IH].
  - eapply yields_end; [by apply Ha|done].
  - eapply yields_char; [by apply Ha|done|done].
Qed.

Lemma consoleintr_loop_chars getc cs : ∀ fuel s s' dump k b,
  apart getc → yields getc s cs s' → (length cs < fuel)%nat →
  input_chars cs dump (m_k s) = Ret b k → consoleintr_loop fuel getc dump s = Ret b (s' <| m_k := k |>).
Proof.
  induction cs as [|c cs IH]; intros [|fuel] s s' dump k b Ha Hy Hf Hin; simpl in Hf; try lia; inversion Hy as [? c' ? H Hc|? c' s1 ? ? H Hc Hy']; subst; simpl.
  - rewrite (bind_ret_eq _ _ _ _ _ H), (proj2 (Z.ltb_lt _ _)) by done. simpl in Hin. unfold ret in *. simplify_eq.
    destruct (Ha _ _ _ (m_k s) H) as [<- _]. by destruct s'.
  - rewrite (bind_ret_eq _ _ _ _ _ H), (proj2 (Z.ltb_ge _ _)) by done. simpl in Hin. apply bind_Ret_inv in Hin as (d & k1 & H1 & H2).
    destruct (Ha _ _ _ k1 H) as [Hk _]. rewrite <-Hk in H1. erewrite bind_ret_eq by (eapply kern_ret; [reflexivity|exact H1]).
    rewrite (IH fuel _ (s' <| m_k := k1 |>) _ k b); [done|done|by apply yields_apart|lia|done].
Qed.

(** [consoleintr(getc)] handles the characters that the driver has. *)
Lemma consoleintr_chars polls getc cs s s' k :
  apart getc → yields getc s cs s' → (length cs < polls)%nat →
  ConsDev.consoleintr cs (m_k s) = Ret tt k → consoleintr polls getc s = Ret tt (s' <| m_k := k |>).
Proof.
  intros Ha Hy Hf Hr. unfold ConsDev.consoleintr in Hr. apply bind_Ret_inv in Hr as ([] & k1 & H1 & Hr).
  apply bind_Ret_inv in Hr as (d & k2 & H2 & Hr). apply bind_Ret_inv in Hr as ([] & k3 & H3 & Hr).
  unfold consoleintr. erewrite bind_ret_eq by (eapply kern_ret; [reflexivity|exact H1]).
  rewrite (bind_ret_eq _ _ _ _ _ (consoleintr_loop_chars getc cs polls _ _ _ k2 d Ha (yields_apart _ _ _ _ k1 Ha Hy) Hf H2)).
  erewrite bind_ret_eq by (eapply kern_ret; [reflexivity|exact H3]). destruct d; simpl in *.
  - by erewrite (kern_ret procdump) by (reflexivity || exact Hr).
  - unfold ret in *. by simplify_eq.
Qed.

(** Characters without a sound, such as the zero of a shift key, are dropped. *)
Lemma input_chars_sounds cs dump k : input_chars cs dump k = input_chars (filter sounds cs) dump k.
Proof.
  revert dump k. induction cs as [|c cs IH]; intros dump k; [done|]. destruct (Z.eqb_spec c 0) as [->|Hc].
  - rewrite filter_cons_False by (intros []). simpl. rewrite (bind_ret_eq _ _ _ false k); [by rewrite orb_false_r|].
    unfold input_char, type_char, bind, gets, when, ret. done.
  - rewrite filter_cons_True by (unfold sounds; rewrite (proj2 (Z.eqb_neq _ _) Hc); done). simpl.
    unfold bind. destruct (input_char c k) as [d k'| | | |]; try done.
Qed.
End driver.

(** ** The keyboard controller *)

(** What the driver relies on: bit 0 of the status port says whether a scan code
    waits, and reading the data port takes the next one. *)
Class KbdController `{HW : !Hw} := {
  kb_pending : hw → list Z;
  kb_status h :
    truthy (Z.land (port_in KBSTATP h).1 KBS_DIB) = negb (bool_decide (kb_pending h = [])) ∧
    kb_pending (port_in KBSTATP h).2 = kb_pending h;
  kb_data h d ds :
    kb_pending h = d :: ds → (port_in KBDATAP h).1 = d ∧ kb_pending (port_in KBDATAP h).2 = ds
}.

Section controller.
Context `{HW : !Hw} `{KB : !KbdController}.
Implicit Types s : mach.

Lemma kbdgetc_apart : apart kbdgetc.
Proof.
  intros s c s' k. unfold kbdgetc, inb, ask, bind, get_or, gets, modify, ret, fault. simpl. destruct (port_in KBSTATP (m_hw s)) as [st h]. simpl.
  destruct (Z.land st KBS_DIB =? 0); [intros [= <- <-]; by split|]. simpl. destruct (port_in KBDATAP h) as [d h']. simpl.
  destruct (kbd_code (m_shift s) d) as [[sh c']|]; [|done]. simpl. intros [= <- <-]. by split.
Qed.

(** The driver returns the characters of the codes that wait. *)
Lemma kbdgetc_yields ds : ∀ s shift out,
  kb_pending (m_hw s) = ds → kbd_codes (m_shift s) ds = Some (shift, out) → Forall (λ x, 0 ≤ x) out →
  ∃ s', yields kbdgetc s out s' ∧ m_shift s' = shift ∧ kb_pending (m_hw s') = [] ∧ m_k s' = m_k s.
Proof.
  induction ds as [|d ds IH]; intros s shift out Hp Hc Hpos; simpl in Hc.
  - simplify_eq. destruct (kb_status (m_hw s)) as [H1 H2]. rewrite Hp in H1. simpl in H1.
    exists (s <| m_hw := (port_in KBSTATP (m_hw s)).2 |>). split_and!; simpl; try congruence.
    eapply (yields_end _ _ (-1)); [|lia]. unfold kbdgetc, inb, ask, bind. destruct (port_in KBSTATP (m_hw s)) as [st h]. simpl in *.
    apply truthy_false in H1. by rewrite H1.
  - destruct (kbd_code (m_shift s) d) as [[sh c]|] eqn:Ec; [|done]. simpl in Hc.
    destruct (kbd_codes sh ds) as [[sh' out']|] eqn:Ed; [|done]. simplify_eq/=. apply Forall_cons in Hpos as [Hc0 Hpos].
    destruct (kb_status (m_hw s)) as [H1 H2]. rewrite Hp in H1. simpl in H1.
    destruct (kb_data (port_in KBSTATP (m_hw s)).2 d ds) as [H3 H4]; [congruence|].
    set (s1 := s <| m_hw := (port_in KBDATAP (port_in KBSTATP (m_hw s)).2).2 |> <| m_shift := sh |>).
    destruct (IH s1 _ _ H4 Ed Hpos) as (s' & Hy & ? & ? & Hk). exists s'. split_and!; try done.
    eapply (yields_char _ _ c s1); [|done|done]. unfold kbdgetc, inb, ask, bind. unfold s1.
    destruct (port_in KBSTATP (m_hw s)) as [st h]. simpl in *. apply truthy_true in H1. rewrite (proj2 (Z.eqb_neq _ _) H1).
    simpl. destruct (port_in KBDATAP h) as [d' h']. simpl in *. subst d'. unfold get_or, gets. simpl. rewrite Ec. done.
Qed.
End controller.
