(* ===== verification/Ide.v ===== *)
(** * Ide: the IDE driver ([ide.c])

    The driver of the system's disk: [iderw] queues a buffer, starts the
    controller when the queue was empty and sleeps; the interrupt of the
    controller finishes the request at the head of the queue, wakes its process
    and starts the next.  The queue is the linked list through [b->qnext], and the
    controller is programmed through its ports.  Loops that wait for the controller
    have fuel [polls]. *)
From S2P Require Import Prelude.
From S2P Require Import Mem.
From S2P Require Import Str.
From S2P Require Import State.
From S2P Require Import Spin.
From S2P Require Import Cons.
From S2P Require Import Mlq.
From S2P Require Import Proc.
From S2P Require Import ProcSpec.
From S2P Require Import Blk.
From S2P Require Import Bio.
From S2P Require Import Trap.
From S2P Require Import BioSpec.
From S2P Require Import FsDisk.
From S2P Require Import Mkfs.
From S2P Require Import Hw.
From S2P Require Import Chips.

Module Ide.

Abbreviation SECTOR_SIZE := (512)%Z (only parsing).
Abbreviation IDE_BSY := (0x80)%Z (only parsing).
Abbreviation IDE_DRDY := (0x40)%Z (only parsing).
Abbreviation IDE_DF := (0x20)%Z (only parsing).
Abbreviation IDE_ERR := (0x01)%Z (only parsing).
Abbreviation IDE_CMD_READ := (0x20)%Z (only parsing).
Abbreviation IDE_CMD_WRITE := (0x30)%Z (only parsing).
Abbreviation IDE_CMD_RDMUL := (0xc4)%Z (only parsing).
Abbreviation IDE_CMD_WRMUL := (0xc5)%Z (only parsing).

Section ide.
Context `{HW : !Hw} (polls : nat).

(** Wait for IDE disk to become ready. *)
Fixpoint idewait_loop (fuel : nat) : D Z :=
  match fuel with
  | O => spin
  | S fuel' =>
      r ← inb 0x1f7;
      if negb (Z.land r (Z.lor IDE_BSY IDE_DRDY) =? IDE_DRDY) then idewait_loop fuel' else ret r
  end.
Definition idewait (checkerr : bool) : D Z :=
  r ← idewait_loop polls;
  if checkerr && negb (Z.land r (Z.lor IDE_DF IDE_ERR) =? 0) then ret (-1) else ret 0.

(** [for(i=0; i<n; i++) if(inb(0x1f7) != 0){ havedisk1 = 1; break; }] *)
Fixpoint probe (n : nat) : D unit :=
  match n with
  | O => ret tt
  | S n' => r ← inb 0x1f7; if negb (r =? 0) then modify (λ s, s <| m_havedisk1 := 1 |>) else probe n'
  end.
Definition ideinit : D unit :=
  kern (initlock LIde) ;;
  cpus ← gets (λ s, k_cpus (m_k s));
  Chips.ioapicenable IRQ_IDE (Z.of_nat (length cpus) - 1) ;;
  idewait false ;;
  outb 0x1f6 (Z.lor 0xe0 (Z.shiftl 1 4)) ;;
  probe 1000 ;;
  outb 0x1f6 (Z.lor 0xe0 (Z.shiftl 0 4)).

(** Start the request for b.  Caller must hold idelock. *)
Definition idestart (b : option nat) : D unit :=
  match b with
  | None => panic "idestart"
  | Some b =>
      x ← kern (get_buf b);
      if Mkfs.FSSIZE <=? b_blockno x then panic "incorrect blockno"
      else
        let sector_per_block := BSIZE / SECTOR_SIZE in
        let sector := s32 (b_blockno x * sector_per_block) in
        let read_cmd := if sector_per_block =? 1 then IDE_CMD_READ else IDE_CMD_RDMUL in
        let write_cmd := if sector_per_block =? 1 then IDE_CMD_WRITE else IDE_CMD_WRMUL in
        if 7 <? sector_per_block then panic "idestart"
        else
          idewait false ;;
          outb 0x3f6 0 ;;
          outb 0x1f2 sector_per_block ;;
          outb 0x1f3 (Z.land sector 0xff) ;;
          outb 0x1f4 (Z.land (Z.shiftr sector 8) 0xff) ;;
          outb 0x1f5 (Z.land (Z.shiftr sector 16) 0xff) ;;
          outb 0x1f6 (Z.lor (Z.lor 0xe0 (Z.shiftl (Z.land (b_dev x) 1) 4)) (Z.land (Z.shiftr sector 24) 0x0f)) ;;
          if truthy (Z.land (b_flags x) B_DIRTY) then
            outb 0x1f7 write_cmd ;;
            outsl 0x1f0 (b_data x) (Z.to_nat (BSIZE / 4))
          else outb 0x1f7 read_cmd
  end.

(** [b->qnext] *)
Definition qnext (b : nat) : D (option nat) := q ← gets m_qnext; get_or "qnext" (q !! b).
Definition set_qnext (b : nat) (v : option nat) : D unit :=
  modify (λ s, s <| m_qnext := <[b := v]> (m_qnext s) |>).

(** Interrupt handler. *)
Definition ideintr : D unit :=
  kern (acquire LIde) ;;
  b ← gets m_idequeue;
  match b with
  | None => kern (release LIde)
  | Some b =>
      n ← qnext b;
      modify (λ s, s <| m_idequeue := n |>) ;;
      x ← kern (get_buf b);
      (if negb (truthy (Z.land (b_flags x) B_DIRTY)) then
         r ← idewait true;
         when (0 <=? r) (bs ← insl 0x1f0 (Z.to_nat (BSIZE / 4)); kern (upd_data b (λ _, bs)))
       else ret tt) ;;
      kern (upd_buf b (λ x, x <| b_flags := Z.lor (b_flags x) B_VALID |>)) ;;
      kern (upd_buf b (λ x, x <| b_flags := Z.ldiff (b_flags x) B_DIRTY |>)) ;;
      kern (wakeup (ChBufIO b)) ;;
      q ← gets m_idequeue;
      when (bool_decide (is_Some q)) (idestart q) ;;
      kern (release LIde)
  end.

(** A [struct buf **]: [&idequeue], or [&b->qnext]. *)
Definition load_link (pp : option nat) : D (option nat) :=
  match pp with None => gets m_idequeue | Some b => qnext b end.
Definition store_link (pp : option nat) (v : option nat) : D unit :=
  match pp with None => modify (λ s, s <| m_idequeue := v |>) | Some b => set_qnext b v end.
(** The last link of the queue, which is null. *)
Fixpoint last_link (fuel : nat) (pp : option nat) : D (option nat) :=
  match fuel with
  | O => spin
  | S fuel' =>
      v ← load_link pp;
      match v with None => ret pp | Some b => last_link fuel' (Some b) end
  end.

(** [while((b->flags & (B_VALID|B_DIRTY)) != B_VALID) sleep(b, &idelock);] *)
Definition iderw_wait (b : nat) : D unit :=
  x ← kern (get_buf b);
  if negb (Z.land (b_flags x) (Z.lor B_VALID B_DIRTY) =? B_VALID) then kern (sleep (ChBufIO b) LIde)
  else kern (release LIde).
Definition iderw (b : nat) : D unit :=
  h ← kern (holdingsleep (LBuf b));
  if negb h then panic "iderw: buf not locked"
  else
    x ← kern (get_buf b);
    havedisk1 ← gets m_havedisk1;
    if Z.land (b_flags x) (Z.lor B_VALID B_DIRTY) =? B_VALID then panic "iderw: nothing to do"
    else if negb (b_dev x =? 0) && negb (truthy havedisk1) then panic "iderw: ide disk 1 not present"
    else
      kern (acquire LIde) ;;
      set_qnext b None ;;
      pp ← last_link (S NBUF) None;
      store_link pp (Some b) ;;
      q ← gets m_idequeue;
      when (bool_decide (q = Some b)) (idestart (Some b)) ;;
      iderw_wait b.
(** The process goes on after [sleep]. *)
Definition iderw_resume (me : nat) (intena : Z) (b : nat) : D unit :=
  kern (sleep_resume me intena LIde) ;;
  iderw_wait b.
End ide.

End Ide.

(** ** The driver with a disk

    [Ata] is an IDE disk in PIO mode, as the ATA standard describes its
    registers: the state behind the ports is an [atast], and every access to a disk
    that is not busy changes it as the functions below say.  The disk may be busy
    after a command and after a sector, and both may end in an error.  The driver
    relies on two things more.  It stores the words of a sector right behind the
    write command, without waiting until the disk asks for them ([AtaPrompt]), and
    it takes no notice of errors of a write, nor of a read beyond skipping the
    data ([AtaReliable] is a disk without errors).  On such a disk a request in the
    queue is served in turn, and leaves buffer and disk as the memory disk does. *)
Import Ide.

(** ** The registers of the disk *)

Inductive phase := PIdle | PIn (ws : list Z) | POut (ws : list Z).

Record atast := mkAta {
  at_busy : nat;                   (* polls until the command is done, at most *)
  at_error : bool;                 (* the last command failed *)
  at_count : Z; at_lba0 : Z; at_lba1 : Z; at_lba2 : Z; at_drive : Z;
  at_phase : phase;
  at_disk0 : list (list Z); at_disk1 : list (list Z)
}.
#[export] Instance eta_atast : Eta atast :=
  λ r, mkAta (at_busy r) (at_error r) (at_count r) (at_lba0 r) (at_lba1 r) (at_lba2 r) (at_drive r) (at_phase r) (at_disk0 r) (at_disk1 r).

(** The sector number and the drive that the registers select. *)
Definition ata_sector (a : atast) : nat :=
  Z.to_nat (at_lba0 a + 256 * at_lba1 a + 65536 * at_lba2 a + 16777216 * (at_drive a mod 16)).
Definition ata_second (a : atast) : bool := Z.testbit (at_drive a) 4.
Definition ata_disk (a : atast) : list (list Z) := if ata_second a then at_disk1 a else at_disk0 a.
Definition ata_store (d : list Z) (a : atast) : atast :=
  if ata_second a then a <| at_disk1 := <[ata_sector a := d]> (at_disk1 a) |>
  else a <| at_disk0 := <[ata_sector a := d]> (at_disk0 a) |>.

(** A byte to a register; a command fails if [err] says so. *)
Definition ata_out (err : bool) (p v : Z) (a : atast) : atast :=
  if p =? 0x1f2 then a <| at_count := v |>
  else if p =? 0x1f3 then a <| at_lba0 := v |>
  else if p =? 0x1f4 then a <| at_lba1 := v |>
  else if p =? 0x1f5 then a <| at_lba2 := v |>
  else if p =? 0x1f6 then a <| at_drive := v |>
  else if p =? 0x1f7 then
    if v =? IDE_CMD_READ then
      a <| at_error := err |>
        <| at_phase := if err then PIdle else PIn (get_words (blk_at (ata_disk a) (Z.of_nat (ata_sector a))) 0 128) |>
    else if v =? IDE_CMD_WRITE then a <| at_error := err |> <| at_phase := if err then PIdle else POut [] |>
    else a
  else a.
(** A word to the data register; the sector is written when it is complete.  If
    that fails, the sector holds [d]. *)
Definition ata_outl (err : bool) (d : list Z) (w : Z) (a : atast) : atast :=
  match at_phase a with
  | POut ws =>
      if (length ws =? 127)%nat then
        ata_store (if err then d else concat (word_bytes <$> (ws ++ [w]))) (a <| at_error := err |> <| at_phase := PIdle |>)
      else a <| at_phase := POut (ws ++ [w]) |>
  | _ => a
  end.

Class Ata `{HW : !Hw} := {
  ata : hw → atast;
  ata_patience : nat;
  (* a busy disk is not ready; a ready one shows whether the command failed *)
  ata_status h :
    let '(r, h') := port_in 0x1f7 h in
    match at_busy (ata h) with
    | O => Z.land r (Z.lor IDE_BSY IDE_DRDY) = IDE_DRDY ∧
           (Z.land r (Z.lor IDE_DF IDE_ERR) = 0 ↔ at_error (ata h) = false) ∧ ata h' = ata h
    | S n => Z.land r (Z.lor IDE_BSY IDE_DRDY) ≠ IDE_DRDY ∧ ∃ m, (m ≤ n)%nat ∧ ata h' = ata h <| at_busy := m |>
    end;
  (* a command may take some time *)
  ata_port_out p v h :
    at_busy (ata h) = 0%nat → 0x1f2 ≤ p ≤ 0x1f7 ∨ p = 0x3f6 →
    ∃ n err, (n ≤ ata_patience)%nat ∧ (p ≠ 0x1f7 → n = 0%nat) ∧
      ata (port_out p v h) = ata_out err p v (ata h) <| at_busy := n |>;
  (* a ready disk with data for the driver, or that waits for data *)
  ata_port_inl h w ws :
    at_busy (ata h) = 0%nat → at_phase (ata h) = PIn (w :: ws) →
    (port_inl 0x1f0 h).1 = w ∧
    ata (port_inl 0x1f0 h).2 = ata h <| at_phase := if decide (ws = []) then PIdle else PIn ws |>;
  ata_port_outl h w ws :
    at_busy (ata h) = 0%nat → at_phase (ata h) = POut ws →
    ∃ n err d, (n ≤ ata_patience)%nat ∧ (length ws ≠ 127%nat → n = 0%nat) ∧
      ata (port_outl 0x1f0 w h) = ata_outl err d w (ata h) <| at_busy := n |>
}.

(** The disk takes data right after a write command. *)
Class AtaPrompt `{HW : !Hw} `{AT : !Ata} : Prop :=
  ata_prompt h : at_busy (ata h) = 0%nat → at_busy (ata (port_out 0x1f7 IDE_CMD_WRITE h)) = 0%nat.
(** The disk never fails. *)
Class AtaReliable `{HW : !Hw} `{AT : !Ata} : Prop :=
  ata_reliable h : at_error (ata h) = false.

(** ** Words and bytes *)

Lemma word_bytes_get32 d o :
  block_ok d → (o + 4 ≤ 512)%nat → word_bytes (get32 d o) = take 4 (drop o d).
Proof.
  intros [Hl Hb] Ho. change (Z.to_nat BSIZE) with 512%nat in Hl.
  assert (∀ j, (j < 512)%nat → d !! j = Some (byte_at d j) ∧ is_byte (byte_at d j)) as Hat.
  { intros j Hj. destruct (lookup_lt_is_Some_2 d j ltac:(lia)) as [x Hx]. unfold byte_at. rewrite Hx. split; [done|].
    exact (Forall_lookup_1 _ _ _ _ Hb Hx). }
  assert (take 4 (drop o d) = [byte_at d o; byte_at d (o + 1); byte_at d (o + 2); byte_at d (o + 3)]) as ->.
  { destruct (Hat o ltac:(lia)) as [H0 _], (Hat (o + 1)%nat ltac:(lia)) as [H1 _],
      (Hat (o + 2)%nat ltac:(lia)) as [H2 _], (Hat (o + 3)%nat ltac:(lia)) as [H3 _].
    rewrite (drop_S _ _ _ H0), Nat.add_1_r in *. rewrite (drop_S _ _ _ H1). replace (S (S o)) with (o + 2)%nat by lia.
    rewrite (drop_S _ _ _ H2). replace (S (o + 2)) with (o + 3)%nat by lia. by rewrite (drop_S _ _ _ H3). }
  unfold word_bytes, get32, get16. replace (o + 2 + 1)%nat with (o + 3)%nat by lia.
  pose proof (proj2 (Hat o ltac:(lia))). pose proof (proj2 (Hat (o + 1)%nat ltac:(lia))).
  pose proof (proj2 (Hat (o + 2)%nat ltac:(lia))). pose proof (proj2 (Hat (o + 3)%nat ltac:(lia))). unfold is_byte, u8 in *.
  repeat (f_equal; [Z.div_mod_to_equations; lia|]). f_equal. Z.div_mod_to_equations; lia.
Qed.

Lemma get_words_S d o n : get_words d o (S n) = get32 d o :: get_words d (o + 4) n.
Proof.
  unfold get_words. cbn [seq fmap list_fmap]. rewrite Nat.mul_0_r, Nat.add_0_r. f_equal.
  rewrite <-fmap_S_seq, <-list_fmap_compose. apply list_fmap_ext. intros j x _. unfold compose. f_equal. lia.
Qed.
Lemma words_bytes_from d n : ∀ o,
  block_ok d → (o + 4 * n ≤ 512)%nat → concat (word_bytes <$> get_words d o n) = take (4 * n) (drop o d).
Proof.
  induction n as [|n IH]; intros o Hd Ho; [done|]. rewrite get_words_S, fmap_cons. cbn [concat].
  rewrite word_bytes_get32 by (done || lia). rewrite IH by (done || lia). rewrite <-drop_drop.
  replace (4 * S n)%nat with (4 + 4 * n)%nat by lia. apply take_take_drop.
Qed.
Lemma words_bytes d : block_ok d → concat (word_bytes <$> get_words d 0 128) = d.
Proof. intros Hd. rewrite words_bytes_from by (done || lia). rewrite drop_0. apply take_ge. destruct Hd as [-> _]. done. Qed.

(** ** The accesses of the driver *)

Section polling.
Context `{HW : !Hw} `{AT : !Ata} (polls : nat).
Implicit Types (s : mach) (h : hw).

Lemma hwp_idewait_loop s (Q : Z → hw → Prop) : ∀ fuel n,
  (at_busy (ata (m_hw s)) ≤ n)%nat → (n < fuel)%nat →
  (∀ r h, (Z.land r (Z.lor IDE_DF IDE_ERR) = 0 ↔ at_error (ata (m_hw s)) = false) →
     ata h = ata (m_hw s) <| at_busy := 0%nat |> → Q r h) → hwp (idewait_loop fuel) s Q.
Proof.
  intros fuel. revert s. induction fuel as [|fuel IH]; intros s n Hb Hf HQ; [lia|]. simpl.
  pose proof (ata_status (m_hw s)) as Hst. apply hwp_bind, hwp_ask. destruct (port_in 0x1f7 (m_hw s)) as [r h].
  destruct (at_busy (ata (m_hw s))) as [|b] eqn:Eb; simpl.
  - destruct Hst as (H1 & H2 & H3). rewrite H1. simpl. apply hwp_ret. apply HQ; [done|]. simpl. rewrite H3. destruct (ata (m_hw s)); simpl in *; by subst.
  - destruct Hst as (H1 & m & Hm & H2). rewrite (proj2 (Z.eqb_neq _ _) H1). simpl.
    apply (IH _ (n - 1)%nat); simpl; [rewrite H2; simpl; lia|lia|]. intros r' h' Hr Hh. rewrite H2 in Hr. apply HQ; [done|]. by rewrite Hh, H2.
Qed.
(** With [checkerr] the error of the last command is returned. *)
Lemma hwp_idewait_err c s (Q : Z → hw → Prop) :
  (at_busy (ata (m_hw s)) < polls)%nat →
  (∀ h, ata h = ata (m_hw s) <| at_busy := 0%nat |> → Q (if c && at_error (ata (m_hw s)) then -1 else 0) h) → hwp (idewait polls c) s Q.
Proof.
  intros Hb HQ. apply hwp_bind. eapply hwp_idewait_loop; [done|done|]. intros r h Hr Hh. specialize (HQ h Hh).
  destruct c; simpl; [|by apply hwp_ret].
  destruct (Z.eqb_spec (Z.land r (Z.lor IDE_DF IDE_ERR)) 0) as [E|E], (at_error (ata (m_hw s))); simpl in *; try (by apply hwp_ret).
  - by apply Hr in E.
  - exfalso. by apply E, Hr.
Qed.
End polling.

Section accesses.
Context `{HW : !Hw} `{AT : !Ata} `{RL : !AtaReliable} (polls : nat).
Implicit Types (s : mach) (h : hw).

Lemma hwp_idewait c s (Q : Z → hw → Prop) :
  (at_busy (ata (m_hw s)) < polls)%nat → (∀ h, ata h = ata (m_hw s) <| at_busy := 0%nat |> → Q 0 h) → hwp (idewait polls c) s Q.
Proof.
  intros Hb HQ. apply hwp_idewait_err; [done|]. intros h Hh. rewrite ata_reliable, andb_false_r. by apply HQ.
Qed.

Lemma ata_out_reliable p v n err h h' :
  ata h' = ata_out err p v (ata h) <| at_busy := n |> → ata h' = ata_out false p v (ata h) <| at_busy := n |>.
Proof.
  intros H. destruct err; [|done]. pose proof (ata_reliable h') as He. rewrite H in He |- *.
  revert He. unfold ata_out. by repeat (case_match; try done).
Qed.

Lemma hwp_outb p v s (Q : unit → hw → Prop) :
  at_busy (ata (m_hw s)) = 0%nat → 0x1f2 ≤ p ≤ 0x1f7 ∨ p = 0x3f6 →
  (∀ h n, (n ≤ ata_patience)%nat → (p ≠ 0x1f7 → n = 0%nat) → h = port_out p (u8 v) (m_hw s) →
    ata h = ata_out false p (u8 v) (ata (m_hw s)) <| at_busy := n |> → Q tt h) →
  hwp (outb p v) s Q.
Proof.
  intros Hb Hp HQ. apply hwp_tell. destruct (ata_port_out p (u8 v) (m_hw s) Hb Hp) as (n & err & Hn & H0 & Hr).
  apply ata_out_reliable in Hr. eauto.
Qed.

(** The registers other than the command. *)
Lemma hwp_reg p v s (Q : unit → hw → Prop) :
  at_busy (ata (m_hw s)) = 0%nat → 0x1f2 ≤ p ≤ 0x1f6 ∨ p = 0x3f6 →
  (∀ h, ata h = ata_out false p (u8 v) (ata (m_hw s)) → at_busy (ata h) = 0%nat → Q tt h) → hwp (outb p v) s Q.
Proof.
  intros Hb Hp HQ. apply hwp_outb; [done|lia|]. intros h n _ Hn _ Hh. rewrite Hn in Hh by lia. apply HQ; [|by rewrite Hh].
  rewrite Hh. unfold ata_out. rewrite (proj2 (Z.eqb_neq p 0x1f7)) by lia. destruct (ata (m_hw s)). simpl in Hb. subst. by repeat case_match.
Qed.

Lemma hwp_insl ws : ∀ s (Q : list Z → hw → Prop),
  at_busy (ata (m_hw s)) = 0%nat → at_phase (ata (m_hw s)) = (if decide (ws = []) then PIdle else PIn ws) →
  (∀ h, ata h = ata (m_hw s) <| at_phase := PIdle |> → Q (concat (word_bytes <$> ws)) h) → hwp (insl 0x1f0 (length ws)) s Q.
Proof.
  induction ws as [|w ws IH]; intros s Q Hb Hp HQ; simpl.
  - apply hwp_ret, HQ. destruct (ata (m_hw s)); simpl in *; by subst.
  - destruct (ata_port_inl (m_hw s) w ws Hb Hp) as [H1 H2]. apply hwp_bind, hwp_ask. rewrite H1. apply hwp_bind.
    apply IH; simpl; [by rewrite H2|by rewrite H2|]. intros h Hh. apply hwp_ret, HQ. simpl. rewrite Hh, H2. done.
Qed.

Lemma ata_store_busy d n a : ata_store d a <| at_busy := n |> = ata_store d (a <| at_busy := n |>).
Proof.
  unfold ata_store. change (ata_second (a <| at_busy := n |>)) with (ata_second a).
  change (ata_sector (a <| at_busy := n |>)) with (ata_sector a). by destruct (ata_second a).
Qed.

Lemma ata_store_error d a : at_error (ata_store d a) = at_error a.
Proof. unfold ata_store. by destruct (ata_second a). Qed.

Lemma ata_last_word h w ws :
  at_busy (ata h) = 0%nat → at_phase (ata h) = POut ws →
  ∃ n, (n ≤ ata_patience)%nat ∧ (length ws ≠ 127%nat → n = 0%nat) ∧
    ata (port_outl 0x1f0 w h) =
    (if (length ws =? 127)%nat then ata_store (concat (word_bytes <$> (ws ++ [w]))) (ata h <| at_phase := PIdle |>)
     else ata h <| at_phase := POut (ws ++ [w]) |>) <| at_busy := n |>.
Proof.
  intros Hb Hp. destruct (ata_port_outl h w ws Hb Hp) as (n & err & d & Hn & H0 & Hr). exists n. split_and!; [done|done|].
  pose proof (ata_reliable (port_outl 0x1f0 w h)) as He. pose proof (ata_reliable h) as Hh.
  rewrite Hr in He |- *. revert He. unfold ata_outl. rewrite Hp. destruct (length ws =? 127)%nat; [|done]. intros He.
  change (at_error (ata_store (if err then d else concat (word_bytes <$> (ws ++ [w]))) (ata h <| at_error := err |> <| at_phase := PIdle |>)) = false) in He.
  rewrite ata_store_error in He. simpl in He. subst err. f_equal. destruct (ata h). simpl in *. by subst.
Qed.

Lemma hwp_outsl ws : ∀ s pre (Q : unit → hw → Prop),
  at_busy (ata (m_hw s)) = 0%nat → at_phase (ata (m_hw s)) = POut pre → (length pre + length ws = 128)%nat → ws ≠ [] →
  (∀ h n, (n ≤ ata_patience)%nat →
    ata h = ata_store (concat (word_bytes <$> (pre ++ ws))) (ata (m_hw s) <| at_phase := PIdle |> <| at_busy := n |>) → Q tt h) →
  hwp (for_each ws (λ w, tell (port_outl 0x1f0 w))) s Q.
Proof.
  induction ws as [|w ws IH]; intros s pre Q Hb Hp Hl Hne HQ; [done|]. simpl in *.
  destruct (ata_last_word (m_hw s) w pre Hb Hp) as (n & Hn & H0 & Hr).
  apply hwp_bind, hwp_tell. destruct ws as [|w' ws].
  - simpl in *. rewrite (proj2 (Nat.eqb_eq _ _)) in Hr by lia. apply hwp_ret. apply (HQ _ n); [done|]. simpl. rewrite Hr.
    exact (ata_store_busy _ n (ata (m_hw s) <| at_phase := PIdle |>)).
  - rewrite (proj2 (Nat.eqb_neq _ _)) in Hr by (simpl in Hl; lia). rewrite H0 in Hr by (simpl in Hl; lia).
    apply (IH _ (pre ++ [w])); [simpl; by rewrite Hr|simpl; by rewrite Hr|rewrite length_app; simpl in *; lia|done|].
    intros h n' Hn' Hh. apply (HQ h n'); [done|]. rewrite <-app_assoc in Hh. rewrite Hh. simpl. rewrite Hr. simpl. done.
Qed.
End accesses.

(** ** Starting a request *)

(** The disk a buffer is for. *)
Definition second_disk (x : buf) : bool := Z.odd (b_dev x).
Definition disk_of (d : bool) (a : atast) : list (list Z) := if d then at_disk1 a else at_disk0 a.
Definition dirty (x : buf) : bool := truthy (Z.land (b_flags x) B_DIRTY).

(** The disk works on the request [x], from the contents [a0] on: a write is
    done, and the block of a read waits in the data register. *)
Record serving `{HW : !Hw} `{AT : !Ata} (x : buf) (a0 a : atast) : Prop := {
  sv_busy : (at_busy a ≤ ata_patience)%nat;
  sv_phase : at_phase a = if dirty x then PIdle else PIn (get_words (blk_at (disk_of (second_disk x) a0) (b_blockno x)) 0 128);
  sv_disk : disk_of (second_disk x) a = if dirty x then set_blk (disk_of (second_disk x) a0) (b_blockno x) (b_data x) else disk_of (second_disk x) a0;
  sv_other : disk_of (negb (second_disk x)) a = disk_of (negb (second_disk x)) a0
}.

Lemma drive_byte dev : u8 (Z.lor (Z.lor 0xe0 (Z.shiftl (Z.land dev 1) 4)) 0) = if Z.odd dev then 0xf0 else 0xe0.
Proof.
  assert (Z.land dev 1 = dev mod 2) as -> by (change 1 with (Z.ones 1); by apply Z.land_ones).
  rewrite Zmod_odd. by destruct (Z.odd dev).
Qed.

Lemma ata_out_read a :
  ata_out false 0x1f7 (u8 IDE_CMD_READ) a = a <| at_error := false |> <| at_phase := PIn (get_words (blk_at (ata_disk a) (Z.of_nat (ata_sector a))) 0 128) |>.
Proof. reflexivity. Qed.
Lemma ata_out_write a : ata_out false 0x1f7 (u8 IDE_CMD_WRITE) a = a <| at_error := false |> <| at_phase := POut [] |>.
Proof. reflexivity. Qed.

Section start.
Context `{HW : !Hw} `{AT : !Ata} `{RL : !AtaReliable} `{PR : !AtaPrompt} (polls : nat) (Hpolls : (ata_patience < polls)%nat).
Implicit Types (s : mach) (h : hw).

Lemma hwp_get_buf b x s (Q : buf → hw → Prop) : k_bcache (m_k s) !! b = Some x → Q x (m_hw s) → hwp (kern (get_buf b)) s Q.
Proof.
  intros Hx HQ. exists x, (m_hw s). split; [|done]. unfold kern, get_buf, bind, gets, get_or. rewrite Hx. simpl. by destruct s.
Qed.

(** The registers after the sector number is set. *)
Lemma sector_regs blockno :
  0 ≤ blockno < 1000 →
  let r i := u8 (Z.land (Z.shiftr blockno i) 0xff) in
  r 0 + 256 * r 8 + 65536 * r 16 = blockno ∧ Z.land (Z.shiftr blockno 24) 0x0f = 0.
Proof.
  intros Hb. cbv beta zeta. change 0xff with (Z.ones 8). rewrite !Z.land_ones by lia. rewrite !Z.shiftr_div_pow2 by lia.
  change 0x0f with (Z.ones 4). rewrite Z.land_ones by lia.
  change (2 ^ 0) with 1. change (2 ^ 8) with 256. change (2 ^ 16) with 65536. change (2 ^ 24) with 16777216. change (2 ^ 4) with 16.
  unfold u8. Z.div_mod_to_equations; lia.
Qed.

Lemma hwp_idestart b x s (Q : unit → hw → Prop) :
  k_bcache (m_k s) !! b = Some x → 0 ≤ b_blockno x < 1000 → block_ok (b_data x) →
  (at_busy (ata (m_hw s)) ≤ ata_patience)%nat →
  (∀ h, serving x (ata (m_hw s)) (ata h) → Q tt h) → hwp (idestart polls (Some b)) s Q.
Proof.
  intros Hx Hbn Hd Hbusy HQ. unfold idestart. apply hwp_bind, (hwp_get_buf _ x); [done|].
  rewrite (proj2 (Z.leb_gt _ _)) by (unfold Mkfs.FSSIZE; lia). change (BSIZE / SECTOR_SIZE) with 1.
  change (7 <? 1) with false. change (1 =? 1) with true. cbv iota zeta.
  assert (s32 (b_blockno x * 1) = b_blockno x) as -> by (unfold s32; rewrite Z.mul_1_r, Z.mod_small; lia).
  destruct (sector_regs (b_blockno x) Hbn) as [Hsec ->]. set (a0 := ata (m_hw s)) in *.
  apply hwp_bind, hwp_idewait; [simpl; fold a0; lia|]. intros h0 H0. simpl in H0. fold a0 in H0.
  assert (at_busy (ata h0) = 0%nat) as B0 by by rewrite H0.
  do 6 (apply hwp_bind, hwp_reg; [simpl; assumption|lia|];
    let h := fresh "h" in let H := fresh "Hr" in let B := fresh "B" in intros h H B; simpl in H).
  rewrite H0 in Hr. rewrite Hr in Hr0. rewrite Hr0 in Hr1. rewrite Hr1 in Hr2. rewrite Hr2 in Hr3. rewrite Hr3 in Hr4. simpl in Hr4.
  rewrite drive_byte in Hr4. clear Hr Hr0 Hr1 Hr2 Hr3.
  assert (ata_second (ata h5) = second_disk x ∧ ata_sector (ata h5) = Z.to_nat (b_blockno x) ∧
    at_disk0 (ata h5) = at_disk0 a0 ∧ at_disk1 (ata h5) = at_disk1 a0) as (S1 & S2 & S3 & S4).
  { rewrite Hr4. split_and!; [|unfold ata_sector|done|done].
    - unfold ata_second, second_disk. simpl. by destruct (Z.odd (b_dev x)).
    - simpl. f_equal. rewrite Z.shiftr_0_r in Hsec. assert ((if Z.odd (b_dev x) then 0xf0 else 0xe0) mod 16 = 0) as -> by by destruct (Z.odd (b_dev x)).
      lia. }
  fold (dirty x). destruct (dirty x) eqn:Edir.
  - apply hwp_bind, hwp_outb; [simpl; assumption|lia|]. intros h6 n6 Hn6 _ E6 H6.
    assert (n6 = 0%nat) as ->.
    { pose proof (ata_prompt h5 B5) as Hpr. change IDE_CMD_WRITE with (u8 IDE_CMD_WRITE) in Hpr. simpl in E6. rewrite <-E6, H6 in Hpr. exact Hpr. }
    rewrite ata_out_write in H6. simpl in H6.
    unfold outsl. apply (hwp_outsl _ _ []); [simpl; by rewrite H6|simpl; by rewrite H6|done|done|]. intros h7 n7 Hn7 H7. apply HQ. rewrite app_nil_l, words_bytes in H7 by done.
    simpl in H7. rewrite H6 in H7. unfold ata_store in H7.
    change (ata_second _) with (ata_second (ata h5)) in H7. change (ata_sector _) with (ata_sector (ata h5)) in H7. rewrite S1, S2 in H7. simpl in H7.
    rewrite H7, S3, S4. unfold set_blk. split; rewrite ?Edir; by destruct (second_disk x).
  - apply hwp_outb; [simpl; assumption|lia|]. intros h6 n6 Hn6 _ _ H6. rewrite ata_out_read in H6. simpl in H6. apply HQ. rewrite H6.
    unfold ata_disk. rewrite S1, S2, S3, S4, Z2Nat.id by lia. split; rewrite ?Edir; by destruct (second_disk x).
Qed.
End start.

(** ** The queue *)

(** The links from [hd] on are the buffers [q]. *)
Fixpoint chained (qn : list (option nat)) (hd : option nat) (q : list nat) : Prop :=
  match q with
  | [] => hd = None
  | b :: q' => hd = Some b ∧ ∃ n, qn !! b = Some n ∧ chained qn n q'
  end.
Lemma chained_insert qn hd q b v : b ∉ q → chained qn hd q → chained (<[b := v]> qn) hd q.
Proof.
  revert hd. induction q as [|x q IH]; intros hd Hb H; simpl in *; [done|]. destruct H as (-> & n & Hn & Hq).
  apply not_elem_of_cons in Hb as [Hne Hb]. split; [done|]. exists n. rewrite list_lookup_insert_ne by done. eauto.
Qed.

Lemma chained_lookup qn hd q b : chained qn hd q → b ∈ q → is_Some (qn !! b).
Proof.
  revert hd. induction q as [|x q IH]; intros hd H Hb; [by apply elem_of_nil in Hb|]. destruct H as (_ & n & Hn & Hq).
  apply elem_of_cons in Hb as [->|Hb]; eauto.
Qed.
(** Hanging [b] behind the last buffer [x]. *)
Lemma chained_snoc qn hd l x b :
  NoDup (l ++ [x; b]) → chained qn hd (l ++ [x]) → qn !! b = Some None → chained (<[x := Some b]> qn) hd (l ++ [x; b]).
Proof.
  revert hd. induction l as [|y l IH]; intros hd Hnd H Hb; simpl in *.
  - destruct H as (-> & n & Hn & ->). apply NoDup_cons in Hnd as [Hx _]. rewrite list_elem_of_singleton in Hx.
    split; [done|]. exists (Some b). rewrite list_lookup_insert_eq by by eapply lookup_lt_Some. split; [done|].
    split; [done|]. exists None. by rewrite list_lookup_insert_ne by done.
  - destruct H as (-> & n & Hn & Hq). apply NoDup_cons in Hnd as [Hy Hnd]. split; [done|]. exists n.
    rewrite list_lookup_insert_ne; [eauto|]. intros ->. apply Hy, elem_of_app. right. left.
Qed.

(** A buffer that is to be read or written. *)
Record request (x : buf) : Prop := {
  rq_block : 0 ≤ b_blockno x < 1000;
  rq_data : block_ok (b_data x);
  rq_flags : Z.land (b_flags x) (Z.lor B_VALID B_DIRTY) ≠ B_VALID
}.
Definition disks_ok (a : atast) : Prop :=
  ∀ d, length (disk_of d a) = 1000%nat ∧ ∀ b, 0 ≤ b < 1000 → block_ok (blk_at (disk_of d a) b).

(** What a request leaves in its buffer, [d] the block on the disk. *)
Definition served (d : list Z) (x : buf) : buf :=
  x <| b_data := if dirty x then b_data x else d |> <| b_flags := Z.ldiff (Z.lor (b_flags x) B_VALID) B_DIRTY |>.

Lemma serving_disks_ok `{HW : !Hw} `{AT : !Ata} x a0 a : request x → disks_ok a0 → serving x a0 a → disks_ok a.
Proof.
  intros [R1 R2 _] Hd [_ _ S1 S2].
  assert (∀ d, d = second_disk x ∨ d = negb (second_disk x)) as Hcase by (intros []; destruct (second_disk x); auto).
  intros d. destruct (Hcase d) as [->| ->].
  - rewrite S1. destruct (Hd (second_disk x)) as [Hl Hb]. destruct (dirty x); [|done]. unfold set_blk. rewrite length_insert.
    split; [done|]. intros b Hr. change (<[_:=_]> _) with (set_blk (disk_of (second_disk x) a0) (b_blockno x) (b_data x)).
    rewrite blk_at_set by (rewrite ?Hl; lia). case_decide; [done|by apply Hb].
  - rewrite S2. apply Hd.
Qed.

Section queue.
Context `{HW : !Hw} `{AT : !Ata} `{RL : !AtaReliable} `{PR : !AtaPrompt} (polls : nat) (Hpolls : (ata_patience < polls)%nat).
Implicit Types (s : mach) (h : hw).

(** The queue is [q]; [a0] is the disk before the request at its head. *)
Record queued s (q : list nat) (a0 : atast) : Prop := {
  qd_links : chained (m_qnext s) (m_idequeue s) q;
  qd_nodup : NoDup q;
  qd_bufs b : b ∈ q → ∃ x, k_bcache (m_k s) !! b = Some x ∧ request x;
  qd_disks : disks_ok a0;
  qd_head : match q with
            | [] => (at_busy (ata (m_hw s)) ≤ ata_patience)%nat ∧ at_phase (ata (m_hw s)) = PIdle ∧ ata (m_hw s) = a0
            | b :: _ => ∃ x, k_bcache (m_k s) !! b = Some x ∧ serving x a0 (ata (m_hw s))
            end
}.

(** The data phase of the interrupt handler. *)
Lemma wp_read_data b x a0 s (Q : unit → mach → Prop) :
  k_bcache (m_k s) !! b = Some x → request x → disks_ok a0 → serving x a0 (ata (m_hw s)) →
  (∀ h, (at_busy (ata h) ≤ ata_patience)%nat → at_phase (ata h) = PIdle → (∀ d, disk_of d (ata h) = disk_of d (ata (m_hw s))) →
    Q tt (s <| m_hw := h |> <| m_k := m_k s <| k_bcache := <[b := x <| b_data := if dirty x then b_data x else blk_at (disk_of (second_disk x) a0) (b_blockno x) |>]> (k_bcache (m_k s)) |> |>)) →
  wp (if negb (truthy (Z.land (b_flags x) B_DIRTY)) then
         r ← idewait polls true;
         when (0 <=? r) (bs ← insl 0x1f0 (Z.to_nat (BSIZE / 4)); kern (upd_data b (λ _, bs)))
       else ret tt) Q s.
Proof.
  intros Hx [R1 R2 R3] Hd [S1 S2 S3 S4] HQ. fold (dirty x). destruct (dirty x) eqn:E; simpl.
  - apply wp_ret. specialize (HQ (m_hw s) S1 S2 (λ _, eq_refl)).
    replace (x <| b_data := b_data x |>) with x in HQ by by destruct x. rewrite list_insert_id in HQ by done.
    destruct s as [k]. by destruct k.
  - set (d := blk_at (disk_of (second_disk x) a0) (b_blockno x)) in *. assert (block_ok d) as Hdok by (apply Hd; lia).
    apply wp_bind. destruct (hwp_idewait polls true s (λ r h, r = 0 ∧ ata h = ata (m_hw s) <| at_busy := 0%nat |>)) as (r & h & Hr & -> & Hh); [lia|by auto|].
    eapply wp_of_eq; [exact Hr|]. simpl. apply wp_bind.
    destruct (hwp_insl (get_words d 0 128) (s <| m_hw := h |>) (λ bs h', bs = d ∧ ata h' = ata h <| at_phase := PIdle |>)) as (bs & h' & Hr' & -> & Hh').
    { simpl. by rewrite Hh. } { simpl. by rewrite Hh. } { intros h' Hh'. by rewrite words_bytes. }
    change (length (get_words d 0 128)) with (Z.to_nat (BSIZE / 4)) in Hr'. eapply wp_of_eq; [exact Hr'|].
    eapply wp_of_eq; [eapply kern_ret; [reflexivity|]; unfold upd_data, upd_buf, modify; reflexivity|]. simpl.
    rewrite (alter_lookup _ _ _ _ Hx). apply HQ; rewrite ?Hh', ?Hh; simpl; [lia|done|by intros []].
Qed.

Lemma wp_kern_ret {A} (m : K A) (Q : A → mach → Prop) s k0 a k :
  m_k s = k0 → m k0 = Ret a k → Q a (s <| m_k := k |>) → wp (kern m) Q s.
Proof. intros H1 H2 HQ. eapply wp_of_eq; [by eapply kern_ret|done]. Qed.
Lemma upd_buf_ret b f x k : k_bcache k !! b = Some x → upd_buf b f k = Ret tt (k <| k_bcache := <[b := f x]> (k_bcache k) |>).
Proof. intros Hx. unfold upd_buf, modify. by rewrite (alter_lookup _ _ _ _ Hx). Qed.

(** Finishing the request at the head: the flags, the sleepers, the next request
    and the lock. *)
Lemma wp_finish i c b x x1 q n s0 s (Q : unit → mach → Prop) :
  let k := m_k s0 in
  table_ready k i c → lock_free LIde k →
  m_k s = locked_by LIde i c k <| k_bcache := <[b := x1]> (k_bcache k) |> → k_bcache k !! b = Some x →
  m_idequeue s = n → (n = None ∧ q = [] ∨ ∃ b', n = Some b' ∧ head q = Some b') →
  b_flags x1 = b_flags x → b ∉ q → (∀ b', b' ∈ q → ∃ y, k_bcache k !! b' = Some y ∧ request y) →
  (at_busy (ata (m_hw s)) ≤ ata_patience)%nat →
  (∀ h, (match q with
         | [] => h = m_hw s
         | b' :: _ => ∃ y, k_bcache k !! b' = Some y ∧ serving y (ata (m_hw s)) (ata h)
         end) →
    Q tt (s <| m_hw := h |> <| m_k := k <| k_bcache := <[b := x1 <| b_flags := Z.ldiff (Z.lor (b_flags x) B_VALID) B_DIRTY |>]> (k_bcache k) |>
       <| k_proc := wake (Some (ChBufIO b)) (k_ticks k) <$> k_proc k |> |>)) →
  wp (kern (upd_buf b (λ x, x <| b_flags := Z.lor (b_flags x) B_VALID |>)) ;;
      kern (upd_buf b (λ x, x <| b_flags := Z.ldiff (b_flags x) B_DIRTY |>)) ;;
      kern (wakeup (ChBufIO b)) ;;
      q ← gets m_idequeue;
      when (bool_decide (is_Some q)) (idestart polls q) ;;
      kern (release LIde)) Q s.
Proof.
  intros k Htab Hfree Hk Hx Hn Hq Hfl Hb Hbufs Hbusy HQ. assert (b < length (k_bcache k))%nat as Hbl by by eapply lookup_lt_Some.
  apply wp_bind. eapply wp_kern_ret; [exact Hk|apply (upd_buf_ret _ _ x1); simpl; by apply list_lookup_insert_eq|].
  apply wp_bind. eapply wp_kern_ret; [reflexivity|eapply upd_buf_ret; simpl; apply list_lookup_insert_eq; by rewrite length_insert|].
  apply wp_bind. eapply wp_kern_ret; [reflexivity|apply (wakeup_ret _ _ i (c <| c_ncli := c_ncli c + 1 |>))|].
  { destruct (table_ready_locked LIde k i c Htab ltac:(done)) as [T1 T2 T3]. split; [by eapply on_cpu_ext|done|done]. }
  apply wp_bind, wp_gets. simpl. rewrite !list_insert_insert_eq, Hfl, Hn.
  assert (∀ h, (match q with
         | [] => h = m_hw s
         | b' :: _ => ∃ y, k_bcache k !! b' = Some y ∧ serving y (ata (m_hw s)) (ata h)
         end) → wp (kern (release LIde)) Q (s <| m_hw := h |> <| m_k := locked_by LIde i c k
            <| k_bcache := <[b := x1 <| b_flags := Z.ldiff (Z.lor (b_flags x) B_VALID) B_DIRTY |>]> (k_bcache k) |>
            <| k_proc := wake (Some (ChBufIO b)) (k_ticks k) <$> k_proc k |> |>)) as Hrel.
  { intros h Hh. destruct Htab as [T1 T2 T3]. eapply wp_kern_ret; [reflexivity|by apply (release_ret LIde k i c)|].
    specialize (HQ h Hh). destruct k. exact HQ. }
  destruct s as [mk mh ms mu ml mi mid md miq mq]. cbn [m_idequeue] in Hn. subst miq.
  apply wp_bind. destruct Hq as [[-> ->]|(b' & -> & Hhd)]; simpl.
  - apply wp_ret. exact (Hrel mh eq_refl).
  - destruct q as [|b'' q]; [done|]. injection Hhd as ->. destruct (Hbufs b' ltac:(left)) as (y & Hy & [R1 R2 R3]).
    apply not_elem_of_cons in Hb as [Hne _].
    match goal with |- wp _ _ ?st =>
      destruct (hwp_idestart polls Hpolls b' y st (λ _ h, serving y (ata mh) (ata h))) as ([] & h & Hr & Hh) end;
      [simpl; by rewrite list_lookup_insert_ne|done|done|done|done|].
    eapply wp_of_eq; [exact Hr|]. apply (Hrel h). eauto.
Qed.

Lemma ideintr_ret i c s b x q a0 :
  table_ready (m_k s) i c → lock_free LIde (m_k s) → queued s (b :: q) a0 → k_bcache (m_k s) !! b = Some x →
  ∃ s' a1, ideintr polls s = Ret tt s' ∧ (∀ d, disk_of d a1 = disk_of d (ata (m_hw s))) ∧ queued s' q a1 ∧
    m_k s' = m_k s <| k_bcache := <[b := served (blk_at (disk_of (second_disk x) a0) (b_blockno x)) x]> (k_bcache (m_k s)) |>
                   <| k_proc := wake (Some (ChBufIO b)) (k_ticks (m_k s)) <$> k_proc (m_k s) |>.
Proof.
  intros Htab Hfree [Q1 Q2 Q3 Q4 Q5] Hx. destruct Q1 as (Hhd & n & Hn & Hq). apply NoDup_cons in Q2 as [Hb Hnd].
  destruct (Q3 b ltac:(left)) as (x1 & Hx1 & Hrq). assert (x1 = x) as -> by congruence.
  destruct Q5 as (x2 & Hx2 & Hsv). assert (x2 = x) as -> by congruence.
  pose proof (serving_disks_ok _ _ _ Hrq Q4 Hsv) as Hdok. set (d := blk_at (disk_of (second_disk x) a0) (b_blockno x)).
  assert (wp (ideintr polls) (λ _ s', ∃ a1, (∀ d, disk_of d a1 = disk_of d (ata (m_hw s))) ∧ queued s' q a1 ∧
    m_k s' = m_k s <| k_bcache := <[b := served d x]> (k_bcache (m_k s)) |>
                   <| k_proc := wake (Some (ChBufIO b)) (k_ticks (m_k s)) <$> k_proc (m_k s) |>) s) as Hwp.
  2: { apply wp_run in Hwp as ([] & s' & Hr & a1 & H). eauto. }
  unfold ideintr. apply wp_bind. eapply wp_kern_ret; [reflexivity|by apply acquire_ret, Hfree; apply Htab|].
  apply wp_bind, wp_gets. simpl m_idequeue. rewrite Hhd. apply wp_bind. eapply wp_of_eq; [unfold qnext, bind, gets, get_or; simpl; by rewrite Hn|].
  apply wp_bind, wp_modify. apply wp_bind. eapply wp_kern_ret; [reflexivity|unfold get_buf, bind, gets, get_or; simpl; by rewrite Hx|].
  apply wp_bind. eapply (wp_read_data b x a0); [done|done|done|done|]. intros h Hbusy Hph Hdk.
  eapply (wp_finish i c b x _ q n s); [done|done|done|done|done| |done|done| |done|].
  { destruct q as [|b' q]; [left; done|right]. destruct Hq as [-> _]. by exists b'. }
  { intros b' Hb'. apply Q3. by right. }
  intros h' Hh'. exists (ata h). split; [done|]. split; [|done].
  assert (disks_ok (ata h)) as Hok by (intros d'; rewrite Hdk; apply Hdok).
  split; [exact Hq|done| |done|].
  - intros b' Hb'. destruct (Q3 b' ltac:(by right)) as (y & Hy & Hry). exists y. simpl. rewrite list_lookup_insert_ne by (intros ->; done). done.
  - destruct q as [|b' q]; simpl in *; [subst h'; done|]. destruct Hh' as (y & Hy & Hsy). exists y.
    rewrite list_lookup_insert_ne; [done|]. intros ->. apply Hb. left.
Qed.

(** Appending to the queue. *)
Lemma last_link_ret q : ∀ fuel pp hd s,
  load_link pp s = Ret hd s → chained (m_qnext s) hd q → (length q < fuel)%nat →
  ∃ pp', last_link fuel pp s = Ret pp' s ∧ (q = [] → pp' = pp) ∧ ∀ l x, q = l ++ [x] → pp' = Some x.
Proof.
  induction q as [|b q IH]; intros [|fuel] pp hd s Hl Hc Hf; simpl in Hf; try lia; simpl; rewrite (bind_ret_eq _ _ _ _ _ Hl).
  - simpl in Hc. subst hd. exists pp. split_and!; [done|done|]. intros l x E. by destruct l.
  - destruct Hc as (-> & n & Hn & Hq). destruct (IH fuel (Some b) n s) as (pp' & H1 & H2 & H3); [|done|lia|].
    { simpl. unfold qnext, bind, gets, get_or. by rewrite Hn. }
    exists pp'. split_and!; [done|done|]. intros [|y l] x E; simplify_eq/=; [by apply H2|]. by apply (H3 l).
Qed.
Lemma wp_append b q a0 s (Q : unit → mach → Prop) :
  queued s q a0 → b ∉ q → (length q < S NBUF)%nat → (b < length (m_qnext s))%nat →
  (∀ s', s' = s <| m_idequeue := m_idequeue s' |> <| m_qnext := m_qnext s' |> → chained (m_qnext s') (m_idequeue s') (q ++ [b]) → Q tt s') →
  wp (set_qnext b None ;; pp ← last_link (S NBUF) None; store_link pp (Some b)) Q s.
Proof.
  intros [Q1 Q2 Q3 Q4 Q5] Hb Hl Hbl HQ. apply wp_bind, wp_modify. set (s1 := s <| m_qnext := _ |>).
  assert (chained (m_qnext s1) (m_idequeue s1) q) as Hc by by apply chained_insert.
  assert (m_qnext s1 !! b = Some None) as Hbn by (simpl; by apply list_lookup_insert_eq).
  destruct (last_link_ret q (S NBUF) None (m_idequeue s1) s1 eq_refl Hc Hl) as (pp & H1 & H2 & H3).
  apply wp_bind. eapply wp_of_eq; [exact H1|]. clear H1. destruct q as [|y q _] using rev_ind.
  - rewrite (H2 eq_refl). apply wp_modify. apply HQ; [done|]. simpl. split; [done|]. by exists None.
  - rewrite (H3 q y eq_refl). apply wp_modify. apply HQ; [done|]. rewrite <-app_assoc. apply chained_snoc; [|done|done].
    change [y; b] with ([y] ++ [b]). rewrite app_assoc. apply NoDup_app. split_and!; [done| |apply NoDup_singleton].
    intros z Hz Hzb%list_elem_of_singleton. by subst.
Qed.

(** Programs that end by giving up the processor. *)
Definition wsw {A} (m : D A) (Q : mach → Prop) s : Prop := match m s with Switch s' => Q s' | _ => False end.
Lemma wsw_bind {A B} (m : D A) (f : A → D B) Q s : wp m (λ a s', wsw (f a) Q s') s → wsw (bind m f) Q s.
Proof. unfold wp, wsw, bind. by destruct (m s). Qed.
Lemma wsw_bind3 {A B C} (m1 : D A) (m2 : D B) (m3 : B → D unit) (f : D C) Q s :
  wp (m1 ;; x ← m2; m3 x) (λ _ s', wsw f Q s') s → wsw (m1 ;; x ← m2; m3 x ;; f) Q s.
Proof. unfold wp, wsw, bind. destruct (m1 s) as [a s1| | | |]; try done. destruct (m2 s1) as [b s2| | | |]; try done. by destruct (m3 b s2). Qed.

Lemma queue_short s q a0 b :
  queued s q a0 → b ∉ q → length (k_bcache (m_k s)) = S NBUF → (b < S NBUF)%nat → (length q < S NBUF)%nat.
Proof.
  intros [_ Hnd Hbufs _ _] Hb Hl Hbl. assert (length (b :: q) ≤ length (seq 0 (S NBUF)))%nat as H.
  { apply submseteq_length, NoDup_submseteq; [by constructor|]. intros y Hy. apply elem_of_seq. split; [lia|].
    apply elem_of_cons in Hy as [->|Hy]; [done|]. destruct (Hbufs y Hy) as (x & Hx & _). apply lookup_lt_Some in Hx. lia. }
  rewrite length_seq in H. simpl in H. lia.
Qed.

Lemma iderw_ret i c me pid p s b x q a0 :
  bio_env i c me pid (m_k s) → c_ncli c = 0 → lock_free LIde (m_k s) → k_proc (m_k s) !! me = Some p →
  k_slocks (m_k s) !! LBuf b = Some (mkSleeplock 1 pid) → (b < NBUF)%nat →
  length (k_bcache (m_k s)) = S NBUF → length (m_qnext s) = S NBUF →
  k_bcache (m_k s) !! b = Some x → request x → b_dev x = 0 ∨ m_havedisk1 s ≠ 0 → queued s q a0 → b ∉ q →
  ∃ s', iderw polls b s = Switch s' ∧ queued s' (q ++ [b]) a0 ∧ k_bcache (m_k s') = k_bcache (m_k s) ∧
    k_proc (m_k s') = <[me := asleep (ChBufIO b) p]> (k_proc (m_k s)).
Proof.
  intros He Hncli Hfree Hp Hsl Hb Hbl Hql Hx Hrq Hdev Hqd Hbq.
  assert (wsw (iderw polls b) (λ s', queued s' (q ++ [b]) a0 ∧ k_bcache (m_k s') = k_bcache (m_k s) ∧
    k_proc (m_k s') = <[me := asleep (ChBufIO b) p]> (k_proc (m_k s))) s) as Hw.
  2: { unfold wsw in Hw. destruct (iderw polls b s) as [|s'| | |]; try done. by exists s'. }
  unfold iderw. apply wsw_bind. eapply wp_kern_ret; [reflexivity|by eapply holdingsleep_ret|]. cbn [negb].
  apply wsw_bind. eapply wp_kern_ret; [reflexivity|unfold get_buf, bind, gets, get_or; simpl; by rewrite Hx|].
  apply wsw_bind, wp_gets. rewrite (proj2 (Z.eqb_neq _ _)) by apply Hrq.
  assert (negb (b_dev x =? 0) && negb (truthy (m_havedisk1 s)) = false) as E.
  { destruct Hdev as [->|Hd]; [done|]. apply andb_false_iff. right. by rewrite (proj2 (truthy_true _) Hd). }
  simpl m_havedisk1. rewrite E. pose proof He as [Hcpu Hpr Hpid Hlen Hbc Hpt Hbf].
  apply wsw_bind. eapply wp_kern_ret; [reflexivity|by apply acquire_ret|].
  match goal with |- wsw _ _ ?st => set (s1 := st) end.
  assert (queued s1 q a0) as Hqd1 by (destruct Hqd; split; done).
  apply wsw_bind3. apply (wp_append b q a0); [done|done|apply (queue_short s1 q a0 b); [exact Hqd1|exact Hbq|exact Hbl|lia]|change (m_qnext s1) with (m_qnext s); lia|]. intros s2 Hs2 Hch.
  assert (m_hw s2 = m_hw s ∧ m_k s2 = m_k s1) as [Hhw Hk2] by (rewrite Hs2; done).
  assert (k_bcache (m_k s2) = k_bcache (m_k s)) as Hbc2 by by rewrite Hk2.
  assert (NoDup (q ++ [b])) as Hnd.
  { apply NoDup_app. split_and!; [apply Hqd| |apply NoDup_singleton]. intros z Hz Hzb%list_elem_of_singleton. by subst. }
  assert (∀ b', b' ∈ q ++ [b] → ∃ y, k_bcache (m_k s) !! b' = Some y ∧ request y) as Hbufs.
  { intros b' [Hb'|Hb'%list_elem_of_singleton]%elem_of_app; [by apply Hqd|]. subst. eauto. }
  assert (∀ s3, s3 = s2 <| m_hw := m_hw s3 |> →
    (∃ y, head (q ++ [b]) ≫= (k_bcache (m_k s) !!.) = Some y ∧ serving y a0 (ata (m_hw s3))) →
    wsw (iderw_wait b) (λ s', queued s' (q ++ [b]) a0 ∧ k_bcache (m_k s') = k_bcache (m_k s) ∧
      k_proc (m_k s') = <[me := asleep (ChBufIO b) p]> (k_proc (m_k s))) s3) as Hsleep.
  { intros s3 Hs3 Hsv. assert (m_k s3 = m_k s1) as Hk3 by by rewrite Hs3.
    unfold iderw_wait. apply wsw_bind. eapply wp_kern_ret; [exact Hk3|unfold get_buf, bind, gets, get_or; simpl; by rewrite Hx|].
    rewrite (proj2 (Z.eqb_neq _ _)) by apply Hrq. cbn [negb]. unfold wsw. erewrite kern_switch; [|reflexivity|].
    2: { eapply (sleep_switch _ LIde _ i (c <| c_ncli := c_ncli c + 1 |>) me p); simpl; [by apply on_cpu_locked|lia|done|done|done|apply lookup_insert_eq|].
         unfold lock_free. simpl. by rewrite lookup_insert_ne. }
    split_and!; [|done|done]. split; simpl; [|done|done|apply Hqd|].
    - rewrite Hs3. exact Hch.
    - destruct Hsv as (y & Hy & Hsy). destruct q; exists y; exact (conj Hy Hsy). }
  apply wsw_bind, wp_gets. apply wsw_bind. destruct q as [|b' q].
  - destruct Hch as (Hhd & _). rewrite Hhd. rewrite bool_decide_true by done. simpl. destruct Hqd as [_ _ _ Q4 (Q5 & Q6 & Q7)].
    destruct (hwp_idestart polls Hpolls b x s2 (λ _ h, serving x a0 (ata h))) as ([] & h & Hr & Hh).
    { by rewrite Hbc2. } { apply Hrq. } { apply Hrq. } { by rewrite Hhw. } { intros h. by rewrite Hhw, Q7. }
    eapply wp_of_eq; [exact Hr|]. apply Hsleep; [done|]. exists x. simpl. by rewrite Hx.
  - destruct Hch as (Hhd & _). rewrite Hhd. rewrite bool_decide_false; [|intros [= ->]; apply Hbq; left]. apply wp_ret.
    apply Hsleep; [by destruct s2|]. destruct Hqd as [_ _ _ _ (y & Hy & Hsy)]. exists y. simpl. by rewrite Hhw.
Qed.
End queue.

(** ** The requests in turn *)

(** What a list of requests does to the disks: each one in turn, a read seeing
    the writes before it.  The buffers afterwards, and the disks. *)
Definition write_disk (x : buf) (D : bool → list (list Z)) : bool → list (list Z) := λ e,
  if dirty x && Bool.eqb e (second_disk x) then set_blk (D e) (b_blockno x) (b_data x) else D e.
Fixpoint serve_all (xs : list buf) (D : bool → list (list Z)) : list buf * (bool → list (list Z)) :=
  match xs with
  | [] => ([], D)
  | x :: xs' =>
      let r := serve_all xs' (write_disk x D) in
      (served (blk_at (D (second_disk x)) (b_blockno x)) x :: r.1, r.2)
  end.

Lemma serve_all_ext xs : ∀ D D', (∀ e, D e = D' e) →
  (serve_all xs D).1 = (serve_all xs D').1 ∧ ∀ e, (serve_all xs D).2 e = (serve_all xs D').2 e.
Proof.
  induction xs as [|x xs IH]; intros D D' H; simpl; [done|].
  destruct (IH (write_disk x D) (write_disk x D')) as [H1 H2]; [intros e; unfold write_disk; by rewrite !H|].
  split; [by rewrite H1, H|done].
Qed.

Section in_turn.
Context `{HW : !Hw} `{AT : !Ata} `{RL : !AtaReliable} `{PR : !AtaPrompt} (polls : nat) (Hpolls : (ata_patience < polls)%nat).
Implicit Types (s : mach) (h : hw).

Lemma serving_write x a0 a e : serving x a0 a → disk_of e a = write_disk x (λ e, disk_of e a0) e.
Proof.
  intros [_ _ S1 S2]. unfold write_disk. destruct (Bool.eqb_spec e (second_disk x)) as [->|Hne].
  - rewrite andb_true_r. done.
  - rewrite andb_false_r. assert (e = negb (second_disk x)) as -> by (destruct e, (second_disk x); done). done.
Qed.

Lemma interrupts_ret i c q : ∀ s xs a0,
  table_ready (m_k s) i c → lock_free LIde (m_k s) → queued s q a0 → Forall2 (λ b x, k_bcache (m_k s) !! b = Some x) q xs →
  ∃ s', for_each q (λ _, ideintr polls) s = Ret tt s' ∧ m_idequeue s' = None ∧
    Forall2 (λ b x, k_bcache (m_k s') !! b = Some x) q (serve_all xs (λ e, disk_of e a0)).1 ∧
    (∀ e, disk_of e (ata (m_hw s')) = (serve_all xs (λ e, disk_of e a0)).2 e) ∧
    ∀ b, b ∉ q → k_bcache (m_k s') !! b = k_bcache (m_k s) !! b.
Proof.
  induction q as [|b q IH]; intros s xs a0 Htab Hfree Hq Hxs; inversion Hxs as [|? x ? xs' Hx Hxs']; subst; simpl.
  - exists s. destruct Hq as [Q1 _ _ _ (_ & _ & <-)]. split_and!; try done.
  - destruct (ideintr_ret polls Hpolls i c s b x q a0 Htab Hfree Hq Hx) as (s1 & a1 & H1 & Hd1 & Hq1 & Hk1).
    pose proof (qd_nodup _ _ _ Hq) as Hnd. apply NoDup_cons in Hnd as [Hb Hnd].
    destruct (qd_head _ _ _ Hq) as (x2 & Hx2 & Hsv). assert (x2 = x) as -> by congruence.
    assert (b < length (k_bcache (m_k s)))%nat as Hbl by by eapply lookup_lt_Some.
    destruct (IH s1 xs' a1) as (s' & H2 & Hh & Hbs & Hds & Hrest).
    { rewrite Hk1. destruct Htab as [T1 T2 T3]. split; [by eapply on_cpu_ext|done|by rewrite <-T3; apply length_fmap]. }
    { by rewrite Hk1. } { done. }
    { rewrite Hk1. simpl. apply Forall2_same_length_lookup. split; [by eapply Forall2_length|]. intros j y z Hy Hz.
      rewrite list_lookup_insert_ne; [exact (Forall2_lookup_lr _ _ _ _ _ _ Hxs' Hy Hz)|]. intros ->. apply Hb. by eapply list_elem_of_lookup_2. }
    assert (∀ e, disk_of e a1 = write_disk x (λ e, disk_of e a0) e) as Hw by (intros e; rewrite Hd1; by apply serving_write).
    destruct (serve_all_ext xs' _ _ Hw) as [E1 E2]. exists s'. rewrite (bind_ret_eq _ _ _ _ _ H1). split_and!; [done|done| | |].
    + constructor; [|by rewrite <-E1]. rewrite Hrest by done. rewrite Hk1. simpl. by apply list_lookup_insert_eq.
    + intros e. by rewrite Hds.
    + intros b' Hb'. apply not_elem_of_cons in Hb' as [Hne Hb']. rewrite Hrest, Hk1 by done. simpl. by apply list_lookup_insert_ne.
Qed.
End in_turn.
