(* ===== verification/Mp.v ===== *)
(** * Mp: the multiprocessor tables ([mp.c], [mp.h])

    [mpinit] searches the memory of the BIOS for the configuration table and reads
    the processors and the I/O APIC from it.  Structures are read from memory at
    the offsets of their fields.  The loop over the entries has fuel [polls]. *)
From S2P Require Import Prelude.
From S2P Require Import Mem.
From S2P Require Import Str.
From S2P Require Import State.
From S2P Require Import Spin.
From S2P Require Import Kalloc.
From S2P Require Import Vm.
From S2P Require Import Hw.

Module Mp.

Abbreviation NCPU := (8)%Z (only parsing).
Abbreviation MPPROC := (0x00)%Z (only parsing).
Abbreviation MPBUS := (0x01)%Z (only parsing).
Abbreviation MPIOAPIC := (0x02)%Z (only parsing).
Abbreviation MPIOINTR := (0x03)%Z (only parsing).
Abbreviation MPLINTR := (0x04)%Z (only parsing).

(** [struct mp] *)
Abbreviation MP_SIZE := (16)%Z (only parsing).
Abbreviation MP_PHYSADDR := (4)%Z (only parsing).
Abbreviation MP_IMCRP := (12)%Z (only parsing).
(** [struct mpconf] *)
Abbreviation MPCONF_SIZE := (44)%Z (only parsing).
Abbreviation MPCONF_LENGTH := (4)%Z (only parsing).
Abbreviation MPCONF_VERSION := (6)%Z (only parsing).
Abbreviation MPCONF_LAPICADDR := (36)%Z (only parsing).
(** [struct mpproc] and [struct mpioapic] *)
Abbreviation MPPROC_SIZE := (20)%Z (only parsing).
Abbreviation MPPROC_APICID := (1)%Z (only parsing).
Abbreviation MPIOAPIC_SIZE := (8)%Z (only parsing).
Abbreviation MPIOAPIC_APICNO := (1)%Z (only parsing).

Definition ld16 (m : mem) (a : Z) : Z := ld8 m a + 256 * ld8 m (a + 1).

Fixpoint sum_loop (m : mem) (addr : Z) (len : nat) (sum : Z) : Z :=
  match len with
  | O => sum
  | S len' => sum_loop m (addr + 1) len' (s32 (sum + ld8 m addr))
  end.
Definition sum (m : mem) (addr len : Z) : Z := u8 (sum_loop m addr (Z.to_nat len) 0).

(** [memcmp(p, sig, n) == 0] for the literal [sig] of [n] characters. *)
Fixpoint has_sig (m : mem) (p : Z) (sig : list Z) : bool :=
  match sig with
  | [] => true
  | c :: sig' => (ld8 m p =? c) && has_sig m (p + 1) sig'
  end.

(** Look for an MP structure in the len bytes at addr. *)
Fixpoint mpsearch1_loop (fuel : nat) (m : mem) (p e : Z) : option Z :=
  match fuel with
  | O => None
  | S fuel' =>
      if p <? e then
        if has_sig m p (chars "_MP_") && (sum m p MP_SIZE =? 0) then Some p
        else mpsearch1_loop fuel' m (u32 (p + MP_SIZE)) e
      else None
  end.
Definition mpsearch1 (m : mem) (a len : Z) : option Z :=
  let addr := P2V a in
  let e := u32 (addr + len) in
  mpsearch1_loop (S (Z.to_nat len)) m addr e.

Definition mpsearch (m : mem) : option Z :=
  let bda := P2V 0x400 in
  let p := Z.shiftl (Z.lor (Z.shiftl (ld8 m (bda + 0x0F)) 8) (ld8 m (bda + 0x0E))) 4 in
  let rom := mpsearch1 m 0xF0000 0x10000 in
  if truthy p then
    match mpsearch1 m p 1024 with Some mp => Some mp | None => rom end
  else
    let p := Z.lor (Z.shiftl (ld8 m (bda + 0x14)) 8) (ld8 m (bda + 0x13)) * 1024 in
    match mpsearch1 m (u32 (p - 1024)) 1024 with Some mp => Some mp | None => rom end.

(** The floating pointer and the configuration table. *)
Definition mpconfig (m : mem) : option (Z * Z) :=
  match mpsearch m with
  | None => None
  | Some mp =>
      if ld32 m (mp + MP_PHYSADDR) =? 0 then None
      else
        let conf := P2V (ld32 m (mp + MP_PHYSADDR)) in
        if negb (has_sig m conf (chars "PCMP")) then None
        else if negb (ld8 m (conf + MPCONF_VERSION) =? 1) && negb (ld8 m (conf + MPCONF_VERSION) =? 4) then None
        else if negb (sum m conf (ld16 m (conf + MPCONF_LENGTH)) =? 0) then None
        else Some (mp, conf)
  end.

Section mp.
Context `{HW : !Hw} (polls : nat).

(** [if(ncpu < NCPU){ cpus[ncpu].apicid = proc->apicid; ncpu++; }]; the model's
    [cpus] has [ncpu] elements. *)
Definition add_cpu (apicid : Z) : D unit :=
  kern (modify (λ k, if Z.of_nat (length (k_cpus k)) <? NCPU then k <| k_cpus := k_cpus k ++ [mkCpu apicid 0 0 0 None] |> else k)).

(** The loop over the entries; the result is [ismp].  An entry of another type
    clears [ismp] and leaves [p] as it is. *)
Fixpoint mp_entries (fuel : nat) (p e : Z) (ismp : bool) : D bool :=
  match fuel with
  | O => spin
  | S fuel' =>
      if p <? e then
        m ← gets (λ s, k_mem (m_k s));
        let t := ld8 m p in
        if t =? MPPROC then
          add_cpu (ld8 m (p + MPPROC_APICID)) ;;
          mp_entries fuel' (u32 (p + MPPROC_SIZE)) e ismp
        else if t =? MPIOAPIC then
          modify (λ s, s <| m_ioapicid := ld8 m (p + MPIOAPIC_APICNO) |>) ;;
          mp_entries fuel' (u32 (p + MPIOAPIC_SIZE)) e ismp
        else if (t =? MPBUS) || (t =? MPIOINTR) || (t =? MPLINTR) then
          mp_entries fuel' (u32 (p + 8)) e ismp
        else mp_entries fuel' p e false
      else ret ismp
  end.

Definition mpinit : D unit :=
  m ← gets (λ s, k_mem (m_k s));
  match mpconfig m with
  | None => panic "Expect to run on an SMP"
  | Some (mp, conf) =>
      modify (λ s, s <| m_lapic := ld32 m (conf + MPCONF_LAPICADDR) |>) ;;
      ismp ← mp_entries polls (u32 (conf + MPCONF_SIZE)) (u32 (conf + ld16 m (conf + MPCONF_LENGTH))) true;
      if negb ismp then panic "Didn't find a suitable machine"
      else
        when (truthy (ld8 m (mp + MP_IMCRP)))
          (outb 0x22 0x70 ;;
           v ← inb 0x23;
           outb 0x23 (Z.lor v 1))
  end.
End mp.

End Mp.

(** ** What [mpinit] reads *)
Import Mp.

(** ** Search *)

(** There is a floating pointer structure at [p]. *)
Definition is_mp (m : mem) (p : Z) : bool := has_sig m p (chars "_MP_") && (sum m p MP_SIZE =? 0).

Lemma mpsearch1_loop_first m e : ∀ fuel p,
  0 ≤ p ≤ e + 15 → e < 4294967296 - 16 → (e - p) / 16 + 1 < Z.of_nat fuel →
  match mpsearch1_loop fuel m p e with
  | Some q => ∃ i, 0 ≤ i ∧ q = p + 16 * i ∧ q < e ∧ is_mp m q = true ∧ ∀ j, 0 ≤ j < i → is_mp m (p + 16 * j) = false
  | None => ∀ i, 0 ≤ i → p + 16 * i < e → is_mp m (p + 16 * i) = false
  end.
Proof.
  induction fuel as [|fuel IH]; intros p Hp He Hf; [Z.div_mod_to_equations; lia|]. cbn [mpsearch1_loop].
  destruct (Z.ltb_spec p e) as [Hlt|Hge]; [|intros i Hi Hlt; lia]. fold (is_mp m p). destruct (is_mp m p) eqn:E.
  - exists 0. split_and!; [done|lia|done|done|lia].
  - rewrite u32_small by lia. specialize (IH (p + 16) ltac:(lia) He ltac:(Z.div_mod_to_equations; lia)).
    destruct (mpsearch1_loop fuel m (p + 16) e) as [q|].
    + destruct IH as (i & H1 & -> & H2 & H3 & H4). exists (i + 1). split_and!; [lia|lia|done|done|].
      intros j Hj. destruct (decide (j = 0)) as [->|]; [by rewrite Z.mul_0_r, Z.add_0_r|].
      specialize (H4 (j - 1) ltac:(lia)). by replace (p + 16 + 16 * (j - 1)) with (p + 16 * j) in H4 by lia.
    + intros i Hi Hlt'. destruct (decide (i = 0)) as [->|]; [by rewrite Z.mul_0_r, Z.add_0_r|].
      specialize (IH (i - 1) ltac:(lia) ltac:(lia)). by replace (p + 16 + 16 * (i - 1)) with (p + 16 * i) in IH by lia.
Qed.

(** ** Entries *)

(** The entries of the table, with the bytes behind what the kernel looks at. *)
Inductive entry :=
| EProc (apicid : Z) (rest : list Z)       (* 18 bytes *)
| EIoapic (apicno : Z) (rest : list Z)     (* 6 bytes *)
| EOther (type : Z) (rest : list Z).       (* 7 bytes *)
Definition entry_ok (x : entry) : Prop :=
  match x with
  | EProc _ r => length r = 18%nat
  | EIoapic _ r => length r = 6%nat
  | EOther t r => length r = 7%nat ∧ (t = MPBUS ∨ t = MPIOINTR ∨ t = MPLINTR)
  end.
Definition entry_bytes (x : entry) : list Z :=
  match x with
  | EProc a r => MPPROC :: a :: r
  | EIoapic a r => MPIOAPIC :: a :: r
  | EOther t r => t :: r
  end.
Definition table_bytes (l : list entry) : list Z := concat (entry_bytes <$> l).

(** What the entries tell the kernel. *)
Definition entry_cpus (l : list entry) : list Z := omap (λ x, match x with EProc a _ => Some a | _ => None end) l.
Definition entry_ioapic (d : Z) (l : list entry) : Z :=
  foldl (λ d x, match x with EIoapic a _ => a | _ => d end) d l.

(** The bytes [bs] are in memory at [p]. *)
Definition mem_has (m : mem) (p : Z) (bs : list Z) : Prop := ∀ i b, bs !! i = Some b → ld8 m (p + Z.of_nat i) = b.
Lemma mem_has_app m p bs1 bs2 : mem_has m p (bs1 ++ bs2) ↔ mem_has m p bs1 ∧ mem_has m (p + Z.of_nat (length bs1)) bs2.
Proof.
  split.
  - intros H. split; intros i b Hi.
    + apply H. by apply lookup_app_l_Some.
    + rewrite <-Z.add_assoc, <-Nat2Z.inj_add. apply H. rewrite lookup_app_r by lia. by replace (length bs1 + i - length bs1)%nat with i by lia.
  - intros [H1 H2] i b [Hi|[Hl Hi]]%lookup_app_Some; [by apply H1|]. apply H2 in Hi. by replace (p + Z.of_nat (length bs1) + Z.of_nat (i - length bs1)) with (p + Z.of_nat i) in Hi by lia.
Qed.

Definition plus_cpus (cs : list cpu) (ids : list Z) : list cpu :=
  cs ++ ((λ a, mkCpu a 0 0 0 None) <$> take (8 - length cs) ids).
Lemma plus_cpus_cons cs a ids :
  plus_cpus (if Z.of_nat (length cs) <? NCPU then cs ++ [mkCpu a 0 0 0 None] else cs) ids = plus_cpus cs (a :: ids).
Proof.
  unfold plus_cpus. destruct (Z.ltb_spec (Z.of_nat (length cs)) 8) as [H|H].
  - rewrite length_app. simpl. replace (8 - (length cs + 1))%nat with (7 - length cs)%nat by lia.
    replace (8 - length cs)%nat with (S (7 - length cs)) by lia. simpl. by rewrite <-app_assoc.
  - by replace (8 - length cs)%nat with 0%nat by lia.
Qed.

Section entries.
Context `{HW : !Hw}.
Implicit Types s : mach.

(** The state after the entries [l]. *)
Definition with_entries (l : list entry) s : mach :=
  s <| m_k := m_k s <| k_cpus := plus_cpus (k_cpus (m_k s)) (entry_cpus l) |> |>
    <| m_ioapicid := entry_ioapic (m_ioapicid s) l |>.

Lemma with_entries_cons x l s :
  with_entries (x :: l) s =
  with_entries l (match x with
    | EProc a _ => s <| m_k := m_k s <| k_cpus := if Z.of_nat (length (k_cpus (m_k s))) <? NCPU then k_cpus (m_k s) ++ [mkCpu a 0 0 0 None] else k_cpus (m_k s) |> |>
    | EIoapic a _ => s <| m_ioapicid := a |>
    | EOther _ _ => s
    end).
Proof. destruct x as [a r|a r|t r]; unfold with_entries; simpl; [by rewrite plus_cpus_cons|done|done]. Qed.

Lemma entry_length x : entry_ok x → (8 ≤ length (entry_bytes x) ≤ 20)%nat.
Proof. destruct x; simpl; lia. Qed.

Lemma mp_entries_step x fuel p e ismp s :
  entry_ok x → mem_has (k_mem (m_k s)) p (entry_bytes x) → 0 ≤ p → p + Z.of_nat (length (entry_bytes x)) ≤ e → e < 4294967296 →
  mp_entries (S fuel) p e ismp s = mp_entries fuel (p + Z.of_nat (length (entry_bytes x))) e ismp (with_entries [x] s).
Proof.
  intros Hx Hm Hp He Hw. pose proof (entry_length x Hx) as Hlen. cbn [mp_entries].
  rewrite (proj2 (Z.ltb_lt _ _)) by lia. unfold bind at 1, gets. rewrite with_entries_cons. set (m := k_mem (m_k s)) in *.
  assert (∀ s, with_entries [] s = s) as Hnil.
  { intros s'. unfold with_entries, plus_cpus. simpl. rewrite take_nil. simpl. rewrite app_nil_r. destruct s' as [k]; by destruct k. }
  rewrite Hnil. destruct x as [a r|a r|t r]; simpl in Hx, Hm, Hlen, He |- *.
  - pose proof (Hm 0%nat _ eq_refl) as H0. pose proof (Hm 1%nat _ eq_refl) as H1. rewrite Z.add_0_r in H0. change (Z.of_nat 1) with 1 in H1.
    rewrite H0. change (MPPROC =? MPPROC) with true. rewrite H1. 
    rewrite u32_small by lia. replace (p + Z.of_nat (S (S (length r)))) with (p + 20) by lia. unfold add_cpu, bind, kern, modify.
    f_equal. destruct (Z.of_nat (length (k_cpus (m_k s))) <? NCPU); destruct s as [k]; by destruct k.
  - pose proof (Hm 0%nat _ eq_refl) as H0. pose proof (Hm 1%nat _ eq_refl) as H1. rewrite Z.add_0_r in H0. change (Z.of_nat 1) with 1 in H1.
    rewrite H0. change (MPIOAPIC =? MPPROC) with false. change (MPIOAPIC =? MPIOAPIC) with true. rewrite H1.
    rewrite u32_small by lia. replace (p + Z.of_nat (S (S (length r)))) with (p + 8) by lia. done.
  - pose proof (Hm 0%nat _ eq_refl) as H0. rewrite Z.add_0_r in H0. destruct Hx as [Hl Ht]. rewrite H0. rewrite (u32_small (p + 8)) by lia.
    replace (p + Z.of_nat (S (length r))) with (p + 8) by lia. by destruct Ht as [->|[->| ->]].
Qed.

Lemma mp_entries_table l : ∀ fuel p e ismp s,
  Forall entry_ok l → mem_has (k_mem (m_k s)) p (table_bytes l) → 0 ≤ p → p + Z.of_nat (length (table_bytes l)) ≤ e → e < 4294967296 →
  mp_entries (length l + fuel) p e ismp s = mp_entries fuel (p + Z.of_nat (length (table_bytes l))) e ismp (with_entries l s).
Proof.
  induction l as [|x l IH]; intros fuel p e ismp s Hok Hm Hp He Hw.
  - simpl. rewrite Z.add_0_r. f_equal. unfold with_entries, plus_cpus. simpl. rewrite take_nil. simpl. rewrite app_nil_r.
    destruct s as [k]; by destruct k.
  - apply Forall_cons in Hok as [Hx Hok]. unfold table_bytes in *. cbn [fmap list_fmap concat] in *. rewrite length_app in *.
    apply mem_has_app in Hm as [Hm1 Hm2]. cbn [length Nat.add].
    rewrite mp_entries_step with (x := x) by (done || lia). rewrite IH by (done || lia). rewrite Nat2Z.inj_add, Z.add_assoc. f_equal.
    rewrite (with_entries_cons x l). f_equal. rewrite with_entries_cons. unfold with_entries, plus_cpus. simpl.
    rewrite take_nil. simpl. rewrite app_nil_r. destruct x; destruct s as [k]; by destruct k.
Qed.

(** An entry of another type: the loop goes on with the same entry. *)
Lemma mp_entries_stuck fuel : ∀ p e ismp s,
  p < e → 4 < ld8 (k_mem (m_k s)) p → mp_entries fuel p e ismp s = Spin s.
Proof.
  induction fuel as [|fuel IH]; intros p e ismp s Hp Ht; [done|]. cbn [mp_entries]. rewrite (proj2 (Z.ltb_lt _ _)) by done.
  unfold bind at 1, gets. rewrite !(proj2 (Z.eqb_neq _ _)) by lia. simpl. by apply IH.
Qed.
End entries.
