(* ===== verification/Bootmain.v ===== *)
(** * Bootmain: the boot loader ([bootmain.c])

    The boot loader runs before the kernel, without paging: the addresses of the
    memory are physical ones.  [readseg] copies a part of the kernel's image from
    the disk, [bootmain] loads the segments of the image and jumps to its entry
    point.  A loop that waits for the disk has fuel [polls]. *)
From S2P Require Import Prelude.
From S2P Require Import Mem.
From S2P Require Import State.
From S2P Require Import Spin.
From S2P Require Import Vm.
From S2P Require Import Blk.
From S2P Require Import FsDisk.
From S2P Require Import Exec.
From S2P Require Import Hw.
From S2P Require Import Ide.

Module Bootmain.

Abbreviation SECTSIZE := (512)%Z (only parsing).

Definition ph_paddr (h : list Z) : Z := get32 h 12.

Section bootmain.
Context `{HW : !Hw} (polls : nat).

(** [while((inb(0x1F7) & 0xC0) != 0x40) ;] *)
Fixpoint waitdisk (fuel : nat) : D unit :=
  match fuel with
  | O => spin
  | S fuel' => r ← inb 0x1F7; if negb (Z.land r 0xC0 =? 0x40) then waitdisk fuel' else ret tt
  end.

(** Read a single sector at offset into dst. *)
Definition readsect (dst offset : Z) : D unit :=
  waitdisk polls ;;
  outb 0x1F2 1 ;;
  outb 0x1F3 offset ;;
  outb 0x1F4 (Z.shiftr offset 8) ;;
  outb 0x1F5 (Z.shiftr offset 16) ;;
  outb 0x1F6 (Z.lor (Z.shiftr offset 24) 0xE0) ;;
  outb 0x1F7 0x20 ;;
  waitdisk polls ;;
  bs ← insl 0x1F0 (Z.to_nat (SECTSIZE / 4));
  kern (modify (λ k, k <| k_mem := poke (k_mem k) dst bs |>)).

(** [for(; pa < epa; pa += SECTSIZE, offset++)] *)
Fixpoint readseg_loop (fuel : nat) (pa epa offset : Z) : D unit :=
  match fuel with
  | O => spin
  | S fuel' =>
      if pa <? epa then
        readsect pa offset ;;
        readseg_loop fuel' (u32 (pa + SECTSIZE)) epa (u32 (offset + 1))
      else ret tt
  end.
(** Read 'count' bytes at 'offset' from kernel into physical address 'pa'.
    The loop runs once for every sector of the range. *)
Definition readseg (pa count offset : Z) : D unit :=
  let epa := u32 (pa + count) in
  let pa := u32 (pa - offset mod SECTSIZE) in
  let offset := u32 (offset / SECTSIZE + 1) in
  readseg_loop (Z.to_nat ((epa - pa) / SECTSIZE + 2)) pa epa offset.

(** The loop over the program headers; they are read from memory in each turn. *)
Fixpoint load_segs (fuel : nat) (ph eph : Z) : D unit :=
  match fuel with
  | O => spin
  | S fuel' =>
      if ph <? eph then
        m ← gets (λ s, k_mem (m_k s));
        let h := bytes m ph (Z.to_nat PROGHDR_SIZE) in
        let pa := ph_paddr h in
        readseg pa (ph_filesz h) (ph_off h) ;;
        m ← gets (λ s, k_mem (m_k s));
        let h := bytes m ph (Z.to_nat PROGHDR_SIZE) in
        when (ph_filesz h <? ph_memsz h)
          (kern (modify (λ k, k <| k_mem :=
             stosb (k_mem k) (u32 (pa + ph_filesz h)) 0 (Z.to_nat (ph_memsz h - ph_filesz h)) |>))) ;;
        load_segs fuel' (u32 (ph + PROGHDR_SIZE)) eph
      else ret tt
  end.

(** The address it jumps to, or [None] when it returns to [bootasm.S]. *)
Definition bootmain : D (option Z) :=
  let elf := 0x10000 in
  readseg elf 4096 0 ;;
  m ← gets (λ s, k_mem (m_k s));
  let h := bytes m elf (Z.to_nat ELFHDR_SIZE) in
  if negb (e_magic h =? ELF_MAGIC) then ret None
  else
    let ph := u32 (elf + e_phoff h) in
    let eph := u32 (ph + e_phnum h * PROGHDR_SIZE) in
    load_segs (S (Z.to_nat (e_phnum h))) ph eph ;;
    m ← gets (λ s, k_mem (m_k s));
    ret (Some (e_entry (bytes m elf (Z.to_nat ELFHDR_SIZE)))).
End bootmain.

End Bootmain.
Import Ide Bootmain.

(** ** The image on the disk *)

(** The kernel's image starts at sector 1. *)
Definition img_byte (dk : list (list Z)) (i : Z) : Z := byte_at (blk_at dk (i / 512 + 1)) (Z.to_nat (i mod 512)).
Definition img (dk : list (list Z)) (a : Z) (n : nat) : list Z := (λ i, img_byte dk (a + Z.of_nat i)) <$> seq 0 n.

Lemma ld8_poke bs : ∀ m a b,
  Forall is_byte bs →
  ld8 (poke m a bs) b = if decide (a ≤ b < a + Z.of_nat (length bs)) then byte_at bs (Z.to_nat (b - a)) else ld8 m b.
Proof.
  induction bs as [|c bs IH]; intros m a b Hb; simpl; [case_decide; [lia|done]|].
  apply Forall_cons in Hb as [Hc Hb]. rewrite IH, ld8_st8 by done. unfold is_byte in Hc. rewrite u8_small by done.
  destruct (decide (a = b)) as [->|Hne].
  - rewrite decide_False by lia. rewrite decide_True by lia. by rewrite Z.sub_diag.
  - destruct (decide (a + 1 ≤ b < a + 1 + Z.of_nat (length bs))) as [H|H].
    + rewrite decide_True by lia. unfold byte_at. by replace (Z.to_nat (b - a)) with (S (Z.to_nat (b - (a + 1)))) by lia.
    + by rewrite decide_False by lia.
Qed.

Section load.
Context `{HW : !Hw} `{AT : !Ata} `{RL : !AtaReliable} (polls : nat) (Hpolls : (ata_patience < polls)%nat).
Context (dk : list (list Z)) (Hlen : Z.of_nat (length dk) ≤ 2 ^ 28).
Context (Hblocks : ∀ b, 0 ≤ b < Z.of_nat (length dk) → block_ok (blk_at dk b)).
Implicit Types (s : mach) (h : hw) (m : mem).

(** The boot disk holds [dk]. *)
Definition drive h : Prop := (at_busy (ata h) ≤ ata_patience)%nat ∧ at_disk0 (ata h) = dk.

Lemma hwp_waitdisk : ∀ fuel s (Q : unit → hw → Prop),
  (at_busy (ata (m_hw s)) < fuel)%nat → (∀ h, ata h = ata (m_hw s) <| at_busy := 0%nat |> → Q tt h) → hwp (waitdisk fuel) s Q.
Proof.
  induction fuel as [|fuel IH]; intros s Q Hf HQ; [lia|]. simpl.
  pose proof (ata_status (m_hw s)) as Hst. apply hwp_bind, hwp_ask. destruct (port_in 0x1f7 (m_hw s)) as [r h].
  change (Z.lor IDE_BSY IDE_DRDY) with 0xC0 in Hst. destruct (at_busy (ata (m_hw s))) as [|b] eqn:Eb; simpl.
  - destruct Hst as (H1 & _ & H3). rewrite H1. apply hwp_ret. apply HQ.
    simpl. rewrite H3. destruct (ata (m_hw s)); simpl in *; by subst.
  - destruct Hst as (H1 & m & Hm & H2). rewrite (proj2 (Z.eqb_neq _ _) H1). simpl.
    apply IH; simpl; [rewrite H2; simpl; lia|]. intros h' Hh. apply HQ. by rewrite Hh, H2.
Qed.

(** The drive register selects drive 0. *)
Lemma drive0_byte x : 0 ≤ x < 16 → u8 (Z.lor x 0xE0) mod 16 = x ∧ Z.testbit (u8 (Z.lor x 0xE0)) 4 = false.
Proof.
  intros H. assert (∃ n, x = Z.of_nat n ∧ (n < 16)%nat) as (n & -> & Hn) by (exists (Z.to_nat x); lia). clear H.
  do 16 (destruct n as [|n]; [done|]). lia.
Qed.

(** The sector that the registers select. *)
Lemma selected offset h c :
  0 ≤ offset < 2 ^ 28 → ata h = (c <| at_lba0 := u8 offset |> <| at_lba1 := u8 (Z.shiftr offset 8) |> <| at_lba2 := u8 (Z.shiftr offset 16) |>
    <| at_drive := u8 (Z.lor (Z.shiftr offset 24) 0xE0) |>) →
  ata_second (ata h) = false ∧ ata_sector (ata h) = Z.to_nat offset.
Proof.
  intros Ho ->. destruct (drive0_byte (Z.shiftr offset 24)) as [Hm Ht].
  { rewrite Z.shiftr_div_pow2 by lia. change (2 ^ 24) with 16777216. Z.div_mod_to_equations; lia. }
  split; [exact Ht|]. unfold ata_sector. simpl. rewrite Hm. f_equal.
  rewrite !Z.shiftr_div_pow2 by lia. change (2 ^ 8) with 256. change (2 ^ 16) with 65536. change (2 ^ 24) with 16777216.
  unfold u8. Z.div_mod_to_equations; lia.
Qed.

Lemma wp_readsect dst offset s (Q : unit → mach → Prop) :
  drive (m_hw s) → 0 ≤ offset < Z.of_nat (length dk) →
  (∀ h, drive h → Q tt (upd (poke (k_mem (m_k s)) dst (blk_at dk offset)) h s)) → wp (readsect polls dst offset) Q s.
Proof.
  intros [Hb Hd] Ho HQ. set (a0 := ata (m_hw s)) in *. unfold readsect.
  apply wp_bind, wp_hwp, hwp_waitdisk; [simpl; fold a0; lia|]. intros h0 H0. fold a0 in H0.
  assert (at_busy (ata h0) = 0%nat) as B0 by by rewrite H0.
  do 5 (apply wp_bind, wp_hwp, hwp_reg; [simpl; assumption|lia|];
    let h := fresh "h" in let H := fresh "Hr" in let B := fresh "B" in intros h H B; simpl in H).
  rewrite H0 in Hr. rewrite Hr in Hr0. rewrite Hr0 in Hr1. rewrite Hr1 in Hr2. rewrite Hr2 in Hr3. simpl in Hr3. clear Hr Hr0 Hr1 Hr2.
  destruct (selected offset h4 (a0 <| at_busy := 0%nat |> <| at_count := 1 |>)) as (S1 & S2); [lia|exact Hr3|].
  apply wp_bind, wp_hwp, hwp_outb; [simpl; assumption|lia|]. intros h5 n Hn _ _ H5. change 0x20 with IDE_CMD_READ in H5. rewrite ata_out_read in H5. simpl in H5.
  apply wp_bind, wp_hwp, hwp_waitdisk; [simpl; rewrite H5; simpl; lia|]. intros h6 H6. simpl in H6.
  unfold ata_disk in H5. rewrite S1, S2, Z2Nat.id in H5 by lia. rewrite Hr3 in H5. simpl in H5. rewrite Hd in H5.
  apply wp_bind, wp_hwp. change (Z.to_nat (SECTSIZE / 4)) with (length (get_words (blk_at dk offset) 0 128)).
  apply hwp_insl; [simpl; by rewrite H6|simpl; by rewrite H6, H5|]. intros h7 H7. simpl in H7. rewrite words_bytes by by apply Hblocks.
  apply wp_kern, wp_modify. simpl. apply (HQ h7). split; rewrite H7, H6, H5; [simpl; lia|reflexivity].
Qed.
Lemma wp_readseg_loop n : ∀ fuel pa epa offset s (Q : unit → mach → Prop),
  drive (m_hw s) → 512 * (Z.of_nat n - 1) < epa - pa ≤ 512 * Z.of_nat n → 0 ≤ pa → pa + 512 * Z.of_nat n < 4294967296 →
  0 ≤ offset → offset + Z.of_nat n ≤ Z.of_nat (length dk) → (n < fuel)%nat →
  (∀ m h, drive h → (∀ b, ld8 m b = if decide (pa ≤ b < pa + 512 * Z.of_nat n)
     then byte_at (blk_at dk (offset + (b - pa) / 512)) (Z.to_nat ((b - pa) mod 512)) else ld8 (k_mem (m_k s)) b) → Q tt (upd m h s)) →
  wp (readseg_loop polls fuel pa epa offset) Q s.
Proof.
  induction n as [|n IH]; intros [|fuel] pa epa offset s Q Hd He Hpa Hw Ho Hl Hf HQ; try lia; cbn [readseg_loop].
  - rewrite (proj2 (Z.ltb_ge _ _)) by lia. apply wp_ret. rewrite <-(upd_same s). apply HQ; [done|]. intros b. by rewrite decide_False by lia.
  - rewrite (proj2 (Z.ltb_lt _ _)) by lia. apply wp_bind, wp_readsect; [done|lia|]. intros h Hh. rewrite !u32_small by lia.
    apply IH; [done|lia..|]. intros m h' Hh' Hm. rewrite upd_upd. apply HQ; [done|]. intros b. rewrite Hm. simpl.
    destruct (Hblocks offset ltac:(lia)) as [Hbl Hbb]. change (Z.to_nat BSIZE) with 512%nat in Hbl.
    rewrite ld8_poke, Hbl by done. repeat case_decide; try lia; try done.
    + replace (offset + 1 + (b - (pa + 512)) / 512) with (offset + (b - pa) / 512) by (Z.div_mod_to_equations; lia).
      do 2 f_equal. Z.div_mod_to_equations; lia.
    + rewrite Z.div_small, Z.mod_small by lia. by rewrite Z.add_0_r.
Qed.

(** The sectors that [readseg] reads. *)
Definition sects (count offset : Z) : Z := (offset mod 512 + count + 511) / 512.
(** The sectors are on the disk and memory ends behind them. *)
Definition seg_fits (pa count offset : Z) : Prop :=
  0 ≤ count ∧ 0 ≤ offset ∧ offset mod 512 ≤ pa ∧ pa - offset mod 512 + 512 * sects count offset < 4294967296 ∧
  offset / 512 + 1 + sects count offset ≤ Z.of_nat (length dk).

Lemma wp_readseg pa count offset s (Q : unit → mach → Prop) :
  drive (m_hw s) → seg_fits pa count offset →
  (∀ m h, drive h → (∀ b, ld8 m b = if decide (0 ≤ b - pa + offset mod 512 < 512 * sects count offset)
     then img_byte dk (offset + (b - pa)) else ld8 (k_mem (m_k s)) b) → Q tt (upd m h s)) →
  wp (readseg polls pa count offset) Q s.
Proof.
  intros Hd (Hc & Ho & Hpa & Hw & Hl) HQ. unfold readseg. unfold sects in *. set (n := (offset mod 512 + count + 511) / 512) in *.
  assert (512 * (n - 1) < offset mod 512 + count ≤ 512 * n ∧ 0 ≤ n ∧ 0 ≤ offset mod 512 ∧ 0 ≤ offset / 512) as (Hn & Hn0 & Hm0 & Hq0) by (unfold n; Z.div_mod_to_equations; lia).
  rewrite !u32_small by lia. apply wp_readseg_loop with (n := Z.to_nat n); rewrite ?Z2Nat.id by lia; try done; try lia.
  { apply Nat2Z.inj_lt. rewrite !Z2Nat.id by (Z.div_mod_to_equations; lia). Z.div_mod_to_equations; lia. }
  intros m h Hh Hm. apply HQ; [done|]. intros b. rewrite Hm. repeat case_decide; try lia; try done. unfold img_byte.
  replace (offset / 512 + 1 + (b - (pa - offset mod 512)) / 512) with ((offset + (b - pa)) / 512 + 1) by (Z.div_mod_to_equations; lia).
  do 2 f_equal. Z.div_mod_to_equations; lia.
Qed.

(** ** The segments of the image *)

(** The header of the image and its program headers. *)
Definition elf_hdr : list Z := img dk 0 52.
Definition prog (i : Z) : list Z := img dk (e_phoff elf_hdr + i * 32) 32.

(** The addresses that loading the segment [h] writes to. *)
Definition touched (h : list Z) (b : Z) : Prop :=
  0 ≤ b - ph_paddr h + ph_off h mod 512 < 512 * sects (ph_filesz h) (ph_off h) ∨
  ph_filesz h ≤ b - ph_paddr h < ph_memsz h.
(** The segment [h] is in the memory [m]. *)
Definition loaded (h : list Z) (m : mem) : Prop :=
  ∀ x, 0 ≤ x < ph_filesz h ∨ ph_filesz h ≤ x < ph_memsz h →
  ld8 m (ph_paddr h + x) = if decide (x < ph_filesz h) then img_byte dk (ph_off h + x) else 0.
(** The first page of the image is at [0x10000]. *)
Definition scratch (m : mem) : Prop := ∀ b, 0 ≤ b < 4096 → ld8 m (0x10000 + b) = img_byte dk b.

(** The image can be loaded: its program headers are in the first page, every
    segment fits, and loading it spares the first page and the segments loaded
    before it. *)
Record loadable : Prop := {
  lo_magic : e_magic elf_hdr = ELF_MAGIC;
  lo_page : 8 < Z.of_nat (length dk);
  lo_headers : 0 ≤ e_phoff elf_hdr ∧ 0 ≤ e_phnum elf_hdr ∧ e_phoff elf_hdr + e_phnum elf_hdr * 32 ≤ 4096;
  lo_seg i : 0 ≤ i < e_phnum elf_hdr →
    seg_fits (ph_paddr (prog i)) (ph_filesz (prog i)) (ph_off (prog i)) ∧ ph_paddr (prog i) + ph_filesz (prog i) < 4294967296;
  lo_scratch i b : 0 ≤ i < e_phnum elf_hdr → touched (prog i) b → b < 0x10000 ∨ 0x11000 ≤ b;
  lo_apart i j x : 0 ≤ i < j → j < e_phnum elf_hdr → 0 ≤ x < ph_filesz (prog i) ∨ ph_filesz (prog i) ≤ x < ph_memsz (prog i) →
    ¬ touched (prog j) (ph_paddr (prog i) + x)
}.

Lemma scratch_bytes m a n : scratch m → 0 ≤ a → a + Z.of_nat n ≤ 4096 → bytes m (0x10000 + a) n = img dk a n.
Proof.
  intros Hs Ha Hn. unfold bytes, img. apply list_fmap_ext. intros i x [-> Hi]%lookup_seq. rewrite <-Z.add_assoc. apply Hs. lia.
Qed.

Lemma sects_bound count offset : 0 ≤ count → offset mod 512 + count ≤ 512 * sects count offset.
Proof. intros H. unfold sects. Z.div_mod_to_equations; lia. Qed.

(** One turn of the loop. *)
Lemma wp_load_seg fuel i (Q : unit → mach → Prop) ph eph s :
  loadable → 0 ≤ i < e_phnum elf_hdr → ph = 0x10000 + (e_phoff elf_hdr + i * 32) → ph < eph →
  drive (m_hw s) → scratch (k_mem (m_k s)) →
  (∀ m h, drive h → scratch m → loaded (prog i) m →
    (∀ b, ¬ touched (prog i) b → ld8 m b = ld8 (k_mem (m_k s)) b) →
    wp (load_segs polls fuel (ph + 32) eph) Q (upd m h s)) →
  wp (load_segs polls (S fuel) ph eph) Q s.
Proof.
  intros Hlo Hi Hph Hlt Hd Hs HQ. destruct (lo_headers Hlo) as (Ho & Hn & Hpg). destruct (lo_seg Hlo i Hi) as [Hfit Hend].
  cbn [load_segs]. rewrite (proj2 (Z.ltb_lt _ _)) by done. apply wp_bind, wp_gets. cbv zeta. change (Z.to_nat PROGHDR_SIZE) with 32%nat.
  rewrite Hph, scratch_bytes by (done || lia). fold (prog i). unfold PROGHDR_SIZE. rewrite u32_small by lia. rewrite <-Hph.
  apply wp_bind, wp_readseg; [done|done|]. intros m h Hh Hm.
  assert (∀ b, ¬ touched (prog i) b → ld8 m b = ld8 (k_mem (m_k s)) b) as Hsp.
  { intros b Hb. rewrite Hm. rewrite decide_False; [done|]. intros H. apply Hb. by left. }
  assert (scratch m) as Hs1.
  { intros b Hb. rewrite Hsp; [by apply Hs|]. intros Ht. destruct (lo_scratch Hlo i _ Hi Ht); lia. }
  apply wp_bind, wp_gets. simpl k_mem. rewrite Hph, scratch_bytes by (done || lia). fold (prog i). rewrite <-Hph.
  destruct Hfit as (Hc & Hof & _). pose proof (sects_bound (ph_filesz (prog i)) (ph_off (prog i)) Hc) as Hsb.
  pose proof (Z.mod_pos_bound (ph_off (prog i)) 512 ltac:(lia)) as Hmod. unfold when.
  destruct (Z.ltb_spec (ph_filesz (prog i)) (ph_memsz (prog i))) as [Hbss|Hbss].
  - apply wp_bind, wp_kern, wp_modify. simpl. destruct (lo_seg Hlo i Hi) as [(_ & _ & Hpa & _) _].
    rewrite u32_small by lia. apply (HQ (stosb m _ 0 _) h); [done| | |].
    + intros b Hb. rewrite ld8_stosb. rewrite decide_False; [by apply Hs1|]. intros H.
      destruct (lo_scratch Hlo i (0x10000 + b) Hi); [right; lia|lia|lia].
    + intros x Hx. rewrite ld8_stosb. destruct (decide (x < ph_filesz (prog i))) as [Hxf|Hxf].
      * rewrite decide_False by lia. rewrite Hm, decide_True by lia. f_equal. lia.
      * by rewrite decide_True by lia.
    + intros b Hb. rewrite ld8_stosb, decide_False; [by apply Hsp|]. intros H. apply Hb. right. lia.
  - apply wp_bind, wp_ret. apply HQ; [done|done| |done]. intros x Hx. rewrite decide_True by lia.
    rewrite Hm, decide_True by lia. f_equal. lia.
Qed.

Lemma wp_load_segs n : ∀ i s (Q : unit → mach → Prop),
  loadable → 0 ≤ i → i + Z.of_nat n = e_phnum elf_hdr → drive (m_hw s) → scratch (k_mem (m_k s)) →
  (∀ j, 0 ≤ j < i → loaded (prog j) (k_mem (m_k s))) →
  (∀ m h, drive h → scratch m → (∀ j, 0 ≤ j < e_phnum elf_hdr → loaded (prog j) m) → Q tt (upd m h s)) →
  wp (load_segs polls (S n) (0x10000 + (e_phoff elf_hdr + i * 32)) (0x10000 + (e_phoff elf_hdr + e_phnum elf_hdr * 32))) Q s.
Proof.
  induction n as [|n IH]; intros i s Q Hlo Hi Hn Hd Hs Hl HQ.
  - cbn [load_segs]. rewrite (proj2 (Z.ltb_ge _ _)) by lia. apply wp_ret. rewrite <-(upd_same s). apply HQ; [done|done|].
    intros j Hj. apply Hl. lia.
  - apply wp_load_seg with (i := i); [done|lia|done|lia|done|done|]. intros m h Hh Hsm Hlm Hsp.
    replace (0x10000 + (e_phoff elf_hdr + i * 32) + 32) with (0x10000 + (e_phoff elf_hdr + (i + 1) * 32)) by lia.
    apply IH; [done|lia|lia|done|done| |].
    + intros j Hj. destruct (decide (j = i)) as [->|Hne]; [done|]. intros x Hx. simpl. rewrite Hsp; [apply Hl; [lia|done]|].
      apply (lo_apart Hlo); [lia|lia|done].
    + intros m' h' Hh' Hs' Hl'. rewrite upd_upd. by apply HQ.
Qed.

Lemma bootmain_ret s :
  loadable → drive (m_hw s) →
  ∃ m h, bootmain polls s = Ret (Some (e_entry elf_hdr)) (upd m h s) ∧ drive h ∧ ∀ i, 0 ≤ i < e_phnum elf_hdr → loaded (prog i) m.
Proof.
  intros Hlo Hd. destruct (lo_headers Hlo) as (Ho & Hn & Hpg). pose proof (lo_page Hlo) as Hp8.
  assert (wp (bootmain polls) (λ r s', r = Some (e_entry elf_hdr) ∧
    ∃ m h, s' = upd m h s ∧ drive h ∧ ∀ i, 0 ≤ i < e_phnum elf_hdr → loaded (prog i) m) s) as Hwp.
  { unfold bootmain. cbv zeta. apply wp_bind, wp_readseg; [done| |].
    { unfold seg_fits, sects. change ((0 mod 512 + 4096 + 511) / 512) with 8. change (0 mod 512) with 0. change (0 / 512) with 0. lia. }
    intros m h Hh Hm. assert (scratch m) as Hs.
    { intros b Hb. rewrite Hm. unfold sects. change ((0 mod 512 + 4096 + 511) / 512) with 8. change (0 mod 512) with 0.
      rewrite decide_True by lia. f_equal. lia. }
    apply wp_bind, wp_gets. simpl k_mem. pose proof (scratch_bytes m 0 52 Hs ltac:(lia) ltac:(lia)) as Hhd.
    change (0x10000 + 0) with 0x10000 in Hhd. change (Z.to_nat ELFHDR_SIZE) with 52%nat. rewrite Hhd. fold elf_hdr.
    rewrite (lo_magic Hlo), Z.eqb_refl. cbn [negb]. unfold PROGHDR_SIZE. rewrite !u32_small by (rewrite ?u32_small; lia).
    apply wp_bind. rewrite <-Z.add_assoc. rewrite <-(Z.add_0_r (e_phoff elf_hdr)) at 1. rewrite <-(Z.mul_0_l 32) at 1.
    apply wp_load_segs; [done|lia|lia|done|done|intros j Hj; lia|]. intros m1 h1 Hh1 Hs1 Hl1. rewrite upd_upd.
    apply wp_bind, wp_gets, wp_ret. simpl k_mem. pose proof (scratch_bytes m1 0 52 Hs1 ltac:(lia) ltac:(lia)) as Hhd1.
    change (0x10000 + 0) with 0x10000 in Hhd1. rewrite Hhd1. split; [done|]. exists m1, h1. done. }
  apply wp_run in Hwp as (r & s' & Hr & -> & m & h & -> & Hh & Hl). by exists m, h.
Qed.
End load.
