(* ===== verification/Seg.v ===== *)
(** * Seg: segment and gate descriptors ([mmu.h]; [seginit] of [vm.c]; [tvinit] and
    [idtinit] of [trap.c]; [lgdt], [lidt], [ltr] of [x86.h])

    The descriptors have the fields of the source's bit fields.  The state is the
    tables of one processor and the registers that tell the hardware where they
    are; [vectors], the table of entry points that [vectors.S] defines, and the
    addresses of the tables are parameters. *)
From S2P Require Import Prelude.
From S2P Require Import State.
From S2P Require Import Spin.
From S2P Require Import Vm.
From S2P Require Import Blk.
From S2P Require Import Life.
From S2P Require Import Trap.

Module Seg.

Abbreviation SEG_KCODE := 1 (only parsing).
Abbreviation SEG_KDATA := 2 (only parsing).
Abbreviation SEG_TSS := 5 (only parsing).
Abbreviation NSEGS := 6 (only parsing).
Abbreviation STA_X := 0x8 (only parsing).
Abbreviation STA_W := 0x2 (only parsing).
Abbreviation STA_R := 0x2 (only parsing).
Abbreviation STS_T32A := 0x9 (only parsing).
Abbreviation STS_IG32 := 0xE (only parsing).
Abbreviation STS_TG32 := 0xF (only parsing).

Record segdesc := mkSegdesc {
  lim_15_0 : Z; base_15_0 : Z; base_23_16 : Z; sg_type : Z; sg_s : Z; sg_dpl : Z; sg_p : Z;
  lim_19_16 : Z; sg_avl : Z; sg_rsv1 : Z; sg_db : Z; sg_g : Z; base_31_24 : Z
}.
Record gatedesc := mkGatedesc {
  off_15_0 : Z; gt_cs : Z; gt_args : Z; gt_rsv1 : Z; gt_type : Z; gt_s : Z; gt_dpl : Z; gt_p : Z; off_31_16 : Z
}.
(** The fields of [struct taskstate] that the kernel writes. *)
Record taskstate := mkTs { ts_esp0 : Z; ts_ss0 : Z; ts_iomb : Z }.

Definition SEG (type base lim dpl : Z) : segdesc :=
  mkSegdesc (Z.land (Z.shiftr lim 12) 0xffff) (Z.land base 0xffff) (Z.land (Z.shiftr base 16) 0xff) type 1 dpl 1
    (Z.shiftr lim 28) 0 0 1 1 (Z.shiftr base 24).
Definition SEG16 (type base lim dpl : Z) : segdesc :=
  mkSegdesc (Z.land lim 0xffff) (Z.land base 0xffff) (Z.land (Z.shiftr base 16) 0xff) type 1 dpl 1
    (Z.shiftr lim 16) 0 0 1 0 (Z.shiftr base 24).
Definition SETGATE (istrap : bool) (sel off d : Z) : gatedesc :=
  mkGatedesc (Z.land off 0xffff) sel 0 0 (if istrap then STS_TG32 else STS_IG32) 0 d 1 (Z.shiftr off 16).

(** The tables of a processor and the registers with their places: limit and
    base of the tables, and the selector of the task state. *)
Record segst := mkSegst {
  st_gdt : list segdesc; st_idt : list gatedesc; st_ts : taskstate;
  st_gdtr : Z * Z; st_idtr : Z * Z; st_tr : Z;
  st_k : kernel
}.
#[export] Instance eta_segst : Eta segst :=
  λ r, mkSegst (st_gdt r) (st_idt r) (st_ts r) (st_gdtr r) (st_idtr r) (st_tr r) (st_k r).

(** The pseudo descriptor that [lgdt] and [lidt] build. *)
Definition pseudo_desc (p size : Z) : Z * Z * Z := (u16 (size - 1), u16 p, u16 (Z.shiftr p 16)).
(** What the instruction loads from it. *)
Definition load_desc (pd : Z * Z * Z) : Z * Z := let '(pd0, pd1, pd2) := pd in (pd0, pd1 + 65536 * pd2).
Definition lgdt (p size : Z) : M segst unit := modify (λ s, s <| st_gdtr := load_desc (pseudo_desc p size) |>).
Definition lidt (p size : Z) : M segst unit := modify (λ s, s <| st_idtr := load_desc (pseudo_desc p size) |>).
Definition ltr (sel : Z) : M segst unit := modify (λ s, s <| st_tr := sel |>).

(** [c->gdt[i] = d] and [idt[i] = g]. *)
Local Notation set_seg i d := (modify (λ s, s <| st_gdt := <[Z.to_nat i := d]> (st_gdt s) |>)) (only parsing).
Local Notation set_gate i g := (modify (λ s, s <| st_idt := <[Z.to_nat i := g]> (st_idt s) |>)) (only parsing).

(** A function of the kernel. *)
Definition kernel_part (m : K unit) : M segst unit := λ s,
  match m (st_k s) with
  | Ret a k => Ret a (s <| st_k := k |>)
  | Switch k => Switch (s <| st_k := k |>)
  | Spin k => Spin (s <| st_k := k |>)
  | Panic e => Panic e
  | Fault e => Fault e
  end.

Section seg.
(** [c->gdt], [idt] and [c->ts] are at these addresses. *)
Context (gdt idt ts : Z) (vectors : list Z).

Definition seginit : M segst unit :=
  set_seg SEG_KCODE (SEG (Z.lor STA_X STA_R) 0 0xffffffff 0) ;;
  set_seg SEG_KDATA (SEG STA_W 0 0xffffffff 0) ;;
  set_seg SEG_UCODE (SEG (Z.lor STA_X STA_R) 0 0xffffffff DPL_USER) ;;
  set_seg SEG_UDATA (SEG STA_W 0 0xffffffff DPL_USER) ;;
  lgdt gdt (8 * NSEGS).

Definition tvinit : M segst unit :=
  for_each (seqZ 0 256) (λ i,
    v ← get_or "vectors" (vectors !! Z.to_nat i);
    set_gate i (SETGATE false (Z.shiftl SEG_KCODE 3) v 0)) ;;
  v ← get_or "vectors" (vectors !! Z.to_nat T_SYSCALL);
  set_gate T_SYSCALL (SETGATE true (Z.shiftl SEG_KCODE 3) v DPL_USER) ;;
  kernel_part (initlock LTicks).

Definition idtinit : M segst unit := lidt idt (8 * 256).

(** The part of [switchuvm] about the task state; a [struct taskstate] has 104 bytes. *)
Definition switch_tss (kstack : Z) : M segst unit :=
  set_seg SEG_TSS (let d := SEG16 STS_T32A ts (104 - 1) 0 in
    mkSegdesc (lim_15_0 d) (base_15_0 d) (base_23_16 d) (sg_type d) 0 (sg_dpl d) (sg_p d)
      (lim_19_16 d) (sg_avl d) (sg_rsv1 d) (sg_db d) (sg_g d) (base_31_24 d)) ;;
  modify (λ s, s <| st_ts := mkTs (u32 (kstack + KSTACKSIZE)) (Z.shiftl SEG_KDATA 3) 0xFFFF |>) ;;
  ltr (Z.shiftl SEG_TSS 3).
End seg.

End Seg.
Import Seg.

(** ** What the hardware reads

    A descriptor is eight bytes; its fields, in the order of the declaration and
    with their widths, from the lowest bit on. *)
Definition pack (fs : list (Z * Z)) : Z := foldr (λ '(w, v) acc, v mod 2 ^ w + 2 ^ w * acc) 0 fs.
Definition seg_word (d : segdesc) : Z :=
  pack [(16, lim_15_0 d); (16, base_15_0 d); (8, base_23_16 d); (4, sg_type d); (1, sg_s d); (2, sg_dpl d); (1, sg_p d);
        (4, lim_19_16 d); (1, sg_avl d); (1, sg_rsv1 d); (1, sg_db d); (1, sg_g d); (8, base_31_24 d)].
Definition gate_word (g : gatedesc) : Z :=
  pack [(16, off_15_0 g); (16, gt_cs g); (5, gt_args g); (3, gt_rsv1 g); (4, gt_type g); (1, gt_s g); (2, gt_dpl g);
        (1, gt_p g); (16, off_31_16 g)].

(** [n] bits from bit [lo] on. *)
Definition bits (x lo n : Z) : Z := (x / 2 ^ lo) mod 2 ^ n.

(** The processor's reading of a segment descriptor. *)
Definition seg_base (x : Z) : Z := bits x 16 24 + 2 ^ 24 * bits x 56 8.
Definition seg_limit (x : Z) : Z :=
  let l := bits x 0 16 + 2 ^ 16 * bits x 48 4 in if bits x 55 1 =? 1 then l * 4096 + 4095 else l.
Definition seg_dpl (x : Z) : Z := bits x 45 2.
Definition seg_present (x : Z) : bool := bits x 47 1 =? 1.

(** An interrupt [n], by the hardware or by the instruction [int] at the current
    privilege level: the gate's selector and offset, and whether interrupts are
    disabled on entry; [None] is a fault. *)
Definition enter (s : segst) (cpl : option Z) (n : Z) : option (Z * Z * bool) :=
  if 8 * n + 7 <=? (st_idtr s).1 then
    g ←? st_idt s !! Z.to_nat n;
    let x := gate_word g in
    if (bits x 47 1 =? 1) && (match cpl with Some c => c <=? bits x 45 2 | None => true end) then
      Some (bits x 16 16, bits x 0 16 + 2 ^ 16 * bits x 48 16, bits x 40 4 =? STS_IG32)
    else None
  else None.

Lemma pow2_pos n : 0 ≤ n → 0 < 2 ^ n.
Proof. intros H. by apply Z.pow_pos_nonneg. Qed.
Lemma bits_split x lo a b : 0 ≤ lo → 0 ≤ a → 0 ≤ b → bits x lo (a + b) = bits x lo a + 2 ^ a * bits x (lo + a) b.
Proof.
  intros Hl Ha Hb. pose proof (pow2_pos lo Hl). pose proof (pow2_pos a Ha). pose proof (pow2_pos b Hb).
  unfold bits. rewrite !Z.pow_add_r, Z.rem_mul_r by lia. by rewrite Z.div_div by lia.
Qed.
Lemma bits_here w v fs : 0 ≤ w → bits (pack ((w, v) :: fs)) 0 w = v mod 2 ^ w.
Proof.
  intros Hw. pose proof (pow2_pos w Hw). unfold bits. cbn [pack foldr].
  rewrite Z.pow_0_r, Z.div_1_r, (Z.mul_comm (2 ^ w)), Z_mod_plus_full. apply Z.mod_mod. lia.
Qed.
Lemma bits_skip w v fs lo n : 0 ≤ w ≤ lo → bits (pack ((w, v) :: fs)) lo n = bits (pack fs) (lo - w) n.
Proof.
  intros Hw. pose proof (pow2_pos w ltac:(lia)). pose proof (pow2_pos (lo - w) ltac:(lia)). unfold bits. cbn [pack foldr].
  replace lo with (w + (lo - w)) at 1 by lia. rewrite Z.pow_add_r, <-Z.div_div by lia. do 2 f_equal.
  rewrite Z.add_comm, Z.mul_comm, Z.div_add_l by lia. rewrite Z.div_small; [by rewrite Z.add_0_r|]. apply Z.mod_pos_bound. lia.
Qed.

(** A field of a packed word. *)
Lemma bits_at fs : ∀ i lo w v,
  forallb (λ f, 0 <=? f.1) fs = true → fs !! i = Some (w, v) → lo = foldr (λ f a, f.1 + a) 0 (take i fs) → bits (pack fs) lo w = v mod 2 ^ w.
Proof.
  induction fs as [|[w0 v0] fs IH]; intros i lo w v Hw Hi ->; [done|]. cbn [forallb fst] in Hw. apply andb_true_iff in Hw as [H0 Hw].
  apply Z.leb_le in H0. destruct i as [|i]; cbn [lookup list_lookup] in Hi; cbn [take foldr fst].
  - injection Hi as -> ->. by apply bits_here.
  - assert (0 ≤ foldr (λ f a, f.1 + a) 0 (take i fs)).
    { clear -Hw. revert i. induction fs as [|f fs IH]; intros [|i]; simpl in *; try lia. apply andb_true_iff in Hw as [H1 H2].
      specialize (IH H2 i). lia. }
    rewrite bits_skip by lia. rewrite Z.add_simpl_l. by apply (IH i).
Qed.
Ltac bits_at i := apply (bits_at _ i); reflexivity.

Lemma seg_fields d :
  let x := seg_word d in
  bits x 0 16 = lim_15_0 d mod 2 ^ 16 ∧ bits x 16 16 = base_15_0 d mod 2 ^ 16 ∧ bits x 32 8 = base_23_16 d mod 2 ^ 8 ∧
  bits x 45 2 = sg_dpl d mod 2 ^ 2 ∧ bits x 47 1 = sg_p d mod 2 ^ 1 ∧ bits x 48 4 = lim_19_16 d mod 2 ^ 4 ∧
  bits x 55 1 = sg_g d mod 2 ^ 1 ∧ bits x 56 8 = base_31_24 d mod 2 ^ 8.
Proof.
  split_and!; [bits_at 0%nat|bits_at 1%nat|bits_at 2%nat|bits_at 5%nat|bits_at 6%nat|bits_at 7%nat|bits_at 11%nat|bits_at 12%nat].
Qed.
Lemma gate_fields g :
  let x := gate_word g in
  bits x 0 16 = off_15_0 g mod 2 ^ 16 ∧ bits x 16 16 = gt_cs g mod 2 ^ 16 ∧ bits x 40 4 = gt_type g mod 2 ^ 4 ∧
  bits x 45 2 = gt_dpl g mod 2 ^ 2 ∧ bits x 47 1 = gt_p g mod 2 ^ 1 ∧ bits x 48 16 = off_31_16 g mod 2 ^ 16.
Proof. split_and!; [bits_at 0%nat|bits_at 1%nat|bits_at 4%nat|bits_at 6%nat|bits_at 7%nat|bits_at 8%nat]. Qed.

(** The masks of the macros. *)
Lemma mask_mod x : Z.land x 0xffff = x mod 2 ^ 16 ∧ Z.land x 0xff = x mod 2 ^ 8.
Proof. split; [change 0xffff with (Z.ones 16)|change 0xff with (Z.ones 8)]; by apply Z.land_ones. Qed.

(** A segment made by [SEG] has the base and, up to whole pages, the limit it was
    asked for. *)
Lemma seg_encodes type base lim dpl :
  0 ≤ base < 2 ^ 32 → 0 ≤ lim < 2 ^ 32 → 0 ≤ dpl < 4 →
  let x := seg_word (SEG type base lim dpl) in
  seg_base x = base ∧ seg_limit x = lim / 4096 * 4096 + 4095 ∧ seg_dpl x = dpl ∧ seg_present x = true.
Proof.
  intros Hb Hl Hd x. destruct (seg_fields (SEG type base lim dpl)) as (F1 & F2 & F3 & F4 & F5 & F6 & F7 & F8). fold x in F1, F2, F3, F4, F5, F6, F7, F8.
  unfold seg_base, seg_limit, seg_dpl, seg_present. change 24 with (16 + 8) at 1. rewrite bits_split by lia. change (16 + 16) with 32.
  rewrite F1, F2, F3, F4, F5, F6, F7, F8. unfold SEG. cbn [lim_15_0 base_15_0 base_23_16 sg_dpl sg_p lim_19_16 sg_g base_31_24].
  rewrite !(proj1 (mask_mod _)), !(proj2 (mask_mod _)), !Z.shiftr_div_pow2 by lia. change (1 mod 2 ^ 1 =? 1) with true. cbv iota.
  change (2 ^ 32) with 4294967296 in *. change (2 ^ 28) with 268435456. change (2 ^ 24) with 16777216. change (2 ^ 16) with 65536.
  change (2 ^ 12) with 4096. change (2 ^ 8) with 256. change (2 ^ 4) with 16. change (2 ^ 2) with 4.
  split_and!; [| | |done]; Z.div_mod_to_equations; lia.
Qed.

(** ** The tables after the initialisation *)

(** Entering through a gate made by [SETGATE]. *)
Lemma enter_gate s cpl n istrap v d :
  0 ≤ n < 256 → (st_idtr s).1 = 2047 → st_idt s !! Z.to_nat n = Some (SETGATE istrap (Z.shiftl SEG_KCODE 3) v d) → 0 ≤ v < 2 ^ 32 → 0 ≤ d < 4 →
  enter s cpl n = if match cpl with Some c => c <=? d | None => true end then Some (8, v, negb istrap) else None.
Proof.
  intros Hn Hl Hg Hv Hd. unfold enter. rewrite Hl, Hg. rewrite (proj2 (Z.leb_le _ _)) by lia. cbn [mbind option_bind].
  destruct (gate_fields (SETGATE istrap (Z.shiftl SEG_KCODE 3) v d)) as (F1 & F2 & F3 & F4 & F5 & F6).
  rewrite F1, F2, F3, F4, F5, F6. unfold SETGATE. cbn [off_15_0 gt_cs gt_type gt_dpl gt_p off_31_16].
  rewrite (proj1 (mask_mod v)), Z.shiftr_div_pow2 by lia. change (1 mod 2 ^ 1 =? 1) with true. cbn [andb].
  change (2 ^ 32) with 4294967296 in *. change (2 ^ 16) with 65536. change (2 ^ 2) with 4. rewrite (Z.mod_small d) by lia.
  destruct (match cpl with Some c => c <=? d | None => true end); [|done]. f_equal. f_equal; [|by destruct istrap].
  f_equal. Z.div_mod_to_equations; lia.
Qed.

Section init.
Context (gdt idt : Z) (vectors : list Z) (Hvec : length vectors = 256%nat).
Implicit Types s : segst.

Lemma gates_ret n : ∀ a s,
  0 ≤ a → a + Z.of_nat n ≤ 256 → length (st_idt s) = 256%nat →
  ∃ t, for_each (seqZ a (Z.of_nat n)) (λ i,
      v ← get_or "vectors" (vectors !! Z.to_nat i);
      modify (λ s, s <| st_idt := <[Z.to_nat i := SETGATE false (Z.shiftl SEG_KCODE 3) v 0]> (st_idt s) |>)) s = Ret tt (s <| st_idt := t |>) ∧
    length t = 256%nat ∧
    ∀ j, t !! j = if decide (a ≤ Z.of_nat j < a + Z.of_nat n) then (λ v, SETGATE false (Z.shiftl SEG_KCODE 3) v 0) <$> vectors !! j else st_idt s !! j.
Proof.
  induction n as [|n IH]; intros a s Ha Hn Hl.
  - exists (st_idt s). split_and!; [by destruct s|done|]. intros j. by rewrite decide_False by lia.
  - rewrite seqZ_cons by lia. cbn [for_each]. replace (Z.pred (Z.of_nat (S n))) with (Z.of_nat n) by lia.
    destruct (lookup_lt_is_Some_2 vectors (Z.to_nat a) ltac:(lia)) as [v Hv].
    unfold bind at 1 2. unfold get_or, ret at 1. rewrite Hv. unfold modify at 1.
    match goal with |- context [for_each _ _ ?s1] => destruct (IH (Z.succ a) s1) as (t & Ht & Htl & Htj); [lia|lia|simpl; by rewrite length_insert|] end.
    exists t. split_and!; [exact Ht|done|]. intros j. rewrite Htj. simpl. destruct (decide (j = Z.to_nat a)) as [->|Hne].
    + rewrite decide_False by lia. rewrite decide_True by lia. rewrite list_lookup_insert_eq by lia. by rewrite Hv.
    + rewrite list_lookup_insert_ne by done. repeat case_decide; done || lia.
Qed.

Lemma halves p : u16 p + 65536 * u16 (Z.shiftr p 16) = u32 p.
Proof. rewrite Z.shiftr_div_pow2 by lia. change (2 ^ 16) with 65536. unfold u16, u32. Z.div_mod_to_equations; lia. Qed.

Lemma init_ret s :
  length (st_gdt s) = 6%nat → length (st_idt s) = 256%nat →
  ∃ s', (seginit gdt ;; tvinit vectors ;; idtinit idt) s = Ret tt s' ∧
    st_gdtr s' = (47, u32 gdt) ∧ st_idtr s' = (2047, u32 idt) ∧
    st_gdt s' !! 1%nat = Some (SEG (Z.lor STA_X STA_R) 0 0xffffffff 0) ∧ st_gdt s' !! 2%nat = Some (SEG STA_W 0 0xffffffff 0) ∧
    st_gdt s' !! 3%nat = Some (SEG (Z.lor STA_X STA_R) 0 0xffffffff 3) ∧ st_gdt s' !! 4%nat = Some (SEG STA_W 0 0xffffffff 3) ∧
    ∀ n v, 0 ≤ n < 256 → vectors !! Z.to_nat n = Some v →
      st_idt s' !! Z.to_nat n = Some (SETGATE (n =? T_SYSCALL) (Z.shiftl SEG_KCODE 3) v (if n =? T_SYSCALL then 3 else 0)).
Proof.
  intros Hg Hi. unfold bind at 1. unfold seginit, bind at 1, modify. cbn.
  match goal with |- context [(tvinit _ ;; _) ?s1] => destruct (gates_ret 256 0 s1) as (t & Ht & Htl & Htj); [lia|lia|done|] end.
  destruct (lookup_lt_is_Some_2 vectors 64 ltac:(lia)) as [v64 Hv64].
  unfold tvinit, bind at 1 2. change (seqZ 0 256) with (seqZ 0 (Z.of_nat 256)). rewrite Ht. unfold bind at 1 2, get_or.
  change (Z.to_nat T_SYSCALL) with 64%nat. rewrite Hv64. unfold ret at 1. eexists. split; [reflexivity|]. cbn.
  change (Z.to_nat SEG_UDATA) with 4%nat. change (Z.to_nat SEG_UCODE) with 3%nat. change (Z.to_nat 2) with 2%nat. change (Z.to_nat 1) with 1%nat.
  split_and!; [by rewrite halves|by rewrite halves
    |rewrite ?list_lookup_insert_ne by done; by rewrite list_lookup_insert_eq by (rewrite ?length_insert; lia)..|].
  intros n v Hn Hv. destruct (Z.eqb_spec n T_SYSCALL) as [->|Hne].
  - change (Z.to_nat T_SYSCALL) with 64%nat in *. rewrite list_lookup_insert_eq by lia. rewrite Hv64 in Hv. injection Hv as ->. reflexivity.
  - rewrite list_lookup_insert_ne by lia. rewrite Htj, decide_True by lia. by rewrite Hv.
Qed.
End init.
