(* ===== verification/MainDev.v ===== *)
(** * MainDev: the properties of the device drivers

    The theorems about keyboard, IDE disk and multiprocessor tables.  For their
    closed instances there is a machine with a keyboard controller and an IDE disk
    that behave as the drivers expect. *)
From S2P Require Import Prelude.
From S2P Require Import Mem.
From S2P Require Import Str.
From S2P Require Import State.
From S2P Require Import Spin.
From S2P Require Import Boot.
From S2P Require Import Cons.
From S2P Require Import Vm.
From S2P Require Import Mlq.
From S2P Require Import Proc.
From S2P Require Import ProcSpec.
From S2P Require Import Blk.
From S2P Require Import Bio.
From S2P Require Import ConsDev.
From S2P Require Import Exec.
From S2P Require Import Life.
From S2P Require Import Trap.
From S2P Require Import BioSpec.
From S2P Require Import FsDisk.
From S2P Require Import MainFile.
From S2P Require Import Hw.
From S2P Require Import Chips.
From S2P Require Import Kbd.
From S2P Require Import Ide.
From S2P Require Import Mp.
From S2P Require Import Bootmain.
From S2P Require Import Seg.
Import Ide.

(** The scan codes that wait, and the disk.  A read command and the writing of a
    sector take two polls. *)
Record pc := mkPc { pc_keys : list Z; pc_ata : atast }.

Definition pc_in (p : Z) (h : pc) : Z * pc :=
  if p =? Kbd.KBSTATP then (match pc_keys h with [] => 0 | _ => 1 end, h)
  else if p =? Kbd.KBDATAP then (default 0 (head (pc_keys h)), mkPc (tail (pc_keys h)) (pc_ata h))
  else if p =? 0x1f7 then
    match at_busy (pc_ata h) with
    | O => (IDE_DRDY, h)
    | S n => (IDE_BSY, mkPc (pc_keys h) (pc_ata h <| at_busy := n |>))
    end
  else (0, h).
Definition pc_out (p v : Z) (h : pc) : pc :=
  mkPc (pc_keys h) (ata_out false p v (pc_ata h)
    <| at_busy := if (p =? 0x1f7) && (v =? IDE_CMD_READ) then 2%nat else 0%nat |>).
Definition pc_inl (p : Z) (h : pc) : Z * pc :=
  match at_phase (pc_ata h) with
  | PIn (w :: ws) => (w, mkPc (pc_keys h) (pc_ata h <| at_phase := if decide (ws = []) then PIdle else PIn ws |>))
  | _ => (0, h)
  end.
Definition pc_outl (p w : Z) (h : pc) : pc :=
  mkPc (pc_keys h) (ata_outl false [] w (pc_ata h)
    <| at_busy := match at_phase (pc_ata h) with
                  | POut ws => if (length ws =? 127)%nat then 2%nat else 0%nat
                  | _ => 0%nat
                  end |>).

#[export] Instance pc_hw : Hw := {|
  hw := pc; port_in := pc_in; port_out := pc_out; port_inl := pc_inl; port_outl := pc_outl;
  mmio_in _ h := (0, h); mmio_out _ _ h := h
|}.
#[export, program] Instance pc_kbd : KbdController := {| kb_pending := pc_keys |}.
Next Obligation. intros [[|d ds] a]; done. Qed.
Next Obligation. intros [ks a] d ds H. simpl in *. by subst. Qed.
(** The disk has no errors. *)
#[export, program] Instance pc_disk : Ata := {| ata h := pc_ata h <| at_error := false |>; ata_patience := 2 |}.
Next Obligation.
  intros [ks a]. unfold pc_in. simpl. destruct a as [[|n] e cn l0 l1 l2 dr ph d0 d1]; simpl; [by repeat split|].
  split; [done|]. by exists n.
Qed.
Next Obligation.
  intros p v [ks a] Hb Hp. simpl. exists (if (p =? 0x1f7) && (v =? IDE_CMD_READ) then 2%nat else 0%nat), false.
  destruct (Z.eqb_spec p 0x1f7), (Z.eqb_spec v IDE_CMD_READ); simpl; (split_and!; [lia|done|]);
    unfold ata_out; by repeat (case_match; try done).
Qed.
Next Obligation. intros [ks a] w ws Hb Hp. simpl in *. unfold pc_inl. simpl. by rewrite Hp. Qed.
Next Obligation.
  intros [ks a] w ws Hb Hp. simpl in *. exists (if (length ws =? 127)%nat then 2%nat else 0%nat), false, []. simpl.
  unfold ata_outl. simpl. rewrite Hp. destruct (Nat.eqb_spec (length ws) 127); (split_and!; [lia|done|]); [|done].
  destruct a as [bu er cn l0 l1 l2 dr ph d0 d1]. unfold ata_store, ata_second, ata_sector. cbn [at_drive].
  match goal with |- context [if Z.testbit ?d 4 then _ else _] => change d with dr end. by destruct (Z.testbit dr 4).
Qed.
#[export] Instance pc_prompt : AtaPrompt.
Proof. intros [ks a] _. done. Qed.
#[export] Instance pc_reliable : AtaReliable.
Proof. done. Qed.

(** ** Keyboard *)

(** C21: typing a text types it.  When the scan codes wait in the keyboard controller
    that a US keyboard sends for a text (each key pressed and released, with the left
    shift key where the character needs it) and no modifier is set, the keyboard
    interrupt hands exactly the characters of the text to the console, leaves no
    modifier key set and no code waiting. *)
Theorem keyboard_types `{HW : !Hw} `{KB : !KbdController} polls text (s : mach) k :
  Forall (λ c, typable c = true) text →
  kb_pending (m_hw s) = text_keys text → m_shift s = 0 → (length (text_keys text) < polls)%nat →
  ConsDev.consoleintr text (m_k s) = Ret tt k →
  ∃ s', Kbd.kbdintr polls s = Ret tt s' ∧ m_k s' = k ∧ m_shift s' = 0 ∧ kb_pending (m_hw s') = [].
Proof.
  intros Ht Hp Hs Hl Hr. destruct (text_keys_type text Ht) as (out & H1 & H2 & H3 & H4).
  rewrite <-Hs in H1 at 1. destruct (kbdgetc_yields (text_keys text) s 0 out Hp H1 H4) as (s' & Hy & Hsh & Hpe & Hk).
  exists (s' <| m_k := k |>). split_and!; [|done|done|done].
  apply (consoleintr_chars polls Kbd.kbdgetc out); [apply kbdgetc_apart|done| |].
  - rewrite (kbd_codes_length _ _ _ _ H1) in Hl. done.
  - rewrite <-Hr. unfold ConsDev.consoleintr, bind. destruct (acquire LCons (m_k s)); try done. by rewrite input_chars_sounds, H2.
Qed.

Definition disk_1000 : list (list Z) := replicate 1000 zero_block.
Definition idle_disk : atast := mkAta 0 false 0 0 0 0 0 PIdle [] disk_1000.
Definition kbd_text : list Z := chars "echo Hi!" ++ [NEWLINE].
Definition kbd_machine : mach :=
  mkMach (H := pc_hw) (sample DEFAULT) (mkPc (text_keys kbd_text) idle_disk) 0 0 0 0 0 0 None [].

Lemma keyboard_types_witness :
  ∃ s', Kbd.kbdintr 100 kbd_machine = Ret tt s' ∧
    take 9 (in_buf (k_input (m_k s'))) = kbd_text ∧ m_shift s' = 0 ∧ kb_pending (m_hw s') = [].
Proof.
  destruct (keyboard_types 100 kbd_text kbd_machine
    (match ConsDev.consoleintr kbd_text (sample DEFAULT) with Ret _ k => k | _ => sample DEFAULT end)) as (s' & H1 & H2 & H3 & H4).
  - vm_compute. repeat constructor.
  - reflexivity.
  - reflexivity.
  - vm_compute. lia.
  - vm_compute. reflexivity.
  - exists s'. split; [exact H1|]. rewrite H2. split; [vm_compute; reflexivity|]. split; [exact H3|exact H4].
Defined.

(** ** The IDE driver *)

Lemma valid_clean f : Z.ldiff (Z.lor f B_VALID) B_DIRTY = Z.lor (Z.ldiff f B_DIRTY) B_VALID.
Proof.
  apply Z.bits_inj'. intros n Hn. rewrite Z.ldiff_spec, !Z.lor_spec, Z.ldiff_spec.
  change B_VALID with (2 ^ 1). change B_DIRTY with (2 ^ 2). rewrite !Z.pow2_bits_eqb by lia.
  destruct (Z.eqb_spec 1 n), (Z.eqb_spec 2 n); try lia; destruct (Z.testbit f n); done.
Qed.
Lemma clean_flags f : truthy (Z.land f B_DIRTY) = false → Z.ldiff f B_DIRTY = f.
Proof.
  intros H%truthy_false. apply Z.bits_inj'. intros n Hn. rewrite Z.ldiff_spec.
  assert (Z.testbit (Z.land f B_DIRTY) n = false) as Hb by by rewrite H, Z.bits_0. rewrite Z.land_spec in Hb.
  destruct (Z.testbit f n), (Z.testbit B_DIRTY n); done.
Qed.

(** The memory disk, for a request to disk 1 that is in range. *)
Lemma memdisk_ret i c me pid k b x :
  bio_env i c me pid k → k_slocks k !! LBuf b = Some (mkSleeplock 1 pid) → (b < NBUF)%nat →
  k_bcache k !! b = Some x → request x → b_dev x = 1 → length (k_disk k) = 1000%nat →
  ∃ k', Bio.iderw b k = Ret tt k' ∧
    k_bcache k' !! b = Some (served (blk_at (k_disk k) (b_blockno x)) x) ∧
    k_disk k' = if dirty x then set_blk (k_disk k) (b_blockno x) (b_data x) else k_disk k.
Proof.
  intros He Hs Hb Hx [R1 R2 R3] Hdev Hlen. assert (b < length (k_bcache k))%nat as Hbl by by eapply lookup_lt_Some.
  unfold Bio.iderw. erewrite bind_ret_eq by by eapply holdingsleep_ret. cbn [negb].
  unfold get_buf, bind at 1 2, gets at 1, get_or at 1. rewrite Hx. unfold ret at 1. cbv iota beta.
  rewrite (proj2 (Z.eqb_neq _ _) R3), Hdev. cbn [negb Z.eqb Pos.eqb]. unfold bind at 1, gets at 1.
  rewrite Hlen, (proj2 (Z.leb_gt _ _)) by lia. unfold served. fold (dirty x). destruct (dirty x) eqn:E.
  - unfold upd_buf, bind, modify. simpl. eexists. split; [done|]. simpl.
    rewrite (alter_lookup _ _ _ _ Hx), alter_insert_same by done. rewrite list_lookup_insert_eq by done. split; [|done]. by rewrite valid_clean.
  - destruct (lookup_lt_is_Some_2 (k_disk k) (Z.to_nat (b_blockno x)) ltac:(lia)) as [d Hd].
    unfold get_or, upd_buf, bind, modify, ret. rewrite Hd. simpl. eexists. split; [done|]. simpl.
    rewrite (alter_lookup _ _ _ _ Hx), alter_insert_same by done. rewrite list_lookup_insert_eq by done. split; [|done].
    unfold blk_at. rewrite Hd. simpl. do 2 f_equal. rewrite valid_clean. f_equal. symmetry. by apply clean_flags.
Qed.

(** C8: the IDE driver does what the memory disk does, on an ATA disk that never
    reports an error and that takes data right after a write command: with the disk
    idle, [iderw] queues the buffer, starts the request and puts the process to sleep;
    when the interrupt comes, buffer and disk are as the memory disk's [iderw] leaves
    them, and the process is runnable again. *)
Theorem ide_refines_memdisk `{HW : !Hw} `{AT : !Ata} `{RL : !AtaReliable} `{PR : !AtaPrompt} polls i c me pid p (s : mach) b x a0 :
  (ata_patience < polls)%nat → bio_env i c me pid (m_k s) → c_ncli c = 0 → lock_free LIde (m_k s) → k_proc (m_k s) !! me = Some p →
  k_slocks (m_k s) !! LBuf b = Some (mkSleeplock 1 pid) → (b < NBUF)%nat →
  length (k_bcache (m_k s)) = S NBUF → length (m_qnext s) = S NBUF →
  k_bcache (m_k s) !! b = Some x → request x → b_dev x = 1 → m_havedisk1 s ≠ 0 →
  queued s [] a0 → k_disk (m_k s) = at_disk1 a0 →
  ∃ s1 k', Ide.iderw polls b s = Switch s1 ∧ Bio.iderw b (m_k s) = Ret tt k' ∧
    ∀ s2 j cj, m_hw s2 = m_hw s1 → m_idequeue s2 = m_idequeue s1 → m_qnext s2 = m_qnext s1 →
      k_bcache (m_k s2) = k_bcache (m_k s1) → k_proc (m_k s2) = k_proc (m_k s1) →
      table_ready (m_k s2) j cj → lock_free LIde (m_k s2) →
      ∃ s3, Ide.ideintr polls s2 = Ret tt s3 ∧ k_bcache (m_k s3) !! b = k_bcache k' !! b ∧
        at_disk1 (ata (m_hw s3)) = k_disk k' ∧ p_state <$> k_proc (m_k s3) !! me = Some RUNNABLE.
Proof.
  intros Hpo He Hn Hf Hp Hsl Hb Hbl Hql Hx Hrq Hdev Hh1 Hq Hdk.
  assert (second_disk x = true) as Hsec by (unfold second_disk; by rewrite Hdev).
  destruct (iderw_ret polls Hpo i c me pid p s b x [] a0) as (s1 & H1 & Hq1 & Hbc1 & Hpr1); try done; [by right|apply not_elem_of_nil|].
  destruct (memdisk_ret i c me pid (m_k s) b x) as (k' & H2 & Hb2 & Hd2); try done; [rewrite Hdk; apply (qd_disks _ _ _ Hq true)|].
  exists s1, k'. split_and!; [done|done|]. intros s2 j cj E1 E2 E3 E4 E5 Htab Hfree.
  destruct Hq1 as [Q1 Q2 Q3 Q4 (x' & Hx' & Hsv)]. assert (x' = x) as -> by congruence.
  destruct (ideintr_ret polls Hpo j cj s2 b x [] a0) as (s3 & a1 & H3 & Hd3 & Hq3 & Hk3); try done.
  { split; rewrite ?E1, ?E2, ?E3, ?E4; try done. by exists x. } { by rewrite E4, Hbc1. }
  exists s3. split_and!; [done| | |].
  - rewrite Hk3, Hb2. simpl. rewrite list_lookup_insert_eq by (rewrite E4, Hbc1; by eapply lookup_lt_Some).
    rewrite Hsec, Hdk. done.
  - destruct Hq3 as [_ _ _ _ (_ & _ & ->)]. rewrite Hd2. pose proof (Hd3 true) as Ha. simpl in Ha. rewrite Ha, E1.
    pose proof (sv_disk _ _ _ Hsv) as Hsd. rewrite Hsec in Hsd. simpl in Hsd. by rewrite Hsd, Hdk.
  - rewrite Hk3. simpl. rewrite list_lookup_fmap, E5, Hpr1. rewrite list_lookup_insert_eq by by eapply lookup_lt_Some. simpl.
    unfold wake, asleep. simpl. by rewrite !bool_decide_true by done.
Qed.

(** Buffer 0 is locked by process 1 and is to be read from block 5 of disk 1. *)
Definition ide_kernel : kernel :=
  small_with small_ics disk_1000
    <| k_slocks := <[LBuf 0 := mkSleeplock 1 1]> small_slocks |>
    <| k_bcache := mkBuf 0 1 5 1 0 0 zero_block :: replicate NBUF zero_buf |>.
Lemma bio_env_caches i c me pid k sl bc :
  bio_env i c me pid k → lock_free LIde k →
  bio_env i c me pid (k <| k_slocks := sl |> <| k_bcache := bc |>) ∧ lock_free LIde (k <| k_slocks := sl |> <| k_bcache := bc |>).
Proof. intros [H1 H2 H3 H4 H5 H6 H7] Hl. split; [|done]. split; [by eapply on_cpu_ext|done..]. Qed.
Lemma ide_kernel_env : bio_env 0 sample_cpu 0 1 ide_kernel ∧ lock_free LIde ide_kernel.
Proof.
  exact (bio_env_caches _ _ _ _ (small_with small_ics disk_1000) _ _ (small_env small_ics disk_1000)
    (spin_free_ok LIde small_ics disk_1000 ltac:(vm_compute; reflexivity))).
Qed.
Definition ide_machine : mach :=
  mkMach (H := pc_hw) ide_kernel (mkPc [] (idle_disk <| at_disk0 := disk_1000 |>)) 0 0 0 0 0 1 None (replicate (S NBUF) None).

Lemma disk_1000_ok : length disk_1000 = 1000%nat ∧ ∀ b, 0 ≤ b < 1000 → block_ok (blk_at disk_1000 b).
Proof.
  split; [apply length_replicate|]. intros b Hb. unfold blk_at, disk_1000. rewrite lookup_replicate_2 by lia. apply block_ok_zero.
Qed.
Lemma ide_refines_memdisk_witness :
  ∃ s1 k', Ide.iderw 10 0 ide_machine = Switch s1 ∧ Bio.iderw 0 ide_kernel = Ret tt k' ∧
    ∀ s2 j cj, m_hw s2 = m_hw s1 → m_idequeue s2 = m_idequeue s1 → m_qnext s2 = m_qnext s1 →
      k_bcache (m_k s2) = k_bcache (m_k s1) → k_proc (m_k s2) = k_proc (m_k s1) →
      table_ready (m_k s2) j cj → lock_free LIde (m_k s2) →
      ∃ s3, Ide.ideintr 10 s2 = Ret tt s3 ∧ k_bcache (m_k s3) !! 0%nat = k_bcache k' !! 0%nat ∧
        at_disk1 (ata (m_hw s3)) = k_disk k' ∧ p_state <$> k_proc (m_k s3) !! 0%nat = Some RUNNABLE.
Proof.
  apply (ide_refines_memdisk 10 0 sample_cpu 0 1 (sample_proc 1 RUNNING None) ide_machine 0
    (mkBuf 0 1 5 1 0 0 zero_block) (idle_disk <| at_disk0 := disk_1000 |>)).
  - simpl. lia.
  - exact (proj1 ide_kernel_env).
  - reflexivity.
  - exact (proj2 ide_kernel_env).
  - reflexivity.
  - exact (lookup_insert_eq small_slocks (LBuf 0) (mkSleeplock 1 1)).
  - unfold NBUF. lia.
  - reflexivity.
  - reflexivity.
  - reflexivity.
  - split; [simpl; lia|apply block_ok_zero|vm_compute; discriminate].
  - reflexivity.
  - discriminate.
  - split; [done|constructor|intros b Hb; by apply elem_of_nil in Hb|intros []; apply disk_1000_ok|]. split_and!; [simpl; lia|done|done].
  - reflexivity.
Defined.

(** C16: on an ATA disk that never reports an error and that takes data right after a
    write command, the IDE driver serves its queue in order: as many interrupts as
    there are requests finish them all, each buffer is valid and clean afterwards, and buffers
    and disks are as if the requests had been carried out one after the other, a
    read seeing the writes queued before it. *)
Theorem ide_serves_in_order `{HW : !Hw} `{AT : !Ata} `{RL : !AtaReliable} `{PR : !AtaPrompt} polls i c q (s : mach) xs a0 :
  (ata_patience < polls)%nat → table_ready (m_k s) i c → lock_free LIde (m_k s) →
  queued s q a0 → Forall2 (λ b x, k_bcache (m_k s) !! b = Some x) q xs →
  ∃ s', for_each q (λ _, Ide.ideintr polls) s = Ret tt s' ∧ m_idequeue s' = None ∧
    Forall2 (λ b x, k_bcache (m_k s') !! b = Some x) q (serve_all xs (λ e, disk_of e a0)).1 ∧
    (∀ e, disk_of e (ata (m_hw s')) = (serve_all xs (λ e, disk_of e a0)).2 e) ∧
    ∀ b, b ∉ q → k_bcache (m_k s') !! b = k_bcache (m_k s) !! b.
Proof. intros Hp Ht Hf Hq Hx. by apply (interrupts_ret polls Hp i c). Qed.

(** Buffer 0 is being written to block 5, and buffer 1 waits to be read from it. *)
Definition sevens : list Z := replicate 512 7.
Definition ide_bufs : list buf := [mkBuf B_DIRTY 1 5 1 0 0 sevens; mkBuf 0 1 5 1 0 0 zero_block].
Definition ide_queue_kernel : kernel := sample DEFAULT <| k_bcache := ide_bufs ++ replicate 29 zero_buf |>.
Definition ide_before : atast := idle_disk <| at_disk0 := disk_1000 |>.
Definition ide_queue_machine : mach :=
  mkMach (H := pc_hw) ide_queue_kernel (mkPc [] (ide_before <| at_disk1 := set_blk disk_1000 5 sevens |>)) 0 0 0 0 0 1
    (Some 0%nat) (Some 1%nat :: replicate NBUF None).

Lemma ide_serves_in_order_witness :
  ∃ s', for_each [0; 1]%nat (λ _, Ide.ideintr 10) ide_queue_machine = Ret tt s' ∧ m_idequeue s' = None ∧
    Forall2 (λ b x, k_bcache (m_k s') !! b = Some x) [0; 1]%nat (serve_all ide_bufs (λ e, disk_of e ide_before)).1 ∧
    (∀ e, disk_of e (ata (m_hw s')) = (serve_all ide_bufs (λ e, disk_of e ide_before)).2 e) ∧
    ∀ b, b ∉ [0; 1]%nat → k_bcache (m_k s') !! b = k_bcache ide_queue_kernel !! b.
Proof.
  assert (request (mkBuf B_DIRTY 1 5 1 0 0 sevens)) as R0.
  { split; [simpl; lia|split; [reflexivity|apply Forall_replicate; unfold is_byte; lia]|vm_compute; discriminate]. }
  assert (request (mkBuf 0 1 5 1 0 0 zero_block)) as R1 by (split; [simpl; lia|apply block_ok_zero|vm_compute; discriminate]).
  apply (ide_serves_in_order 10 0 sample_cpu [0; 1]%nat ide_queue_machine ide_bufs ide_before).
  - simpl. lia.
  - split; [split; done|reflexivity|reflexivity].
  - reflexivity.
  - split.
    + split; [reflexivity|]. exists (Some 1%nat). split; [reflexivity|]. split; [reflexivity|]. exists None. split; reflexivity.
    + repeat constructor; rewrite ?list_elem_of_singleton; [lia|apply not_elem_of_nil].
    + intros b. rewrite elem_of_cons, list_elem_of_singleton. intros [->| ->]; eexists; split; [reflexivity|exact R0|reflexivity|exact R1].
    + intros []; apply disk_1000_ok.
    + eexists. split; [reflexivity|]. split; [simpl; lia|reflexivity|reflexivity|reflexivity].
  - repeat constructor.
Defined.

(** C30: a read that fails is taken for a successful one.  When the disk reports an
    error for the read at the head of the queue, the interrupt handler skips the data
    but marks the buffer valid all the same, with the bytes it held before, and wakes
    the process, which has no way to notice. *)
Theorem failed_read_is_valid `{HW : !Hw} `{AT : !Ata} polls i c (s : mach) b x :
  (at_busy (ata (m_hw s)) < polls)%nat → at_error (ata (m_hw s)) = true →
  table_ready (m_k s) i c → lock_free LIde (m_k s) →
  m_idequeue s = Some b → m_qnext s !! b = Some None → k_bcache (m_k s) !! b = Some x → dirty x = false →
  ∃ s', Ide.ideintr polls s = Ret tt s' ∧ m_idequeue s' = None ∧
    m_k s' = m_k s <| k_bcache := <[b := x <| b_flags := Z.ldiff (Z.lor (b_flags x) B_VALID) B_DIRTY |>]> (k_bcache (m_k s)) |>
                   <| k_proc := wake (Some (ChBufIO b)) (k_ticks (m_k s)) <$> k_proc (m_k s) |>.
Proof.
  intros Hb He Htab Hfree Hhd Hn Hx Hdi. assert (b < length (k_bcache (m_k s)))%nat as Hbl by by eapply lookup_lt_Some.
  assert (wp (ideintr polls) (λ _ s', m_idequeue s' = None ∧
    m_k s' = m_k s <| k_bcache := <[b := x <| b_flags := Z.ldiff (Z.lor (b_flags x) B_VALID) B_DIRTY |>]> (k_bcache (m_k s)) |>
                   <| k_proc := wake (Some (ChBufIO b)) (k_ticks (m_k s)) <$> k_proc (m_k s) |>) s) as Hwp.
  2: { apply wp_run in Hwp as ([] & s' & Hr & H). eauto. }
  unfold ideintr. apply wp_bind. eapply wp_kern_ret; [reflexivity|by apply acquire_ret, Hfree; apply Htab|].
  apply wp_bind, wp_gets. simpl m_idequeue. rewrite Hhd. apply wp_bind. eapply wp_of_eq; [unfold qnext, bind, gets, get_or; simpl; by rewrite Hn|].
  apply wp_bind, wp_modify. apply wp_bind. eapply wp_kern_ret; [reflexivity|unfold get_buf, bind, gets, get_or; simpl; by rewrite Hx|].
  apply wp_bind. fold (dirty x). rewrite Hdi. simpl. apply wp_bind, wp_hwp, hwp_idewait_err; [done|]. intros h _. simpl. rewrite He. simpl.
  apply wp_ret. apply wp_bind. eapply wp_kern_ret; [reflexivity|apply (upd_buf_ret _ _ x); simpl; exact Hx|].
  apply wp_bind. eapply wp_kern_ret; [reflexivity|eapply upd_buf_ret; simpl; by apply list_lookup_insert_eq|].
  apply wp_bind. eapply wp_kern_ret; [reflexivity|apply (wakeup_ret _ _ i (c <| c_ncli := c_ncli c + 1 |>))|].
  { destruct (table_ready_locked LIde (m_k s) i c Htab ltac:(done)) as [T1 T2 T3]. split; [by eapply on_cpu_ext|done|done]. }
  apply wp_bind, wp_gets. simpl. rewrite list_insert_insert_eq. apply wp_bind, wp_ret.
  destruct Htab as [T1 T2 T3]. eapply wp_kern_ret; [reflexivity|by apply (release_ret LIde (m_k s) i c)|]. simpl.
  split; [done|]. by destruct (m_k s).
Qed.

(** A machine whose disk fails every command. *)
Definition bad_in (p : Z) (a : atast) : Z * atast :=
  if p =? 0x1f7 then
    match at_busy a with
    | O => (if at_error a then Z.lor IDE_DRDY IDE_ERR else IDE_DRDY, a)
    | S n => (IDE_BSY, a <| at_busy := n |>)
    end
  else (0, a).
Definition bad_inl (p : Z) (a : atast) : Z * atast :=
  match at_phase a with
  | PIn (w :: ws) => (w, a <| at_phase := if decide (ws = []) then PIdle else PIn ws |>)
  | _ => (0, a)
  end.
Definition bad_hw : Hw := {|
  hw := atast; port_in := bad_in; port_out p v a := ata_out true p v a <| at_busy := 0%nat |>; port_inl := bad_inl;
  port_outl _ w a := ata_outl true zero_block w a <| at_busy := 0%nat |>; mmio_in _ a := (0, a); mmio_out _ _ a := a
|}.
#[program] Definition bad_disk : @Ata bad_hw := {| ata a := a; ata_patience := 0 |}.
Next Obligation.
  intros [[|n] e cn l0 l1 l2 dr ph d0 d1]; unfold bad_in; simpl; [destruct e; by repeat split|]. split; [done|]. by exists n.
Qed.
Next Obligation. intros p v a Hb Hp. by exists 0%nat, true. Qed.
Next Obligation. intros a w ws Hb Hp. simpl in *. unfold bad_inl. by rewrite Hp. Qed.
Next Obligation. intros a w ws Hb Hp. by exists 0%nat, true, zero_block. Qed.

(** Buffer 0 is to be read, and the command has failed. *)
Definition bad_machine : @mach bad_hw :=
  @mkMach bad_hw (sample DEFAULT <| k_bcache := [mkBuf 0 1 5 1 0 0 sevens] |>)
    (ata_out true 0x1f7 IDE_CMD_READ idle_disk) 0 0 0 0 0 1 (Some 0%nat) [None].
Lemma failed_read_is_valid_witness :
  ∃ s', @Ide.ideintr bad_hw 10 bad_machine = Ret tt s' ∧
    k_bcache (m_k s') = [mkBuf B_VALID 1 5 1 0 0 sevens].
Proof.
  destruct (@failed_read_is_valid bad_hw bad_disk 10 0 sample_cpu bad_machine 0 (mkBuf 0 1 5 1 0 0 sevens))
    as (s' & H & _ & Hk).
  - simpl. lia.
  - reflexivity.
  - split; [by split|reflexivity|reflexivity].
  - reflexivity.
  - reflexivity.
  - reflexivity.
  - reflexivity.
  - reflexivity.
  - exists s'. split; [exact H|]. by rewrite Hk.
Defined.

(** ** The machine that [mpinit] finds *)
Import Mp.

(** The configuration table at [conf] is [len] bytes long and starts with the
    entries [l]. *)
Definition table_at (m : mem) (conf len : Z) (l : list entry) : Prop :=
  0 ≤ conf ∧ ld16 m (conf + MPCONF_LENGTH) = len ∧ conf + len < 4294967296
  ∧ MPCONF_SIZE + Z.of_nat (length (table_bytes l)) ≤ len
  ∧ Forall entry_ok l ∧ mem_has m (conf + MPCONF_SIZE) (table_bytes l).

(** When the BIOS has a configuration table (found by its signature and
    checksum) of well-formed entries and no IMCR, [mpinit] returns.  [cpus] then
    has the first eight processors of the table, in its order, the I/O APIC is
    the last one of the table, and the local APIC's address is the table's. *)
Theorem mpinit_reads_table `{HW : !Hw} polls (s : mach) mp conf l :
  let m := k_mem (m_k s) in
  mpconfig m = Some (mp, conf) →
  table_at m conf (MPCONF_SIZE + Z.of_nat (length (table_bytes l))) l →
  ld8 m (mp + MP_IMCRP) = 0 → (length l < polls)%nat → k_cpus (m_k s) = [] →
  mpinit polls s = Ret tt (s <| m_lapic := ld32 m (conf + MPCONF_LAPICADDR) |>
    <| m_k := m_k s <| k_cpus := (λ a, mkCpu a 0 0 0 None) <$> take 8 (entry_cpus l) |> |>
    <| m_ioapicid := entry_ioapic (m_ioapicid s) l |>).
Proof.
  intros m Hc (H0 & Hlen & Hw & _ & Hok & Hm) Hi Hp Hk. unfold mpinit. unfold bind at 1, gets. fold m. rewrite Hc.
  rewrite Hlen. unfold bind at 1, modify. rewrite !u32_small by lia.
  replace polls with (length l + S (polls - S (length l)))%nat by lia.
  unfold bind at 1. rewrite mp_entries_table by (simpl; try done; lia). cbn [mp_entries].
  rewrite (proj2 (Z.ltb_ge _ _)) by lia. unfold ret. cbn [negb]. rewrite Hi. simpl. unfold with_entries, plus_cpus. simpl. by rewrite Hk.
Qed.

(** C29: an entry of a type other than 0 to 4 makes [mpinit] loop for ever: the
    [break] of the [default] case leaves the [switch] and not the loop, so [p]
    stays where it is, whatever entries come before.  However long it runs, it
    neither returns nor reaches the panic for an unsuitable machine. *)
Theorem mpinit_unknown_entry_loops `{HW : !Hw} polls (s : mach) mp conf len l :
  let m := k_mem (m_k s) in
  mpconfig m = Some (mp, conf) → table_at m conf len l →
  MPCONF_SIZE + Z.of_nat (length (table_bytes l)) < len →
  4 < ld8 m (conf + MPCONF_SIZE + Z.of_nat (length (table_bytes l))) →
  ∃ s', mpinit polls s = Spin s'.
Proof.
  intros m Hc (H0 & Hlen & Hw & _ & Hok & Hm) Hlt Ht. unfold mpinit. unfold bind at 1, gets. fold m. rewrite Hc.
  rewrite Hlen. unfold bind at 1, modify. rewrite !u32_small by lia. unfold bind at 1.
  destruct (decide (length l < polls)%nat) as [Hp|Hp].
  - replace polls with (length l + (polls - length l))%nat by lia.
    rewrite mp_entries_table by (simpl; try done; lia). rewrite mp_entries_stuck by (simpl; try done; lia). by eexists.
  - assert (length (take polls l) = polls) as Hn by (rewrite length_take; lia).
    assert (table_bytes l = table_bytes (take polls l) ++ table_bytes (drop polls l)) as Hb.
    { unfold table_bytes. by rewrite <-concat_app, <-fmap_app, take_drop. }
    rewrite Hb, length_app in Hlt. rewrite Hb in Hm. apply mem_has_app in Hm as [Hm _].
    match goal with |- context [mp_entries polls ?p ?e true ?s'] =>
      pose proof (mp_entries_table (take polls l) 0 p e true s' ltac:(by apply Forall_take) Hm ltac:(lia) ltac:(lia) ltac:(lia)) as Heq
    end.
    rewrite Hn, Nat.add_0_r in Heq. rewrite Heq. by eexists.
Qed.

(** [mem_has], to evaluate. *)
Lemma mem_has_forallb m p bs :
  forallb (λ '(i, b), ld8 m (p + Z.of_nat i) =? b) (imap pair bs) = true → mem_has m p bs.
Proof.
  intros H i b Hi. rewrite forallb_forall in H. specialize (H (i, b)). apply Z.eqb_eq, H, list_elem_of_In, list_elem_of_lookup.
  exists i. rewrite list_lookup_imap, Hi. done.
Qed.

(** ** A machine with two processors *)
Definition bios_entries : list entry :=
  [EProc 0 (replicate 18 0); EProc 1 (replicate 18 0); EOther MPBUS (replicate 7 0); EIoapic 2 (replicate 6 0)].
Definition checked (n : nat) (bs : list Z) : list Z := <[n := u8 (- foldr Z.add 0 bs)]> bs.
(** A BIOS with the table [tbl] at 0x9FD00. *)
Definition bios (tbl : list Z) : mem :=
  let conf := chars "PCMP" ++ [44 + Z.of_nat (length tbl); 0; 4; 0] ++ replicate 28 0 ++ [0; 0; 0xE0; 0xFE; 0; 0; 0; 0] ++ tbl in
  let m := poke ∅ (P2V 0x9FD00) (checked 7 conf) in
  let m := poke m (P2V 0x9FC00) (checked 10 (chars "_MP_" ++ [0x00; 0xFD; 0x09; 0; 1; 4; 0; 0; 0; 0; 0; 0])) in
  poke m (P2V 0x40E) [0xC0; 0x9F].
Definition bios_machine (tbl : list Z) : mach :=
  mkMach (H := pc_hw) (sample DEFAULT <| k_mem := bios tbl |> <| k_cpus := [] |>)
    (mkPc [] (mkAta 0 false 0 0 0 0 0 PIdle [] [])) 0 0 0 0 0 0 None [].

Lemma bios_table_at :
  table_at (bios (table_bytes bios_entries)) (P2V 0x9FD00) 100 bios_entries
  ∧ table_at (bios (table_bytes bios_entries ++ [5; 0; 0; 0; 0; 0; 0; 0])) (P2V 0x9FD00) 108 bios_entries.
Proof.
  split; (refine (conj _ (conj _ (conj _ (conj _ (conj _ _)))));
    [vm_compute; congruence|vm_compute; reflexivity|vm_compute; reflexivity|vm_compute; congruence|repeat constructor
    |apply mem_has_forallb; vm_compute; reflexivity]).
Qed.

Lemma mpinit_reads_table_witness :
  ∃ s, mpinit 5 (bios_machine (table_bytes bios_entries)) = Ret tt s
  ∧ m_lapic s = 0xFEE00000 ∧ k_cpus (m_k s) = [mkCpu 0 0 0 0 None; mkCpu 1 0 0 0 None] ∧ m_ioapicid s = 2.
Proof.
  eexists. split.
  - apply (mpinit_reads_table 5 (bios_machine (table_bytes bios_entries)) (P2V 0x9FC00) (P2V 0x9FD00) bios_entries);
      [vm_compute; reflexivity| |vm_compute; reflexivity|simpl; lia|reflexivity].
    exact (proj1 bios_table_at).
  - split_and!; vm_compute; reflexivity.
Defined.

Lemma mpinit_unknown_entry_loops_witness :
  ∃ s, mpinit 1000 (bios_machine (table_bytes bios_entries ++ [5; 0; 0; 0; 0; 0; 0; 0])) = Spin s.
Proof.
  eapply (mpinit_unknown_entry_loops 1000 _ (P2V 0x9FC00) (P2V 0x9FD00) 108 bios_entries);
    [vm_compute; reflexivity| |vm_compute; reflexivity|vm_compute; reflexivity].
  exact (proj2 bios_table_at).
Defined.

(** ** The boot loader *)
Import Bootmain.

(** C18: the boot loader loads the kernel: from a disk without errors whose image has
    its program headers in the first page, and whose segments fit into memory without
    overwriting that page or a segment loaded before, [bootmain] jumps to the entry
    point of the image, and every segment is in memory at its physical address, its
    bytes from the image followed by zeroes up to its size in memory. *)
Theorem bootmain_loads_kernel `{HW : !Hw} `{AT : !Ata} `{RL : !AtaReliable} polls dk (s : mach) :
  (ata_patience < polls)%nat → Z.of_nat (length dk) ≤ 2 ^ 28 → (∀ b, 0 ≤ b < Z.of_nat (length dk) → block_ok (blk_at dk b)) →
  loadable dk → drive dk (m_hw s) →
  ∃ m h, bootmain polls s = Ret (Some (e_entry (elf_hdr dk))) (upd m h s) ∧
    ∀ i x, 0 ≤ i < e_phnum (elf_hdr dk) →
      let ph := prog dk i in
      (0 ≤ x < ph_filesz ph → ld8 m (ph_paddr ph + x) = img_byte dk (ph_off ph + x)) ∧
      (ph_filesz ph ≤ x < ph_memsz ph → ld8 m (ph_paddr ph + x) = 0).
Proof.
  intros Hp Hl Hb Hlo Hd. destruct (bootmain_ret polls Hp dk Hl Hb s Hlo Hd) as (m & h & Hr & _ & Hm).
  exists m, h. split; [done|]. intros i x Hi. split; intros Hx.
  - rewrite (Hm i Hi x) by by left. by rewrite decide_True by lia.
  - rewrite (Hm i Hi x) by by right. by rewrite decide_False by lia.
Qed.

(** An image with a segment that ends in zeroes, and one behind it that does not
    start at a sector of the image. *)
Definition boot_words (ws : list Z) : list Z := concat (word_bytes <$> ws).
Definition boot_header : list Z :=
  boot_words [ELF_MAGIC; 0; 0; 0; 0x30002; 1; 0x10000C; 52; 0; 0; 0x200034; 2; 0]
  ++ boot_words [1; 0x1000; 0x80100000; 0x100000; 600; 1500; 7; 0x1000]
  ++ boot_words [1; 0x1404; 0x80101004; 0x101004; 100; 100; 7; 0x1000].
Definition boot_disk : list (list Z) :=
  zero_block :: (boot_header ++ replicate 396 0) :: ((λ i, replicate 512 (Z.of_nat i)) <$> seq 2 14).
Definition boot_machine : mach :=
  mkMach (H := pc_hw) (sample DEFAULT <| k_mem := ∅ |>) (mkPc [] (mkAta 0 false 0 0 0 0 0 PIdle boot_disk [])) 0 0 0 0 0 0 None [].

Lemma boot_disk_blocks : ∀ b, 0 ≤ b < Z.of_nat (length boot_disk) → block_ok (blk_at boot_disk b).
Proof.
  intros b Hb. destruct (lookup_lt_is_Some_2 boot_disk (Z.to_nat b) ltac:(lia)) as [d Hd]. unfold blk_at. rewrite Hd. simpl.
  assert (forallb (λ d, (length d =? 512)%nat && forallb (λ c, (0 <=? c) && (c <? 256)) d) boot_disk = true) as H by (vm_compute; reflexivity).
  rewrite forallb_forall in H. specialize (H d (proj1 (list_elem_of_In _ _) (list_elem_of_lookup_2 _ _ _ Hd))).
  apply andb_true_iff in H as [H1 H2]. split; [by apply Nat.eqb_eq in H1|]. apply Forall_forall. intros c Hc.
  rewrite forallb_forall in H2. specialize (H2 c (proj1 (list_elem_of_In _ _) Hc)). unfold is_byte. lia.
Qed.

Definition is_seg (h : list Z) (pa off filesz memsz : Z) : Prop :=
  ph_paddr h = pa ∧ ph_off h = off ∧ ph_filesz h = filesz ∧ ph_memsz h = memsz.
Lemma boot_segs :
  e_phnum (elf_hdr boot_disk) = 2 ∧ e_phoff (elf_hdr boot_disk) = 52 ∧
  is_seg (prog boot_disk 0) 0x100000 0x1000 600 1500 ∧ is_seg (prog boot_disk 1) 0x101004 0x1404 100 100.
Proof. unfold is_seg. split_and!; vm_compute; reflexivity. Qed.

Lemma boot_disk_loadable : loadable boot_disk.
Proof.
  destruct boot_segs as (Hn & Ho & (A0 & C0 & B0 & E0) & A1 & C1 & B1 & E1).
  assert (∀ i, 0 ≤ i < 2 → i = 0 ∨ i = 1) as Hc by lia.
  split; rewrite ?Hn, ?Ho; [vm_compute; reflexivity|vm_compute; reflexivity|lia| | |]; unfold touched, seg_fits, sects.
  - intros i [-> | ->]%Hc; rewrite ?A0, ?B0, ?C0, ?A1, ?B1, ?C1; vm_compute; intuition discriminate.
  - intros i b [-> | ->]%Hc; rewrite ?A0, ?B0, ?C0, ?E0, ?A1, ?B1, ?C1, ?E1; simpl; Z.div_mod_to_equations; lia.
  - intros i j x Hi Hj. assert (i = 0) as -> by lia. assert (j = 1) as -> by lia. rewrite A0, A1, B0, B1, C1, E0, E1. simpl. Z.div_mod_to_equations; lia.
Qed.

Lemma bootmain_loads_kernel_witness :
  ∃ m h, bootmain 10 boot_machine = Ret (Some 0x10000C) (upd m h boot_machine) ∧
    ld8 m (0x100000 + 511) = 9 ∧ ld8 m (0x100000 + 512) = 10 ∧ ld8 m (0x100000 + 600) = 0 ∧ ld8 m 0x101004 = 11.
Proof.
  destruct (bootmain_loads_kernel 10 boot_disk boot_machine) as (m & h & Hr & Hm).
  - simpl. lia.
  - vm_compute. discriminate.
  - exact boot_disk_blocks.
  - exact boot_disk_loadable.
  - split; [simpl; lia|reflexivity].
  - exists m, h. destruct boot_segs as (Hn & _ & (A0 & C0 & B0 & E0) & A1 & C1 & B1 & E1). cbv zeta in Hm.
    split; [exact Hr|]. split_and!.
    + rewrite <-A0. rewrite (proj1 (Hm 0 511 ltac:(lia))) by lia. rewrite C0. vm_compute. reflexivity.
    + rewrite <-A0. rewrite (proj1 (Hm 0 512 ltac:(lia))) by lia. rewrite C0. vm_compute. reflexivity.
    + rewrite <-A0. rewrite (proj2 (Hm 0 600 ltac:(lia))) by lia. reflexivity.
    + rewrite <-(Z.add_0_r 0x101004), <-A1. rewrite (proj1 (Hm 1 0 ltac:(lia))) by lia. rewrite C1. vm_compute. reflexivity.
Defined.

(** ** Segments and gates *)
Import Seg.

(** C22: user code enters the kernel only by a system call: after the initialisation of
    segments and gates, every interrupt and exception goes to its entry of [vectors]
    in the kernel's code segment, with interrupts disabled unless it is a system
    call; from user mode the instruction [int n] faults for every [n] but the system
    call's; and the segments are flat, the kernel's for privilege level 0 and the
    user's for level 3. *)
Theorem user_enters_by_syscall gdt idt vectors (s : segst) :
  length vectors = 256%nat → Forall (λ v, 0 ≤ v < 2 ^ 32) vectors → length (st_gdt s) = 6%nat → length (st_idt s) = 256%nat →
  ∃ s', (seginit gdt ;; tvinit vectors ;; idtinit idt) s = Ret tt s' ∧
    (∀ n v, 0 ≤ n < 256 → vectors !! Z.to_nat n = Some v →
      enter s' None n = Some (8, v, negb (n =? T_SYSCALL)) ∧
      enter s' (Some DPL_USER) n = if n =? T_SYSCALL then Some (8, v, false) else None) ∧
    ∀ i, (1 ≤ i ≤ 4)%nat → ∃ d, st_gdt s' !! i = Some d ∧
      let x := seg_word d in
      seg_base x = 0 ∧ seg_limit x = 0xffffffff ∧ seg_dpl x = (if decide (i ≤ 2)%nat then 0 else DPL_USER) ∧ seg_present x = true.
Proof.
  intros Hv Hr Hg Hi. destruct (init_ret gdt idt vectors Hv s Hg Hi) as (s' & Hs & _ & Hl & G1 & G2 & G3 & G4 & Hgate).
  exists s'. split_and!; [done| |].
  - intros n v Hn Hvn. pose proof (Forall_lookup_1 _ _ _ _ Hr Hvn) as Hv32. pose proof (Hgate n v Hn Hvn) as Hgt.
    rewrite !(enter_gate s' _ n (n =? T_SYSCALL) v (if n =? T_SYSCALL then 3 else 0)) by (first [done|by rewrite Hl|destruct (n =? T_SYSCALL); lia]).
    split; [done|]. by destruct (n =? T_SYSCALL).
  - intros i H. assert (i = 1 ∨ i = 2 ∨ i = 3 ∨ i = 4)%nat as [-> | [-> | [-> | ->]]] by lia; (eexists; split; [eassumption|]); by apply seg_encodes.
Qed.
Definition boot_segst : segst :=
  mkSegst (replicate 6 (mkSegdesc 0 0 0 0 0 0 0 0 0 0 0 0 0)) (replicate 256 (mkGatedesc 0 0 0 0 0 0 0 0 0)) (mkTs 0 0 0) (0, 0) (0, 0) 0 (sample DEFAULT).
Definition sample_vectors : list Z := (λ i, 0x80100000 + 16 * Z.of_nat i) <$> seq 0 256.
Lemma user_enters_by_syscall_witness :
  ∃ s', (seginit 0x80112780 ;; tvinit sample_vectors ;; idtinit 0x80115000) boot_segst = Ret tt s' ∧
    enter s' (Some DPL_USER) 64 = Some (8, 0x80100400, false) ∧ enter s' (Some DPL_USER) 14 = None ∧
    enter s' None 14 = Some (8, 0x801000E0, true).
Proof.
  destruct (user_enters_by_syscall 0x80112780 0x80115000 sample_vectors boot_segst) as (s' & Hs & He & _);
    [reflexivity| |reflexivity|reflexivity|].
  - apply Forall_fmap, Forall_seq. intros i Hi. simpl. lia.
  - exists s'. split; [exact Hs|]. split_and!.
    + apply (He 64 0x80100400); [lia|reflexivity].
    + apply (He 14 0x801000E0); [lia|reflexivity].
    + apply (He 14 0x801000E0); [lia|reflexivity].
Defined.

(** ** The screen *)

(** C23: the console is a terminal: printing any text makes the screen show what a
    terminal of 24 lines of 80 columns shows after it, with newlines, backspaces,
    line wrap and scrolling, the cursor stays on the screen, and no memory but the
    screen's changes.  Text that fits on the line stands there, at the cursor. *)
Theorem console_shows_text `{HW : !Hw} `{CR : !Crt} text t (s : mach) :
  shows s t →
  ∃ s', for_each text Chips.consputc s = Ret tt s' ∧ shows s' (foldl term_putc t text) ∧ spares (k_mem (m_k s)) (k_mem (m_k s')) ∧
    (Forall plain text → t_col t + Z.of_nat (length text) < 80 →
     ∀ i c, text !! i = Some c → cell (k_mem (m_k s')) (80 * t_row t + (t_col t + Z.of_nat i)) = glyph c).
Proof.
  intros Hs. assert (wp (for_each text Chips.consputc) (λ _ s', shows s' (foldl term_putc t text) ∧ spares (k_mem (m_k s)) (k_mem (m_k s'))) s) as Hwp.
  { by apply (wp_consputs text t). }
  apply wp_run in Hwp as ([] & s' & Hr & Hs' & Hsp). exists s'. split_and!; [done..|]. intros Hp Hl i c Hi.
  pose proof (sh_row _ _ Hs). pose proof (sh_col _ _ Hs). pose proof (lookup_lt_Some _ _ _ Hi).
  rewrite (sh_cell _ _ Hs') by lia. destruct t as [row col f]. simpl in *. by apply (term_line text row col f).
Qed.

(** A display controller alone. *)
Definition crt_hw : Hw := {|
  hw := Z * Z * Z;
  port_in p h := let '(i, hi, lo) := h in (if p =? 0x3d5 then if i =? 14 then hi else lo else 0xff, h);
  port_out p v h := let '(i, hi, lo) := h in
    if p =? 0x3d4 then (v, hi, lo) else if p =? 0x3d5 then (i, if i =? 14 then v else hi, if i =? 15 then v else lo) else h;
  port_inl _ h := (0, h); port_outl _ _ h := h; mmio_in _ h := (0, h); mmio_out _ _ h := h
|}.
#[program] Definition crt_ctl : @Crt crt_hw := {| crt_index h := h.1.1; crt_high h := h.1.2; crt_low h := h.2 |}.
Next Obligation.
  intros p v [[i hi] lo]. simpl. destruct (Z.eqb_spec p 0x3d4) as [->|]; [done|]. by destruct (Z.eqb_spec p 0x3d5).
Qed.
Next Obligation. intros p [[i hi] lo]. simpl. split_and!; try done; by intros -> ->. Qed.
(** The cursor is in the last line of an empty screen. *)
Definition blank_screen : mach (H := crt_hw) :=
  mkMach (H := crt_hw) (sample DEFAULT <| k_mem := ∅ |>) (0, 1840 / 256, 1840 mod 256) 0 0 0 0 0 0 None [].
Definition hi_text : list Z := chars "Hi!".
Lemma console_shows_text_witness :
  ∃ s', for_each hi_text (Chips.consputc (HW := crt_hw)) blank_screen = Ret tt s' ∧
    cell (k_mem (m_k s')) 1840 = 0x748 ∧ cell (k_mem (m_k s')) 1841 = 0x769 ∧ cell (k_mem (m_k s')) 1842 = 0x721.
Proof.
  destruct (console_shows_text (HW := crt_hw) (CR := crt_ctl) hi_text (mkTerm 23 0 (λ _ _, 0)) blank_screen) as (s' & Hr & _ & _ & Hl).
  - split; simpl; [apply mem_ok_empty|lia|lia|done|]. intros r c _ _. unfold cell, ld8. by rewrite !lookup_empty.
  - exists s'. split; [exact Hr|]. assert (Forall plain hi_text) as Hp by (repeat constructor; done).
    specialize (Hl Hp ltac:(simpl; lia)). split_and!.
    + exact (Hl 0%nat 72 eq_refl).
    + exact (Hl 1%nat 105 eq_refl).
    + exact (Hl 2%nat 33 eq_refl).
Defined.
