(* ===== verification/Grep.v ===== *)
(** * Grep: the user program [grep.c]

    The pattern matcher ([match], [matchhere], [matchstar]) and the loop that
    splits the input into lines.  As in [Str], a [char *] is the list of the
    bytes from the pointer on, and [None] is a read past the end of the object.
    The specification is the language of the pattern: a sequence of characters
    and starred characters, possibly anchored at either end. *)
From S2P Require Import Prelude.
From S2P Require Import Str.
Import Str.

Module Grep.

(** [matchstar(c, re, text)], given the matcher [here] for [re]: the two
    functions call each other, and [matchstar] always with a shorter [re]. *)
Section matchstar.
Context (here : list Z → option bool) (c : Z).
Fixpoint matchstar (text : list Z) : option bool :=
  b ←? here text;
  if (b : bool) then Some true
  else match text with
       | [] => None
       | t :: text' =>
           if truthy t && ((t =? c) || (c =? ch ".")) then matchstar text' else Some false
       end.
End matchstar.

Fixpoint matchhere (re text : list Z) {struct re} : option bool :=
  match re with
  | [] => None
  | r0 :: re1 =>
      if r0 =? 0 then Some true
      else match re1 with
           | [] => None
           | r1 :: re2 =>
               if r1 =? ch "*" then matchstar (matchhere re2) r0 text
               else match text with
                    | [] => None
                    | t :: text' =>
                        if (r0 =? ch "$") && (r1 =? 0) then Some (t =? 0)
                        else if truthy t && ((r0 =? ch ".") || (r0 =? t)) then matchhere re1 text'
                        else Some false
                    end
           end
  end.

(** The loop of [match], which must look at the empty string too. *)
Fixpoint match_from (re text : list Z) : option bool :=
  b ←? matchhere re text;
  if (b : bool) then Some true
  else match text with
       | [] => None
       | t :: text' => if truthy t then match_from re text' else Some false
       end.
Definition match_ (re text : list Z) : option bool :=
  match re with
  | [] => None
  | r0 :: re1 => if r0 =? ch "^" then matchhere re1 text else match_from re text
  end.

(** ** The loop over the input *)

Definition BUFSZ : nat := 1024.

(** What the descriptor still delivers: one [read] returns at most one chunk
    (a regular file is a single chunk; a pipe or the console may return the
    same bytes in several). *)
Definition read (src : list (list Z)) (n : nat) : list Z * list (list Z) :=
  match src with
  | [] => ([], [])
  | c :: src' =>
      if (n <? length c)%nat then (take n c, drop n c :: src') else (c, src')
  end.

(** [memmove(buf + i, d, |d|)] into the static buffer. *)
Definition put (buf : list Z) (i : nat) (d : list Z) : list Z :=
  take i buf ++ d ++ drop (i + length d) buf.

(** [while((q = strchr(p, '\n')) != 0)]: the buffer, the final [p] and the lines
    written.  [p] grows in every round, so [BUFSZ] rounds are enough. *)
Fixpoint grep_lines (fuel : nat) (pattern buf : list Z) (p : nat)
    : option (list Z * nat * list (list Z)) :=
  match fuel with
  | O => None
  | S fuel' =>
      r ←? strchr (drop p buf) 10;
      match r with
      | None => Some (buf, p, [])
      | Some d =>
          let q := (p + d)%nat in
          let buf1 := <[q := 0]> buf in
          b ←? match_ pattern (drop p buf1);
          let buf2 := if (b : bool) then <[q := 10]> buf1 else buf1 in
          res ←? grep_lines fuel' pattern buf2 (q + 1);
          let '(buf3, p3, out) := res in
          Some (buf3, p3, (if b then [take (q + 1 - p) (drop p buf2)] else []) ++ out)
      end
  end.

Fixpoint grep (fuel : nat) (pattern : list Z) (src : list (list Z)) (buf : list Z) (m : nat)
    : option (list (list Z)) :=
  match fuel with
  | O => None
  | S fuel' =>
      let '(d, src') := read src (BUFSZ - m - 1) in
      if (length d =? 0)%nat then Some []
      else
        let m1 := (m + length d)%nat in
        let buf1 := <[m1 := 0]> (put buf m d) in
        res ←? grep_lines (S BUFSZ) pattern buf1 0;
        let '(buf2, p, out) := res in
        let m2 := if (p =? 0)%nat then 0%nat else m1 in
        let m3 := if (0 <? m2)%nat then (m2 - p)%nat else m2 in
        let buf3 := if (0 <? m2)%nat then put buf2 0 (take m3 (drop p buf2)) else buf2 in
        rest ←? grep fuel' pattern src' buf3 m3;
        Some (out ++ rest)
  end.

(** ** The language of a pattern *)

Inductive atom := Any | Lit (c : Z).
Inductive item := One (a : atom) | Star (a : atom).

Definition atom_of (c : Z) : atom := if c =? ch "." then Any else Lit c.
Definition atom_ok (a : atom) (c : Z) : Prop :=
  match a with Any => True | Lit x => c = x end.

Inductive lang : list item → list Z → Prop :=
| lang_nil : lang [] []
| lang_one a l c s : atom_ok a c → lang l s → lang (One a :: l) (c :: s)
| lang_star a l s1 s2 : Forall (atom_ok a) s1 → lang l s2 → lang (Star a :: l) (s1 ++ s2).

(** The items of a pattern and whether it is anchored at the end; a [*] binds
    to the character before it, whatever that is, and [$] is special only as
    the last character. *)
Fixpoint items (re : list Z) : list item * bool :=
  match re with
  | [] => ([], false)
  | c :: re1 =>
      match re1 with
      | [] => if c =? ch "$" then ([], true) else ([One (atom_of c)], false)
      | r1 :: re2 =>
          if r1 =? ch "*" then let '(l, e) := items re2 in (Star (atom_of c) :: l, e)
          else let '(l, e) := items re1 in (One (atom_of c) :: l, e)
      end
  end.

(** A prefix of [text] (all of it, if the pattern ends in [$]) is in the
    language. *)
Definition matches_prefix (re text : list Z) : Prop :=
  ∃ s t, text = s ++ t ∧ lang (items re).1 s ∧ ((items re).2 = true → t = []).
Definition matches (re text : list Z) : Prop :=
  match re with
  | 94 (* ^ *) :: re' => matches_prefix re' text
  | _ => ∃ s t, text = s ++ t ∧ matches_prefix re t
  end.

(** The newline-terminated lines of a text and the unterminated rest. *)
Fixpoint split_lines (s : list Z) : list (list Z) * list Z :=
  match s with
  | [] => ([], [])
  | c :: s' =>
      let '(ls, r) := split_lines s' in
      if c =? 10 then ([] :: ls, r)
      else match ls with [] => ([], c :: r) | l :: ls' => ((c :: l) :: ls', r) end
  end.

(** What the matcher answers on a line. *)
Definition selects (re line : list Z) : bool := default false (match_ (re ++ [0]) (line ++ [0])).

Definition nul_free (s : list Z) : Prop := Forall (λ c, c ≠ 0) s.

(** ** The matcher decides the language *)

(** [o] is defined and decides [P]. *)
Definition decides (o : option bool) (P : Prop) : Prop := ∃ b, o = Some b ∧ (b = true ↔ P).

Lemma decides_iff o (P Q : Prop) : (P ↔ Q) → decides o P → decides o Q.
Proof. intros HPQ (b & Hb & Hiff). exists b. by rewrite <-HPQ. Qed.

Lemma atom_of_ok r t : (t =? r) || (r =? ch ".") = true ↔ atom_ok (atom_of r) t.
Proof.
  unfold atom_of. rewrite orb_true_iff, !Z.eqb_eq. destruct (Z.eqb_spec r (ch ".")); simpl; naive_solver.
Qed.

(** Zero or more instances of an atom, then what [here] decides. *)
Lemma matchstar_decides here r text y (P : list Z → Prop) :
  nul_free text →
  (∀ t, t `suffix_of` text → decides (here (t ++ 0 :: y)) (P t)) →
  decides (matchstar here r (text ++ 0 :: y))
    (∃ s t, text = s ++ t ∧ Forall (atom_ok (atom_of r)) s ∧ P t).
Proof.
  induction text as [|c text IH]; intros Hn Hh; simpl.
  - destruct (Hh []) as (b & Hb & Hiff); [done|]. simpl in Hb. rewrite Hb.
    eexists; split; [by destruct b|]. destruct b; simpl.
    + split; [intros _; exists [], []|]; naive_solver.
    + split; [done|]. intros (s & t & Hst & _ & HP). symmetry in Hst. apply app_nil in Hst as [-> ->].
      by apply Hiff.
  - apply Forall_cons in Hn as [Hc Hn]. destruct (Hh (c :: text)) as (b & Hb & Hiff); [done|].
    simpl in Hb. rewrite Hb. destruct b.
    { eexists; split; [done|]. split; [intros _|done]. exists [], (c :: text). naive_solver. }
    rewrite (proj2 (truthy_true c)) by done. simpl.
    destruct ((c =? r) || (r =? ch ".")) eqn:Ea.
    + apply atom_of_ok in Ea. eapply decides_iff, IH; [|done|intros; apply Hh; by apply suffix_cons_r].
      split.
      * intros (s & t & -> & Hs & HP). exists (c :: s), t. naive_solver.
      * intros ([|c' s] & t & Hst & Hs & HP); simplify_eq/=; [naive_solver|].
        apply Forall_cons in Hs as [_ Hs]. naive_solver.
    + eexists; split; [done|]. split; [done|]. intros ([|c' s] & t & Hst & Hs & HP); simplify_eq/=.
      * naive_solver.
      * apply Forall_cons in Hs as [Ha _]. apply atom_of_ok in Ha. congruence.
Qed.

Lemma lang_star_inv a l s : lang (Star a :: l) s ↔ ∃ s1 s2, s = s1 ++ s2 ∧ Forall (atom_ok a) s1 ∧ lang l s2.
Proof.
  split; [inversion 1; naive_solver|]. intros (s1 & s2 & -> & H1 & H2). by constructor.
Qed.

Lemma prefix_star r re text :
  matches_prefix (r :: ch "*" :: re) text ↔
  ∃ s t, text = s ++ t ∧ Forall (atom_ok (atom_of r)) s ∧ matches_prefix re t.
Proof.
  unfold matches_prefix. simpl. destruct (items re) as [l e]; simpl. split.
  - intros (s & t & -> & Hl & He). apply lang_star_inv in Hl as (s1 & s2 & -> & H1 & H2).
    exists s1, (s2 ++ t). rewrite <-app_assoc. naive_solver.
  - intros (s1 & ? & -> & H1 & s2 & t & -> & H2 & He).
    exists (s1 ++ s2), t. rewrite <-app_assoc. split; [done|]. split; [|done]. by apply lang_star.
Qed.

Lemma prefix_one r re text :
  (∀ re', re ≠ ch "*" :: re') → (re = [] → r ≠ ch "$") →
  matches_prefix (r :: re) text ↔
  ∃ c t, text = c :: t ∧ atom_ok (atom_of r) c ∧ matches_prefix re t.
Proof.
  intros Hre Hr. assert (items (r :: re) = (One (atom_of r) :: (items re).1, (items re).2)) as Hi.
  { destruct re as [|r1 re]; simpl.
    - destruct (Z.eqb_spec r (ch "$")); [by destruct Hr|done].
    - destruct (Z.eqb_spec r1 (ch "*")) as [->|]; [by destruct (Hre re)|]. destruct re; by case_match. }
  unfold matches_prefix. rewrite Hi. simpl. split.
  - intros (s & t & -> & Hl & He). inversion Hl; subst. naive_solver.
  - intros (c & ? & -> & Ha & s & t & -> & Hl & He). exists (c :: s), t. split; [done|].
    split; [by constructor|done].
Qed.

Lemma matchhere_one r re text x y :
  r ≠ 0 → (∀ re', re ≠ ch "*" :: re') → (re = [] → r ≠ ch "$") → nul_free re → nul_free text →
  (∀ text', nul_free text' → decides (matchhere (re ++ 0 :: x) (text' ++ 0 :: y)) (matches_prefix re text')) →
  decides (matchhere (r :: re ++ 0 :: x) (text ++ 0 :: y)) (matches_prefix (r :: re) text).
Proof.
  intros Hr Hre Hd Hn Ht IH. eapply decides_iff; [symmetry; by apply prefix_one|].
  assert (∀ h l, re ++ 0 :: x = h :: l →
    (h =? ch "*") = false ∧ (r =? ch "$") && (h =? 0) = false) as Hh.
  { intros h l Hl. destruct re as [|r1 re]; simplify_eq/=.
    - destruct (Z.eqb_spec r (ch "$")) as [->|]; [by destruct Hd|done].
    - split; [apply Z.eqb_neq; intros ->; by destruct (Hre re)|].
      apply Forall_cons in Hn as [Hh _]. apply andb_false_iff. right. by apply Z.eqb_neq. }
  simpl. destruct (Z.eqb_spec r 0); [done|].
  destruct (re ++ 0 :: x) as [|h l] eqn:El; [by destruct re|].
  destruct (Hh h l eq_refl) as [-> Hdol].
  destruct text as [|c text]; simpl; rewrite Hdol.
  - exists false. split; [done|]. naive_solver.
  - apply Forall_cons in Ht as [Hc Ht]. rewrite (proj2 (truthy_true c)) by done. simpl.
    rewrite orb_comm, (Z.eqb_sym r c). destruct ((c =? r) || (r =? ch ".")) eqn:Ea.
    + apply atom_of_ok in Ea. eapply decides_iff, IH, Ht. naive_solver.
    + exists false. split; [done|]. split; [done|]. intros (c' & t & [= -> ->] & Ha & _).
      apply atom_of_ok in Ha. congruence.
Qed.

Lemma matchhere_decides re text x y :
  nul_free re → nul_free text →
  decides (matchhere (re ++ 0 :: x) (text ++ 0 :: y)) (matches_prefix re text).
Proof.
  revert text. induction re as [re IH] using (induction_ltof1 _ length). unfold ltof in IH.
  intros text Hre Ht. destruct re as [|r re].
  { exists true. split; [done|]. split; [intros _|done]. exists [], text. repeat split; [constructor|done]. }
  pose proof Hre as [Hr Hre']%Forall_cons.
  destruct (decide (re = [] ∧ r = ch "$")) as [[-> ->]|Hend].
  { unfold matches_prefix; simpl. destruct text as [|c text]; simpl.
    - exists true. split; [done|]. split; [|done]. intros _. exists [], []. repeat split. constructor.
    - apply Forall_cons in Ht as [Hc _]. exists false. destruct (Z.eqb_spec c 0); [done|].
      split; [done|]. split; [done|]. intros (s & t & Hst & Hl & He). inversion Hl; subst.
      simpl in Hst. subst t. by specialize (He eq_refl). }
  destruct re as [|r1 re].
  { apply (matchhere_one r []); [done..|naive_solver|done|done|].
    intros text' Ht'. apply IH; [simpl; lia|done|done]. }
  destruct (decide (r1 = ch "*")) as [->|Hs].
  - eapply decides_iff; [symmetry; apply prefix_star|]. simpl. destruct (Z.eqb_spec r 0); [done|].
    apply matchstar_decides; [done|]. intros t [s ->]. apply Forall_app in Ht as [_ Ht].
    apply Forall_cons in Hre' as [_ Hre']. apply IH; [simpl; lia|done|done].
  - apply matchhere_one; [done|naive_solver|naive_solver|done|done|].
    intros text' Ht'. apply IH; [simpl; lia|done|done].
Qed.

Lemma match_from_decides re text x y :
  nul_free re → nul_free text →
  decides (match_from (re ++ 0 :: x) (text ++ 0 :: y)) (∃ s t, text = s ++ t ∧ matches_prefix re t).
Proof.
  intros Hre. induction text as [|c text IH]; intros Ht.
  - destruct (matchhere_decides re [] x y Hre Ht) as (b & Hb & Hiff). simpl in *. rewrite Hb.
    exists b. split; [by destruct b|]. rewrite Hiff. split.
    + intros Hm. by exists [], [].
    + intros (s & t & Hst & Hm). symmetry in Hst. by apply app_nil in Hst as [-> ->].
  - destruct (matchhere_decides re (c :: text) x y Hre Ht) as (b & Hb & Hiff). simpl in *. rewrite Hb.
    apply Forall_cons in Ht as [Hc Ht]. destruct b.
    { exists true. split; [done|]. split; [intros _|done]. exists [], (c :: text). naive_solver. }
    rewrite (proj2 (truthy_true c)) by done. eapply decides_iff, IH, Ht. split.
    + intros (s & t & -> & Hm). by exists (c :: s), t.
    + intros ([|c' s] & t & Hst & Hm); simplify_eq/=; naive_solver.
Qed.

Lemma match_decides re text x y :
  nul_free re → nul_free text →
  decides (match_ (re ++ 0 :: x) (text ++ 0 :: y)) (matches re text).
Proof.
  intros Hre Ht. pose proof (match_from_decides re text x y Hre Ht) as Hfrom.
  destruct re as [|r re]; [done|]. apply Forall_cons in Hre as [_ Hre].
  unfold match_, matches in *. simpl in *. destruct (Z.eqb_spec r (ch "^")) as [->|Hne].
  - by apply matchhere_decides.
  - change (ch "^") with 94 in Hne. by repeat case_match.
Qed.

(** What follows the terminating NULs does not matter. *)
Lemma match_selects re line x y :
  nul_free re → nul_free line → match_ (re ++ 0 :: x) (line ++ 0 :: y) = Some (selects re line).
Proof.
  intros Hre Hl. destruct (match_decides re line x y) as (b & Hb & Hiff); [done..|].
  unfold selects. destruct (match_decides re line [] []) as (b' & Hb' & Hiff'); [done..|].
  rewrite Hb, Hb'. simpl. f_equal. destruct b, b'; naive_solver.
Qed.
Lemma selects_matches re line : nul_free re → nul_free line → selects re line = true ↔ matches re line.
Proof.
  intros Hre Hl. destruct (match_decides re line [] []) as (b & Hb & Hiff); [done..|].
  unfold selects. by rewrite Hb.
Qed.

(** ** Lines *)

Lemma split_none s : 10 ∉ s → split_lines s = ([], s).
Proof.
  induction s as [|c s IH]; [done|]. intros [Hc Hs]%not_elem_of_cons. simpl.
  rewrite IH by done. destruct (Z.eqb_spec c 10); congruence.
Qed.
Lemma split_line l s : 10 ∉ l → split_lines (l ++ 10 :: s) = (l :: (split_lines s).1, (split_lines s).2).
Proof.
  induction l as [|c l IH]; simpl.
  - by destruct (split_lines s).
  - intros [Hc Hs]%not_elem_of_cons. rewrite IH by done. destruct (Z.eqb_spec c 10); congruence.
Qed.
(** A text without newline, or its first line. *)
Lemma first_line (s : list Z) : 10 ∉ s ∨ ∃ l s', s = l ++ 10 :: s' ∧ 10 ∉ l.
Proof.
  destruct (decide (10 ∈ s)) as [Hin|]; [right|by left].
  by apply list_elem_of_split_l in Hin as (l & s' & -> & ?); exists l, s'.
Qed.

Lemma split_ind (P : list Z → Prop) :
  (∀ s, 10 ∉ s → P s) → (∀ l s, 10 ∉ l → P s → P (l ++ 10 :: s)) → ∀ s, P s.
Proof.
  intros H0 HS s. induction s as [s IH] using (induction_ltof1 _ length). unfold ltof in IH.
  destruct (first_line s) as [Hs|(l & s' & -> & Hl)]; [by apply H0|].
  apply HS; [done|]. apply IH. rewrite length_app. simpl. lia.
Qed.

Lemma split_app s t :
  split_lines (s ++ t) =
  ((split_lines s).1 ++ (split_lines ((split_lines s).2 ++ t)).1, (split_lines ((split_lines s).2 ++ t)).2).
Proof.
  induction s as [s Hs|l s Hl IH] using split_ind.
  - rewrite (split_none s) by done. simpl. by destruct (split_lines (s ++ t)).
  - rewrite <-app_assoc. simpl. rewrite !split_line by done. simpl. by rewrite IH.
Qed.
Lemma split_rest s : 10 ∉ (split_lines s).2.
Proof. induction s as [s Hs|l s Hl IH] using split_ind; [by rewrite split_none|by rewrite split_line]. Qed.
Lemma split_length s :
  length s = (sum_list_with (λ l, S (length l)) (split_lines s).1 + length (split_lines s).2)%nat.
Proof.
  induction s as [s Hs|l s Hl IH] using split_ind; [by rewrite split_none|].
  rewrite split_line by done. rewrite length_app. simpl. lia.
Qed.
Lemma split_suffix s : ∃ s0, s = s0 ++ (split_lines s).2.
Proof.
  induction s as [s Hs|l s Hl [s0 Hs0]] using split_ind.
  - exists []. by rewrite split_none.
  - exists (l ++ 10 :: s0). rewrite split_line by done. simpl. rewrite <-app_assoc. simpl. by rewrite <-Hs0.
Qed.

Lemma strchr_none s x : nul_free s → 10 ∉ s → strchr (s ++ 0 :: x) 10 = Some None.
Proof.
  induction s as [|c s IH]; [done|]. intros [Hc Hs]%Forall_cons [Hc' Hs']%not_elem_of_cons. simpl.
  rewrite (proj2 (truthy_true c)), IH by done. destruct (Z.eqb_spec c 10); [congruence|done].
Qed.
Lemma strchr_line l s : nul_free l → 10 ∉ l → strchr (l ++ 10 :: s) 10 = Some (Some (length l)).
Proof.
  induction l as [|c l IH]; [done|]. intros [Hc Hs]%Forall_cons [Hc' Hs']%not_elem_of_cons. simpl.
  rewrite (proj2 (truthy_true c)), IH by done. destruct (Z.eqb_spec c 10); [congruence|done].
Qed.

(** ** The two loops *)

Definition selected (re : list Z) (ls : list (list Z)) : list (list Z) :=
  (λ l, l ++ [10]) <$> filter (λ l, selects re l = true) ls.

Lemma drop_insert_at (p : nat) (buf l s : list Z) v w :
  drop p buf = l ++ v :: s → drop p (<[(p + length l)%nat := w]> buf) = l ++ w :: s.
Proof.
  intros H. rewrite drop_insert_ge by lia. rewrite H. replace (p + length l - p)%nat with (length l + 0)%nat by lia.
  by rewrite insert_app_r.
Qed.
Lemma drop_past (p : nat) (buf l s : list Z) v :
  drop p buf = l ++ v :: s → drop (p + length l + 1) buf = s.
Proof.
  intros H. rewrite <-Nat.add_assoc, <-drop_drop, H, <-drop_drop, drop_app_length. done.
Qed.

Lemma grep_lines_spec re x data : ∀ fuel buf p tail,
  nul_free re → nul_free data → drop p buf = data ++ 0 :: tail →
  (length (split_lines data).1 < fuel)%nat →
  let p' := (p + (length data - length (split_lines data).2))%nat in
  ∃ buf', grep_lines fuel (re ++ 0 :: x) buf p = Some (buf', p', selected re (split_lines data).1) ∧
          length buf' = length buf ∧ drop p' buf' = (split_lines data).2 ++ 0 :: tail.
Proof.
  induction data as [s Hs|l s Hl IH] using split_ind; intros fuel buf p tail Hre Hd Hb Hf.
  - rewrite split_none in * by done. simpl in *. destruct fuel as [|fuel]; [lia|]. simpl.
    rewrite Hb, strchr_none by done. rewrite Nat.sub_diag, Nat.add_0_r. by exists buf.
  - rewrite split_line in * by done. simpl in *. destruct fuel as [|fuel]; [lia|].
    apply Forall_app in Hd as [Hdl [_ Hds]%Forall_cons]. rewrite <-app_assoc in Hb. simpl in Hb.
    simpl. rewrite Hb, strchr_line by done. rewrite (drop_insert_at _ _ _ _ _ 0 Hb).
    rewrite match_selects by done.
    set (buf2 := if selects re l then _ else _).
    assert (length buf2 = length buf) as Hlen.
    { unfold buf2. destruct (selects re l); by rewrite !length_insert. }
    assert (drop p buf2 = l ++ (if selects re l then 10 else 0) :: s ++ 0 :: tail) as Hb2.
    { unfold buf2. pose proof (drop_insert_at _ _ _ _ _ 0 Hb) as Hb1.
      destruct (selects re l); [by eapply drop_insert_at|done]. }
    destruct (IH fuel buf2 (p + length l + 1)%nat tail) as (buf' & Hg & Hl' & Hdr);
      [done..|by eapply drop_past|lia|].
    exists buf'. rewrite Hg. rewrite length_app. simpl. pose proof (split_length s).
    replace (p + (length l + S (length s) - length (split_lines s).2))%nat
      with (p + length l + 1 + (length s - length (split_lines s).2))%nat by lia.
    split; [|split; [by rewrite Hl'|done]]. f_equal. f_equal.
    unfold selected. rewrite filter_cons, Hb2. destruct (decide (selects re l = true)) as [E|E]; rewrite ?E.
    + simpl. f_equal. replace (p + length l + 1 - p)%nat with (length l + 1)%nat by lia.
      rewrite take_app_add. done.
    + by destruct (selects re l).
Qed.

Lemma length_put buf i d : (i + length d ≤ length buf)%nat → length (put buf i d) = length buf.
Proof. intros. unfold put. rewrite !length_app, length_take, length_drop. lia. Qed.

(** The buffer before the lines are looked at: what was left over, the new
    bytes and the NUL. *)
Lemma filled_buffer buf m r d :
  length buf = BUFSZ → take m buf = r → length r = m → (m + length d < BUFSZ)%nat →
  let buf1 := <[(m + length d)%nat := 0]> (put buf m d) in
  length buf1 = BUFSZ ∧ ∃ tail, drop 0 buf1 = (r ++ d) ++ 0 :: tail.
Proof.
  intros Hl Hr Hm Hd buf1. assert (length (put buf m d) = BUFSZ) as Hp by (rewrite length_put; lia).
  split; [unfold buf1; by rewrite length_insert|].
  exists (drop (m + length d + 1) buf). rewrite drop_0. unfold buf1, put. rewrite Hr.
  destruct (drop (m + length d) buf) as [|v tl] eqn:Et.
  { apply (f_equal length) in Et. rewrite length_drop in Et. simpl in Et. lia. }
  rewrite app_assoc. replace (m + length d)%nat with (length (r ++ d) + 0)%nat at 1 by (rewrite length_app; lia).
  rewrite insert_app_r. simpl. f_equal. f_equal. rewrite <-drop_drop, Et. done.
Qed.

(** What is left of the input: one chunk, or nothing. *)
Definition remaining (src : list (list Z)) (c : list Z) : Prop := src = [c] ∨ (src = [] ∧ c = []).

Lemma read_remaining src c n :
  remaining src c → (read src n).1 = take n c ∧ remaining (read src n).2 (drop n c).
Proof.
  intros [-> |[-> ->]]; simpl.
  - destruct (Nat.ltb_spec n (length c)); simpl; [by split; [|left]|].
    rewrite take_ge, drop_ge by lia. split; [done|by right].
  - rewrite take_nil, drop_nil. split; [done|by right].
Qed.

(** No line of a text, terminated or not, is longer than [BUFSZ - 2]. *)
Definition short_lines (s : list Z) : Prop :=
  Forall (λ l, (length l ≤ BUFSZ - 2)%nat) ((split_lines s).1 ++ [(split_lines s).2]).

Lemma short_prefix d s : 10 ∉ d → short_lines (d ++ s) → (length d ≤ BUFSZ - 2)%nat.
Proof.
  unfold short_lines. intros Hd. destruct (first_line s) as [Hs|(l & s' & -> & Hl)].
  - rewrite split_none by (rewrite elem_of_app; naive_solver). simpl. rewrite Forall_singleton, length_app. lia.
  - rewrite app_assoc, split_line by (rewrite elem_of_app; naive_solver). simpl.
    rewrite Forall_cons, length_app. lia.
Qed.
Lemma short_rest s t : short_lines (s ++ t) → short_lines ((split_lines s).2 ++ t).
Proof.
  unfold short_lines. rewrite split_app. simpl. rewrite <-app_assoc. by intros [_ H]%Forall_app.
Qed.

(** What is moved to the front of the buffer when a line was found. *)
Lemma moved_buffer buf p r tail :
  length buf = BUFSZ → drop p buf = r ++ 0 :: tail →
  length (put buf 0 (take (length r) (drop p buf))) = BUFSZ ∧
  take (length r) (put buf 0 (take (length r) (drop p buf))) = r.
Proof.
  intros Hl Hd. rewrite Hd, take_app_length. assert (length r ≤ BUFSZ)%nat.
  { apply (f_equal length) in Hd. rewrite length_drop, length_app in Hd. simpl in Hd. lia. }
  split; [rewrite length_put; lia|]. unfold put. simpl. by rewrite take_app_length.
Qed.

Lemma selected_app re l1 l2 : selected re (l1 ++ l2) = selected re l1 ++ selected re l2.
Proof. unfold selected. by rewrite filter_app, fmap_app. Qed.

Lemma split_count s : (length (split_lines s).1 ≤ length s)%nat.
Proof.
  rewrite (split_length s). induction (split_lines s).1; simpl; lia.
Qed.

Lemma read_le src n : (length (read src n).1 ≤ n)%nat.
Proof.
  destruct src as [|c src]; simpl; [lia|]. destruct (Nat.ltb_spec n (length c)); simpl; [|lia].
  rewrite length_take. lia.
Qed.

(** What one round keeps for the next: the beginning of the next line, unless
    no newline has been seen, in which case everything is dropped. *)
Definition kept (s : list Z) : list Z :=
  if bool_decide (10 ∈ s) then (split_lines s).2 else [].

(** One round of the outer loop. *)
Lemma grep_round fuel re x src buf r d src' :
  nul_free re → nul_free (r ++ d) → length buf = BUFSZ → take (length r) buf = r → (length r < BUFSZ)%nat →
  read src (BUFSZ - length r - 1) = (d, src') → d ≠ [] →
  ∃ buf', length buf' = BUFSZ ∧ take (length (kept (r ++ d))) buf' = kept (r ++ d) ∧
    grep (S fuel) (re ++ 0 :: x) src buf (length r) =
      (rest ←? grep fuel (re ++ 0 :: x) src' buf' (length (kept (r ++ d)));
       Some (selected re (split_lines (r ++ d)).1 ++ rest)).
Proof.
  intros Hre Hn Hlen Hbuf Hr Hread Hd. cbn [grep]. rewrite Hread.
  pose proof (read_le src (BUFSZ - length r - 1)) as Hle. rewrite Hread in Hle. simpl in Hle.
  destruct (Nat.eqb_spec (length d) 0) as [Hz|Hz]; [by apply nil_length_inv in Hz|].
  destruct (filled_buffer buf (length r) r d) as [Hlen1 [tail Htail]]; [done..|lia|].
  destruct (grep_lines_spec re x (r ++ d) (S BUFSZ) _ 0 tail Hre Hn Htail) as (buf2 & Hg & Hlen2 & Hdrop).
  { pose proof (split_count (r ++ d)) as Hc. rewrite length_app in Hc. lia. }
  rewrite Hg. clear Hg. rewrite Hlen1 in Hlen2. cbn zeta. rewrite Nat.add_0_l in *.
  unfold kept. pose proof (split_length (r ++ d)) as Hsl.
  destruct (first_line (r ++ d)) as [Hnone|(l & s & Hs & Hl)].
  - rewrite bool_decide_false by done. rewrite split_none by done. simpl. rewrite Nat.sub_diag. simpl.
    exists buf2. done.
  - rewrite bool_decide_true by (rewrite Hs, elem_of_app, elem_of_cons; naive_solver).
    assert (0 < length (r ++ d) - length (split_lines (r ++ d)).2)%nat as Hp.
    { rewrite Hsl, Hs, split_line by done. simpl. lia. }
    destruct (Nat.eqb_spec (length (r ++ d) - length (split_lines (r ++ d)).2) 0); [lia|].
    destruct (Nat.ltb_spec 0 (length r + length d)); [|lia].
    replace (length r + length d - (length (r ++ d) - length (split_lines (r ++ d)).2))%nat
      with (length (split_lines (r ++ d)).2) by (rewrite length_app in *; lia).
    destruct (moved_buffer _ _ _ _ Hlen2 Hdrop) as [? ?]. eexists. split; [done|]. done.
Qed.

(** Bytes of a read that brings no newline are never looked at again. *)
Lemma grep_drops_read fuel re x src buf d src' :
  nul_free re → nul_free d → 10 ∉ d → d ≠ [] → length buf = BUFSZ →
  read src (BUFSZ - 1) = (d, src') →
  ∃ buf', length buf' = BUFSZ ∧
    grep (S fuel) (re ++ 0 :: x) src buf 0 = grep fuel (re ++ 0 :: x) src' buf' 0.
Proof.
  intros Hre Hd Hnl Hne Hlen Hread.
  destruct (grep_round fuel re x src buf [] d src') as (buf' & Hl & _ & Hg); [done..|unfold BUFSZ; simpl; lia|done|done|].
  exists buf'. split; [done|]. cbn [length app] in Hg. rewrite Hg. unfold kept. rewrite bool_decide_false by done.
  rewrite split_none by done. cbn [length]. by destruct (grep fuel _ src' buf' 0%nat).
Qed.

(** On a regular file, whose reads fill the buffer: if no line is longer than
    the buffer, exactly the selected lines are written, in order. *)
Lemma grep_spec re x : ∀ fuel src c buf r,
  nul_free re → nul_free (r ++ c) → 10 ∉ r → short_lines (r ++ c) →
  remaining src c → length buf = BUFSZ → take (length r) buf = r → (length c < fuel)%nat →
  grep fuel (re ++ 0 :: x) src buf (length r) = Some (selected re (split_lines (r ++ c)).1).
Proof.
  induction fuel as [|fuel IH]; intros src c buf r Hre Hn Hr Hs Hsrc Hlen Hbuf Hf; [lia|].
  pose proof (short_prefix r c Hr Hs) as Hshort.
  destruct (read_remaining src c (BUFSZ - length r - 1) Hsrc) as [Hd Hsrc'].
  destruct (read src (BUFSZ - length r - 1)) as [d src'] eqn:Hread. simpl in Hd, Hsrc'.
  destruct (decide (d = [])) as [->|Hne].
  { assert (c = []) as ->.
    { apply (f_equal length) in Hd. rewrite length_take in Hd. simpl in Hd.
      apply nil_length_inv. unfold BUFSZ in *. lia. }
    cbn [grep]. rewrite Hread. cbn [length Nat.eqb]. by rewrite app_nil_r, split_none. }
  set (c' := drop (BUFSZ - length r - 1) c) in *.
  assert (c = d ++ c') as Hc by (subst d c'; by rewrite take_drop).
  assert (c' = [] ∨ length (r ++ d) = BUFSZ - 1)%nat as Hfull.
  { destruct (decide (length c ≤ BUFSZ - length r - 1)%nat).
    - left. unfold c'. by rewrite drop_ge by lia.
    - right. rewrite length_app, Hd, length_take. unfold BUFSZ in *. lia. }
  clearbody c'. rewrite Hc, app_assoc in Hn, Hs |- *. pose proof Hn as [Hn1 Hn2]%Forall_app.
  destruct (grep_round fuel re x src buf r d src') as (buf' & Hl & Ht & ->); [done..|unfold BUFSZ in *; lia|done|done|].
  assert (length c' < fuel)%nat.
  { rewrite Hc, length_app in Hf. destruct d; [done|]. simpl in Hf. lia. }
  rewrite (split_app (r ++ d)). cbn [fst snd]. rewrite selected_app. unfold kept in *.
  destruct (decide (10 ∈ r ++ d)) as [Hin|Hout].
  - rewrite bool_decide_true in * by done. destruct (split_suffix (r ++ d)) as [s0 Hs0].
    rewrite (IH src' c' buf'); [done|done| |apply split_rest|by apply short_rest|done..].
    rewrite Hs0 in Hn1. apply Forall_app in Hn1 as [_ Hn1]. apply Forall_app. done.
  - rewrite bool_decide_false in * by done. rewrite split_none by done.
    assert (c' = []) as ->.
    { destruct Hfull as [|Hfull]; [done|]. pose proof (short_prefix _ _ Hout Hs). unfold BUFSZ in *. lia. }
    rewrite (IH src' [] buf' []);
      [|done|by apply Forall_nil|by apply not_elem_of_nil|apply Forall_singleton; simpl; lia|done..].
    cbn [fst snd]. by rewrite (app_nil_r (r ++ d)), (split_none (r ++ d)).
Qed.

End Grep.
