(* ===== verification/Umalloc.v ===== *)
(** * Umalloc: the user-level allocator of [umalloc.c]

    A block is a header of two words, the pointer to the next free block and
    the size of the block in header units, followed by the memory handed out.
    The free blocks form a circular list in address order, through the static
    header [base].  Proved here: the list is what it should be after any
    sequence of [malloc] and [free], the blocks handed out are big enough and
    never overlap, neither each other nor the free list, and neither operation
    changes a byte of a block that stays allocated. *)
From stdpp Require Import sorting.
From S2P Require Import Prelude.
From S2P Require Import Mem.
From S2P Require Import State.

Module Umalloc.

(** The process: its memory, the static [freep] and its size (the break). *)
Record uheap := mkHeap { u_mem : mem; u_freep : Z; u_sz : Z }.
#[export] Instance eta_uheap : Eta uheap := λ h, mkHeap (u_mem h) (u_freep h) (u_sz h).
Abbreviation U := (M uheap).

(** A [Header] is 8 bytes: [s.ptr] and [s.size]. *)
Definition HDR : Z := 8.
Definition s_ptr (m : mem) (p : Z) : Z := ld32 m p.
Definition s_size (m : mem) (p : Z) : Z := ld32 m (p + 4).
Definition set_ptr (p v : Z) : U unit := modify (λ h, h <| u_mem := st32 (u_mem h) p v |>).
Definition set_size (p v : Z) : U unit := modify (λ h, h <| u_mem := st32 (u_mem h) (p + 4) v |>).

(** The address the linker gives [base], and whether the kernel finds the
    frames to let the process grow to a given size. *)
Section umalloc.
Context (base : Z) (frames : Z → bool).

(** The [sbrk] system call: [growproc] through [allocuvm] and [deallocuvm]. *)
Definition sbrk (n : Z) : U Z :=
  let n := s32 n in
  sz ← gets u_sz;
  if 0 <? n then
    if (sz + n <? KERNBASE) && frames (sz + n) then
      modify (λ h, h <| u_sz := sz + n |>) ;; ret sz
    else ret (-1)
  else if n <? 0 then
    let newsz := u32 (sz + n) in
    if sz <=? newsz then ret sz
    else if newsz =? 0 then ret (-1)
    else modify (λ h, h <| u_sz := newsz |>) ;; ret sz
  else ret sz.

(** [for(p = freep; !(bp > p && bp < p->s.ptr); p = p->s.ptr) ...]: where the
    block belongs. *)
Fixpoint find_place (fuel : nat) (m : mem) (bp p : Z) : option Z :=
  match fuel with
  | O => None
  | S fuel' =>
      let nx := s_ptr m p in
      if (p <? bp) && (bp <? nx) then Some p
      else if (nx <=? p) && ((p <? bp) || (bp <? nx)) then Some p
      else find_place fuel' m bp nx
  end.

(** The two halves of the insertion: join the block to its upper neighbour,
    then to its lower one. *)
Definition join_upper (bp p : Z) : U unit :=
  m ← gets u_mem;
  if u32 (bp + HDR * s_size m bp) =? s_ptr m p then
    set_size bp (s_size m bp + s_size m (s_ptr m p)) ;;
    m ← gets u_mem;
    set_ptr bp (s_ptr m (s_ptr m p))
  else set_ptr bp (s_ptr m p).
Definition join_lower (bp p : Z) : U unit :=
  m ← gets u_mem;
  if u32 (p + HDR * s_size m p) =? bp then
    set_size p (s_size m p + s_size m bp) ;;
    m ← gets u_mem;
    set_ptr p (s_ptr m bp)
  else set_ptr p bp.

Definition free (fuel : nat) (ap : Z) : U unit :=
  let bp := u32 (ap - HDR) in
  m ← gets u_mem;
  freep ← gets u_freep;
  match find_place fuel m bp freep with
  | None => spin
  | Some p =>
      join_upper bp p ;;
      join_lower bp p ;;
      modify (λ h, h <| u_freep := p |>)
  end.

Definition morecore (fuel : nat) (nu : Z) : U Z :=
  let nu := if nu <? 4096 then 4096 else nu in
  p ← sbrk (u32 (nu * HDR));
  if p =? -1 then ret 0
  else
    set_size p nu ;;
    free fuel (u32 (p + HDR)) ;;
    gets u_freep.

(** The block at [p] is big enough: unlink it, or cut its tail off. *)
Definition take_block (nunits prevp p : Z) : U Z :=
  m ← gets u_mem;
  q ← (if s_size m p =? nunits then
         set_ptr prevp (s_ptr m p) ;; ret p
       else
         set_size p (s_size m p - nunits) ;;
         m ← gets u_mem;
         let q := u32 (p + HDR * s_size m p) in
         set_size q nunits ;; ret q);
  modify (λ h, h <| u_freep := prevp |>) ;;
  ret (u32 (q + HDR)).

(** The loop of [malloc]; [fuel] bounds its rounds. *)
Fixpoint malloc_loop (fuel : nat) (nunits prevp p : Z) : U Z :=
  match fuel with
  | O => spin
  | S fuel' =>
      m ← gets u_mem;
      if nunits <=? s_size m p then take_block nunits prevp p
      else
        freep ← gets u_freep;
        if p =? freep then
          r ← morecore fuel nunits;
          if r =? 0 then ret 0
          else m ← gets u_mem; malloc_loop fuel' nunits r (s_ptr m r)
        else malloc_loop fuel' nunits p (s_ptr m p)
  end.

Definition units (nbytes : Z) : Z := u32 (nbytes + HDR - 1) / HDR + 1.

Definition malloc (fuel : nat) (nbytes : Z) : U Z :=
  let nunits := units nbytes in
  freep ← gets u_freep;
  prevp ← (if freep =? 0 then
             modify (λ h, h <| u_freep := base |>) ;;
             set_ptr base base ;; set_size base 0 ;; ret base
           else ret freep);
  m ← gets u_mem;
  malloc_loop fuel nunits prevp (s_ptr m prevp).

(** ** The free list *)

(** The address a list of blocks starts at, [e] if it is empty. *)
Definition first (l : list (Z * Z)) (e : Z) : Z := match l with [] => e | x :: _ => x.1 end.

(** The blocks of [l], linked in this order, the last one to [e]. *)
Fixpoint chain (m : mem) (l : list (Z * Z)) (e : Z) : Prop :=
  match l with
  | [] => True
  | x :: l' => s_ptr m x.1 = first l' e ∧ s_size m x.1 = x.2 ∧ chain m l' e
  end.

(** In address order and apart from each other: adjacent blocks are joined. *)
Definition before (x y : Z * Z) : Prop := x.1 < y.1 ∧ x.1 + HDR * x.2 < y.1.
Definition sorted (l : list (Z * Z)) : Prop := StronglySorted before l.
Definition within (lo hi : Z) (x : Z * Z) : Prop := lo ≤ x.1 ∧ 1 ≤ x.2 ∧ x.1 + HDR * x.2 ≤ hi.

Definition apart (x y : Z * Z) : Prop := x.1 + HDR * x.2 ≤ y.1 ∨ y.1 + HDR * y.2 ≤ x.1.

(** The blocks handed out, by the address of their header. *)
Record handed_out (m : mem) (lo hi : Z) (out : gmap Z Z) : Prop := {
  out_size a s : out !! a = Some s → s_size m a = s ∧ 1 ≤ s;
  out_range a s : out !! a = Some s → lo ≤ a ∧ a + HDR * s ≤ hi;
  out_apart a s b t : out !! a = Some s → out !! b = Some t → a ≠ b → apart (a, s) (b, t);
}.

Record heap_ok (h : uheap) (l : list (Z * Z)) (out : gmap Z Z) : Prop := {
  ok_chain : chain (u_mem h) ((base, 0) :: l) base;
  ok_sorted : sorted l;
  ok_within : Forall (within (base + HDR) (u_sz h)) l;
  ok_freep : u_freep h ∈ base :: l.*1;
  ok_out : handed_out (u_mem h) (base + HDR) (u_sz h) out;
  ok_apart x a s : x ∈ l → out !! a = Some s → apart x (a, s);
  ok_base : 0 < base ∧ base + HDR ≤ u_sz h;
  ok_top : u_sz h < KERNBASE;
}.

(** The list after a block has been joined to what follows it, and then to what
    precedes it. *)
Definition absorb (b : Z * Z) (l2 : list (Z * Z)) : (Z * Z) * list (Z * Z) :=
  match l2 with
  | q :: l' => if b.1 + HDR * b.2 =? q.1 then ((b.1, b.2 + q.2), l') else (b, l2)
  | [] => (b, [])
  end.
Definition attach (x b : Z * Z) (l2 : list (Z * Z)) : list (Z * Z) :=
  if x.1 + HDR * x.2 =? b.1 then (x.1, x.2 + b.2) :: l2 else x :: b :: l2.

Definition total (l : list (Z * Z)) : Z := foldr (λ x n, x.2 + n) 0 l.

(** ** Chains *)

Definition same_outside (m m' : mem) (a n : Z) : Prop :=
  ∀ b, b < a ∨ a + n ≤ b → ld8 m' b = ld8 m b.

Lemma same_outside_refl m a n : same_outside m m a n.
Proof. by intros b. Qed.
Lemma same_outside_trans m1 m2 m3 a n :
  same_outside m1 m2 a n → same_outside m2 m3 a n → same_outside m1 m3 a n.
Proof. intros H1 H2 b Hb. by rewrite H2, H1. Qed.
Lemma same_outside_st32 m a b v : a ≤ b ∧ b + 4 ≤ a + HDR → same_outside m (st32 m b v) a HDR.
Proof. intros Hb c Hc. apply ld8_st32_out. lia. Qed.
Lemma same_outside_ptr m m' a b :
  same_outside m m' a HDR → b + HDR ≤ a ∨ a + HDR ≤ b → s_ptr m' b = s_ptr m b ∧ s_size m' b = s_size m b.
Proof. intros H Hb. unfold s_ptr, s_size, HDR in *. split; apply ld32_ext; intros c Hc; apply H; lia. Qed.

Lemma chain_app m l1 x l2 e : chain m (l1 ++ x :: l2) e ↔ chain m l1 x.1 ∧ chain m (x :: l2) e.
Proof.
  induction l1 as [|y l1 IH]; [naive_solver|]. simpl app. cbn [chain]. rewrite IH.
  destruct l1; simpl; tauto.
Qed.
Lemma chain_frame m m' a l e :
  same_outside m m' a HDR → (∀ x, x ∈ l → x.1 + HDR ≤ a ∨ a + HDR ≤ x.1) → chain m l e → chain m' l e.
Proof.
  intros Hm. induction l as [|x l IH]; intros Hl; [done|]. intros (Hp & Hs & Hc). cbn [chain].
  destruct (same_outside_ptr m m' a x.1 Hm) as [-> ->]; [apply Hl; left|].
  split; [done|]. split; [done|]. apply IH; [|done]. intros y Hy. apply Hl. by right.
Qed.

Lemma sorted_app l1 l2 :
  sorted (l1 ++ l2) ↔ (∀ x y, x ∈ l1 → y ∈ l2 → before x y) ∧ sorted l1 ∧ sorted l2.
Proof. apply StronglySorted_app. Qed.
Lemma sorted_cons x l : sorted (x :: l) ↔ Forall (before x) l ∧ sorted l.
Proof. split; [inversion 1; naive_solver|]. intros [? ?]. by constructor. Qed.

(** Where an address that is in no block falls. *)
Lemma sorted_split x0 l b :
  sorted (x0 :: l) → x0.1 < b → (∀ x, x ∈ l → x.1 ≠ b) →
  ∃ pre x l2, x0 :: l = pre ++ x :: l2 ∧ (∀ y, y ∈ pre ++ [x] → y.1 < b) ∧ (∀ y, y ∈ l2 → b < y.1).
Proof.
  revert x0. induction l as [|y l IH]; intros x0 Hs Hb Hne.
  { exists [], x0, []. split; [done|]. split; intros y Hy; set_solver. }
  apply sorted_cons in Hs as [Hx Hs]. destruct (decide (y.1 < b)) as [Hy|Hy].
  - destruct (IH y Hs Hy) as (pre & x & l2 & Heq & H1 & H2); [set_solver|].
    exists (x0 :: pre), x, l2. rewrite Heq. split; [done|]. split; [|done].
    intros z [->|Hz]%elem_of_cons; [done|by apply H1].
  - exists [], x0, (y :: l). split; [done|]. split; [set_solver|].
    assert (y.1 ≠ b) by (apply Hne; left). apply sorted_cons in Hs as [Hs _]. rewrite Forall_forall in Hs.
    intros z [->|Hz]%elem_of_cons; [lia|]. specialize (Hs z Hz). unfold before in *. lia.
Qed.

(** ** The search of [free] *)

Lemma find_up m bp x l2 : ∀ mid fuel,
  chain m (mid ++ x :: l2) base → sorted (mid ++ x :: l2) → base ≤ x.1 →
  (∀ y, y ∈ mid ++ [x] → y.1 < bp) → (∀ y, y ∈ l2 → bp < y.1) → (length mid < fuel)%nat →
  find_place fuel m bp (first (mid ++ x :: l2) base) = Some x.1.
Proof.
  induction mid as [|y mid IH]; intros [|fuel] Hc Hs Hb Hlt Hgt Hf; simpl in Hf; try lia.
  - destruct Hc as (Hp & _ & _). simpl. rewrite Hp. assert (x.1 < bp) by (apply Hlt; left).
    destruct (Z.ltb_spec x.1 bp); [|lia]. destruct l2 as [|z l2]; simpl.
    + destruct (Z.leb_spec base x.1); [|lia]. by destruct (bp <? base).
    + assert (bp < z.1) by (apply Hgt; left). by destruct (Z.ltb_spec bp z.1); [|lia].
  - rewrite <-app_comm_cons in *. apply sorted_cons in Hs as [Hy Hs]. destruct Hc as (Hp & _ & Hc). simpl. rewrite Hp.
    assert (∃ z tl, mid ++ x :: l2 = z :: tl ∧ z.1 < bp) as (z & tl & Heq & Hz).
    { destruct mid as [|z mid]; [exists x, l2|exists z, (mid ++ x :: l2)]; (split; [done|]); apply Hlt; set_solver. }
    rewrite Forall_forall in Hy. assert (before y z) as [Hyz _] by (apply Hy; rewrite Heq; left).
    assert (first (mid ++ x :: l2) base = z.1) as Hfz by by rewrite Heq.
    rewrite Hfz. destruct (Z.ltb_spec bp z.1); [lia|]. rewrite andb_false_r.
    destruct (Z.leb_spec z.1 y.1); [lia|]. simpl. rewrite <-Hfz. apply IH; [done|done|done| |done|lia].
    intros w Hw. apply Hlt. by right.
Qed.

Lemma find_down m bp l fuel :
  chain m l base → sorted l → base < bp → (∀ y, y ∈ l → bp < y.1) →
  find_place (length l + fuel) m bp (first l base) = find_place fuel m bp base.
Proof.
  induction l as [|y l IH]; [done|]. intros (Hp & _ & Hc) [Hy Hs]%sorted_cons Hb Hgt. simpl. rewrite Hp.
  assert (bp < y.1) by (apply Hgt; left). destruct (Z.ltb_spec y.1 bp); [lia|]. simpl.
  assert ((first l base <=? y.1) && (bp <? first l base) = false) as ->.
  { destruct l as [|z l]; simpl.
    - destruct (Z.ltb_spec bp base); [lia|]. by rewrite andb_false_r.
    - apply Forall_cons in Hy as [[Hyz _] _]. by destruct (Z.leb_spec z.1 y.1); [lia|]. }
  apply IH; [done|done|done|]. intros w Hw. apply Hgt. by right.
Qed.

(** From any block the search reaches the last block below [bp]. *)
Lemma find_place_ok m bp pre x l2 fuel p0 :
  chain m (pre ++ x :: l2) base → sorted (pre ++ x :: l2) → first (pre ++ x :: l2) base = base →
  (∀ y, y ∈ pre ++ [x] → y.1 < bp) → (∀ y, y ∈ l2 → bp < y.1) →
  p0 ∈ (pre ++ x :: l2).*1 → (length (pre ++ x :: l2) ≤ fuel)%nat →
  find_place fuel m bp p0 = Some x.1.
Proof.
  intros Hc Hs Hfirst Hlt Hgt Hp0 Hf. rewrite length_app in Hf. simpl in Hf.
  assert (base ≤ x.1) as Hbx.
  { destruct pre as [|y pre]; simpl in Hfirst; [lia|]. apply sorted_cons in Hs as [Hs _].
    rewrite Forall_forall in Hs. destruct (Hs x); [set_solver|lia]. }
  assert (base < bp) as Hbp by (specialize (Hlt x ltac:(set_solver)); lia).
  apply list_elem_of_fmap in Hp0 as (y & -> & Hy). rewrite cons_middle, app_assoc in Hy.
  apply elem_of_app in Hy as [Hy|Hy].
  - assert (∃ p1 mid, pre ++ [x] = p1 ++ y :: mid) as (p1 & mid & Hsplit) by by apply list_elem_of_split.
    assert (∃ mid', pre ++ x :: l2 = p1 ++ mid' ++ x :: l2 ∧ first (mid' ++ x :: l2) base = y.1 ∧ (length mid' ≤ length pre)%nat
      ∧ ∀ z, z ∈ mid' ++ [x] → z ∈ pre ++ [x]) as (mid' & Heq & Hy' & Hl & Hin).
    { destruct mid as [|w mid _] using rev_ind.
      - apply app_inj_tail in Hsplit as [-> ->]. exists []. set_solver by lia.
      - rewrite app_comm_cons, app_assoc in Hsplit. apply app_inj_tail in Hsplit as [-> ->].
        exists (y :: mid). rewrite <-app_assoc. simpl. rewrite length_app. simpl. split; [done|].
        split; [done|]. split; [lia|]. set_solver. }
    rewrite <-Hy'. rewrite Heq in Hc, Hs. apply (find_up m bp x l2 mid'); [|by apply sorted_app in Hs as (_ & _ & Hs)|done| |done|lia].
    + destruct mid'; by apply chain_app in Hc as [_ Hc].
    + intros z Hz. by apply Hlt, Hin.
  - apply list_elem_of_split in Hy as (l3 & l4 & ->).
    replace fuel with (length (y :: l4) + (fuel - length (y :: l4)))%nat by (rewrite length_app in Hf; simpl in *; lia).
    change y.1 with (first (y :: l4) base). rewrite find_down.
    + rewrite <-Hfirst. apply find_up; [done|done|done|done|done|]. rewrite length_app in Hf. simpl in *. lia.
    + replace (pre ++ x :: l3 ++ y :: l4) with ((pre ++ x :: l3) ++ y :: l4) in Hc by by rewrite <-app_assoc.
      by apply chain_app in Hc as [_ Hc].
    + replace (pre ++ x :: l3 ++ y :: l4) with ((pre ++ x :: l3) ++ y :: l4) in Hs by by rewrite <-app_assoc.
      by apply sorted_app in Hs as (_ & _ & Hs).
    + done.
    + intros z Hz. apply Hgt. set_solver.
Qed.

(** ** Joining *)

Lemma ptr_set_ptr m p v : 0 ≤ v < KERNBASE → s_ptr (st32 m p v) p = v.
Proof. intros. unfold s_ptr, KERNBASE in *. rewrite ld32_st32_eq. apply u32_small. lia. Qed.
Lemma size_set_ptr m p v : s_size (st32 m p v) p = s_size m p.
Proof. unfold s_size. apply ld32_st32_ne. lia. Qed.
Lemma size_set_size m p v : 0 ≤ v < KERNBASE → s_size (st32 m (p + 4) v) p = v.
Proof. intros. unfold s_size, KERNBASE in *. rewrite ld32_st32_eq. apply u32_small. lia. Qed.
Lemma ptr_set_size m p v : s_ptr (st32 m (p + 4) v) p = s_ptr m p.
Proof. unfold s_ptr. apply ld32_st32_ne. lia. Qed.
Lemma ptr_other m p q v : q + HDR ≤ p ∨ p + HDR ≤ q →
  s_ptr (st32 m p v) q = s_ptr m q ∧ s_size (st32 m p v) q = s_size m q ∧
  s_ptr (st32 m (p + 4) v) q = s_ptr m q ∧ s_size (st32 m (p + 4) v) q = s_size m q.
Proof. unfold s_ptr, s_size, HDR. intros. rewrite !ld32_st32_ne by lia. done. Qed.

(** The blocks a joined block is made of. *)
Definition heads (b : Z * Z) (l2 : list (Z * Z)) : Prop :=
  ∀ y, y ∈ l2 → b.1 + HDR * b.2 ≤ y.1 ∧ 1 ≤ y.2 ∧ y.1 + HDR * y.2 < KERNBASE.

Lemma join_upper_ok h bp bs p l2 :
  s_ptr (u_mem h) p = first l2 base → chain (u_mem h) l2 base → s_size (u_mem h) bp = bs →
  p + HDR ≤ bp → 0 < base < bp → 1 ≤ bs → bp + HDR * bs < KERNBASE → heads (bp, bs) l2 →
  ∃ m1, join_upper bp p h = Ret tt (h <| u_mem := m1 |>) ∧ same_outside (u_mem h) m1 bp HDR ∧
        chain m1 ((absorb (bp, bs) l2).1 :: (absorb (bp, bs) l2).2) base.
Proof.
  intros Hp Hc Hs Hpb Hbb Hbs Htop Hl2. unfold join_upper, bind at 1, gets at 1.
  rewrite Hs, Hp. rewrite u32_small by (unfold HDR, KERNBASE in *; lia).
  set (m := u_mem h) in *.
  assert (0 ≤ first l2 base < KERNBASE) as Hf.
  { destruct l2 as [|q l2]; simpl; [unfold HDR in *; lia|].
    destruct (Hl2 q) as (?&?&?); [left|]. simpl in *. unfold HDR in *; lia. }
  assert (∀ v, same_outside m (st32 m bp v) bp HDR) as Hso by (intros; apply same_outside_st32; unfold HDR; lia).
  destruct (Z.eqb_spec (bp + HDR * bs) (first l2 base)) as [Heq|Hne].
  - destruct l2 as [|q l2]; simpl in Heq; [unfold HDR in *; lia|].
    destruct (Hl2 q) as (Hq1 & Hq2 & Hq3); [left|]. simpl in Hq1. destruct Hc as (Hqp & Hqs & Hc).
    cbn [absorb fst snd]. destruct (Z.eqb_spec (bp + HDR * bs) q.1) as [_|]; [|done].
    unfold set_size, set_ptr, bind, modify, gets. cbn. fold m.
    assert (bp + HDR ≤ q.1) as Hbq by (unfold HDR in *; lia).
    destruct (ptr_other m bp p (bs + s_size m q.1)) as (_ & _ & Hp2 & _); [lia|].
    destruct (ptr_other m bp q.1 (bs + s_size m q.1)) as (_ & _ & Hq2' & _); [lia|].
    rewrite Hp2, Hp. cbn [first]. rewrite Hq2', Hqp, Hqs. eexists. split; [reflexivity|].
    split; [eapply same_outside_trans; apply same_outside_st32; unfold HDR; lia|].
    assert (0 ≤ first l2 base < KERNBASE).
    { destruct l2 as [|z l2]; simpl; [unfold HDR in *; lia|].
      destruct (Hl2 z) as (?&?&?); [right; left|]. simpl in *. unfold HDR in *; lia. }
    cbn [chain fst snd]. rewrite ptr_set_ptr, size_set_ptr, size_set_size by (unfold HDR in *; lia).
    split; [done|]. split; [done|]. eapply chain_frame; [| |exact Hc].
    + eapply same_outside_trans; apply (same_outside_st32 _ bp); unfold HDR; lia.
    + intros z Hz. destruct (Hl2 z) as (?&?&?); [by right|]. simpl in *. unfold HDR in *; lia.
  - eexists. split; [reflexivity|]. split; [apply Hso|].
    assert (absorb (bp, bs) l2 = ((bp, bs), l2)) as ->.
    { destruct l2 as [|q l2]; [done|]. cbn [absorb fst snd first] in *. by destruct (Z.eqb_spec (bp + HDR * bs) q.1). }
    cbn [chain fst snd]. rewrite ptr_set_ptr, size_set_ptr by done. split; [done|]. split; [done|].
    eapply chain_frame; [apply Hso| |exact Hc].
    intros z Hz. destruct (Hl2 z) as (?&?&?); [done|]. simpl in *. unfold HDR in *; lia.
Qed.

Lemma join_lower_ok h x b l2 :
  s_size (u_mem h) x.1 = x.2 → chain (u_mem h) (b :: l2) base →
  0 ≤ x.1 → x.1 + HDR ≤ b.1 → 0 ≤ x.2 → 1 ≤ b.2 → b.1 + HDR * b.2 < KERNBASE → 
  x.1 + HDR * x.2 ≤ b.1 → 0 < base < KERNBASE → heads b l2 →
  ∃ m1, join_lower b.1 x.1 h = Ret tt (h <| u_mem := m1 |>) ∧ same_outside (u_mem h) m1 x.1 HDR ∧
        chain m1 (attach x b l2) base.
Proof.
  intros Hs (Hbp & Hbs & Hc) Hx Hxb Hx2 Hb2 Htop Hle Hbase Hl2. unfold join_lower, bind at 1, gets at 1.
  rewrite Hs. rewrite u32_small by (unfold HDR, KERNBASE in *; lia). set (m := u_mem h) in *.
  assert (0 ≤ first l2 base < KERNBASE) as Hf.
  { destruct l2 as [|q l2]; simpl; [lia|]. destruct (Hl2 q) as (?&?&?); [left|]. simpl in *. unfold HDR in *; lia. }
  assert (∀ m', same_outside m m' x.1 HDR → chain m' l2 base) as Hc'.
  { intros m' Hm'. eapply chain_frame; [exact Hm'| |exact Hc].
    intros z Hz. destruct (Hl2 z) as (?&?&?); [done|]. simpl in *. unfold HDR in *; lia. }
  unfold attach. destruct (Z.eqb_spec (x.1 + HDR * x.2) b.1) as [Heq|Hne].
  - unfold set_size, set_ptr, bind, modify, gets. cbn. fold m. rewrite Hbs.
    destruct (ptr_other m x.1 b.1 (x.2 + b.2)) as (_ & _ & -> & _); [lia|]. rewrite Hbp.
    eexists. split; [reflexivity|]. assert (∀ v w, same_outside m (st32 (st32 m (x.1 + 4) v) x.1 w) x.1 HDR) as Hso.
    { intros. eapply same_outside_trans; apply (same_outside_st32 _ x.1); unfold HDR; lia. }
    split; [apply Hso|]. cbn [chain fst snd].
    rewrite ptr_set_ptr, size_set_ptr, size_set_size by (unfold HDR in *; lia). auto.
  - eexists. split; [reflexivity|].
    assert (∀ v, same_outside m (st32 m x.1 v) x.1 HDR) as Hso by (intros; apply same_outside_st32; unfold HDR; lia).
    split; [apply Hso|]. fold m. cbn [chain fst snd first].
    rewrite ptr_set_ptr, size_set_ptr by (unfold HDR in *; lia).
    destruct (ptr_other m x.1 b.1 b.1) as (-> & -> & _); [lia|]. auto 6.
Qed.

(** ** The list after an insertion *)

(** A property of blocks that a joined block inherits from its parts. *)
Definition mergeable (P : Z * Z → Prop) : Prop :=
  ∀ a s t, 1 ≤ t → P (a, s) → P (a + HDR * s, t) → P (a, s + t).

Lemma within_mergeable lo hi : mergeable (within lo hi).
Proof. intros a s t. unfold within, HDR. simpl. lia. Qed.
Lemma apart_mergeable y : 1 ≤ y.2 → mergeable (λ x, apart x y).
Proof. intros Hy a s t. unfold apart, HDR. simpl. lia. Qed.

Lemma absorb_all P b l2 :
  mergeable P → heads b l2 → P b → Forall P l2 → Forall P ((absorb b l2).1 :: (absorb b l2).2).
Proof.
  intros Hm Hh Hb Hl2. destruct l2 as [|q l2]; [by repeat constructor|]. cbn [absorb].
  destruct (Hh q) as (_ & Hq & _); [left|]. apply Forall_cons in Hl2 as [Hp Hl2].
  destruct (Z.eqb_spec (b.1 + HDR * b.2) q.1) as [Heq|]; cbn [fst snd]; [|by repeat constructor].
  constructor; [|done]. apply Hm; [done|by destruct b|]. rewrite Heq. by destruct q.
Qed.
Lemma attach_all P x b l2 :
  mergeable P → 1 ≤ b.2 → P x → Forall P (b :: l2) → Forall P (attach x b l2).
Proof.
  intros Hm Hb Hx [Hpb Hl2]%Forall_cons. unfold attach.
  destruct (Z.eqb_spec (x.1 + HDR * x.2) b.1) as [Heq|]; [|by repeat constructor].
  constructor; [|done]. apply Hm; [done|by destruct x|]. rewrite Heq. by destruct b.
Qed.

Lemma absorb_addr b l2 : (absorb b l2).1.1 = b.1.
Proof. destruct l2; [done|]. cbn [absorb]. by case_match. Qed.
Lemma absorb_sorted b l2 :
  1 ≤ b.2 → heads b l2 → sorted l2 → sorted ((absorb b l2).1 :: (absorb b l2).2).
Proof.
  intros Hb Hh Hs. destruct l2 as [|q l2]; cbn [absorb fst snd]; [by repeat constructor|].
  pose proof Hs as [Hq Hs']%sorted_cons. destruct (Hh q) as (H1 & H2 & H3); [left|].
  destruct (Z.eqb_spec (b.1 + HDR * b.2) q.1) as [Heq|Hne]; cbn [fst snd]; apply sorted_cons.
  - split; [|done]. eapply Forall_impl; [exact Hq|]. intros y [Hy1 Hy2]. unfold before, HDR in *. simpl. lia.
  - split; [|done]. constructor; [unfold before, HDR in *; lia|]. eapply Forall_impl; [exact Hq|].
    intros y [Hy1 Hy2]. unfold before, HDR in *. lia.
Qed.
Lemma absorb_total b l2 : total ((absorb b l2).1 :: (absorb b l2).2) = b.2 + total l2.
Proof. destruct l2; [done|]. cbn [absorb]. case_match; simpl; lia. Qed.

Lemma attach_sorted x b l2 :
  x.1 < b.1 → x.1 + HDR * x.2 ≤ b.1 → 1 ≤ b.2 → sorted (b :: l2) → sorted (attach x b l2).
Proof.
  intros H1 H2 Hb2 Hs. pose proof Hs as [Hb Hs']%sorted_cons. unfold attach.
  destruct (Z.eqb_spec (x.1 + HDR * x.2) b.1) as [Heq|Hne]; apply sorted_cons.
  - split; [|done]. eapply Forall_impl; [exact Hb|]. intros y [Hy1 Hy2]. unfold before, HDR in *. simpl. lia.
  - split; [|done]. constructor; [unfold before, HDR in *; lia|]. eapply Forall_impl; [exact Hb|].
    intros y [Hy1 Hy2]. unfold before, HDR in *. lia.
Qed.
Lemma attach_total x b l2 : total (attach x b l2) = x.2 + (b.2 + total l2).
Proof. unfold attach. case_match; simpl; lia. Qed.
(** What lies below the block keeps lying below. *)
Lemma attach_before y x b l2 :
  before y x → x.1 < b.1 → Forall (λ z, b.1 < z.1) l2 → Forall (before y) (attach x b l2).
Proof.
  intros [Hy1 Hy2] Hb Hl2. assert (Forall (before y) l2).
  { eapply Forall_impl; [exact Hl2|]. intros z Hz. simpl in Hz. unfold before. lia. }
  unfold attach. case_match; repeat constructor; unfold before; simpl; try lia; done.
Qed.
Lemma total_app l1 l2 : total (l1 ++ l2) = total l1 + total l2.
Proof. induction l1; simpl; lia. Qed.

(** ** free *)

(** Bytes of the blocks that stay allocated. *)
Definition keeps (out : gmap Z Z) (m m' : mem) : Prop :=
  ∀ a s b, out !! a = Some s → a ≤ b < a + HDR * s → ld8 m' b = ld8 m b.

Lemma handed_out_keeps m m' lo hi out :
  handed_out m lo hi out → keeps out m m' → handed_out m' lo hi out.
Proof.
  intros [Hs Hr Ha] Hk. split; [|done..]. intros a s Hout. destruct (Hs a s Hout) as [Hsz H1]. split; [|done].
  rewrite <-Hsz. unfold s_size. apply ld32_ext. intros b Hb. apply (Hk a s); [done|]. unfold HDR. lia.
Qed.

Lemma handed_out_delete m lo hi out a :
  handed_out m lo hi out → handed_out m lo hi (delete a out).
Proof.
  intros [Hs Hr Ha]. split; intros *; rewrite ?lookup_delete_Some; naive_solver.
Qed.

(** The free list seen from a block that is handed out. *)
Lemma heap_split h l out bp bs :
  heap_ok h l out → out !! bp = Some bs →
  ∃ pre x l2, (base, 0) :: l = pre ++ x :: l2 ∧
    (∀ y, y ∈ pre ++ [x] → y.1 < bp) ∧ (∀ y, y ∈ l2 → bp < y.1) ∧
    x.1 + HDR ≤ bp ∧ x.1 + HDR * x.2 ≤ bp ∧ 0 ≤ x.2 ∧ 0 < x.1 ∧ heads (bp, bs) l2.
Proof.
  intros Hok Hout. destruct Hok as [Hc Hs Hw Hf [Hos Hor Hoa] Hap [Hb Hsz] Htop].
  destruct (Hor bp bs Hout) as [Hlo Hhi]. destruct (Hos bp bs Hout) as [_ Hbs]. rewrite Forall_forall in Hw.
  destruct (sorted_split (base, 0) l bp) as (pre & x & l2 & Heq & Hlt & Hgt).
  { apply sorted_cons. split; [|done]. apply Forall_forall. intros y Hy. destruct (Hw y Hy).
    unfold before, HDR in *; simpl; lia. }
  { unfold HDR in *; simpl; lia. }
  { intros y Hy Hyb. destruct (Hap y bp bs Hy Hout); destruct (Hw y Hy); unfold HDR in *; simpl in *; lia. }
  exists pre, x, l2. split; [done|]. split; [done|]. split; [done|].
  assert (x.1 < bp) by (apply Hlt; set_solver).
  assert (x = (base, 0) ∨ x ∈ l) as Hx.
  { assert (x ∈ (base, 0) :: l) as Hin by (rewrite Heq; set_solver). by apply elem_of_cons in Hin. }
  assert (x.1 + HDR ≤ bp ∧ x.1 + HDR * x.2 ≤ bp ∧ 0 ≤ x.2 ∧ 0 < x.1) as (?&?&?&?).
  { destruct Hx as [->|Hx]; [unfold HDR in *; simpl; lia|].
    destruct (Hap x bp bs Hx Hout), (Hw x Hx) as (?&?&?); unfold HDR in *; simpl in *; lia. }
  repeat (split; [done|]). intros y Hy. assert (bp < y.1) by by apply Hgt.
  assert (y ∈ l) as Hyl.
  { destruct pre as [|z pre]; simplify_eq/=; [done|]. set_solver. }
  destruct (Hap y bp bs Hyl Hout), (Hw y Hyl) as (?&?&?); unfold HDR in *; simpl in *; lia.
Qed.

Lemma absorb_heads b l2 :
  1 ≤ b.2 → b.1 + HDR * b.2 < KERNBASE → heads b l2 → sorted l2 →
  1 ≤ (absorb b l2).1.2 ∧ (absorb b l2).1.1 + HDR * (absorb b l2).1.2 < KERNBASE ∧
  heads (absorb b l2).1 (absorb b l2).2.
Proof.
  intros Hb Htop Hh Hs. destruct l2 as [|q l2]; [done|]. cbn [absorb].
  destruct (Hh q) as (H1 & H2 & H3); [left|]. apply sorted_cons in Hs as [Hq _]. rewrite Forall_forall in Hq.
  destruct (Z.eqb_spec (b.1 + HDR * b.2) q.1) as [Heq|]; cbn [fst snd]; [|done].
  unfold HDR in *. split; [lia|]. split; [lia|]. intros y Hy. destruct (Hh y) as (?&?&?); [by right|].
  destruct (Hq y Hy). simpl. unfold HDR in *. lia.
Qed.

Lemma attach_first x b l2 : ∃ s tl, attach x b l2 = (x.1, s) :: tl.
Proof. unfold attach. case_match; [|destruct x]; eauto. Qed.

(** What [free] does to the list, and that it writes the two headers only. *)
Lemma free_run h l bp bs pre x l2 fuel :
  chain (u_mem h) ((base, 0) :: l) base → sorted ((base, 0) :: l) → u_freep h ∈ base :: l.*1 →
  s_size (u_mem h) bp = bs → 1 ≤ bs → bp + HDR * bs < KERNBASE → (length l < fuel)%nat → 0 < base →
  (base, 0) :: l = pre ++ x :: l2 →
  (∀ y, y ∈ pre ++ [x] → y.1 < bp) → (∀ y, y ∈ pre → y.1 + HDR ≤ x.1) → (∀ y, y ∈ l2 → bp < y.1) →
  x.1 + HDR ≤ bp → x.1 + HDR * x.2 ≤ bp → 0 ≤ x.2 → 0 < x.1 → heads (bp, bs) l2 →
  ∃ m2, free fuel (bp + HDR) h = Ret tt (mkHeap m2 x.1 (u_sz h)) ∧
    chain m2 (pre ++ attach x (absorb (bp, bs) l2).1 (absorb (bp, bs) l2).2) base ∧
    ∀ b, (b < x.1 ∨ x.1 + HDR ≤ b) → (b < bp ∨ bp + HDR ≤ b) → ld8 m2 b = ld8 (u_mem h) b.
Proof.
  intros Hc Hs Hfp Hsz Hbs Htop Hfuel Hb Heq Hlt Hpre Hgt Hx1 Hx2 Hx3 Hx4 Hh.
  assert (base < bp) as Hbb.
  { destruct pre as [|z pre]; simplify_eq/=; [unfold HDR in *; lia|]. apply (Hlt (base, 0)). left. }
  unfold free, bind at 1, gets at 1, bind at 1, gets at 1.
  replace (u32 (bp + HDR - HDR)) with bp by (rewrite u32_small; unfold HDR, KERNBASE in *; lia).
  change (base :: l.*1) with (((base, 0) :: l).*1) in Hfp. rewrite Heq in Hc, Hs, Hfp.
  rewrite (find_place_ok (u_mem h) bp pre x l2); [|done|done|by rewrite <-Heq|done|done|done|rewrite <-Heq; simpl; lia].
  apply chain_app in Hc as [Hcp Hcx]. destruct Hcx as (Hxp & Hxs & Hcl).
  apply sorted_app in Hs as (Hspre & _ & Hsx). apply sorted_cons in Hsx as [_ Hsl2].
  destruct (join_upper_ok h bp bs x.1 l2) as (m1 & Hj1 & Hm1 & Hc1); [done..|].
  rewrite (bind_ret_eq _ _ _ _ _ Hj1).
  destruct (absorb_heads (bp, bs) l2) as (Hb2 & Hbt & Hbh); [done..|].
  pose proof (absorb_addr (bp, bs) l2) as Hba. simpl in Hba.
  destruct (absorb (bp, bs) l2) as [b' l2']. simpl in *. subst bp.
  destruct (join_lower_ok (h <| u_mem := m1 |>) x b' l2') as (m2 & Hj2 & Hm2 & Hc2); [|done|lia|done|done|done|done|done|unfold HDR in *; lia|done|].
  { simpl. destruct (same_outside_ptr _ _ _ x.1 Hm1) as [_ ->]; [lia|done]. }
  rewrite (bind_ret_eq _ _ _ _ _ Hj2). exists m2. split; [done|]. split.
  - destruct (attach_first x b' l2') as (s & tl & Ha). rewrite Ha in *. apply chain_app. split; [|done].
    simpl. eapply chain_frame; [exact Hm2| |eapply chain_frame; [exact Hm1| |exact Hcp]].
    + intros y Hy. left. by apply Hpre.
    + intros y Hy. left. specialize (Hpre y Hy). unfold HDR in *. lia.
  - intros b Hb1 Hb2'. rewrite Hm2, Hm1; done.
Qed.

Lemma absorb_size b l2 :
  heads b l2 → b.2 ≤ (absorb b l2).1.2 ∧ (length (absorb b l2).2 ≤ length l2)%nat.
Proof.
  intros Hh. destruct l2 as [|q l2]; [simpl; lia|]. cbn [absorb]. destruct (Hh q) as (_ & Hq & _); [left|].
  case_match; simpl; lia.
Qed.
Lemma attach_size x b l2 :
  0 ≤ x.2 → (length (attach x b l2) ≤ 2 + length l2)%nat ∧ ∃ y, y ∈ attach x b l2 ∧ b.2 ≤ y.2.
Proof.
  intros Hx. unfold attach. case_match; (split; [simpl; lia|]).
  - eexists. split; [left|]. simpl. lia.
  - exists b. split; [right; left|lia].
Qed.

(** The new list: sorted, made of the old blocks and the new one. *)
Lemma inserted l pre x l2 b :
  sorted ((base, 0) :: l) → (base, 0) :: l = pre ++ x :: l2 → 1 ≤ b.2 → b.1 + HDR * b.2 < KERNBASE →
  x.1 + HDR ≤ b.1 → x.1 + HDR * x.2 ≤ b.1 → 0 ≤ x.2 → heads b l2 →
  ∃ l', pre ++ attach x (absorb b l2).1 (absorb b l2).2 = (base, 0) :: l' ∧
    (∀ P, mergeable P → Forall P l → P b → Forall P l') ∧ sorted l' ∧ x.1 ∈ base :: l'.*1 ∧
    total l' = total l + b.2 ∧ (length l' ≤ S (length l))%nat ∧ ∃ y, y ∈ l' ∧ b.2 ≤ y.2.
Proof.
  intros Hs Heq Hb Htop Hx1 Hx2 Hx3 Hh.
  pose proof Hs as Hs1. rewrite Heq in Hs1. apply sorted_app in Hs1 as (Hpx & Hp & Hxl).
  apply sorted_cons in Hxl as [Hxb Hl2].
  pose proof (absorb_sorted b l2 Hb Hh Hl2) as Hab. pose proof (absorb_addr b l2) as Haddr.
  destruct (absorb_heads b l2) as (Hb2 & _ & _); [done..|].
  destruct (absorb_size b l2 Hh) as [Hsz Hlen]. pose proof (absorb_total b l2) as Htot.
  assert (sorted (pre ++ attach x (absorb b l2).1 (absorb b l2).2)) as Hs'.
  { apply sorted_app. split; [|split; [done|]].
    - intros y z Hy. revert z. apply Forall_forall. apply attach_before; [apply Hpx; [done|left]|unfold HDR in *; lia|].
      apply sorted_cons in Hab as [Hab _]. eapply Forall_impl; [exact Hab|]. intros z [Hz _]. done.
    - apply attach_sorted; [unfold HDR in *; lia|lia|lia|done]. }
  destruct (attach_size x (absorb b l2).1 (absorb b l2).2 Hx3) as [Hal (y & Hy1 & Hy2)].
  destruct pre as [|z pre]; simpl in Heq; injection Heq as <- ->.
  - exists ((absorb b l2).1 :: (absorb b l2).2).
    assert (attach (base, 0) (absorb b l2).1 (absorb b l2).2 = (base, 0) :: (absorb b l2).1 :: (absorb b l2).2) as Hatt.
    { unfold attach. simpl in *. destruct (Z.eqb_spec (base + HDR * 0) (absorb b l2).1.1); [unfold HDR in *; lia|done]. }
    simpl app in *. rewrite Hatt in *. split; [done|]. split; [intros P HP Hl HPb; by apply absorb_all|].
    split; [done|]. split; [left|]. split; [lia|]. split; [simpl; lia|]. eexists. split; [left|done].
  - exists (pre ++ attach x (absorb b l2).1 (absorb b l2).2). split; [done|].
    split; [|split; [by apply sorted_cons in Hs' as [_ Hs']|]].
    { intros P HP [HPpre [HPx HPl]%Forall_cons]%Forall_app HPb. apply Forall_app. split; [done|].
      apply attach_all; [done|done|done|by apply absorb_all]. }
    split; [|split; [|split]].
    + destruct (attach_first x (absorb b l2).1 (absorb b l2).2) as (s & tl & ->).
      rewrite fmap_app. right. apply elem_of_app. right. left.
    + rewrite !total_app, attach_total. simpl in *. lia.
    + rewrite !length_app. simpl. lia.
    + exists y. split; [apply elem_of_app; by right|lia].
Qed.

Lemma heap_sorted h l out : heap_ok h l out → sorted ((base, 0) :: l).
Proof.
  intros Hok. apply sorted_cons. split; [|apply Hok]. eapply Forall_impl; [apply Hok|].
  intros y (?&?&?). unfold before, HDR in *; simpl; lia.
Qed.
Lemma heap_member h l out x : heap_ok h l out → x ∈ (base, 0) :: l → x = (base, 0) ∨ within (base + HDR) (u_sz h) x.
Proof.
  intros Hok [->|Hx]%elem_of_cons; [by left|right]. pose proof (ok_within _ _ _ Hok) as Hw.
  rewrite Forall_forall in Hw. by apply Hw.
Qed.
Lemma heap_headers h l out : heap_ok h l out → ∀ pre x l2, (base, 0) :: l = pre ++ x :: l2 →
  ∀ y, y ∈ pre → y.1 + HDR ≤ x.1.
Proof.
  intros Hok pre x l2 Heq y Hy. pose proof (heap_sorted _ _ _ Hok) as Hs. rewrite Heq in Hs.
  apply sorted_app in Hs as (Hyx & _ & _). destruct (Hyx y x Hy) as [H1 H2]; [left|].
  destruct (heap_member _ _ _ x Hok) as [->|(?&?&?)]; [rewrite Heq; apply elem_of_app; right; left| |].
  - destruct (heap_member _ _ _ y Hok) as [->|(?&?&?)]; [rewrite Heq; apply elem_of_app; by left| |];
      unfold HDR in *; simpl in *; lia.
  - destruct (heap_member _ _ _ y Hok) as [->|(?&?&?)]; [rewrite Heq; apply elem_of_app; by left| |];
      unfold HDR in *; simpl in *; lia.
Qed.
Lemma heap_header_apart h l out : heap_ok h l out → ∀ x a s, x ∈ (base, 0) :: l → out !! a = Some s →
  x.1 + HDR ≤ a ∨ a + HDR * s ≤ x.1.
Proof.
  intros Hok x a s [->|Hx]%elem_of_cons Hout.
  - left. by destruct (out_range _ _ _ _ (ok_out _ _ _ Hok) a s Hout).
  - destruct (ok_apart _ _ _ Hok x a s Hx Hout); [|by right].
    pose proof (ok_within _ _ _ Hok) as Hw. rewrite Forall_forall in Hw. destruct (Hw x Hx) as (?&?&?).
    left. unfold HDR in *; simpl in *; lia.
Qed.

Lemma free_ok h l out bp bs fuel :
  heap_ok h l out → out !! bp = Some bs → (length l < fuel)%nat →
  ∃ h' l', free fuel (bp + HDR) h = Ret tt h' ∧ heap_ok h' l' (delete bp out) ∧
    u_sz h' = u_sz h ∧ keeps (delete bp out) (u_mem h) (u_mem h') ∧
    total l' = total l + bs ∧ (length l' ≤ S (length l))%nat ∧ ∃ y, y ∈ l' ∧ bs ≤ y.2.
Proof.
  intros Hok Hout Hfuel.
  destruct (heap_split h l out bp bs Hok Hout) as (pre & x & l2 & Heq & Hlt & Hgt & Hx1 & Hx2 & Hx3 & Hx4 & Hh).
  pose proof (ok_out _ _ _ Hok) as Hho. pose proof Hho as [Hos Hor Hoa].
  destruct (Hor bp bs Hout) as [Hlo Hhi]. destruct (Hos bp bs Hout) as [Hsz Hbs].
  pose proof Hok as [Hc Hs Hw Hf _ Hap [Hb Hsz0] Htop].
  pose proof (heap_sorted _ _ _ Hok) as HsN. pose proof (heap_headers _ _ _ Hok _ _ _ Heq) as Hpre.
  destruct (free_run h l bp bs pre x l2 fuel) as (m2 & Hrun & Hchain & Hsame); [done..|lia|done|done|done|done|done|done|done|done|done|done|done|].
  destruct (inserted l pre x l2 (bp, bs)) as (l' & Hl' & HP & Hs' & Hx' & Htot & Hlen & Hy); [done|done|done|simpl; lia|done..|].
  exists (mkHeap m2 x.1 (u_sz h)), l'. split; [done|].
  assert (keeps (delete bp out) (u_mem h) m2) as Hkeeps.
  { intros a s c Hac Hcr. apply lookup_delete_Some in Hac as [Hne Hac].
    apply Hsame.
    - destruct (heap_header_apart _ _ _ Hok x a s) as [Ha|Ha]; [rewrite Heq; apply elem_of_app; right; left|done|lia..].
    - destruct (Hoa a s bp bs Hac Hout) as [Ha|Ha]; [done| |]; unfold HDR in *; simpl in Ha; lia. }
  rewrite Hl' in Hchain. split; [|done]. split; simpl; try done.
  - apply HP; [apply within_mergeable|done|]. unfold within. simpl. lia.
  - eapply handed_out_keeps; [|done]. by apply handed_out_delete.
  - intros y a s Hy' Has. apply lookup_delete_Some in Has as [Hne Has].
    revert y Hy'. apply Forall_forall. apply (HP (λ y, apart y (a, s))).
    + apply apart_mergeable. by destruct (Hos a s Has).
    + apply Forall_forall. intros y Hy'. by apply Hap.
    + by apply (Hoa bp bs a s).
Qed.

(** ** malloc *)

Lemma chain_member m l1 x l2 :
  chain m (l1 ++ x :: l2) base → s_ptr m x.1 = first l2 base ∧ s_size m x.1 = x.2.
Proof. intros Hc. apply chain_app in Hc as [_ (Hp & Hs & _)]. done. Qed.

(** The free list without the block [y], or with its tail cut off. *)
Definition cut_list (y : Z * Z) (n : Z) (l2 : list (Z * Z)) : list (Z * Z) :=
  if y.2 =? n then l2 else (y.1, y.2 - n) :: l2.

Lemma cut_sorted l1 y n l2 :
  1 ≤ n ≤ y.2 → sorted (l1 ++ y :: l2) → sorted (l1 ++ cut_list y n l2).
Proof.
  intros Hn (Hb & H1 & [Hy H2]%sorted_cons)%sorted_app. rewrite Forall_forall in Hy.
  unfold cut_list. destruct (Z.eqb_spec y.2 n).
  - apply sorted_app. split; [|done]. intros x w Hx Hw. apply Hb; [done|by right].
  - apply sorted_app. split; [|split; [done|]].
    + intros x w Hx [->|Hw]%elem_of_cons; [by apply (Hb x y); [|left]|apply Hb; [done|by right]].
    + apply sorted_cons. split; [|done]. apply Forall_forall. intros w Hw. destruct (Hy w Hw).
      unfold before, HDR in *. simpl. lia.
Qed.
(** The blocks of the shortened list: beside [y], or what is left of it. *)
Lemma cut_member l1 y n l2 x :
  sorted (l1 ++ y :: l2) → x ∈ l1 ++ cut_list y n l2 →
  (x ∈ l1 ++ y :: l2 ∧ (before x y ∨ before y x)) ∨ x = (y.1, y.2 - n) ∧ y.2 ≠ n.
Proof.
  intros (Hb & H1 & [Hy H2]%sorted_cons)%sorted_app Hx. rewrite Forall_forall in Hy. rewrite elem_of_app, elem_of_cons.
  apply elem_of_app in Hx as [Hx|Hx]; [left; split; [by left|left; apply Hb; [done|left]]|].
  unfold cut_list in Hx. destruct (Z.eqb_spec y.2 n); [left; split; [by right; right|right; by apply Hy]|].
  apply elem_of_cons in Hx as [->|Hx]; [by right|left; split; [by right; right|right; by apply Hy]].
Qed.
Lemma cut_total l1 y n l2 : total (l1 ++ cut_list y n l2) = total (l1 ++ y :: l2) - n.
Proof. rewrite !total_app. unfold cut_list. destruct (Z.eqb_spec y.2 n); simpl; lia. Qed.

Lemma handed_out_insert m lo hi out y n :
  handed_out m lo hi out → within lo hi y → 1 ≤ n ≤ y.2 → (∀ a s, out !! a = Some s → apart y (a, s)) →
  let a := y.1 + HDR * (y.2 - n) in
  s_size m a = n → out !! a = None ∧ handed_out m lo hi (<[a := n]> out).
Proof.
  intros [Hs Hr Ha] (Hw1 & Hw2 & Hw3) Hn Hap a Hsz. assert (out !! a = None) as Hnone.
  { apply eq_None_not_Some. intros [s Hs']. destruct (Hap _ _ Hs'), (Hs _ _ Hs') as [_ ?];
      subst a; unfold HDR in *; simpl in *; lia. }
  assert (∀ b t, out !! b = Some t → apart (a, n) (b, t)) as Hnew.
  { intros b t Hb. destruct (Hap b t Hb); subst a; unfold apart, HDR in *; simpl in *; lia. }
  split; [done|]. split.
  - intros b t [[<- <-]|[Hne Hb]]%lookup_insert_Some; [split; [done|lia]|by apply Hs].
  - intros b t [[<- <-]|[Hne Hb]]%lookup_insert_Some; [|by apply Hr]. subst a. unfold HDR in *. lia.
  - intros b t c u [[<- <-]|[Hne Hb]]%lookup_insert_Some [[<- <-]|[Hne' Hc]]%lookup_insert_Some Hbc; [done|by apply Hnew| |by eapply Ha].
    destruct (Hnew b t Hb); [by right|by left].
Qed.

Lemma heap_cut h l out pre z y l2 n m' :
  heap_ok h l out → (base, 0) :: l = pre ++ z :: y :: l2 → 1 ≤ n ≤ y.2 →
  let a := y.1 + HDR * (y.2 - n) in
  chain m' (pre ++ z :: cut_list y n l2) base → s_size m' a = n → keeps out (u_mem h) m' →
  out !! a = None ∧ ∃ l', heap_ok (mkHeap m' z.1 (u_sz h)) l' (<[a := n]> out) ∧ total l' = total l - n.
Proof.
  intros Hok Heq Hn a Hc Hsz Hk.
  assert (∃ l1, (base, 0) :: l1 = pre ++ [z] ∧ l = l1 ++ y :: l2) as (l1 & Hl1 & ->).
  { destruct pre as [|x pre]; simpl in Heq; injection Heq as <- ->; [by exists []|].
    exists (pre ++ [z]). by rewrite <-app_assoc. }
  assert (pre ++ z :: cut_list y n l2 = (base, 0) :: l1 ++ cut_list y n l2) as Heq'.
  { rewrite cons_middle, app_assoc, <-Hl1. done. }
  pose proof Hok as [_ Hs Hw _ Hho Hap Hb Htop]. pose proof Hw as Hw'. rewrite Forall_forall in Hw'.
  assert (within (base + HDR) (u_sz h) y) as Hwy by (apply Hw', elem_of_app; right; left).
  assert (∀ a s, out !! a = Some s → apart y (a, s)) as Hapy.
  { intros b s. apply Hap, elem_of_app. right; left. }
  destruct (handed_out_insert m' (base + HDR) (u_sz h) out y n) as [Hnone Hout]; [|done..|].
  { eapply handed_out_keeps; [exact Hho|done]. }
  split; [done|]. exists (l1 ++ cut_list y n l2). split; [|apply cut_total]. split; simpl; try done.
  - by rewrite Heq' in Hc.
  - by apply cut_sorted.
  - apply Forall_forall. intros x Hx. destruct (cut_member _ _ _ _ _ Hs Hx) as [[Hx' _]|[-> Hne]]; [by apply Hw'|].
    destruct Hwy as (?&?&?). unfold within, HDR in *; simpl; lia.
  - assert (z ∈ (base, 0) :: l1) as Hz by (rewrite Hl1; apply elem_of_app; right; left).
    rewrite fmap_app. change (base :: l1.*1 ++ (cut_list y n l2).*1) with (((base, 0) :: l1).*1 ++ (cut_list y n l2).*1).
    apply elem_of_app. left. by apply list_elem_of_fmap_2.
  - intros x b s Hx [[<- <-]|[Hne' Hbs]]%lookup_insert_Some.
    + destruct (cut_member _ _ _ _ _ Hs Hx) as [[Hx' [[??]|[??]]]|[-> Hne]]; subst a; unfold apart, HDR in *; simpl in *; lia.
    + destruct (cut_member _ _ _ _ _ Hs Hx) as [[Hx' _]|[-> Hne]]; [by apply Hap|].
      destruct (Hapy b s Hbs), Hwy as (?&?&?); unfold apart, HDR in *; simpl in *; lia.
Qed.

(** Running [take_block]: the header words it writes, and the list it leaves. *)
Lemma take_block_run h pre z y l2 n :
  chain (u_mem h) (pre ++ z :: y :: l2) base → sorted (pre ++ z :: y :: l2) →
  1 ≤ n ≤ y.2 → 0 ≤ y.1 → y.1 + HDR * y.2 < KERNBASE → 0 < base < KERNBASE →
  (∀ x, x ∈ pre → x.1 + HDR ≤ z.1) → z.1 + HDR ≤ y.1 → (∀ x, x ∈ l2 → 0 ≤ x.1 < KERNBASE) →
  let a := y.1 + HDR * (y.2 - n) in
  ∃ m', take_block n z.1 y.1 h = Ret (a + HDR) (mkHeap m' z.1 (u_sz h)) ∧
    chain m' (pre ++ z :: cut_list y n l2) base ∧ s_size m' a = n ∧
    ∀ b, (b < z.1 ∨ z.1 + HDR ≤ b) → (b < y.1 ∨ y.1 + HDR * y.2 ≤ b) → ld8 m' b = ld8 (u_mem h) b.
Proof.
  intros Hc Hs Hn Hy0 Htop Hbase Hpre Hzy Hl2.
  pose proof Hc as Hc'. rewrite cons_middle, app_assoc in Hc'. destruct (chain_member _ _ _ _ Hc') as [Hyp Hys].
  apply chain_app in Hc' as [_ [_ [_ Hcl]]]. apply chain_app in Hc as [Hcp (Hzp & Hzs & _)].
  set (m := u_mem h) in *.
  assert (∀ x, x ∈ l2 → y.1 + HDR * y.2 ≤ x.1) as Hafter.
  { apply sorted_app in Hs as (_ & _ & Hs). apply sorted_cons in Hs as [_ [Hs _]%sorted_cons].
    rewrite Forall_forall in Hs. intros x Hx. destruct (Hs x Hx). lia. }
  assert (0 ≤ first l2 base < KERNBASE) as Hf by (destruct l2; simpl; [lia|apply Hl2; left]).
  unfold take_block, bind at 1, gets at 1. fold m. rewrite Hys, Hyp. unfold cut_list.
  destruct (Z.eqb_spec y.2 n) as [<-|Hne]; unfold bind, set_ptr, set_size, modify, gets, ret; simpl; fold m.
  - rewrite Z.sub_diag, Z.mul_0_r, Z.add_0_r.
    rewrite u32_small by (unfold HDR, KERNBASE in *; lia). eexists. split; [reflexivity|].
    assert (same_outside m (st32 m z.1 (first l2 base)) z.1 HDR) as Hso by (apply same_outside_st32; unfold HDR; lia).
    split; [|split; [|intros b Hb _; by apply Hso]].
    + apply chain_app. split; [eapply chain_frame; [exact Hso| |exact Hcp]; intros x Hx; left; by apply Hpre|].
      cbn [chain]. rewrite ptr_set_ptr, size_set_ptr by done. split; [done|]. split; [done|].
      eapply chain_frame; [exact Hso| |exact Hcl]. intros x Hx. specialize (Hafter x Hx). unfold HDR in *. lia.
    + destruct (ptr_other m z.1 y.1 (first l2 base)) as (_ & -> & _); [lia|done].
  - rewrite size_set_size by (unfold HDR, KERNBASE in *; lia). set (a := y.1 + HDR * (y.2 - n)).
    rewrite (u32_small a), u32_small by (subst a; unfold HDR, KERNBASE in *; lia).
    eexists. split; [reflexivity|]. set (m1 := st32 m (y.1 + 4) (y.2 - n)). set (m2 := st32 m1 (a + 4) n).
    assert (y.1 + HDR ≤ a ∧ a + HDR ≤ y.1 + HDR * y.2) as Ha by (subst a; unfold HDR in *; lia).
    assert (same_outside m m1 y.1 HDR) as H1 by (apply same_outside_st32; unfold HDR; lia).
    assert (same_outside m1 m2 a HDR) as H2 by (apply same_outside_st32; unfold HDR; lia).
    assert (∀ l e, (∀ x, x ∈ l → x.1 + HDR ≤ y.1 ∨ y.1 + HDR * y.2 ≤ x.1) → chain m l e → chain m2 l e) as Hframe.
    { intros l e Hl Hcl'. eapply chain_frame; [exact H2| |eapply chain_frame; [exact H1| |exact Hcl']];
        intros x Hx; specialize (Hl x Hx); unfold HDR in *; lia. }
    split; [|split; [|intros b Hb1 Hb2; rewrite H2, H1; [done|unfold HDR in *; lia..]]].
    + apply chain_app. split; [apply Hframe; [|done]; intros x Hx; specialize (Hpre x Hx); unfold HDR in *; lia|].
      destruct (ptr_other m1 a z.1 n) as (_ & _ & Hz1 & Hz2); [unfold HDR in *; lia|].
      destruct (ptr_other m y.1 z.1 (y.2 - n)) as (_ & _ & Hz3 & Hz4); [unfold HDR in *; lia|].
      destruct (ptr_other m1 a y.1 n) as (_ & _ & Hy1 & Hy2); [unfold HDR in *; lia|].
      cbn [chain first fst snd]. fold m1 in Hz3, Hz4. fold m2 in Hz1, Hz2, Hy1, Hy2. rewrite Hz1, Hz2, Hz3, Hz4, Hy1, Hy2.
      subst m1. rewrite ptr_set_size, size_set_size by (unfold HDR, KERNBASE in *; lia).
      repeat (split; [done|]). apply Hframe; [|done]. intros x Hx. specialize (Hafter x Hx). lia.
    + apply size_set_size. unfold HDR, KERNBASE in *. lia.
Qed.

Lemma take_block_ok h l out pre z y l2 n :
  heap_ok h l out → (base, 0) :: l = pre ++ z :: y :: l2 → 1 ≤ n ≤ y.2 →
  ∃ h' a l', take_block n z.1 y.1 h = Ret (a + HDR) h' ∧ u_sz h' = u_sz h ∧
    keeps out (u_mem h) (u_mem h') ∧ out !! a = None ∧
    heap_ok h' l' (<[a := n]> out) ∧ total l' = total l - n.
Proof.
  intros Hok Heq Hn. pose proof (ok_chain _ _ _ Hok) as Hc. pose proof (heap_sorted _ _ _ Hok) as Hs.
  rewrite Heq in Hc, Hs. pose proof (ok_top _ _ _ Hok) as Htop. pose proof (ok_base _ _ _ Hok) as [Hb Hbs].
  assert ((base, 0) :: l = (pre ++ [z]) ++ y :: l2) as Heqy by by rewrite <-app_assoc.
  pose proof (heap_headers _ _ _ Hok _ _ _ Heq) as Hpre.
  assert (z.1 + HDR ≤ y.1) as Hzy.
  { apply (heap_headers _ _ _ Hok _ _ _ Heqy). apply elem_of_app. right; left. }
  assert (∀ x, x ∈ y :: l2 → x ∈ l ∧ within (base + HDR) (u_sz h) x) as Hw.
  { intros x Hx. pose proof (ok_within _ _ _ Hok) as Hw. rewrite Forall_forall in Hw.
    assert (x ∈ l); [|by split; [|apply Hw]].
    destruct pre as [|w pre]; simpl in Heq; injection Heq as _ ->; [done|]. rewrite elem_of_app. right. by right. }
  destruct (Hw y ltac:(left)) as [Hyl (Hy1 & Hy2 & Hy3)].
  destruct (take_block_run h pre z y l2 n) as (m' & Hrun & Hchain & Hsz & Hsame); try done; try (unfold HDR in *; lia).
  { intros x Hx. destruct (Hw x ltac:(by right)) as [_ (?&?&?)]. unfold HDR in *. lia. }
  assert (keeps out (u_mem h) m') as Hk.
  { intros b s c Hb' Hcr. apply Hsame.
    - destruct (heap_header_apart _ _ _ Hok z b s); [rewrite Heq; apply elem_of_app; right; left|done|lia..].
    - destruct (ok_apart _ _ _ Hok y b s Hyl Hb'); simpl in *; lia. }
  destruct (heap_cut h l out pre z y l2 n m') as (Hnone & l' & Hok' & Htot); [done..|].
  by eexists _, _, l'.
Qed.

(** ** morecore *)

Lemma keeps_refl out m : keeps out m m.
Proof. by intros a s b. Qed.
Lemma keeps_trans out m1 m2 m3 : keeps out m1 m2 → keeps out m2 m3 → keeps out m1 m3.
Proof. intros H1 H2 a s b Ha Hb. rewrite (H2 a s b Ha Hb). by apply (H1 a s). Qed.

(** The process has grown: the new memory counts as a block handed out. *)
Lemma heap_grow h l out nu :
  heap_ok h l out → 1 ≤ nu → u_sz h + HDR * nu < KERNBASE →
  let m' := st32 (u_mem h) (u_sz h + 4) nu in
  heap_ok (mkHeap m' (u_freep h) (u_sz h + HDR * nu)) l (<[u_sz h := nu]> out) ∧
  keeps out (u_mem h) m' ∧ out !! u_sz h = None.
Proof.
  intros Hok Hnu Htop' m'. destruct Hok as [Hc Hs Hw Hf Hho Hap [Hb Hbs] Htop].
  assert (same_outside (u_mem h) m' (u_sz h) HDR) as Hso by (apply same_outside_st32; unfold HDR; lia).
  assert (keeps out (u_mem h) m') as Hk.
  { intros a s b Ha Hb'. apply Hso. destruct (out_range _ _ _ _ Hho a s Ha). lia. }
  assert (out !! u_sz h = None) as Hnone.
  { apply eq_None_not_Some. intros [s Hs']. destruct (out_range _ _ _ _ Hho _ _ Hs'), (out_size _ _ _ _ Hho _ _ Hs').
    unfold HDR in *. lia. }
  assert (∀ x, x ∈ l → x.1 + HDR ≤ u_sz h ∧ x.1 + HDR * x.2 ≤ u_sz h) as Hl.
  { intros x Hx. rewrite Forall_forall in Hw. destruct (Hw x Hx) as (?&?&?). unfold HDR in *. lia. }
  split; [|done]. split; simpl; try done; try (unfold HDR in *; lia).
  - destruct Hc as (Hp & Hsz & Hc). destruct (same_outside_ptr _ _ _ base Hso) as [-> ->]; [lia|].
    split; [done|]. split; [done|]. eapply chain_frame; [exact Hso| |exact Hc]. intros x Hx. left. by apply Hl.
  - eapply Forall_impl; [exact Hw|]. intros x (?&?&?). unfold within, HDR in *. lia.
  - pose proof (handed_out_keeps _ m' _ _ _ Hho Hk) as [H1 H2 H3].
    destruct (handed_out_insert m' (base + HDR) (u_sz h + HDR * nu) out (u_sz h, nu) nu) as [_ Hins].
    + split; [done| |done]. intros a s Ha. destruct (H2 a s Ha). unfold HDR in *; lia.
    + unfold within, HDR in *. simpl. lia.
    + simpl. lia.
    + intros a s Ha. destruct (H2 a s Ha). right. simpl. lia.
    + simpl. rewrite Z.sub_diag, Z.mul_0_r, Z.add_0_r. apply size_set_size. unfold HDR, KERNBASE in *. lia.
    + simpl in Hins. by rewrite Z.sub_diag, Z.mul_0_r, Z.add_0_r in Hins.
  - intros x a s Hx [[<- <-]|[_ Ha]]%lookup_insert_Some; [|by apply Hap]. left. simpl. by apply Hl.
Qed.

Lemma morecore_ok h l out nu fuel :
  heap_ok h l out → 1 ≤ nu → nu * HDR < KERNBASE → (length l < fuel)%nat →
  morecore fuel nu h = Ret 0 h ∨
  ∃ h' l', morecore fuel nu h = Ret (u_freep h') h' ∧ heap_ok h' l' out ∧ u_sz h ≤ u_sz h' ∧
    keeps out (u_mem h) (u_mem h') ∧ (length l' ≤ S (length l))%nat ∧ ∃ y, y ∈ l' ∧ nu ≤ y.2.
Proof.
  intros Hok Hnu Hmax Hfuel. unfold morecore. set (nu' := if nu <? 4096 then 4096 else nu).
  assert (nu ≤ nu' ∧ 1 ≤ nu' ∧ nu' * HDR < KERNBASE) as (Hn1 & Hn2 & Hn3).
  { subst nu'. destruct (Z.ltb_spec nu 4096); unfold HDR, KERNBASE in *; lia. }
  clearbody nu'. pose proof (ok_base _ _ _ Hok) as [Hb Hbs]. pose proof (ok_top _ _ _ Hok) as Htop.
  assert (sbrk (u32 (nu' * HDR)) h = Ret (-1) h ∨
    u_sz h + HDR * nu' < KERNBASE ∧ sbrk (u32 (nu' * HDR)) h = Ret (u_sz h) (h <| u_sz := u_sz h + HDR * nu' |>)) as Hsbrk.
  { unfold sbrk, bind, gets. rewrite u32_small, s32_small by (unfold HDR, KERNBASE in *; lia).
    destruct (Z.ltb_spec 0 (nu' * HDR)); [|unfold HDR in *; lia]. rewrite (Z.mul_comm nu').
    destruct (Z.ltb_spec (u_sz h + HDR * nu') KERNBASE), (frames (u_sz h + HDR * nu')); simpl; auto. }
  destruct Hsbrk as [Hs|[Hfit Hs]]; rewrite (bind_ret_eq _ _ _ _ _ Hs); [by left|right].
  destruct (Z.eqb_spec (u_sz h) (-1)); [unfold HDR in *; lia|].
  destruct (heap_grow h l out nu' Hok Hn2 Hfit) as (Hok1 & Hk1 & Hnone).
  destruct (free_ok _ l (<[u_sz h := nu']> out) (u_sz h) nu' fuel Hok1) as (h' & l' & Hfree & Hok' & Hsz & Hk & _ & Hlen & y & Hy & Hys);
    [by rewrite lookup_insert_eq|done|].
  rewrite (delete_insert_id out) in Hok', Hk by done.
  exists h', l'. unfold set_size at 1, bind at 1, modify at 1. simpl.
  rewrite u32_small by (unfold HDR, KERNBASE in *; lia). 
  change (h <| u_sz := u_sz h + HDR * nu' |> <| u_mem := st32 (u_mem h) (u_sz h + 4) nu' |>) with
    (mkHeap (st32 (u_mem h) (u_sz h + 4) nu') (u_freep h) (u_sz h + HDR * nu')).
  rewrite (bind_ret_eq _ _ _ _ _ Hfree). split; [done|]. split; [done|]. simpl in Hsz.
  split; [unfold HDR in *; lia|]. split; [by eapply keeps_trans|]. split; [done|]. exists y. split; [done|lia].
Qed.

(** ** The search of [malloc] *)

Lemma chain_lookup m l e i x :
  chain m l e → l !! i = Some x →
  s_ptr m x.1 = match l !! S i with Some y => y.1 | None => e end ∧ s_size m x.1 = x.2.
Proof.
  revert i. induction l as [|y l IH]; intros [|i] Hc Hi; simplify_eq/=.
  - destruct Hc as (Hp & Hs & _). split; [|done]. rewrite Hp. by destruct l.
  - apply IH; [|done]. by destruct Hc as (_ & _ & Hc).
Qed.
Lemma sorted_lookup l i j x y : sorted l → l !! i = Some x → l !! j = Some y → x.1 = y.1 → i = j.
Proof.
  intros Hs Hx Hy Hxy. destruct (Nat.lt_trichotomy i j) as [Hij|[Hij|Hij]]; [|done|]; exfalso.
  - rewrite <-(take_drop_middle l j y Hy) in Hs. apply sorted_app in Hs as (Hb & _).
    destruct (Hb x y); [|left|lia]. apply list_elem_of_lookup. exists i. by rewrite lookup_take_lt.
  - rewrite <-(take_drop_middle l i x Hx) in Hs. apply sorted_app in Hs as (Hb & _).
    destruct (Hb y x); [|left|lia]. apply list_elem_of_lookup. exists j. by rewrite lookup_take_lt.
Qed.
Lemma lookup_pair (l : list (Z * Z)) i z x :
  l !! i = Some z → l !! S i = Some x → l = take i l ++ z :: x :: drop (S (S i)) l.
Proof.
  intros Hz Hx. rewrite <-(take_drop_middle l i z Hz) at 1. f_equal. f_equal. by apply drop_S.
Qed.

Lemma malloc_loop_fit fuel n prevp p h :
  n ≤ s_size (u_mem h) p → malloc_loop (S fuel) n prevp p h = take_block n prevp p h.
Proof.
  intros Hn. cbn [malloc_loop]. unfold bind at 1, gets at 1.
  by destruct (Z.leb_spec n (s_size (u_mem h) p)); [|lia].
Qed.
Lemma malloc_loop_next fuel n prevp p h :
  s_size (u_mem h) p < n → p ≠ u_freep h →
  malloc_loop (S fuel) n prevp p h = malloc_loop fuel n p (s_ptr (u_mem h) p) h.
Proof.
  intros Hn Hp. cbn [malloc_loop]. unfold bind, gets.
  destruct (Z.leb_spec n (s_size (u_mem h) p)); [lia|]. by destruct (Z.eqb_spec p (u_freep h)).
Qed.
Lemma malloc_loop_more fuel n prevp h :
  s_size (u_mem h) (u_freep h) < n →
  malloc_loop (S fuel) n prevp (u_freep h) h =
  (r ← morecore (S fuel) n;
   if r =? 0 then ret 0 else m ← gets u_mem; malloc_loop fuel n r (s_ptr m r)) h.
Proof.
  intros Hn. cbn [malloc_loop]. unfold bind, gets.
  destruct (Z.leb_spec n (s_size (u_mem h) (u_freep h))); [lia|]. by rewrite Z.eqb_refl.
Qed.

(** From block [i], [d] blocks before [freep]: the search finds a block, or
    gets to [freep] having seen that none of these is big enough. *)
Lemma loop_pass h l n f xf :
  chain (u_mem h) ((base, 0) :: l) base → sorted ((base, 0) :: l) → 1 ≤ n →
  ((base, 0) :: l) !! f = Some xf → xf.1 = u_freep h →
  let N := (base, 0) :: l in
  ∀ d i x prevp fuel, N !! i = Some x → (i + d = f ∨ i + d = f + length N)%nat →
    (d < length N)%nat → (d < fuel)%nat → (∀ z, i ≠ 0%nat → N !! pred i = Some z → prevp = z.1) →
  (∃ pre z y l2, N = pre ++ z :: y :: l2 ∧ n ≤ y.2 ∧
     malloc_loop fuel n prevp x.1 h = take_block n z.1 y.1 h) ∨
  (∀ j y, N !! j = Some y → (i ≤ j ≤ i + d ∨ i ≤ j + length N ≤ i + d)%nat → y.2 < n) ∧
  ∃ prev', malloc_loop fuel n prevp x.1 h = malloc_loop (fuel - d) n prev' (u_freep h) h.
Proof.
  intros Hc Hs Hn Hf Hfx N. fold N in Hc, Hs, Hf. pose proof (lookup_lt_Some _ _ _ Hf) as Hfl.
  induction d as [|d IH]; intros i x prevp fuel Hi Hd Hdl Hfuel Hprev;
    pose proof (lookup_lt_Some _ _ _ Hi) as Hil; destruct (chain_lookup _ _ _ _ _ Hc Hi) as [Hp Hsz];
    (destruct fuel as [|fuel]; [lia|]); (destruct (decide (n ≤ x.2)) as [Hfit|Hfit];
     [left; destruct i as [|i]; [simpl in Hi; simplify_eq/=; lia|];
      destruct (N !! i) as [z|] eqn:Hz; [|apply lookup_ge_None in Hz; lia];
      exists (take i N), z, x, (drop (S (S i)) N); split; [by apply lookup_pair|]; split; [done|];
      rewrite malloc_loop_fit by lia; by rewrite (Hprev z) by done|]).
  - right. assert (i = f) as -> by lia. simplify_eq. split.
    + intros j y Hj Hij. assert (j = f) as -> by (apply lookup_lt_Some in Hj; lia). simplify_eq. lia.
    + exists prevp. by rewrite Hfx, Nat.sub_0_r.
  - assert (x.1 ≠ u_freep h) as Hne.
    { rewrite <-Hfx. intros Heq. assert (i = f) as -> by by eapply sorted_lookup. lia. }
    rewrite malloc_loop_next, Hp by (done || lia).
    assert (∃ i' y, N !! i' = Some y ∧ y.1 = match N !! S i with Some y => y.1 | None => base end ∧
      (i' = S i ∨ i' = 0%nat ∧ S i = length N)) as (i' & y & Hi' & Hy & Hcase).
    { destruct (N !! S i) as [y|] eqn:Hnext; [exists (S i), y; auto|].
      exists 0%nat, (base, 0). apply lookup_ge_None in Hnext. split; [done|]. split; [done|]. right. lia. }
    rewrite <-Hy. destruct (IH i' y x.1 fuel Hi') as [Hl|[Hnone [prev' Hr]]];
      [lia|lia|lia| |by left|right].
    { intros z Hi0 Hz. destruct Hcase as [->|[-> _]]; [|done]. simpl in Hz. by simplify_eq. }
    split; [|by exists prev']. intros j w Hj Hij. destruct (decide (j = i)) as [->|Hji]; [simplify_eq; lia|].
    apply (Hnone j w Hj). apply lookup_lt_Some in Hj. lia.
Qed.

(** A whole turn, from the block after [freep]. *)
Lemma loop_turn h l out n fuel :
  heap_ok h l out → 1 ≤ n → (length l < fuel)%nat →
  let run := malloc_loop fuel n (u_freep h) (s_ptr (u_mem h) (u_freep h)) h in
  (∃ pre z y l2, (base, 0) :: l = pre ++ z :: y :: l2 ∧ n ≤ y.2 ∧ run = take_block n z.1 y.1 h) ∨
  Forall (λ y, y.2 < n) l ∧ s_size (u_mem h) (u_freep h) < n ∧
  ∃ prev', run = malloc_loop (fuel - length l) n prev' (u_freep h) h.
Proof.
  intros Hok Hn Hfuel run. pose proof (ok_chain _ _ _ Hok) as Hc. pose proof (heap_sorted _ _ _ Hok) as Hs.
  pose proof (ok_freep _ _ _ Hok) as Hf. change (base :: l.*1) with (((base, 0) :: l).*1) in Hf.
  apply list_elem_of_fmap in Hf as (xf & Hxf & Hin). apply list_elem_of_lookup in Hin as [f Hf].
  destruct (chain_lookup _ _ _ _ _ Hc Hf) as [Hp Hsz]. pose proof (lookup_lt_Some _ _ _ Hf) as Hfl.
  set (N := (base, 0) :: l) in *.
  assert (∃ i x, N !! i = Some x ∧ x.1 = s_ptr (u_mem h) (u_freep h) ∧
    (i = S f ∨ i = 0%nat ∧ S f = length N)) as (i & x & Hi & Hx & Hcase).
  { rewrite Hxf, Hp. destruct (N !! S f) as [y|] eqn:Hnext; [exists (S f), y; auto|].
    exists 0%nat, (base, 0). apply lookup_ge_None in Hnext. split; [done|]. split; [done|]. right. lia. }
  pose proof (lookup_lt_Some _ _ _ Hi) as Hil. assert (length N = S (length l)) as HN by done.
  subst run. rewrite <-Hx.
  destruct (loop_pass h l n f xf Hc Hs Hn Hf ltac:(done) (length l) i x (u_freep h) fuel) as [Hl|[Hnone Hr]];
    [done|simpl; lia|simpl; lia|lia| |by left|right].
  { intros z Hi0 Hz. destruct Hcase as [->|[-> _]]; [|done]. simpl in Hz. fold N in Hz. by simplify_eq. }
  fold N in Hnone. split; [|split; [|done]].
  - apply Forall_forall. intros y Hy. apply list_elem_of_lookup in Hy as [j Hj].
    apply (Hnone (S j) y Hj). apply lookup_lt_Some in Hj. lia.
  - rewrite Hxf, Hsz. apply (Hnone f xf Hf). lia.
Qed.

(** What [malloc] of [n] units promises from a heap with free list [l]: a block
    of its own, or the null pointer, only if no free block was big enough, and
    then nothing has changed. *)
Definition malloc_post (h : uheap) (l : list (Z * Z)) (out : gmap Z Z) (n r : Z) (h' : uheap) : Prop :=
  r = 0 ∧ h' = h ∧ Forall (λ y, y.2 < n) l ∨
  ∃ a l', r = a + HDR ∧ 0 < a ∧ out !! a = None ∧ heap_ok h' l' (<[a := n]> out) ∧
          u_sz h ≤ u_sz h' ∧ keeps out (u_mem h) (u_mem h').

Lemma heap_ok_out_pos h l out a s : heap_ok h l out → out !! a = Some s → 0 < a.
Proof.
  intros Hok Ha. destruct (out_range _ _ _ _ (ok_out _ _ _ Hok) a s Ha). pose proof (ok_base _ _ _ Hok) as [? _].
  unfold HDR in *. lia.
Qed.
Lemma heap_ok_freep_pos h l out : heap_ok h l out → 0 < u_freep h.
Proof.
  intros Hok. pose proof (ok_base _ _ _ Hok) as [Hb _]. pose proof (ok_freep _ _ _ Hok) as [->|Hin]%elem_of_cons; [done|].
  apply list_elem_of_fmap in Hin as (x & -> & Hx). pose proof (ok_within _ _ _ Hok) as Hw. rewrite Forall_forall in Hw.
  destruct (Hw x Hx). unfold HDR in *. lia.
Qed.

Lemma take_post h0 l0 h l out pre z y l2 n :
  heap_ok h l out → (base, 0) :: l = pre ++ z :: y :: l2 → 1 ≤ n ≤ y.2 →
  u_sz h0 ≤ u_sz h → keeps out (u_mem h0) (u_mem h) →
  ∃ r h', take_block n z.1 y.1 h = Ret r h' ∧ malloc_post h0 l0 out n r h'.
Proof.
  intros Hok Heq Hn Hsz Hk. destruct (take_block_ok h l out pre z y l2 n Hok Heq Hn) as (h' & a & l' & Hr & Hs & Hk' & Hnone & Hok' & _).
  exists (a + HDR), h'. split; [done|]. right. exists a, l'. split; [done|].
  split; [eapply heap_ok_out_pos; [done|by rewrite lookup_insert_eq]|]. split; [done|]. split; [done|].
  split; [lia|]. by eapply keeps_trans.
Qed.

Lemma malloc_loop_ok h l out n fuel :
  heap_ok h l out → 1 ≤ n → n * HDR < KERNBASE → (3 * length l + 3 < fuel)%nat →
  ∃ r h', malloc_loop fuel n (u_freep h) (s_ptr (u_mem h) (u_freep h)) h = Ret r h' ∧ malloc_post h l out n r h'.
Proof.
  intros Hok Hn Hmax Hfuel.
  destruct (loop_turn h l out n fuel Hok Hn ltac:(lia)) as [(pre & z & y & l2 & Heq & Hy & ->)|(Hsmall & Hfs & prev' & ->)].
  { eapply take_post; [exact Hok|exact Heq|lia|lia|apply keeps_refl]. }
  destruct (fuel - length l)%nat as [|fuel'] eqn:Ef; [lia|]. rewrite malloc_loop_more by done.
  destruct (morecore_ok h l out n (S fuel') Hok Hn Hmax ltac:(lia)) as [Hm|(h1 & l1 & Hm & Hok1 & Hsz & Hk & Hlen & y & Hy & Hyn)];
    rewrite (bind_ret_eq _ _ _ _ _ Hm).
  { exists 0, h. split; [done|by left]. }
  pose proof (heap_ok_freep_pos _ _ _ Hok1). destruct (Z.eqb_spec (u_freep h1) 0); [lia|].
  unfold bind at 1, gets at 1.
  destruct (loop_turn h1 l1 out n fuel' Hok1 Hn ltac:(lia)) as [(pre & z & y' & l2 & Heq & Hy' & ->)|(Hsmall1 & _)].
  { eapply take_post; [exact Hok1|exact Heq|lia|done|done]. }
  rewrite Forall_forall in Hsmall1. specialize (Hsmall1 y Hy). simpl in Hsmall1. lia.
Qed.

(** A heap that may not have been used yet. *)
Definition heap_inv (h : uheap) (l : list (Z * Z)) (out : gmap Z Z) : Prop :=
  heap_ok h l out ∨
  u_freep h = 0 ∧ l = [] ∧ out = ∅ ∧ 0 < base ∧ base + HDR ≤ u_sz h < KERNBASE.

Lemma heap_ok_init h :
  0 < base → base + HDR ≤ u_sz h < KERNBASE →
  heap_ok (mkHeap (st32 (st32 (u_mem h) base base) (base + 4) 0) base (u_sz h)) [] ∅.
Proof.
  intros Hb Hsz. split; simpl; try done; try lia.
  - rewrite ptr_set_size, ptr_set_ptr, size_set_size by (unfold HDR, KERNBASE in *; lia). done.
  - constructor.
  - constructor.
Qed.

Lemma units_spec nbytes :
  0 ≤ nbytes < KERNBASE - 2 * HDR →
  nbytes ≤ HDR * (units nbytes - 1) < nbytes + HDR ∧ 1 ≤ units nbytes ∧ units nbytes * HDR < KERNBASE.
Proof.
  intros Hn. unfold units, HDR, KERNBASE in *. rewrite u32_small by lia. Z.div_mod_to_equations. lia.
Qed.

(** Requests near the top of the 32 bits are rounded to a single unit, the
    header alone. *)
Lemma units_overflow nbytes : 4294967289 ≤ nbytes < 4294967296 → units nbytes = 1.
Proof.
  intros Hn. unfold units, HDR. replace (u32 (nbytes + 8 - 1)) with (nbytes + 7 - 4294967296).
  - rewrite Z.div_small by lia. done.
  - unfold u32. rewrite <-(Z_mod_plus_full _ (-1)), Z.mod_small by lia. lia.
Qed.
(** A request of half the address space or more is a negative [int] to [sbrk],
    which then succeeds without giving any memory. *)
Lemma sbrk_negative n h :
  2147483648 ≤ n < 4294967296 → 0 ≤ u_sz h → u_sz h + n < 4294967296 → sbrk n h = Ret (u_sz h) h.
Proof.
  intros Hn Hsz Hfit. unfold sbrk, bind, gets.
  assert (s32 n = n - 4294967296) as ->.
  { unfold s32. rewrite <-(Z_mod_plus_full _ (-1)), Z.mod_small by lia. lia. }
  destruct (Z.ltb_spec 0 (n - 4294967296)); [lia|]. destruct (Z.ltb_spec (n - 4294967296) 0); [|lia].
  replace (u32 (u_sz h + (n - 4294967296))) with (u_sz h + n).
  - destruct (Z.leb_spec (u_sz h) (u_sz h + n)); [done|lia].
  - unfold u32. rewrite <-(Z_mod_plus_full _ 1), Z.mod_small by lia. lia.
Qed.

Lemma malloc_ok h l out nbytes fuel :
  heap_inv h l out → 0 ≤ nbytes < KERNBASE - 2 * HDR → (3 * length l + 3 < fuel)%nat →
  ∃ r h', malloc fuel nbytes h = Ret r h' ∧
    (r = 0 ∧ heap_inv h' l out ∧ Forall (λ y, y.2 < units nbytes) l ∨
     ∃ a l', r = a + HDR ∧ 0 < a ∧ out !! a = None ∧ heap_inv h' l' (<[a := units nbytes]> out)) ∧
    keeps out (u_mem h) (u_mem h').
Proof.
  intros Hinv Hn Hfuel. destruct (units_spec nbytes Hn) as (_ & Hu1 & Hu2).
  assert (∃ h1, malloc fuel nbytes h = malloc_loop fuel (units nbytes) (u_freep h1) (s_ptr (u_mem h1) (u_freep h1)) h1 ∧
    heap_ok h1 l out ∧ keeps out (u_mem h) (u_mem h1)) as (h1 & -> & Hok & Hk).
  { unfold malloc. destruct Hinv as [Hok|(Hf & -> & -> & Hb & Hsz)].
    - exists h. unfold bind, gets. pose proof (heap_ok_freep_pos _ _ _ Hok).
      destruct (Z.eqb_spec (u_freep h) 0); [lia|]. split; [done|]. split; [done|apply keeps_refl].
    - eexists. split; [|split; [by apply (heap_ok_init h)|]].
      + unfold bind, gets, modify, set_ptr, set_size, ret. rewrite Hf. done.
      + intros a s b. by rewrite lookup_empty. }
  destruct (malloc_loop_ok h1 l out (units nbytes) fuel Hok Hu1 Hu2 Hfuel) as (r & h' & Hr & Hpost).
  exists r, h'. split; [done|]. destruct Hpost as [(-> & -> & Hs)|(a & l' & -> & Ha & Hnone & Hok' & _ & Hk')].
  - split; [left; split; [done|split; [by left|done]]|done].
  - split; [right; exists a, l'; repeat (split; [done|]); by left|]. by eapply keeps_trans.
Qed.

(** ** Any use of the allocator *)

(** The heaps a program can get to with [malloc], [free] of a block it holds,
    and writes into the blocks it holds; [out] are these blocks.  A request is
    below [KERNBASE - 2 * HDR], about 2 GB, the size of user memory: for larger
    ones the number of units or the argument of [sbrk] overflows and [malloc]
    returns blocks that are too small or gives memory back
    ([units_overflow], [sbrk_negative]). *)
Inductive reachable : uheap → gmap Z Z → Prop :=
| reach_init m sz :
    0 < base → base + HDR ≤ sz < KERNBASE → reachable (mkHeap m 0 sz) ∅
| reach_malloc h out fuel nbytes r h' :
    reachable h out → 0 ≤ nbytes < KERNBASE - 2 * HDR → malloc fuel nbytes h = Ret r h' →
    reachable h' (if r =? 0 then out else <[r - HDR := units nbytes]> out)
| reach_free h out fuel a s h' :
    reachable h out → out !! a = Some s → free fuel (a + HDR) h = Ret tt h' →
    reachable h' (delete a out)
| reach_store h out a s b v :
    reachable h out → out !! a = Some s → a + HDR ≤ b < a + HDR * s →
    reachable (h <| u_mem := st8 (u_mem h) b v |>) out.

(** More fuel does not change a result. *)
Lemma find_place_mono m bp : ∀ fuel fuel' p q,
  find_place fuel m bp p = Some q → (fuel ≤ fuel')%nat → find_place fuel' m bp p = Some q.
Proof.
  induction fuel as [|fuel IH]; intros [|fuel'] p q H Hf; simpl in *; try done; [lia|].
  repeat case_match; try done. eapply IH; [done|lia].
Qed.
Lemma free_mono fuel fuel' ap h h' :
  free fuel ap h = Ret tt h' → (fuel ≤ fuel')%nat → free fuel' ap h = Ret tt h'.
Proof.
  unfold free. unfold bind at 1 2 5 6, gets. intros H Hf. destruct (find_place fuel _ _ _) as [p|] eqn:E; [|done].
  by rewrite (find_place_mono _ _ _ _ _ _ E Hf).
Qed.
Lemma morecore_mono fuel fuel' nu h r h' :
  morecore fuel nu h = Ret r h' → (fuel ≤ fuel')%nat → morecore fuel' nu h = Ret r h'.
Proof.
  intros H Hf. unfold morecore in *. apply bind_Ret_inv in H as (p & h1 & Hs & H).
  rewrite (bind_ret_eq _ _ _ _ _ Hs). destruct (p =? -1); [done|].
  apply bind_Ret_inv in H as ([] & h2 & Hset & H). rewrite (bind_ret_eq _ _ _ _ _ Hset).
  apply bind_Ret_inv in H as ([] & h3 & Hfr & H). by rewrite (bind_ret_eq _ _ _ _ _ (free_mono _ _ _ _ _ Hfr Hf)).
Qed.
Lemma malloc_loop_mono n : ∀ fuel fuel' prevp p h r h',
  malloc_loop fuel n prevp p h = Ret r h' → (fuel ≤ fuel')%nat → malloc_loop fuel' n prevp p h = Ret r h'.
Proof.
  induction fuel as [|fuel IH]; intros [|fuel'] prevp p h r h' H Hf; [done|done|lia|].
  cbn [malloc_loop] in *. unfold bind at 1, gets at 1 in H. unfold bind at 1, gets at 1.
  destruct (n <=? s_size (u_mem h) p); [done|]. unfold bind at 1, gets at 1 in H. unfold bind at 1, gets at 1.
  destruct (p =? u_freep h); [|eapply IH; [done|lia]].
  apply bind_Ret_inv in H as (q & h1 & Hm & H). rewrite (bind_ret_eq _ _ _ _ _ (morecore_mono _ _ _ _ _ _ Hm Hf)).
  destruct (q =? 0); [done|]. unfold bind, gets in *. eapply IH; [done|lia].
Qed.
Lemma malloc_mono fuel fuel' nbytes h r h' :
  malloc fuel nbytes h = Ret r h' → (fuel ≤ fuel')%nat → malloc fuel' nbytes h = Ret r h'.
Proof.
  intros H Hf. unfold malloc in *. unfold bind at 1, gets at 1 in H. unfold bind at 1, gets at 1.
  apply bind_Ret_inv in H as (p & h1 & Hi & H). rewrite (bind_ret_eq _ _ _ _ _ Hi).
  unfold bind, gets in *. by eapply malloc_loop_mono.
Qed.

(** A write into a block that is handed out. *)
Lemma heap_ok_store h l out a s b v :
  heap_ok h l out → out !! a = Some s → a + HDR ≤ b < a + HDR * s →
  heap_ok (h <| u_mem := st8 (u_mem h) b v |>) l out.
Proof.
  intros Hok Ha Hb. pose proof Hok as [Hc Hs Hw Hf Hho Hap Hbase Htop]. split; simpl; try done.
  - assert (∀ l' e, (∀ x, x ∈ l' → x ∈ (base, 0) :: l) → chain (u_mem h) l' e → chain (st8 (u_mem h) b v) l' e) as Hch.
    { induction l' as [|x l' IH]; intros e Hin; [done|]. intros (Hp & Hsz & Hc'). cbn [chain].
      assert (x.1 + HDR ≤ a ∨ a + HDR * s ≤ x.1) as Hx by (apply (heap_header_apart _ _ _ Hok); [apply Hin; left|done]).
      assert (∀ c, x.1 ≤ c < x.1 + HDR → ld8 (st8 (u_mem h) b v) c = ld8 (u_mem h) c) as Hld.
      { intros c Hc''. rewrite ld8_st8. case_decide; [unfold HDR in *; lia|done]. }
      unfold s_ptr, s_size, HDR in *. rewrite !(ld32_ext (st8 (u_mem h) b v) (u_mem h)) by (intros c Hc''; apply Hld; lia).
      repeat (split; [done|]). apply IH; [|done]. intros y Hy. apply Hin. by right. }
    apply (Hch ((base, 0) :: l)); [done|exact Hc].
  - destruct Hho as [H1 H2 H3]. split; [|done..]. intros a' s' Ha'. destruct (H1 a' s' Ha') as [Hsz Hs']. split; [|done].
    rewrite <-Hsz. unfold s_size. apply ld32_ext. intros c Hc'. rewrite ld8_st8. case_decide; [|done]. exfalso.
    destruct (decide (a = a')) as [->|Hne]; [unfold HDR in *; lia|].
    destruct (H3 a s a' s' Ha Ha' Hne); unfold HDR in *; simpl in *; lia.
Qed.

Lemma reachable_inv h out : reachable h out → ∃ l, heap_inv h l out.
Proof.
  induction 1 as [m sz Hb Hsz|h out fuel nbytes r h' _ [l IH] Hn Hm|h out fuel a s h' _ [l IH] Ha Hf|h out a s b v _ [l IH] Ha Hb].
  - exists []. by right.
  - destruct (malloc_ok h l out nbytes (fuel `max` (3 * length l + 4)) IH Hn ltac:(lia)) as (r' & h'' & Hr & Hcase & _).
    rewrite (malloc_mono _ _ _ _ _ _ Hm) in Hr by lia. simplify_eq.
    destruct Hcase as [(-> & Hinv & _)|(a & l' & -> & Ha & _ & Hinv)]; [by exists l|].
    exists l'. destruct (Z.eqb_spec (a + HDR) 0); [unfold HDR in *; lia|]. by replace (a + HDR - HDR) with a by lia.
  - destruct IH as [Hok|(_ & _ & -> & _)]; [|by rewrite lookup_empty in Ha].
    destruct (free_ok h l out a s (fuel `max` S (length l)) Hok Ha ltac:(lia)) as (h'' & l' & Hr & Hok' & _).
    rewrite (free_mono _ _ _ _ _ Hf) in Hr by lia. simplify_eq. exists l'. by left.
  - destruct IH as [Hok|(_ & _ & -> & _)]; [|by rewrite lookup_empty in Ha].
    exists l. left. by eapply heap_ok_store.
Qed.

End umalloc.
End Umalloc.
