(* ===== verification/Printf.v ===== *)
(** * Printf: the user-level [printf.c]

    [putc] writes one byte to the descriptor, so what [printf] does is the
    list of bytes it writes.  [printf] is a two-state machine over the format;
    it is proved to print the rendering of the directives the format is made
    of, and to agree with the kernel's [cprintf], which looks one character
    ahead instead, on the directives both have. *)
From S2P Require Import Prelude.
From S2P Require Import Mem.
From S2P Require Import Cons.

Module Printf.

Definition udigits : list Z := chars "0123456789ABCDEF".

(** [do buf[i++] = digits[x % base]; while((x /= base) != 0);] *)
Fixpoint udigit_loop (fuel : nat) (x base : Z) : list Z :=
  match fuel with
  | O => []
  | S fuel' =>
      default 0 (udigits !! Z.to_nat (x mod base)) ::
      (if x / base =? 0 then [] else udigit_loop fuel' (x / base) base)
  end.
Definition uprintint (xx base : Z) (sgn : bool) : list Z :=
  let neg := sgn && (xx <? 0) in
  let x := u32 (if neg then - xx else xx) in
  let buf := udigit_loop 32 x base ++ (if neg then [ch "-"] else []) in
  reverse buf.

(** The loop of [printf]: [state] is whether the last character was an
    unfinished [%].  [%d] reads the word as an [int], the others as a [uint]. *)
Fixpoint printf_loop (fmt : list Z) (args : list carg) (state : bool) : option (list Z) :=
  match fmt with
  | [] => Some []
  | c :: fmt' =>
      if negb state then
        if c =? ch "%" then printf_loop fmt' args true
        else out ←? printf_loop fmt' args false; Some (c :: out)
      else
        if c =? ch "d" then
          match args with
          | CInt z :: args' => out ←? printf_loop fmt' args' false; Some (uprintint (s32 z) 10 true ++ out)
          | _ => None
          end
        else if (c =? ch "x") || (c =? ch "p") then
          match args with
          | CInt z :: args' => out ←? printf_loop fmt' args' false; Some (uprintint (s32 z) 16 false ++ out)
          | _ => None
          end
        else if c =? ch "s" then
          match args with
          | CStr s :: args' => out ←? printf_loop fmt' args' false; Some (s ++ out)
          | CInt 0 :: args' => out ←? printf_loop fmt' args' false; Some (chars "(null)" ++ out)
          | _ => None
          end
        else if c =? ch "c" then
          match args with
          | CInt z :: args' => out ←? printf_loop fmt' args' false; Some (u8 z :: out)
          | _ => None
          end
        else if c =? ch "%" then out ←? printf_loop fmt' args false; Some (c :: out)
        else out ←? printf_loop fmt' args false; Some (ch "%" :: c :: out)
  end.
Definition printf (fmt : string) (args : list carg) : option (list Z) :=
  printf_loop (chars fmt) args false.

(** ** The directives of a format *)

Inductive directive :=
| DChar (c : Z)          (* a character printed as it is *)
| DDec | DHex | DStr | DByte.

(** A [%] before an unknown letter prints both; one at the very end prints
    nothing. *)
Fixpoint directives (fmt : list Z) : list directive :=
  match fmt with
  | [] => []
  | c :: fmt' =>
      if c =? ch "%" then
        match fmt' with
        | [] => []
        | d :: fmt'' =>
            (if d =? ch "d" then [DDec]
             else if (d =? ch "x") || (d =? ch "p") then [DHex]
             else if d =? ch "s" then [DStr]
             else if d =? ch "c" then [DByte]
             else if d =? ch "%" then [DChar d]
             else [DChar (ch "%"); DChar d]) ++ directives fmt''
        end
      else DChar c :: directives fmt'
  end.

(** The bytes of one directive and the arguments that remain. *)
Definition render1 (d : directive) (args : list carg) : option (list Z * list carg) :=
  match d, args with
  | DChar c, _ => Some ([c], args)
  | DDec, CInt z :: args' => Some (uprintint (s32 z) 10 true, args')
  | DHex, CInt z :: args' => Some (uprintint (s32 z) 16 false, args')
  | DStr, CStr s :: args' => Some (s, args')
  | DStr, CInt 0 :: args' => Some (chars "(null)", args')
  | DByte, CInt z :: args' => Some ([u8 z], args')
  | _, _ => None
  end.
Fixpoint render (ds : list directive) (args : list carg) : option (list Z) :=
  match ds with
  | [] => Some []
  | d :: ds' => r ←? render1 d args; out ←? render ds' r.2; Some (r.1 ++ out)
  end.

(** The state machine prints the directives. *)
Lemma printf_loop_render fmt args : printf_loop fmt args false = render (directives fmt) args.
Proof.
  revert args. induction fmt as [fmt IH] using (induction_ltof1 _ length). unfold ltof in IH. intros args.
  destruct fmt as [|c fmt]; [done|]. destruct (Z.eqb_spec c (ch "%")) as [->|Hc].
  - destruct fmt as [|d fmt]; [done|]. pose proof (IH fmt ltac:(simpl; lia)) as IHf. cbn [printf_loop negb directives].
    rewrite Z.eqb_refl.
    destruct (d =? ch "d"), ((d =? ch "x") || (d =? ch "p")), (d =? ch "s"), (d =? ch "c"), (d =? ch "%");
      cbn [app render render1 fst snd]; rewrite <-?IHf; try done.
    all: try by destruct (printf_loop fmt args false).
    all: destruct args as [|[[]|] args]; try done; cbn [fst snd]; by rewrite <-IHf.
  - assert (printf_loop (c :: fmt) args false = (out ←? printf_loop fmt args false; Some (c :: out))) as ->.
    { cbn [printf_loop negb]. by destruct (Z.eqb_spec c (ch "%")). }
    rewrite (IH fmt) by (simpl; lia). destruct fmt; cbn [directives]; by destruct (Z.eqb_spec c (ch "%")).
Qed.

(** ** printf and cprintf *)

Lemma udigit_loop_dec fuel x : udigit_loop fuel x 10 = digit_loop fuel x 10.
Proof.
  revert x. induction fuel as [|fuel IH]; intros x; [done|]. cbn [udigit_loop digit_loop]. f_equal.
  - assert (take 10 udigits = take 10 digits) as Hd by done.
    assert (0 ≤ x mod 10 < 10) by (apply Z.mod_pos_bound; lia).
    rewrite <-(lookup_take_lt udigits 10), <-(lookup_take_lt digits 10) by lia. by rewrite Hd.
  - by destruct (x / 10 =? 0); [|rewrite IH].
Qed.
Lemma uprintint_dec x sgn : uprintint x 10 sgn = printint x 10 sgn.
Proof. unfold uprintint, printint. by rewrite udigit_loop_dec. Qed.

(** The directives the two functions treat alike: the hexadecimal digits differ
    in case, and [cprintf] has no [%c]. *)
Definition shared (d : directive) : bool := match d with DHex | DByte => false | _ => true end.
Definition int_arg (a : carg) : Prop :=
  match a with CInt z => -2147483648 ≤ z < 2147483648 | CStr _ => True end.

Lemma cprintf_printf fmt args :
  Forall int_arg args → forallb shared (directives fmt) = true →
  cprintf_chars fmt args = printf_loop fmt args false.
Proof.
  rewrite printf_loop_render. revert args.
  induction fmt as [fmt IH] using (induction_ltof1 _ length). unfold ltof in IH. intros args Ha Hs.
  destruct fmt as [|c fmt]; [done|]. destruct (Z.eqb_spec c (ch "%")) as [->|Hc].
  - destruct fmt as [|d fmt]; [done|]. cbn [directives] in Hs |- *. rewrite Z.eqb_refl in *.
    pose proof (IH fmt ltac:(simpl; lia)) as IHf. cbn [cprintf_chars]. change (negb (ch "%" =? 37)) with false. cbn iota.
    change 100 with (ch "d"). change 120 with (ch "x"). change 112 with (ch "p"). change 115 with (ch "s"). change 37 with (ch "%").
    destruct (Z.eqb_spec d (ch "d")) as [->|]; [|destruct ((d =? ch "x") || (d =? ch "p")); [done|];
      destruct (Z.eqb_spec d (ch "s")) as [->|]; [|destruct (Z.eqb_spec d (ch "c")); [done|];
      destruct (Z.eqb_spec d (ch "%")) as [->|]]].
    all: cbn [app forallb shared andb] in Hs; cbn [app render render1 fst snd].
    3,4: rewrite IHf by done; by destruct (render (directives fmt) args).
    + destruct args as [|[z|] args]; try done. apply Forall_cons in Ha as [Hz Ha]. simpl in Hz. cbn [fst snd].
      rewrite s32_small, uprintint_dec, IHf by (done || lia). done.
    + destruct args as [|[[]|] args]; try done; apply Forall_cons in Ha as [_ Ha]; cbn [fst snd]; by rewrite IHf.
  - assert (directives (c :: fmt) = DChar c :: directives fmt) as Hd.
    { destruct fmt; cbn [directives]; by destruct (Z.eqb_spec c (ch "%")). }
    rewrite Hd in *. cbn [render render1 fst snd]. rewrite <-(IH fmt) by (done || simpl; lia).
    destruct fmt; cbn [cprintf_chars]; change 37 with (ch "%"); by destruct (Z.eqb_spec c (ch "%")).
Qed.

End Printf.
