(* ===== verification/Sh.v ===== *)
(** * Sh: the parser of the shell, [sh.c]

    The line is the buffer [b], a [char *] into it an index; [es] is the index
    of its NUL.  The parsing functions move the index [*ps], so they are
    computations over it: they return a command, or end in [panic] (which
    prints the message and exits).  [malloc] is taken to succeed.

    Proved in [ShSpec]: the parser returns or reports an error on every line,
    each string of a command it returns is, after [nulterminate], the word of
    the line it was read from, and printing a command and parsing the result
    gives the command back. *)
From S2P Require Import Prelude.
From S2P Require Import Str.
Import Str.

Module Sh.

Abbreviation MAXARGS := (10)%nat (only parsing).
Abbreviation O_RDONLY := (0)%Z (only parsing).
Abbreviation O_WRONLY := (1)%Z (only parsing).
Abbreviation O_CREATE := (512)%Z (only parsing).

(** A string of the line while it is being parsed: where it starts and ends. *)
Record span := mkSpan { q_ : nat; eq_ : nat }.

(** [struct cmd] and its variants. *)
Inductive cmd :=
| EXEC (argv : list span)
| REDIR (c : cmd) (file : span) (mode fd : Z)
| PIPE (left right : cmd)
| LIST (left right : cmd)
| BACK (c : cmd).

(** The constructors; [memset] clears what they do not fill. *)
Definition execcmd : cmd := EXEC [].
Definition redircmd (subcmd : cmd) (file : span) (mode fd : Z) : cmd := REDIR subcmd file mode fd.
Definition pipecmd (left right : cmd) : cmd := PIPE left right.
Definition listcmd (left right : cmd) : cmd := LIST left right.
Definition backcmd (subcmd : cmd) : cmd := BACK subcmd.

Definition whitespace : list Z := [32; 9; 13; 10; 11].
Definition symbols : list Z := chars "<|>&;()".

(** [strchr(toks, c) != 0] for the literal [toks]. *)
Definition in_str (toks : list Z) (c : Z) : bool :=
  match strchr (toks ++ [0]) c with Some (Some _) => true | _ => false end.

Section parser.
Context (b : list Z) (es : nat).

(** [*s]; the index never passes [es], where the NUL is. *)
Definition at_ (s : nat) : Z := default 0 (b !! s).

(** [while(s < es && strchr(whitespace, *s)) s++;], and the loop over a word;
    [n] is [es - s]. *)
Fixpoint skip_ws (n s : nat) : nat :=
  match n with
  | O => s
  | S n' => if in_str whitespace (at_ s) then skip_ws n' (S s) else s
  end.
Fixpoint skip_word (n s : nat) : nat :=
  match n with
  | O => s
  | S n' =>
      if negb (in_str whitespace (at_ s)) && negb (in_str symbols (at_ s)) then skip_word n' (S s)
      else s
  end.

(** The token, its span, and the index after the blanks that follow it. *)
Definition gettoken : M nat (Z * span) := λ s0,
  let s := skip_ws (es - s0) s0 in
  let c := at_ s in
  let '(r, s1) :=
    if c =? 0 then (c, s)
    else if in_str (chars "|();&<") c then (c, S s)
    else if c =? ch ">" then
      if at_ (S s) =? ch ">" then (ch "+", S (S s)) else (c, S s)
    else (ch "a", skip_word (es - s) s) in
  Ret (r, mkSpan s s1) (skip_ws (es - s1) s1).

Definition peek (toks : string) : M nat bool := λ s0,
  let s := skip_ws (es - s0) s0 in
  Ret (truthy (at_ s) && in_str (chars toks) (at_ s)) s.

(** The loop of [parseredirs]. *)
Fixpoint parseredirs (fuel : nat) (c : cmd) : M nat cmd :=
  match fuel with
  | O => spin
  | S fuel' =>
      more ← peek "<>";
      if negb more then ret c
      else
        '(tok, _) ← gettoken;
        '(t, w) ← gettoken;
        if negb (t =? ch "a") then panic "missing file for redirection"
        else
          parseredirs fuel'
            (if tok =? ch "<" then redircmd c w O_RDONLY 0
             else if tok =? ch ">" then redircmd c w (Z.lor O_WRONLY O_CREATE) 1
             else if tok =? ch "+" then redircmd c w (Z.lor O_WRONLY O_CREATE) 1
             else c)
  end.

(** [parseexec] fills the [argv] of the node it created first, however many
    [REDIR] nodes have been put around it since. *)
Fixpoint add_arg (c : cmd) (w : span) : cmd :=
  match c with
  | EXEC argv => EXEC (argv ++ [w])
  | REDIR c f mode fd => REDIR (add_arg c w) f mode fd
  | _ => c
  end.

(** The loop of [parseexec] over the arguments. *)
Fixpoint parseargs (fuel : nat) (ret_ : cmd) (argc : nat) : M nat cmd :=
  match fuel with
  | O => spin
  | S fuel' =>
      stop ← peek "|)&;";
      if (stop : bool) then ret ret_
      else
        '(tok, w) ← gettoken;
        if tok =? 0 then ret ret_
        else if negb (tok =? ch "a") then panic "syntax"
        else
          let argc := S argc in
          if (MAXARGS <=? argc)%nat then panic "too many args"
          else
            r ← parseredirs fuel' (add_arg ret_ w);
            parseargs fuel' r argc
  end.

(** The loop of [parseline] over the [&]s. *)
Fixpoint parseback (fuel : nat) (c : cmd) : M nat cmd :=
  match fuel with
  | O => spin
  | S fuel' =>
      more ← peek "&";
      if (more : bool) then gettoken ;; parseback fuel' (backcmd c) else ret c
  end.

(** [parseline], [parsepipe], [parseexec] and [parseblock] call each other; the
    last three are given the [parseline] they call back. *)
Definition parseblock (line : M nat cmd) (fuel : nat) : M nat cmd :=
  open ← peek "(";
  if negb open then panic "parseblock"
  else
    gettoken ;;
    c ← line;
    close ← peek ")";
    if negb close then panic "syntax - missing )"
    else gettoken ;; parseredirs fuel c.

Definition parseexec (line : M nat cmd) (fuel : nat) : M nat cmd :=
  block ← peek "(";
  if (block : bool) then parseblock line fuel
  else
    r ← parseredirs fuel execcmd;
    parseargs fuel r 0.

Fixpoint parsepipe (line : M nat cmd) (fuel : nat) : M nat cmd :=
  match fuel with
  | O => spin
  | S fuel' =>
      c ← parseexec line fuel';
      bar ← peek "|";
      if (bar : bool) then gettoken ;; r ← parsepipe line fuel'; ret (pipecmd c r) else ret c
  end.

Fixpoint parseline (fuel : nat) : M nat cmd :=
  match fuel with
  | O => spin
  | S fuel' =>
      c ← parsepipe (parseline fuel') fuel';
      c ← parseback fuel' c;
      semi ← peek ";";
      if (semi : bool) then gettoken ;; r ← parseline fuel'; ret (listcmd c r) else ret c
  end.

End parser.

(** NUL-terminate all the counted strings. *)
Fixpoint nulterminate (c : cmd) (b : list Z) : list Z :=
  match c with
  | EXEC argv => foldl (λ b w, <[eq_ w := 0]> b) b argv
  | REDIR c f _ _ => <[eq_ f := 0]> (nulterminate c b)
  | PIPE l r => nulterminate r (nulterminate l b)
  | LIST l r => nulterminate r (nulterminate l b)
  | BACK c => nulterminate c b
  end.

(** Each call of [parseline] behind another one has read a character, see
    [ShSpec]. *)
Definition parse_fuel (es : nat) : nat := es + 3.

(** The command and the buffer its strings point into. *)
Definition parsecmd (b : list Z) : outcome nat (cmd * list Z) :=
  match strlen b with
  | None => Fault "strlen"
  | Some n =>
      let es := Z.to_nat n in
      (c ← parseline b es (parse_fuel es);
       peek b es "" ;;
       λ s, if negb (s =? es)%nat then Panic "syntax" else Ret (c, nulterminate c b) s) 0%nat
  end.

(** ** What a command means *)

(** A command with its strings. *)
Inductive acmd :=
| AExec (argv : list (list Z))
| ARedir (c : acmd) (file : list Z) (mode fd : Z)
| APipe (left right : acmd)
| AList (left right : acmd)
| ABack (c : acmd).

(** The C string at an index of a buffer. *)
Definition string_at (b : list Z) (i : nat) : list Z := cut (length b) (drop i b).

(** What the rest of the shell sees: the strings at the start of each span. *)
Fixpoint resolve (b : list Z) (c : cmd) : acmd :=
  match c with
  | EXEC argv => AExec ((λ w, string_at b (q_ w)) <$> argv)
  | REDIR c f mode fd => ARedir (resolve b c) (string_at b (q_ f)) mode fd
  | PIPE l r => APipe (resolve b l) (resolve b r)
  | LIST l r => AList (resolve b l) (resolve b r)
  | BACK c => ABack (resolve b c)
  end.

End Sh.
