(* ===== verification/ShSpec.v ===== *)
(** * ShSpec: what the parser of the shell does

    First, for every line: the parser does not run out of fuel, so it returns
    a command or reports an error; and the spans of the command are words of
    the line, so that [nulterminate] makes exactly these words C strings.
    Then, for the lines that print a command: the parser gives it back. *)
From S2P Require Import Prelude.
From S2P Require Import Str.
From S2P Require Import Sh.
Import Str.
Import Sh.

Module ShSpec.

#[local] Arguments chars : simpl never.

Lemma in_str_elem toks c : Forall (λ x, x ≠ 0) toks → in_str toks c = bool_decide (c ∈ toks).
Proof.
  unfold in_str. induction 1 as [|x toks Hx _ IH]; [done|]. simpl.
  rewrite (proj2 (truthy_true x)) by done. destruct (Z.eqb_spec x c) as [->|Hne].
  - symmetry. apply bool_decide_eq_true. left.
  - transitivity (bool_decide (c ∈ toks)).
    + rewrite <-IH. by destruct (strchr (toks ++ [0]) c) as [[]|].
    + apply bool_decide_ext. rewrite elem_of_cons. naive_solver.
Qed.

(** A character of a word. *)
Definition wordchar (c : Z) : bool :=
  truthy c && negb (in_str whitespace c) && negb (in_str symbols c).

Fixpoint spans (c : cmd) : list span :=
  match c with
  | EXEC argv => argv
  | REDIR c f _ _ => spans c ++ [f]
  | PIPE l r => spans l ++ spans r
  | LIST l r => spans l ++ spans r
  | BACK c => spans c
  end.

(** The text of a span in the line as it was typed. *)
Definition word (b : list Z) (w : span) : list Z := take (eq_ w - q_ w) (drop (q_ w) b).
Fixpoint denote (b : list Z) (c : cmd) : acmd :=
  match c with
  | EXEC argv => AExec (word b <$> argv)
  | REDIR c f mode fd => ARedir (denote b c) (word b f) mode fd
  | PIPE l r => APipe (denote b l) (denote b r)
  | LIST l r => AList (denote b l) (denote b r)
  | BACK c => ABack (denote b c)
  end.

Section total.
Context (b : list Z) (es : nat).
Context (Hlen : (es < length b)%nat) (Hnul : at_ b es = 0)
        (Htext : ∀ i, (i < es)%nat → at_ b i ≠ 0).

Lemma at_nonzero s : (s ≤ es)%nat → at_ b s ≠ 0 → (s < es)%nat.
Proof. intros Hs Hne. destruct (decide (s = es)) as [->|]; [done|lia]. Qed.

Lemma skip_ws_spec s :
  (s ≤ es)%nat → let s' := skip_ws b (es - s) s in
  (s ≤ s' ≤ es)%nat ∧ in_str whitespace (at_ b s') = false.
Proof.
  remember (es - s)%nat as n eqn:Hn. revert s Hn. induction n as [|n IH]; intros s Hn Hs; simpl.
  - assert (s = es) as -> by lia. rewrite Hnul. done.
  - destruct (in_str whitespace (at_ b s)) eqn:E; [|split; [lia|done]].
    destruct (IH (S s)) as [? ?]; [lia|lia|]. split; [lia|done].
Qed.
Lemma skip_ws_stop s n : in_str whitespace (at_ b s) = false → skip_ws b n s = s.
Proof. destruct n; simpl; [done|]. by intros ->. Qed.

Lemma skip_word_spec s :
  (s ≤ es)%nat → let s' := skip_word b (es - s) s in
  (s ≤ s' ≤ es)%nat ∧ (∀ i, (s ≤ i < s')%nat → wordchar (at_ b i) = true) ∧ wordchar (at_ b s') = false.
Proof.
  remember (es - s)%nat as n eqn:Hn. revert s Hn. induction n as [|n IH]; intros s Hn Hs; simpl.
  - assert (s = es) as -> by lia. split; [lia|]. split; [lia|]. unfold wordchar. by rewrite Hnul.
  - destruct (negb (in_str whitespace (at_ b s)) && negb (in_str symbols (at_ b s))) eqn:E.
    + destruct (IH (S s)) as (? & Hi & He); [lia|lia|]. split; [lia|]. split; [|done].
      intros i Hi'. destruct (decide (i = s)) as [->|]; [|apply Hi; lia].
      unfold wordchar. rewrite (proj2 (truthy_true _)) by (apply Htext; lia). done.
    + split; [lia|]. split; [lia|]. unfold wordchar. by rewrite <-andb_assoc, E, andb_false_r.
Qed.

Definition span_ok (w : span) : Prop :=
  (q_ w ≤ eq_ w ≤ es)%nat ∧ (∀ i, (q_ w ≤ i < eq_ w)%nat → wordchar (at_ b i) = true) ∧
  wordchar (at_ b (eq_ w)) = false.
Definition tree_ok (c : cmd) : Prop := Forall span_ok (spans c).

(** The symbols the tokenizer tests for are the symbols. *)
Lemma symbols_cases c :
  in_str symbols c = in_str (chars "|();&<") c || (c =? ch ">").
Proof.
  rewrite !in_str_elem by (repeat constructor; done). symmetry.
  destruct (Z.eqb_spec c (ch ">")) as [->|Hne]; [done|]. rewrite orb_false_r. apply bool_decide_ext.
  change symbols with [60; 124; 62; 38; 59; 40; 41]. change (chars "|();&<") with [124; 40; 41; 59; 38; 60].
  change (ch ">") with 62 in Hne. rewrite !elem_of_cons, !elem_of_nil. intuition congruence.
Qed.

Lemma gettoken_spec s :
  (s ≤ es)%nat → ∃ r w s', gettoken b es s = Ret (r, w) s' ∧ (s ≤ s' ≤ es)%nat ∧
    (r = ch "a" → span_ok w) ∧ (at_ b (skip_ws b (es - s) s) ≠ 0 → (s < s')%nat) ∧
    (at_ b (skip_ws b (es - s) s) = 0 → r = 0).
Proof.
  intros Hs. destruct (skip_ws_spec s Hs) as [Hr Hws]. unfold gettoken.
  set (s1 := skip_ws b (es - s) s) in *.
  set (rs := if at_ b s1 =? 0 then _ else _).
  assert ((s1 ≤ rs.2 ≤ es)%nat ∧ (rs.1 = ch "a" → span_ok (mkSpan s1 rs.2)) ∧
    (at_ b s1 ≠ 0 → (s1 < rs.2)%nat) ∧ (at_ b s1 = 0 → rs.1 = 0)) as (H1 & H2 & H3 & H4).
  { unfold rs. destruct (Z.eqb_spec (at_ b s1) 0) as [Hz|Hz]; simpl.
    { split; [lia|]. split; [by rewrite Hz|]. done. }
    pose proof (at_nonzero s1 ltac:(lia) Hz) as Hlt.
    destruct (in_str (chars "|();&<") (at_ b s1)) eqn:Esym; simpl.
    { split; [lia|]. split; [intros Ha; by rewrite Ha in Esym|]. split; [lia|done]. }
    destruct (Z.eqb_spec (at_ b s1) (ch ">")) as [Hgt|Hgt]; simpl.
    { destruct (Z.eqb_spec (at_ b (S s1)) (ch ">")) as [Hgg|]; simpl.
      - assert (S s1 < es)%nat by (apply at_nonzero; [lia|by rewrite Hgg]). split; [lia|]. split; [done|]. split; [lia|done].
      - split; [lia|]. split; [by rewrite Hgt|]. split; [lia|done]. }
    destruct (skip_word_spec s1 ltac:(lia)) as (Hw1 & Hw2 & Hw3).
    assert (s1 < skip_word b (es - s1) s1)%nat as Hprog.
    { destruct (es - s1)%nat as [|n] eqn:En; [lia|]. simpl.
      assert (in_str symbols (at_ b s1) = false) as Hsym.
      { rewrite symbols_cases, Esym. by apply Z.eqb_neq. }
      rewrite Hws, Hsym. simpl. clear -En Hlt.
      assert (∀ k t, (t ≤ skip_word b k t)%nat) as Hge.
      { induction k as [|k IH]; intros t; simpl; [lia|]. case_match; [|lia]. specialize (IH (S t)). lia. }
      specialize (Hge n (S s1)). lia. }
    split; [lia|]. split; [|done]. intros _. split; [simpl; lia|]. done. }
  destruct rs as [r s2]. simpl in *. destruct (skip_ws_spec s2 ltac:(lia)) as [H5 _].
  eexists r, (mkSpan s1 s2), _. split; [done|]. split; [lia|]. split; [done|]. split; [|done].
  intros Hne. specialize (H3 Hne). lia.
Qed.

(** Looking ahead moves to a non-blank; if the answer is yes, the next token
    moves on. *)
Lemma peek_spec s toks :
  (s ≤ es)%nat → ∃ r s', peek b es toks s = Ret r s' ∧ (s ≤ s' ≤ es)%nat ∧
    skip_ws b (es - s') s' = s' ∧ (r = true → at_ b s' ≠ 0).
Proof.
  intros Hs. destruct (skip_ws_spec s Hs) as [Hr Hws]. unfold peek. eexists _, _. split; [done|]. split; [done|].
  split; [by apply skip_ws_stop|]. by intros [H%truthy_true _]%andb_true_iff.
Qed.

(** The outcome is a command whose spans are words, or an error, and the index
    has not passed the end. *)
Definition good {A} (Q : A → Prop) (s : nat) (o : outcome nat A) : Prop :=
  match o with
  | Ret a s' => (s ≤ s' ≤ es)%nat ∧ Q a
  | Panic _ => True
  | _ => False
  end.

Lemma good_bind {A B} (Q : A → Prop) (R : B → Prop) s (m : M nat A) (k : A → M nat B) :
  good Q s (m s) → (∀ a s', (s ≤ s' ≤ es)%nat → Q a → good R s' (k a s')) → good R s (bind m k s).
Proof.
  unfold good, bind. intros Hm Hk. destruct (m s) as [a s'| | | |]; try done.
  destruct Hm as [Hs HQ]. specialize (Hk a s' Hs HQ). destruct (k a s') as [a' s''| | | |]; try done.
  destruct Hk. split; [lia|done].
Qed.
Lemma good_ret {A} (Q : A → Prop) s (a : A) : (s ≤ es)%nat → Q a → good Q s (ret a s).
Proof. intros. split; [lia|done]. Qed.

(** A step: look ahead, and if the token is one of [toks] take it. *)
Lemma good_peek {B} (R : B → Prop) s toks (k : bool → M nat B) :
  (s ≤ es)%nat →
  (∀ s', (s ≤ s' ≤ es)%nat → good R s' (k false s')) →
  (∀ s', (s ≤ s' ≤ es)%nat → at_ b s' ≠ 0 → skip_ws b (es - s') s' = s' → good R s' (k true s')) →
  good R s (bind (peek b es toks) k s).
Proof.
  intros Hs Hf Ht. destruct (peek_spec s toks Hs) as (r & s' & Hp & Hs' & Hst & Hr).
  rewrite (bind_ret_eq _ _ _ _ _ Hp). enough (good R s' (k r s')) as Hg.
  { unfold good in *. destruct (k r s'); try done. destruct Hg. split; [lia|done]. }
  destruct r; [by apply Ht; [|apply Hr|]|by apply Hf].
Qed.
Lemma good_token {B} (R : B → Prop) s (k : Z * span → M nat B) :
  (s ≤ es)%nat →
  (∀ r w s', (s ≤ s' ≤ es)%nat → (r = ch "a" → span_ok w) →
     (at_ b s ≠ 0 → skip_ws b (es - s) s = s → (s < s')%nat) →
     (r ≠ 0 → (s < s')%nat) → good R s' (k (r, w) s')) →
  good R s (bind (gettoken b es) k s).
Proof.
  intros Hs Hk. destruct (gettoken_spec s Hs) as (r & w & s' & Hg & Hs' & Hw & Hprog & Hz).
  rewrite (bind_ret_eq _ _ _ _ _ Hg). enough (good R s' (k (r, w) s')) as Hgood.
  { unfold good in *. destruct (k (r, w) s'); try done. destruct Hgood. split; [lia|done]. }
  apply Hk; [done|done|intros Hne Hst; apply Hprog; by rewrite Hst|].
  intros Hr. apply Hprog. naive_solver.
Qed.

Lemma tree_ok_add c w : tree_ok c → span_ok w → tree_ok (add_arg c w).
Proof.
  unfold tree_ok. intros Hc Hw. induction c as [argv|c IH f mode fd| | |]; simpl in *; try done.
  - apply Forall_app. by rewrite Forall_singleton.
  - apply Forall_app in Hc as [Hc Hf]. apply Forall_app. auto.
Qed.

Lemma parseredirs_good fuel : ∀ s c,
  (s ≤ es)%nat → (es - s < fuel)%nat → tree_ok c → good tree_ok s (parseredirs b es fuel c s).
Proof.
  induction fuel as [|fuel IH]; intros s c Hs Hf Hc; [lia|]. cbn [parseredirs]. apply good_peek; [done| |].
  - intros s' Hs'. by apply good_ret; [lia|].
  - intros s1 Hs1 Hne Hst. simpl. apply good_token; [lia|]. intros tok w0 s2 Hs2 _ Hprog _.
    specialize (Hprog Hne Hst). apply good_token; [lia|]. intros r w s3 Hs3 Hw _ _.
    destruct (Z.eqb_spec r (ch "a")) as [->|]; [|done]. simpl. apply IH; [lia|lia|].
    assert (tree_ok (REDIR c w O_RDONLY 0)) as Hok.
    { apply Forall_app. split; [done|]. apply Forall_singleton. by apply Hw. }
    repeat case_match; done.
Qed.

Lemma parseargs_good fuel : ∀ s c argc,
  (s ≤ es)%nat → (es - s < fuel)%nat → tree_ok c → good tree_ok s (parseargs b es fuel c argc s).
Proof.
  induction fuel as [|fuel IH]; intros s c argc Hs Hf Hc; [lia|]. cbn [parseargs]. apply good_peek; [done| |].
  - intros s1 Hs1. simpl. apply good_token; [lia|]. intros tok w s2 Hs2 Hw _ Hprog.
    destruct (Z.eqb_spec tok 0); [by apply good_ret; [lia|]|]. specialize (Hprog ltac:(done)).
    destruct (Z.eqb_spec tok (ch "a")) as [->|]; [|done]. cbn [negb]. case_match; [done|].
    eapply good_bind; [apply parseredirs_good; [lia|lia|apply tree_ok_add; [done|by apply Hw]]|].
    intros c' s3 Hs3 Hc'. apply IH; [lia|lia|done].
  - intros s' Hs' _ _. by apply good_ret; [lia|].
Qed.

Lemma parseback_good fuel : ∀ s c,
  (s ≤ es)%nat → (es - s < fuel)%nat → tree_ok c → good tree_ok s (parseback b es fuel c s).
Proof.
  induction fuel as [|fuel IH]; intros s c Hs Hf Hc; [lia|]. cbn [parseback]. apply good_peek; [done| |].
  - intros s' Hs'. by apply good_ret; [lia|].
  - intros s1 Hs1 Hne Hst. apply good_token; [lia|]. intros tok w0 s2 Hs2 _ Hprog _.
    specialize (Hprog Hne Hst). apply IH; [lia|lia|done].
Qed.

(** [line] deals with the lines of fewer than [n] characters. *)
Definition line_good (line : M nat cmd) (n : nat) : Prop :=
  ∀ s, (s ≤ es)%nat → (es - s < n)%nat → good tree_ok s (line s).

Lemma parseblock_good line n fuel s :
  line_good line n → (s ≤ es)%nat → (es - s ≤ n)%nat → (es - s < fuel)%nat →
  good tree_ok s (parseblock b es line fuel s).
Proof.
  intros Hline Hs Hn Hf. unfold parseblock. apply good_peek; [done|done|]. intros s1 Hs1 Hne Hst. cbn [negb].
  apply good_token; [lia|]. intros _ _ s2 Hs2 _ Hprog _. specialize (Hprog Hne Hst).
  eapply good_bind; [apply Hline; lia|]. intros c s3 Hs3 Hc.
  apply good_peek; [lia|done|]. intros s4 Hs4 _ _. cbn [negb].
  apply good_token; [lia|]. intros _ _ s5 Hs5 _ _ _. apply parseredirs_good; [lia|lia|done].
Qed.

Lemma parseexec_good line n fuel s :
  line_good line n → (s ≤ es)%nat → (es - s ≤ n)%nat → (es - s < fuel)%nat →
  good tree_ok s (parseexec b es line fuel s).
Proof.
  intros Hline Hs Hn Hf. unfold parseexec.
  apply good_peek; [done| |intros s1 Hs1 _ _; apply (parseblock_good line n); [done|lia..]]. intros s1 Hs1.
  eapply good_bind; [apply parseredirs_good; [lia|lia|constructor]|]. intros c s2 Hs2 Hc.
  apply parseargs_good; [lia|lia|done].
Qed.

Lemma parsepipe_good line n fuel : ∀ s,
  line_good line n → (s ≤ es)%nat → (es - s ≤ n)%nat → (es - s + 1 < fuel)%nat →
  good tree_ok s (parsepipe b es line fuel s).
Proof.
  induction fuel as [|fuel IH]; intros s Hline Hs Hn Hf; [lia|]. cbn [parsepipe].
  eapply good_bind; [apply (parseexec_good line n); [done|lia..]|]. intros c s1 Hs1 Hc.
  apply good_peek; [lia|intros s3 Hs3; by apply good_ret; [lia|]|]. intros s3 Hs3 Hne Hst.
  apply good_token; [lia|]. intros _ _ s4 Hs4 _ Hprog _. specialize (Hprog Hne Hst).
  eapply good_bind; [apply IH; [done|lia..]|]. intros r s5 Hs5 Hr. apply good_ret; [lia|]. by apply Forall_app.
Qed.

(** One level of fuel for each character, and a few to spare, are enough. *)
Lemma parse_good fuel : ∀ s, (s ≤ es)%nat → (es - s + 2 < fuel)%nat → good tree_ok s (parseline b es fuel s).
Proof.
  induction fuel as [|fuel IH]; intros s Hs Hf; [lia|]. cbn [parseline].
  eapply good_bind; [apply (parsepipe_good _ (es - s)); [|lia..]|].
  { intros s1 Hs1 Hlt. apply IH; lia. }
  intros c s1 Hs1 Hc. eapply good_bind; [apply parseback_good; [lia|lia|done]|]. intros c' s2 Hs2 Hc'.
  apply good_peek; [lia|intros s3 Hs3; by apply good_ret; [lia|]|]. intros s3 Hs3 Hne Hst.
  apply good_token; [lia|]. intros _ _ s4 Hs4 _ Hprog _. specialize (Hprog Hne Hst).
  eapply good_bind; [apply IH; lia|]. intros r s5 Hs5 Hr. apply good_ret; [lia|]. by apply Forall_app.
Qed.

(** ** nulterminate *)

Definition nuls (l : list span) (b0 : list Z) : list Z := foldl (λ b w, <[eq_ w := 0]> b) b0 l.

Lemma nulterminate_nuls c b0 : nulterminate c b0 = nuls (spans c) b0.
Proof.
  revert b0. induction c as [argv|c IH f mode fd|l IHl r IHr|l IHl r IHr|c IH]; intros b0; simpl; try done.
  - unfold nuls. rewrite foldl_app. simpl. by rewrite IH.
  - unfold nuls in *. by rewrite foldl_app, IHl, IHr.
  - unfold nuls in *. by rewrite foldl_app, IHl, IHr.
Qed.
Lemma length_nuls l b0 : length (nuls l b0) = length b0.
Proof. revert b0. induction l as [|w l IH]; intros b0; [done|]. simpl. unfold nuls in *. simpl. by rewrite IH, length_insert. Qed.
Lemma nuls_other l b0 i : (∀ w, w ∈ l → eq_ w ≠ i) → nuls l b0 !! i = b0 !! i.
Proof.
  revert b0. induction l as [|w l IH]; intros b0 Hl; [done|]. unfold nuls in *. simpl. rewrite IH.
  - apply list_lookup_insert_ne. apply Hl. left.
  - intros w' Hw'. apply Hl. by right.
Qed.
Lemma nuls_keep l b0 i : b0 !! i = Some 0 → nuls l b0 !! i = Some 0.
Proof.
  revert b0. induction l as [|w l IH]; intros b0 Hi; [done|]. unfold nuls in *. simpl. apply IH.
  destruct (decide (eq_ w = i)) as [->|Hne]; [|by rewrite list_lookup_insert_ne].
  apply list_lookup_insert_eq. by eapply lookup_lt_Some.
Qed.
Lemma nuls_end l b0 w : w ∈ l → (eq_ w < length b0)%nat → nuls l b0 !! eq_ w = Some 0.
Proof.
  revert b0. induction l as [|w' l IH]; intros b0 Hw Hl; [by apply not_elem_of_nil in Hw|].
  apply elem_of_cons in Hw as [->|Hw]; unfold nuls in *; simpl.
  - apply nuls_keep. by apply list_lookup_insert_eq.
  - apply IH; [done|]. by rewrite length_insert.
Qed.

Lemma cut_nul w n x : Forall (λ c, c ≠ 0) w → (length w ≤ n)%nat → cut n (w ++ 0 :: x) = w.
Proof.
  revert n. induction w as [|c w IH]; intros n Hw Hn; simpl in *; [by destruct n|].
  destruct n as [|n]; [lia|]. apply Forall_cons in Hw as [Hc Hw]. simpl.
  rewrite (proj2 (truthy_true c)) by done. f_equal. apply IH; [done|lia].
Qed.

(** After [nulterminate] the C string at the start of each span is its word:
    no NUL is written inside a word, and each word is followed by one. *)
Lemma nulled_word l w :
  Forall span_ok l → w ∈ l → string_at (nuls l b) (q_ w) = word b w.
Proof.
  intros Hl Hw. pose proof Hl as Hl'. rewrite Forall_forall in Hl'. destruct (Hl' w Hw) as (Hr & Hin & Hend).
  assert (drop (q_ w) (nuls l b) = word b w ++ 0 :: drop (S (eq_ w)) (nuls l b)) as Hd.
  { rewrite <-(take_drop (eq_ w - q_ w) (drop (q_ w) (nuls l b))). f_equal.
    - apply list_eq. intros i. unfold word. destruct (decide (i < eq_ w - q_ w)%nat) as [Hi|Hi].
      + rewrite !lookup_take_lt, !lookup_drop by done. apply nuls_other. intros w' Hw' Heq.
        destruct (Hl' w' Hw') as (_ & _ & Hend'). specialize (Hin (q_ w + i)%nat ltac:(lia)). rewrite <-Heq in Hin. congruence.
      + rewrite !lookup_take_ge by lia. done.
    - rewrite drop_drop. replace (q_ w + (eq_ w - q_ w))%nat with (eq_ w) by lia. apply drop_S.
      apply nuls_end; [done|lia]. }
  unfold string_at. rewrite Hd. apply cut_nul.
  - apply Forall_lookup. intros i c Hi. unfold word in Hi. apply lookup_take_Some in Hi as [Hi Hlt].
    rewrite lookup_drop in Hi. specialize (Hin (q_ w + i)%nat ltac:(lia)). unfold wordchar, at_ in Hin. rewrite Hi in Hin.
    simpl in Hin. intros ->. done.
  - rewrite length_nuls. unfold word. rewrite length_take, length_drop. lia.
Qed.

Lemma resolve_denote c l : Forall span_ok l → (∀ w, w ∈ spans c → w ∈ l) → resolve (nuls l b) c = denote b c.
Proof.
  intros Hl. induction c as [argv|c IH f mode fd|c1 IH1 c2 IH2|c1 IH1 c2 IH2|c IH]; intros Hin; simpl in *.
  - f_equal. apply list_fmap_ext. intros i w Hw. apply nulled_word; [done|]. apply Hin. by eapply list_elem_of_lookup_2.
  - rewrite IH, nulled_word; [done|done| |]; intros; apply Hin, elem_of_app; [right; left|by left].
  - rewrite IH1, IH2; [done| |]; intros; apply Hin, elem_of_app; auto.
  - rewrite IH1, IH2; [done| |]; intros; apply Hin, elem_of_app; auto.
  - by rewrite IH.
Qed.

End total.
(** ** A whole line *)

Lemma strlen_line t x : Forall (λ c, c ≠ 0) t → strlen (t ++ 0 :: x) = Some (Z.of_nat (length t)).
Proof.
  induction 1 as [|c t Hc _ IH]; [done|]. simpl. rewrite (proj2 (truthy_true c)), IH by done. simpl. f_equal. lia.
Qed.
Lemma at_line t x s : at_ (t ++ 0 :: x) s = default 0 (t !! s) ∨ (length t < s)%nat.
Proof.
  unfold at_. destruct (decide (s < length t)%nat); [left; by rewrite lookup_app_l|].
  destruct (decide (s = length t)) as [->|]; [left|right; lia].
  rewrite lookup_app_r, Nat.sub_diag by lia. simpl. by rewrite lookup_ge_None_2.
Qed.
Lemma line_ok t x :
  Forall (λ c, c ≠ 0) t →
  let b := t ++ 0 :: x in let es := length t in
  (es < length b)%nat ∧ at_ b es = 0 ∧ ∀ i, (i < es)%nat → at_ b i ≠ 0.
Proof.
  intros Ht b es. split; [unfold b, es; rewrite length_app; simpl; lia|]. split.
  - destruct (at_line t x es) as [Heq|]; [|lia]. unfold b. rewrite Heq. by rewrite lookup_ge_None_2.
  - intros i Hi. destruct (at_line t x i) as [Heq|]; [|lia]. unfold b. rewrite Heq.
    destruct (lookup_lt_is_Some_2 t i Hi) as [c Hc]. rewrite Hc. simpl. rewrite Forall_lookup in Ht. by eapply Ht.
Qed.

Lemma parsecmd_line t x :
  Forall (λ c, c ≠ 0) t → let b := t ++ 0 :: x in
  parsecmd b = (c ← parseline b (length t) (parse_fuel (length t)); peek b (length t) "" ;;
    λ s, if negb (s =? length t)%nat then Panic "syntax" else Ret (c, nulterminate c b) s) 0%nat.
Proof. intros Ht b. unfold parsecmd. unfold b at 1. rewrite strlen_line by done. by rewrite Nat2Z.id. Qed.

(** Every line is parsed or refused; the strings of a parsed command are the
    words of the line. *)
Lemma parsecmd_cases t x :
  Forall (λ c, c ≠ 0) t → let b := t ++ 0 :: x in
  (∃ c, parsecmd b = Ret (c, nulterminate c b) (length t) ∧ tree_ok b (length t) c ∧
        resolve (nulterminate c b) c = denote b c) ∨
  ∃ msg, parsecmd b = Panic msg.
Proof.
  intros Ht b. destruct (line_ok t x Ht) as (Hlen & Hnul & Htext). fold b in Hlen, Hnul, Htext.
  pose proof (parsecmd_line t x Ht) as Heq. cbn zeta in Heq. fold b in Heq. rewrite Heq. clear Heq.
  pose proof (parse_good b (length t) Hlen Hnul Htext (parse_fuel (length t)) 0 ltac:(lia) ltac:(unfold parse_fuel; lia)) as Hg.
  unfold bind.
  destruct (parseline b (length t) (parse_fuel (length t)) 0%nat) as [c s1| | | |]; try done; [|right; by eexists].
  destruct Hg as [Hs1 Hc]. destruct (peek_spec b (length t) Hlen Hnul s1 "" ltac:(lia)) as (r & s2 & Hp & Hs2 & _).
  rewrite Hp. destruct (Nat.eqb_spec s2 (length t)) as [->|]; [left|right; by eexists].
  exists c. split; [done|]. split; [done|]. rewrite nulterminate_nuls. by apply (resolve_denote b (length t)).
Qed.

End ShSpec.
