(* ===== verification/ShPrint.v ===== *)
(** * ShPrint: printing a command and parsing it again

    A command is printed as a list of tokens, each followed by a blank;
    parentheses are put where the grammar needs them.  The parser reads back
    every command whose strings are words and that has few enough
    arguments. *)
From S2P Require Import Prelude.
From S2P Require Import Str.
From S2P Require Import Sh.
From S2P Require Import ShSpec.
Import Str.
Import Sh.
Import ShSpec.

Module ShPrint.

#[local] Arguments chars : simpl never.
#[local] Arguments in_str : simpl never.

Inductive tok := TWord (w : list Z) | TSym (c : Z).

Definition tok_str (t : tok) : list Z := match t with TWord w => w | TSym c => [c] end.
Definition tok_code (t : tok) : Z := match t with TWord _ => ch "a" | TSym c => c end.
Fixpoint render (ts : list tok) : list Z :=
  match ts with [] => [] | t :: ts' => tok_str t ++ 32 :: render ts' end.

Definition paren (ts : list tok) : list tok := TSym (ch "(") :: ts ++ [TSym (ch ")")].

(** The tokens of a command where a line ([lvl] 0), a pipeline with [&]s (1),
    a pipeline (2) or a single command (3) is expected. *)
Fixpoint ptoks (lvl : nat) (c : acmd) : list tok :=
  match c with
  | AExec ws => TWord <$> ws
  | ARedir c f mode fd => ptoks 3 c ++ [TSym (if fd =? 0 then ch "<" else ch ">"); TWord f]
  | APipe l r =>
      let ts := ptoks 3 l ++ TSym (ch "|") :: ptoks 2 r in if (lvl <=? 2)%nat then ts else paren ts
  | ABack c =>
      let ts := ptoks 1 c ++ [TSym (ch "&")] in if (lvl <=? 1)%nat then ts else paren ts
  | AList l r =>
      let ts := ptoks 1 l ++ TSym (ch ";") :: ptoks 0 r in if (lvl <=? 0)%nat then ts else paren ts
  end.
Definition print (c : acmd) : list Z := render (ptoks 0 c).

Definition word_ok (w : list Z) : Prop := w ≠ [] ∧ Forall (λ c, wordchar c = true) w.
Fixpoint printable (c : acmd) : Prop :=
  match c with
  | AExec ws => (length ws < MAXARGS)%nat ∧ Forall word_ok ws
  | ARedir c f mode fd =>
      printable c ∧ word_ok f ∧
      (mode = O_RDONLY ∧ fd = 0 ∨ mode = Z.lor O_WRONLY O_CREATE ∧ fd = 1)
  | APipe l r => printable l ∧ printable r
  | AList l r => printable l ∧ printable r
  | ABack c => printable c
  end.

Definition tok_ok (t : tok) : Prop :=
  match t with TWord w => word_ok w | TSym c => in_str symbols c = true end.

Lemma tok_first t : tok_ok t → ∃ c r, tok_str t = c :: r ∧ truthy c = true ∧ in_str whitespace c = false.
Proof.
  destruct t as [[|c w]|c]; simpl.
  - by intros [? _].
  - intros [_ [Hc _]%Forall_cons]. exists c, w. unfold wordchar in Hc.
    by apply andb_true_iff in Hc as [[? ?%negb_true_iff]%andb_true_iff _].
  - intros Hc. exists c, []. rewrite in_str_elem in Hc |- * by (repeat constructor; done).
    apply bool_decide_eq_true in Hc. change symbols with [60; 124; 62; 38; 59; 40; 41] in Hc.
    split; [done|]. rewrite !elem_of_cons, elem_of_nil in Hc. by destruct_or! Hc; subst.
Qed.

Lemma ptoks_ok lvl c : printable c → Forall tok_ok (ptoks lvl c).
Proof.
  assert (∀ ts, Forall tok_ok ts → Forall tok_ok (paren ts)) as Hparen.
  { intros ts Hts. constructor; [done|]. apply Forall_app. split; [done|]. by repeat constructor. }
  revert lvl. induction c as [ws|c IH f mode fd|l IHl r IHr|l IHl r IHr|c IH]; intros lvl; simpl.
  - intros [_ Hws]. by apply Forall_fmap.
  - intros (Hc & Hf & _). apply Forall_app. split; [by apply IH|]. apply Forall_cons. split; [by case_match|].
    by apply Forall_singleton.
  - intros [Hl Hr]. assert (Forall tok_ok (ptoks 3 l ++ TSym (ch "|") :: ptoks 2 r)).
    { apply Forall_app. split; [by apply IHl|]. constructor; [done|by apply IHr]. }
    case_match; [done|by apply Hparen].
  - intros [Hl Hr]. assert (Forall tok_ok (ptoks 1 l ++ TSym (ch ";") :: ptoks 0 r)).
    { apply Forall_app. split; [by apply IHl|]. constructor; [done|by apply IHr]. }
    case_match; [done|by apply Hparen].
  - intros Hc. assert (Forall tok_ok (ptoks 1 c ++ [TSym (ch "&")])).
    { apply Forall_app. split; [by apply IH|]. by repeat constructor. }
    case_match; [done|by apply Hparen].
Qed.

Lemma render_nul_free ts : Forall tok_ok ts → Forall (λ c, c ≠ 0) (render ts).
Proof.
  induction 1 as [|t ts Ht _ IH]; simpl; [done|]. apply Forall_app. split; [|by constructor].
  destruct t as [w|c]; simpl in *.
  - destruct Ht as [_ Hw]. eapply Forall_impl; [exact Hw|]. intros c Hc. unfold wordchar in Hc. by intros ->.
  - apply Forall_singleton. by intros ->.
Qed.

Section line.
Context (line x : list Z).
#[local] Notation b := (line ++ 0 :: x).
#[local] Notation es := (length line).

(** The index [s] is at the beginning of the tokens [ts]. *)
Definition at_toks (s : nat) (ts : list tok) : Prop :=
  (s ≤ es)%nat ∧ drop s line = render ts ∧ Forall tok_ok ts.

Lemma at_drop s c r : drop s line = c :: r → at_ b s = c.
Proof.
  intros Hd. assert (line !! s = Some c) as Hs by (rewrite <-(Nat.add_0_r s), <-lookup_drop, Hd; done).
  unfold at_. rewrite lookup_app_l by by eapply lookup_lt_Some. by rewrite Hs.
Qed.
Lemma at_end : at_ b es = 0.
Proof. unfold at_. rewrite lookup_app_r, Nat.sub_diag by lia. done. Qed.

Lemma at_toks_stop s ts :
  at_toks s ts → in_str whitespace (at_ b s) = false ∧
  at_ b s = match ts with [] => 0 | t :: _ => hd 0 (tok_str t) end.
Proof.
  intros (Hs & Hd & Hok). destruct ts as [|t ts].
  - simpl in Hd. assert (s = es) as ->.
    { apply (f_equal length) in Hd. rewrite length_drop in Hd. simpl in Hd. lia. }
    by rewrite at_end.
  - apply Forall_cons in Hok as [Ht _]. destruct (tok_first t Ht) as (c & r & Htok & _ & Hws).
    simpl in Hd. rewrite Htok in Hd |- *. simpl in Hd. by rewrite (at_drop s c _ Hd).
Qed.

Lemma peek_toks s ts toks :
  at_toks s ts → forallb (in_str symbols) (chars toks) = true →
  peek b es toks s = Ret (match ts with TSym c :: _ => in_str (chars toks) c | _ => false end) s.
Proof.
  intros Hts Hsub. destruct (at_toks_stop s ts Hts) as [Hws Hat]. unfold peek.
  rewrite skip_ws_stop by done. f_equal. rewrite Hat. destruct Hts as (_ & _ & Hok).
  destruct ts as [|[[|c w]|c] ts]; try done.
  - simpl. apply Forall_cons in Hok as [[_ [Hc _]%Forall_cons] _]. unfold wordchar in Hc.
    apply andb_true_iff in Hc as [Hc Hsym%negb_true_iff]. apply andb_true_iff in Hc as [-> _].
    assert (Forall (λ x, in_str symbols x = true) (chars toks)) as Hsub'.
    { clear -Hsub. induction (chars toks) as [|y l IH]; [done|]. simpl in Hsub. apply andb_true_iff in Hsub as [? ?].
      constructor; auto. }
    rewrite in_str_elem; [apply bool_decide_eq_false; intros Hin; rewrite Forall_forall in Hsub'; rewrite Hsub' in Hsym; done|].
    eapply Forall_impl; [exact Hsub'|]. by intros y Hy ->.
  - simpl. apply Forall_cons in Hok as [Hc _]. destruct (tok_first _ Hc) as (c' & r & [= <- <-] & -> & _). done.
Qed.

Lemma drop_tok s w r : drop s line = w ++ 32 :: r → (s + length w + 1 ≤ es)%nat ∧
  drop (s + length w) line = 32 :: r ∧ drop (s + length w + 1) line = r.
Proof.
  intros Hd. split.
  - apply (f_equal length) in Hd. rewrite length_drop, length_app in Hd. simpl in Hd. lia.
  - by rewrite <-!drop_drop, Hd, drop_app_length.
Qed.

Lemma skip_word_toks s w r n :
  drop s line = w ++ 32 :: r → Forall (λ c, wordchar c = true) w → (length w ≤ n)%nat →
  skip_word b n s = (s + length w)%nat.
Proof.
  revert s n. induction w as [|c w IH]; intros s n Hd Hw Hn; simpl in *.
  - destruct n as [|n]; simpl; [lia|]. rewrite (at_drop s 32 r Hd). simpl. lia.
  - destruct n as [|n]; [lia|]. apply Forall_cons in Hw as [Hc Hw]. simpl. rewrite (at_drop s c _ Hd).
    unfold wordchar in Hc. rewrite <-andb_assoc in Hc. apply andb_true_iff in Hc as [_ ->].
    rewrite (IH (S s)); [lia| |done|lia]. rewrite <-Nat.add_1_r, <-drop_drop, Hd. done.
Qed.

(** The token at the index, and what follows it. *)
Lemma gettoken_toks s t ts :
  at_toks s (t :: ts) → let e := (s + length (tok_str t))%nat in
  gettoken b es s = Ret (tok_code t, mkSpan s e) (S e) ∧ at_toks (S e) ts ∧ word b (mkSpan s e) = tok_str t.
Proof.
  intros Hts e. destruct (at_toks_stop _ _ Hts) as [Hws Hat]. destruct Hts as (Hs & Hd & Hok).
  simpl in Hd. destruct (drop_tok _ _ _ Hd) as (Hle & Hd1 & Hd2). fold e in Hle, Hd1, Hd2.
  replace (e + 1)%nat with (S e) in * by lia.
  apply Forall_cons in Hok as [Ht Hok]. assert (at_toks (S e) ts) as Hts' by done.
  assert (skip_ws b (es - e) e = S e) as Hskip.
  { destruct (es - e)%nat as [|n] eqn:En; [lia|]. cbn [skip_ws]. rewrite (at_drop e 32 _ Hd1).
    change (in_str whitespace 32) with true. apply skip_ws_stop. by apply (at_toks_stop _ ts). }
  split; [|split; [done|]].
  2: { unfold word. simpl. replace (e - s)%nat with (length (tok_str t)) by (unfold e; lia).
       rewrite drop_app_le by lia. rewrite Hd, <-app_assoc. by rewrite take_app_length. }
  unfold gettoken. rewrite skip_ws_stop by done. rewrite Hat.
  destruct t as [[|c w]|c]; [by destruct Ht| |]; simpl in e |- *.
  - destruct Ht as [_ Hw]. pose proof Hw as [Hc _]%Forall_cons. unfold wordchar in Hc.
    apply andb_true_iff in Hc as [Hc Hsym%negb_true_iff]. apply andb_true_iff in Hc as [Hnz%truthy_true _].
    rewrite symbols_cases in Hsym. apply orb_false_iff in Hsym as [-> ->].
    destruct (Z.eqb_spec c 0); [done|]. simpl in Hd.
    rewrite (skip_word_toks s (c :: w) (render ts)) by (done || simpl; lia). simpl. fold e. by rewrite Hskip.
  - simpl in Ht. assert (c ≠ 0) by by intros ->. destruct (Z.eqb_spec c 0); [done|].
    rewrite symbols_cases in Ht. assert (S s = e) as He by (unfold e; lia).
    destruct (in_str (chars "|();&<") c); simpl in Ht; [by rewrite He, Hskip|]. rewrite Ht.
    rewrite He, (at_drop e 32 _ Hd1). change (32 =? ch ">") with false. cbn iota. by rewrite Hskip.
Qed.

(** Running up to the tokens [ts] gives a command that reads as [c]. *)
Definition yields (o : outcome nat cmd) (c : acmd) (ts : list tok) : Prop :=
  ∃ c' s', o = Ret c' s' ∧ at_toks s' ts ∧ denote b c' = c.

Lemma at_toks_lt s t ts e : at_toks s (t :: ts) → at_toks (S (s + e)) ts → (es - S (s + e) < es - s)%nat.
Proof.
  intros (Hs & Hd & _) (Hs' & _ & _). assert (s ≠ es); [|lia]. intros ->. rewrite drop_all in Hd. simpl in Hd.
  symmetry in Hd. apply app_nil in Hd as [_ ?]. done.
Qed.

Lemma render_app ts ts' : render (ts ++ ts') = render ts ++ render ts'.
Proof. induction ts as [|t ts IH]; [done|]. simpl. by rewrite IH, <-app_assoc. Qed.
(** How far the end is. *)
Lemma at_toks_len s ts : at_toks s ts → (es - s = length (render ts))%nat.
Proof. intros (Hs & Hd & _). by rewrite <-Hd, length_drop. Qed.
Lemma at_toks_after s s' ts1 t ts2 :
  at_toks s (ts1 ++ t :: ts2) → at_toks s' ts2 → (es - s' < es - s)%nat.
Proof.
  intros H1%at_toks_len H2%at_toks_len. rewrite H1, H2, render_app, length_app. simpl.
  rewrite length_app. simpl. lia.
Qed.

(** ** Redirections *)

(** The redirections of a command, the innermost first. *)
Definition rtoks (rs : list (list Z * bool)) : list tok :=
  flat_map (λ r : list Z * bool, [TSym (if r.2 then ch "<" else ch ">"); TWord r.1]) rs.
Definition wrap1 (c : acmd) (r : list Z * bool) : acmd :=
  if r.2 then ARedir c r.1 O_RDONLY 0 else ARedir c r.1 (Z.lor O_WRONLY O_CREATE) 1.
Definition wrap (c : acmd) (rs : list (list Z * bool)) : acmd := foldl wrap1 c rs.

Definition no_redir (ts : list tok) : bool :=
  match ts with TSym c :: _ => negb (in_str (chars "<>") c) | _ => true end.

Lemma parseredirs_toks rs : ∀ fuel s c ts,
  at_toks s (rtoks rs ++ ts) → no_redir ts = true → (es - s < fuel)%nat →
  yields (parseredirs b es fuel c s) (wrap (denote b c) rs) ts.
Proof.
  induction rs as [|[f inp] rs IH]; intros fuel s c ts Hts Hno Hf; (destruct fuel as [|fuel]; [lia|]); cbn [parseredirs].
  - simpl in Hts. rewrite (bind_ret_eq _ _ _ _ _ (peek_toks s ts "<>" Hts eq_refl)).
    destruct ts as [|[w|d] ts]; simpl in Hno |- *; [by exists c, s..|].
    rewrite Hno. by exists c, s.
  - simpl in Hts. set (sym := if inp then ch "<" else ch ">") in *.
    rewrite (bind_ret_eq _ _ _ _ _ (peek_toks s _ "<>" Hts eq_refl)).
    assert (in_str (chars "<>") sym = true) as -> by (unfold sym; by destruct inp). cbn [negb].
    destruct (gettoken_toks _ _ _ Hts) as (Hg1 & Hts1 & _). rewrite (bind_ret_eq _ _ _ _ _ Hg1).
    pose proof (at_toks_lt _ _ _ _ Hts Hts1) as Hlt1.
    destruct (gettoken_toks _ _ _ Hts1) as (Hg2 & Hts2 & Hw). rewrite (bind_ret_eq _ _ _ _ _ Hg2).
    pose proof (at_toks_lt _ _ _ _ Hts1 Hts2) as Hlt2.
    simpl tok_code. rewrite Z.eqb_refl. cbn [negb].
    edestruct (IH fuel _ (if sym =? ch "<" then REDIR c (mkSpan (S (s + 1)) (S (s + 1) + length f)) O_RDONLY 0
      else REDIR c (mkSpan (S (s + 1)) (S (s + 1) + length f)) (Z.lor O_WRONLY O_CREATE) 1) ts Hts2 Hno) as (c' & s' & Hr & Hs' & Hden); [lia|].
    exists c', s'. split; [rewrite <-Hr; f_equal; unfold sym; by destruct inp|]. split; [done|].
    rewrite Hden. simpl. f_equal. unfold wrap1, sym. simpl in Hw |- *.
    destruct inp; simpl; by rewrite Hw.
Qed.

(** ** Arguments *)

Definition stops (ts : list tok) : bool :=
  match ts with [] => true | TSym c :: _ => in_str (chars "|)&;") c | TWord _ :: _ => false end.

Lemma stops_no_redir ts : stops ts = true → no_redir ts = true.
Proof.
  destruct ts as [|[|c] ts]; simpl; try done. rewrite !in_str_elem by (by repeat constructor).
  rewrite bool_decide_eq_true, negb_true_iff, bool_decide_eq_false.
  change (chars "|)&;") with [124; 41; 38; 59]. change (chars "<>") with [60; 62].
  rewrite !elem_of_cons, !elem_of_nil. intros Hc. destruct_or! Hc; subst; intuition discriminate.
Qed.

Lemma parseredirs_none fuel s c ts :
  at_toks s ts → no_redir ts = true → parseredirs b es (S fuel) c s = Ret c s.
Proof.
  intros Hts Hno. cbn [parseredirs]. rewrite (bind_ret_eq _ _ _ _ _ (peek_toks s ts "<>" Hts eq_refl)).
  destruct ts as [|[w|d] ts]; simpl in Hno |- *; [done..|]. by rewrite Hno.
Qed.

Lemma gettoken_end s : at_toks s [] → ∃ w, gettoken b es s = Ret (0, w) s.
Proof.
  intros Hts. destruct (at_toks_stop _ _ Hts) as [Hws Hat]. destruct Hts as (Hs & Hd & _). simpl in Hd.
  unfold gettoken. rewrite skip_ws_stop by done. rewrite Hat. simpl. rewrite skip_ws_stop by done. by eexists.
Qed.

Lemma parseargs_stop fuel s c argc ts :
  at_toks s ts → stops ts = true → parseargs b es (S fuel) c argc s = Ret c s.
Proof.
  intros Hts Hst. cbn [parseargs]. rewrite (bind_ret_eq _ _ _ _ _ (peek_toks s ts "|)&;" Hts eq_refl)).
  destruct ts as [|[w|d] ts]; simpl in Hst |- *; [|done|by rewrite Hst].
  destruct (gettoken_end s Hts) as [w Hg]. by rewrite (bind_ret_eq _ _ _ _ _ Hg).
Qed.

Lemma parseargs_words ws : ∀ w fuel s argv argc rs ts,
  at_toks s (TWord w :: (TWord <$> ws) ++ rtoks rs ++ ts) → stops ts = true →
  (argc + S (length ws) < MAXARGS)%nat → (es - s < fuel)%nat →
  yields (parseargs b es fuel (EXEC argv) argc s) (wrap (AExec ((word b <$> argv) ++ w :: ws)) rs) ts.
Proof.
  induction ws as [|w' ws IH]; intros w fuel s argv argc rs ts Hts Hst Hargc Hf;
    (destruct fuel as [|fuel]; [lia|]); cbn [parseargs];
    rewrite (bind_ret_eq _ _ _ _ _ (peek_toks s _ "|)&;" Hts eq_refl));
    destruct (gettoken_toks _ _ _ Hts) as (Hg & Hts1 & Hw); rewrite (bind_ret_eq _ _ _ _ _ Hg);
    pose proof (at_toks_lt _ _ _ _ Hts Hts1) as Hlt; simpl in Hargc, Hw, Hts1;
    change (tok_code (TWord w) =? 0) with false; change (negb (tok_code (TWord w) =? ch "a")) with false; cbn iota;
    (destruct (Nat.leb_spec MAXARGS (S argc)); [lia|]); simpl tok_str in *;
    set (sp := mkSpan s (s + length w)) in *.
  - destruct (parseredirs_toks rs fuel _ (add_arg (EXEC argv) sp) ts Hts1 (stops_no_redir _ Hst) ltac:(lia)) as (c' & s' & Hr & Hs' & Hden).
    rewrite (bind_ret_eq _ _ _ _ _ Hr). destruct fuel as [|fuel]; [lia|]. rewrite (parseargs_stop fuel s' c' _ ts) by done.
    exists c', s'. split; [done|]. split; [done|]. rewrite Hden. simpl. by rewrite fmap_app, <-Hw.
  - destruct fuel as [|fuel]; [lia|]. rewrite (bind_ret_eq _ _ _ _ _ (parseredirs_none fuel _ _ _ Hts1 eq_refl)).
    destruct (IH w' (S fuel) _ (argv ++ [sp]) (S argc) rs ts Hts1 Hst ltac:(lia) ltac:(lia)) as (c' & s' & Hr & Hs' & Hden).
    exists c', s'. split; [done|]. split; [done|]. rewrite Hden, fmap_app, <-app_assoc. simpl. by rewrite Hw.
Qed.

(** ** Commands *)

Definition ends (ts : list tok) : Prop := ts = [] ∨ ∃ ts', ts = TSym (ch ")") :: ts'.
Definition pipe_ends (ts : list tok) : Prop :=
  ts = [] ∨ ∃ c ts', ts = TSym c :: ts' ∧ (c = ch ")" ∨ c = ch "&" ∨ c = ch ";").

(** What is read in each place; [lf] is the fuel of the [parseline] that
    [parsepipe] and [parseexec] are given. *)
Definition exec_reads (c : acmd) : Prop := ∀ rs lf fuel s ts,
  at_toks s (ptoks 3 c ++ rtoks rs ++ ts) → stops ts = true → (es - s + 1 < lf)%nat → (es - s < fuel)%nat →
  yields (parseexec b es (parseline b es lf) fuel s) (wrap c rs) ts.
Definition pipe_reads (c : acmd) : Prop := ∀ lf fuel s ts,
  at_toks s (ptoks 2 c ++ ts) → pipe_ends ts → (es - s + 1 < lf)%nat → (es - s + 1 < fuel)%nat →
  yields (parsepipe b es (parseline b es lf) fuel s) c ts.
Definition back_reads (c : acmd) : Prop := ∀ lf fuel s ts,
  at_toks s (ptoks 1 c ++ ts) → pipe_ends ts → (es - s + 1 < lf)%nat → (es - s + 1 < fuel)%nat →
  ∃ c' s' fuel', (bind (parsepipe b es (parseline b es lf) fuel) (parseback b es fuel)) s = parseback b es fuel' c' s' ∧
    at_toks s' ts ∧ denote b c' = c ∧ (es - s' < fuel')%nat ∧ (s ≤ s')%nat.
Definition line_reads (c : acmd) : Prop := ∀ fuel s ts,
  at_toks s (ptoks 0 c ++ ts) → ends ts → (es - s + 2 < fuel)%nat →
  yields (parseline b es fuel s) c ts.

Lemma exec_words ws : (length ws < MAXARGS)%nat → exec_reads (AExec ws).
Proof.
  intros Hws rs lf fuel s ts Hts Hst _ Hf. unfold parseexec. simpl ptoks in Hts.
  destruct ws as [|w ws]; simpl in Hts; rewrite (bind_ret_eq _ _ _ _ _ (peek_toks s _ "(" Hts eq_refl)).
  - assert (match rtoks rs ++ ts with TSym c :: _ => in_str (chars "(") c | _ => false end = false) as ->.
    { destruct rs as [|[f []] rs]; simpl; [|done..]. destruct ts as [|[|c] ts]; try done. simpl in Hst.
      rewrite in_str_elem in Hst |- * by (by repeat constructor). apply bool_decide_eq_true in Hst.
      apply bool_decide_eq_false. change (chars "|)&;") with [124; 41; 38; 59] in Hst. change (chars "(") with [40].
      rewrite !elem_of_cons, !elem_of_nil in *. destruct_or! Hst; subst; intuition discriminate. }
    destruct (parseredirs_toks rs fuel s (EXEC []) ts Hts (stops_no_redir _ Hst) ltac:(lia)) as (c' & s' & Hr & Hs' & Hden).
    rewrite (bind_ret_eq _ _ _ _ _ Hr). destruct fuel as [|fuel]; [lia|]. rewrite (parseargs_stop fuel s' c' 0 ts) by done.
    by exists c', s'.
  - destruct fuel as [|fuel]; [lia|]. cbn iota. rewrite (bind_ret_eq _ _ _ _ _ (parseredirs_none fuel _ _ _ Hts eq_refl)).
    apply (parseargs_words ws w _ s []); [done|done|simpl in *; lia|lia].
Qed.

Lemma exec_block c : ptoks 3 c = paren (ptoks 0 c) → line_reads c → exec_reads c.
Proof.
  intros Hp Hline rs lf fuel s ts Hts Hst Hlf Hf. unfold parseexec, parseblock. rewrite Hp in Hts. unfold paren in Hts. simpl in Hts. rewrite <-app_assoc in Hts. simpl in Hts.
  rewrite (bind_ret_eq _ _ _ _ _ (peek_toks s _ "(" Hts eq_refl)). change (in_str (chars "(") (ch "(")) with true. cbn iota.
  rewrite (bind_ret_eq _ _ _ _ _ (peek_toks s _ "(" Hts eq_refl)). change (negb (in_str (chars "(") (ch "("))) with false. cbn iota.
  destruct (gettoken_toks _ _ _ Hts) as (Hg & Hts1 & _). rewrite (bind_ret_eq _ _ _ _ _ Hg).
  pose proof (at_toks_lt _ _ _ _ Hts Hts1) as Hlt.
  destruct (Hline lf _ _ Hts1) as (c' & s' & Hr & Hs' & Hden); [right; by eexists|lia|].
  rewrite (bind_ret_eq _ _ _ _ _ Hr). rewrite (bind_ret_eq _ _ _ _ _ (peek_toks s' _ ")" Hs' eq_refl)).
  change (negb (in_str (chars ")") (ch ")"))) with false. cbn iota.
  destruct (gettoken_toks _ _ _ Hs') as (Hg2 & Hts2 & _). rewrite (bind_ret_eq _ _ _ _ _ Hg2).
  pose proof (at_toks_after _ _ (TSym (ch "(") :: ptoks 0 c) (TSym (ch ")")) _ Hts Hts2).
  rewrite <-Hden. apply (parseredirs_toks rs); [done|by apply stops_no_redir|lia].
Qed.

Lemma pipe_ends_stops ts : pipe_ends ts → stops ts = true.
Proof. by intros [-> |(c & ts' & -> & [-> |[-> | ->]])]. Qed.
Lemma ends_pipe_ends ts : ends ts → pipe_ends ts.
Proof. intros [-> |[ts' ->]]; [by left|right]. eexists _, _. split; [done|]. by left. Qed.

Lemma pipe_of_exec c : ptoks 2 c = ptoks 3 c → exec_reads c → pipe_reads c.
Proof.
  intros Hp He lf fuel s ts Hts Hend Hlf Hf. destruct fuel as [|fuel]; [lia|]. cbn [parsepipe]. rewrite Hp in Hts.
  destruct (He [] lf fuel s ts Hts (pipe_ends_stops _ Hend) Hlf ltac:(lia)) as (c' & s' & Hr & Hs' & Hden).
  rewrite (bind_ret_eq _ _ _ _ _ Hr), (bind_ret_eq _ _ _ _ _ (peek_toks s' _ "|" Hs' eq_refl)).
  exists c', s'. split; [|done]. by destruct Hend as [-> |(d & ts' & -> & [-> |[-> | ->]])].
Qed.

Lemma pipe_pipe l r : exec_reads l → pipe_reads r → pipe_reads (APipe l r).
Proof.
  intros Hl Hr lf fuel s ts Hts Hend Hlf Hf. destruct fuel as [|fuel]; [lia|]. cbn [parsepipe]. simpl in Hts.
  rewrite <-app_assoc in Hts. simpl in Hts.
  destruct (Hl [] lf fuel s _ Hts eq_refl Hlf ltac:(lia)) as (c1 & s1 & Hr1 & Hs1 & Hd1).
  rewrite (bind_ret_eq _ _ _ _ _ Hr1), (bind_ret_eq _ _ _ _ _ (peek_toks s1 _ "|" Hs1 eq_refl)).
  change (in_str (chars "|") (ch "|")) with true. cbn iota.
  destruct (gettoken_toks _ _ _ Hs1) as (Hg & Hs2 & _). rewrite (bind_ret_eq _ _ _ _ _ Hg).
  pose proof (at_toks_after _ _ _ _ _ Hts Hs2).
  destruct (Hr lf fuel _ ts Hs2 Hend ltac:(lia) ltac:(lia)) as (c2 & s3 & Hr2 & Hs3 & Hd2).
  rewrite (bind_ret_eq _ _ _ _ _ Hr2). exists (PIPE c1 c2), s3. split; [done|]. split; [done|].
  simpl in Hd1 |- *. by rewrite Hd1, Hd2.
Qed.

Lemma back_of_pipe c : ptoks 1 c = ptoks 2 c → pipe_reads c → back_reads c.
Proof.
  intros Hp Hc lf fuel s ts Hts Hend Hlf Hf. rewrite Hp in Hts. destruct (Hc lf fuel s ts Hts Hend Hlf Hf) as (c' & s' & Hr & Hs' & Hd).
  exists c', s', fuel. rewrite (bind_ret_eq _ _ _ _ _ Hr). split; [done|]. split; [done|]. split; [done|].
  assert (es - s' ≤ es - s)%nat.
  { rewrite (at_toks_len _ _ Hs'), (at_toks_len _ _ Hts), render_app, length_app. lia. }
  destruct Hs', Hts. lia.
Qed.
Lemma back_back c : back_reads c → back_reads (ABack c).
Proof.
  intros Hc lf fuel s ts Hts Hend Hlf Hf. simpl in Hts. rewrite <-app_assoc in Hts. simpl in Hts.
  destruct (Hc lf fuel s _ Hts) as (c' & s' & fuel' & -> & Hs' & Hd & Hf' & Hle); [|done|done|].
  { right. eexists _, _. split; [done|]. auto. }
  destruct fuel' as [|fuel']; [lia|]. cbn [parseback].
  rewrite (bind_ret_eq _ _ _ _ _ (peek_toks s' _ "&" Hs' eq_refl)). change (in_str (chars "&") (ch "&")) with true. cbn iota.
  destruct (gettoken_toks _ _ _ Hs') as (Hg & Hs2 & _). rewrite (bind_ret_eq _ _ _ _ _ Hg).
  pose proof (at_toks_after _ _ [] _ _ Hs' Hs2).
  eexists (BACK c'), _, fuel'. split; [done|]. split; [done|]. split; [simpl; by rewrite Hd|]. lia.
Qed.

Lemma parseback_none fuel s c ts : at_toks s ts → ends ts ∨ (∃ ts', ts = TSym (ch ";") :: ts') →
  parseback b es (S fuel) c s = Ret c s.
Proof.
  intros Hts He. cbn [parseback]. rewrite (bind_ret_eq _ _ _ _ _ (peek_toks s ts "&" Hts eq_refl)).
  by destruct He as [[-> |[ts' ->]]|[ts' ->]].
Qed.

Lemma line_of_back c : ptoks 0 c = ptoks 1 c → back_reads c → line_reads c.
Proof.
  intros Hp Hc fuel s ts Hts Hend Hf. rewrite Hp in Hts. destruct fuel as [|fuel]; [lia|]. cbn [parseline].
  destruct (Hc fuel fuel s ts Hts (ends_pipe_ends _ Hend) ltac:(lia) ltac:(lia)) as (c' & s' & fuel' & Hr & Hs' & Hd & Hf' & _).
  destruct fuel' as [|fuel']; [lia|]. rewrite (parseback_none fuel' s' c' ts) in Hr by auto.
  apply bind_Ret_inv in Hr as (c0 & s0 & Hp0 & Hb0). rewrite (bind_ret_eq _ _ _ _ _ Hp0), (bind_ret_eq _ _ _ _ _ Hb0).
  rewrite (bind_ret_eq _ _ _ _ _ (peek_toks s' ts ";" Hs' eq_refl)).
  exists c', s'. split; [|done]. by destruct Hend as [-> |[ts' ->]].
Qed.
Lemma line_list l r : back_reads l → line_reads r → line_reads (AList l r).
Proof.
  intros Hl Hr fuel s ts Hts Hend Hf. destruct fuel as [|fuel]; [lia|]. cbn [parseline]. simpl in Hts.
  rewrite <-app_assoc in Hts. simpl in Hts.
  destruct (Hl fuel fuel s _ Hts) as (c' & s' & fuel' & Hrun & Hs' & Hd & Hf' & _); [right; eauto 10|lia|lia|].
  destruct fuel' as [|fuel']; [lia|]. rewrite (parseback_none fuel' s' c' _ Hs') in Hrun by eauto.
  apply bind_Ret_inv in Hrun as (c0 & s0 & Hp0 & Hb0). rewrite (bind_ret_eq _ _ _ _ _ Hp0), (bind_ret_eq _ _ _ _ _ Hb0).
  rewrite (bind_ret_eq _ _ _ _ _ (peek_toks s' _ ";" Hs' eq_refl)). change (in_str (chars ";") (ch ";")) with true. cbn iota.
  destruct (gettoken_toks _ _ _ Hs') as (Hg & Hs2 & _). rewrite (bind_ret_eq _ _ _ _ _ Hg).
  pose proof (at_toks_after _ _ _ _ _ Hts Hs2).
  destruct (Hr fuel _ ts Hs2 Hend ltac:(lia)) as (c2 & s3 & Hr2 & Hs3 & Hd2).
  rewrite (bind_ret_eq _ _ _ _ _ Hr2). exists (LIST c' c2), s3. split; [done|]. split; [done|]. simpl. by rewrite Hd, Hd2.
Qed.

Lemma exec_redir c f mode fd :
  exec_reads c → (mode = O_RDONLY ∧ fd = 0 ∨ mode = Z.lor O_WRONLY O_CREATE ∧ fd = 1) →
  exec_reads (ARedir c f mode fd).
Proof.
  intros Hc Hm rs lf fuel s ts Hts Hst Hlf Hf. simpl in Hts. rewrite <-app_assoc in Hts.
  destruct Hm as [[-> ->]|[-> ->]]; [apply (Hc ((f, true) :: rs))|apply (Hc ((f, false) :: rs))]; done.
Qed.

Lemma reads_all c : printable c → line_reads c ∧ back_reads c ∧ pipe_reads c ∧ exec_reads c.
Proof.
  induction c as [ws|c IH f mode fd|l IHl r IHr|l IHl r IHr|c IH]; simpl.
  - intros [Hn _]. assert (exec_reads (AExec ws)) as He by by apply exec_words.
    assert (pipe_reads (AExec ws)) as Hp by by apply pipe_of_exec.
    assert (back_reads (AExec ws)) as Hb by by apply back_of_pipe.
    split; [by apply line_of_back|done].
  - intros (Hc & _ & Hm). destruct (IH Hc) as (_ & _ & _ & He0).
    assert (exec_reads (ARedir c f mode fd)) as He by by apply exec_redir.
    assert (pipe_reads (ARedir c f mode fd)) as Hp by by apply pipe_of_exec.
    assert (back_reads (ARedir c f mode fd)) as Hb by by apply back_of_pipe.
    split; [by apply line_of_back|done].
  - intros [Hl Hr]. destruct (IHl Hl) as (_ & _ & _ & Hel). destruct (IHr Hr) as (_ & _ & Hpr & _).
    assert (pipe_reads (APipe l r)) as Hp by by apply pipe_pipe.
    assert (back_reads (APipe l r)) as Hb by by apply back_of_pipe.
    assert (line_reads (APipe l r)) as Hli by by apply line_of_back.
    split; [done|]. split; [done|]. split; [done|]. by apply exec_block.
  - intros [Hl Hr]. destruct (IHl Hl) as (_ & Hbl & _ & _). destruct (IHr Hr) as (Hlr & _ & _ & _).
    assert (line_reads (AList l r)) as Hli by by apply line_list.
    assert (exec_reads (AList l r)) as He by by apply exec_block.
    assert (pipe_reads (AList l r)) as Hp by by apply pipe_of_exec.
    split; [done|]. split; [by apply back_of_pipe|done].
  - intros Hc. destruct (IH Hc) as (_ & Hbc & _ & _).
    assert (back_reads (ABack c)) as Hb by by apply back_back.
    assert (line_reads (ABack c)) as Hli by by apply line_of_back.
    assert (exec_reads (ABack c)) as He by by apply exec_block.
    split; [done|]. split; [done|]. split; [by apply pipe_of_exec|done].
Qed.

End line.

(** The parser gives back the command that was printed. *)
Lemma parsecmd_print c x :
  printable c →
  ∃ c' b', parsecmd (print c ++ 0 :: x) = Ret (c', b') (length (print c)) ∧ resolve b' c' = c.
Proof.
  intros Hc. assert (Forall tok_ok (ptoks 0 c)) as Hok by by apply ptoks_ok.
  pose proof (render_nul_free _ Hok) as Hnf. fold (print c) in Hnf.
  assert (at_toks (print c) 0 (ptoks 0 c ++ [])) as Hts.
  { rewrite app_nil_r. split; [lia|]. by split; [|done]. }
  destruct (reads_all (print c) x c Hc) as (Hline & _).
  destruct (Hline (parse_fuel (length (print c))) 0%nat [] Hts) as (c' & s' & Hr & Hs' & Hd); [by left|unfold parse_fuel; lia|].
  assert (parsecmd (print c ++ 0 :: x) = Ret (c', nulterminate c' (print c ++ 0 :: x)) (length (print c))) as Hp.
  { rewrite parsecmd_line by done. rewrite (bind_ret_eq _ _ _ _ _ Hr).
    rewrite (bind_ret_eq _ _ _ _ _ (peek_toks (print c) x s' [] "" Hs' eq_refl)).
    pose proof (at_toks_len _ _ _ Hs') as Hl. simpl in Hl. destruct Hs' as (Hle & _ & _).
    replace s' with (length (print c)) by lia. by rewrite Nat.eqb_refl. }
  destruct (parsecmd_cases (print c) x Hnf) as [(c2 & Hp2 & _ & Hres)|[msg Hp2]]; rewrite Hp in Hp2; [|done].
  injection Hp2 as <-. eexists _, _. split; [done|]. by rewrite Hres.
Qed.

End ShPrint.
