(* ===== verification/ShRun.v ===== *)
(** * ShRun: how the shell runs a command ([runcmd] of [sh.c])

    [runcmd] never returns, so a command is run by a program: a tree of system
    calls in which [fork] has two branches.  The calls on descriptors act on the
    table of open files as the kernel's do ([fdalloc] gives the lowest free
    descriptor).  Proved: when the calls succeed, each program the command
    names is executed exactly once, with the descriptors its place in the
    command asks for, and with no other end of a pipe left open; and the process
    that runs a list or a pipeline waits for the children it forked, with no end of
    the pipe left open either. *)
From S2P Require Import Prelude.
From S2P Require Import Str.
From S2P Require Import Sh.
Import Sh.

Module ShRun.

Inductive prog :=
| Exit
| Exec (path : list Z) (argv : list (list Z)) (failed : prog)
| Printf (fd : Z) (msg : list Z) (k : prog)
| Close (fd : Z) (k : prog)
| Open (path : list Z) (mode : Z) (k : Z → prog)
| Dup (fd : Z) (k : Z → prog)
| Pipe (k : option (Z * Z) → prog)
| Fork (k : Z → prog)
| Wait (k : prog)
| Chdir (path : list Z) (k : Z → prog).

(** The shell's own [panic] and [fork1]. *)
Definition panic (s : string) : prog := Printf 2 (chars s ++ [10]) Exit.
Definition fork1 (k : Z → prog) : prog := Fork (λ pid, if pid =? -1 then panic "fork" else k pid).

Fixpoint runcmd (c : acmd) : prog :=
  match c with
  | AExec [] => Exit
  | AExec (a :: argv) => Exec a (a :: argv) (Printf 2 (chars "exec " ++ a ++ chars " failed" ++ [10]) Exit)
  | ARedir c file mode fd =>
      Close fd (Open file mode (λ r,
        if r <? 0 then Printf 2 (chars "open " ++ file ++ chars " failed" ++ [10]) Exit
        else runcmd c))
  | AList l r =>
      fork1 (λ pid, if pid =? 0 then runcmd l else Wait (runcmd r))
  | APipe l r =>
      Pipe (λ p,
        match p with
        | None => panic "pipe"
        | Some (p0, p1) =>
            fork1 (λ pid,
              if pid =? 0 then Close 1 (Dup p1 (λ _, Close p0 (Close p1 (runcmd l))))
              else fork1 (λ pid,
                if pid =? 0 then Close 0 (Dup p0 (λ _, Close p0 (Close p1 (runcmd r))))
                else Close p0 (Close p1 (Wait (Wait Exit)))))
        end)
  | ABack c => fork1 (λ pid, if pid =? 0 then runcmd c else Exit)
  end.

(** One turn of the loop of [main] on the line [buf]: [cd] is run by the shell
    itself, anything else by a child. *)
Definition main_turn (buf : list Z) (k : prog) : prog :=
  match buf with
  | 99 :: 100 :: 32 :: dir =>          (* "cd " *)
      let path := take (length dir - 1) dir in
      Chdir path (λ r, if r <? 0 then Printf 2 (chars "cannot cd " ++ path ++ [10]) k else k)
  | _ =>
      fork1 (λ pid,
        if pid =? 0 then
          match parsecmd (buf ++ [0]) with
          | Ret (c, b) _ => runcmd (resolve b c)
          | Panic msg => panic msg
          | _ => Exit
          end
        else Wait k)
  end.

(** ** The descriptors *)

(** What a descriptor refers to; a pipe is named by the process that made it. *)
Inductive ofile :=
| Inherited (n : nat)
| Opened (path : list Z) (mode : Z)
| PipeR (id : list nat)
| PipeW (id : list nat).
Abbreviation fds := (list (option ofile)).

Definition fdalloc (t : fds) (f : ofile) : option (nat * fds) :=
  i ←? find_first (λ o : option ofile, if o is None then true else false) t;
  Some (i, <[i := Some f]> t).
Definition fdclose (t : fds) (fd : Z) : fds := <[Z.to_nat fd := None]> t.

(** What a process does that the others can notice, with the files it then has
    open. *)
Inductive event :=
| Runs (argv : list (list Z)) (t : fds)
| Forks (child : list nat)
| Waits (t : fds)
| Exits.

(** The events of the process [id], which has forked [n] times, each with the
    process, and those of its children where it forks them, when every call
    succeeds for which the table of descriptors has room. *)
Fixpoint execs (p : prog) (t : fds) (id : list nat) (n : nat) : list (list nat * event) :=
  match p with
  | Exit => [(id, Exits)]
  | Exec _ argv _ => [(id, Runs argv t)]
  | Printf _ _ k => execs k t id n
  | Close fd k => execs k (fdclose t fd) id n
  | Open path mode k =>
      match fdalloc t (Opened path mode) with
      | Some (i, t') => execs (k (Z.of_nat i)) t' id n
      | None => execs (k (-1)) t id n
      end
  | Dup fd k =>
      match t !! Z.to_nat fd with
      | Some (Some f) =>
          match fdalloc t f with
          | Some (i, t') => execs (k (Z.of_nat i)) t' id n
          | None => execs (k (-1)) t id n
          end
      | _ => execs (k (-1)) t id n
      end
  | Pipe k =>
      match fdalloc t (PipeR id) with
      | Some (i, t1) =>
          match fdalloc t1 (PipeW id) with
          | Some (j, t2) => execs (k (Some (Z.of_nat i, Z.of_nat j))) t2 id n
          | None => execs (k None) t id n
          end
      | None => execs (k None) t id n
      end
  | Fork k => (id, Forks (id ++ [n])) :: execs (k 0) t (id ++ [n]) 0 ++ execs (k 1) t id (S n)
  | Wait k => (id, Waits t) :: execs k t id n
  | Chdir _ k => execs (k 0) t id n
  end.

(** What a command asks for: which programs, with which files, and which
    processes that wait for others.  The process that runs a pipeline waits for
    both sides with the files it had before. *)
Fixpoint wants (c : acmd) (t : fds) (id : list nat) (n : nat) : list (list nat * event) :=
  match c with
  | AExec [] => [(id, Exits)]
  | AExec argv => [(id, Runs argv t)]
  | ARedir c file mode fd => wants c (<[Z.to_nat fd := Some (Opened file mode)]> t) id n
  | APipe l r =>
      (id, Forks (id ++ [n])) :: wants l (<[1%nat := Some (PipeW id)]> t) (id ++ [n]) 0 ++
      (id, Forks (id ++ [S n])) :: wants r (<[0%nat := Some (PipeR id)]> t) (id ++ [S n]) 0 ++
      [(id, Waits t); (id, Waits t); (id, Exits)]
  | AList l r => (id, Forks (id ++ [n])) :: wants l t (id ++ [n]) 0 ++ (id, Waits t) :: wants r t id (S n)
  | ABack c => (id, Forks (id ++ [n])) :: wants c t (id ++ [n]) 0 ++ [(id, Exits)]
  end.

(** The three standard descriptors are open and two more can be opened. *)
Definition std_open (t : fds) : Prop :=
  ∃ a b c t0 t1 t2, t = Some a :: Some b :: Some c :: t0 ++ None :: t1 ++ None :: t2 ∧
    Forall (λ o, o ≠ None) t0 ∧ Forall (λ o, o ≠ None) t1.

Fixpoint redirs_ok (c : acmd) : Prop :=
  match c with
  | AExec _ => True
  | ARedir c _ _ fd => (fd = 0 ∨ fd = 1) ∧ redirs_ok c
  | APipe l r | AList l r => redirs_ok l ∧ redirs_ok r
  | ABack c => redirs_ok c
  end.

Lemma fdalloc_first t0 t1 f :
  Forall (λ o, o ≠ None) t0 → fdalloc (t0 ++ None :: t1) f = Some (length t0, t0 ++ Some f :: t1).
Proof.
  intros Ht0. unfold fdalloc.
  assert (find_first (λ o : option ofile, if o is None then true else false) (t0 ++ None :: t1) = Some (length t0)) as ->.
  { induction Ht0 as [|o t0 Ho _ IH]; [done|]. simpl. destruct o; [by rewrite IH|done]. }
  cbv beta iota. by rewrite insert_app_r_alt, Nat.sub_diag by lia.
Qed.

(** The two ends of a pipe, wherever they are: reading through the table and
    closing them again. *)
Lemma pipe_ends p f t1 g t2 :
  let t := p ++ Some f :: t1 ++ Some g :: t2 in
  let i := length p in let j := (length p + S (length t1))%nat in
  t !! i = Some (Some f) ∧ t !! j = Some (Some g) ∧
  fdclose (fdclose t (Z.of_nat i)) (Z.of_nat j) = p ++ None :: t1 ++ None :: t2.
Proof.
  intros t i j. unfold t, i, j, fdclose. rewrite !Nat2Z.id. split; [|split].
  - by rewrite lookup_app_r, Nat.sub_diag by lia.
  - rewrite lookup_app_r by lia. replace (length p + S (length t1) - length p)%nat with (S (length t1)) by lia. simpl.
    by rewrite lookup_app_r, Nat.sub_diag by lia.
  - rewrite (insert_app_r_alt p _ (length p)), Nat.sub_diag by lia. simpl.
    rewrite insert_app_r_alt by lia. replace (length p + S (length t1) - length p)%nat with (S (length t1)) by lia. simpl.
    rewrite insert_app_r_alt, Nat.sub_diag by lia. done.
Qed.

(** The children of a pipeline, which move one end of the pipe to a standard
    descriptor and close both others. *)
Section children.
Context (a b c : ofile) (t0 t1 t2 : fds) (f g : ofile) (k : prog) (id : list nat) (n : nat).
#[local] Notation p := (Some a :: Some b :: Some c :: t0).
#[local] Notation i := (Z.of_nat (length p)).
#[local] Notation j := (Z.of_nat (length p + S (length t1))).

Lemma left_child :
  execs (Close 1 (Dup j (λ _, Close i (Close j k)))) (p ++ Some f :: t1 ++ Some g :: t2) id n =
  execs k (<[1%nat := Some g]> (p ++ None :: t1 ++ None :: t2)) id n.
Proof.
  cbn [execs]. rewrite Nat2Z.id.
  destruct (pipe_ends (Some a :: None :: Some c :: t0) f t1 g t2) as (_ & Hw & _).
  change (fdclose (p ++ Some f :: t1 ++ Some g :: t2) 1) with ((Some a :: None :: Some c :: t0) ++ Some f :: t1 ++ Some g :: t2).
  change (length p) with (length (Some a :: None :: Some c :: t0)). rewrite Hw.
  change ((Some a :: None :: Some c :: t0) ++ Some f :: t1 ++ Some g :: t2) with
    ([Some a] ++ None :: (Some c :: t0) ++ Some f :: t1 ++ Some g :: t2).
  rewrite fdalloc_first by by repeat constructor.
  destruct (pipe_ends (Some a :: Some g :: Some c :: t0) f t1 g t2) as (_ & _ & Hc). by f_equal.
Qed.
Lemma right_child :
  execs (Close 0 (Dup i (λ _, Close i (Close j k)))) (p ++ Some f :: t1 ++ Some g :: t2) id n =
  execs k (<[0%nat := Some f]> (p ++ None :: t1 ++ None :: t2)) id n.
Proof.
  cbn [execs]. rewrite Nat2Z.id.
  destruct (pipe_ends (None :: Some b :: Some c :: t0) f t1 g t2) as (Hr & _ & _).
  change (fdclose (p ++ Some f :: t1 ++ Some g :: t2) 0) with ((None :: Some b :: Some c :: t0) ++ Some f :: t1 ++ Some g :: t2).
  change (length p) with (length (None :: Some b :: Some c :: t0)). rewrite Hr.
  change ((None :: Some b :: Some c :: t0) ++ Some f :: t1 ++ Some g :: t2) with
    ([] ++ None :: (Some b :: Some c :: t0) ++ Some f :: t1 ++ Some g :: t2).
  rewrite fdalloc_first by by repeat constructor.
  destruct (pipe_ends (Some f :: Some b :: Some c :: t0) f t1 g t2) as (_ & _ & Hc). by f_equal.
Qed.
End children.

(** ** Running a command gives it what it wants *)

Lemma std_open_insert t i f : std_open t → (i = 0 ∨ i = 1)%nat → std_open (<[i := Some f]> t).
Proof.
  intros (a & b & c & t0 & t1 & t2 & -> & H0 & H1) [-> | ->];
    [exists f, b, c, t0, t1, t2|exists a, f, c, t0, t1, t2]; done.
Qed.

Lemma execs_runcmd c : ∀ t id n,
  redirs_ok c → std_open t → execs (runcmd c) t id n = wants c t id n.
Proof.
  induction c as [[|a argv]|c IH file mode fd|l IHl r IHr|l IHl r IHr|c IH]; intros t id n Hc Ht; try done.
  - destruct Hc as [Hfd Hc]. simpl.
    assert (fdalloc (fdclose t fd) (Opened file mode) = Some (Z.to_nat fd, <[Z.to_nat fd := Some (Opened file mode)]> t)) as ->.
    { destruct Ht as (a & b & c' & t0 & t1 & t2 & -> & _). destruct Hfd as [-> | ->].
      - apply (fdalloc_first []). constructor.
      - apply (fdalloc_first [Some a]). by constructor. }
    destruct (Z.ltb_spec (Z.of_nat (Z.to_nat fd)) 0); [lia|]. apply IH; [done|].
    apply std_open_insert; [done|]. destruct Hfd; lia.
  - destruct Hc as [Hl Hr]. pose proof Ht as (a & b & c & t0 & t1 & t2 & Heq & H0 & H1).
    cbn [runcmd execs]. set (p := Some a :: Some b :: Some c :: t0) in *.
    assert (t = p ++ None :: t1 ++ None :: t2) as Ht' by (by rewrite Heq).
    assert (Forall (λ o, o ≠ None) p) as Hp by (by repeat constructor).
    rewrite Ht', fdalloc_first by done. rewrite cons_middle, app_assoc, app_assoc, fdalloc_first.
    2: { apply Forall_app. split; [|done]. apply Forall_app. split; [done|]. by repeat constructor. }
    rewrite <-!app_assoc, !length_app. cbn [length app].
    replace (length p + (1 + length t1))%nat with (length p + S (length t1))%nat by lia.
    pose proof (left_child a b c t0 t1 t2 (PipeR id) (PipeW id) (runcmd l) (id ++ [n]) 0) as Hleft.
    pose proof (right_child a b c t0 t1 t2 (PipeR id) (PipeW id) (runcmd r) (id ++ [S n]) 0) as Hright.
    fold p in Hleft, Hright. rewrite Ht' in Ht.
    rewrite IHl in Hleft by (done || apply std_open_insert; auto).
    rewrite IHr in Hright by (done || apply std_open_insert; auto).
    destruct (pipe_ends p (PipeR id) t1 (PipeW id) t2) as (_ & _ & Hclose).
    cbn [wants]. rewrite <-Hleft, <-Hright, <-Hclose. done.
  - destruct Hc as [Hl Hr]. simpl. by rewrite IHl, IHr.
  - simpl. by rewrite IH.
Qed.

End ShRun.
