(* ===== verification/Progs.v ===== *)
(** * Progs: small user programs ([cat.c], [wc.c], [echo.c], [kill.c], [ln.c],
    [mkdir.c], [rm.c], [ls.c], [gets] and [stat] of [ulib.c], [getcmd] of [sh.c])

    The programs run on the system calls of the kernel, which are the class [Sys]:
    a state with what a call answers.  [argv] is the list of the arguments behind
    the program's name.  A loop that reads has fuel [fuel].  [Files] states what
    [cat] and [wc] rely on of the calls on files, which the theorems about
    [fileread] and [filewrite] show of the kernel. *)
From S2P Require Import Prelude.
From S2P Require Import Mem.
From S2P Require Import Str.
From S2P Require Import State.
From S2P Require Import Cons.
From S2P Require Import Blk.
From S2P Require Import Fs.
From S2P Require Import Printf.

Class Sys := {
  world : Type;
  sys_open : list Z → Z → world → Z * world;
  sys_close : Z → world → Z * world;
  sys_read : Z → Z → world → (Z * list Z) * world;    (* with the bytes it stored *)
  sys_write : Z → list Z → world → Z * world;
  sys_fstat : Z → world → (Z * stat) * world;         (* with what it stored *)
  sys_link : list Z → list Z → world → Z * world;
  sys_unlink : list Z → world → Z * world;
  sys_mkdir : list Z → world → Z * world;
  sys_kill : Z → world → Z * world
}.

Module Progs.
Section progs.
Context `{SY : !Sys} (fuel : nat).

Local Notation U := (M world).

Definition call {A} (f : world → A * world) : U A := λ w, let '(a, w') := f w in Ret a w'.
(** [exit()] does not return: the process is gone. *)
Definition exit {A} : U A := λ w, Switch w.

Definition putc (fd c : Z) : U unit := call (sys_write fd [u8 c]) ;; ret tt.
Definition printf (fd : Z) (fmt : string) (args : list carg) : U unit :=
  out ← get_or "printf arguments" (Printf.printf fmt args);
  for_each out (putc fd).

(** ** cat.c *)

Fixpoint cat (fuel : nat) (fd : Z) : U unit :=
  match fuel with
  | O => spin
  | S fuel' =>
      ' (n, buf) ← call (sys_read fd 512);
      if 0 <? n then
        r ← call (sys_write 1 (take (Z.to_nat n) buf));
        if negb (r =? n) then printf 1 ("cat: write error" +:+ NL) [] ;; exit
        else cat fuel' fd
      else if n <? 0 then printf 1 ("cat: read error" +:+ NL) [] ;; exit
      else ret tt
  end.
Definition cat_main (argv : list (list Z)) : U unit :=
  match argv with
  | [] => cat fuel 0 ;; exit
  | _ =>
      for_each argv (λ a,
        fd ← call (sys_open a 0);
        if fd <? 0 then printf 1 ("cat: cannot open %s" +:+ NL) [CStr a] ;; exit
        else cat fuel fd ;; call (sys_close fd) ;; ret tt) ;;
      exit
  end.

(** ** wc.c *)

(** [strchr(" \r\t\n\v", c)] *)
Definition wc_space (c : Z) : bool := (c =? 32) || (c =? 13) || (c =? 9) || (c =? 10) || (c =? 11).
(** The variables [l], [w], [c] and [inword] of [wc]. *)
Record wcst := mkWc { wc_l : Z; wc_w : Z; wc_c : Z; wc_inword : bool }.
Definition wc_char (st : wcst) (ch : Z) : wcst :=
  let '(mkWc l w c inword) := st in
  let c := s32 (c + 1) in
  let l := if ch =? 10 then s32 (l + 1) else l in
  if wc_space ch then mkWc l w c false
  else if negb inword then mkWc l (s32 (w + 1)) c true
  else mkWc l w c inword.
Fixpoint wc_loop (fuel : nat) (fd : Z) (st : wcst) : U wcst :=
  match fuel with
  | O => spin
  | S fuel' =>
      ' (n, buf) ← call (sys_read fd 512);
      if 0 <? n then wc_loop fuel' fd (foldl wc_char st (take (Z.to_nat n) buf))
      else if n <? 0 then printf 1 ("wc: read error" +:+ NL) [] ;; exit
      else ret st
  end.
Definition wc (fd : Z) (name : list Z) : U unit :=
  st ← wc_loop fuel fd (mkWc 0 0 0 false);
  printf 1 ("%d %d %d %s" +:+ NL) [CInt (wc_l st); CInt (wc_w st); CInt (wc_c st); CStr name].
Definition wc_main (argv : list (list Z)) : U unit :=
  match argv with
  | [] => wc 0 [] ;; exit
  | _ =>
      for_each argv (λ a,
        fd ← call (sys_open a 0);
        if fd <? 0 then printf 1 ("wc: cannot open %s" +:+ NL) [CStr a] ;; exit
        else wc fd a ;; call (sys_close fd) ;; ret tt) ;;
      exit
  end.

(** ** echo.c, kill.c, ln.c, mkdir.c, rm.c *)

Fixpoint echo_main (argv : list (list Z)) : U unit :=
  match argv with
  | [] => exit
  | a :: argv' =>
      printf 1 "%s%s" [CStr a; CStr (match argv' with [] => [10] | _ => [32] end)] ;;
      echo_main argv'
  end.
Definition kill_main (argv : list (list Z)) : U unit :=
  match argv with
  | [] => printf 2 ("usage: kill pid..." +:+ NL) [] ;; exit
  | _ =>
      for_each argv (λ a, pid ← get_or "atoi" (Str.atoi (a ++ [0])); call (sys_kill pid) ;; ret tt) ;;
      exit
  end.
Definition ln_main (argv : list (list Z)) : U unit :=
  match argv with
  | [old; new] =>
      r ← call (sys_link old new);
      when (r <? 0) (printf 2 ("link %s %s: failed" +:+ NL) [CStr old; CStr new]) ;;
      exit
  | _ => printf 2 ("Usage: ln old new" +:+ NL) [] ;; exit
  end.
(** The loop of [mkdir] and [rm], which ends at the first failure. *)
Fixpoint each (f : list Z → world → Z * world) (failed : string) (argv : list (list Z)) : U unit :=
  match argv with
  | [] => ret tt
  | a :: argv' =>
      r ← call (f a);
      if r <? 0 then printf 2 failed [CStr a] else each f failed argv'
  end.
Definition mkdir_main (argv : list (list Z)) : U unit :=
  match argv with
  | [] => printf 2 ("Usage: mkdir files..." +:+ NL) [] ;; exit
  | _ => each sys_mkdir ("mkdir: %s failed to create" +:+ NL) argv ;; exit
  end.
Definition rm_main (argv : list (list Z)) : U unit :=
  match argv with
  | [] => printf 2 ("Usage: rm files..." +:+ NL) [] ;; exit
  | _ => each sys_unlink ("rm: %s failed to delete" +:+ NL) argv ;; exit
  end.

(** ** ls.c *)

(** Find first character after last slash. *)
Definition after_slash (path : list Z) : list Z := foldl (λ p c, if c =? ch "/" then [] else p ++ [c]) [] path.
(** Return blank-padded name. *)
Definition fmtname (path : list Z) : list Z :=
  let p := after_slash path in
  if (DIRSIZ <=? length p)%nat then p else p ++ replicate (DIRSIZ - length p) 32.

(** [stat] of ulib.c. *)
Definition stat_ (n : list Z) : U (Z * stat) :=
  fd ← call (sys_open n 0);
  if fd <? 0 then ret (-1, mkStat 0 0 0 0 0)
  else
    r ← call (sys_fstat fd);
    call (sys_close fd) ;;
    ret r.

Definition print_entry (path : list Z) (st : stat) : U unit :=
  printf 1 ("%s %d %d %d" +:+ NL) [CStr (fmtname path); CInt (st_type st); CInt (st_ino st); CInt (st_size st)].
Fixpoint ls_dir (fuel : nat) (fd : Z) (path : list Z) : U unit :=
  match fuel with
  | O => spin
  | S fuel' =>
      ' (n, de) ← call (sys_read fd 16);
      if negb (n =? 16) then ret tt
      else if de_inum de =? 0 then ls_dir fuel' fd path
      else
        let buf := path ++ [ch "/"] ++ Str.cut DIRSIZ (de_name de) in
        ' (r, st) ← stat_ buf;
        (if r <? 0 then printf 1 ("ls: cannot stat %s" +:+ NL) [CStr buf] else print_entry buf st) ;;
        ls_dir fuel' fd path
  end.
Definition ls (path : list Z) : U unit :=
  fd ← call (sys_open path 0);
  if fd <? 0 then printf 2 ("ls: cannot open %s" +:+ NL) [CStr path]
  else
    ' (r, st) ← call (sys_fstat fd);
    if r <? 0 then printf 2 ("ls: cannot stat %s" +:+ NL) [CStr path] ;; call (sys_close fd) ;; ret tt
    else
      (if st_type st =? T_FILE then print_entry path st
       else if st_type st =? T_DIR then
         if 512 <? Z.of_nat (length path + 1 + DIRSIZ + 1) then printf 1 ("ls: path too long" +:+ NL) []
         else ls_dir fuel fd path
       else ret tt) ;;
      call (sys_close fd) ;;
      ret tt.
Definition ls_main (argv : list (list Z)) : U unit :=
  match argv with
  | [] => ls (chars ".") ;; exit
  | _ => for_each argv ls ;; exit
  end.

(** ** Reading a line *)

(** The loop of [gets]: at most [n] characters, and no further than a line's end. *)
Fixpoint gets_loop (n : nat) : U (list Z) :=
  match n with
  | O => ret []
  | S n' =>
      ' (cc, bs) ← call (sys_read 0 1);
      if cc <? 1 then ret []
      else
        let c := byte_at bs 0 in
        if (c =? 10) || (c =? 13) then ret [c]
        else l ← gets_loop n'; ret (c :: l)
  end.
(** [gets(buf, max)]: the characters before the terminating NUL. *)
Definition gets (max : Z) : U (list Z) := gets_loop (Z.to_nat (max - 1)).
(** [getcmd(buf, nbuf)]: the line, or [None] for -1. *)
Definition getcmd (nbuf : Z) : U (option (list Z)) :=
  printf 2 "$ " [] ;;
  buf ← gets nbuf;
  if byte_at buf 0 =? 0 then ret None else ret (Some buf).
End progs.

End Progs.
Import Progs.

(** ** What the programs rely on

    The files by their paths, the bytes still to be read through a descriptor, and
    what has been written to descriptor 1.  A read returns some of the bytes, at
    least one while there are any. *)
Class Files `{SY : !Sys} := {
  content : world → list Z → option (list Z);
  pending : world → Z → option (list Z);
  shown : world → list Z;
  files_open a w :
    let '(fd, w') := sys_open a 0 w in
    content w' = content w ∧ shown w' = shown w ∧
    match content w a with Some bs => 0 ≤ fd ∧ pending w' fd = Some bs | None => fd < 0 end;
  files_read fd n w bs :
    pending w fd = Some bs → 0 < n →
    let '((r, got), w') := sys_read fd n w in
    ∃ k, (k ≤ length bs)%nat ∧ Z.of_nat k ≤ n ∧ (bs ≠ [] → (0 < k)%nat) ∧ r = Z.of_nat k ∧ got = take k bs ∧
      pending w' fd = Some (drop k bs) ∧ content w' = content w ∧ shown w' = shown w;
  files_write bs w :
    let '(r, w') := sys_write 1 bs w in
    r = Z.of_nat (length bs) ∧ shown w' = shown w ++ bs ∧ pending w' = pending w ∧ content w' = content w;
  files_close fd w :
    let '(r, w') := sys_close fd w in content w' = content w ∧ shown w' = shown w
}.

(** The bytes of a message. *)
Definition message (fmt : string) (args : list carg) : list Z := u8 <$> default [] (Printf.printf fmt args).

(** A program that treats its files in turn: [f] is what it writes for a file and
    its bytes; a file that cannot be opened ends it with a message. *)
Fixpoint outputs (f : list Z → list Z → list Z) (failed : string) (c : list Z → option (list Z)) (argv : list (list Z)) : list Z :=
  match argv with
  | [] => []
  | a :: argv' =>
      match c a with
      | Some bs => f a bs ++ outputs f failed c argv'
      | None => message failed [CStr a]
      end
  end.
Definition cat_output := outputs (λ a bs, bs) ("cat: cannot open %s" +:+ NL).

(** Lines and words of a text. *)
Definition lines (bs : list Z) : nat := length (filter (λ c, c = 10) bs).
Fixpoint split_on (p : Z → bool) (bs : list Z) : list (list Z) :=
  match bs with
  | [] => [[]]
  | c :: bs' =>
      if p c then [] :: split_on p bs'
      else match split_on p bs' with f :: fs => (c :: f) :: fs | [] => [[c]] end
  end.
Definition words (bs : list Z) : nat := length (filter (λ f, f ≠ []) (split_on wc_space bs)).

Definition wc_line (bs name : list Z) : list Z :=
  message ("%d %d %d %s" +:+ NL) [CInt (Z.of_nat (lines bs)); CInt (Z.of_nat (words bs)); CInt (Z.of_nat (length bs)); CStr name].
Definition wc_output := outputs (λ a bs, wc_line bs a) ("wc: cannot open %s" +:+ NL).

(** ** Counting *)

(** The words that begin in [bs], behind a word or not. *)
Fixpoint starts (inword : bool) (bs : list Z) : nat :=
  match bs with
  | [] => 0
  | c :: bs' => if wc_space c then starts false bs' else (if inword then 0 else 1) + starts true bs'
  end.
Lemma split_on_cons p bs : ∃ f fs, split_on p bs = f :: fs.
Proof. induction bs as [|c bs (f & fs & IH)]; simpl; [eauto|]. rewrite IH. destruct (p c); eauto. Qed.
Lemma starts_words bs :
  starts false bs = words bs ∧ starts true bs = length (filter (λ f, f ≠ []) (tail (split_on wc_space bs))).
Proof.
  unfold words. induction bs as [|c bs [IH1 IH2]]; [done|]. cbn [starts split_on]. destruct (split_on_cons wc_space bs) as (f & fs & E).
  rewrite E in *. destruct (wc_space c); cbn [tail] in *.
  - rewrite filter_cons_False by naive_solver. done.
  - rewrite filter_cons_True by done. cbn [length]. lia.
Qed.

Lemma wc_chars bs : ∀ l w c inword,
  0 ≤ l → 0 ≤ w → 0 ≤ c → l + Z.of_nat (length bs) < 2147483648 → w + Z.of_nat (length bs) < 2147483648 → c + Z.of_nat (length bs) < 2147483648 →
  let st := foldl wc_char (mkWc l w c inword) bs in
  wc_l st = l + Z.of_nat (lines bs) ∧ wc_w st = w + Z.of_nat (starts inword bs) ∧ wc_c st = c + Z.of_nat (length bs).
Proof.
  induction bs as [|b bs IH]; intros l w c inword Hl Hw Hc Bl Bw Bc; cbv zeta; cbn [foldl length] in *.
  - simpl. unfold lines. simpl. lia.
  - assert (∃ l' w' inword', wc_char (mkWc l w c inword) b = mkWc l' w' (c + 1) inword' ∧
      l' = l + (if decide (b = 10) then 1 else 0) ∧
      w' + Z.of_nat (starts inword' bs) = w + Z.of_nat (starts inword (b :: bs)) ∧ w ≤ w' ≤ w + 1) as (l' & w' & i' & E & El & Ew & Ew').
    { unfold wc_char. rewrite !s32_small by lia. cbn [starts].
      assert ((if b =? 10 then l + 1 else l) = l + (if decide (b = 10) then 1 else 0)) as ->
        by (destruct (Z.eqb_spec b 10); case_decide; lia).
      destruct (wc_space b); [|destruct inword]; eexists _, _, _; (split; [done|]); lia. }
    rewrite E. destruct (IH l' w' (c + 1) i') as (H1 & H2 & H3); [case_decide; lia..|]. rewrite H1, H2, H3.
    unfold lines. rewrite filter_cons. case_decide; cbn [length]; lia.
Qed.

(** ** Runs of the programs *)

Section runs.
Context `{SY : !Sys} `{FI : !Files}.
Implicit Types (w : world).

(** [m] returns with [Q] or exits with [E]. *)
Definition runs {A} (m : M world A) (Q : A → world → Prop) (E : world → Prop) w : Prop :=
  match m w with Ret a w' => Q a w' | Switch w' => E w' | _ => False end.

Lemma runs_bind {A B} (m : M world A) (f : A → M world B) Q E w :
  runs m (λ a w', runs (f a) Q E w') E w → runs (bind m f) Q E w.
Proof. unfold runs, bind. by destruct (m w). Qed.
Lemma runs_ret {A} (a : A) (Q : A → world → Prop) (E : world → Prop) w : Q a w → runs (ret a) Q E w.
Proof. done. Qed.
Lemma runs_exit {A} (Q : A → world → Prop) (E : world → Prop) w : E w → runs exit Q E w.
Proof. done. Qed.
Lemma runs_mono {A} (m : M world A) (Q R : A → world → Prop) E w : runs m Q E w → (∀ a w', Q a w' → R a w') → runs m R E w.
Proof. unfold runs. destruct (m w); naive_solver. Qed.
Lemma runs_call {A} (f : world → A * world) (Q : A → world → Prop) E w : (let '(a, w') := f w in Q a w') → runs (call f) Q E w.
Proof. unfold runs, call. by destruct (f w). Qed.

(** Printing adds the message to what is shown. *)
Definition shows_also (bs : list Z) w w' : Prop := shown w' = shown w ++ bs ∧ pending w' = pending w ∧ content w' = content w.
Lemma runs_printf fmt args out (Q : unit → world → Prop) E w :
  Printf.printf fmt args = Some out → (∀ w', shows_also (u8 <$> out) w w' → Q tt w') → runs (printf 1 fmt args) Q E w.
Proof.
  intros Hp. unfold printf. rewrite Hp. intros HQ. apply runs_bind. unfold get_or. apply runs_ret. clear Hp. revert w Q HQ.
  induction out as [|c out IH]; intros w Q HQ; cbn [for_each].
  - apply runs_ret, HQ. split; [by rewrite app_nil_r|done].
  - apply runs_bind. unfold putc. apply runs_bind, runs_call. pose proof (files_write [u8 c] w) as Hw.
    destruct (sys_write 1 [u8 c] w) as [r w1]. destruct Hw as (_ & W1 & W2 & W3). apply runs_ret, IH.
    intros w' (S1 & S2 & S3). apply HQ. split; [|split; congruence]. rewrite S1, W1, <-app_assoc. done.
Qed.

Lemma runs_cat fd E : ∀ fuel bs w (Q : unit → world → Prop),
  pending w fd = Some bs → (length bs < fuel)%nat →
  (∀ w', shown w' = shown w ++ bs → content w' = content w → Q tt w') → runs (cat fuel fd) Q E w.
Proof.
  induction fuel as [|fuel IH]; intros bs w Q Hp Hf HQ; [lia|]. cbn [cat]. apply runs_bind, runs_call.
  pose proof (files_read fd 512 w bs Hp ltac:(lia)) as Hr. destruct (sys_read fd 512 w) as [[n buf] w1].
  destruct Hr as (k & K1 & K2 & K3 & -> & -> & K4 & K5 & K6). rewrite Nat2Z.id. destruct (decide (bs = [])) as [->|Hne].
  - simpl in K1. assert (k = 0%nat) as -> by lia. simpl. apply runs_ret, HQ; [by rewrite app_nil_r|done].
  - specialize (K3 Hne). rewrite (proj2 (Z.ltb_lt _ _)) by lia. apply runs_bind, runs_call.
    rewrite take_take, Nat.min_id. pose proof (files_write (take k bs) w1) as Hw. destruct (sys_write 1 (take k bs) w1) as [r w2].
    destruct Hw as (-> & W1 & W2 & W3). rewrite length_take, Nat.min_l by done. rewrite Z.eqb_refl. cbn [negb].
    apply (IH (drop k bs)); [by rewrite W2|rewrite length_drop; lia|]. intros w' S1 S2. apply HQ; [|congruence].
    by rewrite S1, W1, K6, <-app_assoc, take_drop.
Qed.

Lemma runs_wc_loop fd E : ∀ fuel bs w st (Q : wcst → world → Prop),
  pending w fd = Some bs → (length bs < fuel)%nat →
  (∀ w', shown w' = shown w → content w' = content w → Q (foldl wc_char st bs) w') → runs (wc_loop fuel fd st) Q E w.
Proof.
  induction fuel as [|fuel IH]; intros bs w st Q Hp Hf HQ; [lia|]. cbn [wc_loop]. apply runs_bind, runs_call.
  pose proof (files_read fd 512 w bs Hp ltac:(lia)) as Hr. destruct (sys_read fd 512 w) as [[n buf] w1].
  destruct Hr as (k & K1 & K2 & K3 & -> & -> & K4 & K5 & K6). rewrite Nat2Z.id. destruct (decide (bs = [])) as [->|Hne].
  - simpl in K1. assert (k = 0%nat) as -> by lia. simpl. by apply runs_ret, HQ.
  - specialize (K3 Hne). rewrite (proj2 (Z.ltb_lt _ _)) by lia. rewrite take_take, Nat.min_id.
    apply (IH (drop k bs)); [done|rewrite length_drop; lia|]. intros w' S1 S2. rewrite <-foldl_app, take_drop. apply HQ; congruence.
Qed.
Lemma runs_wc fuel fd name bs E w (Q : unit → world → Prop) :
  pending w fd = Some bs → (length bs < fuel)%nat → Z.of_nat (length bs) < 2147483648 →
  (∀ w', shown w' = shown w ++ wc_line bs name → content w' = content w → Q tt w') → runs (wc fuel fd name) Q E w.
Proof.
  intros Hp Hf Hb HQ. unfold wc. apply runs_bind, (runs_wc_loop _ _ _ bs); [done|done|]. intros w1 S1 C1.
  destruct (wc_chars bs 0 0 0 false) as (H1 & H2 & H3); [lia..|]. rewrite H1, H2, H3, (proj1 (starts_words bs)), !Z.add_0_l.
  eapply runs_printf; [reflexivity|]. intros w' (S2 & _ & C2). apply HQ; [|congruence]. rewrite S2, S1. done.
Qed.

(** The loop over the files. *)
Lemma runs_files f failed (body : Z → list Z → M world unit) c argv :
  (∀ a, ∃ out, Printf.printf failed [CStr a] = Some out) →
  (∀ a bs fd w (Q : unit → world → Prop) E, a ∈ argv → c a = Some bs → pending w fd = Some bs →
    (∀ w', shown w' = shown w ++ f a bs → content w' = content w → Q tt w') → runs (body fd a) Q E w) →
  ∀ w, content w = c →
  runs (for_each argv (λ a,
      fd ← call (sys_open a 0);
      if fd <? 0 then printf 1 failed [CStr a] ;; exit
      else body fd a ;; call (sys_close fd) ;; ret tt))
    (λ _ w', shown w' = shown w ++ outputs f failed c argv) (λ w', shown w' = shown w ++ outputs f failed c argv) w.
Proof.
  intros Hmsg. induction argv as [|a argv IH]; intros Hbody w Hc; cbn [for_each outputs]; [apply runs_ret; by rewrite app_nil_r|].
  apply runs_bind, runs_bind, runs_call. pose proof (files_open a w) as Ho. destruct (sys_open a 0 w) as [fd w1].
  destruct Ho as (O1 & O2 & O3). rewrite Hc in O3. destruct (c a) as [bs|] eqn:Ea.
  - destruct O3 as [Hfd Hp]. rewrite (proj2 (Z.ltb_ge _ _)) by lia. apply runs_bind, (Hbody a bs); [by left|done|done|].
    intros w2 S2 C2. apply runs_bind, runs_call. pose proof (files_close fd w2) as Hcl. destruct (sys_close fd w2) as [r w3].
    destruct Hcl as [C3 S3]. apply runs_ret. assert (shown w3 = shown w ++ f a bs) as Hs by congruence.
    rewrite app_assoc, <-Hs. apply IH; [|congruence]. intros a' bs' fd' w' Q' E' Ha. apply Hbody. by right.
  - rewrite (proj2 (Z.ltb_lt _ _)) by lia. destruct (Hmsg a) as [out Hout]. apply runs_bind, (runs_printf _ _ out); [done|].
    intros w2 (S2 & _). apply runs_exit. unfold message. rewrite S2, O2, Hout. done.
Qed.

Lemma runs_switch {A} (m : M world A) (P : world → Prop) w : runs m (λ _, P) P w → ∃ w', bind m (λ _, exit (A := unit)) w = Switch w' ∧ P w'.
Proof. unfold runs, bind, exit. destruct (m w) eqn:E; naive_solver. Qed.
End runs.
