(* ===== verification/MainUser.v ===== *)
(** * MainUser: the user programs: grep, the allocator, printf and the shell *)
From S2P Require Import Prelude.
From S2P Require Import Mem.
From S2P Require Import Str.
From S2P Require Import Cons.
From S2P Require Import Fs.
From S2P Require Import Grep.
From S2P Require Import Umalloc.
From S2P Require Import Printf.
From S2P Require Import Sh.
From S2P Require Import ShSpec.
From S2P Require Import ShPrint.
From S2P Require Import ShRun.
From S2P Require Import Progs.
Import Str.

(** ** grep *)

(** C20: grep on a file prints exactly the lines its pattern matches: for a
    pattern and a file without NULs whose lines fit in the buffer, the loop ends
    and writes, in order and each with its newline, the newline-terminated
    lines in which the matcher finds the pattern, and the matcher finds it
    exactly when some part of the line is in the language of the pattern
    (characters, [.], [*] and the two anchors). *)
Theorem grep_prints_matching re x content buf fuel :
  Grep.nul_free re → Grep.nul_free content → Grep.short_lines content →
  length buf = Grep.BUFSZ → (length content < fuel)%nat →
  ∃ sel : list Z → bool,
    (∀ l, Grep.nul_free l → sel l = true ↔ Grep.matches re l) ∧
    Grep.grep fuel (re ++ 0 :: x) [content] buf 0 =
    Some ((λ l, l ++ [10]) <$> filter (λ l, sel l = true) (Grep.split_lines content).1).
Proof.
  intros Hre Hc Hs Hb Hf. exists (Grep.selects re). split; [intros l Hl; by apply Grep.selects_matches|].
  apply (Grep.grep_spec re x fuel [content] content buf []); [done|done|apply not_elem_of_nil|done|by left|done..].
Qed.
Lemma grep_prints_matching_witness :
  let file := chars "ab" ++ 10 :: chars "cd" ++ [10] in
  ∃ sel : list Z → bool,
    (∀ l, Grep.nul_free l → sel l = true ↔ Grep.matches (chars "a.*$") l) ∧
    Grep.grep 7 (chars "a.*$" ++ [0]) [file] (replicate Grep.BUFSZ 0) 0 =
    Some ((λ l, l ++ [10]) <$> filter (λ l, sel l = true) (Grep.split_lines file).1).
Proof.
  apply (grep_prints_matching (chars "a.*$") [] (chars "ab" ++ 10 :: chars "cd" ++ [10]) (replicate Grep.BUFSZ 0) 7).
  - by repeat constructor.
  - by repeat constructor.
  - vm_compute. repeat constructor.
  - reflexivity.
  - simpl. lia.
Defined.

(** ** The allocator *)

(** C17: the allocator of the user library is safe for requests below 2^31 - 16
    bytes: however a program uses [malloc] with such requests, [free] on blocks
    it holds and writes into these blocks, (1) the
    blocks it holds never overlap; (2) [malloc] returns, and a non-null result
    is the address of a block big enough for the request that overlaps no block
    held before; (3) [free] returns on any block held; and (4) neither changes
    a byte of the blocks that stay held. *)
Theorem allocator_safe base frames h out :
  Umalloc.reachable base frames h out →
  (∀ a s b t, out !! a = Some s → out !! b = Some t → a ≠ b → Umalloc.apart (a, s) (b, t)) ∧
  (∀ nbytes, 0 ≤ nbytes < State.KERNBASE - 16 → ∃ n, ∀ fuel, (n < fuel)%nat →
     ∃ r h', Umalloc.malloc base frames fuel nbytes h = Ret r h' ∧
       Umalloc.keeps out (Umalloc.u_mem h) (Umalloc.u_mem h') ∧
       (r = 0 ∨ ∃ a s, r = a + 8 ∧ nbytes + 8 ≤ 8 * s ∧ 0 < a ∧ a + 8 * s ≤ Umalloc.u_sz h' ∧
                       ∀ b t, out !! b = Some t → Umalloc.apart (a, s) (b, t))) ∧
  (∀ a s, out !! a = Some s → ∃ n, ∀ fuel, (n < fuel)%nat →
     ∃ h', Umalloc.free fuel (a + 8) h = Ret tt h' ∧
       Umalloc.keeps (delete a out) (Umalloc.u_mem h) (Umalloc.u_mem h')).
Proof.
  intros [l Hinv]%Umalloc.reachable_inv. split; [|split].
  - destruct Hinv as [Hok|(_ & _ & -> & _)]; [apply (Umalloc.ok_out _ _ _ _ Hok)|]. intros a s b t Ha. by rewrite lookup_empty in Ha.
  - intros nbytes Hn. exists (3 * length l + 3)%nat. intros fuel Hf.
    destruct (Umalloc.malloc_ok base frames h l out nbytes fuel Hinv Hn Hf) as (r & h' & Hr & Hcase & Hk).
    exists r, h'. split; [done|]. split; [done|].
    destruct Hcase as [(-> & _)|(a & l' & -> & Ha & Hnone & Hinv')]; [by left|right].
    destruct (Umalloc.units_spec frames nbytes Hn) as ([Hu _] & _). exists a, (Umalloc.units nbytes). split; [done|].
    unfold Umalloc.HDR in *. split; [lia|]. split; [done|].
    destruct Hinv' as [Hok|(_ & _ & Hempty & _)].
    + pose proof (Umalloc.ok_out _ _ _ _ Hok) as [H1 H2 H3]. split; [by apply (H2 a), lookup_insert_eq|].
      intros b t Hb. apply (H3 a _ b t); [by rewrite lookup_insert_eq|rewrite lookup_insert_ne; [done|congruence]|congruence].
    + exfalso. by apply (insert_non_empty out a (Umalloc.units nbytes)).
  - intros a s Ha. destruct Hinv as [Hok|(_ & _ & -> & _)]; [|by rewrite lookup_empty in Ha].
    exists (length l). intros fuel Hf. destruct (Umalloc.free_ok base frames h l out a s fuel Hok Ha Hf) as (h' & l' & Hr & _ & _ & Hk & _).
    by exists h'.
Qed.

(** A process that has allocated a hundred bytes. *)
Definition small_heap : Umalloc.uheap :=
  match Umalloc.malloc 4096 (λ _, true) 20 100 (Umalloc.mkHeap ∅ 0 8192) with
  | Ret _ h => h
  | _ => Umalloc.mkHeap ∅ 0 8192
  end.
Lemma allocator_safe_witness :
  Umalloc.reachable 4096 (λ _, true) small_heap {[ 40848 := 14 ]} ∧
  ∃ n, ∀ fuel, (n < fuel)%nat → ∃ h', Umalloc.free fuel (40848 + 8) small_heap = Ret tt h' ∧
    Umalloc.keeps (delete 40848 {[ 40848 := 14 ]}) (Umalloc.u_mem small_heap) (Umalloc.u_mem h').
Proof.
  assert (Umalloc.reachable 4096 (λ _, true) small_heap {[ 40848 := 14 ]}) as Hr.
  { apply (Umalloc.reach_malloc 4096 (λ _, true) (Umalloc.mkHeap ∅ 0 8192) ∅ 20 100 40856 small_heap).
    - by apply Umalloc.reach_init.
    - done.
    - vm_compute. reflexivity. }
  split; [exact Hr|]. apply (allocator_safe 4096 (λ _, true) small_heap {[ 40848 := 14 ]} Hr) with (s := 14).
  reflexivity.
Defined.

(** ** printf *)

(** The two printing functions agree: on a format without [%x], [%p] and
    [%c], the user's [printf], a two-state machine, writes the bytes that the
    kernel's [cprintf], which looks ahead one character, prints; and [printf] on
    any format prints the rendering of the directives it consists of. *)
Theorem printf_cprintf_agree fmt args :
  (Forall Printf.int_arg args → forallb Printf.shared (Printf.directives (chars fmt)) = true →
   cprintf_chars (chars fmt) args = Printf.printf fmt args) ∧
  Printf.printf fmt args = Printf.render (Printf.directives (chars fmt)) args.
Proof. split; [apply Printf.cprintf_printf|apply Printf.printf_loop_render]. Qed.

Lemma printf_cprintf_agree_witness :
  cprintf_chars (chars "pid %d: %s%%") [CInt (-7); CStr (chars "sh")] =
  Printf.printf "pid %d: %s%%" [CInt (-7); CStr (chars "sh")].
Proof.
  apply (proj1 (printf_cprintf_agree "pid %d: %s%%" [CInt (-7); CStr (chars "sh")])); [by repeat constructor|reflexivity].
Defined.

(** ** The shell *)

(** C19: the shell's parser inverts printing: for every command, however
    pipelines, lists, background commands, redirections and blocks are nested,
    whose strings are words and whose argument lists are short enough, printing
    it (with parentheses where the grammar needs them) and parsing the line
    gives a command that reads, in the buffer the parser NUL-terminated, as the
    command that was printed. *)
Theorem shell_parse_print c x :
  ShPrint.printable c →
  ∃ c' b', Sh.parsecmd (ShPrint.print c ++ 0 :: x) = Ret (c', b') (length (ShPrint.print c)) ∧
           Sh.resolve b' c' = c.
Proof. apply ShPrint.parsecmd_print. Qed.
Definition sample_cmd : Sh.acmd :=
  Sh.AList (Sh.ABack (Sh.ARedir (Sh.APipe (Sh.AExec [chars "ls"]) (Sh.AExec [chars "wc"; chars "-l"])) (chars "n") 513 1))
    (Sh.AExec [chars "echo"; chars "hi"]).
Lemma shell_parse_print_witness :
  ∃ c' b', Sh.parsecmd (ShPrint.print sample_cmd ++ [0]) = Ret (c', b') (length (ShPrint.print sample_cmd)) ∧
           Sh.resolve b' c' = sample_cmd.
Proof. apply (shell_parse_print sample_cmd []). vm_compute. intuition (try done; try repeat constructor; try done). Defined.

(** C34: the parser deals with every line: it returns a command, having read the
    whole line, or reports an error; and the strings of the command are the
    words of the line it recorded: NUL-terminating them overwrites no character
    of any word. *)
Theorem shell_parse_total t x :
  Forall (λ c, c ≠ 0) t →
  (∃ c, Sh.parsecmd (t ++ 0 :: x) = Ret (c, Sh.nulterminate c (t ++ 0 :: x)) (length t) ∧
        Sh.resolve (Sh.nulterminate c (t ++ 0 :: x)) c = ShSpec.denote (t ++ 0 :: x) c) ∨
  ∃ msg, Sh.parsecmd (t ++ 0 :: x) = Panic msg.
Proof.
  intros Ht. destruct (ShSpec.parsecmd_cases t x Ht) as [(c & Hp & _ & Hr)|Hp]; [left; by exists c|by right].
Qed.
Lemma shell_parse_total_witness :
  let t := chars "ls >f | (cat; wc)" in
  (∃ c, Sh.parsecmd (t ++ [0]) = Ret (c, Sh.nulterminate c (t ++ [0])) (length t) ∧
        Sh.resolve (Sh.nulterminate c (t ++ [0])) c = ShSpec.denote (t ++ [0]) c) ∨
  ∃ msg, Sh.parsecmd (t ++ [0]) = Panic msg.
Proof. apply (shell_parse_total (chars "ls >f | (cat; wc)") []). by repeat constructor. Defined.

(** C35: running a command wires its programs up.  With the three standard
    descriptors open, room for two more, and redirections of descriptors 0 and 1
    only, [runcmd] executes, when its system calls succeed, exactly the programs the
    command names, each in the process and with the open files its place asks for: a
    redirected descriptor is the file, the left side of a pipeline writes to the pipe
    its right side reads, and no program keeps a further end of a pipe open.  The
    process that runs a list waits for the left side before it runs the right one; the
    one that runs a pipeline waits for both sides, having closed both ends of the
    pipe; nobody waits for a command in the background. *)
Theorem shell_wires_command c t id n :
  ShRun.redirs_ok c → ShRun.std_open t →
  ShRun.execs (ShRun.runcmd c) t id n = ShRun.wants c t id n.
Proof. apply ShRun.execs_runcmd. Qed.
(** A chain of two pipes. *)
Lemma shell_wires_command_witness :
  let t := [Some (ShRun.Inherited 0); Some (ShRun.Inherited 1); Some (ShRun.Inherited 2); None; None] in
  let c := Sh.APipe (Sh.AExec [chars "ls"]) (Sh.APipe (Sh.AExec [chars "grep"; chars "x"]) (Sh.ARedir (Sh.AExec [chars "wc"]) (chars "out") 0x201 1)) in
  ShRun.execs (ShRun.runcmd c) t [] 0 = ShRun.wants c t [] 0.
Proof.
  intros t c. apply (shell_wires_command c t [] 0).
  - vm_compute. intuition.
  - exists (ShRun.Inherited 0), (ShRun.Inherited 1), (ShRun.Inherited 2), [], [], []. done.
Defined.

(** ** cat and wc *)
Import Progs.

(** [cat] writes its files: however the reads divide them, the bytes of the files
    in the order of the arguments, up to the first file that cannot be opened, for
    which it prints a message; without an argument it writes its input. *)
Theorem cat_prints_files `{SY : !Sys} `{FI : !Files} fuel argv w input :
  (∀ a bs, a ∈ argv → content w a = Some bs → (length bs < fuel)%nat) →
  pending w 0 = Some input → (length input < fuel)%nat →
  ∃ w', cat_main fuel argv w = Switch w' ∧
    shown w' = shown w ++ (if decide (argv = []) then input else cat_output (content w) argv).
Proof.
  intros Hf Hp Hi. case_decide as Ha; [subst argv; unfold cat_main|].
  - apply (runs_switch (cat fuel 0) (λ w', shown w' = shown w ++ input)). by apply (runs_cat 0 _ fuel input).
  - destruct argv as [|a argv]; [done|]. unfold cat_main. apply runs_switch with (P := λ w', shown w' = shown w ++ cat_output (content w) (a :: argv)).
    apply (runs_files (λ a bs, bs) _ (λ fd a, cat fuel fd)); [by eexists| |done].
    intros b bs fd w1 Q E Hb Hbs Hpe HQ. by apply (runs_cat fd E fuel bs); [|apply (Hf b)|].
Qed.

(** C33: [wc] counts: for each file it prints the numbers of its newlines, of its words
    (the longest runs of characters other than white space) and of its bytes, and the
    file's name, however the reads divide the file and its words. *)
Theorem wc_counts_files `{SY : !Sys} `{FI : !Files} fuel argv w :
  (∀ a bs, a ∈ argv → content w a = Some bs → (length bs < fuel)%nat ∧ Z.of_nat (length bs) < 2147483648) → argv ≠ [] →
  ∃ w', wc_main fuel argv w = Switch w' ∧ shown w' = shown w ++ wc_output (content w) argv.
Proof.
  intros Hf Ha. destruct argv as [|a argv]; [done|]. unfold wc_main. apply runs_switch with (P := λ w', shown w' = shown w ++ wc_output (content w) (a :: argv)).
  apply (runs_files (λ a bs, wc_line bs a) _ (λ fd a, wc fuel fd a)); [by eexists| |done].
  intros b bs fd w1 Q E Hb Hbs Hpe HQ. destruct (Hf b bs Hb Hbs). by apply (runs_wc fuel fd b bs E).
Qed.

(** A system with files by name, one open file besides the input, and reads of at
    most five bytes. *)
Record desk := mkDesk { d_files : list (list Z * list Z); d_open : gmap Z (list Z); d_shown : list Z }.
Definition desk_find (a : list Z) (d : desk) : option (list Z) := o ←? list_find (λ f, f.1 = a) (d_files d); Some o.2.2.
Definition desk_sys : Sys := {|
  world := desk;
  sys_open a _ d := match desk_find a d with
    | Some bs => (3, mkDesk (d_files d) (<[3 := bs]> (d_open d)) (d_shown d)) | None => (-1, d) end;
  sys_close fd d := (0, d);
  sys_read fd n d :=
    let bs := default [] (d_open d !! fd) in
    let k := Nat.min (Nat.min 5 (Z.to_nat n)) (length bs) in
    ((Z.of_nat k, take k bs), mkDesk (d_files d) (<[fd := drop k bs]> (d_open d)) (d_shown d));
  sys_write fd bs d := (Z.of_nat (length bs), if fd =? 1 then mkDesk (d_files d) (d_open d) (d_shown d ++ bs) else d);
  sys_fstat _ d := ((-1, mkStat 0 0 0 0 0), d);
  sys_link _ _ d := (-1, d); sys_unlink _ d := (-1, d); sys_mkdir _ d := (-1, d); sys_kill _ d := (-1, d)
|}.
#[program] Definition desk_files : @Files desk_sys := {|
  content d a := desk_find a d; pending d fd := d_open d !! fd; shown := d_shown
|}.
Next Obligation.
  intros a d. cbn. destruct (desk_find a d) as [bs|] eqn:E; split_and!; try done. apply lookup_insert_eq.
Qed.
Next Obligation.
  intros fd n d bs Hp Hn. cbn. cbn in Hp. rewrite Hp. cbn [default from_option].
  exists (Nat.min (Nat.min 5 (Z.to_nat n)) (length bs)). split_and!; try done; try lia; [|apply lookup_insert_eq].
  intros Hne. destruct bs; [done|]. cbn [length]. lia.
Qed.
Next Obligation. intros bs d. done. Qed.
Next Obligation. intros fd d. done. Qed.

Definition desk_start : desk := mkDesk [(chars "a", chars "one two" ++ [10]); (chars "b", chars " three" ++ [10])] {[0 := chars "input"]} [].
Lemma cat_prints_files_witness :
  ∃ w', cat_main (SY := desk_sys) 20 [chars "a"; chars "b"; chars "c"] desk_start = Switch w' ∧
    d_shown w' = chars "one two" ++ [10] ++ chars " three" ++ [10] ++ chars "cat: cannot open c" ++ [10].
Proof.
  destruct (cat_prints_files (SY := desk_sys) (FI := desk_files) 20 [chars "a"; chars "b"; chars "c"] desk_start (chars "input"))
    as (w' & Hr & Hs).
  - intros a bs Ha Hb. cbn in Hb. rewrite !elem_of_cons in Ha. destruct Ha as [-> | [-> | [-> | Ha]]]; [..|by apply elem_of_nil in Ha];
      vm_compute in Hb; simplify_eq; simpl; lia.
  - reflexivity.
  - simpl. lia.
  - exists w'. split; [exact Hr|]. etransitivity; [exact Hs|]. vm_compute. reflexivity.
Defined.
Lemma wc_counts_files_witness :
  ∃ w', wc_main (SY := desk_sys) 20 [chars "a"; chars "b"] desk_start = Switch w' ∧
    d_shown w' = chars "1 2 8 a" ++ [10] ++ chars "1 1 7 b" ++ [10].
Proof.
  destruct (wc_counts_files (SY := desk_sys) (FI := desk_files) 20 [chars "a"; chars "b"] desk_start) as (w' & Hr & Hs).
  - intros a bs Ha Hb. cbn in Hb. rewrite !elem_of_cons in Ha. destruct Ha as [-> | [-> | Ha]]; [..|by apply elem_of_nil in Ha];
      vm_compute in Hb; simplify_eq; simpl; lia.
  - done.
  - exists w'. split; [exact Hr|]. etransitivity; [exact Hs|]. vm_compute. reflexivity.
Defined.
